(* ===== verification/_CoqProject ===== *)
-Q . S2P
Prelude.v
Effects.v
Libc.v
Wire.v
Machine.v
Apic.v
Samples.v
ApicProps.v
DeviceBus.v
NoIoApic.v
BusConfig.v
BusProps.v
Kvm.v
Vmm.v
VmmProps.v
Device.v
ThreadPool.v
Vga.v
DeviceProps.v
KMem.v
KMalloc.v
KernelProps.v
Hyper.v
Ept.v
Vmcs.v
Vmx.v
HyperProps.v
Stubs.v
StubProps.v
Micro.v
MicroExec.v
MicroCrc.v
MicroMem.v
MicroProps.v
Virtio.v
VirtioExec.v
VirtioSafe.v
Net.v
NetSafe.v
NetProps.v
NicSys.v
NicProps.v
P9Wire.v
P9Core.v
P9Dev.v
P9Safe.v
P9Serve.v
P9Parse.v
P9Steps.v
P9Path.v
P9Props.v
KP9.v
KP9Enc.v
KShare.v
KP9Props.v
KSys.v
KDriver.v
KBump.v
KDriverExec.v
KDriverDev.v
KDriverProps.v
KShell.v
KShellProps.v
KIrqProps.v
OgxEvent.v
Ogx.v
OgxSafe.v
OgxServe.v
OgxSample.v
OgxExec.v
OgxProps.v
