(* ===== verification/Prelude.v ===== *)
(** * OOOWS: a virtual machine monitor, its devices and its hypervisor

    This library models OOOWS and proves what makes it correct.
    OOOWS runs x86 virtual machines: one monitor process per machine, one
    thread per virtual CPU, one process per device, on KVM or on the kernel
    module hyper-o.

    ** The program and its model

    - [vmm.c], [inc/vmm.h]: the monitor.  It lays out the guest's memory, creates
      the CPUs and starts their threads.  Files [Machine] (the state: [hv_t],
      [vcpu_t], [ioapic_t], the device list and the heap of queue nodes, as one
      record [vmm_state]) and [Vmm] (the operations, over the interface
      [Backend] of a hypervisor).
    - [kvm/kvmstubs.c]: the backend on KVM, with the loop that runs a CPU and
      dispatches its exits.  File [Kvm]; the instance [kvm_backend_ok] discharges
      the interface.  One of its requests passes a structure where the driver
      expects a pointer: the driver may store anywhere, which is the fault
      [StrayStore].
    - [apic.c], [inc/apic.h]: local APICs, I/O APIC, redirection table and the
      interrupt queue.  File [Apic]; the class [BoundedQueue] is what the queue
      promises to its client.
    - [devicebus.c], [inc/devicebus.h], [inc/iostructs.h]: the device bus.  It
      reads the configuration, starts a device on its first access and exchanges
      requests with it over a socket.  Files [Wire] (the bytes of requests and
      of the handshake), [DeviceBus] (the operations), [BusConfig] (the parser
      of the configuration file).
    - [hyper-o/stubs/hypero_stubs.c]: the second backend of the monitor, on the
      kernel module hyper-o.  It decodes the instruction that made an access and
      executes it on the registers.  File [Stubs]; the class [BusLaws] is what
      it needs of the device bus, and [vmm_bus_laws] shows that the
      bus of the monitor provides it.  This backend leaves the pointer to the
      I/O APIC null; [NoIoApic] has the device bus on such a machine.
    - [devices/utils]: handshake, frontend connection, per-machine names
      ([Device]) and the thread pool ([ThreadPool]).
    - [devices/utils/mem-manager.cpp], [virtio.cpp]: the library of virtio
      devices, with registers, queues and buffers on the guest's memory.  File
      [Virtio]; the class [VirtioDevice] has the virtual functions of a device.
      [VirtioExec] has the lemmas on each operation and [VirtioSafe] the safety of
      the request loop for every device that fulfils [VirtioLaws].
    - [devices/broadcooom/microengine.cpp], [types.hpp]: the processor of the
      network card, with four contexts, two memories and their controllers.
      Files [Micro] (instructions and interpreter), [MicroExec] (what each
      instruction does), [MicroCrc] (the CRC table), [MicroMem] (the memory
      controllers).
    - [devices/ooows-net.cpp], [devices/broadcooom/phy.cpp]: the network card as a
      virtio device and its connection to the network.  File [Net]; [NetSafe]
      discharges [VirtioLaws] for it; [NicSys] has the threads of the card
      (interpreter, two memory controllers, sender, receiver, workers) as a
      transition system over the operations of [Micro] and [Net], the delivery
      of a packet by [handleRx] ([deliver]) among them.
    - [devices/ooows-p9fs.cpp], [devices/p9fs]: the 9p file server as a virtio
      device.  Files [P9Wire] (requests and their parsing), [P9Core] (fids, file
      objects with reference counts, execution of requests on the host's file
      system), [P9Dev] (the device with its two threads); [P9Safe], [P9Serve],
      [P9Parse], [P9Steps] and [P9Path] have the lemmas on objects, responses,
      parsing, threads and paths.
    - [devices/ogx/ogx.cpp], [Enclave.cpp], [ThreadPool.cpp], [Event.cpp]: the
      enclave device, which runs payloads of native code that the guest sends
      encrypted.  Files [OgxEvent] (messages; the JSON library and libsodium are
      the classes [Json] and [Sodium] with their laws, and [OgxSample] has
      instances), [Ogx] (enclaves, thread pool, device class, the thread that
      responds, start), [OgxSafe] and [OgxServe] (the invariant, the transition
      system of the threads and [VirtioLaws]), [OgxExec] (what each operation
      does exactly).  A payload is a call to the environment that returns the
      memory behind its own key, a result, the signals that it raised, the mark at
      the address it returns to, and whether it is really back at its caller; the
      two checks of [trampoline.asm] are definitions of [Ogx], and a payload that
      passes them without being back is the fault [Escaped].
    - [devices/ooows-vga.c]: the display ([Vga]).
    - [boot/kernel/malloc.c]: the allocator of the guest kernel, on the guest's
      byte-addressed memory ([KMem], [KMalloc]).
    - [boot/kernel/p9.c]: the 9p client of the guest ([KP9]; [KP9Enc] has what
      each function leaves in its buffer, [KShare] the memory that guest and
      devices share).
    - [boot/kernel/kernel.c], [noflag.c], [interrupts.h], [asm_routines.asm]: the
      guest kernel's console, interrupts and globals ([KSys]) and its command
      loop with all commands ([KShell]).
    - [boot/kernel/virtio_drv.c]: the guest's virtio driver ([KDriver]; [KBump] is
      the allocator before anything is freed, [KDriverExec] the memory of a queue,
      [KDriverDev] how a device handles the driver's stores).
    - [hyper-o/vmx.c], [hyper-o/main.c], [hyper-o/inc]: the kernel module.  Files
      [Hyper] (state, instructions and kernel services), [Ept] (extended page
      tables and the processor's walk of them), [Vmcs] (field encodings and
      initialisation of the VMCS), [Vmx] (running a CPU, handling exits, the
      device file with its requests).

    Definitions have the names of the C functions; where a C function is split,
    the parts say which label, loop or branch they are.

    ** How the code is represented

    Machine integers are [Z] with every conversion written out ([wrap], [swrap]);
    bit fields are [bits] and [set_bits]; memory blocks are lists of bytes, so
    that structures sent over sockets, page-table entries and the blocks of the
    guest's heap have their exact layout.  Effects are programs of the monad of
    [Effects]: state, a trace of external calls, the mutexes that the thread
    holds, and faults (null pointers, accesses out of bounds, failed assertions,
    panics, double locking, exit, a store of the kernel to a stray address,
    native code that escapes).  Everything outside of the modelled files (the
    operating system, the KVM driver, VMX instructions, kernel services, other
    processes) is an environment: an arbitrary function from the history of
    calls to a reply.  Theorems hold for every environment; what they need of it
    (memory is available, a read of a VMCS field succeeds) is a hypothesis with
    a witness.  [wp m Q w] says that [m] ends without a fault with [Q];
    [safe m Q w] also allows it to go on for ever or to exit; [bounded m] says
    that the fuel of its loops is enough.

    Fuel: loops over data of known size get that size (the heap, the device
    list, the file), and the theorems prove that it is enough, as in
    [config_terminates] and in the allocator, whose theorems ask for one step
    per block.  The loops that run as long as the guest does ([hvRunVcpu], the
    device threads, the run request of hyper-o) take the number of rounds as an
    argument, and the theorems hold for every number.  The fuel of the guest
    kernel bounds its string functions, its allocator and its waiting loops; the
    theorems ask for more than the longest string or the number of blocks.

    The guest kernel's memory is a function from 32-bit addresses to bytes; what
    the devices store there, and interrupts, happens when the kernel waits in a
    loop or stores to a device register.

    Other threads: a thread that waits on a condition variable hands its state
    to an arbitrary change by the others, of which the theorems ask that it
    keeps the invariant ([interfere], the reply of [Cond_wait]).  Between lock and
    unlock a thread runs alone, and exceptions release the locks ([lock_guard],
    [try_catch] and the logic [wpo] in [OgxSafe]); the threads of the network card are the
    exception, where [NicSys] interleaves single instructions and transfers, and
    the workers of the enclave device, which others interrupt between the check
    of a payload and its run.

    ** The theorems

    - [ApicProps]: the interrupt queue refines a bounded FIFO; register accesses
      of any kind are safe; the redirection table is memory; delivery,
      injection, in-service bits and start-up interrupts do what they should;
      two table entries are out of reach.
    - [BusProps]: configuration round trip and termination; requests survive the
      wire; a port access is one exact exchange; memory accesses are safe with
      any device; a lost answer is taken for success.
    - [VmmProps]: any run of a CPU is safe up to the stray store of one request,
      and safe where the driver stores nothing there; segment conversion round trips; the
      reset vector lies in the BIOS; the memory layout; CPU creation on any
      backend; defects (registers that are never fetched, a fifth CPU, an
      unstarted CPU), and the end of a run on shutdown.
    - [DeviceProps]: the display is a memory with a screen that follows it, for
      all request sequences; loads after stores; mode switches; the part of the
      screen that cannot be drawn; the thread pool is a FIFO; the handshake.
      The screen follows in the part that can be drawn.
    - [KernelProps]: the allocator tiles its heap, returns fresh disjoint blocks
      and keeps the contents of all others, for every client within a budget on
      a machine whose word at address 8 is zero; double allocation and divergence outside of these conditions.
    - [StubProps]: any run on the hyper-o backend is safe below 4 MiB and away from
      the redirection table, where it follows a null pointer; memory and
      port instructions move exactly the bytes of their operand; the decoder
      follows the mode of the CPU, with one exception.
    - [MicroProps]: every instruction word keeps the types of the engine and
      changes one register at most; contexts are isolated; 64-bit addition and
      byte loads; transfers are exact within the bounds and fault outside of
      them, and memories hold what was written; the CRC table computes the
      polynomial division.
    - [NetProps]: the bounds check of the memory manager is exact; the card serves
      every guest without a fault as long as firmware and other threads keep it
      well formed; buffers are taken in order; packets arrive at the firmware, and
      at the other cards up to 1514 bytes; the used ring is missed and a read
      of a register ends the worker.
    - [NicProps]: no wake-up of a context is lost by any interleaving, except by
      a failed delivery to the guest, after which the context sleeps for ever.
    - [P9Props]: the invariant of the file server under every interleaving of its
      threads with a careful client; its threads run without a fault; no request
      leaves the share; requests arrive as they were sent but for strings, which
      are read on behind their block up to a zero; responses are stored in the
      guest's buffer only; the length of responses; walks of a fid
      onto itself and unchecked lengths.
    - [OgxProps]: the enclave device serves every guest without a fault, however
      its threads take turns, as long as payloads that pass the trampoline are
      really back and code can be made writable again; once it is unprivileged,
      and no other worker passed the check before, it runs no payload with a
      forbidden instruction, and a race without that condition; a payload's run in a
      table of all its branches, with what it leaves behind; requests are scheduled as they were
      sent, and responses are decrypted by the sender of the
      request.
    - [KP9Props]: every request of the guest's client arrives at the server, its
      strings with what the server's memory holds behind them.
    - [KDriverProps]: a queue that the guest's driver sets up is accepted by every
      virtio device with all its buffers; a buffer that is added is the next that
      is taken; a buffer that is returned corrupts the guest's heap.
    - [KShellProps]: what the guest's command loop does with a line.
    - [KIrqProps]: the guest's interrupt handling and the monitor's controllers.
    - [HyperProps]: a mapped region is translated page by page, with one page
      too many; unmapping works on the first table only; the exact state after
      every exit.

    Each claim has a number, C1 to C40, in its comment; a theorem with hypotheses
    is followed by a witness that applies it to a concrete machine ([Samples] and
    the samples in the property files).

    Further theorems have no number: round trips of segments, requests and the
    redirection table, the reset vector, look-up of ports, display updates, and
    defects such as [fifth_cpu_out_of_bounds] or [high_code_out_of_bounds].

    ** What is not modelled

    The native code of payloads, the registers that the trampoline passes on,
    libsodium and the JSON library are parameters; the test harness of the enclave device, its
    destructors and [ThreadPool::Shutdown] are left out.  Assembly files, the web
    frontend, the assembler of the microcode, test programs ([hyper-o/user-test.c]
    and its [mmio_man.c], [microcode-enginetest.c]) and log printing are left out;
    assembly wrappers are calls to the environment.  Of the C++ memory model
    only sequentially consistent interleavings of whole queue operations, single
    word transfers and single instructions are considered.

    This file holds what all others share: machine integers, bit fields, byte
    blocks, record update and lemmas on lists. *)

From stdpp Require Export base tactics option list numbers gmap strings.
From Stdlib Require Export ZArith Lia.

#[export] Set Default Goal Selector "!".
Open Scope Z_scope.
Coercion Z.of_nat : nat >-> Z.

(** ** Machine integers

    A w-bit unsigned C integer is a [Z] kept in [0 .. 2^w - 1]; every
    conversion that C performs is written out with one of these functions. *)

Definition wrap (w z : Z) : Z := z mod 2 ^ w.

Abbreviation u8 := (wrap 8).
Abbreviation u16 := (wrap 16).
Abbreviation u32 := (wrap 32).
Abbreviation u64 := (wrap 64).

(** Conversion to a signed w-bit integer (two's complement). *)
Definition swrap (w z : Z) : Z := (z + 2 ^ (w - 1)) mod 2 ^ w - 2 ^ (w - 1).

Abbreviation i8 := (swrap 8).
Abbreviation i32 := (swrap 32).
Abbreviation i64 := (swrap 64).

Definition in_width (w z : Z) : Prop := 0 <= z < 2 ^ w.

#[export] Instance in_width_dec w z : Decision (in_width w z).
Proof. unfold in_width. apply _. Defined.

Create HintDb machine.
Create Rewrite HintDb machine_bits.
Create Rewrite HintDb machine_len.

Lemma wrap_range w z : 0 <= w -> in_width w (wrap w z).
Proof. intros. unfold in_width, wrap. apply Z.mod_pos_bound. lia. Qed.

Lemma wrap_small w z : in_width w z -> wrap w z = z.
Proof. apply Z.mod_small. Qed.

Lemma wrap_wrap w z : 0 <= w -> wrap w (wrap w z) = wrap w z.
Proof. intros. apply wrap_small, wrap_range; done. Qed.

Lemma wrap_testbit w z i :
  0 <= w -> 0 <= i -> Z.testbit (wrap w z) i = bool_decide (i < w) && Z.testbit z i.
Proof.
  intros Hw Hi. unfold wrap. case_bool_decide; simpl.
  - by rewrite Z.mod_pow2_bits_low by lia.
  - by rewrite Z.mod_pow2_bits_high by lia.
Qed.

Lemma swrap_small w z : 0 < w -> - 2 ^ (w - 1) <= z < 2 ^ (w - 1) -> swrap w z = z.
Proof.
  intros Hw Hz. unfold swrap.
  assert (2 ^ w = 2 * 2 ^ (w - 1)).
  { rewrite <-Z.pow_succ_r by lia. f_equal. lia. }
  rewrite Z.mod_small by lia. lia.
Qed.

(** Converting a [w]-bit value to signed and back is the identity. *)
Lemma wrap_swrap w z : 0 < w -> wrap w (swrap w z) = wrap w z.
Proof.
  intros Hw. unfold wrap, swrap.
  rewrite Zminus_mod_idemp_l. f_equal. lia.
Qed.

#[export] Hint Resolve wrap_range : machine.
#[export] Hint Rewrite wrap_testbit using lia : machine_bits.

(** ** Bit fields

    [bits v lo w] reads the [w]-bit field of [v] that starts at bit [lo];
    [set_bits v lo w x] is the C assignment to such a field: [x] is truncated
    to the width of the field and every other bit of [v] is kept. *)

Definition bits (v lo w : Z) : Z := Z.land (Z.shiftr v lo) (Z.ones w).

Definition set_bits (v lo w x : Z) : Z :=
  Z.lor (Z.ldiff v (Z.shiftl (Z.ones w) lo)) (Z.shiftl (wrap w x) lo).

Lemma ones_testbit w i : 0 <= w -> 0 <= i -> Z.testbit (Z.ones w) i = bool_decide (i < w).
Proof.
  intros. case_bool_decide.
  - by apply Z.ones_spec_low.
  - apply Z.ones_spec_high. lia.
Qed.

Lemma bits_testbit v lo w i :
  0 <= lo -> 0 <= w -> 0 <= i ->
  Z.testbit (bits v lo w) i = bool_decide (i < w) && Z.testbit v (i + lo).
Proof.
  intros. unfold bits.
  rewrite Z.land_spec, Z.shiftr_spec, ones_testbit by lia. apply andb_comm.
Qed.

Lemma set_bits_testbit v lo w x i :
  0 <= lo -> 0 <= w -> 0 <= i ->
  Z.testbit (set_bits v lo w x) i =
  if bool_decide (lo <= i < lo + w) then Z.testbit x (i - lo) else Z.testbit v i.
Proof.
  intros. unfold set_bits.
  rewrite Z.lor_spec, Z.ldiff_spec, !Z.shiftl_spec by lia.
  destruct (Z.lt_ge_cases i lo) as [Hlt | Hge].
  - rewrite !(Z.testbit_neg_r _ (i - lo)) by lia.
    rewrite bool_decide_false by lia. by rewrite andb_true_r, orb_false_r.
  - rewrite ones_testbit, wrap_testbit by lia.
    destruct (Z.lt_ge_cases i (lo + w)).
    + rewrite (bool_decide_true (i - lo < w)), bool_decide_true by lia.
      by rewrite andb_false_r.
    + rewrite (bool_decide_false (i - lo < w)), bool_decide_false by lia.
      by rewrite andb_true_r, orb_false_r.
Qed.

Lemma in_width_mono a b z : 0 <= a <= b -> in_width a z -> in_width b z.
Proof. unfold in_width. intros. split; [lia|]. apply Z.lt_le_trans with (2 ^ a); [lia|]. apply Z.pow_le_mono_r; lia. Qed.

Lemma bits_range v lo w : 0 <= w -> in_width w (bits v lo w).
Proof.
  intros. unfold bits. rewrite Z.land_ones by lia. by apply wrap_range.
Qed.

Lemma bits_set_bits_same v lo w x :
  0 <= lo -> 0 <= w -> bits (set_bits v lo w x) lo w = wrap w x.
Proof.
  intros. apply Z.bits_inj'. intros i Hi.
  rewrite bits_testbit, set_bits_testbit, wrap_testbit by lia.
  case_bool_decide; simpl; [|done].
  rewrite bool_decide_true by lia. f_equal. lia.
Qed.

Lemma bits_set_bits_other v lo w x lo' w' :
  0 <= lo -> 0 <= w -> 0 <= lo' -> 0 <= w' ->
  (lo' + w' <= lo \/ lo + w <= lo') ->
  bits (set_bits v lo w x) lo' w' = bits v lo' w'.
Proof.
  intros. apply Z.bits_inj'. intros i Hi.
  rewrite !bits_testbit, set_bits_testbit by lia.
  case_bool_decide; simpl; [|done].
  by rewrite bool_decide_false by lia.
Qed.

Lemma in_width_testbit w z i : in_width w z -> 0 <= w <= i -> Z.testbit z i = false.
Proof.
  intros Hz Hi. rewrite <-(wrap_small w z) by done.
  rewrite wrap_testbit by lia. by rewrite bool_decide_false by lia.
Qed.

Lemma in_width_bits w z :
  0 <= w -> 0 <= z -> (forall i, w <= i -> Z.testbit z i = false) -> in_width w z.
Proof.
  intros Hw Hz Hb.
  assert (wrap w z = z) as <-; [|by apply wrap_range].
  apply Z.bits_inj'. intros i Hi. rewrite wrap_testbit by lia.
  case_bool_decide; simpl; [done|]. symmetry. apply Hb. lia.
Qed.

Lemma set_bits_range n v lo w x :
  0 <= lo -> 0 <= w -> lo + w <= n -> in_width n v -> in_width n (set_bits v lo w x).
Proof.
  intros Hlo Hw Hn Hv. apply in_width_bits; [lia| |].
  - unfold set_bits. apply Z.lor_nonneg. split.
    + apply Z.ldiff_nonneg. unfold in_width in Hv. lia.
    + apply Z.shiftl_nonneg. pose proof (wrap_range w x Hw) as Hx. unfold in_width in Hx. lia.
  - intros i Hi. rewrite set_bits_testbit by lia.
    rewrite bool_decide_false by lia. eapply in_width_testbit; [done|]. lia.
Qed.

#[export] Hint Rewrite bits_testbit set_bits_testbit ones_testbit Z.land_spec Z.lor_spec
  Z.ldiff_spec Z.shiftr_spec Z.shiftl_spec using lia : machine_bits.
#[export] Hint Resolve bits_range set_bits_range : machine.

(** [field_solve] closes read-after-write goals over disjoint bit fields. *)
Ltac field_solve :=
  repeat first [rewrite bits_set_bits_same by lia | rewrite bits_set_bits_other by lia];
  try reflexivity.

(** ** Bytes

    A block of memory is the list of its bytes; multi-byte values are stored
    least significant byte first, as on x86. *)

Abbreviation bytes := (list Z).

Fixpoint le_bytes (n : nat) (z : Z) : bytes :=
  match n with
  | O => []
  | S n => u8 z :: le_bytes n (Z.shiftr z 8)
  end.

Fixpoint le_val (bs : bytes) : Z :=
  match bs with
  | [] => 0
  | b :: bs => u8 b + 256 * le_val bs
  end.

Lemma length_le_bytes n z : length (le_bytes n z) = n.
Proof. revert z. induction n; simpl; auto. Qed.

Lemma le_val_bytes n z : le_val (le_bytes n z) = wrap (8 * n) z.
Proof.
  revert z. induction n as [|n IH]; intros z.
  - simpl. unfold wrap. by rewrite Z.mod_1_r.
  - cbn [le_bytes le_val]. rewrite IH, wrap_wrap by lia. unfold wrap.
    rewrite Z.shiftr_div_pow2 by lia.
    replace (8 * S n) with (8 + 8 * n) by lia.
    rewrite Z.pow_add_r by lia. change (2 ^ 8) with 256.
    symmetry. apply Z.rem_mul_r; lia.
Qed.

Lemma le_val_bytes_id (n : nat) z : in_width (8 * n) z -> le_val (le_bytes n z) = z.
Proof. intros. rewrite le_val_bytes. by apply wrap_small. Qed.

Lemma le_val_range bs : in_width (8 * length bs) (le_val bs).
Proof.
  unfold in_width. induction bs as [|b bs IH]; cbn [le_val length]; [simpl; lia|].
  replace (8 * S (length bs)) with (8 + 8 * length bs) by lia.
  rewrite Z.pow_add_r by lia. change (2 ^ 8) with 256.
  pose proof (wrap_range 8 b) as Hb. unfold in_width in Hb. change (2 ^ 8) with 256 in Hb.
  specialize (Hb ltac:(lia)). nia.
Qed.

Definition is_bytes (bs : bytes) : Prop := Forall (in_width 8) bs.

Lemma le_bytes_is_bytes n z : is_bytes (le_bytes n z).
Proof.
  revert z. induction n as [|n IH]; intros z; simpl; constructor; [by apply wrap_range|apply IH].
Qed.

Lemma le_val_head b bs : in_width 8 b -> u8 (le_val (b :: bs)) = b.
Proof.
  intros Hb. cbn [le_val]. rewrite (wrap_small 8 b) by done. unfold in_width in Hb.
  unfold wrap. change (2 ^ 8) with 256 in *. rewrite Z.mul_comm, Z.mod_add by lia.
  apply Z.mod_small. lia.
Qed.

Lemma le_val_tail b bs : in_width 8 b -> Z.shiftr (le_val (b :: bs)) 8 = le_val bs.
Proof.
  intros Hb. cbn [le_val]. rewrite (wrap_small 8 b) by done. unfold in_width in Hb.
  rewrite Z.shiftr_div_pow2 by lia. change (2 ^ 8) with 256 in *.
  rewrite Z.mul_comm, Z.div_add by lia. rewrite Z.div_small by lia. lia.
Qed.

Lemma le_bytes_val_take k bs :
  is_bytes bs -> (k <= length bs)%nat -> le_bytes k (le_val bs) = take k bs.
Proof.
  revert bs. induction k as [|k IH]; intros bs Hb Hk; [done|].
  destruct Hb as [|b bs Hb Hbs]; simpl in Hk; [lia|].
  cbn [le_bytes take]. rewrite le_val_head, le_val_tail by done. f_equal. apply IH; [done|lia].
Qed.

Lemma le_bytes_val bs : is_bytes bs -> le_bytes (length bs) (le_val bs) = bs.
Proof. intros. rewrite le_bytes_val_take by (done || lia). by apply take_ge. Qed.

(** Reading [n] bytes at offset [off], and the [memcpy] into a block. *)
Definition load (m : bytes) (off n : nat) : bytes := take n (drop off m).

Definition blit (m : bytes) (off : nat) (src : bytes) : bytes :=
  take off m ++ src ++ drop (off + length src) m.

Lemma length_blit m off src :
  (off + length src <= length m)%nat -> length (blit m off src) = length m.
Proof. intros. unfold blit. rewrite !length_app, length_take, length_drop. lia. Qed.

Lemma length_load m off n : (off + n <= length m)%nat -> length (load m off n) = n.
Proof. intros. unfold load. rewrite length_take, length_drop. lia. Qed.

Lemma load_blit_same m off src :
  (off <= length m)%nat -> load (blit m off src) off (length src) = src.
Proof.
  intros. unfold load, blit.
  rewrite drop_app_ge by (rewrite length_take; lia).
  rewrite length_take, Nat.min_l, Nat.sub_diag, drop_0 by lia.
  by rewrite take_app_length.
Qed.

Lemma blit_lookup_other m off src i :
  (off + length src <= length m)%nat -> (i < off \/ off + length src <= i)%nat ->
  blit m off src !! i = m !! i.
Proof.
  intros Hm [Hi|Hi]; unfold blit.
  - rewrite lookup_app_l by (rewrite length_take; lia). by rewrite lookup_take_lt by lia.
  - rewrite lookup_app_r by (rewrite length_take; lia).
    rewrite length_take, Nat.min_l by lia.
    rewrite lookup_app_r by lia. rewrite lookup_drop. f_equal. lia.
Qed.

Lemma load_blit_other m off src off' n :
  (off + length src <= length m)%nat -> (off' + n <= off \/ off + length src <= off')%nat ->
  load (blit m off src) off' n = load m off' n.
Proof.
  intros Hm Ho. apply list_eq. intros i. unfold load.
  destruct (decide (i < n)%nat).
  - rewrite !lookup_take_lt, !lookup_drop by lia. apply blit_lookup_other; lia.
  - by rewrite !lookup_take_ge by lia.
Qed.

#[export] Hint Rewrite length_le_bytes length_blit length_load using lia : machine_len.

(** ** Record update

    [r <| f := v |>] is [r] with the field [f] replaced. A record type opts in
    by giving its eta expansion as an instance of [Settable]. *)

Class Settable (R : Type) := eta : R -> R.
Class Setter {R T : Type} (proj : R -> T) := set_field : (T -> T) -> R -> R.

Ltac solve_setter proj :=
  let f := fresh "f" in
  let r := fresh "r" in
  unfold Setter; intros f r;
  let t := eval hnf in (eta r) in
  match eval pattern (proj r) in t with
  | ?F _ => let u := eval cbv beta in (F (f (proj r))) in exact u
  end.
#[export] Hint Extern 1 (Setter ?proj) => solve_setter proj : typeclass_instances.

Notation "r <| f := v |>" := (set_field (proj := f) (fun _ => v) r)
  (at level 1, left associativity, f at level 0, v at level 200).
Notation "r <| f ::= g |>" := (set_field (proj := f) g r)
  (at level 1, left associativity, f at level 0, g at level 200).

(** Array access with a C index: [None] outside of the array. *)
Definition znth {A} (l : list A) (i : Z) : option A :=
  if i <? 0 then None else l !! Z.to_nat i.

Lemma znth_is_Some {A} (l : list A) i : 0 <= i < length l -> is_Some (znth l i).
Proof.
  intros. unfold znth. rewrite (proj2 (Z.ltb_ge _ _)) by lia.
  apply lookup_lt_is_Some_2. lia.
Qed.

Lemma znth_nat {A} (l : list A) (i : nat) : znth l i = l !! i.
Proof.
  unfold znth. rewrite (proj2 (Z.ltb_ge _ _)) by lia. by rewrite Nat2Z.id.
Qed.

(** The 32-bit value at the start of a buffer ([*(uint32_t * )data]). *)
Definition load32 (data : bytes) : Z := le_val (load data 0 4).
Definition store32 (data : bytes) (v : Z) : bytes := blit data 0 (le_bytes 4 v).

Lemma load32_range data : in_width 32 (load32 data).
Proof.
  unfold load32. pose proof (le_val_range (load data 0 4)) as H.
  unfold in_width in *. split; [lia|].
  eapply Z.lt_le_trans; [apply H|]. apply Z.pow_le_mono_r; [lia|].
  unfold load. rewrite length_take. lia.
Qed.

Lemma length_store32 data v : (4 <= length data)%nat -> length (store32 data v) = length data.
Proof. intros. unfold store32. rewrite length_blit; [done|]. rewrite length_le_bytes. lia. Qed.

Lemma load32_store32 data v : (4 <= length data)%nat -> load32 (store32 data v) = u32 v.
Proof.
  intros. unfold load32, store32.
  replace 4%nat with (length (le_bytes 4 v)) at 2 by apply length_le_bytes.
  rewrite load_blit_same by lia. by rewrite le_val_bytes.
Qed.

(** ** Single bits of a 32-bit register: [1 << k], [~(1 << k)] *)

Lemma u32_shiftl_1 k : 0 <= k < 32 -> u32 (Z.shiftl 1 k) = 2 ^ k.
Proof.
  intros. rewrite Z.shiftl_1_l. apply wrap_small. split; [lia|].
  apply Z.pow_lt_mono_r; lia.
Qed.

Lemma land_bit_eqb x k : 0 <= k < 32 -> (Z.land x (u32 (Z.shiftl 1 k)) =? 0) = negb (Z.testbit x k).
Proof.
  intros Hk. rewrite u32_shiftl_1 by lia.
  destruct (Z.testbit x k) eqn:Hb; simpl.
  - apply Z.eqb_neq. intros H0.
    assert (Z.testbit (Z.land x (2 ^ k)) k = false) as H by (rewrite H0; apply Z.testbit_0_l).
    rewrite Z.land_spec, Hb, Z.pow2_bits_true in H by lia. done.
  - apply Z.eqb_eq. apply Z.bits_inj'. intros i Hi.
    rewrite Z.land_spec, Z.testbit_0_l.
    destruct (decide (i = k)) as [->|]; [by rewrite Hb|].
    rewrite Z.pow2_bits_false by lia. by rewrite andb_false_r.
Qed.

Lemma lor_bit x k : 0 <= k < 32 -> Z.lor x (u32 (Z.shiftl 1 k)) = Z.setbit x k.
Proof. intros. by rewrite u32_shiftl_1, Z.setbit_spec' by lia. Qed.

Lemma land_lnot_bit x k :
  0 <= k < 32 -> in_width 32 x -> Z.land x (u32 (Z.lnot (Z.shiftl 1 k))) = Z.clearbit x k.
Proof.
  intros Hk Hx. rewrite Z.clearbit_spec', Z.shiftl_1_l by lia.
  apply Z.bits_inj'. intros i Hi.
  rewrite Z.land_spec, wrap_testbit, Z.lnot_spec, Z.ldiff_spec by lia.
  case_bool_decide; simpl; [done|].
  by rewrite (in_width_testbit 32 x i) by (done || lia).
Qed.

Lemma setbit_range x k : 0 <= k < 32 -> in_width 32 x -> in_width 32 (Z.setbit x k).
Proof.
  intros Hk Hx. apply in_width_bits; [lia| |].
  - rewrite Z.setbit_spec' by lia. apply Z.lor_nonneg. unfold in_width in Hx. lia.
  - intros i Hi. rewrite Z.setbit_eqb by lia.
    rewrite (proj2 (Z.eqb_neq _ _)), (in_width_testbit 32 x i) by (done || lia). done.
Qed.

Lemma clearbit_range x k : 0 <= k < 32 -> in_width 32 x -> in_width 32 (Z.clearbit x k).
Proof.
  intros Hk Hx. apply in_width_bits; [lia| |].
  - rewrite Z.clearbit_spec' by lia. apply Z.ldiff_nonneg. unfold in_width in Hx. lia.
  - intros i Hi. rewrite Z.clearbit_eqb by lia.
    by rewrite (in_width_testbit 32 x i) by (done || lia).
Qed.

Lemma land_mask_range x w : 0 <= w -> in_width w (Z.land x (Z.ones w)).
Proof. intros. rewrite Z.land_ones by lia. by apply wrap_range. Qed.

Lemma land_1f_range x : 0 <= Z.land x 0x1f < 32.
Proof. apply (land_mask_range x 5). lia. Qed.

Lemma land_3_range x : 0 <= Z.land x 0x3 < 4.
Proof. apply (land_mask_range x 2). lia. Qed.

#[export] Hint Resolve setbit_range clearbit_range : machine.

Lemma le_val_take (n : nat) bs : le_val (take n bs) = wrap (8 * n) (le_val bs).
Proof.
  revert bs. induction n as [|n IH]; intros [|b bs]; cbn [take le_val].
  1,2: unfold wrap; by rewrite Z.mod_1_r.
  - unfold wrap. rewrite Z.mod_0_l; [done|]. apply Z.pow_nonzero; lia.
  - rewrite IH. unfold wrap. replace (8 * S n) with (8 + 8 * n) by lia.
    rewrite Z.pow_add_r by lia. change (2 ^ 8) with 256.
    assert (0 <= b mod 256 < 256) as Hb by (apply Z.mod_pos_bound; lia).
    rewrite Z.rem_mul_r by lia.
    replace (b mod 256 + 256 * le_val bs) with (b mod 256 + le_val bs * 256) by lia.
    rewrite Z.mod_add, Z.div_add by lia.
    by rewrite Z.mod_mod, (Z.div_small (b mod 256)) by lia.
Qed.

Lemma load32_le_val data : load32 data = u32 (le_val data).
Proof. unfold load32, load. rewrite drop_0. apply le_val_take. Qed.

Lemma blit_lookup_in m off src i :
  (off <= length m)%nat -> (off <= i < off + length src)%nat -> blit m off src !! i = src !! (i - off)%nat.
Proof.
  intros Hm Hi. unfold blit. rewrite lookup_app_r by (rewrite length_take; lia).
  rewrite length_take, Nat.min_l by lia. by rewrite lookup_app_l by lia.
Qed.

(** A buffer after a store, byte by byte. *)
Lemma blit_lookup m off src i :
  (off + length src <= length m)%nat ->
  blit m off src !! i = if decide (off <= i < off + length src)%nat then src !! (i - off)%nat else m !! i.
Proof.
  intros Hm. case_decide as Hi.
  - apply blit_lookup_in; lia.
  - apply blit_lookup_other; lia.
Qed.
