(* ===== verification/Effects.v ===== *)
(** * Effects: the state, trace, lock and fault monad

    C functions that touch memory, take mutexes or call the operating system
    are programs [prog I S A].  They run on a world made of the program's own
    state, the list of the external calls made so far (oldest first) and the
    mutexes that the running thread holds.  External code (the kernel, the
    hypervisor driver, other processes) is an [environment]: an arbitrary
    function from the history of calls and the current call to its reply.
    Every theorem quantifies over it.

    Undefined behaviour and abnormal ends are the [fault]s, so a statement
    made with [wp] says that the code reaches its end without any of them. *)

From S2P Require Import Prelude.

Record iface := Iface {
  call : Type;
  reply : call -> Type;
  mutex : Type;
  mutex_eq_dec : EqDecision mutex;
}.
#[export] Existing Instance mutex_eq_dec.

Definition environment (I : iface) : Type :=
  list (call I) -> forall c : call I, reply I c.

Inductive fault :=
  | OutOfBounds     (* access outside of the object a pointer points into *)
  | NullDeref       (* access through a null or unmapped pointer *)
  | AssertFailed    (* assert() or BUG_ON() *)
  | Panicked        (* panic() *)
  | Deadlocked      (* a thread locks a mutex it already holds *)
  | NotOwner        (* a thread unlocks a mutex it does not hold *)
  | OutOfFuel       (* the bound on a loop of the model was too small *)
  | Undefined       (* an indeterminate value or an undefined operation *)
  | StrayStore      (* the kernel stored through an argument that is no pointer *)
  | Escaped         (* native code of an enclave left it, or came back with a changed machine *)
  | Thrown          (* an exception that nothing catches *)
  | UseAfterFree    (* access through a pointer to an object that was deleted *)
  | Waits           (* a thread waits for another one *)
  | Exited (status : Z).

Section Monad.
Context {I : iface} {S : Type}.

Record world := World {
  w_st : S;
  w_trace : list (call I);
  w_held : list (mutex I);
}.

Inductive outcome (A : Type) :=
  | Ret (a : A) (w : world)
  | Fault (f : fault) (w : world).

Definition prog (A : Type) : Type := world -> outcome A.
End Monad.
Arguments world : clear implicits.
Arguments outcome : clear implicits.
Arguments prog : clear implicits.
Arguments World {I S}.
Arguments Ret {I S A}.
Arguments Fault {I S A}.

#[export] Instance world_eta I S : Settable (world I S) :=
  fun w => World (w_st w) (w_trace w) (w_held w).

#[export] Instance prog_ret I S : MRet (prog I S) := fun A a w => Ret a w.
#[export] Instance prog_bind I S : MBind (prog I S) := fun A B k m w =>
  match m w with
  | Ret a w' => k a w'
  | Fault f w' => Fault f w'
  end.

Section Operations.
Context {I : iface} {S : Type}.
Implicit Types (w : world I S).

Definition gets {A} (f : S -> A) : prog I S A := fun w => Ret (f (w_st w)) w.

Definition modify (f : S -> S) : prog I S unit := fun w =>
  Ret tt (w <| w_st ::= f |>).

Definition fail {A} (f : fault) : prog I S A := fun w => Fault f w.

(** The value of an option, or the fault. *)
Definition get_or {A} (f : fault) (o : option A) : prog I S A :=
  match o with Some a => mret a | None => fail f end.

Definition c_assert (b : bool) : prog I S unit :=
  if b then mret tt else fail AssertFailed.

Definition sys (env : environment I) (c : call I) : prog I S (reply I c) := fun w =>
  Ret (env (w_trace w) c) (w <| w_trace := w_trace w ++ [c] |>).

Definition lock (m : mutex I) : prog I S unit := fun w =>
  if decide (m ∈ w_held w) then Fault Deadlocked w
  else Ret tt (w <| w_held ::= cons m |>).

Definition unlock (m : mutex I) : prog I S unit := fun w =>
  if decide (m ∈ w_held w)
  then Ret tt (w <| w_held ::= filter (fun m' => m' <> m) |>)
  else Fault NotOwner w.
End Operations.

Section Loops.
Context {I : iface} {S : Type}.

(** [loop fuel body a]: a C loop whose body either goes on with a new value
    of its variables ([inl]) or leaves the loop with a result ([inr]). *)
Fixpoint loop {A B} (fuel : nat) (body : A -> prog I S (A + B)) (a : A) : prog I S B :=
  match fuel with
  | O => fail OutOfFuel
  | Datatypes.S fuel =>
      r ← body a;
      match r with
      | inl a => loop fuel body a
      | inr b => mret b
      end
  end.

(** [for_each l body]: a C for loop over the values [l] of its counter. *)
Fixpoint for_each {A} (l : list A) (body : A -> prog I S unit) : prog I S unit :=
  match l with
  | [] => mret tt
  | x :: l => body x;; for_each l body
  end.

(** A for loop with an early exit ([Some]); [None] when it runs to its end. *)
Fixpoint for_until {A B} (l : list A) (body : A -> prog I S (option B))
    : prog I S (option B) :=
  match l with
  | [] => mret None
  | x :: l =>
      r ← body x;
      match r with
      | Some b => mret (Some b)
      | None => for_until l body
      end
  end.
End Loops.

(** ** Weakest preconditions

    [wp m Q w]: started in [w], [m] ends without a fault, in a world and with
    a result that satisfy [Q]. *)

Section Wp.
Context {I : iface} {S : Type}.
Implicit Types (w : world I S).

Definition wp {A} (m : prog I S A) (Q : A -> world I S -> Prop) (w : world I S) : Prop :=
  match m w with
  | Ret a w' => Q a w'
  | Fault _ _ => False
  end.

Lemma wp_ret {A} (a : A) (Q : A -> world I S -> Prop) w : Q a w -> wp (mret a) Q w.
Proof. done. Qed.

Lemma wp_bind {A B} (m : prog I S A) (k : A -> prog I S B) Q w :
  wp m (fun a w' => wp (k a) Q w') w -> wp (m ≫= k) Q w.
Proof. unfold wp, mbind, prog_bind. by destruct (m w). Qed.

Lemma wp_bind_inv {A B} (m : prog I S A) (k : A -> prog I S B) Q w :
  wp (m ≫= k) Q w -> wp m (fun a w' => wp (k a) Q w') w.
Proof. unfold wp, mbind, prog_bind. by destruct (m w). Qed.

Lemma wp_mono {A} (m : prog I S A) (Q Q' : A -> world I S -> Prop) w :
  wp m Q w -> (forall a w', Q a w' -> Q' a w') -> wp m Q' w.
Proof. unfold wp. destruct (m w); auto. Qed.

Lemma wp_and {A} (m : prog I S A) (Q Q' : A -> world I S -> Prop) w :
  wp m Q w -> wp m Q' w -> wp m (fun a w' => Q a w' /\ Q' a w') w.
Proof. unfold wp. destruct (m w); auto. Qed.

Lemma wp_gets {A} (f : S -> A) (Q : A -> world I S -> Prop) w :
  Q (f (w_st w)) w -> wp (gets f) Q w.
Proof. done. Qed.

Lemma wp_modify (f : S -> S) (Q : unit -> world I S -> Prop) w :
  Q tt (w <| w_st ::= f |>) -> wp (modify f) Q w.
Proof. done. Qed.

Lemma wp_get_or {A} (f : fault) (o : option A) (Q : A -> world I S -> Prop) a w :
  o = Some a -> Q a w -> wp (get_or f o) Q w.
Proof. by intros ->. Qed.

Lemma wp_sys (env : environment I) (c : call I) (Q : reply I c -> world I S -> Prop) w :
  Q (env (w_trace w) c) (w <| w_trace := w_trace w ++ [c] |>) -> wp (sys env c) Q w.
Proof. done. Qed.

Lemma wp_lock (m : mutex I) (Q : unit -> world I S -> Prop) w :
  m ∉ w_held w -> Q tt (w <| w_held ::= cons m |>) -> wp (lock m) Q w.
Proof. intros. unfold wp, lock. by rewrite decide_False. Qed.

Lemma filter_ne_id (m : mutex I) (l : list (mutex I)) :
  m ∉ l -> filter (fun m' => m' <> m) l = l.
Proof.
  induction l as [|x l IH]; intros Hm; [done|].
  rewrite filter_cons_True by set_solver. f_equal. apply IH. set_solver.
Qed.

(** Releasing the mutex that was taken last restores the set held before. *)
Lemma wp_unlock (m : mutex I) (h : list (mutex I)) (Q : unit -> world I S -> Prop) w :
  w_held w = m :: h -> m ∉ h -> Q tt (w <| w_held := h |>) -> wp (unlock m) Q w.
Proof.
  intros Hh Hm HQ. unfold wp, unlock. rewrite decide_True by (rewrite Hh; set_solver).
  unfold set_field in *. rewrite Hh. rewrite filter_cons_False by tauto.
  by rewrite filter_ne_id.
Qed.

Lemma wp_assert (b : bool) (Q : unit -> world I S -> Prop) w :
  b = true -> Q tt w -> wp (c_assert b) Q w.
Proof. by intros ->. Qed.

Lemma wp_loop_inr {A B} fuel (body : A -> prog I S (A + B)) a (Q : B -> world I S -> Prop) w :
  wp (body a) (fun r w' => match r with
                           | inl a' => wp (loop fuel body a') Q w'
                           | inr b => Q b w'
                           end) w ->
  wp (loop (Datatypes.S fuel) body a) Q w.
Proof.
  intros H. cbn [loop]. apply wp_bind. eapply wp_mono; [exact H|].
  intros [a'|b] w'; auto.
Qed.

(** An invariant carried through a for loop. *)
Lemma wp_for_each {A} (l : list A) (body : A -> prog I S unit)
    (J : list A -> world I S -> Prop) (Q : unit -> world I S -> Prop) w :
  J [] w ->
  (forall pre x post w', l = pre ++ x :: post -> J pre w' ->
     wp (body x) (fun _ w'' => J (pre ++ [x]) w'') w') ->
  (forall w', J l w' -> Q tt w') ->
  wp (for_each l body) Q w.
Proof.
  intros H0 Hs HQ.
  assert (forall post pre w', l = pre ++ post -> J pre w' ->
            wp (for_each post body) Q w') as Hgo; [|by apply (Hgo l [])].
  induction post as [|x post IH]; intros pre w' Hl HJ.
  - simpl. apply wp_ret, HQ. by rewrite Hl, app_nil_r.
  - simpl. apply wp_bind. eapply wp_mono; [by eapply Hs|].
    intros [] w'' HJ'. apply (IH (pre ++ [x])); [|done].
    by rewrite Hl, <-app_assoc.
Qed.

(** A loop with an early exit that is not taken. *)
Lemma wp_for_until_none {A B} (l : list A) (body : A -> prog I S (option B))
    (J : list A -> world I S -> Prop) (Q : option B -> world I S -> Prop) w :
  J [] w ->
  (forall pre x post w', l = pre ++ x :: post -> J pre w' ->
     wp (body x) (fun r w'' => r = None /\ J (pre ++ [x]) w'') w') ->
  (forall w', J l w' -> Q None w') ->
  wp (for_until l body) Q w.
Proof.
  intros H0 Hs HQ.
  assert (forall post pre w', l = pre ++ post -> J pre w' ->
            wp (for_until post body) Q w') as Hgo; [|by apply (Hgo l [])].
  induction post as [|x post IH]; intros pre w' Hl HJ.
  - simpl. apply wp_ret, HQ. by rewrite Hl, app_nil_r.
  - simpl. apply wp_bind. eapply wp_mono; [by eapply Hs|].
    intros r w'' [-> HJ']. apply (IH (pre ++ [x])); [|done].
    by rewrite Hl, <-app_assoc.
Qed.
End Wp.

(** [wp_step] applies the rule of the first instruction; [wp_go] goes on as
    long as no case analysis and no side condition is needed. *)
Ltac wp_step :=
  lazymatch goal with
  | |- wp (mbind _ _) _ _ => apply wp_bind
  | |- wp (mret _) _ _ => apply wp_ret
  | |- wp (gets _) _ _ => apply wp_gets
  | |- wp (modify _) _ _ => apply wp_modify
  | |- wp (sys _ _) _ _ => apply wp_sys
  | |- wp (c_assert true) _ _ => apply wp_assert; [reflexivity|]
  | |- wp (if ?b then _ else _) _ _ => first [change b with true | change b with false]
  end; cbv beta iota.
Ltac wp_go := repeat wp_step.

(** ** Termination

    [bounded m]: the fuel of the loops in [m] is enough, whatever the world
    and the environment, and whatever else goes wrong. *)

Definition bounded {I S A} (m : prog I S A) : Prop :=
  forall w w', m w <> Fault OutOfFuel w'.

Create HintDb bounded.

Section Bounded.
Context {I : iface} {S : Type}.

Lemma bounded_ret {A} (a : A) : bounded (mret a : prog I S A).
Proof. done. Qed.

Lemma bounded_bind {A B} (m : prog I S A) (k : A -> prog I S B) :
  bounded m -> (forall a, bounded (k a)) -> bounded (m ≫= k).
Proof.
  intros Hm Hk w w'. unfold mbind, prog_bind. specialize (Hm w).
  destruct (m w) as [a w1|f w1]; [apply Hk|]. intros [= -> ->]. by apply (Hm w').
Qed.

Lemma bounded_gets {A} (f : S -> A) : bounded (gets f : prog I S A).
Proof. done. Qed.
Lemma bounded_modify (f : S -> S) : bounded (modify f : prog I S unit).
Proof. done. Qed.
Lemma bounded_sys (env : environment I) (c : call I) : bounded (sys env c : prog I S _).
Proof. done. Qed.
Lemma bounded_fail {A} (f : fault) : f <> OutOfFuel -> bounded (fail f : prog I S A).
Proof. intros Hf w w' [= ?]. done. Qed.
Lemma bounded_get_or {A} (f : fault) (o : option A) :
  f <> OutOfFuel -> bounded (get_or f o : prog I S A).
Proof. intros. destruct o; [done|]. by apply bounded_fail. Qed.
Lemma bounded_lock (m : mutex I) : bounded (lock m : prog I S unit).
Proof. intros w w'. unfold lock. by destruct (decide _). Qed.
Lemma bounded_unlock (m : mutex I) : bounded (unlock m : prog I S unit).
Proof. intros w w'. unfold unlock. by destruct (decide _). Qed.

Lemma bounded_for_each {A} (l : list A) (body : A -> prog I S unit) :
  (forall a, bounded (body a)) -> bounded (for_each l body).
Proof.
  intros Hb. induction l as [|x l IH]; [done|]. simpl. apply bounded_bind; [done|].
  by intros [].
Qed.

(** A loop whose variant decreases in every iteration that goes on. *)
Lemma bounded_loop {A B} (measure : A -> nat) (body : A -> prog I S (A + B)) fuel a :
  (forall a, bounded (body a)) ->
  (forall a w a' w', body a w = Ret (inl a') w' -> (measure a' < measure a)%nat) ->
  (measure a < fuel)%nat -> bounded (loop fuel body a).
Proof.
  intros Hb Hm. revert a. induction fuel as [|fuel IH]; intros a Ha; [lia|].
  intros w w'. cbn [loop]. unfold mbind, prog_bind.
  destruct (body a w) as [[a'|b] w1|f w1] eqn:Hbody; [|done|].
  - apply IH. specialize (Hm a w a' w1 Hbody). lia.
  - intros [= -> ->]. by apply (Hb a w w').
Qed.
End Bounded.
#[export] Hint Resolve bounded_ret bounded_gets bounded_modify bounded_sys bounded_lock
  bounded_unlock : bounded.
#[export] Hint Extern 2 (bounded (get_or _ _)) => apply bounded_get_or; discriminate : bounded.
#[export] Hint Extern 2 (bounded (fail _)) => apply bounded_fail; discriminate : bounded.

(** [bounded_go] decomposes a program; loops need their own lemma. *)
Ltac bounded_go :=
  repeat first
    [ solve [auto with bounded]
    | lazymatch goal with
      | |- bounded (mbind _ _) => apply bounded_bind; [|intros ?]
      | |- bounded (for_each _ _) => apply bounded_for_each; intros ?
      | |- bounded (match ?x with _ => _ end) => destruct x
      end ].

(** ** Programs that may run for ever

    [upto ok m Q w]: [m] ends in [Q], or stops in one of the ways that [ok]
    accepts.  [safe m Q w]: as long as it runs, [m] commits no fault; it may
    leave the process with [exit], wait for another thread, or still run when
    the fuel of a loop is used up, and where it returns, [Q] holds.  Proved for every amount of fuel, this
    covers all finite runs of a loop that does not have to end. *)

Section Safe.
Context {I : iface} {S : Type}.
Implicit Types (w : world I S).

Definition upto {A} (ok : fault -> bool) (m : prog I S A) (Q : A -> world I S -> Prop)
    (w : world I S) : Prop :=
  match m w with
  | Ret a w' => Q a w'
  | Fault f _ => ok f = true
  end.

Lemma wp_upto {A} ok (m : prog I S A) Q w : wp m Q w -> upto ok m Q w.
Proof. unfold wp, upto. by destruct (m w). Qed.

Lemma upto_bind {A B} ok (m : prog I S A) (k : A -> prog I S B) Q w :
  upto ok m (fun a w' => upto ok (k a) Q w') w -> upto ok (m ≫= k) Q w.
Proof. unfold upto, mbind, prog_bind. by destruct (m w). Qed.

Lemma upto_mono {A} ok (m : prog I S A) (Q Q' : A -> world I S -> Prop) w :
  upto ok m Q w -> (forall a w', Q a w' -> Q' a w') -> upto ok m Q' w.
Proof. unfold upto. destruct (m w); auto. Qed.

(** The invariant of a loop. *)
Lemma upto_loop {A B} ok (J : A -> world I S -> Prop) (Q : B -> world I S -> Prop)
    fuel (body : A -> prog I S (A + B)) a w :
  ok OutOfFuel = true ->
  (forall a w, J a w -> upto ok (body a) (fun r w' =>
     match r with inl a' => J a' w' | inr b => Q b w' end) w) ->
  J a w -> upto ok (loop fuel body a) Q w.
Proof.
  intros Hf Hb. revert a w. induction fuel as [|fuel IH]; intros a w HJ; [done|].
  cbn [loop]. apply upto_bind. eapply upto_mono; [by apply Hb|].
  intros [a'|b] w'; [apply IH|done].
Qed.

Definition stops (f : fault) : bool :=
  match f with OutOfFuel | Exited _ | Waits => true | _ => false end.
Definition safe {A} (m : prog I S A) (Q : A -> world I S -> Prop) (w : world I S) : Prop :=
  upto stops m Q w.

Lemma upto_wp {A} (m : prog I S A) Q w : upto (fun _ => false) m Q w -> wp m Q w.
Proof. unfold upto, wp. by destruct (m w). Qed.

Lemma safe_upto {A} (ok : fault -> bool) (m : prog I S A) Q w :
  (forall f, stops f = true -> ok f = true) -> safe m Q w -> upto ok m Q w.
Proof. unfold safe, upto. destruct (m w); auto. Qed.

Lemma wp_safe {A} (m : prog I S A) Q w : wp m Q w -> safe m Q w.
Proof. apply wp_upto. Qed.

Lemma safe_bind {A B} (m : prog I S A) (k : A -> prog I S B) Q w :
  safe m (fun a w' => safe (k a) Q w') w -> safe (m ≫= k) Q w.
Proof. apply upto_bind. Qed.

Lemma safe_mono {A} (m : prog I S A) (Q Q' : A -> world I S -> Prop) w :
  safe m Q w -> (forall a w', Q a w' -> Q' a w') -> safe m Q' w.
Proof. apply upto_mono. Qed.

Lemma safe_loop {A B} (J : A -> world I S -> Prop) (Q : B -> world I S -> Prop)
    fuel (body : A -> prog I S (A + B)) a w :
  (forall a w, J a w -> safe (body a) (fun r w' =>
     match r with inl a' => J a' w' | inr b => Q b w' end) w) ->
  J a w -> safe (loop fuel body a) Q w.
Proof. by apply upto_loop. Qed.
End Safe.

(** ** Steps that cannot fail *)

Definition total {I S A} (m : prog I S A) : Prop := forall w, wp m (fun _ _ => True) w.

Lemma wp_total_bind {I S A B} (m : prog I S A) (k : A -> prog I S B) Q w :
  total m -> (forall a w', wp (k a) Q w') -> wp (m ≫= k) Q w.
Proof. intros Hm Hk. apply wp_bind. eapply wp_mono; [apply Hm|]. auto. Qed.

Lemma total_if {I S} (b : bool) (m : prog I S unit) : total m -> total (if b then m else mret tt).
Proof. intros Hm w. destruct b; [apply Hm|done]. Qed.

(** ** Faults

    [faults m f w]: started in [w], [m] ends with the fault [f]. *)

Definition faults {I S A} (m : prog I S A) (f : fault) (w : world I S) : Prop :=
  exists w', m w = Fault f w'.

Section Faults.
Context {I : iface} {S : Type}.
Implicit Types (w : world I S).

Lemma faults_first {A B} (m : prog I S A) (k : A -> prog I S B) f w : faults m f w -> faults (m ≫= k) f w.
Proof. intros [w' H]. exists w'. unfold mbind, prog_bind. by rewrite H. Qed.

Lemma faults_then {A B} (m : prog I S A) (k : A -> prog I S B) f w :
  wp m (fun a w' => faults (k a) f w') w -> faults (m ≫= k) f w.
Proof. unfold wp, faults, mbind, prog_bind. by destruct (m w). Qed.

Lemma faults_get_or {A} (f : fault) (o : option A) w : o = None -> faults (get_or f o) f w.
Proof. intros ->. by eexists. Qed.

(** A for loop that goes wrong at [x]. *)
Lemma faults_for_each {A} (l : list A) (body : A -> prog I S unit)
    (J : list A -> world I S -> Prop) pre0 x0 post0 f w :
  l = pre0 ++ x0 :: post0 -> J [] w ->
  (forall pre x post w', pre0 = pre ++ x :: post -> J pre w' ->
     wp (body x) (fun _ w'' => J (pre ++ [x]) w'') w') ->
  (forall w', J pre0 w' -> faults (body x0) f w') ->
  faults (for_each l body) f w.
Proof.
  intros -> H0 Hs Hf.
  assert (forall post pre w', pre0 = pre ++ post -> J pre w' ->
            faults (for_each (post ++ x0 :: post0) body) f w') as Hgo; [|by apply (Hgo pre0 [])].
  induction post as [|x post IH]; intros pre w' Hl HJ.
  - apply faults_first, Hf. by rewrite Hl, app_nil_r.
  - cbn [for_each app]. apply faults_then. eapply wp_mono; [by eapply Hs|].
    intros [] w'' HJ'. apply (IH (pre ++ [x])); [|done]. by rewrite Hl, <-app_assoc.
Qed.
End Faults.

(** ** A part of the state

    [zoom get put m]: [m] works on the part [get] of a larger state. *)

Section Zoom.
Context {I : iface} {S T : Type} (get : T -> S) (put : S -> T -> T).

Definition zoom_world (w : world I T) : world I S := World (get (w_st w)) (w_trace w) (w_held w).
Definition unzoom (w : world I T) (w' : world I S) : world I T :=
  World (put (w_st w') (w_st w)) (w_trace w') (w_held w').

Definition zoom {A} (m : prog I S A) : prog I T A := fun w =>
  match m (zoom_world w) with
  | Ret a w' => Ret a (unzoom w w')
  | Fault f w' => Fault f (unzoom w w')
  end.

Lemma wp_zoom {A} (m : prog I S A) (Q : A -> world I T -> Prop) (w : world I T) :
  wp m (fun a w' => Q a (unzoom w w')) (zoom_world w) -> wp (zoom m) Q w.
Proof. unfold wp, zoom. by destruct (m (zoom_world w)). Qed.

Lemma upto_zoom {A} ok (m : prog I S A) (Q : A -> world I T -> Prop) (w : world I T) :
  upto ok m (fun a w' => Q a (unzoom w w')) (zoom_world w) -> upto ok (zoom m) Q w.
Proof. unfold upto, zoom. by destruct (m (zoom_world w)). Qed.

Lemma faults_zoom {A} (m : prog I S A) f (w : world I T) :
  faults m f (zoom_world w) -> faults (zoom m) f w.
Proof. intros [w' H]. unfold faults, zoom. rewrite H. by eexists. Qed.
End Zoom.

(** [m] works on local variables, which start as [l] and end with it. *)
Definition with_locals {I S L A} (l : L) (m : prog I L A) : prog I S A :=
  zoom (fun _ => l) (fun _ s => s) m.
