(* ===== verification/Libc.v ===== *)
(** * Libc: the string functions of the C library that the sources call

    A C string is the list of its characters before the terminating NUL.
    [strncmp] works on bytes with an implicit NUL behind them; [scan_hex] and
    [scan_token] are the [%x] and [%256s] conversions of [fscanf]. *)

From S2P Require Import Prelude.
From Stdlib Require Import Ascii.

Abbreviation chars := (list ascii).

Definition byte_of (c : ascii) : Z := Z.of_nat (nat_of_ascii c).
Definition string_bytes (s : string) : bytes := byte_of <$> String.list_ascii_of_string s.

(** The string that a buffer with these characters holds. *)
Fixpoint c_string (l : chars) : chars :=
  match l with
  | [] => []
  | c :: l => if Ascii.eqb c "000" then [] else c :: c_string l
  end.

(** ** strncmp *)

Fixpoint strncmp (n : nat) (a b : bytes) : Z :=
  match n with
  | O => 0
  | S n =>
      let x := default 0 (head a) in
      let y := default 0 (head b) in
      if x =? y then (if x =? 0 then 0 else strncmp n (tail a) (tail b))
      else x - y
  end.

Definition no_nul (a : bytes) : Prop := Forall (fun x => x <> 0) a.

Lemma strncmp_refl n a : strncmp n a a = 0.
Proof.
  revert a. induction n as [|n IH]; intros a; simpl; [done|].
  rewrite Z.eqb_refl. by destruct (_ =? 0).
Qed.

(** Comparing as many characters as the first string has is a prefix test. *)
Lemma strncmp_prefix a b :
  no_nul a -> strncmp (length a) a b = 0 <-> a `prefix_of` b.
Proof.
  intros Ha. revert b. induction Ha as [|x a Hx Ha IH]; intros b; simpl.
  { split; [|done]. intros _. apply prefix_nil. }
  destruct (x =? default 0 (head b)) eqn:Heq.
  - apply Z.eqb_eq in Heq. rewrite (proj2 (Z.eqb_neq x 0)) by done.
    destruct b as [|y b]; simpl in *; [done|]. subst y. rewrite IH. split.
    + apply prefix_cons.
    + apply prefix_cons_inv_2.
  - apply Z.eqb_neq in Heq. split; [lia|].
    intros Hp. destruct b as [|y b]; [by apply prefix_nil_not in Hp|].
    apply prefix_cons_inv_1 in Hp. simpl in Heq. done.
Qed.

(** ** White space and tokens *)

Definition is_space (c : ascii) : bool :=
  let n := byte_of c in (n =? 32) || ((9 <=? n) && (n <=? 13)).

Fixpoint skip_space (l : chars) : chars :=
  match l with
  | c :: l' => if is_space c then skip_space l' else l
  | [] => []
  end.

(** The characters of a [%<max>s] conversion and the rest of the input. *)
Fixpoint scan_token (max : nat) (l : chars) : chars * chars :=
  match max, l with
  | S max, c :: l' =>
      if is_space c then ([], l)
      else let '(t, rest) := scan_token max l' in (c :: t, rest)
  | _, _ => ([], l)
  end.

(** ** Hexadecimal numbers *)

Definition hex_digit (c : ascii) : option Z :=
  let n := byte_of c in
  if (48 <=? n) && (n <=? 57) then Some (n - 48)
  else if (97 <=? n) && (n <=? 102) then Some (n - 87)
  else if (65 <=? n) && (n <=? 70) then Some (n - 55)
  else None.

Fixpoint scan_digits (acc : Z) (l : chars) : Z * chars :=
  match l with
  | c :: l' =>
      match hex_digit c with
      | Some d => scan_digits (16 * acc + d) l'
      | None => (acc, l)
      end
  | [] => (acc, [])
  end.

(** [strtoul]: saturates at the largest [unsigned long], negates modulo 2^64. *)
Definition to_ulong (neg : bool) (v : Z) : Z :=
  if 2 ^ 64 <=? v then 2 ^ 64 - 1 else if neg then u64 (- v) else v.

(** [%x] into an [unsigned]: optional sign, optional [0x], digits. [None] is a
    matching failure or the end of the input. *)
Definition scan_hex (l : chars) : option Z * chars :=
  let l := skip_space l in
  let '(neg, l) := match l with
                   | c :: l' => if Ascii.eqb c "-" then (true, l')
                                else if Ascii.eqb c "+" then (false, l') else (false, l)
                   | [] => (false, l)
                   end in
  match l with
  | [] => (None, l)
  | c :: l' =>
      match hex_digit c with
      | None => (None, l)
      | Some d =>
          let l1 := match l' with
                    | x :: l'' => if (d =? 0) && (Ascii.eqb x "x" || Ascii.eqb x "X") then l'' else l'
                    | [] => l'
                    end in
          let '(v, rest) := scan_digits d l1 in
          (Some (u32 (to_ulong neg v)), rest)
      end
  end.

(** ** Printing, for the round trips *)

Definition hex_char (d : Z) : ascii :=
  ascii_of_nat (Z.to_nat (if d <? 10 then 48 + d else 87 + d)).

(** The [n] last hexadecimal digits of a number, in front of [acc]. *)
Fixpoint hex_digits (n : nat) (z : Z) (acc : chars) : chars :=
  match n with
  | O => acc
  | S n => hex_digits n (z / 16) (hex_char (z mod 16) :: acc)
  end.

Definition print_hex (z : Z) : chars := hex_digits 8 z [].

Lemma hex_digit_char d : 0 <= d < 16 -> hex_digit (hex_char d) = Some d.
Proof.
  intros Hd.
  assert (Forall (fun n : nat => hex_digit (hex_char n) = Some (Z.of_nat n)) (seq 0 16)) as H
    by (apply Forall_forall; intros n Hn; apply elem_of_seq in Hn;
        do 16 (destruct n as [|n]; [reflexivity|]); lia).
  rewrite Forall_forall in H. specialize (H (Z.to_nat d)).
  rewrite Z2Nat.id in H by lia. apply H. apply elem_of_seq. lia.
Qed.

Lemma scan_digits_hex (n : nat) z acc r rest :
  0 <= z < 16 ^ n ->
  (forall a, scan_digits a acc = (a * r + (scan_digits 0 acc).1, rest)) ->
  forall a, scan_digits a (hex_digits n z acc) =
    (a * (16 ^ n * r) + z * r + (scan_digits 0 acc).1, rest).
Proof.
  revert z acc r. induction n as [|n IH]; intros z acc r Hz Hacc a.
  - cbn [hex_digits]. rewrite Hacc. simpl in Hz. replace z with 0 by lia. f_equal. lia.
  - cbn [hex_digits].
    assert (0 <= z mod 16 < 16) as Hm by (apply Z.mod_pos_bound; lia).
    assert (0 <= z / 16 < 16 ^ n) as Hq.
    { rewrite Nat2Z.inj_succ, Z.pow_succ_r in Hz by lia. split.
      - apply Z.div_pos; lia.
      - apply Z.div_lt_upper_bound; lia. }
    assert (forall a, scan_digits a (hex_char (z mod 16) :: acc) =
              (a * (16 * r) + (scan_digits 0 (hex_char (z mod 16) :: acc)).1, rest)) as Hs.
    { intros b. cbn [scan_digits]. rewrite hex_digit_char by done.
      rewrite (Hacc (16 * b + _)), (Hacc (16 * 0 + _)). simpl. f_equal. lia. }
    rewrite (IH _ _ _ Hq Hs a). f_equal.
    cbn [scan_digits]. rewrite hex_digit_char by done. rewrite (Hacc (16 * 0 + _)). simpl fst.
    rewrite Nat2Z.inj_succ, Z.pow_succ_r by lia.
    pose proof (Z.div_mod z 16 ltac:(lia)). nia.
Qed.

(** The characters that can follow a printed number without becoming part of it. *)
Definition stops (l : chars) : Prop :=
  match l with [] => True | c :: _ => hex_digit c = None /\ c <> "x"%char /\ c <> "X"%char end.

Lemma scan_digits_stop a l : stops l -> scan_digits a l = (a, l).
Proof. destruct l as [|c l]; simpl; [done|]. by intros [-> _]. Qed.

(** A printed number starts with two digits, so not with a sign or [0x]. *)
Lemma hex_digits_cons n z acc : exists c d l,
  0 <= c < 16 /\ 0 <= d < 16 /\ hex_digits (S (S n)) z acc = hex_char c :: hex_char d :: l.
Proof.
  revert z acc. induction n as [|n IH]; intros z acc; [|apply IH].
  eexists _, _, _. split; [|split; [|reflexivity]]; apply Z.mod_pos_bound; lia.
Qed.

Lemma hex_char_plain d : 0 <= d < 16 ->
  is_space (hex_char d) = false /\ Ascii.eqb (hex_char d) "-" = false /\
  Ascii.eqb (hex_char d) "+" = false /\ Ascii.eqb (hex_char d) "x" = false /\
  Ascii.eqb (hex_char d) "X" = false.
Proof.
  intros Hd. assert (d = Z.of_nat (Z.to_nat d)) as -> by lia.
  assert (Z.to_nat d < 16)%nat as Hn by lia. revert Hn. generalize (Z.to_nat d). intros n Hn.
  do 16 (destruct n as [|n]; [by vm_compute|]). lia.
Qed.

Lemma hex_digits_app n z acc rest : hex_digits n z acc ++ rest = hex_digits n z (acc ++ rest).
Proof. revert z acc. induction n as [|n IH]; intros; simpl; [done|]. by rewrite IH. Qed.

Lemma scan_digits_print a z rest :
  in_width 32 z -> stops rest -> scan_digits a (print_hex z ++ rest) = (a * 16 ^ 8 + z, rest).
Proof.
  intros Hz Hr. unfold print_hex. rewrite hex_digits_app. simpl app.
  rewrite (scan_digits_hex 8 z rest 1 rest).
  - rewrite (scan_digits_stop 0 rest Hr). simpl fst. f_equal. lia.
  - exact Hz.
  - intros b. rewrite !(scan_digits_stop _ rest Hr). simpl. f_equal. lia.
Qed.

(** Scanning a printed 32-bit number gives it back. *)
Lemma scan_print_hex z rest :
  in_width 32 z -> stops rest -> scan_hex (print_hex z ++ rest) = (Some z, rest).
Proof.
  intros Hz Hr. pose proof (scan_digits_print 0 z rest Hz Hr) as Hs.
  destruct (hex_digits_cons 6 z []) as (c & d & l & Hc & Hd & Hcd).
  change (hex_digits 8 z []) with (print_hex z) in Hcd. rewrite Hcd in *. cbn [app] in *.
  destruct (hex_char_plain c Hc) as (Hp1 & Hp2 & Hp3 & _).
  destruct (hex_char_plain d Hd) as (_ & _ & _ & Hp4 & Hp5).
  unfold scan_hex. cbn [skip_space]. rewrite Hp1, Hp2, Hp3, Hp4, Hp5.
  rewrite (hex_digit_char c Hc), andb_false_r.
  cbn [scan_digits] in Hs |- *. rewrite (hex_digit_char c Hc) in Hs.
  replace (16 * 0 + c) with c in Hs by lia. rewrite Hs.
  unfold to_ulong. unfold in_width in Hz.
  rewrite (proj2 (Z.leb_gt _ _)) by lia. rewrite wrap_small; [do 2 f_equal; lia|].
  unfold in_width. lia.
Qed.

Lemma scan_hex_space c l : is_space c = true -> scan_hex (c :: l) = scan_hex l.
Proof. intros H. unfold scan_hex. cbn [skip_space]. by rewrite H. Qed.
