(* ===== verification/Wire.v ===== *)
(** * Wire: the messages between the monitor and the device processes

    [inc/iostructs.h] as bytes: the sender writes the members of the structure
    over whatever its stack slot held before (padding is not initialised), the
    receiver reads members back out of the bytes it got.  The round trips hold
    for every content of the padding. *)

From S2P Require Import Prelude.

#[local] Arguments le_bytes : simpl never.

Definition IOTYPE_PIO := 0.
Definition IOTYPE_MMIO := 1.

Definition CHILD_DEVICE_CHANNEL_FD := 3.
Definition CHILD_DEVICE_FW_MEMFD := 4.
Definition CHILD_DEVICE_SYS_MEMFD := 5.
Definition CHILD_DEVICE_IOAPIC_FD := 6.

Record ioport_request := IoportRequest {
  pio_port : Z;        (* 16 bits *)
  pio_direction : Z;   (* 8 bits *)
  pio_size : Z;        (* 8 bits *)
  pio_data : Z;
  pio_count : Z;
}.
#[export] Instance ioport_request_eta : Settable ioport_request := fun r =>
  IoportRequest (pio_port r) (pio_direction r) (pio_size r) (pio_data r) (pio_count r).

Record mmio_request := MmioRequest {
  mr_phys_addr : Z;
  mr_data : Z;
  mr_len : Z;
  mr_is_write : Z;
}.
#[export] Instance mmio_request_eta : Settable mmio_request := fun r =>
  MmioRequest (mr_phys_addr r) (mr_data r) (mr_len r) (mr_is_write r).

(** The tagged union of [struct io_request]. *)
Inductive io_request :=
  | Pio (r : ioport_request)
  | Mmio (r : mmio_request).

Definition sizeof_io_request : nat := 28.

(** The first word of [struct ioport_request] packs three bit fields. *)
Definition pio_word (r : ioport_request) : Z :=
  set_bits (set_bits (set_bits 0 0 16 (pio_port r)) 16 8 (pio_direction r)) 24 8 (pio_size r).

(** Member stores, at their offsets in the structure. *)
Definition store_io_request (stack : bytes) (io : io_request) : bytes :=
  match io with
  | Pio r =>
      let b := blit stack 0 (le_bytes 1 IOTYPE_PIO) in
      let b := blit b 4 (le_bytes 4 (pio_word r)) in
      let b := blit b 8 (le_bytes 4 (pio_data r)) in
      blit b 12 (le_bytes 4 (pio_count r))
  | Mmio r =>
      let b := blit stack 0 (le_bytes 1 IOTYPE_MMIO) in
      let b := blit b 4 (le_bytes 8 (mr_phys_addr r)) in
      let b := blit b 12 (le_bytes 8 (mr_data r)) in
      let b := blit b 20 (le_bytes 4 (mr_len r)) in
      blit b 24 (le_bytes 1 (mr_is_write r))
  end.

Definition field (b : bytes) (off n : nat) : Z := le_val (load b off n).

Definition load_ioport (b : bytes) : ioport_request :=
  let word := field b 4 4 in
  IoportRequest (bits word 0 16) (bits word 16 8) (bits word 24 8) (field b 8 4) (field b 12 4).

Definition load_mmio (b : bytes) : mmio_request :=
  MmioRequest (field b 4 8) (field b 12 8) (field b 20 4) (field b 24 1).

(** What a device sees in the bytes: the [switch (io.type)] of its loop. *)
Definition load_io_request (b : bytes) : option io_request :=
  let type := field b 0 1 in
  if type =? IOTYPE_PIO then Some (Pio (load_ioport b))
  else if type =? IOTYPE_MMIO then Some (Mmio (load_mmio b))
  else None.

(** Values that fit the members they are stored into. *)
Definition io_request_ok (io : io_request) : Prop :=
  match io with
  | Pio r => in_width 16 (pio_port r) /\ in_width 8 (pio_direction r) /\
             in_width 8 (pio_size r) /\ in_width 32 (pio_data r) /\ in_width 32 (pio_count r)
  | Mmio r => in_width 64 (mr_phys_addr r) /\ in_width 64 (mr_data r) /\
              in_width 32 (mr_len r) /\ in_width 8 (mr_is_write r)
  end.

(** ** Member loads after member stores *)

Lemma field_blit_same b off n z :
  (off <= length b)%nat -> field (blit b off (le_bytes n z)) off n = wrap (8 * n) z.
Proof.
  intros. unfold field. rewrite <-(length_le_bytes n z) at 2.
  rewrite load_blit_same by done. apply le_val_bytes.
Qed.

Lemma field_blit_other b off n z off' n' :
  (off + n <= length b)%nat -> (off' + n' <= off \/ off + n <= off')%nat ->
  field (blit b off (le_bytes n z)) off' n' = field b off' n'.
Proof.
  intros. unfold field. rewrite load_blit_other; [done|..]; rewrite length_le_bytes; lia.
Qed.

Lemma length_blit_le b off n z :
  (off + n <= length b)%nat -> length (blit b off (le_bytes n z)) = length b.
Proof. intros. apply length_blit. rewrite length_le_bytes. lia. Qed.

(** [len_le] proves bounds on the length of a chain of member stores,
    [member_solve] evaluates a member load from such a chain. *)
Ltac len_le := first [lia | rewrite length_blit_le by len_le; len_le].
Ltac member_solve :=
  repeat first [ rewrite field_blit_same by len_le | rewrite field_blit_other by len_le ];
  try (rewrite wrap_small by done; reflexivity).

Lemma pio_word_range r : in_width 32 (pio_word r).
Proof.
  unfold pio_word. repeat (apply set_bits_range; [lia|lia|lia|]). unfold in_width. lia.
Qed.

Lemma length_store_io_request stack io :
  length stack = sizeof_io_request -> length (store_io_request stack io) = sizeof_io_request.
Proof.
  unfold sizeof_io_request. intros Hs.
  destruct io; cbn -[le_bytes]; len_le.
Qed.

Lemma load_store_pio stack r :
  length stack = sizeof_io_request -> io_request_ok (Pio r) ->
  load_ioport (store_io_request stack (Pio r)) = r.
Proof.
  unfold sizeof_io_request. intros Hs (H1 & H2 & H3 & H4 & H5).
  unfold load_ioport, store_io_request.
  assert (field (store_io_request stack (Pio r)) 4 4 = pio_word r) as Hw.
  { unfold store_io_request. member_solve.
    rewrite wrap_small; [done|]. apply pio_word_range. }
  unfold store_io_request in Hw. rewrite Hw. member_solve. unfold pio_word. field_solve.
  rewrite !wrap_small by done. by destruct r.
Qed.

Lemma load_store_mmio stack r :
  length stack = sizeof_io_request -> io_request_ok (Mmio r) ->
  load_mmio (store_io_request stack (Mmio r)) = r.
Proof.
  unfold sizeof_io_request. intros Hs (H1 & H2 & H3 & H4).
  unfold load_mmio, store_io_request. member_solve.
  rewrite !wrap_small by done. by destruct r.
Qed.

Lemma load_store_io_request stack io :
  length stack = sizeof_io_request -> io_request_ok io ->
  load_io_request (store_io_request stack io) = Some io.
Proof.
  intros Hs Hok. unfold load_io_request.
  assert (field (store_io_request stack io) 0 1 =
    match io with Pio _ => IOTYPE_PIO | Mmio _ => IOTYPE_MMIO end) as ->.
  { unfold sizeof_io_request in Hs. unfold store_io_request. destruct io; member_solve. }
  destruct io as [r|r].
  - by rewrite load_store_pio.
  - by rewrite load_store_mmio.
Qed.

(** ** The handshake structure *)

Definition sizeof_init_response : nat := 20.

(** The word that the four characters of a string literal make. *)
Definition magic (s : string) : Z := le_val ((fun c => Ascii.nat_of_ascii c : Z) <$> String.list_ascii_of_string s).

Definition init_magic := magic "INIT".
Definition tini_magic := magic "TINI".

Fixpoint words (l : list Z) : bytes :=
  match l with
  | [] => []
  | x :: l => le_bytes 4 x ++ words l
  end.

(** [struct init_response]: the magic and one descriptor per CPU; the structure
    has no padding. *)
Definition store_init_response (magic : Z) (fds : list Z) : bytes :=
  words (magic :: fds).

Definition load_init_magic (b : bytes) : Z := field b 0 4.
Definition load_init_fds (b : bytes) : list Z :=
  (fun i => i32 (field b (4 + 4 * i) 4)) <$> seq 0 4.

Lemma length_words l : length (words l) = (4 * length l)%nat.
Proof.
  induction l as [|x l IH]; [done|]. cbn -[le_bytes Nat.mul].
  rewrite length_app, length_le_bytes, IH. lia.
Qed.

(** The member of index [i] of a structure made of words. *)
Lemma field_words l i x : l !! i = Some x -> field (words l) (4 * i) 4 = u32 x.
Proof.
  revert i. induction l as [|y l IH]; intros [|i] Hi; [done|done|..].
  - injection Hi as ->. exact (le_val_bytes 4 x).
  - change (words (y :: l)) with (le_bytes 4 y ++ words l). unfold field, load in *.
    replace (4 * S i)%nat with (length (le_bytes 4 y) + 4 * i)%nat
      by (rewrite length_le_bytes; lia).
    rewrite drop_app_add. by apply IH.
Qed.
