(* ===== verification/Machine.v ===== *)
(** * Machine: the data of the virtual machine monitor

    The structures of [inc/vmm.h], [inc/apic.h] and [inc/devicebus.h], the part
    of the KVM structures that the monitor reads and writes, the global state of
    the monitor process and the external calls it makes.

    Pointers to the one hypervisor structure ([vcpu->hv], [ioapic->hv]) are left
    out: there is one [g_hv] per process and they all point to it.  A pointer to
    a virtual CPU is its index in [g_hv->vcpus], a pointer to a device node its
    index in the list that starts at [g_devicelist].  Mutexes and condition
    variables are not data but operations of the interface below. *)

From S2P Require Import Prelude Effects.

(** ** Constants of inc/vmm.h *)

Definition G_EAX : nat := 0.
Definition G_ECX : nat := 1.
Definition G_EDX : nat := 2.
Definition G_EBX : nat := 3.
Definition G_ESP : nat := 4.
Definition G_EBP : nat := 5.
Definition G_ESI : nat := 6.
Definition G_EDI : nat := 7.

Definition S_ES : nat := 0.
Definition S_CS : nat := 1.
Definition S_SS : nat := 2.
Definition S_DS : nat := 3.
Definition S_FS : nat := 4.
Definition S_GS : nat := 5.

Definition DESC_G_SHIFT := 23.
Definition DESC_G_MASK := Z.shiftl 1 DESC_G_SHIFT.
Definition DESC_B_SHIFT := 22.
Definition DESC_L_SHIFT := 21.
Definition DESC_AVL_SHIFT := 20.
Definition DESC_AVL_MASK := Z.shiftl 1 DESC_AVL_SHIFT.
Definition DESC_P_SHIFT := 15.
Definition DESC_P_MASK := Z.shiftl 1 DESC_P_SHIFT.
Definition DESC_DPL_SHIFT := 13.
Definition DESC_S_SHIFT := 12.
Definition DESC_S_MASK := Z.shiftl 1 DESC_S_SHIFT.
Definition DESC_TYPE_SHIFT := 8.
Definition DESC_A_MASK := Z.shiftl 1 8.
Definition DESC_CS_MASK := Z.shiftl 1 11.
Definition DESC_R_MASK := Z.shiftl 1 9.
Definition DESC_W_MASK := Z.shiftl 1 9.

Definition MSR_IA32_APICBASE_BSP := Z.shiftl 1 8.
Definition MSR_IA32_APICBASE_ENABLE := Z.shiftl 1 11.
Definition MSR_IA32_APICBASE_BASE := u32 (Z.shiftl 0xfffff 12).
Definition APIC_DEFAULT_ADDRESS := 0xfee00000.

Definition HOST_FW_VADDR := 0x10000000.
Definition HOST_FW_SIZE := 0xA0000.
Definition HOST_BIOS_VADDR := 0x20000000.
Definition HOST_BIOS_SIZE := 0x40000.
Definition HOST_SYS_MEM_VADDR := 0x30000000.
Definition HOST_SYS_MEM_SIZE := 0x100000.
Definition GUEST_FW_PADDR := 0x0.
Definition GUEST_BIOS_PADDR := 0xC0000.
Definition GUEST_SYS_MEM_PADDR := 0x100000.

Definition NR_MAX_VCPUS : nat := 4.
Definition NR_MAX_IOAPIC_IRQS : nat := 32.

Definition STATE_NOT_STARTED := 0.
Definition STATE_RUNNING := 1.
Definition STATE_HALTED := 2.

Definition VM_SHUTDOWN := 1.
Definition VM_HALTED := 2.
Definition VM_UNHANDLED_EXIT := 3.

(** ** Constants of inc/apic.h *)

Definition PAGE_SIZE := 0x1000.
Definition LAPIC_OFF_ID := 0.
Definition LAPIC_OFF_IPI := 4.
Definition LAPIC_OFF_EOI := 8.
Definition IOAPIC_OFF_ID := 0.
Definition IOAPIC_OFF_MAX_IRQS := 4.
Definition IOAPIC_OFF_REDTBL := 8.
Definition QUEUE_MAX_INTERRUPTS := 256.
Definition PADDR_IOAPIC := 0xFEC00000.

(** ** The structures of inc/vmm.h *)

Record segment_t := Segment {
  selector : Z;
  base : Z;
  limit : Z;
  flags : Z;
}.
#[export] Instance segment_eta : Settable segment_t :=
  fun s => Segment (selector s) (base s) (limit s) (flags s).
#[export] Instance segment_eq_dec : EqDecision segment_t.
Proof. solve_decision. Defined.

Record x86_cpu_regs_t := Regs {
  gpr : list Z;
  eip : Z;
  eflags : Z;
  control : list Z;
  a20_mask : Z;
  segment : list segment_t;
  ldt : segment_t;
  tr : segment_t;
  gdt : segment_t;
  idt : segment_t;
  tpr : Z;
  apicbase : Z;
  efer : Z;
}.
#[export] Instance regs_eta : Settable x86_cpu_regs_t := fun r =>
  Regs (gpr r) (eip r) (eflags r) (control r) (a20_mask r) (segment r) (ldt r) (tr r)
    (gdt r) (idt r) (tpr r) (apicbase r) (efer r).

Definition segment_zero : segment_t := Segment 0 0 0 0.

(** What [bzero] leaves in a register file ([CPU_NB_REGS] is 8). *)
Definition regs_zero : x86_cpu_regs_t :=
  Regs (replicate 8 0) 0 0 (replicate 5 0) 0 (replicate 6 segment_zero)
    segment_zero segment_zero segment_zero segment_zero 0 0 0.

(** The heap holds the nodes of the interrupt queue; NULL is [None]. *)
Abbreviation loc := positive.
Abbreviation ptr := (option positive).

Record interrupt_entry := IEntry {
  irq : Z;
  next : ptr;
}.
#[export] Instance ientry_eta : Settable interrupt_entry := fun e => IEntry (irq e) (next e).

Record ioapic_t := IoApic {
  max_irqs : Z;
  irq_redir_table : list Z;
  ioapic_s : Z * Z;
  nr_pending : Z;
  interrupt_queue : ptr;
}.
#[export] Instance ioapic_eta : Settable ioapic_t := fun a =>
  IoApic (max_irqs a) (irq_redir_table a) (ioapic_s a) (nr_pending a) (interrupt_queue a).

Definition ioapic_zero : ioapic_t :=
  IoApic 0 (replicate NR_MAX_IOAPIC_IRQS 0) (0, 0) 0 None.

(** ** The KVM structures, as far as the monitor uses them *)

Record kvm_segment := KSegment {
  k_base : Z; k_limit : Z; k_selector : Z; k_type : Z;
  k_present : Z; k_dpl : Z; k_db : Z; k_s : Z; k_l : Z; k_g : Z; k_avl : Z;
  k_unusable : Z; k_padding : Z;
}.
Definition kvm_segment_zero : kvm_segment := KSegment 0 0 0 0 0 0 0 0 0 0 0 0 0.

Record kvm_dtable := KDtable { k_dt_base : Z; k_dt_limit : Z }.

Record kvm_regs := KRegs {
  k_rax : Z; k_rbx : Z; k_rcx : Z; k_rdx : Z;
  k_rsi : Z; k_rdi : Z; k_rsp : Z; k_rbp : Z;
  k_rip : Z; k_rflags : Z;
}.

Record kvm_sregs := KSregs {
  k_cs : kvm_segment; k_ds : kvm_segment; k_es : kvm_segment;
  k_fs : kvm_segment; k_gs : kvm_segment; k_ss : kvm_segment;
  k_tr : kvm_segment; k_ldt : kvm_segment;
  k_gdt : kvm_dtable; k_idt : kvm_dtable;
  k_cr0 : Z; k_cr2 : Z; k_cr3 : Z; k_cr4 : Z; k_cr8 : Z;
  k_efer : Z; k_apic_base : Z;
}.
Definition kvm_sregs_zero : kvm_sregs :=
  KSregs kvm_segment_zero kvm_segment_zero kvm_segment_zero kvm_segment_zero
    kvm_segment_zero kvm_segment_zero kvm_segment_zero kvm_segment_zero
    (KDtable 0 0) (KDtable 0 0) 0 0 0 0 0 0 0.

(** The page shared with the driver ([vcpu->comm]). [r_io_data] are the bytes
    at [io.data_offset], [r_mmio_data] the eight bytes of [mmio.data]. *)
Record kvm_run := KRun {
  ready_for_interrupt_injection : Z;
  request_interrupt_window : Z;
  exit_reason : Z;
  r_io_direction : Z;
  r_io_size : Z;
  r_io_port : Z;
  r_io_count : Z;
  r_io_data : bytes;
  r_mmio_phys_addr : Z;
  r_mmio_data : bytes;
  r_mmio_len : Z;
  r_mmio_is_write : Z;
}.
#[export] Instance kvm_run_eta : Settable kvm_run := fun r =>
  KRun (ready_for_interrupt_injection r) (request_interrupt_window r) (exit_reason r)
    (r_io_direction r) (r_io_size r) (r_io_port r) (r_io_count r) (r_io_data r)
    (r_mmio_phys_addr r) (r_mmio_data r) (r_mmio_len r) (r_mmio_is_write r).

Definition kvm_run_zero : kvm_run :=
  KRun 0 0 0 0 0 0 0 (replicate 8 0) 0 (replicate 8 0) 0 0.

Record vcpu_t := Vcpu {
  id : Z;
  driver_fd : Z;
  dirty : bool;
  state : Z;
  comm : option kvm_run;
  regs : x86_cpu_regs_t;
  isr : Z;                  (* lapic.isr *)
}.
#[export] Instance vcpu_eta : Settable vcpu_t := fun v =>
  Vcpu (id v) (driver_fd v) (dirty v) (state v) (comm v) (regs v) (isr v).

Definition vcpu_zero : vcpu_t := Vcpu 0 0 false 0 None regs_zero 0.

Record hv_t := Hypervisor {
  fd : Z;
  vm_fd : Z;
  fw_memfd : Z;
  sys_memfd : Z;
  cur_slot : Z;
  vcpus : list (option vcpu_t);
  fw_size : Z; fw : Z; fw_mem_id : Z;
  vga_size : Z; vga : Z; vga_mem_id : Z;
  bios_rom_size : Z; bios_rom : Z; bios_rom_mem_id : Z;
  sys_mem_size : Z; sys_mem : Z; sys_mem_id : Z;
  ioapic_p : option ioapic_t;     (* [ioapic]: a pointer, NULL where none was allocated *)
}.
#[export] Instance hv_eta : Settable hv_t := fun h =>
  Hypervisor (fd h) (vm_fd h) (fw_memfd h) (sys_memfd h) (cur_slot h) (vcpus h)
    (fw_size h) (fw h) (fw_mem_id h) (vga_size h) (vga h) (vga_mem_id h)
    (bios_rom_size h) (bios_rom h) (bios_rom_mem_id h)
    (sys_mem_size h) (sys_mem h) (sys_mem_id h) (ioapic_p h).

Definition hv_zero : hv_t :=
  Hypervisor 0 0 0 0 0 (replicate NR_MAX_VCPUS None)
    0 0 0 0 0 0 0 0 0 0 0 0 None.

(** What [hv->ioapic] points to. Behind a null pointer this is a dummy that no
    operation sees: every one of them follows the pointer with [get_ioapic]. *)
Definition ioapic (h : hv_t) : ioapic_t := default ioapic_zero (ioapic_p h).

(** ** The structures of inc/devicebus.h *)

Record ioport_range_t := IoportRange { start_port : Z; nports : Z }.
Record mmio_range_t := MmioRange { mmio_start : Z; mmio_len : Z }.

Record device_node_t := DeviceNode {
  path : option string;       (* [strdup] of the name, NULL when that fails *)
  channel_fd : list Z;
  instance_pid : Z;
  ioports : list ioport_range_t;
  mmios : list mmio_range_t;
}.
#[export] Instance device_node_eta : Settable device_node_t := fun d =>
  DeviceNode (path d) (channel_fd d) (instance_pid d) (ioports d) (mmios d).

(** ** The global state of the monitor process *)

Record vmm_state := Vmm {
  g_hv : hv_t;
  g_nvcpus : Z;
  g_devicelist : option (list device_node_t);  (* [None] once it was freed *)
  heap : gmap loc interrupt_entry;
}.
#[export] Instance vmm_eta : Settable vmm_state := fun s =>
  Vmm (g_hv s) (g_nvcpus s) (g_devicelist s) (heap s).

(** ** The external calls of the monitor

    System calls, driver requests (ioctl), memory allocation (the reply says
    whether it succeeded) and thread operations.  [calloc] and [malloc] return
    fresh memory, which the callers model in the state. *)

Inductive thread := IoApicThread | VcpuThread (i : nat).

Inductive vmm_call :=
  | Calloc (size : Z)
  | Malloc (size : Z)
  | Strdup (s : string)
  | Free (p : loc)
  | Free_ioport (r : ioport_range_t)
  | Free_mmio (r : mmio_range_t)
  | Free_device (d : device_node_t)
  | Free_struct (size : Z)
  | Fopen (name : string)
  | Memfd_create (name : string)
  | Ftruncate (fd len : Z)
  | Mmap (addr len : Z) (anon shared fixed : bool) (fd : Z)
  | Mmap_run (len fd : Z)
  | Munmap (addr len : Z)
  | Open (name : string)
  | Close (fd : Z)
  | Read_to (fd addr len : Z)
  | Read_byte (fd : Z)
  | Socketpair
  | Fork
  | Dup2 (oldfd newfd : Z)
  | Execve (name : string)
  | Send (fd : Z) (data : bytes)
  | Recv (fd len : Z)
  | Kill (pid : Z)
  | Getenv (name : string)
  | Setenv (name value : string)
  | Access (name : string)
  | Mkdir (name : string)
  | Open_dir (name : string)
  | Faccessat (dirfd : Z) (name : string)
  | Mkdirat (dirfd : Z) (name : string)
  | Atexit_dbusTeardown
  | Signal_sigterm
  | Pthread_create (t : thread)
  | Pthread_join (t : thread)
  | Pthread_cancel (t : thread)
  | Cond_signal (vcpu : nat)
  | Cond_wait (vcpu : nat)
  | KVM_CREATE_VM (fd : Z)
  | KVM_CREATE_IRQCHIP (vm_fd : Z)
  | KVM_CREATE_VCPU (vm_fd id : Z)
  | KVM_GET_VCPU_MMAP_SIZE (fd : Z)
  | KVM_SET_CPUID2 (fd nent ebx : Z)
  | KVM_SET_REGS (fd : Z) (r : kvm_regs)
  | KVM_SET_SREGS (fd : Z) (sr : kvm_sregs)
  | KVM_GET_REGS (fd : Z)
  | KVM_GET_SREGS (fd : Z)
  | KVM_GET_SREGS_by_value (fd : Z) (sr : kvm_sregs)
  | KVM_SET_USER_MEMORY_REGION (vm_fd slot flags gpa size hva : Z)
  | KVM_RUN (fd : Z)
  | KVM_INTERRUPT (fd irq : Z).

(** The answer to a request whose argument is a structure passed by value: the
    kernel takes the address from a register that the call does not set. The
    request is refused or the address is not mapped, and nothing is stored; or
    the kernel stores a [struct kvm_sregs] over whatever lies there. *)
Inductive sregs_reply :=
  | No_store (ret : Z)
  | Stray_store.

Definition vmm_reply (c : vmm_call) : Type :=
  match c with
  | Calloc _ | Malloc _ | Strdup _ => bool
  | Fopen _ => option string           (* the contents of the file *)
  | Mmap_run _ _ => Z * kvm_run        (* result and the contents of the shared page *)
  | Read_byte _ => option Z            (* the byte read, or end of file / error *)
  | Socketpair => Z * (Z * Z)          (* result and the two descriptors *)
  | Recv _ _ => Z * bytes              (* result and the bytes received *)
  | Getenv _ => option string
  | Cond_wait _ => vmm_state -> vmm_state  (* what the other threads did meanwhile *)
  | KVM_GET_REGS _ => Z * kvm_regs
  | KVM_GET_SREGS_by_value _ _ => sregs_reply
  | KVM_GET_SREGS _ => Z * kvm_sregs
  | KVM_RUN _ => Z * kvm_run           (* result and the new contents of the shared page *)
  | _ => Z
  end.

Inductive vmm_mutex :=
  | state_access_mutex (vcpu : nat)
  | lapic_access_mutex (vcpu : nat)
  | ioapic_access_mutex
  | bus_access_mutex
  | queue_lock.
#[export] Instance vmm_mutex_eq_dec : EqDecision vmm_mutex.
Proof. solve_decision. Defined.

Definition vmm_iface : iface := Iface vmm_call vmm_reply vmm_mutex _.

Abbreviation vmm_env := (environment vmm_iface).
Abbreviation vmm_world := (world vmm_iface vmm_state).
Abbreviation vmm_prog := (prog vmm_iface vmm_state).

Definition os (env : vmm_env) (c : vmm_call) : vmm_prog (vmm_reply c) :=
  sys (I := vmm_iface) env c.
Definition pthread_mutex_lock (m : vmm_mutex) : vmm_prog unit := lock (I := vmm_iface) m.
Definition pthread_mutex_unlock (m : vmm_mutex) : vmm_prog unit := unlock (I := vmm_iface) m.

(** ** Access to a virtual CPU through its pointer *)

Definition vcpu_at (s : vmm_state) (i : nat) : option vcpu_t :=
  mjoin (vcpus (g_hv s) !! i).

(** [vcpus\[i\]] as an array access: out of the array it faults. *)
Definition read_vcpus (i : nat) : vmm_prog (option vcpu_t) :=
  s ← gets (fun s => s);
  get_or OutOfBounds (vcpus (g_hv s) !! i).

Definition get_vcpu (i : nat) : vmm_prog vcpu_t :=
  s ← gets (fun s => s);
  get_or NullDeref (vcpu_at s i).

Definition map_vcpu (i : nat) (f : vcpu_t -> vcpu_t) (s : vmm_state) : vmm_state :=
  s <| g_hv ::= fun h => h <| vcpus ::= alter (fmap f) i |> |>.

Definition set_vcpu (i : nat) (f : vcpu_t -> vcpu_t) : vmm_prog unit :=
  modify (map_vcpu i f).

Definition map_ioapic (f : ioapic_t -> ioapic_t) (s : vmm_state) : vmm_state :=
  s <| g_hv ::= fun h => h <| ioapic_p := Some (f (ioapic h)) |> |>.

(** [hv->ioapic->...]: the structure behind the pointer. *)
Definition has_ioapic (s : vmm_state) : Prop := is_Some (ioapic_p (g_hv s)).

Definition get_ioapic : vmm_prog ioapic_t :=
  s ← gets (fun s => s);
  get_or NullDeref (ioapic_p (g_hv s)).

Lemma vcpu_at_map_same s i f :
  vcpu_at (map_vcpu i f s) i = f <$> vcpu_at s i.
Proof.
  unfold vcpu_at, map_vcpu, set_field; simpl.
  rewrite list_lookup_alter_eq. by destruct (vcpus (g_hv s) !! i) as [[v|]|].
Qed.

Lemma vcpu_at_map_other s i j f :
  i <> j -> vcpu_at (map_vcpu i f s) j = vcpu_at s j.
Proof.
  intros. unfold vcpu_at, map_vcpu, set_field; simpl. by rewrite list_lookup_alter_ne.
Qed.

Lemma vcpu_at_map s i j f :
  vcpu_at (map_vcpu i f s) j = if decide (i = j) then f <$> vcpu_at s j else vcpu_at s j.
Proof.
  case_decide; subst; [apply vcpu_at_map_same|by apply vcpu_at_map_other].
Qed.

Lemma vcpu_at_map_ioapic s i f : vcpu_at (map_ioapic f s) i = vcpu_at s i.
Proof. done. Qed.

Lemma ioapic_map_vcpu s i f : ioapic (g_hv (map_vcpu i f s)) = ioapic (g_hv s).
Proof. done. Qed.

Lemma ioapic_map_ioapic s f : ioapic (g_hv (map_ioapic f s)) = f (ioapic (g_hv s)).
Proof. done. Qed.

Create Rewrite HintDb vmm.
#[export] Hint Rewrite vcpu_at_map_same vcpu_at_map_ioapic ioapic_map_vcpu ioapic_map_ioapic : vmm.

Lemma wp_get_ioapic (Q : ioapic_t -> vmm_world -> Prop) w :
  has_ioapic (w_st w) -> Q (ioapic (g_hv (w_st w))) w -> wp get_ioapic Q w.
Proof.
  intros [a Ha]. unfold ioapic, get_ioapic, wp, mbind, prog_bind, gets; simpl. by rewrite Ha.
Qed.

Lemma wp_get_vcpu i (Q : vcpu_t -> vmm_world -> Prop) v w :
  vcpu_at (w_st w) i = Some v -> Q v w -> wp (get_vcpu i) Q w.
Proof. intros Hv HQ. unfold get_vcpu. wp_go. by eapply wp_get_or. Qed.

Lemma wp_set_vcpu i f (Q : unit -> vmm_world -> Prop) w :
  Q tt (w <| w_st ::= map_vcpu i f |>) -> wp (set_vcpu i f) Q w.
Proof. done. Qed.

Lemma wp_read_vcpus i (Q : option vcpu_t -> vmm_world -> Prop) ov w :
  vcpus (g_hv (w_st w)) !! i = Some ov -> Q ov w -> wp (read_vcpus i) Q w.
Proof. intros Hv HQ. unfold read_vcpus. wp_go. by eapply wp_get_or. Qed.

Lemma wp_os env c (Q : vmm_reply c -> vmm_world -> Prop) w :
  Q (env (w_trace w) c) (w <| w_trace := w_trace w ++ [c : call vmm_iface] |>) ->
  wp (os env c) Q w.
Proof. done. Qed.

Lemma wp_mutex_lock (m : vmm_mutex) (Q : unit -> vmm_world -> Prop) (w : vmm_world) :
  m ∉ (w_held w : list vmm_mutex) -> Q tt (w <| w_held ::= cons (m : mutex vmm_iface) |>) ->
  wp (pthread_mutex_lock m) Q w.
Proof. apply (wp_lock (I := vmm_iface) m). Qed.

Lemma wp_mutex_unlock (m : vmm_mutex) (h : list vmm_mutex) (Q : unit -> vmm_world -> Prop)
    (w : vmm_world) :
  w_held w = m :: h -> m ∉ (h : list vmm_mutex) ->
  Q tt (w <| w_held := (h : list (mutex vmm_iface)) |>) ->
  wp (pthread_mutex_unlock m) Q w.
Proof. apply (wp_unlock (I := vmm_iface) m h). Qed.

(** A mutex is not among the ones held: by cases on the list. *)
Ltac not_held :=
  simpl; repeat (apply not_elem_of_cons; split; [discriminate || congruence|]);
  first [assumption | apply not_elem_of_nil].

(** That the I/O APIC exists is looked up in the database [ioapic]. *)
Create HintDb ioapic.

(** [vmm_step] extends [wp_step] with the operations of the monitor. *)
Ltac vmm_step :=
  first
    [ wp_step
    | lazymatch goal with
      | |- wp (os ?e ?c) ?Q ?w => refine (wp_os e c Q w _)
      | |- wp (set_vcpu _ _) _ _ => apply wp_set_vcpu
      | |- wp get_ioapic _ _ => apply wp_get_ioapic; [solve [eauto with ioapic]|]
      | |- wp (pthread_mutex_lock _) _ _ =>
          apply wp_mutex_lock; [solve [not_held]|]
      | |- wp (pthread_mutex_unlock _) _ _ =>
          eapply wp_mutex_unlock; [reflexivity|solve [not_held]|]
      end; cbv beta ].
Ltac vmm_go := repeat vmm_step.

(** ** The operations of the monitor do not loop *)

Lemma bounded_os env (c : vmm_call) : bounded (os env c).
Proof. done. Qed.
Lemma bounded_mutex_lock m : bounded (pthread_mutex_lock m).
Proof. exact (bounded_lock (I := vmm_iface) m). Qed.
Lemma bounded_mutex_unlock m : bounded (pthread_mutex_unlock m).
Proof. exact (bounded_unlock (I := vmm_iface) m). Qed.
Lemma bounded_get_vcpu i : bounded (get_vcpu i).
Proof. unfold get_vcpu. bounded_go. Qed.
Lemma bounded_get_ioapic : bounded get_ioapic.
Proof. unfold get_ioapic. bounded_go. Qed.
Lemma bounded_read_vcpus i : bounded (read_vcpus i).
Proof. unfold read_vcpus. bounded_go. Qed.
Lemma bounded_set_vcpu i f : bounded (set_vcpu i f).
Proof. done. Qed.
#[export] Hint Extern 1 (bounded (os ?e ?c)) => exact (bounded_os e c) : bounded.
#[export] Hint Resolve bounded_mutex_lock bounded_mutex_unlock bounded_get_vcpu
  bounded_get_ioapic bounded_read_vcpus bounded_set_vcpu : bounded.
