(* ===== verification/Apic.v ===== *)
(** * Apic: the local APIC, the I/O APIC and the interrupt queue (apic.c) *)

From S2P Require Import Prelude Effects Machine.

Section Apic.
Context (env : vmm_env).

(** ** Local APIC *)

Definition lapicAccess (v : vcpu_t) (phys_addr : Z) : bool :=
  let apicbase := Z.land (apicbase (regs v)) MSR_IA32_APICBASE_BASE in
  (apicbase <=? phys_addr) && (phys_addr <? apicbase + PAGE_SIZE).

Definition lapicDoSipi (vcpu : nat) (vector : Z) : vmm_prog unit :=
  let cpuid := Z.to_nat (Z.land vector 0x3) in
  target ← read_vcpus cpuid;
  match target with
  | None => mret tt
  | Some t =>
      if state t =? STATE_RUNNING then mret tt else
      pthread_mutex_lock (state_access_mutex cpuid);;
      set_vcpu cpuid (fun t =>
        t <| state := STATE_RUNNING |>
          <| regs ::= fun r => r <| eip := Z.land vector (u32 (Z.lnot 0x3)) |> |>
          <| dirty := true |>);;
      _ ← os env (Cond_signal cpuid);
      pthread_mutex_unlock (state_access_mutex cpuid)
  end.

Definition lapicMmioWrite (vcpu : nat) (phys_addr : Z) (data : bytes) (len : Z) : vmm_prog Z :=
  let offset := Z.land phys_addr 0xfff in
  let vector := load32 data in
  (if offset =? LAPIC_OFF_IPI then lapicDoSipi vcpu vector
   else if offset =? LAPIC_OFF_EOI then
     pthread_mutex_lock (lapic_access_mutex vcpu);;
     set_vcpu vcpu (fun v =>
       v <| isr ::= fun i => Z.land i (u32 (Z.lnot (Z.shiftl 1 (Z.land vector 0x1f)))) |>);;
     pthread_mutex_unlock (lapic_access_mutex vcpu)
   else mret tt);;
  mret 0.

Definition lapicMmioRead (vcpu : nat) (phys_addr : Z) (data : bytes) (len : Z) : vmm_prog Z :=
  let offset := Z.land phys_addr 0xfff in
  if offset =? LAPIC_OFF_ID then v ← get_vcpu vcpu; mret (i32 (id v)) else mret 0.

Definition lapicMmio (vcpu : nat) (phys_addr : Z) (data : bytes) (len is_write : Z)
    : vmm_prog Z :=
  if negb (len =? 4) then mret 0
  else if negb (is_write =? 0) then lapicMmioWrite vcpu phys_addr data len
  else lapicMmioRead vcpu phys_addr data len.

(** ** I/O APIC *)

Definition ioApicAccess (phys_addr : Z) : bool :=
  let end_valid_addr := PADDR_IOAPIC + 4 * (NR_MAX_IOAPIC_IRQS - 1) in
  (PADDR_IOAPIC <=? phys_addr) && (phys_addr <=? end_valid_addr).

(** [None] is the NULL result; [calloc] zeroes the structure. *)
Definition initIoApic : vmm_prog (option ioapic_t) :=
  ok ← os env (Calloc 216);
  if negb ok then mret None else
  r ← os env Socketpair;
  if r.1 <? 0 then mret None
  else mret (Some (ioapic_zero <| max_irqs := NR_MAX_IOAPIC_IRQS |>
                               <| nr_pending := 0 |>
                               <| interrupt_queue := None |>
                               <| ioapic_s := r.2 |>)).

Definition redtblAccess (phys_addr : Z) : bool :=
  let redir_table_start := PADDR_IOAPIC + IOAPIC_OFF_REDTBL in
  let redit_table_end_valid := redir_table_start + 4 * (NR_MAX_IOAPIC_IRQS - 1) in
  (redir_table_start <=? phys_addr) && (phys_addr <=? redit_table_end_valid).

Definition redtblIdx (phys_addr : Z) : vmm_prog Z :=
  let offset := u64 (phys_addr - PADDR_IOAPIC - IOAPIC_OFF_REDTBL) in
  let idx := i32 (offset / 4) in
  c_assert (idx <? NR_MAX_IOAPIC_IRQS);;
  mret idx.

Definition ioApicMmioWrite (phys_addr : Z) (data : bytes) : vmm_prog Z :=
  if redtblAccess phys_addr then
    idx ← redtblIdx phys_addr;
    a ← get_ioapic;
    let entry := u32 (le_val data) in
    _ ← get_or OutOfBounds (znth (irq_redir_table a) idx);
    modify (map_ioapic (fun a => a <| irq_redir_table ::= <[Z.to_nat idx := entry]> |>));;
    mret 0
  else mret 0.

Definition ioApicMmioRead (phys_addr : Z) (data : bytes) : vmm_prog Z :=
  let offset := u64 (phys_addr - PADDR_IOAPIC) in
  if redtblAccess phys_addr then
    idx ← redtblIdx phys_addr;
    a ← get_ioapic;
    e ← get_or OutOfBounds (znth (irq_redir_table a) idx);
    mret (i32 e)
  else if offset =? IOAPIC_OFF_ID then mret 0x4f4f4f
  else if offset =? IOAPIC_OFF_MAX_IRQS then mret (Z.of_nat NR_MAX_IOAPIC_IRQS)
  else mret 0.

Definition ioApicMmio (vcpu : nat) (phys_addr : Z) (data : bytes) (len is_write : Z)
    : vmm_prog Z :=
  if negb (len =? 4) then mret 0 else
  pthread_mutex_lock ioapic_access_mutex;;
  ret ← (if negb (is_write =? 0) then ioApicMmioWrite phys_addr data
         else ioApicMmioRead phys_addr data);
  pthread_mutex_unlock ioapic_access_mutex;;
  mret ret.

(** ** Dispatch *)

Definition apicAccess (v : vcpu_t) (phys_addr : Z) : bool :=
  lapicAccess v phys_addr || ioApicAccess phys_addr.

(** The result and the contents of the caller's buffer afterwards. *)
Definition apicMmio (vcpu : nat) (phys_addr : Z) (data : bytes) (len is_write : Z)
    : vmm_prog (Z * bytes) :=
  if negb (len =? 4) then mret (0, data) else
  v ← get_vcpu vcpu;
  value ← (if lapicAccess v phys_addr then lapicMmio vcpu phys_addr data len is_write
           else if ioApicAccess phys_addr then ioApicMmio vcpu phys_addr data len is_write
           else mret 0);
  if is_write =? 0 then mret (0, store32 data value) else mret (0, data).

(** ** Delivery of an interrupt to a virtual CPU *)

(** The bit fields of [union redirTableEntry]. *)
Definition entry_vector (entry : Z) : Z := bits entry 0 16.
Definition entry_dest_cpu (entry : Z) : Z := bits entry 16 16.

(** The part of [ioApicSendInterrupt] that runs under the target's LAPIC lock. *)
Definition injectLocked (dest : nat) (irq : Z) (entry : Z) : vmm_prog Z :=
  v ← get_vcpu dest;
  if negb (Z.land (isr v) (u32 (Z.shiftl 1 irq)) =? 0) then mret (-1) else
  err ← os env (KVM_INTERRUPT (driver_fd v) (entry_vector entry));
  if err <? 0 then mret (-1) else
  set_vcpu dest (fun v => v <| isr ::= fun i => Z.lor i (u32 (Z.shiftl 1 irq)) |>);;
  mret 0.

Definition ioApicSendInterrupt (irq : Z) : vmm_prog Z :=
  let irq := Z.land irq 0x1f in
  pthread_mutex_lock ioapic_access_mutex;;
  s ← gets (fun s => s);
  a ← get_ioapic;
  entry ← get_or OutOfBounds (znth (irq_redir_table a) irq);
  let dest_vcpu_id := entry_dest_cpu entry in
  ret ← (if g_nvcpus s <=? dest_vcpu_id then mret (-1) else
         let dest := Z.to_nat dest_vcpu_id in
         dest_vcpu ← read_vcpus dest;
         match dest_vcpu with
         | None => mret (-1)
         | Some t =>
             if state t =? STATE_NOT_STARTED then mret (-1) else
             (if state t =? STATE_HALTED then
                pthread_mutex_lock (state_access_mutex dest);;
                set_vcpu dest (fun t => t <| state := STATE_RUNNING |>);;
                _ ← os env (Cond_signal dest);
                pthread_mutex_unlock (state_access_mutex dest)
              else mret tt);;
             pthread_mutex_lock (lapic_access_mutex dest);;
             ret ← injectLocked dest irq entry;
             pthread_mutex_unlock (lapic_access_mutex dest);;
             mret ret
         end);
  pthread_mutex_unlock ioapic_access_mutex;;
  mret ret.

(** ** The interrupt queue: a linked list on the heap *)

Definition deref (p : loc) : vmm_prog interrupt_entry :=
  s ← gets (fun s => s);
  get_or NullDeref (heap s !! p).

(** [while (cur->next) cur = cur->next;] *)
Definition last_entry (fuel : nat) (cur : loc) : vmm_prog loc :=
  loop fuel (fun cur =>
    e ← deref cur;
    match next e with
    | Some n => mret (inl n)
    | None => mret (inr cur)
    end) cur.

Definition link_entry (entry : loc) : vmm_prog unit :=
  s ← gets (fun s => s);
  a ← get_ioapic;
  match interrupt_queue a with
  | None => modify (map_ioapic (fun a => a <| interrupt_queue := Some entry |>))
  | Some cur =>
      last ← last_entry (size (heap s)) cur;
      modify (fun s => s <| heap ::= alter (fun e => e <| next := Some entry |>) last |>)
  end.

Definition queueInterrupt (irq : Z) : vmm_prog Z :=
  a ← get_ioapic;                  (* the mutex is a member *)
  pthread_mutex_lock queue_lock;;
  s ← gets (fun s => s);
  ret ← (if QUEUE_MAX_INTERRUPTS <=? nr_pending a then mret (-1) else
         ok ← os env (Calloc 16);
         if negb ok then mret (-1) else
         let entry := fresh (dom (heap s)) in
         modify (fun s => s <| heap ::= <[entry := IEntry irq None]> |>);;
         link_entry entry;;
         mret 0);
  (if ret =? 0 then modify (map_ioapic (fun a => a <| nr_pending ::= fun n => u32 (n + 1) |>))
   else mret tt);;
  pthread_mutex_unlock queue_lock;;
  mret ret.

Definition dequeueInterrupt : vmm_prog ptr :=
  a ← get_ioapic;
  pthread_mutex_lock queue_lock;;
  ret ← (if nr_pending a =? 0 then mret None else
         match interrupt_queue a with
         | None => mret None
         | Some p =>
             e ← deref p;
             modify (map_ioapic (fun a => a <| interrupt_queue := next e |>
                                            <| nr_pending ::= fun n => u32 (n - 1) |>));;
             mret (Some p)
         end);
  pthread_mutex_unlock queue_lock;;
  mret ret.

Definition haveInterrupts : vmm_prog bool :=
  a ← get_ioapic;
  pthread_mutex_lock queue_lock;;
  let ret := negb (nr_pending a =? 0) in
  pthread_mutex_unlock queue_lock;;
  mret ret.

Definition free (p : loc) : vmm_prog unit :=
  _ ← os env (Free p);
  modify (fun s => s <| heap ::= delete p |>).

(** The shared page of a virtual CPU, [(struct kvm_run * )vcpu->comm]. *)
Definition get_comm (vcpu : nat) : vmm_prog kvm_run :=
  v ← get_vcpu vcpu;
  get_or NullDeref (comm v).

Definition set_comm (vcpu : nat) (f : kvm_run -> kvm_run) : vmm_prog unit :=
  set_vcpu vcpu (fun v => v <| comm ::= fmap f |>).

Definition checkAndSendInterrupt (vcpu : nat) : vmm_prog Z :=
  have ← haveInterrupts;
  run ← get_comm vcpu;
  if (have : bool) then
    if negb (ready_for_interrupt_injection run =? 0) then
      entry ← dequeueInterrupt;
      match entry with
      | None => mret (-1)
      | Some p =>
          e ← deref p;
          _ ← ioApicSendInterrupt (irq e);
          free p;;
          mret 0
      end
    else
      set_comm vcpu (fun r => r <| request_interrupt_window := 1 |>);;
      mret 0
  else
    (if negb (ready_for_interrupt_injection run =? 0) then
       set_comm vcpu (fun r => r <| request_interrupt_window := 0 |>)
     else mret tt);;
    mret 0.

(** The thread that reads interrupt requests from the devices' socket and
    queues them; it ends when the socket does. *)
Definition ioApicThread (fuel : nat) : vmm_prog unit :=
  a ← get_ioapic;
  loop fuel (fun _ : unit =>
    r ← os env (Read_byte (ioapic_s a).1);
    match r with
    | None => mret (inr tt)
    | Some irq => _ ← queueInterrupt irq; mret (inl tt)
    end) tt.
End Apic.

Implicit Types (env : vmm_env) (w : vmm_world).

(** ** The interrupt queue refines a bounded FIFO

    [queue_at h p l]: from [p], the heap holds a null-terminated list of
    entries whose requests are [l]; the nodes are distinct. *)

Fixpoint queue_at (h : gmap loc interrupt_entry) (p : ptr) (l : list Z) : Prop :=
  match l with
  | [] => p = None
  | x :: l => exists a n, p = Some a /\ h !! a = Some (IEntry x n) /\ queue_at (delete a h) n l
  end.

(** The concrete queue of a monitor state stands for the list [l]. *)
Definition pending (s : vmm_state) (l : list Z) : Prop :=
  has_ioapic s /\ queue_at (heap s) (interrupt_queue (ioapic (g_hv s))) l /\
  nr_pending (ioapic (g_hv s)) = length l /\
  length l <= QUEUE_MAX_INTERRUPTS.

Lemma pending_ioapic s l : pending s l -> has_ioapic s.
Proof. by intros [H _]. Qed.
#[export] Hint Resolve pending_ioapic : ioapic.

(** The abstract queue: a list bounded by [QUEUE_MAX_INTERRUPTS]. *)
Definition fifo_put (irq : Z) (l : list Z) : option (list Z) :=
  if decide (length l < QUEUE_MAX_INTERRUPTS) then Some (l ++ [irq]) else None.
Definition fifo_get (l : list Z) : option (Z * list Z) :=
  match l with [] => None | x :: l => Some (x, l) end.

Lemma queue_at_mono h h' p l :
  queue_at h p l -> h ⊆ h' -> queue_at h' p l.
Proof.
  revert h h' p. induction l as [|x l IH]; simpl; [done|].
  intros h h' p (a & n & -> & Ha & Hl) Hsub.
  exists a, n. split; [done|]. split; [by eapply lookup_weaken|].
  eapply IH; [exact Hl|]. by apply delete_mono.
Qed.

Lemma queue_at_size h p l : queue_at h p l -> (length l <= size h)%nat.
Proof.
  revert h p. induction l as [|x l IH]; simpl; [lia|].
  intros h p (a & n & -> & Ha & Hl). apply IH in Hl.
  rewrite map_size_delete_Some in Hl by done.
  assert (size h <> 0%nat); [|lia]. apply map_size_non_empty_iff.
  intros ->. by rewrite lookup_empty in Ha.
Qed.

(** The walk to the last node ends there, and linking [b] behind it appends
    to the list. *)
Lemma queue_at_last l : forall h a fuel (w : vmm_world),
  queue_at h (Some a) l -> h ⊆ heap (w_st w) -> (length l <= fuel)%nat ->
  exists z, last_entry fuel a w = Ret z w /\ is_Some (h !! z) /\
    forall b x, h !! b = None ->
      queue_at (<[b := IEntry x None]> (alter (fun e => e <| next := Some b |>) z h))
        (Some a) (l ++ [x]).
Proof.
  induction l as [|y l IH]; intros h a fuel w Hq Hsub Hf; [done|].
  destruct Hq as (a' & n & [= <-] & Ha & Hl).
  assert (heap (w_st w) !! a = Some (IEntry y n)) as Hw by (by eapply lookup_weaken).
  destruct fuel as [|fuel]; [simpl in Hf; lia|].
  assert (last_entry (S fuel) a w =
    match n with Some n => last_entry fuel n w | None => Ret a w end) as Hstep.
  { unfold last_entry. cbn [loop]. unfold deref, gets, get_or, mbind, prog_bind, mret, prog_ret.
    rewrite Hw. by destruct n. }
  rewrite Hstep. destruct l as [|y' l].
  - simpl in Hl. subst n. exists a. split; [done|]. split; [by eexists|].
    intros b x Hb. assert (a <> b) by congruence.
    exists a, (Some b). split; [done|].
    rewrite lookup_insert_ne, lookup_alter_eq, Ha by done. split; [done|].
    exists b, None. rewrite lookup_delete_ne, lookup_insert_eq by done. done.
  - destruct n as [n|]; [|by destruct Hl as (? & ? & ? & _)].
    destruct (IH (delete a h) n fuel w) as (z & Hz & [e He] & Hsnoc).
    + done.
    + etransitivity; [apply delete_subseteq|done].
    + simpl in *; lia.
    + apply lookup_delete_Some in He as [Hne He].
      exists z. split; [done|]. split; [by eexists|].
      intros b x Hb. assert (a <> b) by congruence.
      exists a, (Some n). split; [done|].
      rewrite lookup_insert_ne, lookup_alter_ne, Ha by done. split; [done|].
      rewrite delete_insert_ne, delete_alter_ne by done.
      apply Hsnoc. by rewrite lookup_delete_ne.
Qed.

Lemma alter_insert_ne {A} (h : gmap loc A) f z b x :
  z <> b -> alter f z (<[b := x]> h) = <[b := x]> (alter f z h).
Proof.
  intros Hne. apply map_eq. intros k.
  destruct (decide (k = b)) as [->|].
  - by rewrite lookup_alter_ne, !lookup_insert_eq by done.
  - rewrite (lookup_insert_ne _ b k) by done.
    destruct (decide (k = z)) as [->|].
    + by rewrite !lookup_alter_eq, lookup_insert_ne by done.
    + by rewrite !lookup_alter_ne, lookup_insert_ne by done.
Qed.

(** Linking a fresh entry appends its request to the queue. *)
Lemma link_entry_spec b x (w : vmm_world) h l :
  has_ioapic (w_st w) -> heap (w_st w) = <[b := IEntry x None]> h -> h !! b = None ->
  queue_at h (interrupt_queue (ioapic (g_hv (w_st w)))) l ->
  wp (link_entry b) (fun _ w' => exists q h',
    queue_at h' q (l ++ [x]) /\
    w' = w <| w_st := map_ioapic (fun a => a <| interrupt_queue := q |>)
                        ((w_st w) <| heap := h' |>) |>) w.
Proof.
  intros Ha Hheap Hb Hq. unfold link_entry. vmm_go.
  destruct (interrupt_queue (ioapic (g_hv (w_st w)))) as [a|] eqn:Hp.
  - destruct (queue_at_last l h a (size (heap (w_st w))) w) as (z & Hz & [e He] & Hsnoc).
    + done.
    + rewrite Hheap. by apply insert_subseteq.
    + apply queue_at_size in Hq. rewrite Hheap, map_size_insert_None by done. lia.
    + apply wp_bind. unfold wp at 1. rewrite Hz. apply wp_modify.
      eexists (Some a), _. split; [by apply Hsnoc|].
      rewrite <-alter_insert_ne, <-Hheap by congruence.
      destruct w as [[[] ? ? ?] ? ?]; simpl in *.
      unfold map_ioapic, set_field; simpl. do 3 f_equal.
      destruct Ha as [io Hio]; simpl in Hio; subst. unfold ioapic in *; simpl in *.
      destruct io; simpl in *; by subst.
  - destruct l as [|? ?]; [|by destruct Hq as (? & ? & ? & _)].
    apply wp_modify. exists (Some b), (heap (w_st w)). split.
    + exists b, None. by rewrite Hheap, lookup_insert_eq.
    + destruct w as [[] ? ?]. done.
Qed.

(** The two states differ at most in the interrupt queue and its nodes. *)
Definition same_but_queue (s s' : vmm_state) : Prop :=
  exists q n h,
    s' = map_ioapic (fun a => a <| interrupt_queue := q |> <| nr_pending := n |>)
           (s <| heap := h |>).

(** What the queue promises to the code that uses it, in terms of the abstract
    queue: the clients below are verified against this interface only. *)
Class BoundedQueue (env : vmm_env) (put : Z -> vmm_prog Z) (get : vmm_prog ptr)
    (have : vmm_prog bool) := {
  queue_put : forall irq l (w : vmm_world),
    pending (w_st w) l -> queue_lock ∉ (w_held w : list vmm_mutex) ->
    wp (put irq) (fun r w' =>
      w_held w' = w_held w /\
      match fifo_put irq l with
      | Some l' =>
          if env (w_trace w) (Calloc 16)
          then r = 0 /\ pending (w_st w') l' /\ same_but_queue (w_st w) (w_st w')
          else r = -1 /\ w_st w' = w_st w
      | None => r = -1 /\ w_st w' = w_st w
      end) w;
  queue_get : forall l (w : vmm_world),
    pending (w_st w) l -> queue_lock ∉ (w_held w : list vmm_mutex) ->
    wp get (fun p w' =>
      w_held w' = w_held w /\ w_trace w' = w_trace w /\
      match fifo_get l with
      | None => p = None /\ w_st w' = w_st w
      | Some (x, l') => exists a n,
          p = Some a /\ heap (w_st w') !! a = Some (IEntry x n) /\
          pending ((w_st w') <| heap ::= delete a |>) l' /\
          same_but_queue (w_st w) (w_st w')
      end) w;
  queue_have : forall l (w : vmm_world),
    pending (w_st w) l -> queue_lock ∉ (w_held w : list vmm_mutex) ->
    wp have (fun b w' => w' = w /\ b = bool_decide (l <> [])) w;
}.

Lemma queueInterrupt_spec env irq l (w : vmm_world) :
  pending (w_st w) l -> queue_lock ∉ (w_held w : list vmm_mutex) ->
  wp (queueInterrupt env irq) (fun r w' =>
    w_held w' = w_held w /\
    match fifo_put irq l with
    | Some l' =>
        if env (w_trace w) (Calloc 16)
        then r = 0 /\ pending (w_st w') l' /\ same_but_queue (w_st w) (w_st w')
        else r = -1 /\ w_st w' = w_st w
    | None => r = -1 /\ w_st w' = w_st w
    end) w.
Proof.
  intros (Ha & Hq & Hn & Hl) Hlock. unfold queueInterrupt, fifo_put. vmm_go.
  simpl in *. rewrite Hn. case_decide as Hfull.
  - rewrite (proj2 (Z.leb_gt _ _)) by lia. vmm_go. simpl.
    destruct (env (w_trace w) (Calloc 16)) eqn:Hok; vmm_go; [|done].
    set (h := heap (w_st w)). set (b := fresh (dom h)).
    assert (h !! b = None) as Hb by (apply not_elem_of_dom, is_fresh).
    eapply wp_mono.
    { eapply (link_entry_spec b irq _ h l); simpl; [done|done|done|exact Hq]. }
    simpl. intros [] w' (q & h' & Hq' & ->). vmm_go.
    split; [done|]. split; [done|]. unfold set_field in *; simpl in *. split.
    + split; [by eexists|]. split; [exact Hq'|]. simpl. rewrite length_app. simpl.
      unfold QUEUE_MAX_INTERRUPTS in *. rewrite Hn. split; [|lia].
      rewrite wrap_small; [lia|]. unfold in_width. lia.
    + by eexists q, _, _.
  - rewrite (proj2 (Z.leb_le _ _)) by lia. vmm_go. done.
Qed.

Lemma dequeueInterrupt_spec l (w : vmm_world) :
  pending (w_st w) l -> queue_lock ∉ (w_held w : list vmm_mutex) ->
  wp dequeueInterrupt (fun p w' =>
    w_held w' = w_held w /\ w_trace w' = w_trace w /\
    match fifo_get l with
    | None => p = None /\ w_st w' = w_st w
    | Some (x, l') => exists a n,
        p = Some a /\ heap (w_st w') !! a = Some (IEntry x n) /\
        pending ((w_st w') <| heap ::= delete a |>) l' /\
        same_but_queue (w_st w) (w_st w')
    end) w.
Proof.
  intros (Hio & Hq & Hn & Hl) Hlock. unfold dequeueInterrupt. vmm_go.
  simpl in *. rewrite Hn. destruct l as [|x l]; simpl in *.
  - vmm_go. done.
  - destruct Hq as (a & n & Ha & He & Hq). rewrite Ha. simpl.
    unfold deref. vmm_go. eapply wp_get_or; [exact He|]. vmm_go. simpl.
    split; [done|]. split; [done|]. exists a, n. split; [done|]. split; [done|].
    unfold QUEUE_MAX_INTERRUPTS in *. split.
    + split; [by eexists|]. split; [exact Hq|]. simpl. rewrite Hn. unfold QUEUE_MAX_INTERRUPTS. split; [|lia].
      rewrite wrap_small; [lia|]. unfold in_width. lia.
    + destruct w as [[[] ? ? ?] ? ?]; simpl in *. by eexists _, _, _.
Qed.

Lemma haveInterrupts_spec l (w : vmm_world) :
  pending (w_st w) l -> queue_lock ∉ (w_held w : list vmm_mutex) ->
  wp haveInterrupts (fun b w' => w' = w /\ b = bool_decide (l <> [])) w.
Proof.
  intros (Ha & Hq & Hn & Hl) Hlock. unfold haveInterrupts. vmm_go.
  destruct w as [st tr held]; simpl in *. split; [done|].
  rewrite Hn. by destruct l.
Qed.

#[export] Instance ioapic_queue env :
  BoundedQueue env (queueInterrupt env) dequeueInterrupt haveInterrupts := {
  queue_put := queueInterrupt_spec env;
  queue_get := dequeueInterrupt_spec;
  queue_have := haveInterrupts_spec;
}.

(** ** Well-formed monitor states *)

Record vcpu_ok (s : vmm_state) (i : nat) (v : vcpu_t) : Prop := {
  ok_id : id v = i;
  ok_nr : i < g_nvcpus s;
  ok_state : state v = STATE_NOT_STARTED \/ state v = STATE_RUNNING \/ state v = STATE_HALTED;
  ok_isr : in_width 32 (isr v);
  ok_apicbase : in_width 32 (apicbase (regs v));
}.

Record wf_vmm (s : vmm_state) : Prop := {
  wf_vcpus : length (vcpus (g_hv s)) = NR_MAX_VCPUS;
  wf_nvcpus : 0 <= g_nvcpus s <= NR_MAX_VCPUS;
  wf_vcpu : forall i v, vcpu_at s i = Some v -> vcpu_ok s i v;
  wf_table : length (irq_redir_table (ioapic (g_hv s))) = NR_MAX_IOAPIC_IRQS;
  wf_entries : Forall (in_width 32) (irq_redir_table (ioapic (g_hv s)));
  wf_queue : exists l, pending s l;
}.

Lemma pending_same s s' l :
  ioapic_p (g_hv s') = ioapic_p (g_hv s) -> heap s' = heap s -> pending s l -> pending s' l.
Proof. unfold pending, has_ioapic, ioapic. by intros -> ->. Qed.

Lemma wf_has_ioapic s : wf_vmm s -> has_ioapic s.
Proof. intros Hs. destruct (wf_queue s Hs) as [l Hl]. by eapply pending_ioapic. Qed.
#[export] Hint Resolve wf_has_ioapic : ioapic.

Lemma wf_map_vcpu s i f :
  (forall v, vcpu_ok s i v -> vcpu_ok s i (f v)) -> wf_vmm s -> wf_vmm (map_vcpu i f s).
Proof.
  intros Hf [H1 H2 H3 H4 H5 H6]. constructor; try done.
  - simpl. unfold set_field. by rewrite length_alter.
  - intros j v Hv. rewrite vcpu_at_map in Hv. case_decide as Hij.
    + subst j. destruct (vcpu_at s i) as [v0|] eqn:Hv0; [|done]. simplify_eq/=.
      destruct (Hf v0); [by apply H3|]. constructor; auto.
    + destruct (H3 _ _ Hv). constructor; auto.
Qed.

(** Waking a halted virtual CPU. *)
Definition wake (i : nat) (v : vcpu_t) (w : vmm_world) : vmm_world :=
  if state v =? STATE_HALTED then
    w <| w_st ::= map_vcpu i (fun t => t <| state := STATE_RUNNING |>) |>
      <| w_trace ::= fun tr => tr ++ [Cond_signal i : call vmm_iface] |>
  else w.

(** What [ioApicSendInterrupt] does with request [k] (0 to 31): the virtual CPU
    that the redirection table names is absent or was never started; the
    request is still in service there; the driver refuses the injection; or the
    vector of the table is injected and the request marked in service. *)
Inductive delivery (env : vmm_env) (w : vmm_world) (k : Z) : Z -> vmm_world -> Prop :=
  | no_cpu entry :
      znth (irq_redir_table (ioapic (g_hv (w_st w)))) k = Some entry ->
      (g_nvcpus (w_st w) <= entry_dest_cpu entry \/
       vcpu_at (w_st w) (Z.to_nat (entry_dest_cpu entry)) = None) ->
      delivery env w k (-1) w
  | not_started entry v :
      znth (irq_redir_table (ioapic (g_hv (w_st w)))) k = Some entry ->
      vcpu_at (w_st w) (Z.to_nat (entry_dest_cpu entry)) = Some v ->
      state v = STATE_NOT_STARTED ->
      delivery env w k (-1) w
  | in_service entry v w' :
      znth (irq_redir_table (ioapic (g_hv (w_st w)))) k = Some entry ->
      vcpu_at (w_st w) (Z.to_nat (entry_dest_cpu entry)) = Some v ->
      state v <> STATE_NOT_STARTED ->
      Z.testbit (isr v) k = true ->
      w' = wake (Z.to_nat (entry_dest_cpu entry)) v w ->
      delivery env w k (-1) w'
  | refused entry v c w' w'' :
      znth (irq_redir_table (ioapic (g_hv (w_st w)))) k = Some entry ->
      vcpu_at (w_st w) (Z.to_nat (entry_dest_cpu entry)) = Some v ->
      state v <> STATE_NOT_STARTED ->
      Z.testbit (isr v) k = false ->
      w' = wake (Z.to_nat (entry_dest_cpu entry)) v w ->
      c = KVM_INTERRUPT (driver_fd v) (entry_vector entry) ->
      env (w_trace w') (KVM_INTERRUPT (driver_fd v) (entry_vector entry)) < 0 ->
      w'' = w' <| w_trace := w_trace w' ++ [c : call vmm_iface] |> ->
      delivery env w k (-1) w''
  | injected entry v c w' w'' :
      znth (irq_redir_table (ioapic (g_hv (w_st w)))) k = Some entry ->
      vcpu_at (w_st w) (Z.to_nat (entry_dest_cpu entry)) = Some v ->
      state v <> STATE_NOT_STARTED ->
      Z.testbit (isr v) k = false ->
      w' = wake (Z.to_nat (entry_dest_cpu entry)) v w ->
      c = KVM_INTERRUPT (driver_fd v) (entry_vector entry) ->
      0 <= env (w_trace w') (KVM_INTERRUPT (driver_fd v) (entry_vector entry)) ->
      w'' = w' <| w_trace := w_trace w' ++ [c : call vmm_iface] |>
               <| w_st ::= map_vcpu (Z.to_nat (entry_dest_cpu entry))
                             (fun v => v <| isr ::= fun i => Z.setbit i k |>) |> ->
      delivery env w k 0 w''.

Lemma injectLocked_spec env i k entry v (w : vmm_world) (Q : Z -> vmm_world -> Prop) :
  0 <= k < 32 -> vcpu_at (w_st w) i = Some v ->
  (if Z.testbit (isr v) k then Q (-1) w
   else
     let c := KVM_INTERRUPT (driver_fd v) (entry_vector entry) in
     let w' := w <| w_trace := w_trace w ++ [c : call vmm_iface] |> in
     if env (w_trace w) (KVM_INTERRUPT (driver_fd v) (entry_vector entry)) <? 0 then Q (-1) w'
     else Q 0 (w' <| w_st ::= map_vcpu i (fun v => v <| isr ::= fun i => Z.setbit i k |>) |>)) ->
  wp (injectLocked env i k entry) Q w.
Proof.
  intros Hk Hv HQ. unfold injectLocked. apply wp_bind. eapply wp_get_vcpu; [exact Hv|].
  rewrite land_bit_eqb by done.
  destruct (Z.testbit (isr v) k); vmm_go; [done|].
  simpl. destruct (_ <? 0); vmm_go; [done|].
  assert (forall f g, (forall v, f v = g v) -> forall s, map_vcpu i f s = map_vcpu i g s) as Hext.
  { intros f g Hfg s. unfold map_vcpu, set_field; simpl. f_equal. f_equal.
    apply list_alter_ext; [|done]. intros [x|] _; simpl; [by rewrite Hfg|done]. }
  unfold set_field in *; simpl in *.
  erewrite Hext; [exact HQ|]. intros v'. simpl. by rewrite lor_bit.
Qed.

Lemma vcpu_at_Some s i v : vcpu_at s i = Some v -> vcpus (g_hv s) !! i = Some (Some v).
Proof. unfold vcpu_at. destruct (_ !! i) as [[]|]; simpl; congruence. Qed.

Lemma read_vcpus_bound s i :
  wf_vmm s -> (i < NR_MAX_VCPUS)%nat -> vcpus (g_hv s) !! i = Some (vcpu_at s i).
Proof.
  intros Hs Hi. unfold vcpu_at.
  destruct (lookup_lt_is_Some_2 (vcpus (g_hv s)) i) as [o Ho]; [by rewrite (wf_vcpus s Hs)|].
  by rewrite Ho.
Qed.

Lemma ioApicSendInterrupt_spec env irq (w : vmm_world) :
  wf_vmm (w_st w) -> w_held w = [] ->
  wp (ioApicSendInterrupt env irq) (delivery env w (Z.land irq 0x1f)) w.
Proof.
  intros Hwf Hh. pose proof (land_1f_range irq) as Hk. revert Hk.
  unfold ioApicSendInterrupt. generalize (Z.land irq 31) as k. intros k Hk.
  destruct w as [s tr held]; simpl in *; subst held.
  vmm_go. destruct (znth_is_Some (irq_redir_table (ioapic (g_hv s))) k) as [entry He].
  { by rewrite (wf_table s Hwf). }
  eapply wp_get_or; [exact He|].
  assert (0 <= entry_dest_cpu entry) as Hd by (by apply bits_range).
  apply wp_bind. simpl. destruct (g_nvcpus s <=? entry_dest_cpu entry) eqn:Hn; simpl.
  { vmm_go. eapply no_cpu; [exact He|]. left; simpl. lia. }
  apply wp_bind. eapply wp_read_vcpus.
  { apply read_vcpus_bound; [done|]. simpl. pose proof (wf_nvcpus s Hwf). lia. }
  simpl. destruct (vcpu_at s (Z.to_nat (entry_dest_cpu entry))) as [v|] eqn:Hv.
  2: { vmm_go. eapply no_cpu; [exact He|]. by right. }
  destruct (state v =? STATE_NOT_STARTED) eqn:Hns.
  { vmm_go. eapply not_started; [done..|]. by apply Z.eqb_eq. }
  apply Z.eqb_neq in Hns.
  set (i := Z.to_nat (entry_dest_cpu entry)) in *.
  destruct (state v =? STATE_HALTED) eqn:Hhalt; vmm_go.
  all: eapply injectLocked_spec; [done| |].
  all: try (simpl; rewrite ?vcpu_at_map_same, Hv; reflexivity).
  all: simpl; destruct (Z.testbit (isr v) k) eqn:Hb; [|destruct (_ <? 0) eqn:Herr]; vmm_go.
  all: (eapply in_service + eapply refused + eapply injected);
    [exact He|exact Hv|done|exact Hb|unfold wake; fold i; rewrite Hhalt; reflexivity|..].
  all: simpl; try reflexivity; lia.
Qed.

(** ** Register accesses *)

(** The startup request: the target gets the entry point and starts, unless it
    does not exist or already runs. *)
Definition sipi_start (vector : Z) (v : vcpu_t) : vcpu_t :=
  v <| state := STATE_RUNNING |>
    <| regs ::= fun r => r <| eip := Z.land vector (u32 (Z.lnot 0x3)) |> |>
    <| dirty := true |>.

Lemma lapicDoSipi_spec env i vector w :
  wf_vmm (w_st w) -> w_held w = [] ->
  let t := Z.to_nat (Z.land vector 0x3) in
  wp (lapicDoSipi env i vector) (fun _ w' =>
    w' = match vcpu_at (w_st w) t with
         | None => w
         | Some v =>
             if state v =? STATE_RUNNING then w
             else w <| w_st ::= map_vcpu t (sipi_start vector) |>
                    <| w_trace := w_trace w ++ [Cond_signal t : call vmm_iface] |>
         end) w.
Proof.
  intros Hwf Hh t. destruct w as [s tr held]; simpl in *; subst held.
  pose proof (land_3_range vector).
  unfold lapicDoSipi. apply wp_bind. eapply wp_read_vcpus.
  { apply read_vcpus_bound; [done|]. unfold NR_MAX_VCPUS. lia. }
  simpl. fold t. destruct (vcpu_at s t) as [v|] eqn:Hv; vmm_go; [|done].
  destruct (state v =? STATE_RUNNING); vmm_go; done.
Qed.

Lemma wf_sipi s t vector : wf_vmm s -> wf_vmm (map_vcpu t (sipi_start vector) s).
Proof.
  intros Hwf. apply wf_map_vcpu; [|done]. intros v [? ? ? ? ?].
  constructor; try done. simpl. auto.
Qed.

(** A virtual CPU that exists and has its shared page. *)
Definition live (i : nat) (s : vmm_state) : Prop :=
  exists v, vcpu_at s i = Some v /\ is_Some (comm v).

Lemma live_map_vcpu i j f s :
  (forall v, is_Some (comm v) -> is_Some (comm (f v))) -> live i s -> live i (map_vcpu j f s).
Proof.
  intros Hf (v & Hv & Hc). unfold live. rewrite vcpu_at_map.
  case_decide; [|by exists v]. rewrite Hv. exists (f v). auto.
Qed.

(** Every CPU below the count has been created. *)
Definition all_created (s : vmm_state) : Prop :=
  forall i : nat, i < g_nvcpus s -> is_Some (vcpu_at s i).

Lemma all_created_map_vcpu j f s : all_created s -> all_created (map_vcpu j f s).
Proof.
  intros H i Hi. rewrite vcpu_at_map. specialize (H i Hi).
  case_decide; [|done]. by apply fmap_is_Some.
Qed.

(** What register accesses and interrupt delivery leave as it was. *)
Record access_ok (w w' : vmm_world) : Prop := {
  acc_wf : wf_vmm (w_st w');
  acc_held : w_held w' = w_held w;
  acc_live : forall i, live i (w_st w) -> live i (w_st w');
  acc_devices : g_devicelist (w_st w') = g_devicelist (w_st w);
  acc_nvcpus : g_nvcpus (w_st w') = g_nvcpus (w_st w);
  acc_created : all_created (w_st w) -> all_created (w_st w');
}.

Lemma access_ok_refl w : wf_vmm (w_st w) -> access_ok w w.
Proof. by constructor. Qed.

Lemma access_ok_ioapic w w' f :
  wf_vmm (map_ioapic f (w_st w)) ->
  w_st w' = map_ioapic f (w_st w) -> w_held w' = w_held w -> access_ok w w'.
Proof. intros. destruct w' as [s' tr' h']; simpl in *; subst. by constructor. Qed.

Lemma access_ok_same w w' :
  wf_vmm (w_st w) -> w_st w' = w_st w -> w_held w' = w_held w -> access_ok w w'.
Proof. intros. destruct w' as [s' tr' h']; simpl in *; subst. by constructor. Qed.

Lemma access_ok_vcpu w w' j f :
  (forall v, comm (f v) = comm v) -> wf_vmm (map_vcpu j f (w_st w)) ->
  w_st w' = map_vcpu j f (w_st w) -> w_held w' = w_held w -> access_ok w w'.
Proof.
  intros Hf Hwf Hst Hh. constructor; rewrite ?Hst; try done.
  - intros i. apply live_map_vcpu. intros v. by rewrite Hf.
  - apply all_created_map_vcpu.
Qed.

Lemma lapicMmio_spec env i v phys_addr data len is_write w :
  wf_vmm (w_st w) -> w_held w = [] -> vcpu_at (w_st w) i = Some v ->
  wp (lapicMmio env i phys_addr data len is_write) (fun _ w' =>
    access_ok w w' /\ ioapic (g_hv (w_st w')) = ioapic (g_hv (w_st w)) /\
    heap (w_st w') = heap (w_st w)) w.
Proof.
  intros Hwf Hh Hv. pose proof (access_ok_refl w Hwf) as Hrefl. unfold lapicMmio.
  destruct (negb (len =? 4)); [by apply wp_ret|].
  destruct (negb (is_write =? 0)).
  - unfold lapicMmioWrite. apply wp_bind.
    destruct (Z.land phys_addr 0xfff =? LAPIC_OFF_IPI).
    { eapply wp_mono; [by apply lapicDoSipi_spec|]. simpl. intros _ w' ->. apply wp_ret.
      case_match; [|done]. case_match; [done|].
      split; [|done]. by eapply access_ok_vcpu; [|by apply wf_sipi|..]. }
    destruct (Z.land phys_addr 0xfff =? LAPIC_OFF_EOI); [|by vmm_go].
    destruct w as [s tr held]; simpl in *; subst held. vmm_go. simpl.
    split; [|done]. eapply access_ok_vcpu; [| |reflexivity|done]; [done|].
    apply wf_map_vcpu; [|done]. intros v' [? ? ? ? ?]. constructor; try done. simpl.
    rewrite land_lnot_bit by (done || apply land_1f_range).
    apply clearbit_range; [apply land_1f_range|done].
  - unfold lapicMmioRead. destruct (_ =? _); [|by apply wp_ret].
    apply wp_bind. eapply wp_get_vcpu; [done|]. by apply wp_ret.
Qed.

(** The redirection entry that an address names. *)
Definition slot (phys_addr : Z) : nat :=
  Z.to_nat ((phys_addr - PADDR_IOAPIC - IOAPIC_OFF_REDTBL) / 4).

Lemma redtblAccess_bound phys_addr :
  redtblAccess phys_addr = true ->
  0 <= (phys_addr - PADDR_IOAPIC - IOAPIC_OFF_REDTBL) / 4 < NR_MAX_IOAPIC_IRQS.
Proof.
  unfold redtblAccess, PADDR_IOAPIC, IOAPIC_OFF_REDTBL, NR_MAX_IOAPIC_IRQS.
  rewrite andb_true_iff, !Z.leb_le. intros. split.
  - apply Z.div_pos; lia.
  - apply Z.div_lt_upper_bound; lia.
Qed.

(** The assertion in [redtblIdx] never fails for an address in the table. *)
Lemma redtblIdx_spec phys_addr w (Q : Z -> vmm_world -> Prop) :
  redtblAccess phys_addr = true -> Q (slot phys_addr) w -> wp (redtblIdx phys_addr) Q w.
Proof.
  intros Ha HQ. apply redtblAccess_bound in Ha as Hb. unfold redtblIdx.
  unfold redtblAccess, PADDR_IOAPIC, IOAPIC_OFF_REDTBL, NR_MAX_IOAPIC_IRQS in Ha.
  rewrite andb_true_iff, !Z.leb_le in Ha.
  rewrite (wrap_small 64) by
    (unfold in_width, PADDR_IOAPIC, IOAPIC_OFF_REDTBL; lia).
  rewrite swrap_small by (unfold NR_MAX_IOAPIC_IRQS in Hb; lia).
  rewrite (proj2 (Z.ltb_lt _ _)) by lia. wp_go.
  unfold slot in HQ. by rewrite Z2Nat.id in HQ by lia.
Qed.

Lemma slot_bound phys_addr :
  redtblAccess phys_addr = true -> (slot phys_addr < NR_MAX_IOAPIC_IRQS)%nat.
Proof. intros H%redtblAccess_bound. unfold slot. lia. Qed.

Lemma wf_set_entry s k e :
  in_width 32 e -> wf_vmm s ->
  wf_vmm (map_ioapic (fun a => a <| irq_redir_table ::= <[k := e]> |>) s).
Proof.
  intros He [H1 H2 H3 H4 H5 H6]. constructor; try done.
  - intros j v Hv. destruct (H3 j v Hv). by constructor.
  - simpl. unfold set_field. by rewrite length_insert.
  - simpl. by apply Forall_insert.
  - destruct H6 as (l & _ & Hp). exists l. split; [by eexists|exact Hp].
Qed.

(** A write to the table changes the one entry that the address names. *)
Lemma ioApicMmioWrite_spec phys_addr data w :
  wf_vmm (w_st w) ->
  wp (ioApicMmioWrite phys_addr data) (fun r w' =>
    r = 0 /\
    w' = if redtblAccess phys_addr then
           w <| w_st ::= map_ioapic (fun a =>
                  a <| irq_redir_table ::= <[slot phys_addr := load32 data]> |>) |>
         else w) w.
Proof.
  intros Hwf. unfold ioApicMmioWrite. destruct (redtblAccess phys_addr) eqn:Ha; [|by wp_go].
  apply wp_bind. apply redtblIdx_spec; [done|]. vmm_go.
  apply slot_bound in Ha. destruct (lookup_lt_is_Some_2
    (irq_redir_table (ioapic (g_hv (w_st w)))) (slot phys_addr)) as [e He].
  { by rewrite (wf_table _ Hwf). }
  eapply wp_get_or; [by rewrite znth_nat|]. vmm_go.
  by rewrite Nat2Z.id, load32_le_val.
Qed.

Definition ioapic_value (s : vmm_state) (phys_addr : Z) : Z :=
  if redtblAccess phys_addr
  then default 0 (irq_redir_table (ioapic (g_hv s)) !! slot phys_addr)
  else if phys_addr =? PADDR_IOAPIC + IOAPIC_OFF_ID then 0x4f4f4f
  else if phys_addr =? PADDR_IOAPIC + IOAPIC_OFF_MAX_IRQS then NR_MAX_IOAPIC_IRQS
  else 0.

Lemma ioApicMmioRead_spec phys_addr data w :
  wf_vmm (w_st w) -> ioApicAccess phys_addr = true ->
  wp (ioApicMmioRead phys_addr data) (fun r w' =>
    w' = w /\ u32 r = ioapic_value (w_st w) phys_addr) w.
Proof.
  intros Hwf Hio. unfold ioApicMmioRead, ioapic_value.
  destruct (redtblAccess phys_addr) eqn:Ha.
  - apply wp_bind. apply redtblIdx_spec; [done|]. vmm_go. apply slot_bound in Ha.
    destruct (lookup_lt_is_Some_2 (irq_redir_table (ioapic (g_hv (w_st w)))) (slot phys_addr))
      as [e He]; [by rewrite (wf_table _ Hwf)|].
    eapply wp_get_or; [by rewrite znth_nat|]. vmm_go. split; [done|].
    rewrite He, wrap_swrap by lia. apply wrap_small.
    eapply Forall_lookup_1; [apply (wf_entries _ Hwf)|done].
  - unfold ioApicAccess, NR_MAX_IOAPIC_IRQS, PADDR_IOAPIC in *.
    rewrite andb_true_iff, !Z.leb_le in Hio.
    rewrite (wrap_small 64) by (unfold in_width; lia).
    unfold IOAPIC_OFF_ID, IOAPIC_OFF_MAX_IRQS.
    destruct (decide (phys_addr = 0xFEC00000)) as [->|]; [by vmm_go|].
    destruct (decide (phys_addr = 0xFEC00004)) as [->|]; [by vmm_go|].
    rewrite !(proj2 (Z.eqb_neq _ _)) by lia. by vmm_go.
Qed.

Lemma ioApicMmio_spec i phys_addr data len is_write w :
  wf_vmm (w_st w) -> w_held w = [] -> ioApicAccess phys_addr = true ->
  wp (ioApicMmio i phys_addr data len is_write) (fun r w' =>
    w_held w' = [] /\ w_trace w' = w_trace w /\
    w_st w' = (if (len =? 4) && negb (is_write =? 0) && redtblAccess phys_addr then
                 map_ioapic (fun a => a <| irq_redir_table ::= <[slot phys_addr := load32 data]> |>)
                   (w_st w)
               else w_st w) /\
    u32 r = (if (len =? 4) && (is_write =? 0) then ioapic_value (w_st w) phys_addr else 0)) w.
Proof.
  intros Hwf Hh Ha. unfold ioApicMmio. destruct w as [s tr held]; simpl in *; subst held.
  destruct (len =? 4); simpl; [|by vmm_go]. vmm_go.
  destruct (is_write =? 0); simpl.
  - eapply wp_mono; [by apply ioApicMmioRead_spec|]. simpl. intros r w' [-> Hr]. by vmm_go.
  - eapply wp_mono; [by apply ioApicMmioWrite_spec|]. simpl. intros r w' [-> ->].
    destruct (redtblAccess phys_addr); by vmm_go.
Qed.

(** Register accesses, on every address, width and direction: the invariant
    and the mutexes are kept, and the call reports success. *)
Lemma apicMmio_spec env i v phys_addr data len is_write w :
  wf_vmm (w_st w) -> w_held w = [] -> vcpu_at (w_st w) i = Some v -> (4 <= length data)%nat ->
  wp (apicMmio env i phys_addr data len is_write) (fun r w' =>
    access_ok w w' /\ r.1 = 0 /\ heap (w_st w') = heap (w_st w) /\ length r.2 = length data) w.
Proof.
  intros Hwf Hh Hv Hdata. pose proof (access_ok_refl w Hwf) as Hrefl. unfold apicMmio.
  destruct (len =? 4) eqn:Hlen; simpl; [|by vmm_go].
  apply wp_bind. eapply wp_get_vcpu; [done|]. apply wp_bind.
  eapply (wp_mono _ (fun (r : Z) w' => access_ok w w' /\ heap (w_st w') = heap (w_st w))).
  - destruct (lapicAccess v phys_addr).
    + eapply wp_mono; [exact (lapicMmio_spec env i v phys_addr data len is_write w Hwf Hh Hv)|].
      by intros r w' (? & _ & ?).
    + destruct (ioApicAccess phys_addr) eqn:Ha; [|by vmm_go].
      eapply wp_mono; [exact (ioApicMmio_spec i phys_addr data len is_write w Hwf Hh Ha)|].
      simpl. intros r w' (H1 & H2 & H3 & _). clear Ha.
      assert (w_held w' = w_held w) as H0 by (etransitivity; [exact H1|by symmetry]). destruct (_ && _); (split; [|by rewrite H3]).
      * eapply access_ok_ioapic; [|exact H3|exact H0].
        apply wf_set_entry; [apply load32_range|done].
      * by apply access_ok_same.
  - simpl. intros r w' [H1 H3]. destruct (is_write =? 0); vmm_go; [|done].
    do 3 (split; [done|]). by apply length_store32.
Qed.

(** The abstract queue run on a list of operations. [Put] answers whether the
    request was accepted, [Get] the request that was taken out. *)
Inductive queue_op := Put (irq : Z) | Get.
Inductive queue_res := Accepted (b : bool) | Taken (irq : option Z).

Definition fifo_step (op : queue_op) (l : list Z) : queue_res * list Z :=
  match op with
  | Put irq => match fifo_put irq l with
               | Some l' => (Accepted true, l')
               | None => (Accepted false, l)
               end
  | Get => match fifo_get l with
           | Some (x, l') => (Taken (Some x), l')
           | None => (Taken None, l)
           end
  end.

Fixpoint fifo_run (ops : list queue_op) (l : list Z) : list queue_res * list Z :=
  match ops with
  | [] => ([], l)
  | op :: ops =>
      let '(r, l) := fifo_step op l in
      let '(rs, l) := fifo_run ops l in
      (r :: rs, l)
  end.

Section QueueClient.
Context (env : vmm_env) (put : Z -> vmm_prog Z) (get : vmm_prog ptr) (have : vmm_prog bool).
Context `{!BoundedQueue env put get have}.

(** The same operations on the concrete queue: the reader of an entry frees
    it, as [checkAndSendInterrupt] does. *)
Definition queue_step (op : queue_op) : vmm_prog queue_res :=
  match op with
  | Put irq => r ← put irq; mret (Accepted (r =? 0))
  | Get =>
      p ← get;
      match p with
      | None => mret (Taken None)
      | Some p => e ← deref p; free env p;; mret (Taken (Some (irq e)))
      end
  end.

Fixpoint queue_run (ops : list queue_op) : vmm_prog (list queue_res) :=
  match ops with
  | [] => mret []
  | op :: ops => r ← queue_step op; rs ← queue_run ops; mret (r :: rs)
  end.

Hypothesis enough_memory : forall tr, env tr (Calloc 16) = true.

Lemma queue_step_refines op l w :
  pending (w_st w) l -> w_held w = [] ->
  wp (queue_step op) (fun r w' =>
    r = (fifo_step op l).1 /\ pending (w_st w') (fifo_step op l).2 /\ w_held w' = []) w.
Proof.
  intros Hp Hh. assert (queue_lock ∉ (w_held w : list vmm_mutex)) as Hl by
    (rewrite Hh; apply not_elem_of_nil).
  destruct op as [x|]; simpl; apply wp_bind.
  - eapply wp_mono; [by apply queue_put|]. intros r w' [Hh' Hr]. rewrite Hh in Hh'.
    rewrite enough_memory in Hr. destruct (fifo_put x l) as [l'|].
    + destruct Hr as (-> & Hp' & _). by apply wp_ret.
    + destruct Hr as (-> & Hst). apply wp_ret. by rewrite Hst.
  - eapply wp_mono; [by apply queue_get|]. intros p w' (Hh' & _ & Hr). rewrite Hh in Hh'.
    destruct (fifo_get l) as [[x l']|].
    + destruct Hr as (a & n & -> & Ha & Hp' & _). unfold deref, free. vmm_go.
      eapply wp_get_or; [exact Ha|]. by vmm_go.
    + destruct Hr as (-> & Hst). apply wp_ret. by rewrite Hst.
Qed.

Lemma queue_run_refines ops : forall l w,
  pending (w_st w) l -> w_held w = [] ->
  wp (queue_run ops) (fun rs w' =>
    rs = (fifo_run ops l).1 /\ pending (w_st w') (fifo_run ops l).2 /\ w_held w' = []) w.
Proof.
  induction ops as [|op ops IH]; intros l w Hp Hh; simpl; [by apply wp_ret|].
  apply wp_bind. eapply wp_mono; [by apply queue_step_refines|].
  intros r w' (-> & Hp' & Hh'). destruct (fifo_step op l) as [r l']; simpl in *.
  apply wp_bind. eapply wp_mono; [by apply IH|].
  intros rs w'' (-> & Hp'' & Hh''). destruct (fifo_run ops l') as [rs l'']; simpl in *.
  by apply wp_ret.
Qed.
End QueueClient.

Lemma wf_wake i v w : wf_vmm (w_st w) -> wf_vmm (w_st (wake i v w)).
Proof.
  intros Hwf. unfold wake. destruct (_ =? _); [|done]. simpl. apply wf_map_vcpu; [|done].
  intros t [? ? ? ? ?]. constructor; try done. simpl. auto.
Qed.

Lemma access_ok_wake i v w : wf_vmm (w_st w) -> access_ok w (wake i v w).
Proof.
  intros Hwf. pose proof (wf_wake i v w Hwf) as Hwk. revert Hwk. unfold wake.
  destruct (_ =? _); [|by constructor].
  intros Hwk. by apply (access_ok_vcpu w _ i (fun t => t <| state := STATE_RUNNING |>)).
Qed.

Lemma wake_held i v w : w_held (wake i v w) = w_held w.
Proof. unfold wake. by destruct (_ =? _). Qed.

Lemma wake_ioapic i v w : ioapic_p (g_hv (w_st (wake i v w))) = ioapic_p (g_hv (w_st w)).
Proof. unfold wake. by destruct (_ =? _). Qed.

Lemma wake_heap i v w : heap (w_st (wake i v w)) = heap (w_st w).
Proof. unfold wake. by destruct (_ =? _). Qed.

Lemma wake_nvcpus i v w : g_nvcpus (w_st (wake i v w)) = g_nvcpus (w_st w).
Proof. unfold wake. by destruct (_ =? _). Qed.

(** A woken CPU runs; nothing else about it changes. *)
Definition woken (v : vcpu_t) : vcpu_t :=
  v <| state := if state v =? STATE_HALTED then STATE_RUNNING else state v |>.

Lemma wake_vcpu_at i v w :
  vcpu_at (w_st w) i = Some v -> vcpu_at (w_st (wake i v w)) i = Some (woken v).
Proof.
  intros Hv. unfold wake, woken. destruct (_ =? _); simpl.
  - by rewrite vcpu_at_map_same, Hv.
  - rewrite Hv. by destruct v.
Qed.

#[export] Hint Rewrite wake_held wake_ioapic wake_heap wake_nvcpus : vmm.

Lemma delivery_ok env w k r w' :
  0 <= k < 32 -> wf_vmm (w_st w) -> delivery env w k r w' ->
  access_ok w w' /\ ioapic_p (g_hv (w_st w')) = ioapic_p (g_hv (w_st w)) /\
  heap (w_st w') = heap (w_st w).
Proof.
  intros Hk Hwf Hd. pose proof (access_ok_refl w Hwf) as Hrefl.
  inversion Hd as [| |e v ? ? ? ? ? Hw|e v c w0 ? ? ? ? ? Hw ? ? Hw0
    |e v c w0 ? ? ? ? ? Hw ? ? Hw0]; subst; simpl; autorewrite with vmm.
  - done.
  - done.
  - split; [by apply access_ok_wake|done].
  - split; [|done]. destruct (access_ok_wake (Z.to_nat (entry_dest_cpu e)) v w Hwf).
    by constructor.
  - split; [|done]. destruct (access_ok_wake (Z.to_nat (entry_dest_cpu e)) v w Hwf).
    constructor; simpl; try done.
    + apply wf_map_vcpu; [|done]. intros t [? ? ? ? ?].
      constructor; try done. by apply setbit_range.
    + intros i Hi. apply live_map_vcpu; auto.
    + intros Hc. apply all_created_map_vcpu. auto.
Qed.

(** ** Delivery of the next queued interrupt before a guest entry *)

(** Every well-formed state stays well formed when only the queue changes. *)
Lemma wf_same_but_queue s s' l :
  same_but_queue s s' -> pending s' l -> wf_vmm s -> wf_vmm s'.
Proof.
  intros (q & n & h & ->) Hp [H1 H2 H3 H4 H5 H6]. constructor; try done.
  - intros j v Hv. destruct (H3 j v Hv). by constructor.
  - by exists l.
Qed.

Lemma same_but_queue_keeps s s' :
  same_but_queue s s' ->
  (forall i, live i s -> live i s') /\ g_devicelist s' = g_devicelist s /\
  g_nvcpus s' = g_nvcpus s /\ (all_created s -> all_created s').
Proof. by intros (q & n & h & ->). Qed.

Lemma pending_undelete s a l : pending (s <| heap ::= delete a |>) l -> pending s l.
Proof.
  intros (Ha & Hq & Hn & Hl). split; [done|]. split; [|done]. eapply queue_at_mono; [exact Hq|].
  simpl. unfold set_field. apply delete_subseteq.
Qed.

(** What happens to the shared page or to the queue before a guest entry. *)
Inductive injection (env : vmm_env) (i : nat) (ready : Z) (w : vmm_world)
    : list Z -> vmm_world -> Prop :=
  | nothing_closed : ready = 0 -> injection env i ready w [] w
  | nothing_open w' :
      ready <> 0 ->
      w' = w <| w_st ::= map_vcpu i (fun v => v <| comm ::= fmap (fun r =>
             r <| request_interrupt_window := 0 |>) |>) |> ->
      injection env i ready w [] w'
  | window_requested x l w' :
      ready = 0 ->
      w' = w <| w_st ::= map_vcpu i (fun v => v <| comm ::= fmap (fun r =>
             r <| request_interrupt_window := 1 |>) |>) |> ->
      injection env i ready w (x :: l) w'
  | delivered x l p r w1 w2 w' :
      ready <> 0 ->
      same_but_queue (w_st w) (w_st w1) -> w_trace w1 = w_trace w ->
      delivery env w1 (Z.land x 0x1f) r w2 ->
      pending (w_st w') l ->
      w' = w2 <| w_trace ::= fun tr => tr ++ [Free p : call vmm_iface] |>
              <| w_st ::= fun s => s <| heap ::= delete p |> |> ->
      injection env i ready w (x :: l) w'.

Lemma wp_get_comm i v run (Q : kvm_run -> vmm_world -> Prop) w :
  vcpu_at (w_st w) i = Some v -> comm v = Some run -> Q run w -> wp (get_comm i) Q w.
Proof.
  intros Hv Hc HQ. unfold get_comm. apply wp_bind. eapply wp_get_vcpu; [done|].
  by eapply wp_get_or.
Qed.

Section Inject.
Context (env : vmm_env) (i : nat) (v : vcpu_t) (run : kvm_run).

Lemma deliver_next x l w :
  wf_vmm (w_st w) -> w_held w = [] -> pending (w_st w) (x :: l) ->
  ready_for_interrupt_injection run <> 0 ->
  wp (entry ← dequeueInterrupt;
      match entry with
      | None => mret (-1)
      | Some p => e ← deref p; _ ← ioApicSendInterrupt env (irq e); free env p;; mret 0
      end)
    (fun r w' => r = 0 /\ access_ok w w' /\
       injection env i (ready_for_interrupt_injection run) w (x :: l) w') w.
Proof.
  intros Hwf Hh Hp Hr. apply wp_bind.
  eapply wp_mono; [apply (dequeueInterrupt_spec _ _ Hp); rewrite Hh; apply not_elem_of_nil|].
  simpl. intros ? w1 (Hh1 & Htr & a & n & -> & Ha & Hp1 & Hsame). rewrite Hh in Hh1.
  unfold deref. vmm_go. eapply wp_get_or; [exact Ha|]. simpl.
  assert (wf_vmm (w_st w1)) as Hwf1.
  { eapply wf_same_but_queue; [exact Hsame|by eapply pending_undelete|done]. }
  apply wp_bind. eapply wp_mono; [by apply ioApicSendInterrupt_spec|]. intros r w2 Hd.
  destruct (delivery_ok _ _ _ _ _ (land_1f_range x) Hwf1 Hd) as ([Hwf2 Hh2 Hlive Hdev Hnr Hcr] & Hio & Hhp).
  unfold free. vmm_go.
  set (w' := _ <| w_st ::= _ |>).
  assert (pending (w_st w') l) as Hp2.
  { eapply pending_same; [| |exact Hp1]; simpl; [done|]. unfold set_field. by rewrite Hhp. }
  split; [done|]. split; [|by eapply delivered].
  destruct (same_but_queue_keeps _ _ Hsame) as (Hk1 & Hk2 & Hk3 & Hk4).
  constructor.
  - destruct Hwf2 as [H1 H2 H3 H4 H5 H6]. constructor; try done; [|by exists l].
    intros j u Hu. destruct (H3 j u Hu). by constructor.
  - rewrite Hh. etransitivity; [exact Hh2|exact Hh1].
  - intros j Hj. by apply Hlive, Hk1.
  - etransitivity; [exact Hdev|exact Hk2].
  - etransitivity; [exact Hnr|exact Hk3].
  - intros Hc. apply Hcr. auto.
Qed.

Lemma access_ok_set_comm f w :
  wf_vmm (w_st w) -> access_ok w (w <| w_st ::= map_vcpu i (fun v => v <| comm ::= fmap f |>) |>).
Proof.
  intros Hwf. constructor; try done.
  - apply wf_map_vcpu; [|done]. intros u [? ? ? ? ?]. by constructor.
  - intros j. apply live_map_vcpu. intros u [c Hc]. simpl. unfold set_field. by rewrite Hc.
  - apply all_created_map_vcpu.
Qed.

Lemma checkAndSendInterrupt_spec l w :
  wf_vmm (w_st w) -> w_held w = [] -> vcpu_at (w_st w) i = Some v -> comm v = Some run ->
  pending (w_st w) l ->
  wp (checkAndSendInterrupt env i) (fun r w' =>
    r = 0 /\ access_ok w w' /\
    injection env i (ready_for_interrupt_injection run) w l w') w.
Proof.
  intros Hwf Hh Hv Hc Hp. unfold checkAndSendInterrupt. apply wp_bind.
  eapply wp_mono; [apply (haveInterrupts_spec _ _ Hp); rewrite Hh; apply not_elem_of_nil|].
  intros b w1 [-> ->]. apply wp_bind. eapply wp_get_comm; [done..|].
  destruct (ready_for_interrupt_injection run =? 0) eqn:Hr;
    [apply Z.eqb_eq in Hr|apply Z.eqb_neq in Hr]; destruct l as [|x l]; simpl.
  - vmm_go. rewrite Hr. split; [done|]. split; [by apply access_ok_refl|]. by constructor.
  - unfold set_comm. vmm_go. split; [done|]. split; [by apply access_ok_set_comm|].
    by constructor.
  - unfold set_comm. vmm_go. split; [done|]. split; [by apply access_ok_set_comm|].
    by econstructor.
  - by apply deliver_next.
Qed.
End Inject.
