(* ===== verification/Samples.v ===== *)
(** * Samples: concrete environments and machines

    The witnesses of the properties evaluate the model on these values: an
    environment in which every call succeeds, and a machine with two virtual
    CPUs, the first running and the second waiting to be started. *)

From S2P Require Import Prelude Effects Machine Apic.

Definition quiet_env : vmm_env := fun _ (c : vmm_call) =>
  match c return vmm_reply c with
  | Calloc _ | Malloc _ | Strdup _ => true
  | Fopen _ => None
  | Mmap_run _ _ => (0, kvm_run_zero)
  | Read_byte _ => None
  | Socketpair => (0, (10, 11))
  | Recv _ _ => (4, [0x49; 0x4e; 0x49; 0x54])
  | Getenv _ => None
  | Cond_wait i => map_vcpu i (fun v => v <| state := STATE_RUNNING |>)
  | KVM_GET_REGS _ => (0, KRegs 0 0 0 0 0 0 0 0 0 0)
  | KVM_GET_SREGS _ => (0, kvm_sregs_zero)
  | KVM_GET_SREGS_by_value _ _ => No_store (-1)
  | KVM_RUN _ => (0, kvm_run_zero)
  | Memfd_create _ => 7
  | Open _ => 8
  | Mmap a _ _ _ _ _ => a
  | Fork => 100
  | Send _ data => length data
  | Read_to _ _ n => n
  | _ => 0
  end.

Definition sample_vcpu (n st : Z) : vcpu_t :=
  Vcpu n (20 + n) false st (Some (kvm_run_zero <| ready_for_interrupt_injection := 1 |>))
    (regs_zero <| apicbase := Z.lor APIC_DEFAULT_ADDRESS MSR_IA32_APICBASE_ENABLE |>) 0.

(** Request 9 is routed to vector 0x29 of CPU 1, every other one to vector 0 of
    CPU 0. *)
Definition sample_state (st0 st1 : Z) : vmm_state :=
  Vmm (hv_zero <| vcpus := [Some (sample_vcpu 0 st0); Some (sample_vcpu 1 st1); None; None] |>
               <| ioapic_p := Some (ioapic_zero <| irq_redir_table ::= <[9%nat := 0x10029]> |>) |>)
    2 (Some []) ∅.

Definition sample_world (st0 st1 : Z) : vmm_world := World (sample_state st0 st1) [] [].

Lemma sample_wf st0 st1 :
  0 <= st0 <= 2 -> 0 <= st1 <= 2 -> wf_vmm (sample_state st0 st1).
Proof.
  intros H0 H1. constructor.
  - reflexivity.
  - by vm_compute.
  - intros [|[|[|[|i]]]] v Hv; try discriminate Hv; injection Hv as <-; constructor; simpl;
      unfold STATE_NOT_STARTED, STATE_RUNNING, STATE_HALTED; (lia || by vm_compute).
  - reflexivity.
  - repeat constructor; by vm_compute.
  - exists []. split; [by eexists|]. by vm_compute.
Qed.

Lemma sample_created st0 st1 : all_created (sample_state st0 st1).
Proof. intros [|[|i]] Hi; [by eexists|by eexists|]. simpl in Hi. lia. Qed.
