(* ===== verification/ApicProps.v ===== *)
(** * ApicProps: the properties of the interrupt controllers *)

From S2P Require Import Prelude Effects Machine Apic Samples.

Implicit Types (env : vmm_env) (w : vmm_world).

(** C10: The heap-allocated interrupt queue refines a FIFO bounded by 256
    requests: any sequence of enqueue and dequeue operations gives the answers
    of the abstract queue (a full queue rejects, an empty one yields nothing),
    ends without a fault and releases the queue lock, as long as memory
    allocation succeeds. *)
Theorem interrupt_queue_refines_fifo env ops l w :
  (forall tr, env tr (Calloc 16) = true) ->
  pending (w_st w) l -> w_held w = [] ->
  wp (queue_run env (queueInterrupt env) dequeueInterrupt ops) (fun rs w' =>
    rs = (fifo_run ops l).1 /\ pending (w_st w') (fifo_run ops l).2 /\ w_held w' = []) w.
Proof. intros. by apply (queue_run_refines env _ _ haveInterrupts). Qed.

Lemma interrupt_queue_refines_fifo_witness :
  wp (queue_run quiet_env (queueInterrupt quiet_env) dequeueInterrupt
        [Put 3; Put 9; Get; Put 4; Get; Get; Get])
    (fun rs w' =>
       rs = [Accepted true; Accepted true; Taken (Some 3); Accepted true;
             Taken (Some 9); Taken (Some 4); Taken None] /\
       pending (w_st w') [] /\ w_held w' = [])
    (sample_world 1 0).
Proof.
  apply (interrupt_queue_refines_fifo quiet_env
    [Put 3; Put 9; Get; Put 4; Get; Get; Get] [] (sample_world 1 0)).
  - reflexivity.
  - split; [by eexists|by vm_compute].
  - reflexivity.
Defined.

(** An access to the APIC registers of any physical address, width and
    direction ends without a fault (the assertion on the table index cannot
    fail, no table access is out of bounds), reports success, keeps the machine
    well formed, releases every mutex and keeps the size of the caller's
    buffer. *)
Theorem apic_access_safe env i v phys_addr data len is_write w :
  wf_vmm (w_st w) -> w_held w = [] -> vcpu_at (w_st w) i = Some v -> (4 <= length data)%nat ->
  wp (apicMmio env i phys_addr data len is_write) (fun r w' =>
    wf_vmm (w_st w') /\ w_held w' = [] /\ r.1 = 0 /\ length r.2 = length data) w.
Proof.
  intros Hwf Hh Hv Hd. eapply wp_mono; [by eapply apicMmio_spec|].
  intros r w' ([H1 H2 _ _ _ _] & H3 & _ & H4). by rewrite H2.
Qed.

Lemma apic_access_safe_witness :
  wp (apicMmio quiet_env 0 0xFEC00010 [1; 2; 3; 4; 0; 0; 0; 0] 4 1) (fun r w' =>
    wf_vmm (w_st w') /\ w_held w' = [] /\ r.1 = 0 /\ length r.2 = 8%nat) (sample_world 1 0).
Proof.
  apply (apic_access_safe quiet_env 0 (sample_vcpu 0 1)).
  - apply sample_wf; lia.
  - reflexivity.
  - reflexivity.
  - simpl; lia.
Defined.

Lemma apicMmio_ioapic env i v phys_addr data is_write w :
  wf_vmm (w_st w) -> w_held w = [] -> vcpu_at (w_st w) i = Some v ->
  lapicAccess v phys_addr = false -> ioApicAccess phys_addr = true -> (4 <= length data)%nat ->
  wp (apicMmio env i phys_addr data 4 is_write) (fun r w' =>
    w_held w' = [] /\
    w_st w' = (if negb (is_write =? 0) && redtblAccess phys_addr then
                 map_ioapic (fun a => a <| irq_redir_table ::= <[slot phys_addr := load32 data]> |>)
                   (w_st w)
               else w_st w) /\
    (is_write = 0 -> load32 r.2 = ioapic_value (w_st w) phys_addr)) w.
Proof.
  intros Hwf Hh Hv Hl Ha Hd. unfold apicMmio. simpl. apply wp_bind.
  eapply wp_get_vcpu; [done|]. rewrite Hl, Ha. apply wp_bind.
  eapply wp_mono; [by apply ioApicMmio_spec|]. simpl. intros r w' (H1 & H2 & H3 & H4).
  destruct (is_write =? 0) eqn:Hw; vmm_go; simpl in *.
  - split; [done|]. split; [done|]. intros _. by rewrite load32_store32.
  - split; [done|]. split; [done|]. intros ->. done.
Qed.

(** The I/O APIC redirection table behaves as memory: after a guest dword
    write to one table address, a read of a table address returns the written
    value when both name the same entry and the old value otherwise. *)
Theorem redirection_table_read_after_write env i v a a' data buf w :
  wf_vmm (w_st w) -> w_held w = [] -> vcpu_at (w_st w) i = Some v ->
  lapicAccess v a = false -> lapicAccess v a' = false ->
  ioApicAccess a = true -> redtblAccess a = true ->
  ioApicAccess a' = true -> redtblAccess a' = true ->
  (4 <= length data)%nat -> (4 <= length buf)%nat ->
  wp (_ ← apicMmio env i a data 4 1; apicMmio env i a' buf 4 0) (fun r w' =>
    load32 r.2 = if decide (slot a = slot a') then load32 data
                 else ioapic_value (w_st w) a') w.
Proof.
  intros Hwf Hh Hv Hl Hl' Ha Hr Ha' Hr' Hd Hb. apply wp_bind.
  eapply wp_mono; [exact (apicMmio_ioapic env i v a data 1 w Hwf Hh Hv Hl Ha Hd)|].
  simpl. rewrite Hr. simpl.
  intros _ w1 (Hh1 & Hst1 & _).
  assert (wf_vmm (w_st w1)) as Hwf1 by (rewrite Hst1; apply wf_set_entry; [apply load32_range|done]).
  assert (vcpu_at (w_st w1) i = Some v) as Hv1 by (by rewrite Hst1, vcpu_at_map_ioapic).
  eapply wp_mono; [exact (apicMmio_ioapic env i v a' buf 0 w1 Hwf1 Hh1 Hv1 Hl' Ha' Hb)|].
  simpl. intros r w2 (_ & _ & ->); [|done]. rewrite Hst1. unfold ioapic_value. rewrite Hr'.
  simpl. unfold set_field. case_decide as Hs.
  - rewrite Hs, list_lookup_insert_eq; [done|].
    rewrite (wf_table _ Hwf). by apply slot_bound.
  - by rewrite list_lookup_insert_ne.
Qed.

Lemma redirection_table_read_after_write_witness :
  wp (_ ← apicMmio quiet_env 0 0xFEC00010 [0x29; 0; 1; 0; 0; 0; 0; 0] 4 1;
      apicMmio quiet_env 0 0xFEC00010 [0; 0; 0; 0; 0; 0; 0; 0] 4 0)
    (fun r w' => load32 r.2 = 0x10029) (sample_world 1 0).
Proof.
  apply (redirection_table_read_after_write quiet_env 0 (sample_vcpu 0 1) 0xFEC00010 0xFEC00010
    [0x29; 0; 1; 0; 0; 0; 0; 0] [0; 0; 0; 0; 0; 0; 0; 0] (sample_world 1 0));
    try reflexivity; try (simpl; lia).
  apply sample_wf; lia.
Defined.

Lemma lapicMmio_ioapic env i v phys_addr data len is_write w :
  wf_vmm (w_st w) -> w_held w = [] -> vcpu_at (w_st w) i = Some v ->
  wp (lapicMmio env i phys_addr data len is_write) (fun _ w' =>
    ioapic (g_hv (w_st w')) = ioapic (g_hv (w_st w))) w.
Proof.
  intros Hwf Hh Hv. eapply wp_mono; [by eapply lapicMmio_spec|]. simpl. tauto.
Qed.

Lemma ioapic_slot_bound a : ioApicAccess a = true -> redtblAccess a = true -> (slot a < 30)%nat.
Proof.
  unfold ioApicAccess, redtblAccess, slot, PADDR_IOAPIC, IOAPIC_OFF_REDTBL, NR_MAX_IOAPIC_IRQS.
  rewrite !andb_true_iff, !Z.leb_le. intros [_ H1] [H2 _].
  assert ((a - 0xFEC00000 - 8) / 4 < 30); [|lia]. apply Z.div_lt_upper_bound; lia.
Qed.

(** The last two of the 32 redirection entries cannot be programmed: the
    window that [ioApicAccess] accepts ends eight bytes before the table does,
    so no register access of any address, width or direction changes entries
    30 and 31. *)
Theorem redirection_tail_unreachable env i v phys_addr data len is_write k w :
  wf_vmm (w_st w) -> w_held w = [] -> vcpu_at (w_st w) i = Some v -> (30 <= k)%nat ->
  wp (apicMmio env i phys_addr data len is_write) (fun _ w' =>
    irq_redir_table (ioapic (g_hv (w_st w'))) !! k =
    irq_redir_table (ioapic (g_hv (w_st w))) !! k) w.
Proof.
  intros Hwf Hh Hv Hk. unfold apicMmio. destruct (len =? 4); simpl; [|by vmm_go].
  apply wp_bind. eapply wp_get_vcpu; [exact Hv|]. apply wp_bind.
  eapply (wp_mono _ (fun _ w' => irq_redir_table (ioapic (g_hv (w_st w'))) !! k =
    irq_redir_table (ioapic (g_hv (w_st w))) !! k)).
  2: { intros r w' H. by destruct (is_write =? 0); apply wp_ret. }
  destruct (lapicAccess v phys_addr).
  - eapply wp_mono; [exact (lapicMmio_ioapic env i v _ data len is_write w Hwf Hh Hv)|].
    by intros _ w' ->.
  - destruct (ioApicAccess phys_addr) eqn:Ha; [|by apply wp_ret].
    eapply wp_mono; [exact (ioApicMmio_spec i _ data len is_write w Hwf Hh Ha)|].
    simpl. intros _ w' (_ & _ & -> & _).
    destruct (redtblAccess phys_addr) eqn:Hr; rewrite ?andb_false_r; [|done].
    case_match; [|done]. simpl. unfold set_field. apply list_lookup_insert_ne.
    pose proof (ioapic_slot_bound _ Ha Hr). lia.
Qed.

Lemma redirection_tail_unreachable_witness :
  wp (apicMmio quiet_env 0 0xFEC00080 [0x29; 0; 1; 0; 0; 0; 0; 0] 4 1) (fun _ w' =>
    irq_redir_table (ioapic (g_hv (w_st w'))) !! 30%nat = Some 0) (sample_world 1 0).
Proof.
  apply (redirection_tail_unreachable quiet_env 0 (sample_vcpu 0 1) 0xFEC00080
    [0x29; 0; 1; 0; 0; 0; 0; 0] 4 1 30 (sample_world 1 0)).
  - apply sample_wf; lia.
  - reflexivity.
  - reflexivity.
  - lia.
Defined.

(** C17: Delivery of a device interrupt follows the redirection table in every
    case (no such CPU, CPU never started, request still in service, driver
    refusal, injection): the answer, the calls to the driver, the woken CPU and
    the in-service bit are the ones of the [delivery] relation; the machine
    stays well formed, its I/O APIC included, and every mutex is released on every
    path. *)
Theorem interrupt_delivery env irq w :
  wf_vmm (w_st w) -> w_held w = [] ->
  wp (ioApicSendInterrupt env irq) (fun r w' =>
    delivery env w (Z.land irq 0x1f) r w' /\ wf_vmm (w_st w') /\ w_held w' = []) w.
Proof.
  intros Hwf Hh. eapply wp_mono; [by apply ioApicSendInterrupt_spec|].
  intros r w' Hd. split; [done|].
  destruct (delivery_ok _ _ _ _ _ (land_1f_range irq) Hwf Hd) as ([? -> _ _ _ _] & _). done.
Qed.

Lemma interrupt_delivery_witness :
  wp (ioApicSendInterrupt quiet_env 9) (fun r w' =>
    delivery quiet_env (sample_world 1 2) 9 r w' /\ wf_vmm (w_st w') /\ w_held w' = [])
    (sample_world 1 2).
Proof.
  apply (interrupt_delivery quiet_env 9 (sample_world 1 2)).
  - apply sample_wf; lia.
  - reflexivity.
Defined.

Lemma woken_started v : state v <> STATE_NOT_STARTED -> state (woken v) <> STATE_NOT_STARTED.
Proof. intros. unfold woken; simpl. by destruct (_ =? _). Qed.

Section InService.
Context (env : vmm_env) (k entry : Z) (dest : nat).
Hypothesis driver_accepts : forall tr fd vec, 0 <= env tr (KVM_INTERRUPT fd vec).
Hypothesis dest_eq : dest = Z.to_nat (entry_dest_cpu entry).
Hypothesis k_range : 0 <= k < 32.

(** Request [k] is routed to a started CPU, whose in-service bit is [b]. *)
Definition routed (b : bool) (w : vmm_world) : Prop :=
  wf_vmm (w_st w) /\ w_held w = [] /\
  znth (irq_redir_table (ioapic (g_hv (w_st w)))) k = Some entry /\
  exists v, vcpu_at (w_st w) dest = Some v /\ state v <> STATE_NOT_STARTED /\
    Z.testbit (isr v) k = b.

Lemma routed_send irq b w :
  Z.land irq 0x1f = k -> routed b w ->
  wp (ioApicSendInterrupt env irq) (fun r w' =>
    r = (if b then -1 else 0) /\ routed true w') w.
Proof.
  intros Hirq (Hwf & Hh & He & v & Hv & Hst & Hb).
  eapply wp_mono; [by apply ioApicSendInterrupt_spec|]. rewrite Hirq. intros r w' Hd.
  destruct (delivery_ok _ _ _ _ _ k_range Hwf Hd) as ([Hwf' Hh' _ _ _ _] & Hio & _).
  assert (entry_dest_cpu entry < g_nvcpus (w_st w)) as Hlt.
  { destruct (wf_vcpu _ Hwf _ _ Hv) as [_ Hnr _ _ _].
    assert (0 <= entry_dest_cpu entry) by (by apply bits_range). lia. }
  assert (ioapic (g_hv (w_st w')) = ioapic (g_hv (w_st w))) as Hio' by (unfold ioapic; by rewrite Hio).
  unfold routed. rewrite Hh', Hio'.
  inversion Hd as [e Hz Hno|e v0 Hz Hv0 Hs0|e v0 w0 Hz Hv0 Hs0 Hb0 Hw0|e v0 c w0 w1 Hz Hv0 Hs0 Hb0 Hw0 Hc Henv Hw1|e v0 c w0 w1 Hz Hv0 Hs0 Hb0 Hw0 Hc Henv Hw1];
    assert (e = entry) as -> by congruence; rewrite <-dest_eq in *.
  - subst w'. destruct Hno; [lia|congruence].
  - subst w'. congruence.
  - assert (v0 = v) as -> by congruence. subst b. rewrite Hb0. split; [done|].
    split; [done|]. split; [done|]. split; [done|]. exists (woken v).
    rewrite Hw0, (wake_vcpu_at dest v w Hv). split; [done|]. split; [|done].
    by apply woken_started.
  - pose proof (driver_accepts (w_trace w0) (driver_fd v0) (entry_vector entry)). lia.
  - assert (v0 = v) as -> by congruence. subst b. rewrite Hb0. split; [done|].
    split; [done|]. split; [done|]. split; [done|].
    subst w'. simpl. rewrite vcpu_at_map_same, Hw0, (wake_vcpu_at dest v w Hv). simpl.
    exists ((woken v) <| isr ::= fun i => Z.setbit i k |>). split; [done|]. split.
    + by apply (woken_started v).
    + apply Z.setbit_eq. lia.
Qed.

Lemma routed_eoi b phys_addr data w :
  Z.land phys_addr 0xfff = LAPIC_OFF_EOI -> Z.land (load32 data) 0x1f = k -> routed b w ->
  wp (lapicMmioWrite env dest phys_addr data 4) (fun _ w' => routed false w') w.
Proof.
  intros Ha Hd (Hwf & Hh & He & v & Hv & Hst & Hb). unfold lapicMmioWrite. rewrite Ha, Hd.
  destruct w as [s tr held]; simpl in *; subst held. vmm_go.
  assert (in_width 32 (isr v)) by (by eapply ok_isr, wf_vcpu).
  split; [|split; [done|split; [done|]]].
  - simpl. apply wf_map_vcpu; [|done]. intros v' [? ? ? ? ?]. constructor; try done. simpl.
    rewrite land_lnot_bit by done. by apply clearbit_range.
  - simpl. rewrite vcpu_at_map_same, Hv. eexists. split; [reflexivity|]. simpl.
    split; [done|]. rewrite land_lnot_bit by done. by apply Z.clearbit_eq.
Qed.
End InService.

(** A request that was delivered is not delivered again until the guest
    signals its end: with a driver that accepts injections, sending a request
    that is routed to a started CPU succeeds, sending it again fails, and after
    the guest writes the request number to the EOI register of that CPU it
    succeeds again. *)
Theorem in_service_until_eoi env irq phys_addr data entry v w :
  let k := Z.land irq 0x1f in
  let dest := Z.to_nat (entry_dest_cpu entry) in
  (forall tr fd vec, 0 <= env tr (KVM_INTERRUPT fd vec)) ->
  wf_vmm (w_st w) -> w_held w = [] ->
  znth (irq_redir_table (ioapic (g_hv (w_st w)))) k = Some entry ->
  vcpu_at (w_st w) dest = Some v -> state v <> STATE_NOT_STARTED -> Z.testbit (isr v) k = false ->
  Z.land phys_addr 0xfff = LAPIC_OFF_EOI -> Z.land (load32 data) 0x1f = k ->
  wp (r1 ← ioApicSendInterrupt env irq;
      r2 ← ioApicSendInterrupt env irq;
      _ ← lapicMmioWrite env dest phys_addr data 4;
      r3 ← ioApicSendInterrupt env irq;
      mret (r1, r2, r3))
    (fun r _ => r = (0, -1, 0)) w.
Proof.
  intros k dest Hacc Hwf Hh He Hv Hst Hb Ha Hd.
  assert (routed k entry dest false w) as R0 by (do 3 (split; [done|]); by exists v).
  pose proof (land_1f_range irq) as Hk.
  apply wp_bind. eapply wp_mono; [exact (routed_send env k entry dest Hacc eq_refl Hk irq false w eq_refl R0)|].
  intros r1 w1 [-> R1].
  apply wp_bind. eapply wp_mono; [exact (routed_send env k entry dest Hacc eq_refl Hk irq true w1 eq_refl R1)|].
  intros r2 w2 [-> R2].
  apply wp_bind. eapply wp_mono; [exact (routed_eoi env k entry dest Hk true phys_addr data w2 Ha Hd R2)|].
  intros r3 w3 R3.
  apply wp_bind. eapply wp_mono; [exact (routed_send env k entry dest Hacc eq_refl Hk irq false w3 eq_refl R3)|].
  intros r4 w4 [-> _]. by apply wp_ret.
Qed.

Lemma in_service_until_eoi_witness :
  wp (r1 ← ioApicSendInterrupt quiet_env 9;
      r2 ← ioApicSendInterrupt quiet_env 9;
      _ ← lapicMmioWrite quiet_env 1 0xfee00008 [9; 0; 0; 0] 4;
      r3 ← ioApicSendInterrupt quiet_env 9;
      mret (r1, r2, r3))
    (fun r _ => r = (0, -1, 0)) (sample_world 1 2).
Proof.
  apply (in_service_until_eoi quiet_env 9 0xfee00008 [9; 0; 0; 0] 0x10029 (sample_vcpu 1 2));
    try reflexivity; try discriminate.
  apply sample_wf; lia.
Defined.

(** C35: Before a guest entry exactly one of four things happens: with no
    request pending the interrupt window is closed or left alone; with a
    request pending and the guest not ready the window is requested; otherwise
    the oldest request is taken from the queue, delivered through the
    redirection table and its node freed. The machine stays well formed and
    every mutex is released. *)
Theorem interrupt_injection env i v run l w :
  wf_vmm (w_st w) -> w_held w = [] -> vcpu_at (w_st w) i = Some v -> comm v = Some run ->
  pending (w_st w) l ->
  wp (checkAndSendInterrupt env i) (fun r w' =>
    r = 0 /\ w_held w' = [] /\ wf_vmm (w_st w') /\
    injection env i (ready_for_interrupt_injection run) w l w') w.
Proof.
  intros Hwf Hh Hv Hc Hp. eapply wp_mono.
  - exact (checkAndSendInterrupt_spec env i v run l w Hwf Hh Hv Hc Hp).
  - intros r w' (-> & [H1 H2 _ _ _ _] & Hi). by rewrite H2.
Qed.

Lemma interrupt_injection_witness :
  wp (checkAndSendInterrupt quiet_env 0) (fun r w' =>
    r = 0 /\ w_held w' = [] /\ wf_vmm (w_st w') /\
    injection quiet_env 0 1 (sample_world 1 0) [] w') (sample_world 1 0).
Proof.
  refine (interrupt_injection quiet_env 0 (sample_vcpu 0 1)
    (kvm_run_zero <| ready_for_interrupt_injection := 1 |>) [] (sample_world 1 0) _ _ _ _ _);
    try reflexivity.
  - apply sample_wf; lia.
  - split; [by eexists|by vm_compute].
Defined.

(** A guest dword write to the IPI register of its local APIC starts the
    CPU that the two low bits of the value name: that CPU, if it exists and
    does not run, gets the value with those bits cleared as its instruction
    pointer, runs, is marked dirty and is signalled; otherwise nothing
    changes. *)
Theorem ipi_write_starts_cpu env i v phys_addr data w :
  wf_vmm (w_st w) -> w_held w = [] -> vcpu_at (w_st w) i = Some v ->
  lapicAccess v phys_addr = true -> Z.land phys_addr 0xfff = LAPIC_OFF_IPI ->
  let t := Z.to_nat (Z.land (load32 data) 0x3) in
  wp (apicMmio env i phys_addr data 4 1) (fun r w' =>
    r = (0, data) /\
    match vcpu_at (w_st w) t with
    | Some u =>
        if decide (state u = STATE_RUNNING) then w' = w
        else vcpu_at (w_st w') t = Some (sipi_start (load32 data) u) /\
             (forall j, j <> t -> vcpu_at (w_st w') j = vcpu_at (w_st w) j) /\
             w_trace w' = w_trace w ++ [Cond_signal t : call vmm_iface] /\ w_held w' = []
    | None => w' = w
    end) w.
Proof.
  intros Hwf Hh Hv Hl Ha t. unfold apicMmio. simpl. apply wp_bind.
  eapply wp_get_vcpu; [exact Hv|]. rewrite Hl. unfold lapicMmio, lapicMmioWrite. simpl.
  rewrite Ha. vmm_go. eapply wp_mono; [exact (lapicDoSipi_spec env i (load32 data) w Hwf Hh)|].
  fold t. simpl. intros _ w' ->. vmm_go. split; [done|].
  destruct (vcpu_at (w_st w) t) as [u|] eqn:Hu; [|done].
  case_decide as Hs.
  - by rewrite (proj2 (Z.eqb_eq _ _) Hs).
  - rewrite (proj2 (Z.eqb_neq _ _) Hs). simpl. split; [by rewrite vcpu_at_map_same, Hu|].
    split; [|done]. intros j Hj. by apply vcpu_at_map_other.
Qed.

Lemma ipi_write_starts_cpu_witness :
  wp (apicMmio quiet_env 0 0xfee00004 [0x01; 0x70; 0; 0] 4 1) (fun r w' =>
    r = (0, [0x01; 0x70; 0; 0]) /\
    vcpu_at (w_st w') 1 = Some (sipi_start 0x7001 (sample_vcpu 1 0)) /\
    (forall j, j <> 1%nat -> vcpu_at (w_st w') j = vcpu_at (sample_state 1 0) j) /\
    w_trace w' = [Cond_signal 1 : call vmm_iface] /\ w_held w' = []) (sample_world 1 0).
Proof.
  apply (ipi_write_starts_cpu quiet_env 0 (sample_vcpu 0 1) 0xfee00004 [0x01; 0x70; 0; 0]
    (sample_world 1 0)); try reflexivity.
  apply sample_wf; lia.
Defined.
