(* ===== verification/DeviceBus.v ===== *)
(** * DeviceBus: the device configuration and the I/O bus (devicebus.c)

    A device is named by its position in [g_devicelist], which only grows
    while the configuration is read.  The processes on the other side of the
    sockets are part of the environment: what they answer is arbitrary. *)

From S2P Require Import Prelude Effects Libc Wire Machine Apic.
From Stdlib Require Import Ascii.

Definition DEVICE_BIN_DIR : string := "devices-bin".
Definition IO_DIRECTION_IN := 0.
Definition IO_DIRECTION_OUT := 1.

Definition sizeof_device_node := 56.
Definition sizeof_ioport_range := 16.
Definition sizeof_mmio_range := 24.

(** ** The configuration file *)

(** The values that one [fscanf] leaves in the variables of its caller. *)
Record config_line := ConfigLine {
  cl_ret : Z;                 (* the result of fscanf *)
  cl_device : option chars;   (* the token, when it was assigned *)
  cl_port_start : Z;
  cl_port_len : Z;
  cl_mmio_start : Z;
  cl_mmio_len : Z;
}.

(** The [%x] conversions of the format, up to the first that fails. *)
Fixpoint scan_hexes (n : nat) (l : chars) : list Z * chars :=
  match n with
  | O => ([], skip_space l)
  | S n =>
      match scan_hex l with
      | (None, l) => ([], l)
      | (Some v, l) => let '(vs, l) := scan_hexes n l in (v :: vs, l)
      end
  end.

(** [fscanf(config, "%256s %x %x %x %x\n", ...)] with the numbers preset to 0. *)
Definition fscanf_config (l : chars) : config_line * chars :=
  let l := skip_space l in
  match l with
  | [] => (ConfigLine (-1) None 0 0 0 0, [])
  | _ =>
      let '(token, l) := scan_token 256 l in
      let '(vs, l) := scan_hexes 4 l in
      (ConfigLine (1 + length vs) (Some token)
         (default 0 (vs !! 0%nat)) (default 0 (vs !! 1%nat))
         (default 0 (vs !! 2%nat)) (default 0 (vs !! 3%nat)), l)
  end.

Definition string_of (l : chars) : string := String.string_of_list_ascii l.

Section DeviceBus.
Context (env : vmm_env).

(** Reading the list through its head pointer. *)
Definition get_devices : vmm_prog (list device_node_t) :=
  s ← gets (fun s => s);
  get_or NullDeref (g_devicelist s).

Definition set_devices (f : list device_node_t -> list device_node_t) : vmm_prog unit :=
  modify (fun s => s <| g_devicelist ::= fmap f |>).

Definition get_device (d : nat) : vmm_prog device_node_t :=
  l ← get_devices;
  get_or NullDeref (l !! d).

(** [!strncmp(cur->path, path, strlen(cur->path))] down the list. *)
Fixpoint name_index (name : bytes) (i : nat) (l : list device_node_t) : vmm_prog (option nat) :=
  match l with
  | [] => mret None
  | d :: l =>
      p ← get_or NullDeref (path d);
      let cur := string_bytes p in
      if strncmp (length cur) cur name =? 0 then mret (Some i)
      else name_index name (S i) l
  end.

Definition deviceNodeForName (name : string) : vmm_prog (option nat) :=
  l ← get_devices;
  name_index (string_bytes name) 0 l.

Definition device_zero : device_node_t := DeviceNode None (replicate NR_MAX_VCPUS 0) 0 [] [].

(** The node for the name of the current line, made when there is none. *)
Definition findOrAddDevice (device : string) : vmm_prog nat :=
  devnode ← deviceNodeForName device;
  match devnode with
  | Some d => mret d
  | None =>
      ok ← os env (Calloc sizeof_device_node);
      dup ← os env (Strdup device);
      if negb ok then fail NullDeref else
      set_devices (cons (device_zero <| path := if (dup : bool) then Some device else None |>));;
      mret 0%nat
  end.

(** [err:] frees all nodes; the list head keeps pointing to them. *)
Definition freeConfig : vmm_prog unit :=
  l ← get_devices;
  for_each l (fun d =>
    for_each (ioports d) (fun r => _ ← os env (Free_ioport r); mret tt);;
    for_each (mmios d) (fun r => _ ← os env (Free_mmio r); mret tt);;
    _ ← os env (Free_device d);
    mret tt);;
  modify (fun s => s <| g_devicelist := None |>).

(** The body of the reading loop behind the [fscanf]: [true] at its end,
    [false] for the jump to [err]. *)
Definition addConfigLine (device : string) (cl : config_line) : vmm_prog bool :=
  d ← findOrAddDevice device;
  ok ← (if negb (cl_port_start cl =? 0) then
          ok ← os env (Calloc sizeof_ioport_range);
          if negb ok then mret false else
          set_devices (alter (fun n => n <| ioports ::=
            cons (IoportRange (u16 (cl_port_start cl)) (u16 (cl_port_len cl))) |>) d);;
          mret true
        else mret true);
  if negb ok then mret false else
  if negb (cl_mmio_start cl =? 0) then
    ok ← os env (Calloc sizeof_mmio_range);
    if negb ok then mret false else
    set_devices (alter (fun n => n <| mmios ::=
      cons (MmioRange (cl_mmio_start cl) (cl_mmio_len cl)) |>) d);;
    mret true
  else mret true.

(** [device] is a 256-byte buffer: a token of 256 characters and its NUL do
    not fit. [device0] is what the buffer holds before anything is read. *)
Definition dbusConfigFromFile (device0 : string) (name : string) : vmm_prog Z :=
  config ← os env (Fopen name);
  match config with
  | None => mret (-1)
  | Some contents =>
      let l := String.list_ascii_of_string contents in
      loop (S (length l)) (fun '(l, device) =>
        let '(cl, rest) := fscanf_config l in
        device ← match cl_device cl with
                 | None => mret device
                 | Some t => if (length t <? 256)%nat then mret (string_of (c_string t))
                             else fail OutOfBounds
                 end;
        ok ← addConfigLine device cl;
        if negb ok then freeConfig;; mret (inr (-1))
        else if 0 <? cl_ret cl then mret (inl (rest, device)) else mret (inr 0)) (l, device0)
  end.

(** ** Device processes *)

(** [recv] into a variable of [n] bytes that was zero: the result and the
    contents of the variable. *)
Definition recv_into (fd : Z) (n : nat) : vmm_prog (Z * bytes) :=
  r ← os env (Recv fd n);
  mret (r.1, blit (replicate n 0) 0 (take n r.2)).

(** [sv] is an array of [NR_MAX_VCPUS] pairs. *)
Definition open_channels (sv : list (Z * Z)) : vmm_prog (option (list (Z * Z))) :=
  s ← gets (fun s => s);
  loop (S (Z.to_nat (g_nvcpus s))) (fun '(i, sv) =>
    if g_nvcpus s <=? Z.of_nat i then mret (inr (Some sv)) else
    r ← os env Socketpair;
    if r.1 <? 0 then mret (inr None) else
    _ ← get_or OutOfBounds (sv !! i);
    mret (inl (S i, <[i := r.2]> sv))) (0%nat, sv).

Definition close_all (fds : list Z) : vmm_prog unit :=
  for_each fds (fun fd => _ ← os env (Close fd); mret tt).

(** The child of the fork: its life as this program ends in [execve] or
    [exit]. *)
Definition childProcess (sv : list (Z * Z)) (name : string) : vmm_prog Z :=
  s ← gets (fun s => s);
  close_all (take (Z.to_nat (g_nvcpus s)) sv.*1);;
  a ← get_ioapic;
  let pair := ioapic_s a in
  _ ← os env (Close pair.1);
  _ ← os env (Dup2 pair.2 CHILD_DEVICE_IOAPIC_FD);
  sv0 ← get_or OutOfBounds (sv !! 0%nat);
  _ ← os env (Dup2 sv0.2 CHILD_DEVICE_CHANNEL_FD);
  _ ← os env (Dup2 (fw_memfd (g_hv s)) CHILD_DEVICE_FW_MEMFD);
  _ ← os env (Dup2 (sys_memfd (g_hv s)) CHILD_DEVICE_SYS_MEMFD);
  _ ← os env (Execve (DEVICE_BIN_DIR ++ "/" ++ name));
  fail (Exited 1).

(** The descriptors of [response.fds]: the device ends, then zeros. *)
Definition response_fds (n : nat) (sv : list (Z * Z)) : list Z :=
  take n sv.*2 ++ replicate (NR_MAX_VCPUS - n) 0.

Definition instantiateDevice (d : nat) : vmm_prog Z :=
  s ← gets (fun s => s);
  let n := Z.to_nat (g_nvcpus s) in
  channels ← open_channels (replicate NR_MAX_VCPUS (0, 0));
  match channels with
  | None => mret (-1)
  | Some sv =>
      child ← os env Fork;
      devnode ← get_device d;
      if child =? 0 then name ← get_or NullDeref (path devnode); childProcess sv name else
      set_devices (alter (fun dn => dn <| instance_pid := child |>) d);;
      sv0 ← get_or OutOfBounds (sv !! 0%nat);
      let failed := close_all (take n sv.*1);; mret (-1) in
      h ← recv_into sv0.1 4;
      if u64 h.1 <? 4 then failed else
      if negb (strncmp 4 h.2 (string_bytes "INIT") =? 0) then failed else
      sent ← os env (Send sv0.1 (store_init_response tini_magic (response_fds n sv)));
      if u64 sent <? sizeof_init_response then failed else
      close_all (take n sv.*2);;
      set_devices (alter (fun dn =>
        dn <| channel_fd ::= fun fds => take n sv.*1 ++ drop n fds |>) d);;
      mret 0
  end.

Definition dbusTeardown : vmm_prog unit :=
  l ← get_devices;
  for_each l (fun d =>
    if negb (instance_pid d =? 0) then _ ← os env (Kill (instance_pid d)); mret tt
    else mret tt).

Definition channel_of (vcpu d : nat) : vmm_prog Z :=
  v ← get_vcpu vcpu;
  dn ← get_device d;
  get_or OutOfBounds (znth (channel_fd dn) (id v)).

Definition channelForDeviceUnlocked (vcpu d : nat) : vmm_prog Z :=
  channel_fd ← channel_of vcpu d;
  if negb (channel_fd =? 0) then mret channel_fd else
  r ← instantiateDevice d;
  if r <? 0 then mret (-1) else channel_of vcpu d.

Definition channelForDevice (vcpu d : nat) : vmm_prog Z :=
  pthread_mutex_lock bus_access_mutex;;
  ret ← channelForDeviceUnlocked vcpu d;
  pthread_mutex_unlock bus_access_mutex;;
  mret ret.

(** ** Who claims a port or an address *)

Definition in_ioport_range (port : Z) (r : ioport_range_t) : bool :=
  (start_port r <=? port) && (port <? start_port r + nports r).

Definition in_mmio_range (addr : Z) (r : mmio_range_t) : bool :=
  let end_addr := u64 (mmio_start r + mmio_len r) in
  (mmio_start r <=? addr) && (addr <? end_addr).

Fixpoint find_device (f : device_node_t -> bool) (i : nat) (l : list device_node_t) : option nat :=
  match l with
  | [] => None
  | d :: l => if f d then Some i else find_device f (S i) l
  end.

Definition deviceForPort (port : Z) : vmm_prog (option nat) :=
  l ← get_devices;
  mret (find_device (fun d => existsb (in_ioport_range port) (ioports d)) 0 l).

Definition deviceForAddr (addr : Z) : vmm_prog (option nat) :=
  l ← get_devices;
  mret (find_device (fun d => existsb (in_mmio_range addr) (mmios d)) 0 l).

(** ** The accesses of the guest *)

(** Both handlers return the result and the contents of the caller's data
    buffer; [stack] is what the structure's slot held before. *)
Definition dbusHandlePioAccess (stack : bytes) (vcpu : nat) (port : Z) (data : bytes)
    (direction size count : Z) : vmm_prog (Z * bytes) :=
  devnode ← deviceForPort port;
  match devnode with
  | None => mret (-1, data)
  | Some d =>
      channel_fd ← channelForDevice vcpu d;
      let io := Pio (IoportRequest port direction size (load32 data) count) in
      sent ← os env (Send channel_fd (store_io_request stack io));
      if sent <? 0 then mret (-1, data) else
      ack ← recv_into channel_fd 4;
      if u64 ack.1 <? 4 then mret (-1, data) else
      let value := le_val ack.2 in
      if direction =? IO_DIRECTION_IN then
        if size =? 1 then mret (0, blit data 0 (le_bytes 1 value))
        else if size =? 2 then mret (0, blit data 0 (le_bytes 2 value))
        else if size =? 4 then mret (0, blit data 0 (le_bytes 4 value))
        else mret (-1, data)
      else mret (0, data)
  end.

Definition dbusHandleMmioAccess (stack : bytes) (vcpu : nat) (phys_addr : Z) (data : bytes)
    (len is_write : Z) : vmm_prog (Z * bytes) :=
  v ← get_vcpu vcpu;
  if apicAccess v phys_addr then apicMmio env vcpu phys_addr data len is_write else
  devnode ← deviceForAddr phys_addr;
  match devnode with
  | None => mret (-1, data)
  | Some d =>
      channel_fd ← channelForDevice vcpu d;
      let io := Mmio (MmioRequest phys_addr (load32 data) len is_write) in
      sent ← os env (Send channel_fd (store_io_request stack io));
      if negb (u64 sent =? sizeof_io_request) then mret (-1, data) else
      ack ← recv_into channel_fd 4;
      if u64 ack.1 <? 4 then mret (-1, data) else
      let value := le_val ack.2 in
      if is_write =? 0 then
        if len =? 1 then mret (0, blit data 0 (le_bytes 8 (Z.land value 0xff)))
        else if len =? 2 then mret (0, blit data 0 (le_bytes 2 value))
        else if len =? 4 then mret (0, blit data 0 (le_bytes 4 value))
        else mret (-1, data)
      else mret (0, data)
  end.
End DeviceBus.

Implicit Types (env : vmm_env) (w : vmm_world).

(** ** Well-formed device lists, and what the bus may change *)

Definition device_ok (d : device_node_t) : Prop :=
  length (channel_fd d) = NR_MAX_VCPUS /\ is_Some (path d).

#[export] Instance device_ok_dec d : Decision (device_ok d).
Proof. unfold device_ok. apply _. Defined.

Definition wf_devices (s : vmm_state) : Prop :=
  exists l, g_devicelist s = Some l /\ Forall device_ok l.

(** A device may get a process and channels; its name and claims stay. *)
Definition same_device (d d' : device_node_t) : Prop :=
  path d' = path d /\ ioports d' = ioports d /\ mmios d' = mmios d /\
  (device_ok d -> device_ok d').

#[export] Instance same_device_preorder : PreOrder same_device.
Proof. split; [by intros d|]. intros d1 d2 d3 (?&?&?&?) (?&?&?&?). unfold same_device. intuition congruence. Qed.

(** The worlds differ in the trace of calls only. *)
Definition only_trace (w w' : vmm_world) : Prop :=
  w_st w' = w_st w /\ w_held w' = w_held w.

#[export] Instance only_trace_preorder : PreOrder only_trace.
Proof. split; [done|]. intros w1 w2 w3 [? ?] [? ?]. unfold only_trace. split; congruence. Qed.

Definition bus_step (w w' : vmm_world) : Prop :=
  exists l l', g_devicelist (w_st w) = Some l /\ Forall2 same_device l l' /\
    w_st w' = (w_st w) <| g_devicelist := Some l' |> /\ w_held w' = w_held w.

Lemma bus_step_trace w w' l :
  g_devicelist (w_st w) = Some l -> only_trace w w' -> bus_step w w'.
Proof.
  intros Hl [Hst Hh]. exists l, l. split; [done|]. split; [reflexivity|].
  split; [|done]. rewrite Hst. destruct w as [[] ? ?]; simpl in *. by subst.
Qed.

Lemma bus_step_trans w1 w2 w3 : bus_step w1 w2 -> bus_step w2 w3 -> bus_step w1 w3.
Proof.
  intros (l1 & l2 & H1 & H2 & H3 & H4) (l2' & l3 & H5 & H6 & H7 & H8).
  rewrite H3 in H5. injection H5 as <-. exists l1, l3. split; [done|]. split.
  - by etransitivity.
  - rewrite H7, H3. split; [done|congruence].
Qed.

Lemma bus_step_alter w w' l d f :
  g_devicelist (w_st w) = Some l -> (forall dn, same_device dn (f dn)) ->
  w_st w' = (w_st w) <| g_devicelist ::= fmap (alter f d) |> -> w_held w' = w_held w ->
  bus_step w w'.
Proof.
  intros Hl Hf Hst Hh. exists l, (alter f d l). split; [done|]. split; [|split; [|done]].
  - apply Forall2_same_length_lookup_2; [by rewrite length_alter|].
    intros i x y Hx Hy. destruct (decide (i = d)) as [->|].
    + rewrite list_lookup_alter_eq, Hx in Hy. injection Hy as <-. apply Hf.
    + rewrite list_lookup_alter_ne, Hx in Hy by done. injection Hy as <-. reflexivity.
  - rewrite Hst. unfold set_field. by rewrite Hl.
Qed.

Lemma same_device_ok l l' : Forall2 same_device l l' -> Forall device_ok l -> Forall device_ok l'.
Proof.
  induction 1 as [|d d' l l' Hd _ IH]; [done|].
  intros [? ?]%Forall_cons. constructor; [by apply Hd|by apply IH].
Qed.

Lemma bus_step_wf w w' : bus_step w w' -> wf_devices (w_st w) -> wf_devices (w_st w').
Proof.
  intros (l & l' & H1 & H2 & -> & _) (l0 & Hl0 & Hok). exists l'. split; [done|].
  eapply same_device_ok; [exact H2|]. congruence.
Qed.

Lemma wf_vmm_devices s x : wf_vmm s -> wf_vmm (s <| g_devicelist := x |>).
Proof.
  intros [H1 H2 H3 H4 H5 H6]. constructor; try done.
  intros j v Hv. destruct (H3 j v Hv). by constructor.
Qed.

Lemma bus_step_wf_vmm w w' : bus_step w w' -> wf_vmm (w_st w) -> wf_vmm (w_st w').
Proof. intros (l & l' & _ & _ & -> & _). apply wf_vmm_devices. Qed.

Lemma bus_step_vcpu w w' i : bus_step w w' -> vcpu_at (w_st w') i = vcpu_at (w_st w) i.
Proof. by intros (l & l' & _ & _ & -> & _). Qed.

Lemma bus_step_created w w' : bus_step w w' -> all_created (w_st w) -> all_created (w_st w').
Proof. by intros (l & l' & _ & _ & -> & _). Qed.

(** ** Calls that leave the state alone *)

Lemma wp_devices l (Q : list device_node_t -> vmm_world -> Prop) w :
  g_devicelist (w_st w) = Some l -> Q l w -> wp get_devices Q w.
Proof. intros Hl HQ. unfold get_devices. wp_go. by eapply wp_get_or. Qed.

Lemma wp_device l d dn (Q : device_node_t -> vmm_world -> Prop) w :
  g_devicelist (w_st w) = Some l -> l !! d = Some dn -> Q dn w -> wp (get_device d) Q w.
Proof.
  intros Hl Hd HQ. unfold get_device. apply wp_bind. eapply wp_devices; [done|].
  by eapply wp_get_or.
Qed.

Lemma wp_set_devices f (Q : unit -> vmm_world -> Prop) w :
  Q tt (w <| w_st ::= fun s => s <| g_devicelist ::= fmap f |> |>) -> wp (set_devices f) Q w.
Proof. done. Qed.

Lemma recv_into_spec env fd (n : nat) w (Q : Z * bytes -> vmm_world -> Prop) :
  (let r := env (w_trace w) (Recv fd n) in
   Q (r.1, blit (replicate n 0) 0 (take n r.2))
     (w <| w_trace := w_trace w ++ [Recv fd n : call vmm_iface] |>)) ->
  wp (recv_into env fd n) Q w.
Proof. intros HQ. unfold recv_into. vmm_go. exact HQ. Qed.

Lemma close_all_spec env fds w :
  wp (close_all env fds) (fun _ w' => only_trace w w' /\
    w_trace w' = w_trace w ++ ((fun fd => Close fd : call vmm_iface) <$> fds)) w.
Proof.
  unfold close_all. apply (wp_for_each _ _ (fun l w' => only_trace w w' /\
    w_trace w' = w_trace w ++ ((fun fd => Close fd : call vmm_iface) <$> l))).
  - split; [done|]. by rewrite app_nil_r.
  - intros pre fd post w' _ [[H1 H2] H3]. vmm_go. split; [done|]. simpl.
    by rewrite H3, fmap_app, app_assoc.
  - done.
Qed.

Lemma close_all_trace env fds w : wp (close_all env fds) (fun _ w' => only_trace w w') w.
Proof. eapply wp_mono; [apply close_all_spec|]. by intros [] w' [H _]. Qed.

(** ** Starting a device process *)

(** The channels that socketpair delivers, one per CPU. *)
Lemma open_channels_spec env w :
  wf_vmm (w_st w) ->
  wp (open_channels env (replicate NR_MAX_VCPUS (0, 0))) (fun r w' =>
    only_trace w w' /\
    match r with Some sv => length sv = NR_MAX_VCPUS | None => True end) w.
Proof.
  intros Hwf. pose proof (wf_nvcpus _ Hwf) as Hn. unfold open_channels. vmm_go.
  set (n := g_nvcpus (w_st w)) in *.
  assert (forall fuel i sv w', only_trace w w' -> length sv = NR_MAX_VCPUS ->
    (Z.of_nat i <= n)%Z -> (Z.to_nat n - i < fuel)%nat ->
    wp (loop fuel (fun '(i, sv) =>
      if n <=? Z.of_nat i then mret (inr (Some sv)) else
      r ← os env Socketpair;
      if r.1 <? 0 then mret (inr None) else
      _ ← get_or OutOfBounds (sv !! i);
      mret (inl (S i, <[i := r.2]> sv))) (i, sv)) (fun r w'' => only_trace w w'' /\
        match r with Some sv => length sv = NR_MAX_VCPUS | None => True end) w') as Hgo;
    [|apply Hgo; [done|done|lia|lia]].
  induction fuel as [|fuel IH]; intros i sv w' Hw Hsv Hi Hf; [lia|].
  apply wp_loop_inr. destruct (n <=? Z.of_nat i) eqn:Hle; [by apply wp_ret|].
  vmm_go. destruct (_ <? 0); [by apply wp_ret|].
  destruct (lookup_lt_is_Some_2 sv i) as [x Hx]; [lia|].
  vmm_go. eapply wp_get_or; [exact Hx|]. vmm_go. apply IH.
  - destruct Hw. by split.
  - by rewrite length_insert.
  - lia.
  - lia.
Qed.

Section Instantiate.
Context (env : vmm_env) (d : nat).

(** The fork returns in the parent. *)
Hypothesis in_parent : forall tr, env tr Fork <> 0.

Lemma failed_spec fds w :
  wp (close_all env fds;; mret (-1)) (fun r w' => (r = 0 \/ r = -1) /\ only_trace w w') w.
Proof.
  apply wp_bind. eapply wp_mono; [apply close_all_trace|]. intros ? w' Hw. apply wp_ret. auto.
Qed.

Lemma instantiateDevice_spec l w :
  wf_vmm (w_st w) -> g_devicelist (w_st w) = Some l -> (d < length l)%nat ->
  Forall device_ok l ->
  wp (instantiateDevice env d) (fun r w' => (r = 0 \/ r = -1) /\ bus_step w w') w.
Proof.
  intros Hwf Hl Hd Hok. unfold instantiateDevice. apply wp_bind, wp_gets, wp_bind.
  set (n := Z.to_nat (g_nvcpus (w_st w))).
  assert (n <= NR_MAX_VCPUS)%nat as Hn by (pose proof (wf_nvcpus _ Hwf); lia).
  eapply wp_mono; [by apply open_channels_spec|]. intros [sv|] w1 [Hw1 Hsv].
  2: { apply wp_ret. split; [by right|by eapply bus_step_trace]. }
  apply wp_bind. vmm_step.
  destruct (lookup_lt_is_Some_2 l d Hd) as [dn Hdn].
  destruct Hw1 as [Hs1 Hh1].
  apply wp_bind. eapply wp_device; [simpl; by rewrite Hs1|exact Hdn|].
  rewrite (proj2 (Z.eqb_neq _ _)) by apply in_parent.
  apply wp_bind, wp_set_devices. set (w2 := _ <| w_st ::= _ |>).
  assert (bus_step w w2) as H2.
  { eapply bus_step_alter with (f := fun dn => dn <| instance_pid := _ |>);
      [exact Hl|by intros []|unfold w2; simpl; by rewrite Hs1|done]. }
  destruct (lookup_lt_is_Some_2 sv 0%nat) as [sv0 Hsv0]; [rewrite Hsv; unfold NR_MAX_VCPUS; lia|].
  apply wp_bind. eapply wp_get_or; [exact Hsv0|]. cbv zeta.
  assert (forall w', only_trace w2 w' -> bus_step w w') as Hmono.
  { intros w' Hw. eapply bus_step_trans; [exact H2|].
    destruct H2 as (? & l2 & _ & _ & Hst2 & _). eapply bus_step_trace; [|exact Hw].
    by rewrite Hst2. }
  assert (forall w', only_trace w2 w' ->
    wp (close_all env (take n sv.*1);; mret (-1))
      (fun r w' => (r = 0 \/ r = -1) /\ bus_step w w') w') as Hfail.
  { intros w' Hw. eapply wp_mono; [apply failed_spec|]. intros r w3 [? ?]. split; [done|].
    apply Hmono. by etransitivity. }
  apply wp_bind, recv_into_spec. cbv beta zeta; simpl fst; simpl snd.
  destruct (u64 _ <? 4); [by apply Hfail|]. destruct (negb _); [by apply Hfail|].
  apply wp_bind. vmm_step. destruct (u64 _ <? _); [by apply Hfail|].
  apply wp_bind. eapply wp_mono; [apply close_all_trace|]. intros ? w3 Hw3.
  apply wp_bind, wp_set_devices, wp_ret. split; [by left|].
  assert (bus_step w w3) as H3 by (apply Hmono; by etransitivity).
  eapply bus_step_trans; [exact H3|]. destruct H3 as (? & l3 & _ & _ & Hst3 & _).
  eapply bus_step_alter with (f := fun dn => dn <| channel_fd ::= _ |>);
    [by rewrite Hst3| |reflexivity|done].
  intros dn'. split; [done|]. split; [done|]. split; [done|].
  intros [Hlen Hp]. split; [|done]. simpl. unfold set_field.
  rewrite length_app, length_take, length_fmap, length_drop, Hlen. lia.
Qed.
End Instantiate.

(** ** Channels *)

Lemma wf_id s i v : wf_vmm s -> vcpu_at s i = Some v -> id v = i /\ (i < NR_MAX_VCPUS)%nat.
Proof.
  intros Hwf Hv. split; [by eapply ok_id, wf_vcpu|].
  rewrite <-(wf_vcpus s Hwf). eapply lookup_lt_Some. by apply vcpu_at_Some.
Qed.

Lemma wp_channel_of i d v l dn c (Q : Z -> vmm_world -> Prop) w :
  wf_vmm (w_st w) -> vcpu_at (w_st w) i = Some v -> g_devicelist (w_st w) = Some l ->
  l !! d = Some dn -> channel_fd dn !! i = Some c -> Q c w -> wp (channel_of i d) Q w.
Proof.
  intros Hwf Hv Hl Hd Hc HQ. unfold channel_of. apply wp_bind.
  eapply wp_get_vcpu; [exact Hv|]. apply wp_bind. eapply wp_device; [exact Hl|exact Hd|].
  destruct (wf_id _ _ _ Hwf Hv) as [-> _]. eapply wp_get_or; [|exact HQ]. by rewrite znth_nat.
Qed.

Lemma device_channel d i : device_ok d -> (i < NR_MAX_VCPUS)%nat -> is_Some (channel_fd d !! i).
Proof. intros [H _] Hi. apply lookup_lt_is_Some_2. by rewrite H. Qed.

Section Channel.
Context (env : vmm_env) (i d : nat) (v : vcpu_t) (l : list device_node_t).
Context (dn : device_node_t) (w : vmm_world).
Hypothesis Hwf : wf_vmm (w_st w).
Hypothesis Hheld : w_held w = [].
Hypothesis Hv : vcpu_at (w_st w) i = Some v.
Hypothesis Hl : g_devicelist (w_st w) = Some l.
Hypothesis Hok : Forall device_ok l.
Hypothesis Hd : l !! d = Some dn.

(** An open channel is used as it is. *)
Lemma channel_open c :
  channel_fd dn !! i = Some c -> c <> 0 ->
  wp (channelForDevice env i d) (fun r w' => r = c /\ w' = w) w.
Proof.
  intros Hc Hc0. unfold channelForDevice, channelForDeviceUnlocked.
  destruct w as [s tr held]; simpl in *; subst held. vmm_go.
  eapply wp_channel_of; [done..|exact Hc|].
  rewrite (proj2 (Z.eqb_neq _ _)) by done. by vmm_go.
Qed.

(** Otherwise the device's process is started, which changes nothing but
    that device's channels and process id. *)
Lemma channelForDevice_spec :
  (forall tr, env tr Fork <> 0) ->
  wp (channelForDevice env i d) (fun _ w' => bus_step w w') w.
Proof.
  intros Hpar. destruct (wf_id _ _ _ Hwf Hv) as [_ Hi].
  destruct (device_channel dn i) as [c Hc]; [by eapply Forall_lookup_1|done|].
  unfold channelForDevice, channelForDeviceUnlocked. apply wp_bind, wp_mutex_lock.
  { rewrite Hheld. apply not_elem_of_nil. }
  set (w1 := w <| w_held ::= _ |>).
  assert (w_held w1 = [bus_access_mutex : mutex vmm_iface]) as Hh1
    by (unfold w1; simpl; unfold set_field; by rewrite Hheld).
  assert (forall (r : Z) w2, bus_step w1 w2 ->
    wp (pthread_mutex_unlock bus_access_mutex;; mret r) (fun _ w' => bus_step w w') w2) as Hend.
  { intros r w2 (l1 & l2 & Hl1 & H12 & Hst & Hh). apply wp_bind.
    eapply wp_mutex_unlock; [by rewrite Hh|not_held|]. apply wp_ret. by exists l1, l2. }
  apply wp_bind, wp_bind. eapply wp_channel_of; [done..|exact Hc|].
  destruct (negb (c =? 0)).
  { apply wp_ret, Hend. by eapply bus_step_trace. }
  apply wp_bind. eapply wp_mono.
  { eapply (instantiateDevice_spec env d Hpar l w1 Hwf Hl); [by eapply lookup_lt_Some|done]. }
  simpl. intros r w2 [_ Hstep]. destruct (r <? 0); [by apply wp_ret, Hend|].
  destruct Hstep as (l1 & l2 & Hl1 & H12 & Hst & Hh).
  assert (l1 = l) as -> by (unfold w1 in Hl1; simpl in Hl1; congruence).
  destruct (Forall2_lookup_l _ _ _ _ _ H12 Hd) as (dn' & Hdn' & Hsame).
  destruct (device_channel dn' i) as [c' Hc']; [|done|].
  { apply Hsame. by eapply Forall_lookup_1. }
  eapply wp_channel_of.
  - rewrite Hst. by apply wf_vmm_devices.
  - rewrite Hst. exact Hv.
  - by rewrite Hst.
  - exact Hdn'.
  - exact Hc'.
  - apply Hend. by exists l, l2.
Qed.
End Channel.

(** ** Who claims a port or an address *)

Lemma find_device_spec f k l :
  match find_device f k l with
  | Some j => exists i d, j = (k + i)%nat /\ l !! i = Some d /\ f d = true /\
                forall i' d', (i' < i)%nat -> l !! i' = Some d' -> f d' = false
  | None => Forall (fun d => f d = false) l
  end.
Proof.
  revert k. induction l as [|d l IH]; intros k; simpl; [done|].
  destruct (f d) eqn:Hf.
  - exists 0%nat, d. split; [lia|]. split; [done|]. split; [done|]. lia.
  - specialize (IH (S k)). destruct (find_device f (S k) l) as [j|]; [|by constructor].
    destruct IH as (i & d' & -> & Hi & Hf' & Hmin). exists (S i), d'. split; [lia|].
    split; [done|]. split; [done|]. intros [|i'] e Hi' He; simplify_eq/=; [done|].
    eapply Hmin; [|exact He]. lia.
Qed.

Definition claims_port (port : Z) (d : device_node_t) : bool :=
  existsb (in_ioport_range port) (ioports d).
Definition claims_addr (addr : Z) (d : device_node_t) : bool :=
  existsb (in_mmio_range addr) (mmios d).

Lemma wp_deviceForPort port l (Q : option nat -> vmm_world -> Prop) w :
  g_devicelist (w_st w) = Some l -> Q (find_device (claims_port port) 0 l) w ->
  wp (deviceForPort port) Q w.
Proof.
  intros Hl HQ. unfold deviceForPort. apply wp_bind. eapply wp_devices; [exact Hl|].
  by apply wp_ret.
Qed.

Lemma wp_deviceForAddr addr l (Q : option nat -> vmm_world -> Prop) w :
  g_devicelist (w_st w) = Some l -> Q (find_device (claims_addr addr) 0 l) w ->
  wp (deviceForAddr addr) Q w.
Proof.
  intros Hl HQ. unfold deviceForAddr. apply wp_bind. eapply wp_devices; [exact Hl|].
  by apply wp_ret.
Qed.

(** ** The access handlers *)

Definition wf_machine (s : vmm_state) : Prop := wf_vmm s /\ wf_devices s /\ all_created s.

(** What an access leaves behind for CPU [i]: a well-formed machine in which
    the CPU still exists, no mutex held, a data buffer of the old size and as
    many CPUs as before. *)
Definition io_ok (i : nat) (data : bytes) (w : vmm_world) (r : Z * bytes) (w' : vmm_world) : Prop :=
  wf_machine (w_st w') /\ w_held w' = [] /\ (r.1 = 0 \/ r.1 = -1) /\
  length r.2 = length data /\ (live i (w_st w) -> live i (w_st w')) /\
  g_nvcpus (w_st w') = g_nvcpus (w_st w).

Lemma io_ok_bus i data w r w' :
  wf_machine (w_st w) -> w_held w = [] -> bus_step w w' -> (r.1 = 0 \/ r.1 = -1) ->
  length r.2 = length data -> io_ok i data w r w'.
Proof.
  intros (Hwf & Hdev & Hcr) Hh Hb Hr Hd.
  split; [split; [|split]|split; [|split; [|split; [|split]]]]; try done.
  - by eapply bus_step_wf_vmm.
  - by eapply bus_step_wf.
  - by eapply bus_step_created.
  - destruct Hb as (? & ? & _ & _ & _ & ->). done.
  - intros (v & Hv & Hc). exists v. by rewrite (bus_step_vcpu w w' i Hb).
  - destruct Hb as (? & ? & _ & _ & -> & _). done.
Qed.

Lemma io_error i data w w' :
  wf_machine (w_st w) -> w_held w = [] -> bus_step w w' -> io_ok i data w (-1, data) w'.
Proof. intros. apply io_ok_bus; auto. Qed.

(** [blit] of a register into the data buffer. *)
Lemma length_blit_data data n z : (n <= length data)%nat ->
  length (blit data 0 (le_bytes n z)) = length data.
Proof. intros. by apply length_blit_le. Qed.

Section Handlers.
Context (env : vmm_env) (stack : bytes) (i : nat) (v : vcpu_t) (data : bytes) (w : vmm_world).
Hypothesis Hm : wf_machine (w_st w).
Hypothesis Hheld : w_held w = [].
Hypothesis Hv : vcpu_at (w_st w) i = Some v.

(** What the handlers do with the answer of the device. *)
Definition pio_store (direction size : Z) (value : Z) : Z * bytes :=
  if direction =? IO_DIRECTION_IN then
    if size =? 1 then (0, blit data 0 (le_bytes 1 value))
    else if size =? 2 then (0, blit data 0 (le_bytes 2 value))
    else if size =? 4 then (0, blit data 0 (le_bytes 4 value))
    else (-1, data)
  else (0, data).

Definition mmio_store (len is_write : Z) (value : Z) : Z * bytes :=
  if is_write =? 0 then
    if len =? 1 then (0, blit data 0 (le_bytes 8 (Z.land value 0xff)))
    else if len =? 2 then (0, blit data 0 (le_bytes 2 value))
    else if len =? 4 then (0, blit data 0 (le_bytes 4 value))
    else (-1, data)
  else (0, data).

Lemma pio_store_ok direction size value :
  (4 <= length data)%nat ->
  ((pio_store direction size value).1 = 0 \/ (pio_store direction size value).1 = -1) /\
  length (pio_store direction size value).2 = length data.
Proof.
  intros Hd. unfold pio_store.
  repeat case_match; cbn [fst snd]; (split; [auto|try done; apply length_blit_data; lia]).
Qed.

Lemma mmio_store_ok len is_write value :
  (8 <= length data)%nat ->
  ((mmio_store len is_write value).1 = 0 \/ (mmio_store len is_write value).1 = -1) /\
  length (mmio_store len is_write value).2 = length data.
Proof.
  intros Hd. unfold mmio_store.
  repeat case_match; cbn [fst snd]; (split; [auto|try done; apply length_blit_data; lia]).
Qed.

Lemma bus_step_calls w1 w2 : bus_step w w1 -> only_trace w1 w2 -> bus_step w w2.
Proof.
  intros (l & l' & H1 & H2 & H3 & H4) [H5 H6]. exists l, l'. rewrite H5, H6. auto.
Qed.

Section Started.
Hypothesis in_parent : forall tr, env tr Fork <> 0.

Lemma pio_safe port direction size count :
  (4 <= length data)%nat ->
  wp (dbusHandlePioAccess env stack i port data direction size count) (io_ok i data w) w.
Proof.
  intros Hd. destruct Hm as (Hwf & (l & Hl & Hok) & Hcr). unfold dbusHandlePioAccess.
  apply wp_bind. eapply wp_deviceForPort; [exact Hl|].
  pose proof (find_device_spec (claims_port port) 0 l) as Hf.
  destruct (find_device (claims_port port) 0 l) as [d|].
  2: { apply wp_ret, io_error; [done|done|by eapply bus_step_trace]. }
  destruct Hf as (k & dn & -> & Hdn & _).
  apply wp_bind. eapply wp_mono; [exact (channelForDevice_spec env i _ v l dn w Hwf Hheld Hv Hl Hok Hdn in_parent)|].
  intros c w1 Hb. cbv zeta. vmm_step. vmm_step. destruct (_ <? 0).
  { apply wp_ret, io_error; [done|done|exact (bus_step_calls _ _ Hb (conj eq_refl eq_refl))]. }
  apply wp_bind, recv_into_spec. cbv beta zeta; simpl fst; simpl snd.
  destruct (u64 _ <? 4).
  { apply wp_ret, io_error; [done|done|exact (bus_step_calls _ _ Hb (conj eq_refl eq_refl))]. }
  set (value := le_val _). set (w2 := _ <| w_trace := _ |>).
  destruct (pio_store_ok direction size value Hd) as [Hr Hlen].
  assert (bus_step w w2) as Hb2 by exact (bus_step_calls _ _ Hb (conj eq_refl eq_refl)).
  unfold pio_store in Hr, Hlen.
  repeat case_match; apply wp_ret; by apply io_ok_bus.
Qed.

Lemma mmio_safe phys_addr len is_write :
  (8 <= length data)%nat ->
  wp (dbusHandleMmioAccess env stack i phys_addr data len is_write) (io_ok i data w) w.
Proof.
  intros Hd. destruct Hm as (Hwf & (l & Hl & Hok) & Hcr). unfold dbusHandleMmioAccess.
  apply wp_bind. eapply wp_get_vcpu; [exact Hv|]. destruct (apicAccess v phys_addr).
  { eapply wp_mono.
    - apply (apicMmio_spec env i v phys_addr data len is_write w Hwf Hheld Hv). lia.
    - intros r w' ([H1 H2 H3 H4 Hn H5] & Hr & _ & Hlen).
      split; [|split; [|split; [|split; [|split]]]]; auto.
      + split; [done|]. split; [|auto]. exists l. by rewrite H4.
      + by rewrite H2. }
  apply wp_bind. eapply wp_deviceForAddr; [exact Hl|].
  pose proof (find_device_spec (claims_addr phys_addr) 0 l) as Hf.
  destruct (find_device (claims_addr phys_addr) 0 l) as [d|].
  2: { apply wp_ret, io_error; [done|done|by eapply bus_step_trace]. }
  destruct Hf as (k & dn & -> & Hdn & _).
  apply wp_bind. eapply wp_mono; [exact (channelForDevice_spec env i _ v l dn w Hwf Hheld Hv Hl Hok Hdn in_parent)|].
  intros c w1 Hb. cbv zeta. vmm_step. vmm_step. destruct (negb _).
  { apply wp_ret, io_error; [done|done|exact (bus_step_calls _ _ Hb (conj eq_refl eq_refl))]. }
  apply wp_bind, recv_into_spec. cbv beta zeta; simpl fst; simpl snd.
  destruct (u64 _ <? 4).
  { apply wp_ret, io_error; [done|done|exact (bus_step_calls _ _ Hb (conj eq_refl eq_refl))]. }
  set (value := le_val _). set (w2 := _ <| w_trace := _ |>).
  destruct (mmio_store_ok len is_write value Hd) as [Hr Hlen].
  assert (bus_step w w2) as Hb2 by exact (bus_step_calls _ _ Hb (conj eq_refl eq_refl)).
  unfold mmio_store in Hr, Hlen.
  repeat case_match; apply wp_ret; by apply io_ok_bus.
Qed.
End Started.

(** The exchange with a device whose channel is open. *)
Section Open.
Context (l : list device_node_t) (d : nat) (dn : device_node_t) (c : Z).
Hypothesis Hl : g_devicelist (w_st w) = Some l.
Hypothesis Hd : l !! d = Some dn.
Hypothesis Hc : channel_fd dn !! i = Some c.
Hypothesis Hc0 : c <> 0.

Lemma pio_exchange port direction size count :
  find_device (claims_port port) 0 l = Some d ->
  let io := Pio (IoportRequest port direction size (load32 data) count) in
  let tr1 := w_trace w ++ [Send c (store_io_request stack io) : call vmm_iface] in
  let ack := env tr1 (Recv c 4) in
  wp (dbusHandlePioAccess env stack i port data direction size count) (fun r w' =>
    w_st w' = w_st w /\ w_held w' = [] /\
    if decide (env (w_trace w) (Send c (store_io_request stack io)) < 0)
    then r = (-1, data) /\ w_trace w' = tr1
    else w_trace w' = tr1 ++ [Recv c 4 : call vmm_iface] /\
         r = if decide (u64 ack.1 < 4) then (-1, data)
             else pio_store direction size (le_val (blit (replicate 4 0) 0 (take 4 ack.2)))) w.
Proof.
  intros Hf io tr1 ack. destruct Hm as [Hwf _]. unfold dbusHandlePioAccess.
  apply wp_bind. eapply wp_deviceForPort; [exact Hl|]. rewrite Hf.
  apply wp_bind. eapply wp_mono; [exact (channel_open env i d v l dn w Hwf Hheld Hv Hl Hd c Hc Hc0)|].
  intros ? ? [-> ->].
  cbv zeta. fold io. vmm_step. vmm_step.
  case_decide as Hs.
  { rewrite (proj2 (Z.ltb_lt _ _) Hs). by apply wp_ret. }
  rewrite (proj2 (Z.ltb_ge _ _) (proj1 (Z.nlt_ge _ _) Hs)).
  apply wp_bind, recv_into_spec. cbv beta zeta; simpl fst; simpl snd.
  destruct (u64 _ <? 4) eqn:Hr.
  { apply wp_ret. split; [done|]. split; [done|]. split; [done|].
    by rewrite decide_True by (by apply Z.ltb_lt). }
  rewrite decide_False by (apply Z.nlt_ge; by apply Z.ltb_ge). unfold pio_store.
  repeat case_match; by apply wp_ret.
Qed.
End Open.
End Handlers.
