(* ===== verification/NoIoApic.v ===== *)
(** * NoIoApic: a machine whose hypervisor allocated no I/O APIC

    hyper-o/stubs/hypero_stubs.c leaves [hv->ioapic] null.  A program is [blind]
    when it never follows that pointer: it runs on the machine without an I/O
    APIC exactly as it runs on one that has it.  The accesses of the guest that
    the device bus serves are blind, unless they hit the redirection table; so
    the theorems on well-formed machines carry over to them. *)

From S2P Require Import Prelude Effects Libc Wire Machine Apic DeviceBus.

(** The machine without, and with, an I/O APIC. *)
Definition unplug (s : vmm_state) : vmm_state :=
  s <| g_hv ::= fun h => h <| ioapic_p := None |> |>.
Definition plug (a : ioapic_t) (s : vmm_state) : vmm_state :=
  s <| g_hv ::= fun h => h <| ioapic_p := Some a |> |>.

Definition unplugged (w : vmm_world) : vmm_world := w <| w_st ::= unplug |>.

(** Well formed but for the I/O APIC, which is not there. *)
Definition bare_machine (s : vmm_state) : Prop :=
  ioapic_p (g_hv s) = None /\ exists a, wf_machine (plug a s).

Definition blind {A} (m : vmm_prog A) : Prop := forall w,
  m (unplugged w) =
  match m w with
  | Ret a w' => Ret a (unplugged w')
  | Fault f w' => Fault f (unplugged w')
  end.

Lemma unplug_plug a s : ioapic_p (g_hv s) = None -> unplug (plug a s) = s.
Proof. destruct s as [[] ? ? ?]; simpl. by intros ->. Qed.

Lemma plug_unplug a s : ioapic_p (g_hv s) = Some a -> plug a (unplug s) = s.
Proof. destruct s as [[] ? ? ?]; simpl. by intros ->. Qed.

(** ** Blind programs *)

Lemma blind_ret {A} (a : A) : blind (mret a).
Proof. done. Qed.
Lemma blind_fail {A} f : blind (fail (A := A) f).
Proof. done. Qed.
Lemma blind_get_or {A} f (o : option A) : blind (get_or f o).
Proof. by destruct o. Qed.
Lemma blind_assert b : blind (c_assert b).
Proof. by destruct b. Qed.
Lemma blind_os env (c : vmm_call) : blind (os env c).
Proof. done. Qed.
Lemma blind_lock m : blind (pthread_mutex_lock m).
Proof. intros w. unfold pthread_mutex_lock, lock. simpl. by destruct (decide _). Qed.
Lemma blind_unlock m : blind (pthread_mutex_unlock m).
Proof. intros w. unfold pthread_mutex_unlock, unlock. simpl. by destruct (decide _). Qed.
Lemma blind_modify f : (forall s, f (unplug s) = unplug (f s)) -> blind (modify f).
Proof. intros Hf w. unfold modify, unplugged, set_field; simpl. by rewrite Hf. Qed.

Lemma blind_bind {A B} (m : vmm_prog A) (k : A -> vmm_prog B) :
  blind m -> (forall a, blind (k a)) -> blind (m ≫= k).
Proof. intros Hm Hk w. unfold mbind, prog_bind. rewrite Hm. destruct (m w); [apply Hk|done]. Qed.

(** A program that looks at the state sees no difference. *)
Lemma blind_state {A} (k : vmm_state -> vmm_prog A) :
  (forall s, k (unplug s) = k s) -> (forall s, blind (k s)) -> blind (gets (fun s => s) ≫= k).
Proof. intros He Hk w. unfold mbind, prog_bind, gets. simpl. rewrite He. apply Hk. Qed.

(** The answer to a call is one of the environment's. *)
Lemma blind_answer {A} env (c : vmm_call) (k : vmm_reply c -> vmm_prog A) :
  (forall tr, blind (k (env tr c))) -> blind (os env c ≫= k).
Proof. intros Hk w. exact (Hk (w_trace w) (w <| w_trace := w_trace w ++ [c : call vmm_iface] |>)). Qed.

Lemma blind_loop {A B} fuel (body : A -> vmm_prog (A + B)) a :
  (forall a, blind (body a)) -> blind (loop fuel body a).
Proof.
  intros Hb. revert a. induction fuel as [|fuel IH]; intros a; [done|]. cbn [loop].
  apply blind_bind; [apply Hb|]. intros [?|?]; [apply IH|done].
Qed.

Lemma blind_for_each {A} (l : list A) (body : A -> vmm_prog unit) :
  (forall a, blind (body a)) -> blind (for_each l body).
Proof.
  intros Hb. induction l as [|a l IH]; [done|]. cbn [for_each].
  apply blind_bind; [apply Hb|]. by intros _.
Qed.

Create HintDb blind.
#[export] Hint Resolve blind_ret blind_fail blind_get_or blind_assert blind_lock blind_unlock
  : blind.
#[export] Hint Extern 1 (blind (os ?e ?c)) => exact (blind_os e c) : blind.

Ltac blind_go :=
  repeat first
    [ solve [auto with blind]
    | lazymatch goal with
      | |- blind (mbind _ (gets (fun s => s))) =>
          apply blind_state; [solve [reflexivity]|intros ?]
      | |- blind (mbind _ _) => apply blind_bind; [|intros ?]
      | |- blind (modify _) => apply blind_modify; reflexivity
      | |- blind (set_vcpu _ _) => apply blind_modify; reflexivity
      | |- blind (set_devices _) => apply blind_modify; reflexivity
      | |- blind (for_each _ _) => apply blind_for_each; intros ?
      | |- blind (loop _ _ _) => apply blind_loop; intros ?
      | |- blind (match ?x with _ => _ end) => destruct x
      | |- blind (let _ := _ in _) => cbv zeta
      end ].

(** ** The accesses of the guest *)

Section Accesses.
Context (env : vmm_env).
Hypothesis in_parent : forall tr, env tr Fork <> 0.

Lemma blind_get_vcpu i : blind (get_vcpu i).
Proof. unfold get_vcpu. blind_go. Qed.
Lemma blind_read_vcpus i : blind (read_vcpus i).
Proof. unfold read_vcpus. blind_go. Qed.
Lemma blind_get_devices : blind get_devices.
Proof. unfold get_devices. blind_go. Qed.
Lemma blind_recv_into fd n : blind (recv_into env fd n).
Proof. unfold recv_into. blind_go. Qed.
Lemma blind_close_all fds : blind (close_all env fds).
Proof. unfold close_all. blind_go. Qed.
Lemma blind_open_channels sv : blind (open_channels env sv).
Proof. unfold open_channels. blind_go. Qed.
Hint Resolve blind_get_vcpu blind_read_vcpus blind_get_devices blind_recv_into blind_close_all
  blind_open_channels : blind.

Lemma blind_get_device d : blind (get_device d).
Proof. unfold get_device. blind_go. Qed.
Hint Resolve blind_get_device : blind.

(** Only the forked child, which is another process, follows the pointer. *)
Lemma blind_instantiateDevice d : blind (instantiateDevice env d).
Proof.
  unfold instantiateDevice. apply blind_state; [reflexivity|]. intros s. cbv zeta.
  apply blind_bind; [auto with blind|]. intros [sv|]; [|done].
  refine (blind_answer env Fork _ _). intros tr. apply blind_bind; [auto with blind|]. intros dn.
  rewrite (proj2 (Z.eqb_neq _ _)) by apply in_parent. blind_go.
Qed.
Hint Resolve blind_instantiateDevice : blind.

Lemma blind_channel_of i d : blind (channel_of i d).
Proof. unfold channel_of. blind_go. Qed.
Hint Resolve blind_channel_of : blind.

Lemma blind_channelForDevice i d : blind (channelForDevice env i d).
Proof. unfold channelForDevice, channelForDeviceUnlocked. blind_go. Qed.
Hint Resolve blind_channelForDevice : blind.

Lemma blind_pio stack i port data direction size count :
  blind (dbusHandlePioAccess env stack i port data direction size count).
Proof. unfold dbusHandlePioAccess, deviceForPort. blind_go. Qed.

Lemma blind_lapicMmio i phys_addr data len is_write :
  blind (lapicMmio env i phys_addr data len is_write).
Proof. unfold lapicMmio, lapicMmioWrite, lapicMmioRead, lapicDoSipi. blind_go. Qed.
Hint Resolve blind_lapicMmio : blind.

(** An access to the registers that does not hit the redirection table. *)
Lemma blind_ioApicMmio i phys_addr data len is_write :
  redtblAccess phys_addr = false -> blind (ioApicMmio i phys_addr data len is_write).
Proof.
  intros Ht. unfold ioApicMmio, ioApicMmioWrite, ioApicMmioRead. rewrite Ht. cbv zeta. blind_go.
Qed.
Hint Resolve blind_ioApicMmio : blind.

Lemma blind_mmio stack i phys_addr data len is_write :
  redtblAccess phys_addr = false ->
  blind (dbusHandleMmioAccess env stack i phys_addr data len is_write).
Proof. intros Ht. unfold dbusHandleMmioAccess, deviceForAddr, apicMmio. blind_go. Qed.
End Accesses.

(** What holds after a blind program on a machine with an I/O APIC holds
    without one. *)
Lemma wp_blind {A} a (m : vmm_prog A) Q w :
  blind m -> ioapic_p (g_hv (w_st w)) = None ->
  wp m Q (w <| w_st ::= plug a |>) ->
  wp m (fun r w' => exists w'', w' = unplugged w'' /\ Q r w'') w.
Proof.
  intros Hb Hn Hq. specialize (Hb (w <| w_st ::= plug a |>)).
  replace (unplugged (w <| w_st ::= plug a |>)) with w in Hb.
  2: { destruct w as [s tr h]. unfold unplugged, set_field; simpl in *. f_equal. symmetry.
       by apply unplug_plug. }
  unfold wp in *. rewrite Hb. destruct (m (w <| w_st ::= plug a |>)) as [r w'|]; [|done]. eauto.
Qed.

(** ** Accesses on the bare machine *)

(** As [io_ok], for a machine without an I/O APIC. *)
Definition bare_ok (data : bytes) (w : vmm_world) (r : Z * bytes) (w' : vmm_world) : Prop :=
  bare_machine (w_st w') /\ w_held w' = [] /\ (r.1 = 0 \/ r.1 = -1) /\
  length r.2 = length data /\ g_nvcpus (w_st w') = g_nvcpus (w_st w).

Lemma bare_access i data (m : vmm_prog (Z * bytes)) w :
  blind m -> bare_machine (w_st w) ->
  (forall a, wf_machine (plug a (w_st w)) ->
     wp m (io_ok i data (w <| w_st ::= plug a |>)) (w <| w_st ::= plug a |>)) ->
  wp m (bare_ok data w) w.
Proof.
  intros Hb [Hn [a Ha]] Hm. eapply wp_mono; [eapply wp_blind; [exact Hb|exact Hn|exact (Hm a Ha)]|].
  intros r w' (w'' & -> & H1 & H2 & H3 & H4 & _ & H6).
  split; [split; [done|]|done]. destruct (wf_has_ioapic _ (proj1 H1)) as [a' Ha'].
  exists a'. by rewrite <-(plug_unplug _ _ Ha') in H1.
Qed.

Section Bare.
Context (env : vmm_env) (stack : bytes) (i : nat) (v : vcpu_t) (data : bytes) (w : vmm_world).
Hypothesis Hm : bare_machine (w_st w).
Hypothesis Hheld : w_held w = [].
Hypothesis Hv : vcpu_at (w_st w) i = Some v.
Hypothesis in_parent : forall tr, env tr Fork <> 0.
Hypothesis Hdata : (8 <= length data)%nat.

Lemma bare_pio port direction size count :
  wp (dbusHandlePioAccess env stack i port data direction size count) (bare_ok data w) w.
Proof.
  eapply (bare_access i); [by apply blind_pio|done|]. intros a Ha.
  eapply pio_safe; [done|done|exact Hv|done|lia].
Qed.

Lemma bare_mmio phys_addr len is_write :
  redtblAccess phys_addr = false ->
  wp (dbusHandleMmioAccess env stack i phys_addr data len is_write) (bare_ok data w) w.
Proof.
  intros Ht. eapply (bare_access i); [by apply blind_mmio|done|]. intros a Ha.
  eapply mmio_safe; [done|done|exact Hv|done|done].
Qed.

(** An access to the redirection table follows the null pointer, while the
    mutex of the I/O APIC is held. *)
Lemma bare_table phys_addr is_write :
  lapicAccess v phys_addr = false -> ioApicAccess phys_addr = true ->
  redtblAccess phys_addr = true ->
  faults (dbusHandleMmioAccess env stack i phys_addr data 4 is_write) NullDeref w.
Proof.
  intros Hl Ha Ht. destruct Hm as [Hn _].
  unfold dbusHandleMmioAccess. apply faults_then. eapply wp_get_vcpu; [exact Hv|].
  unfold apicAccess. rewrite Hl, Ha. simpl. unfold apicMmio. simpl.
  apply faults_then. eapply wp_get_vcpu; [exact Hv|]. rewrite Hl, Ha. apply faults_first.
  unfold ioApicMmio. simpl. apply faults_then. apply wp_mutex_lock; [rewrite Hheld; apply not_elem_of_nil|].
  apply faults_first.
  destruct (negb (is_write =? 0)); [unfold ioApicMmioWrite|unfold ioApicMmioRead]; rewrite Ht;
    apply faults_then, redtblIdx_spec; try done; apply faults_first, faults_then; apply wp_gets;
    by apply faults_get_or.
Qed.
End Bare.
