(* ===== verification/BusConfig.v ===== *)
(** * BusConfig: reading the device configuration back

    The configuration file is printed from a list of entries and read by
    [dbusConfigFromFile]; the result is the device list that the entries
    describe.  The reading loop ends on every input. *)

From S2P Require Import Prelude Effects Libc Wire Machine Apic DeviceBus.
From Stdlib Require Import Ascii.

Implicit Types (env : vmm_env) (w : vmm_world).

(** ** What a configuration means *)

Record entry := Entry {
  e_name : string;
  e_port : Z; e_nports : Z;
  e_addr : Z; e_size : Z;
}.

Definition name_chars (e : entry) : chars := String.list_ascii_of_string (e_name e).

Definition add_ranges (e : entry) (d : device_node_t) : device_node_t :=
  let d := if e_port e =? 0 then d
           else d <| ioports ::= cons (IoportRange (u16 (e_port e)) (u16 (e_nports e))) |> in
  if e_addr e =? 0 then d else d <| mmios ::= cons (MmioRange (e_addr e) (e_size e)) |>.

Definition has_name (n : string) (d : device_node_t) : bool := bool_decide (path d = Some n).

(** One entry adds its ranges to the device of its name, which is put in front
    of the list when it is new. *)
Definition add_entry (l : list device_node_t) (e : entry) : list device_node_t :=
  match find_device (has_name (e_name e)) 0 l with
  | Some i => alter (add_ranges e) i l
  | None => add_ranges e (device_zero <| path := Some (e_name e) |>) :: l
  end.

Definition config_devices (es : list entry) : list device_node_t := foldl add_entry [] es.

(** ** The file of a configuration *)

Definition print_entry (e : entry) : chars :=
  name_chars e ++ " "%char :: print_hex (e_port e) ++ " "%char :: print_hex (e_nports e) ++
  " "%char :: print_hex (e_addr e) ++ " "%char :: print_hex (e_size e) ++ ["010"%char].

Fixpoint print_config (es : list entry) : chars :=
  match es with
  | [] => []
  | e :: es => print_entry e ++ print_config es
  end.

Definition plain_char (c : ascii) : Prop := is_space c = false /\ byte_of c <> 0.

Record entry_ok (e : entry) : Prop := {
  eo_chars : Forall plain_char (name_chars e);
  eo_length : (0 < length (name_chars e) < 256)%nat;
  eo_port : in_width 32 (e_port e);
  eo_nports : in_width 32 (e_nports e);
  eo_addr : in_width 32 (e_addr e);
  eo_size : in_width 32 (e_size e);
}.

(** No name is a proper prefix of another one. *)
Definition prefix_free (ns : list string) : Prop :=
  forall n n', n ∈ ns -> n' ∈ ns -> string_bytes n `prefix_of` string_bytes n' -> n = n'.

(** ** Scanning a printed entry *)

Lemma scan_token_plain max t rest :
  Forall plain_char t -> (length t <= max)%nat ->
  match rest with c :: _ => is_space c = true | [] => True end ->
  scan_token max (t ++ rest) = (t, rest).
Proof.
  intros Ht. revert max. induction Ht as [|c t [Hc _] _ IH]; intros max Hmax Hr; simpl in *.
  - destruct max, rest; simpl; try done. by rewrite Hr.
  - destruct max as [|max]; [lia|]. simpl. rewrite Hc, IH; [done|lia|done].
Qed.

Lemma skip_space_idem l : skip_space (skip_space l) = skip_space l.
Proof.
  induction l as [|c l IH]; simpl; [done|]. destruct (is_space c) eqn:Hc; [done|].
  simpl. by rewrite Hc.
Qed.

Lemma fscanf_skip l : fscanf_config (skip_space l) = fscanf_config l.
Proof. unfold fscanf_config. by rewrite skip_space_idem. Qed.

Lemma stops_space l : stops (" "%char :: l).
Proof. by repeat split. Qed.
Lemma stops_newline l : stops ("010"%char :: l).
Proof. by repeat split. Qed.

Lemma fscanf_entry e rest :
  entry_ok e ->
  fscanf_config (print_entry e ++ rest) =
    (ConfigLine 5 (Some (name_chars e)) (e_port e) (e_nports e) (e_addr e) (e_size e),
     skip_space rest).
Proof.
  intros [Hc Hl Hp Hn Ha Hs]. unfold fscanf_config.
  assert (exists c t, name_chars e = c :: t /\ is_space c = false) as (c & t & Hct & Hsp).
  { destruct (name_chars e) as [|c t]; [simpl in Hl; lia|].
    apply Forall_cons in Hc as [[Hsp _] _]. by eexists _, _. }
  assert (skip_space (print_entry e ++ rest) = print_entry e ++ rest) as ->.
  { unfold print_entry. rewrite Hct. simpl. by rewrite Hsp. }
  assert (exists c' l', print_entry e ++ rest = c' :: l') as (c' & l' & Hne).
  { unfold print_entry. rewrite Hct. by eexists _, _. }
  rewrite Hne, <-Hne. unfold print_entry. rewrite <-!app_assoc.
  rewrite (scan_token_plain 256 (name_chars e)) by (done || lia).
  rewrite <-!app_comm_cons, <-!app_assoc.
  cbn [scan_hexes]. rewrite scan_hex_space by done.
  rewrite scan_print_hex by (done || apply stops_space).
  rewrite <-!app_comm_cons, <-!app_assoc, scan_hex_space by done.
  rewrite scan_print_hex by (done || apply stops_space).
  rewrite <-!app_comm_cons, <-!app_assoc, scan_hex_space by done.
  rewrite scan_print_hex by (done || apply stops_space).
  rewrite <-!app_comm_cons, <-!app_assoc, scan_hex_space by done.
  rewrite scan_print_hex by (done || apply stops_newline).
  done.
Qed.

Lemma c_string_plain l : Forall plain_char l -> c_string l = l.
Proof.
  induction 1 as [|c l [_ Hc] _ IH]; [done|]. simpl. rewrite IH.
  destruct (Ascii.eqb c "000") eqn:He; [|done]. apply Ascii.eqb_eq in He. by subst.
Qed.

Lemma entry_string e : entry_ok e -> string_of (c_string (name_chars e)) = e_name e.
Proof.
  intros He. rewrite c_string_plain by apply He. apply String.string_of_list_ascii_of_string.
Qed.

Lemma entry_no_nul e : entry_ok e -> no_nul (string_bytes (e_name e)).
Proof.
  intros He. unfold no_nul, string_bytes. apply Forall_fmap.
  eapply Forall_impl; [apply (eo_chars e He)|]. by intros c [_ Hc].
Qed.

(** ** The reading loop on a printed configuration *)

(** The names in a device list are among [ns]. *)
Definition named (ns : list string) (d : device_node_t) : Prop :=
  exists n, path d = Some n /\ n ∈ ns /\ no_nul (string_bytes n).

Lemma name_index_spec ns n k l w :
  prefix_free ns -> n ∈ ns -> Forall (named ns) l ->
  wp (name_index (string_bytes n) k l) (fun r w' =>
    w' = w /\ r = find_device (has_name n) k l) w.
Proof.
  intros Hpf Hn Hl. revert k. induction Hl as [|d l (n' & Hp & Hn' & Hz) _ IH]; intros k; simpl.
  - by apply wp_ret.
  - rewrite Hp. apply wp_bind. eapply wp_get_or; [done|]. cbv zeta.
    unfold has_name at 1. rewrite Hp.
    destruct (strncmp _ _ _ =? 0) eqn:Hs.
    + apply Z.eqb_eq in Hs. apply strncmp_prefix in Hs; [|done].
      apply wp_ret. split; [done|]. rewrite bool_decide_true; [done|].
      f_equal. by apply Hpf.
    + apply Z.eqb_neq in Hs. rewrite bool_decide_false; [apply IH|].
      intros [= ->]. apply Hs. apply strncmp_prefix; [done|]. reflexivity.
Qed.

Definition add_ranges_line (cl : config_line) (d : device_node_t) : device_node_t :=
  add_ranges (Entry "" (cl_port_start cl) (cl_port_len cl) (cl_mmio_start cl) (cl_mmio_len cl)) d.

Lemma named_add_ranges ns e d : named ns d -> named ns (add_ranges e d).
Proof. unfold add_ranges. intros H. by repeat case_match. Qed.

Lemma named_add_entry ns l e :
  e_name e ∈ ns -> no_nul (string_bytes (e_name e)) -> Forall (named ns) l ->
  Forall (named ns) (add_entry l e).
Proof.
  intros Hn Hz Hl. unfold add_entry. destruct (find_device _ 0 l).
  - apply Forall_alter; [done|]. intros. by apply named_add_ranges.
  - constructor; [|done]. apply named_add_ranges. by exists (e_name e).
Qed.

Section Allocating.
Context (env : vmm_env).
Hypothesis calloc_ok : forall tr n, env tr (Calloc n) = true.
Hypothesis strdup_ok : forall tr s, env tr (Strdup s) = true.

Lemma findOrAddDevice_spec ns n l w :
  prefix_free ns -> n ∈ ns -> Forall (named ns) l -> g_devicelist (w_st w) = Some l ->
  wp (findOrAddDevice env n) (fun d w' =>
    w_held w' = w_held w /\ exists l',
    w_st w' = (w_st w) <| g_devicelist := Some l' |> /\
    match find_device (has_name n) 0 l with
    | Some i => d = i /\ l' = l
    | None => d = 0%nat /\ l' = device_zero <| path := Some n |> :: l
    end) w.
Proof.
  intros Hpf Hn Hl Hdev. unfold findOrAddDevice, deviceNodeForName.
  apply wp_bind, wp_bind. eapply wp_devices; [exact Hdev|].
  eapply wp_mono; [by apply (name_index_spec ns)|]. intros r w' [-> ->].
  destruct (find_device (has_name n) 0 l) as [i|].
  - apply wp_ret. split; [done|]. exists l. split; [|done].
    destruct w as [[] ? ?]; simpl in *. by subst.
  - vmm_go. rewrite calloc_ok, strdup_ok. cbv iota beta. simpl negb. cbv iota.
    apply wp_bind, wp_set_devices, wp_ret. split; [done|]. eexists.
    split; [|done]. simpl. unfold set_field. by rewrite Hdev.
Qed.

Lemma wp_add_range (c : bool) size f d (Q : bool -> vmm_world -> Prop) w :
  (forall tr, Q true (w <| w_trace := tr |>
     <| w_st ::= fun s => if c then s <| g_devicelist ::= fmap (alter f d) |> else s |>)) ->
  wp (if c then
        ok ← os env (Calloc size);
        if negb ok then mret false else set_devices (alter f d);; mret true
      else mret true) Q w.
Proof.
  intros HQ. destruct c.
  - vmm_go. rewrite calloc_ok. simpl. apply wp_bind, wp_set_devices, wp_ret. apply HQ.
  - apply wp_ret. specialize (HQ (w_trace w)). by destruct w.
Qed.

Lemma addConfigLine_spec ns n cl l w :
  prefix_free ns -> n ∈ ns -> Forall (named ns) l -> g_devicelist (w_st w) = Some l ->
  wp (addConfigLine env n cl) (fun r w' =>
    r = true /\ w_held w' = w_held w /\
    w_st w' = (w_st w) <| g_devicelist := Some
      (match find_device (has_name n) 0 l with
       | Some i => alter (add_ranges_line cl) i l
       | None => add_ranges_line cl (device_zero <| path := Some n |>) :: l
       end) |>) w.
Proof.
  intros Hpf Hn Hl Hdev. unfold addConfigLine. apply wp_bind.
  eapply wp_mono; [by eapply findOrAddDevice_spec|].
  intros d w1 (Hh & l1 & Hst & Hfind). apply wp_bind, wp_add_range. intros tr1.
  apply wp_add_range. intros tr2. split; [done|]. split; [done|]. simpl.
  unfold add_ranges_line, add_ranges; cbn [e_port e_nports e_addr e_size].
  rewrite Hst. destruct (cl_port_start cl =? 0), (cl_mmio_start cl =? 0); simpl;
    unfold set_field; simpl; destruct (find_device _ 0 l) as [k|]; destruct Hfind as [-> ->]; simpl;
    rewrite <-?list_alter_compose; try done.
  all: do 2 f_equal; apply list_eq; intros j; destruct (decide (j = k)) as [->|].
  all: rewrite ?list_lookup_alter_eq, ?list_lookup_alter_ne by done; try done.
  all: by destruct (l !! k).
Qed.

(** The body of the loop in [dbusConfigFromFile]. *)
Definition config_step (x : chars * string) : vmm_prog ((chars * string) + Z) :=
  let '(l, device) := x in
  let '(cl, rest) := fscanf_config l in
  device ← match cl_device cl with
           | None => mret device
           | Some t => if (length t <? 256)%nat then mret (string_of (c_string t))
                       else fail OutOfBounds
           end;
  ok ← addConfigLine env device cl;
  if negb ok then freeConfig env;; mret (inr (-1))
  else if 0 <? cl_ret cl then mret (inl (rest, device)) else mret (inr 0).

(** The last round, at the end of the file, meets the name read last. *)
Lemma config_end ns n l w :
  prefix_free ns -> n ∈ ns -> Forall (named ns) l -> g_devicelist (w_st w) = Some l ->
  find_device (has_name n) 0 l <> None ->
  wp (config_step ([], n)) (fun r w' =>
    r = inr 0 /\ w_held w' = w_held w /\ w_st w' = w_st w) w.
Proof.
  intros Hpf Hn Hl Hdev Hf. cbn -[addConfigLine]. apply wp_bind, wp_ret, wp_bind.
  eapply wp_mono; [by eapply addConfigLine_spec|]. intros r w' (-> & Hh & Hst). simpl.
  apply wp_ret. split; [done|]. split; [done|]. rewrite Hst.
  destruct (find_device _ 0 l) as [i|]; [|done].
  rewrite list_alter_id by (by intros []). destruct w as [[] ? ?]; simpl in *. by subst.
Qed.

Lemma config_entry ns e l rest device w :
  entry_ok e -> prefix_free ns -> e_name e ∈ ns -> Forall (named ns) l ->
  g_devicelist (w_st w) = Some l ->
  wp (config_step (skip_space (print_entry e ++ rest), device)) (fun r w' =>
    r = inl (skip_space rest, e_name e) /\ w_held w' = w_held w /\
    w_st w' = (w_st w) <| g_devicelist := Some (add_entry l e) |>) w.
Proof.
  intros He Hpf Hn Hl Hdev. unfold config_step. rewrite fscanf_skip, fscanf_entry by done.
  cbn [cl_device]. rewrite (proj2 (Nat.ltb_lt _ _)) by apply He.
  apply wp_bind, wp_ret, wp_bind. rewrite entry_string by done.
  eapply wp_mono; [by eapply addConfigLine_spec|]. intros r w' (-> & Hh & Hst).
  simpl. apply wp_ret. split; [done|]. split; [done|]. rewrite Hst.
  unfold add_entry, add_ranges_line, add_ranges. done.
Qed.

Lemma find_has_name l e : find_device (has_name (e_name e)) 0 (add_entry l e) <> None.
Proof.
  intros Hnone. pose proof (find_device_spec (has_name (e_name e)) 0 (add_entry l e)) as H.
  rewrite Hnone in H. unfold add_entry in H.
  pose proof (find_device_spec (has_name (e_name e)) 0 l) as H0.
  assert (forall d, has_name (e_name e) (add_ranges e d) = has_name (e_name e) d) as Hsame
    by (intros d; unfold add_ranges, has_name; by repeat case_match).
  destruct (find_device _ 0 l) as [j|].
  - destruct H0 as (i & d & -> & Hi & Hf & _).
    assert (alter (add_ranges e) i l !! i = Some (add_ranges e d)) as Hl
      by (by rewrite list_lookup_alter_eq, Hi).
    eapply Forall_lookup_1 in H; [|exact Hl]. rewrite Hsame in H. congruence.
  - apply Forall_cons in H as [H _]. rewrite Hsame in H. unfold has_name in H.
    by rewrite bool_decide_true in H by done.
Qed.

Lemma config_loop ns es : forall l n fuel w,
  Forall entry_ok es -> prefix_free ns -> (forall e, e ∈ es -> e_name e ∈ ns) ->
  Forall (named ns) l -> g_devicelist (w_st w) = Some l ->
  (es = [] -> n ∈ ns /\ find_device (has_name n) 0 l <> None) ->
  (length es < fuel)%nat ->
  wp (loop fuel config_step (skip_space (print_config es), n)) (fun r w' =>
    r = 0 /\ w_held w' = w_held w /\
    w_st w' = (w_st w) <| g_devicelist := Some (foldl add_entry l es) |>) w.
Proof.
  induction es as [|e es IH]; intros l n fuel w Hok Hpf Hin Hl Hdev Hlast Hf;
    (destruct fuel as [|fuel]; [simpl in Hf; lia|]); apply wp_loop_inr.
  - destruct Hlast as [Hn Hfind]; [done|].
    eapply wp_mono; [by eapply config_end|]. intros r w' (-> & Hh & Hst).
    split; [done|]. split; [done|]. rewrite Hst. destruct w as [[] ? ?]; simpl in *. by subst.
  - apply Forall_cons in Hok as [He Hok]. cbn [print_config].
    assert (e_name e ∈ ns) as Hn by (apply Hin; by left).
    eapply wp_mono; [by eapply config_entry|]. intros r w' (-> & Hh & Hst).
    eapply wp_mono; [eapply (IH (add_entry l e)); try done|].
    + intros e' He'. apply Hin. by right.
    + apply named_add_entry; [done|by apply entry_no_nul|done].
    + by rewrite Hst.
    + intros _. split; [done|]. apply find_has_name.
    + simpl in Hf. lia.
    + intros r w'' (-> & Hh' & Hst'). split; [done|]. split; [congruence|].
      by rewrite Hst', Hst.
Qed.
End Allocating.

Lemma length_print_config es : (length es <= length (print_config es))%nat.
Proof.
  induction es as [|e es IH]; simpl; [lia|]. unfold print_entry.
  rewrite !length_app. simpl. lia.
Qed.

(** ** Every file is read to its end *)

Lemma skip_space_length l : (length (skip_space l) <= length l)%nat.
Proof. induction l as [|c l IH]; simpl; [lia|]. destruct (is_space c); simpl; lia. Qed.

Lemma scan_token_length max l :
  (length (scan_token max l).1 + length (scan_token max l).2 = length l)%nat.
Proof.
  revert l. induction max as [|max IH]; intros [|c l]; simpl; try lia.
  destruct (is_space c); [done|]. specialize (IH l). destruct (scan_token max l). simpl in *. lia.
Qed.

Lemma scan_token_pos max c l :
  (0 < max)%nat -> is_space c = false -> (0 < length (scan_token max (c :: l)).1)%nat.
Proof.
  intros Hm Hc. destruct max as [|max]; [lia|]. simpl. rewrite Hc.
  destruct (scan_token max l). simpl. lia.
Qed.

Lemma scan_digits_length acc l : (length (scan_digits acc l).2 <= length l)%nat.
Proof.
  revert acc. induction l as [|c l IH]; intros acc; simpl; [lia|].
  destruct (hex_digit c); simpl; [|lia]. etransitivity; [apply IH|lia].
Qed.

Lemma scan_hex_length l : (length (scan_hex l).2 <= length l)%nat.
Proof.
  pose proof (skip_space_length l) as Hs. unfold scan_hex.
  destruct (skip_space l) as [|c l0]; [simpl in *; lia|].
  assert (forall (neg : bool) m, (length m <= length l)%nat ->
    (length (match m with
      | [] => (None, m)
      | c :: l' => match hex_digit c with
        | None => (None, m)
        | Some d =>
            let l1 := match l' with
                      | x :: l'' => if ((d =? 0)%Z) && (Ascii.eqb x "x" || Ascii.eqb x "X") then l'' else l'
                      | [] => l'
                      end in
            let '(v, rest) := scan_digits d l1 in (Some (u32 (to_ulong neg v)), rest)
        end
      end).2 <= length l)%nat) as Hm.
  { intros neg [|c' m] Hlen; [done|]. destruct (hex_digit c') as [d|]; [|done]. cbv zeta.
    set (l1 := match m with [] => m | _ => _ end).
    assert (length l1 <= length m)%nat as Hl1.
    { unfold l1. destruct m as [|x m]; [done|]. destruct (_ && _); simpl; lia. }
    pose proof (scan_digits_length d l1). destruct (scan_digits d l1). simpl in *. lia. }
  simpl in Hs. destruct (Ascii.eqb c "-"); [apply (Hm true l0); lia|].
  destruct (Ascii.eqb c "+"); [apply (Hm false l0)|apply (Hm false (c :: l0))]; simpl; lia.
Qed.

Lemma scan_hexes_length n l : (length (scan_hexes n l).2 <= length l)%nat.
Proof.
  revert l. induction n as [|n IH]; intros l; simpl; [apply skip_space_length|].
  pose proof (scan_hex_length l) as Hl. destruct (scan_hex l) as [[v|] l1]; simpl in *; [|done].
  specialize (IH l1). destruct (scan_hexes n l1). simpl in *. lia.
Qed.

(** A line that assigns anything consumes at least one character. *)
Lemma fscanf_progress l :
  0 < cl_ret (fscanf_config l).1 -> (length (fscanf_config l).2 < length l)%nat.
Proof.
  unfold fscanf_config. pose proof (skip_space_length l) as Hs.
  destruct (skip_space l) as [|c l0] eqn:Hl; [simpl; lia|].
  assert (is_space c = false) as Hc.
  { pose proof (skip_space_idem l) as Hi. rewrite Hl in Hi. simpl in Hi.
    destruct (is_space c); [|done]. apply (f_equal length) in Hi.
    pose proof (skip_space_length l0). simpl in Hi. lia. }
  pose proof (scan_token_length 256 (c :: l0)) as Ht.
  assert (0 < length (scan_token 256 (c :: l0)).1)%nat as Hpos.
  { apply scan_token_pos; [lia|done]. }
  destruct (scan_token 256 (c :: l0)) as [t l1]. cbn [fst snd] in Ht, Hpos.
  pose proof (scan_hexes_length 4 l1) as Hh. destruct (scan_hexes 4 l1) as [vs l2].
  cbn [fst snd cl_ret] in *. lia.
Qed.

Lemma bounded_name_index n k l : bounded (name_index n k l).
Proof. revert k. induction l as [|d l IH]; intros k; simpl; bounded_go. Qed.
#[export] Hint Resolve bounded_name_index : bounded.

Lemma bounded_addConfigLine env n cl : bounded (addConfigLine env n cl).
Proof.
  unfold addConfigLine, findOrAddDevice, deviceNodeForName, get_devices, set_devices.
  bounded_go.
Qed.
#[export] Hint Resolve bounded_addConfigLine : bounded.

Lemma bounded_freeConfig env : bounded (freeConfig env).
Proof. unfold freeConfig, get_devices. bounded_go. Qed.
#[export] Hint Resolve bounded_freeConfig : bounded.

Lemma config_step_decreases env x w x' w' :
  config_step env x w = Ret (inl x') w' -> (length x'.1 < length x.1)%nat.
Proof.
  destruct x as [l device]. unfold config_step.
  pose proof (fscanf_progress l) as Hp. destruct (fscanf_config l) as [cl rest].
  assert (forall dev, (ok ← addConfigLine env dev cl;
    if negb ok then freeConfig env;; mret (inr (-1))
    else if 0 <? cl_ret cl then mret (inl (rest, dev)) else mret (inr 0)) w = Ret (inl x') w' ->
    (length x'.1 < length l)%nat) as Hgo.
  { intros dev. unfold mbind, prog_bind.
    destruct (addConfigLine env dev cl w) as [[] w2|]; simpl; [| |done].
    - destruct (0 <? cl_ret cl) eqn:Hr; [|done]. intros [= <- <-].
      apply Z.ltb_lt in Hr. by apply Hp.
    - unfold mbind, prog_bind. by destruct (freeConfig env w2). }
  destruct (cl_device cl) as [t|]; [|apply Hgo].
  destruct (length t <? 256)%nat; [apply Hgo|done].
Qed.
