(* ===== verification/BusProps.v ===== *)
(** * BusProps: the properties of the device bus *)

From S2P Require Import Prelude Effects Libc Wire Machine Apic Samples DeviceBus BusConfig.
From Stdlib Require Import Ascii.

Implicit Types (env : vmm_env) (w : vmm_world).

(** C21: Reading a configuration file gives the devices that it describes: for
    entries with proper names, none a prefix of another, and with memory
    available, reading the printed entries succeeds and leaves exactly the
    device list that the entries make (ranges of the same name collected in one
    device); nothing else in the monitor changes. *)
Theorem config_roundtrip env device0 name es w :
  Forall entry_ok es -> es <> [] -> prefix_free (e_name <$> es) ->
  (forall tr n, env tr (Calloc n) = true) -> (forall tr s, env tr (Strdup s) = true) ->
  env (w_trace w) (Fopen name) = Some (string_of (print_config es)) ->
  g_devicelist (w_st w) = Some [] ->
  wp (dbusConfigFromFile env device0 name) (fun r w' =>
    r = 0 /\ w_held w' = w_held w /\
    w_st w' = (w_st w) <| g_devicelist := Some (config_devices es) |>) w.
Proof.
  intros Hok Hne Hpf Hc Hs Hopen Hdev. unfold dbusConfigFromFile. vmm_go. rewrite Hopen.
  cbv zeta. unfold string_of. rewrite String.list_ascii_of_string_of_list_ascii.
  destruct es as [|e es]; [done|].
  assert (skip_space (print_config (e :: es)) = print_config (e :: es)) as Hskip.
  { apply Forall_cons in Hok as [[Hch Hlen _ _ _ _] _]. unfold print_config, print_entry.
    destruct (name_chars e) as [|c t]; [simpl in Hlen; lia|].
    apply Forall_cons in Hch as [[Hsp _] _]. simpl. by rewrite Hsp. }
  rewrite <-Hskip at 2.
  eapply wp_mono; [refine (config_loop env Hc Hs (e_name <$> e :: es) (e :: es) [] device0 _ _
    Hok Hpf _ _ _ _ _)|].
  - intros e' He'. by apply list_elem_of_fmap_2.
  - constructor.
  - exact Hdev.
  - done.
  - pose proof (length_print_config (e :: es)). lia.
  - done.
Qed.

Definition file_env (contents : string) : vmm_env := fun tr (c : vmm_call) =>
  match c return vmm_reply c with
  | Fopen _ => Some contents
  | c => quiet_env tr c
  end.

Definition sample_entries : list entry :=
  [Entry "ooows-vga" 0x3b0 1 0xa0000 0x20000; Entry "ooows-p9fs" 0x9d0 0x20 0 0].

Lemma sample_entries_ok : Forall entry_ok sample_entries.
Proof.
  repeat constructor; try (simpl; lia); by vm_compute.
Qed.

Lemma config_roundtrip_witness :
  wp (dbusConfigFromFile (file_env (string_of (print_config sample_entries))) "" "devices.config")
    (fun r w' => r = 0 /\ w_held w' = [] /\
       w_st w' = (sample_state 1 0) <| g_devicelist := Some (config_devices sample_entries) |>)
    (sample_world 1 0).
Proof.
  apply (config_roundtrip (file_env (string_of (print_config sample_entries))) "" "devices.config"
    sample_entries (sample_world 1 0)); try reflexivity; try discriminate.
  - exact sample_entries_ok.
  - intros n n' Hn Hn'. apply elem_of_cons in Hn as [->|[->|[]%elem_of_nil]%elem_of_cons];
      apply elem_of_cons in Hn' as [->|[->|[]%elem_of_nil]%elem_of_cons]; try done;
      intros [k Hk]; vm_compute in Hk; discriminate Hk.
Defined.

(** C34: Reading a configuration ends on every file, whatever it contains and
    whatever the allocator answers: each line that assigns anything consumes
    input. *)
Theorem config_terminates env device0 name : bounded (dbusConfigFromFile env device0 name).
Proof.
  unfold dbusConfigFromFile. apply bounded_bind; [auto with bounded|].
  intros [contents|]; [|apply bounded_ret]. cbv zeta.
  apply (bounded_loop (fun x : chars * string => length x.1)).
  - intros [l device]. destruct (fscanf_config l). bounded_go.
  - intros x w x' w' H. by apply (config_step_decreases env x w x' w').
  - simpl. lia.
Qed.

(** A port belongs to the first device in the list that has a range around
    it, and to none exactly when no device has one; the lookup changes
    nothing. *)
Theorem port_lookup port l w :
  g_devicelist (w_st w) = Some l ->
  wp (deviceForPort port) (fun r w' => w' = w /\
    match r with
    | Some i => exists d, l !! i = Some d /\
        (exists rg, rg ∈ ioports d /\ start_port rg <= port < start_port rg + nports rg) /\
        forall j d' rg, (j < i)%nat -> l !! j = Some d' -> rg ∈ ioports d' ->
          ~ start_port rg <= port < start_port rg + nports rg
    | None => forall d rg, d ∈ l -> rg ∈ ioports d ->
          ~ start_port rg <= port < start_port rg + nports rg
    end) w.
Proof.
  intros Hl. eapply wp_deviceForPort; [exact Hl|]. split; [done|].
  assert (forall d rg, claims_port port d = false -> rg ∈ ioports d ->
    ~ start_port rg <= port < start_port rg + nports rg) as Hno.
  { intros d rg Hd Hrg Hin. assert (claims_port port d = true); [|congruence].
    apply existsb_exists. exists rg. split; [by apply list_elem_of_In|].
    unfold in_ioport_range. apply andb_true_iff. rewrite Z.leb_le, Z.ltb_lt. lia. }
  pose proof (find_device_spec (claims_port port) 0 l) as H.
  destruct (find_device (claims_port port) 0 l) as [k|].
  - destruct H as (i & d & -> & Hi & Hf & Hmin). exists d. split; [done|]. split.
    + apply existsb_exists in Hf as (rg & Hrg & Hin). exists rg.
      split; [by apply list_elem_of_In|]. unfold in_ioport_range in Hin.
      apply andb_true_iff in Hin as [H1 H2]. lia.
    + intros j d' rg Hj Hd' Hrg. eapply Hno; [by eapply Hmin|done].
  - intros d rg Hd Hrg. rewrite Forall_forall in H. by eapply Hno; [apply H|].
Qed.

Definition sample_devices : vmm_state :=
  (sample_state 1 0) <| g_devicelist := Some (config_devices sample_entries) |>.

Lemma port_lookup_witness :
  wp (deviceForPort 0x3b0) (fun _ w' => w' = World sample_devices [] [])
    (World sample_devices [] []).
Proof.
  eapply wp_mono.
  - apply (port_lookup 0x3b0 (config_devices sample_entries) (World sample_devices [] [])).
    reflexivity.
  - by intros r w' [H _].
Defined.

(** A device reads out of the bytes of a request exactly the request that
    the monitor stored, whatever the padding of the structure held before. *)
Theorem request_roundtrip stack io :
  length stack = sizeof_io_request -> io_request_ok io ->
  load_io_request (store_io_request stack io) = Some io /\
  length (store_io_request stack io) = sizeof_io_request.
Proof.
  intros Hs Hok. split; [by apply load_store_io_request|by apply length_store_io_request].
Qed.

Lemma request_roundtrip_witness :
  load_io_request (store_io_request (replicate 28 0xcc) (Mmio (MmioRequest 0xa0010 0x41 4 1))) =
    Some (Mmio (MmioRequest 0xa0010 0x41 4 1)) /\
  length (store_io_request (replicate 28 0xcc) (Mmio (MmioRequest 0xa0010 0x41 4 1))) =
    sizeof_io_request.
Proof.
  apply (request_roundtrip (replicate 28 0xcc) (Mmio (MmioRequest 0xa0010 0x41 4 1))).
  - reflexivity.
  - by vm_compute.
Defined.

(** The value that a device sends back, as the guest sees it. *)
Lemma ack_value v : le_val (blit (replicate 4 0) 0 (take 4 (le_bytes 4 v))) = u32 v.
Proof. exact (le_val_bytes 4 v). Qed.

(** A port access to a device with an open channel is one exchange: the
    monitor sends one request, in which the device reads the port, direction,
    width, count and the register contents of the guest; with the answer of the
    device an [in] changes exactly the bytes of the access width and an [out]
    nothing, and no state of the monitor changes. *)
Theorem pio_exchange_exact env stack i v data w l d dn c port direction size count answer :
  wf_machine (w_st w) -> w_held w = [] -> vcpu_at (w_st w) i = Some v ->
  g_devicelist (w_st w) = Some l -> l !! d = Some dn -> channel_fd dn !! i = Some c -> c <> 0 ->
  find_device (claims_port port) 0 l = Some d ->
  length stack = sizeof_io_request ->
  in_width 16 port -> in_width 8 direction -> in_width 32 count ->
  (size = 1 \/ size = 2 \/ size = 4) ->
  (forall tr m, 0 <= env tr (Send c m)) ->
  (forall tr, env tr (Recv c 4) = (4, le_bytes 4 answer)) ->
  wp (dbusHandlePioAccess env stack i port data direction size count) (fun r w' =>
    w_st w' = w_st w /\ w_held w' = [] /\
    (exists m, w_trace w' = w_trace w ++ [Send c m : call vmm_iface; Recv c 4 : call vmm_iface] /\
       load_io_request m = Some (Pio (IoportRequest port direction size (load32 data) count))) /\
    r = (0, if decide (direction = IO_DIRECTION_IN)
            then blit data 0 (le_bytes (Z.to_nat size) (u32 answer)) else data)) w.
Proof.
  intros Hm Hh Hv Hl Hd Hc Hc0 Hf Hst Hp Hdir Hcnt Hsize Hsend Hrecv.
  eapply wp_mono; [exact (pio_exchange env stack i v data w Hm Hh Hv l d dn c Hl Hd Hc Hc0
    port direction size count Hf)|].
  cbv zeta. intros r w' (H1 & H2 & H3). split; [done|]. split; [done|].
  rewrite decide_False in H3 by (apply Z.nlt_ge, Hsend).
  destruct H3 as [Htr Hr]. split.
  { eexists. rewrite Htr, <-app_assoc. split; [reflexivity|].
    apply load_store_io_request; [done|]. split; [done|]. split; [done|].
    split; [|split; [apply load32_range|done]].
    destruct Hsize as [-> | [-> | ->]]; by vm_compute. }
  rewrite Hrecv in Hr. cbn [fst snd] in Hr.
  rewrite decide_False in Hr by (vm_compute; discriminate). rewrite Hr, ack_value.
  unfold pio_store. case_decide as Hin.
  - rewrite (proj2 (Z.eqb_eq _ _) Hin). by destruct Hsize as [-> | [-> | ->]].
  - by rewrite (proj2 (Z.eqb_neq _ _) Hin).
Qed.

(** The two sample devices, with an open channel 10 for CPU 0 of the one in
    front. *)
Definition open_devices : list device_node_t :=
  alter (fun d => d <| channel_fd := [10; 0; 0; 0] |>) 1%nat (config_devices sample_entries).
Definition open_world : vmm_world :=
  World ((sample_state 1 0) <| g_devicelist := Some open_devices |>) [] [].

Lemma open_world_wf : wf_machine (w_st open_world).
Proof.
  split; [|split].
  - apply wf_vmm_devices, sample_wf; lia.
  - exists open_devices. split; [done|].
    apply (bool_decide_unpack (Forall device_ok open_devices)). by vm_compute.
  - apply (sample_created 1 0).
Qed.

Definition answer_env (v : Z) : vmm_env := fun tr (c : vmm_call) =>
  match c return vmm_reply c with
  | Recv _ _ => (4, le_bytes 4 v)
  | c => quiet_env tr c
  end.

Lemma pio_exchange_exact_witness :
  wp (dbusHandlePioAccess (answer_env 0x13) (replicate 28 0) 0 0x3b0 [1; 2; 3; 4; 5; 6; 7; 8]
        IO_DIRECTION_IN 1 1)
    (fun r w' => w_st w' = w_st open_world /\ w_held w' = [] /\
      (exists m, w_trace w' = [Send 10 m : call vmm_iface; Recv 10 4 : call vmm_iface] /\
         load_io_request m = Some (Pio (IoportRequest 0x3b0 IO_DIRECTION_IN 1 0x4030201 1))) /\
      r = (0, [0x13; 2; 3; 4; 5; 6; 7; 8])) open_world.
Proof.
  apply (pio_exchange_exact (answer_env 0x13) (replicate 28 0) 0 (sample_vcpu 0 1)
    [1; 2; 3; 4; 5; 6; 7; 8] open_world open_devices 1 (default device_zero (open_devices !! 1%nat))
    10 0x3b0 IO_DIRECTION_IN 1 1 0x13); try reflexivity; try discriminate; try (by vm_compute).
  - exact open_world_wf.
  - by left.
  - intros tr m. simpl. lia.
Defined.

(** A device that dies during a port read is not noticed: when [recv]
    fails with -1 the comparison with the unsigned size lets the result pass,
    and the access reports success with the read bytes set to zero. *)
Theorem pio_lost_answer_is_success env stack i v data w l d dn c port size count :
  wf_machine (w_st w) -> w_held w = [] -> vcpu_at (w_st w) i = Some v ->
  g_devicelist (w_st w) = Some l -> l !! d = Some dn -> channel_fd dn !! i = Some c -> c <> 0 ->
  find_device (claims_port port) 0 l = Some d -> (size = 1 \/ size = 2 \/ size = 4) ->
  (forall tr m, 0 <= env tr (Send c m)) ->
  (forall tr, env tr (Recv c 4) = (-1, [])) ->
  wp (dbusHandlePioAccess env stack i port data IO_DIRECTION_IN size count) (fun r _ =>
    r = (0, blit data 0 (replicate (Z.to_nat size) 0))) w.
Proof.
  intros Hm Hh Hv Hl Hd Hc Hc0 Hf Hsize Hsend Hrecv.
  eapply wp_mono; [exact (pio_exchange env stack i v data w Hm Hh Hv l d dn c Hl Hd Hc Hc0
    port IO_DIRECTION_IN size count Hf)|].
  cbv zeta. intros r w' (_ & _ & H3). rewrite decide_False in H3 by (apply Z.nlt_ge, Hsend).
  destruct H3 as [_ Hr]. rewrite Hrecv in Hr. cbn [fst snd] in Hr.
  rewrite decide_False in Hr by (vm_compute; discriminate). rewrite Hr.
  unfold pio_store. by destruct Hsize as [-> | [-> | ->]].
Qed.

Definition dead_env : vmm_env := fun tr (c : vmm_call) =>
  match c return vmm_reply c with
  | Recv _ _ => (-1, [])
  | c => quiet_env tr c
  end.

Lemma pio_lost_answer_is_success_witness :
  wp (dbusHandlePioAccess dead_env (replicate 28 0) 0 0x3b0 [1; 2; 3; 4; 5; 6; 7; 8]
        IO_DIRECTION_IN 2 1)
    (fun r _ => r = (0, [0; 0; 3; 4; 5; 6; 7; 8])) open_world.
Proof.
  apply (pio_lost_answer_is_success dead_env (replicate 28 0) 0 (sample_vcpu 0 1)
    [1; 2; 3; 4; 5; 6; 7; 8] open_world open_devices 1 (default device_zero (open_devices !! 1%nat))
    10 0x3b0 2 1); try reflexivity; try discriminate.
  - exact open_world_wf.
  - by right; left.
  - intros tr m. simpl. lia.
Defined.

(** C20: A memory access of the guest, of any address, width and direction, and
    whatever the devices and the system calls answer, ends without a fault
    (starting the device's process first when it does not run yet): the
    machine stays well formed, the CPU still exists and the number of CPUs is
    the same, the bus lock is released, the result is 0 or -1 and the buffer keeps
    its size.  A well-formed machine has an I/O APIC, as the KVM backend creates it
    ([NoIoApic] has the machine without), and the run is that of the monitor, not
    of the forked child. *)
Theorem mmio_access_safe env stack i v data phys_addr len is_write w :
  wf_machine (w_st w) -> w_held w = [] -> vcpu_at (w_st w) i = Some v ->
  (forall tr, env tr Fork <> 0) -> (8 <= length data)%nat ->
  wp (dbusHandleMmioAccess env stack i phys_addr data len is_write) (fun r w' =>
    wf_machine (w_st w') /\ w_held w' = [] /\ (r.1 = 0 \/ r.1 = -1) /\
    length r.2 = length data /\ (live i (w_st w) -> live i (w_st w')) /\
    g_nvcpus (w_st w') = g_nvcpus (w_st w)) w.
Proof.
  intros Hm Hh Hv Hf Hd.
  exact (mmio_safe env stack i v data w Hm Hh Hv Hf phys_addr len is_write Hd).
Qed.

Lemma mmio_access_safe_witness :
  wp (dbusHandleMmioAccess quiet_env (replicate 28 0) 0 0xa0000 (replicate 8 0) 4 0) (fun r w' =>
    wf_machine (w_st w') /\ w_held w' = [] /\ (r.1 = 0 \/ r.1 = -1) /\
    length r.2 = 8%nat /\ (live 0 (w_st open_world) -> live 0 (w_st w')) /\
    g_nvcpus (w_st w') = g_nvcpus (w_st open_world)) open_world.
Proof.
  apply (mmio_access_safe quiet_env (replicate 28 0) 0 (sample_vcpu 0 1) (replicate 8 0));
    try reflexivity; try discriminate.
  exact open_world_wf.
Defined.
