(* ===== verification/Kvm.v ===== *)
(** * Kvm: the hypervisor backend on KVM (kvm/kvmstubs.c)

    The driver requests are calls to the environment.  [hvRunVcpu] is the
    entry/exit loop of a virtual CPU; it calls [waitForSipi] of vmm.c, which
    is therefore defined here too. *)

From S2P Require Import Prelude Effects Libc Wire Machine Apic DeviceBus.

Definition KVM_EXIT_IO := 2.
Definition KVM_EXIT_HLT := 5.
Definition KVM_EXIT_MMIO := 6.
Definition KVM_EXIT_IRQ_WINDOW_OPEN := 7.
Definition KVM_EXIT_SHUTDOWN := 8.
Definition KVM_EXIT_IO_IN := 0.
Definition KVM_EXIT_IO_OUT := 1.
Definition KVM_MEM_READONLY := 2.

Definition sizeof_hv := 240.
Definition sizeof_ioapic := 216.

(** ** Segment descriptors *)

Definition set_kvm_seg (rhs : segment_t) : kvm_segment :=
  let flags := flags rhs in
  let present := Z.b2z (negb (Z.land flags DESC_P_MASK =? 0)) in
  {| k_selector := u16 (selector rhs);
     k_base := base rhs;
     k_limit := limit rhs;
     k_type := Z.land (Z.shiftr flags DESC_TYPE_SHIFT) 15;
     k_present := present;
     k_dpl := Z.land (Z.shiftr flags DESC_DPL_SHIFT) 3;
     k_db := Z.land (Z.shiftr flags DESC_B_SHIFT) 1;
     k_s := Z.b2z (negb (Z.land flags DESC_S_MASK =? 0));
     k_l := Z.land (Z.shiftr flags DESC_L_SHIFT) 1;
     k_g := Z.b2z (negb (Z.land flags DESC_G_MASK =? 0));
     k_avl := Z.b2z (negb (Z.land flags DESC_AVL_MASK =? 0));
     k_unusable := Z.b2z (present =? 0);
     k_padding := 0 |}.

Definition get_kvm_seg (rhs : kvm_segment) : segment_t :=
  {| selector := k_selector rhs;
     base := k_base rhs;
     limit := k_limit rhs;
     flags :=
       Z.lor (Z.lor (Z.lor (Z.lor (Z.lor (Z.lor (Z.lor
         (Z.shiftl (k_type rhs) DESC_TYPE_SHIFT)
         (Z.b2z (negb (k_present rhs =? 0) && (k_unusable rhs =? 0)) * DESC_P_MASK))
         (Z.shiftl (k_dpl rhs) DESC_DPL_SHIFT))
         (Z.shiftl (k_db rhs) DESC_B_SHIFT))
         (k_s rhs * DESC_S_MASK))
         (Z.shiftl (k_l rhs) DESC_L_SHIFT))
         (k_g rhs * DESC_G_MASK))
         (k_avl rhs * DESC_AVL_MASK) |}.

(** ** The register file *)

Definition gpr_at (r : x86_cpu_regs_t) (i : nat) : Z := default 0 (gpr r !! i).
Definition control_at (r : x86_cpu_regs_t) (i : nat) : Z := default 0 (control r !! i).
Definition segment_at (r : x86_cpu_regs_t) (i : nat) : segment_t :=
  default segment_zero (segment r !! i).

(** [struct kvm_regs] and [struct kvm_sregs] filled from the register file. *)
Definition regs_to_kvm (r : x86_cpu_regs_t) : kvm_regs :=
  {| k_rax := gpr_at r G_EAX; k_rbx := gpr_at r G_EBX; k_rcx := gpr_at r G_ECX;
     k_rdx := gpr_at r G_EDX; k_rsi := gpr_at r G_ESI; k_rdi := gpr_at r G_EDI;
     k_rsp := gpr_at r G_ESP; k_rbp := gpr_at r G_EBP;
     k_rflags := eflags r; k_rip := eip r |}.

Definition sregs_to_kvm (r : x86_cpu_regs_t) : kvm_sregs :=
  {| k_cs := set_kvm_seg (segment_at r S_CS); k_ds := set_kvm_seg (segment_at r S_DS);
     k_es := set_kvm_seg (segment_at r S_ES); k_fs := set_kvm_seg (segment_at r S_FS);
     k_gs := set_kvm_seg (segment_at r S_GS); k_ss := set_kvm_seg (segment_at r S_SS);
     k_tr := set_kvm_seg (tr r); k_ldt := set_kvm_seg (ldt r);
     k_idt := KDtable (base (idt r)) (u16 (limit (idt r)));
     k_gdt := KDtable (base (gdt r)) (u16 (limit (gdt r)));
     k_cr0 := control_at r 0; k_cr2 := control_at r 2; k_cr3 := control_at r 3;
     k_cr4 := control_at r 4;
     k_cr8 := Z.shiftr (tpr r) 4;
     k_apic_base := apicbase r;
     k_efer := efer r |}.

(** The stores of [hvGetVcpuRegisters] into the register file. *)
Definition regs_from_kvm (k : kvm_regs) (r : x86_cpu_regs_t) : x86_cpu_regs_t :=
  r <| gpr ::= fun g =>
         <[G_EBP := k_rbp k]> (<[G_ESP := k_rsp k]> (<[G_EDI := k_rdi k]>
        (<[G_ESI := k_rsi k]> (<[G_EDX := k_rdx k]> (<[G_ECX := k_rcx k]>
        (<[G_EBX := k_rbx k]> (<[G_EAX := k_rax k]> g))))))) |>
    <| eflags := k_rflags k |>
    <| eip := k_rip k |>.

Definition sregs_from_kvm (k : kvm_sregs) (r : x86_cpu_regs_t) : x86_cpu_regs_t :=
  r <| segment ::= fun s =>
         <[S_SS := get_kvm_seg (k_ss k)]> (<[S_GS := get_kvm_seg (k_gs k)]>
        (<[S_FS := get_kvm_seg (k_fs k)]> (<[S_ES := get_kvm_seg (k_es k)]>
        (<[S_DS := get_kvm_seg (k_ds k)]> (<[S_CS := get_kvm_seg (k_cs k)]> s))))) |>
    <| tr := get_kvm_seg (k_tr k) |>
    <| ldt := get_kvm_seg (k_ldt k) |>
    <| idt ::= fun d => d <| limit := k_dt_limit (k_idt k) |> <| base := k_dt_base (k_idt k) |> |>
    <| gdt ::= fun d => d <| limit := k_dt_limit (k_gdt k) |> <| base := k_dt_base (k_gdt k) |> |>
    <| control ::= fun c =>
         <[4%nat := k_cr4 k]> (<[3%nat := k_cr3 k]> (<[2%nat := k_cr2 k]> (<[0%nat := k_cr0 k]> c))) |>
    <| tpr := u8 (Z.shiftl (k_cr8 k) 4) |>
    <| apicbase := u32 (k_apic_base k) |>
    <| efer := k_efer k |>.

Section Kvm.
Context (env : vmm_env).

(** ** Creation *)

(** [None] is the NULL result. The new structure is zeroed. *)
Definition hvInitHypervisor : vmm_prog (option hv_t) :=
  ok ← os env (Malloc sizeof_hv);
  if negb ok then mret None else
  a ← initIoApic env;
  match a with
  | None => _ ← os env (Free_struct sizeof_hv); mret None
  | Some a =>
      dev ← os env (Open "/dev/kvm");
      let err : vmm_prog (option hv_t) :=
        (if negb (dev =? 0) then _ ← os env (Close dev); mret tt else mret tt);;
        _ ← os env (Free_struct sizeof_ioapic);
        _ ← os env (Free_struct sizeof_hv);
        mret None in
      if dev <? 0 then err else
      vm ← os env (KVM_CREATE_VM dev);
      if vm <? 0 then err
      else mret (Some (hv_zero <| ioapic_p := Some a |> <| fd := dev |> <| vm_fd := vm |>))
  end.

Definition hvCreateInterruptController : vmm_prog Z :=
  s ← gets (fun s => s);
  os env (KVM_CREATE_IRQCHIP (vm_fd (g_hv s))).

Definition hvCreateVcpu (vcpu : nat) : vmm_prog Z :=
  s ← gets (fun s => s);
  v ← get_vcpu vcpu;
  os env (KVM_CREATE_VCPU (vm_fd (g_hv s)) (id v)).

(** The result of [mmap] is negative ([-errno]) for [MAP_FAILED]. *)
Definition hvEstablishComm (vcpu : nat) : vmm_prog Z :=
  s ← gets (fun s => s);
  mmap_size ← os env (KVM_GET_VCPU_MMAP_SIZE (fd (g_hv s)));
  if mmap_size <? 0 then mret mmap_size else
  v ← get_vcpu vcpu;
  r ← os env (Mmap_run mmap_size (driver_fd v));
  if r.1 <? 0 then set_vcpu vcpu (fun v => v <| comm := None |>);; mret r.1 else
  set_vcpu vcpu (fun v => v <| comm := Some r.2 |>);;
  mret 0.

Definition hvSetCpuid (vcpu : nat) : vmm_prog Z :=
  ok ← os env (Calloc 48);
  if negb ok then fail NullDeref else
  v ← get_vcpu vcpu;
  err ← os env (KVM_SET_CPUID2 (driver_fd v) 1 (u32 (Z.shiftl (id v) 24)));
  _ ← os env (Free_struct 48);
  mret err.

(** ** Registers *)

Definition hvSetVcpuRegisters (vcpu : nat) : vmm_prog Z :=
  v ← get_vcpu vcpu;
  ret ← os env (KVM_SET_REGS (driver_fd v) (regs_to_kvm (regs v)));
  if ret <? 0 then mret ret else
  os env (KVM_SET_SREGS (driver_fd v) (sregs_to_kvm (regs v))).

(** [sr] is passed to [ioctl] by value: the driver never gets its address, so
    [sr] is still zero when it is copied into the register file, and what the
    driver stores goes to the address that a register happens to hold. *)
Definition hvGetVcpuRegisters (vcpu : nat) : vmm_prog Z :=
  v ← get_vcpu vcpu;
  r ← os env (KVM_GET_REGS (driver_fd v));
  if r.1 <? 0 then mret r.1 else
  set_vcpu vcpu (fun v => v <| regs ::= regs_from_kvm r.2 |>);;
  stored ← os env (KVM_GET_SREGS_by_value (driver_fd v) kvm_sregs_zero);
  ret ← match stored with No_store ret => mret ret | Stray_store => fail StrayStore end;
  if ret <? 0 then mret ret else
  set_vcpu vcpu (fun v => v <| regs ::= sregs_from_kvm kvm_sregs_zero |>);;
  mret ret.

(** ** Guest memory *)

Definition hvSetMemory (hva len gpa : Z) (readonly : bool) : vmm_prog Z :=
  s ← gets (fun s => s);
  let slot := cur_slot (g_hv s) in
  modify (fun s => s <| g_hv ::= fun h => h <| cur_slot ::= fun n => i32 (n + 1) |> |>);;
  r ← os env (KVM_SET_USER_MEMORY_REGION (vm_fd (g_hv s)) slot
                (if readonly then KVM_MEM_READONLY else 0) gpa len hva);
  if r <? 0 then mret (-1) else mret slot.

Definition hvDelMemory (slot : Z) : vmm_prog unit :=
  s ← gets (fun s => s);
  _ ← os env (KVM_SET_USER_MEMORY_REGION (vm_fd (g_hv s)) slot 0 0 0 0);
  mret tt.

(** ** The run loop *)

(** The check of [waitForSipi] over all CPUs below the count. *)
Fixpoint allHalted (acc : bool) (l : list nat) : vmm_prog bool :=
  match l with
  | [] => mret acc
  | i :: l =>
      v ← read_vcpus i;
      v ← get_or NullDeref v;
      allHalted (if state v =? STATE_RUNNING then false else acc) l
  end.

(** waitForSipi of vmm.c. The wait gives the state that the other threads
    left; it is repeated until this CPU runs. *)
Definition waitForSipi (fuel : nat) (vcpu : nat) : vmm_prog Z :=
  s ← gets (fun s => s);
  all_halted ← allHalted true (seq 0 (Z.to_nat (g_nvcpus s)));
  if (all_halted : bool) then mret VM_SHUTDOWN else
  pthread_mutex_lock (state_access_mutex vcpu);;
  loop fuel (fun _ : unit =>
    v ← get_vcpu vcpu;
    if state v =? STATE_RUNNING then mret (inr tt) else
    others ← os env (Cond_wait vcpu);
    modify others;;
    mret (inl tt)) tt;;
  pthread_mutex_unlock (state_access_mutex vcpu);;
  mret 0.

Definition get_and_dump_sregs (fd : Z) : vmm_prog unit :=
  r ← os env (KVM_GET_SREGS fd);
  if r.1 =? -1 then fail (Exited 1) else mret tt.

(** The [switch] on the exit reason. *)
Definition handleExit (fuel : nat) (stack : bytes) (vcpu : nat) : vmm_prog Z :=
  run ← get_comm vcpu;
  if exit_reason run =? KVM_EXIT_HLT then
    set_vcpu vcpu (fun v => v <| state := STATE_HALTED |>);;
    waitForSipi fuel vcpu
  else if exit_reason run =? KVM_EXIT_SHUTDOWN then
    v ← get_vcpu vcpu;
    get_and_dump_sregs (driver_fd v);;
    mret VM_SHUTDOWN
  else if exit_reason run =? KVM_EXIT_IO then
    let access (direction : Z) : vmm_prog Z :=
      r ← dbusHandlePioAccess env stack vcpu (r_io_port run) (r_io_data run) direction
            (r_io_size run) (r_io_count run);
      set_comm vcpu (fun c => c <| r_io_data := r.2 |>);;
      mret r.1 in
    if r_io_direction run =? KVM_EXIT_IO_IN then access IO_DIRECTION_IN
    else if r_io_direction run =? KVM_EXIT_IO_OUT then access IO_DIRECTION_OUT
    else mret VM_UNHANDLED_EXIT
  else if exit_reason run =? KVM_EXIT_MMIO then
    r ← dbusHandleMmioAccess env stack vcpu (r_mmio_phys_addr run) (r_mmio_data run)
          (r_mmio_len run) (r_mmio_is_write run);
    set_comm vcpu (fun c => c <| r_mmio_data := r.2 |>);;
    mret r.1
  else if exit_reason run =? KVM_EXIT_IRQ_WINDOW_OPEN then mret 0
  else mret VM_UNHANDLED_EXIT.

(** One round of the loop up to the [switch]. *)
Definition enterGuest (vcpu : nat) : vmm_prog unit :=
  v ← get_vcpu vcpu;
  (if dirty v then
     _ ← hvSetVcpuRegisters vcpu;
     set_vcpu vcpu (fun v => v <| dirty := false |>)
   else mret tt);;
  _ ← checkAndSendInterrupt env vcpu;
  r ← os env (KVM_RUN (driver_fd v));
  set_comm vcpu (fun _ => r.2);;
  _ ← hvGetVcpuRegisters vcpu;
  mret tt.

Definition runOnce (fuel : nat) (stack : bytes) (vcpu : nat) : vmm_prog Z :=
  enterGuest vcpu;;
  handleExit fuel stack vcpu.

Definition hvRunVcpu (fuel : nat) (stack : bytes) (vcpu : nat) : vmm_prog Z :=
  loop fuel (fun _ : unit =>
    ret ← runOnce fuel stack vcpu;
    mret (if ret =? 0 then inl tt else inr ret)) tt.
End Kvm.

Implicit Types (env : vmm_env) (w : vmm_world).

(** ** Segment descriptors survive the conversion *)

Lemma b2z_mask_testbit b k i :
  0 <= k -> 0 <= i -> Z.testbit (Z.b2z b * Z.shiftl 1 k) i = bool_decide (i = k) && b.
Proof.
  intros Hk Hi. rewrite Z.shiftl_1_l. case_bool_decide as Hik; simpl.
  - subst i. rewrite Z.mul_pow2_bits, Z.sub_diag by lia. by destruct b.
  - rewrite Z.mul_pow2_bits by lia. destruct b; simpl.
    + destruct (Z.lt_ge_cases i k).
      * apply Z.testbit_neg_r. lia.
      * rewrite Z.bits_above_log2; [done|lia|]. simpl. lia.
    + apply Z.testbit_0_l.
Qed.

Lemma mask_flag f k :
  0 <= k < 32 -> Z.b2z (negb (Z.land f (Z.shiftl 1 k) =? 0)) = Z.b2z (Z.testbit f k).
Proof.
  intros Hk. pose proof (land_bit_eqb f k Hk) as H.
  rewrite u32_shiftl_1 in H by done. rewrite Z.shiftl_1_l, H. by rewrite negb_involutive.
Qed.

(** Extracting a field or a flag and putting it back keeps those bits. *)
Lemma keep_field f lo k i :
  0 <= lo -> 0 <= k -> 0 <= i ->
  Z.testbit (Z.shiftl (Z.land (Z.shiftr f lo) (Z.ones k)) lo) i =
  bool_decide (lo <= i < lo + k) && Z.testbit f i.
Proof.
  intros. rewrite Z.shiftl_spec by lia. destruct (Z.lt_ge_cases i lo).
  - rewrite Z.testbit_neg_r by lia. by rewrite bool_decide_false by lia.
  - rewrite Z.land_spec, Z.shiftr_spec, ones_testbit by lia.
    replace (i - lo + lo) with i by lia. rewrite andb_comm. f_equal.
    apply bool_decide_ext. lia.
Qed.

Lemma keep_flag f k i :
  0 <= k -> 0 <= i ->
  Z.testbit (Z.b2z (Z.testbit f k) * Z.shiftl 1 k) i = bool_decide (i = k) && Z.testbit f i.
Proof.
  intros. rewrite b2z_mask_testbit by lia. case_bool_decide; [by subst|done].
Qed.

(** The descriptor bits that KVM knows about. *)
Definition seg_flags_mask := 0xf0ff00.

Lemma seg_flags_bits i : 0 <= i ->
  bool_decide (8 <= i < 8 + 4) || bool_decide (i = 15) || bool_decide (13 <= i < 13 + 2) ||
  bool_decide (22 <= i < 22 + 1) || bool_decide (i = 12) || bool_decide (21 <= i < 21 + 1) ||
  bool_decide (i = 23) || bool_decide (i = 20) = Z.testbit seg_flags_mask i.
Proof.
  intros Hi. destruct (Z.lt_ge_cases i 24) as [Hlt|Hge].
  - assert (exists n : nat, i = n /\ (n < 24)%nat) as (n & -> & Hn) by (exists (Z.to_nat i); lia).
    do 24 (destruct n as [|n]; [by vm_compute|]). lia.
  - rewrite !(bool_decide_eq_false_2 _) by lia.
    by rewrite (in_width_testbit 24 seg_flags_mask i) by (lia || by vm_compute).
Qed.

Lemma get_set_flags sel b l f : flags (get_kvm_seg (set_kvm_seg (Segment sel b l f))) =
  Z.land f seg_flags_mask.
Proof.
  unfold get_kvm_seg, set_kvm_seg. cbn -[Z.land Z.lor Z.shiftr Z.shiftl Z.b2z Z.mul].
  unfold DESC_P_MASK, DESC_S_MASK, DESC_G_MASK, DESC_AVL_MASK, DESC_TYPE_SHIFT, DESC_DPL_SHIFT,
    DESC_B_SHIFT, DESC_L_SHIFT, DESC_P_SHIFT, DESC_S_SHIFT, DESC_G_SHIFT, DESC_AVL_SHIFT.
  rewrite !mask_flag by lia.
  replace (negb (Z.b2z (Z.testbit f 15) =? 0) && (Z.b2z (Z.b2z (Z.testbit f 15) =? 0) =? 0))
    with (Z.testbit f 15) by (by destruct (Z.testbit f 15)).
  apply Z.bits_inj'. intros i Hi. rewrite !Z.lor_spec, !keep_flag by lia.
  rewrite (keep_field f 8 4), (keep_field f 13 2), (keep_field f 22 1), (keep_field f 21 1) by lia.
  rewrite Z.land_spec, <-seg_flags_bits by lia.
  destruct (Z.testbit f i); rewrite ?andb_true_r, ?andb_false_r; done.
Qed.

(** A descriptor as KVM reports it: every member fits its field. *)
Record kvm_segment_ok (k : kvm_segment) : Prop := {
  ks_type : 0 <= k_type k < 16;
  ks_dpl : 0 <= k_dpl k < 4;
  ks_bits : Forall (fun b => b = 0 \/ b = 1) [k_present k; k_db k; k_s k; k_l k; k_g k; k_avl k];
  ks_unusable : k_unusable k = 1 - k_present k;
  ks_selector : in_width 16 (k_selector k);
  ks_padding : k_padding k = 0;
}.

#[export] Instance kvm_segment_eq_dec : EqDecision kvm_segment.
Proof. solve_decision. Defined.

(** All combinations of the descriptor's fields. *)
Definition bit_values : list Z := [0; 1].
Definition all_kvm_flags : list kvm_segment :=
  t ← seqZ 0 16; p ← bit_values; d ← seqZ 0 4; b ← bit_values; s ← bit_values;
  l ← bit_values; g ← bit_values; a ← bit_values;
  [KSegment 0 0 0 t p d b s l g a (1 - p) 0].

Lemma all_kvm_flags_ok :
  Forall (fun k => set_kvm_seg (get_kvm_seg k) = k) all_kvm_flags.
Proof. apply (bool_decide_unpack _). by vm_compute. Qed.

Lemma bit_values_elem x : x = 0 \/ x = 1 -> x ∈ bit_values.
Proof. intros [-> | ->]; set_solver. Qed.

Lemma set_get_kvm_seg k : kvm_segment_ok k -> set_kvm_seg (get_kvm_seg k) = k.
Proof.
  destruct k as [kb kl ks t p d b s l g a un pad]. intros [Ht Hd Hbits Hun Hs Hp]; simpl in *.
  subst un pad. rewrite !Forall_cons in Hbits. destruct Hbits as (Hp & Hb & Hss & Hl & Hg & Ha & _).
  pose proof bit_values_elem as Hbit.
  pose proof all_kvm_flags_ok as H. rewrite Forall_forall in H.
  specialize (H (KSegment 0 0 0 t p d b s l g a (1 - p) 0)).
  assert (KSegment 0 0 0 t p d b s l g a (1 - p) 0 ∈ all_kvm_flags) as Hin.
  { unfold all_kvm_flags.
    assert (t ∈ seqZ 0 16) by (apply elem_of_seqZ; lia).
    assert (d ∈ seqZ 0 4) by (apply elem_of_seqZ; lia).
    apply list_elem_of_bind; exists t; split; [|done].
    apply list_elem_of_bind; exists p; split; [|by apply Hbit].
    apply list_elem_of_bind; exists d; split; [|done].
    apply list_elem_of_bind; exists b; split; [|by apply Hbit].
    apply list_elem_of_bind; exists s; split; [|by apply Hbit].
    apply list_elem_of_bind; exists l; split; [|by apply Hbit].
    apply list_elem_of_bind; exists g; split; [|by apply Hbit].
    apply list_elem_of_bind; exists a; split; [by left|by apply Hbit]. }
  apply H in Hin. clear H. unfold set_kvm_seg, get_kvm_seg in *.
  cbn -[Z.land Z.lor Z.shiftr Z.shiftl Z.b2z Z.mul wrap Z.sub] in *.
  injection Hin as H1 H2 H3 H4 H5 H6 H7 H8 H9.
  rewrite (wrap_small 16) by done. f_equal; assumption.
Qed.

(** ** The invariant of the run loop *)

(** CPU [i] runs in a well-formed machine and holds no mutex. *)
Definition vcpu_inv (i : nat) (w : vmm_world) : Prop :=
  wf_machine (w_st w) /\ w_held w = [] /\ live i (w_st w).

(** The arrays of the shared page have their sizes. *)
Definition run_ok (r : kvm_run) : Prop :=
  (4 <= length (r_io_data r))%nat /\ (8 <= length (r_mmio_data r))%nat.

Lemma wf_machine_map_vcpu s i f :
  (forall v, vcpu_ok s i v -> vcpu_ok s i (f v)) -> wf_machine s -> wf_machine (map_vcpu i f s).
Proof.
  intros Hf (H1 & H2 & H3). split; [by apply wf_map_vcpu|]. split; [done|].
  by apply all_created_map_vcpu.
Qed.

(** Changes to a CPU that keep its number, state, LAPIC and shared page. *)
Definition benign (f : vcpu_t -> vcpu_t) : Prop :=
  forall v, id (f v) = id v /\ isr (f v) = isr v /\
    (in_width 32 (apicbase (regs v)) -> in_width 32 (apicbase (regs (f v)))) /\
    (state (f v) = state v \/ state (f v) = STATE_HALTED \/ state (f v) = STATE_RUNNING) /\
    (is_Some (comm v) -> is_Some (comm (f v))).

Lemma benign_regs g :
  (forall r, in_width 32 (apicbase r) -> in_width 32 (apicbase (g r))) ->
  benign (fun v => v <| regs ::= g |>).
Proof. intros Hg v. simpl. auto 10. Qed.

Lemma benign_inv i j f w w' :
  benign f -> vcpu_inv i w -> w_st w' = map_vcpu j f (w_st w) -> w_held w' = w_held w ->
  vcpu_inv i w'.
Proof.
  intros Hf (Hm & Hh & Hlive) Hst Hh'. split; [|split].
  - rewrite Hst. apply wf_machine_map_vcpu; [|done].
    intros v [H1 H2 H3 H4 H5]. destruct (Hf v) as (E1 & E2 & E3 & E4 & _).
    constructor; rewrite ?E1, ?E2; auto. destruct E4 as [-> | [-> | ->]]; auto.
  - congruence.
  - rewrite Hst. apply live_map_vcpu; [|done]. intros v. by destruct (Hf v) as (_ & _ & _ & _ & ?).
Qed.

Lemma vcpu_inv_trace i w w' : vcpu_inv i w -> only_trace w w' -> vcpu_inv i w'.
Proof. intros (H1 & H2 & H3) [H4 H5]. unfold vcpu_inv. by rewrite H4, H5. Qed.

Section Running.
Context (env : vmm_env) (i : nat).

Hypothesis in_parent : forall tr, env tr Fork <> 0.
Hypothesis pages : forall tr fd, run_ok (env tr (KVM_RUN fd)).2.

(** While this CPU waits, the other threads keep the machine well formed and
    destroy no CPU. *)
Hypothesis others : forall tr j s,
  wf_machine s -> wf_machine (env tr (Cond_wait j) s) /\
  forall k, live k s -> live k (env tr (Cond_wait j) s).

(** The ways in which a run may stop. A store through the register that stands
    for the argument of KVM_GET_SREGS is one of them, unless it never happens. *)
Context (ok : fault -> bool).
Hypothesis ok_stops : forall f, Effects.stops f = true -> ok f = true.
Hypothesis ok_stray : ok StrayStore = true \/
  forall tr fd sr, exists ret, env tr (KVM_GET_SREGS_by_value fd sr) = No_store ret.

Lemma hvSetVcpuRegisters_spec v w :
  vcpu_at (w_st w) i = Some v ->
  wp (hvSetVcpuRegisters env i) (fun _ w' => only_trace w w' /\
    (w_trace w' = w_trace w ++ [KVM_SET_REGS (driver_fd v) (regs_to_kvm (regs v)) : call vmm_iface] \/
     w_trace w' = w_trace w ++ [KVM_SET_REGS (driver_fd v) (regs_to_kvm (regs v)) : call vmm_iface;
                                KVM_SET_SREGS (driver_fd v) (sregs_to_kvm (regs v)) : call vmm_iface])) w.
Proof.
  intros Hv. unfold hvSetVcpuRegisters. apply wp_bind. eapply wp_get_vcpu; [exact Hv|].
  vmm_step. vmm_step. destruct (_ <? 0).
  - apply wp_ret. split; [done|]. by left.
  - vmm_step. split; [done|]. right. simpl. by rewrite <-app_assoc.
Qed.

(** Fetching the registers keeps the invariant and the shared page. *)
Lemma hvGetVcpuRegisters_spec v w :
  vcpu_inv i w -> vcpu_at (w_st w) i = Some v ->
  upto ok (hvGetVcpuRegisters env i) (fun _ w' => vcpu_inv i w' /\
    exists v', vcpu_at (w_st w') i = Some v' /\ comm v' = comm v) w.
Proof.
  intros Hinv Hv. unfold hvGetVcpuRegisters. apply upto_bind, wp_upto.
  eapply wp_get_vcpu; [exact Hv|]. apply upto_bind, wp_upto. vmm_step. destruct (_ <? 0).
  { apply wp_upto, wp_ret. split; [by eapply vcpu_inv_trace|]. by exists v. }
  apply upto_bind, wp_upto, wp_set_vcpu. set (w1 := _ <| w_st ::= _ |>).
  assert (vcpu_inv i w1) as H1.
  { eapply benign_inv; [|exact Hinv|reflexivity|done]. by apply benign_regs. }
  assert (exists v', vcpu_at (w_st w1) i = Some v' /\ comm v' = comm v) as (v1 & Hv1 & Hc1).
  { unfold w1; simpl. rewrite vcpu_at_map_same, Hv. by eexists. }
  apply upto_bind, wp_upto. vmm_step. apply upto_bind.
  destruct (env (w_trace w1) (KVM_GET_SREGS_by_value _ _)) as [ret|] eqn:Hret.
  2: { destruct ok_stray as [Hok|Hno]; [exact Hok|].
       edestruct Hno as [ret Hret']. rewrite Hret' in Hret. discriminate. }
  apply wp_upto, wp_ret, wp_upto. destruct (ret <? 0).
  { apply wp_ret. split; [by eapply vcpu_inv_trace|]. by exists v1. }
  apply wp_bind, wp_set_vcpu, wp_ret. split.
  - eapply benign_inv; [|exact H1|reflexivity|done]. apply benign_regs. intros r _. by vm_compute.
  - exists (v1 <| regs ::= sregs_from_kvm kvm_sregs_zero |>). split; [|exact Hc1].
    etransitivity; [apply vcpu_at_map_same|].
    exact (f_equal (fmap _) Hv1).
Qed.

Lemma allHalted_spec acc l w :
  (forall j, j ∈ l -> is_Some (vcpu_at (w_st w) j)) ->
  wp (allHalted acc l) (fun _ w' => w' = w) w.
Proof.
  revert acc. induction l as [|j l IH]; intros acc Hl; simpl; [by apply wp_ret|].
  destruct (Hl j) as [v Hv]; [by left|].
  apply wp_bind. eapply wp_read_vcpus; [by apply vcpu_at_Some|].
  apply wp_bind. eapply wp_get_or; [done|]. apply IH. intros k Hk. apply Hl. by right.
Qed.

Lemma waitForSipi_safe fuel w :
  vcpu_inv i w -> safe (waitForSipi env fuel i) (fun r w' =>
    vcpu_inv i w' /\ (r = 0 \/ r = VM_SHUTDOWN)) w.
Proof.
  intros Hinv. pose proof Hinv as (Hm & Hh & Hlive). pose proof Hm as (Hwf & Hdev & Hcr).
  unfold waitForSipi.
  apply safe_bind, wp_safe, wp_gets. apply safe_bind, wp_safe.
  eapply wp_mono; [apply allHalted_spec|].
  { intros j Hj%elem_of_seq. apply Hcr. lia. }
  intros b ? ->. destruct b; [apply wp_safe, wp_ret; split; [done|by right]|].
  apply safe_bind, wp_safe, wp_mutex_lock; [rewrite Hh; apply not_elem_of_nil|].
  apply safe_bind.
  eapply (safe_loop (fun _ w' => wf_machine (w_st w') /\
    w_held w' = [state_access_mutex i : mutex vmm_iface] /\ live i (w_st w'))).
  - intros [] w1 (Hm1 & Hh1 & Hl1). pose proof Hl1 as (v1 & Hv1 & _).
    apply safe_bind, wp_safe. eapply wp_get_vcpu; [exact Hv1|].
    destruct (state v1 =? STATE_RUNNING); apply wp_safe.
    + apply wp_ret, wp_safe, wp_bind.
      eapply wp_mutex_unlock; [exact Hh1|not_held|]. apply wp_ret.
      split; [|by left]. by split.
    + vmm_go. destruct (others (w_trace w1) i (w_st w1) Hm1) as [Hm2 Hl2].
      split; [done|]. split; [done|]. by apply Hl2.
  - split; [done|]. split; [|done]. simpl. unfold set_field. by rewrite Hh.
Qed.

Lemma benign_comm f : benign (fun v => v <| comm ::= fmap f |>).
Proof.
  intros v. simpl. do 3 (split; [done|]). split; [by left|].
  intros [c Hc]. unfold set_field. by rewrite Hc.
Qed.

Lemma io_ok_inv data w r w' : vcpu_inv i w -> io_ok i data w r w' -> vcpu_inv i w'.
Proof. intros (_ & _ & Hl) (H1 & H2 & _ & _ & H5 & _). split; [done|]. split; [done|]. auto. Qed.

(** Storing the data of an access back into the shared page. *)
Lemma store_back f (r : Z) w :
  vcpu_inv i w -> safe (set_comm i f;; mret r) (fun _ w' => vcpu_inv i w') w.
Proof.
  intros Hinv. apply wp_safe, wp_bind, wp_set_vcpu, wp_ret.
  eapply benign_inv; [apply (benign_comm f)|exact Hinv|reflexivity|done].
Qed.

Lemma handleExit_safe fuel stack v run w :
  vcpu_inv i w -> vcpu_at (w_st w) i = Some v -> comm v = Some run -> run_ok run ->
  safe (handleExit env fuel stack i) (fun _ w' => vcpu_inv i w') w.
Proof.
  intros Hinv Hv Hc [Hio Hmm]. pose proof Hinv as (Hm & Hh & Hlive). unfold handleExit.
  apply safe_bind, wp_safe. eapply wp_get_comm; [exact Hv|exact Hc|].
  destruct (_ =? KVM_EXIT_HLT).
  { apply safe_bind, wp_safe, wp_set_vcpu.
    eapply safe_mono; [apply waitForSipi_safe|by intros r w' [? _]].
    eapply benign_inv with (f := fun v => v <| state := STATE_HALTED |>);
      [|exact Hinv|done|done]. intros u. simpl. auto 10. }
  destruct (_ =? KVM_EXIT_SHUTDOWN).
  { apply safe_bind, wp_safe. eapply wp_get_vcpu; [exact Hv|].
    apply safe_bind. unfold get_and_dump_sregs. apply safe_bind, wp_safe. vmm_step.
    destruct (_ =? -1); [done|]. apply wp_safe, wp_ret, wp_safe, wp_ret.
    by eapply vcpu_inv_trace. }
  destruct (_ =? KVM_EXIT_IO).
  { assert (forall direction, safe (
      r ← dbusHandlePioAccess env stack i (r_io_port run) (r_io_data run) direction
            (r_io_size run) (r_io_count run);
      set_comm i (fun c => c <| r_io_data := r.2 |>);; mret r.1)
      (fun _ w' => vcpu_inv i w') w) as Hacc.
    { intros direction. apply safe_bind, wp_safe. eapply wp_mono;
        [exact (pio_safe env stack i v _ w Hm Hh Hv in_parent _ direction _ _ Hio)|].
      intros r w' Hr. apply store_back. by eapply io_ok_inv. }
    cbv zeta. destruct (_ =? KVM_EXIT_IO_IN); [apply Hacc|].
    destruct (_ =? KVM_EXIT_IO_OUT); [apply Hacc|]. by apply wp_safe, wp_ret. }
  destruct (_ =? KVM_EXIT_MMIO).
  { apply safe_bind, wp_safe. eapply wp_mono;
      [exact (mmio_safe env stack i v _ w Hm Hh Hv in_parent _ _ _ Hmm)|].
    intros r w' Hr. apply store_back. by eapply io_ok_inv. }
  destruct (_ =? KVM_EXIT_IRQ_WINDOW_OPEN); by apply wp_safe, wp_ret.
Qed.

(** The guest has run and its page is there for the [switch]. *)
Lemma enterGuest_spec w :
  vcpu_inv i w ->
  upto ok (enterGuest env i) (fun _ w' => vcpu_inv i w' /\ exists v' tr fd,
    vcpu_at (w_st w') i = Some v' /\ comm v' = Some (env tr (KVM_RUN fd)).2) w.
Proof.
  intros Hinv. pose proof Hinv as (Hm & Hh & v & Hv & Hc). unfold enterGuest.
  apply upto_bind, wp_upto. eapply wp_get_vcpu; [exact Hv|].
  apply upto_bind, wp_upto.
  eapply (wp_mono _ (fun _ w' => vcpu_inv i w')).
  { destruct (dirty v); [|by apply wp_ret].
    apply wp_bind. eapply wp_mono; [by apply hvSetVcpuRegisters_spec|].
    intros _ w1 [Ht _]. apply wp_set_vcpu.
    eapply benign_inv with (f := fun v => v <| dirty := false |>);
      [|by eapply vcpu_inv_trace|done|done]. intros u. simpl. auto 10. }
  intros _ w1 Hinv1. pose proof Hinv1 as ((Hwf1 & Hdev1 & Hcr1) & Hh1 & v1 & Hv1 & [run1 Hc1]).
  destruct (wf_queue _ Hwf1) as [l Hp].
  apply upto_bind, wp_upto.
  eapply wp_mono; [exact (checkAndSendInterrupt_spec env i v1 run1 l w1 Hwf1 Hh1 Hv1 Hc1 Hp)|].
  intros _ w2 (_ & [A1 A2 A3 A4 _ A6] & _).
  assert (vcpu_inv i w2) as Hinv2.
  { split; [split; [done|split; [|by apply A6]]|split].
    - destruct Hdev1 as (dl & Hdl & Hok). exists dl. by rewrite A4.
    - by rewrite A2.
    - apply A3. by exists v1; rewrite Hc1. }
  apply upto_bind, wp_upto. vmm_step. apply upto_bind, wp_upto, wp_set_vcpu.
  set (page := (env (w_trace w2) (KVM_RUN (driver_fd v))).2).
  set (w3 := _ <| w_st ::= _ |>).
  assert (vcpu_inv i w3) as Hinv3.
  { eapply benign_inv; [apply (benign_comm (fun _ => page))|exact Hinv2|reflexivity|done]. }
  destruct Hinv2 as (_ & _ & v2 & Hv2 & [run2 Hc2]).
  assert (exists v3, vcpu_at (w_st w3) i = Some v3 /\ comm v3 = Some page) as (v3 & Hv3 & Hc3).
  { exists (v2 <| comm ::= fmap (fun _ => page) |>). split.
    - etransitivity; [apply vcpu_at_map_same|]. exact (f_equal (fmap _) Hv2).
    - simpl. unfold set_field. by rewrite Hc2. }
  apply upto_bind. eapply upto_mono; [exact (hvGetVcpuRegisters_spec v3 w3 Hinv3 Hv3)|].
  intros _ w4 (Hinv4 & v4 & Hv4 & Hc4). apply wp_upto, wp_ret. split; [done|].
  exists v4, (w_trace w2), (driver_fd v). split; [done|]. by rewrite Hc4.
Qed.

Lemma runOnce_safe fuel stack w :
  vcpu_inv i w -> upto ok (runOnce env fuel stack i) (fun _ w' => vcpu_inv i w') w.
Proof.
  intros Hinv. unfold runOnce. apply upto_bind.
  eapply upto_mono; [by apply enterGuest_spec|].
  intros _ w1 (Hinv1 & v1 & tr & fd & Hv1 & Hc1).
  apply (safe_upto ok _ _ _ ok_stops); eapply handleExit_safe; [done|exact Hv1|exact Hc1|]. apply pages.
Qed.

Lemma hvRunVcpu_upto fuel stack w :
  vcpu_inv i w -> upto ok (hvRunVcpu env fuel stack i) (fun r w' => vcpu_inv i w' /\ r <> 0) w.
Proof.
  intros Hinv. unfold hvRunVcpu.
  eapply (upto_loop _ (fun _ w' => vcpu_inv i w')); [by apply ok_stops| |exact Hinv].
  intros [] w1 Hinv1. apply upto_bind. eapply upto_mono; [by apply runOnce_safe|].
  intros r w2 Hinv2. apply wp_upto, wp_ret. destruct (r =? 0) eqn:Hr; [done|].
  split; [done|]. by apply Z.eqb_neq.
Qed.
End Running.

(** The ways in which the run of a CPU may stop: the process ends, a thread
    waits, the run goes on beyond the fuel, or the driver's answer to
    KVM_GET_SREGS went to a stray address. *)
Definition run_stops (f : fault) : bool :=
  match f with StrayStore => true | _ => Effects.stops f end.

Lemma run_stops_all (f : fault) : Effects.stops f = true -> run_stops f = true.
Proof. by destruct f. Qed.
