(* ===== verification/Vmm.v ===== *)
(** * Vmm: the monitor program (vmm.c)

    The program is written against the hypervisor interface of inc/vmm.h,
    which is the record [backend] here; [kvm_backend] is the implementation in
    kvm/kvmstubs.c.  [Backend] states what the monitor relies on. *)

From S2P Require Import Prelude Effects Libc Wire Machine Apic DeviceBus Kvm.
From Stdlib Require Import Ascii.

Definition sizeof_vcpu := 552.
Definition sizeof_pthread_t := 8.
Definition DEFAULT_VM_STORE_DIR : string := "/tmp/vms/".

(** The functions that inc/vmm.h declares. *)
Record backend := {
  be_init : vmm_prog (option hv_t);             (* hvInitHypervisor *)
  be_create_vcpu : nat -> vmm_prog Z;           (* hvCreateVcpu *)
  be_establish_comm : nat -> vmm_prog Z;        (* hvEstablishComm *)
  be_set_registers : nat -> vmm_prog Z;         (* hvSetVcpuRegisters *)
  be_set_cpuid : nat -> vmm_prog Z;             (* hvSetCpuid *)
  be_set_memory : Z -> Z -> Z -> bool -> vmm_prog Z;  (* hvSetMemory *)
  be_del_memory : Z -> vmm_prog unit;           (* hvDelMemory *)
  be_run_vcpu : nat -> nat -> vmm_prog Z;       (* hvRunVcpu, with its fuel *)
}.

Definition kvm_backend (env : vmm_env) (stack : bytes) : backend := {|
  be_init := hvInitHypervisor env;
  be_create_vcpu := hvCreateVcpu env;
  be_establish_comm := hvEstablishComm env;
  be_set_registers := hvSetVcpuRegisters env;
  be_set_cpuid := hvSetCpuid env;
  be_set_memory := hvSetMemory env;
  be_del_memory := hvDelMemory env;
  be_run_vcpu := fun fuel => hvRunVcpu env fuel stack;
|}.

(** ** The reset state of a CPU *)

Definition code_flags := Z.lor (Z.lor (Z.lor (Z.lor DESC_P_MASK DESC_S_MASK) DESC_CS_MASK)
  DESC_R_MASK) DESC_A_MASK.
Definition data_flags := Z.lor (Z.lor (Z.lor DESC_P_MASK DESC_S_MASK) DESC_W_MASK) DESC_A_MASK.

Definition reset_regs (bsp : bool) : x86_cpu_regs_t :=
  let data := Segment 0x0 0x0 0xffff data_flags in
  let apic := Z.lor APIC_DEFAULT_ADDRESS MSR_IA32_APICBASE_ENABLE in
  regs_zero
    <| a20_mask := -1 |>
    <| control ::= <[0%nat := 0x60000010]> |>
    <| idt ::= fun d => d <| limit := 0xffff |> |>
    <| gdt ::= fun d => d <| limit := 0xffff |> |>
    <| ldt ::= fun d => d <| limit := 0xffff |>
         <| flags := Z.lor DESC_P_MASK (Z.shiftl 2 DESC_TYPE_SHIFT) |> |>
    <| tr ::= fun d => d <| limit := 0xffff |>
         <| flags := Z.lor DESC_P_MASK (Z.shiftl 11 DESC_TYPE_SHIFT) |> |>
    <| segment ::= fun l =>
         <[S_GS := data]> (<[S_FS := data]> (<[S_SS := data]> (<[S_ES := data]> (<[S_DS := data]>
         (<[S_CS := Segment 0xf000 0xf0000 0xffff code_flags]> l))))) |>
    <| eip := 0xfff0 |>
    <| gpr ::= <[G_EDX := 0x663]> |>
    <| eflags := 0x2 |>
    <| tpr := 0 |>
    <| apicbase := if bsp then Z.lor apic MSR_IA32_APICBASE_BSP else apic |>.

Definition x86CpuReset (vcpu : nat) (bsp : bool) : vmm_prog unit :=
  set_vcpu vcpu (fun v => v <| regs := reset_regs bsp |>).

Section Vmm.
Context (env : vmm_env) (be : backend).

Definition runVcpu (fuel vcpu : nat) : vmm_prog Z := be_run_vcpu be fuel vcpu.

(** ** Guest memory *)

Definition set_hv (f : hv_t -> hv_t) : vmm_prog unit := modify (fun s => s <| g_hv ::= f |>).

Definition munmap_if (addr len : Z) : vmm_prog unit :=
  if negb (addr =? 0) then _ ← os env (Munmap addr len); mret tt else mret tt.
Definition close_if (fd : Z) : vmm_prog unit :=
  if negb (fd =? 0) then _ ← os env (Close fd); mret tt else mret tt.

(** The label [cleanup] of [setupGuestMemory]. *)
Definition cleanupMemory (ret : Z) : vmm_prog Z :=
  s ← gets (fun s => s);
  let h := g_hv s in
  close_if (fw_memfd h);;
  close_if (sys_memfd h);;
  (if negb (fw_mem_id h =? 0) then
     be_del_memory be (fw_mem_id h);; set_hv (fun h => h <| fw_mem_id := 0 |>) else mret tt);;
  (if negb (vga_mem_id h =? 0) then
     be_del_memory be (vga_mem_id h);; set_hv (fun h => h <| vga_mem_id := 0 |>) else mret tt);;
  (if negb (sys_mem_id h =? 0) then
     be_del_memory be (sys_mem_id h);; set_hv (fun h => h <| sys_mem_id := 0 |>) else mret tt);;
  (if negb (bios_rom_mem_id h =? 0) then
     be_del_memory be (bios_rom_mem_id h);; set_hv (fun h => h <| bios_rom_mem_id := 0 |>)
   else mret tt);;
  munmap_if (fw h) (fw_size h);;
  munmap_if (vga h) (vga_size h);;
  munmap_if (bios_rom h) (bios_rom_size h);;
  munmap_if (sys_mem h) (sys_mem_size h);;
  mret ret.

(** [MAP_FAILED] is -1; [mmap] returns it as an address. *)
Definition MAP_FAILED := -1.

Definition setupGuestMemory : vmm_prog Z :=
  ret ← os env (Memfd_create "vmram");
  if ret <? 0 then mret ret else
  set_hv (fun h => h <| fw_memfd := ret |>);;
  let memfd := ret in
  ret ← os env (Ftruncate memfd HOST_FW_SIZE);
  if ret <? 0 then cleanupMemory ret else
  a ← os env (Mmap HOST_FW_VADDR HOST_FW_SIZE false true true memfd);
  set_hv (fun h => h <| fw_size := HOST_FW_SIZE |> <| fw := a |>);;
  if a =? MAP_FAILED then cleanupMemory (-1) else
  ret ← be_set_memory be a HOST_FW_SIZE GUEST_FW_PADDR false;
  if ret <? 0 then cleanupMemory ret else
  set_hv (fun h => h <| fw_mem_id := ret |>);;
  ret ← os env (Memfd_create "vmsysmem");
  if ret <? 0 then mret ret else
  set_hv (fun h => h <| sys_memfd := ret |>);;
  let memfd := ret in
  ret ← os env (Ftruncate memfd HOST_SYS_MEM_SIZE);
  if ret <? 0 then cleanupMemory ret else
  a ← os env (Mmap HOST_SYS_MEM_VADDR HOST_SYS_MEM_SIZE false true true memfd);
  set_hv (fun h => h <| sys_mem_size := HOST_SYS_MEM_SIZE |> <| sys_mem := a |>);;
  if a =? MAP_FAILED then cleanupMemory (-1) else
  ret ← be_set_memory be a HOST_SYS_MEM_SIZE GUEST_SYS_MEM_PADDR false;
  if ret <? 0 then cleanupMemory ret else
  set_hv (fun h => h <| sys_mem_id := ret |>);;
  a ← os env (Mmap HOST_BIOS_VADDR HOST_BIOS_SIZE true true true (-1));
  set_hv (fun h => h <| bios_rom_size := HOST_BIOS_SIZE |> <| bios_rom := a |>);;
  if a =? MAP_FAILED then cleanupMemory (-1) else
  fd ← os env (Open "bios/bios");
  if fd <? 0 then cleanupMemory (-1) else
  ret ← os env (Read_to fd (a + 0x3c000) 0x4000);
  if ret <? 0 then cleanupMemory (-1) else
  _ ← os env (Close fd);
  ret ← be_set_memory be a HOST_BIOS_SIZE GUEST_BIOS_PADDR true;
  if ret <? 0 then cleanupMemory ret else
  set_hv (fun h => h <| bios_rom_mem_id := ret |>);;
  mret 0.

(** ** Virtual CPUs *)

Definition initVcpu (vcpu : nat) (bsp : bool) : vmm_prog Z :=
  ret ← be_create_vcpu be vcpu;
  if ret <? 0 then mret ret else
  set_vcpu vcpu (fun v => v <| driver_fd := ret |> <| dirty := true |>
    <| state := if bsp then STATE_RUNNING else STATE_NOT_STARTED |>);;
  ret ← be_establish_comm be vcpu;
  if ret <? 0 then mret ret else
  x86CpuReset vcpu bsp;;
  ret ← be_set_registers be vcpu;
  if ret <? 0 then mret ret else
  be_set_cpuid be vcpu.

(** The result is the index of the new CPU, [None] for NULL. The array has
    [NR_MAX_VCPUS] elements. *)
Definition createVcpu : vmm_prog (option nat) :=
  ok ← os env (Malloc sizeof_vcpu);
  if negb ok then mret None else
  s ← gets (fun s => s);
  let nr := g_nvcpus s in
  modify (fun s => s <| g_nvcpus ::= fun n => u32 (n + 1) |>);;
  _ ← get_or OutOfBounds (znth (vcpus (g_hv s)) nr);
  set_hv (fun h => h <| vcpus ::= <[Z.to_nat nr := Some (vcpu_zero <| id := nr |>)]> |>);;
  mret (Some (Z.to_nat nr)).

(** The thread of a CPU. *)
Definition vcpuThread (fuel vcpu : nat) : vmm_prog Z :=
  v ← get_vcpu vcpu;
  (if state v =? STATE_NOT_STARTED then _ ← waitForSipi env fuel vcpu; mret tt else mret tt);;
  runVcpu fuel vcpu.

(** The second component: whether the thread's handle was set. *)
Definition startVcpuThread (bsp : bool) : vmm_prog (Z * bool) :=
  v ← createVcpu;
  match v with
  | None => mret (-1, false)
  | Some vcpu =>
      r ← initVcpu vcpu bsp;
      if r <? 0 then mret (-1, false) else
      r ← os env (Pthread_create (VcpuThread vcpu));
      if r <? 0 then mret (-1, false) else mret (0, r =? 0)
  end.

Definition handleSigterm : vmm_prog unit :=
  dbusTeardown env;;
  fail (Exited 0).

Definition initVmStore (vmname : string) : vmm_prog Z :=
  dir ← os env (Getenv "OOOWS_VM_STORE_DIR");
  let needsEnv := match dir with None => true | Some _ => false end in
  let path := default DEFAULT_VM_STORE_DIR dir in
  a ← os env (Access path);
  m ← (if a <? 0 then os env (Mkdir path) else mret 0);
  if m <? 0 then mret (-1) else
  dirfd ← os env (Open_dir path);
  if dirfd <? 0 then mret (-1) else
  a ← os env (Faccessat dirfd vmname);
  m ← (if a <? 0 then os env (Mkdirat dirfd vmname) else mret 0);
  if m <? 0 then mret (-1) else
  _ ← os env (Close dirfd);
  if needsEnv then
    r ← os env (Setenv "OOOWS_VM_STORE_DIR" path);
    mret (if r =? 0 then 0 else 1)
  else mret 0.

(** ** main *)

(** [atoi]: white space, an optional sign, decimal digits. *)
Fixpoint decimal (acc : Z) (l : chars) : Z :=
  match l with
  | c :: l =>
      let n := byte_of c in
      if (48 <=? n) && (n <=? 57) then decimal (10 * acc + (n - 48)) l else acc
  | [] => acc
  end.
Definition atoi (s : string) : Z :=
  match skip_space (String.list_ascii_of_string s) with
  | c :: l => i32 (if Ascii.eqb c "-" then - decimal 0 l
                   else if Ascii.eqb c "+" then decimal 0 l else decimal 0 (c :: l))
  | [] => 0
  end.

(** The loop that starts the threads: the handles set so far, and whether a
    start failed. *)
Fixpoint startThreads (started : list bool) (l : list nat) : vmm_prog (bool * list bool) :=
  match l with
  | [] => mret (true, started)
  | i :: l =>
      r ← startVcpuThread (Nat.eqb i 0);
      let started := started ++ [r.2] in
      if r.1 <? 0 then mret (false, started) else startThreads started l
  end.

(** [argv] without the program name. *)
Definition main (device0 : string) (argv : list string) : vmm_prog Z :=
  match argv with
  | vmname :: virtdisk :: rest =>
      r ← os env (Setenv "OOOWS_VM_NAME" vmname);
      if negb (r =? 0) then mret 1 else
      r ← os env (Setenv "OOOWS_VM_VIRTDISK" virtdisk);
      if negb (r =? 0) then mret 1 else
      r ← initVmStore vmname;
      if r <? 0 then mret 1 else
      let nvcpus := match rest with n :: _ => atoi n | [] => 1 end in
      let devconfigPath := match rest with _ :: p :: _ => p | _ => "devices.config"%string end in
      r ← dbusConfigFromFile env device0 devconfigPath;
      if negb (r =? 0) then mret 1 else
      r ← os env Atexit_dbusTeardown;
      if negb (r =? 0) then mret 1 else
      _ ← os env Signal_sigterm;
      hv ← be_init be;
      match hv with
      | None => mret 1
      | Some hv =>
          modify (fun s => s <| g_hv := hv |>);;
          _ ← get_ioapic;    (* the thread's number is stored in [g_hv->ioapic] *)
          r ← os env (Pthread_create IoApicThread);
          if r <? 0 then mret 1 else
          r ← setupGuestMemory;
          if r <? 0 then mret 1 else
          ok ← os env (Calloc (u64 (nvcpus * sizeof_pthread_t)));
          if negb ok then mret 1 else
          started ← startThreads [] (seq 0 (Z.to_nat nvcpus));
          if (started.1 : bool) then
            for_each (seq 0 (Z.to_nat nvcpus)) (fun i =>
              _ ← os env (Pthread_join (VcpuThread i)); mret tt);;
            mret 0
          else
            for_each (imap (fun i (b : bool) => (i, b)) started.2) (fun '(i, b) =>
              if (b : bool) then _ ← os env (Pthread_cancel (VcpuThread i)); mret tt else mret tt);;
            mret 1
      end
  | _ => mret 1
  end.
End Vmm.

Implicit Types (env : vmm_env) (w : vmm_world).

(** ** What the monitor relies on *)

Definition comm_only (f : vcpu_t -> vcpu_t) : Prop :=
  forall v, exists c, f v = v <| comm := c |>.

Class Backend (env : vmm_env) (be : backend) := {
  create_law : forall i w, is_Some (vcpu_at (w_st w) i) ->
    wp (be_create_vcpu be i) (fun _ w' => only_trace w w') w;
  comm_law : forall i v w, vcpu_at (w_st w) i = Some v ->
    wp (be_establish_comm be i) (fun r w' => w_held w' = w_held w /\
      exists f, comm_only f /\ w_st w' = map_vcpu i f (w_st w) /\
        (0 <= r -> is_Some (comm (f v)))) w;
  registers_law : forall i w, is_Some (vcpu_at (w_st w) i) ->
    wp (be_set_registers be i) (fun _ w' => only_trace w w') w;
  cpuid_law : forall i w, is_Some (vcpu_at (w_st w) i) ->
    wp (be_set_cpuid be i) (fun _ w' => only_trace w w') w;
  del_memory_law : forall slot w, wp (be_del_memory be slot) (fun _ w' => only_trace w w') w;
  run_law : forall fuel i w, vcpu_inv i w ->
    upto run_stops (be_run_vcpu be fuel i) (fun r w' => vcpu_inv i w' /\ r <> 0) w;
}.

Lemma map_vcpu_id i s : map_vcpu i (fun v => v) s = s.
Proof.
  destruct s as [h n l hp]. unfold map_vcpu, set_field; simpl. f_equal.
  destruct h; simpl. f_equal. apply list_alter_id. by intros [x|].
Qed.

Section KvmBackend.
Context (env : vmm_env) (stack : bytes).
Hypothesis in_parent : forall tr, env tr Fork <> 0.
Hypothesis pages : forall tr fd, run_ok (env tr (KVM_RUN fd)).2.
Hypothesis others : forall tr j s,
  wf_machine s -> wf_machine (env tr (Cond_wait j) s) /\
  forall k, live k s -> live k (env tr (Cond_wait j) s).
Hypothesis calloc_ok : forall tr n, env tr (Calloc n) = true.

Lemma kvm_comm_law i v w : vcpu_at (w_st w) i = Some v ->
  wp (hvEstablishComm env i) (fun r w' => w_held w' = w_held w /\
    exists f, comm_only f /\ w_st w' = map_vcpu i f (w_st w) /\
      (0 <= r -> is_Some (comm (f v)))) w.
Proof.
  intros Hv. unfold hvEstablishComm. vmm_go. destruct (_ <? 0) eqn:Hs.
  { apply wp_ret. split; [done|]. exists (fun v => v). rewrite map_vcpu_id.
    split; [|split; [done|apply Z.ltb_lt in Hs; simpl in *; lia]].
    intros u. exists (comm u). by destruct u. }
  clear Hs. apply wp_bind. eapply wp_get_vcpu; [exact Hv|]. vmm_step. vmm_step.
  destruct (_ <? 0) eqn:Hr; apply wp_bind, wp_set_vcpu, wp_ret; (split; [done|]).
  - exists (fun v => v <| comm := None |>). split; [intros u; by exists None|].
    split; [done|]. apply Z.ltb_lt in Hr. simpl in *. lia.
  - eexists (fun v => v <| comm := Some _ |>). split; [intros u; by eexists|].
    split; [reflexivity|]. by intros _.
Qed.

#[export] Instance kvm_backend_ok : Backend env (kvm_backend env stack).
Proof.
  constructor; cbn.
  - intros i w [v Hv]. unfold hvCreateVcpu. vmm_step. vmm_step. vmm_step.
    eapply wp_get_vcpu; [exact Hv|]. by vmm_step.
  - apply kvm_comm_law.
  - intros i w [v Hv]. eapply wp_mono; [by apply hvSetVcpuRegisters_spec|]. by intros r w' [? _].
  - intros i w [v Hv]. unfold hvSetCpuid. vmm_step. vmm_step. rewrite calloc_ok. simpl.
    apply wp_bind. eapply wp_get_vcpu; [exact Hv|]. by vmm_go.
  - intros slot w. unfold hvDelMemory. by vmm_go.
  - intros fuel i w. apply hvRunVcpu_upto; auto using run_stops_all.
Qed.
End KvmBackend.

(** ** Starting CPUs, against the interface *)

Section Client.
Context (env : vmm_env) (be : backend) `{!Backend env be}.

Lemma wp_set_hv f (Q : unit -> vmm_world -> Prop) w :
  Q tt (w <| w_st ::= fun s => s <| g_hv ::= f |> |>) -> wp (set_hv f) Q w.
Proof. done. Qed.

Definition add_vcpu (s : vmm_state) : vmm_state :=
  s <| g_nvcpus ::= fun n => u32 (n + 1) |>
    <| g_hv ::= fun h => h <| vcpus ::=
         <[Z.to_nat (g_nvcpus s) := Some (vcpu_zero <| id := g_nvcpus s |>)]> |> |>.

Lemma vcpu_at_add s i :
  (Z.to_nat (g_nvcpus s) < length (vcpus (g_hv s)))%nat ->
  vcpu_at (add_vcpu s) i =
  if decide (i = Z.to_nat (g_nvcpus s)) then Some (vcpu_zero <| id := g_nvcpus s |>)
  else vcpu_at s i.
Proof.
  intros Hlt. unfold vcpu_at, add_vcpu, set_field; simpl. case_decide as Hi.
  - subst i. by rewrite list_lookup_insert_eq.
  - by rewrite list_lookup_insert_ne.
Qed.

Lemma wf_add_vcpu s : wf_machine s -> g_nvcpus s < NR_MAX_VCPUS -> wf_machine (add_vcpu s).
Proof.
  intros (Hwf & Hdev & Hcr) Hn. pose proof (wf_nvcpus s Hwf) as Hn0.
  assert (u32 (g_nvcpus s + 1) = g_nvcpus s + 1) as Hu.
  { apply wrap_small. unfold in_width, NR_MAX_VCPUS in *. lia. }
  assert (Z.to_nat (g_nvcpus s) < length (vcpus (g_hv s)))%nat as Hlt.
  { rewrite (wf_vcpus s Hwf). lia. }
  split; [|split; [done|]].
  - destruct Hwf as [H1 H2 H3 H4 H5 H6]. constructor; try done.
    + simpl. unfold set_field. by rewrite length_insert.
    + simpl. unfold set_field. rewrite Hu. lia.
    + intros i v Hv. rewrite vcpu_at_add in Hv by done. case_decide as Hi.
      * injection Hv as <-. subst i. constructor; simpl; unfold set_field.
        -- lia.
        -- rewrite Hu. lia.
        -- by left.
        -- unfold in_width. lia.
        -- unfold in_width. lia.
      * destruct (H3 i v Hv). constructor; auto. simpl. unfold set_field. rewrite Hu. lia.
  - intros i Hi. simpl in Hi. unfold set_field in Hi. rewrite Hu in Hi.
    rewrite vcpu_at_add by done. case_decide; [by eexists|]. apply Hcr. lia.
Qed.

Lemma createVcpu_spec w :
  wf_machine (w_st w) -> g_nvcpus (w_st w) < NR_MAX_VCPUS ->
  wp (createVcpu env) (fun r w' => w_held w' = w_held w /\
    match r with
    | None => w_st w' = w_st w
    | Some i => i = Z.to_nat (g_nvcpus (w_st w)) /\ w_st w' = add_vcpu (w_st w)
    end) w.
Proof.
  intros (Hwf & _ & _) Hn. pose proof (wf_nvcpus _ Hwf). unfold createVcpu. vmm_step. vmm_step.
  destruct (env (w_trace w) _); simpl; [|by apply wp_ret].
  vmm_go. destruct (znth_is_Some (vcpus (g_hv (w_st w))) (g_nvcpus (w_st w))) as [o Ho].
  { rewrite (wf_vcpus _ Hwf). lia. }
  eapply wp_get_or; [exact Ho|]. apply wp_bind, wp_set_hv, wp_ret. done.
Qed.

(** The CPU after [initVcpu]: reset, to be loaded into the driver, running
    only if it is the bootstrap processor. *)
Definition started (bsp : bool) (v : vcpu_t) : Prop :=
  regs v = reset_regs bsp /\ dirty v = true /\ is_Some (comm v) /\
  state v = if bsp then STATE_RUNNING else STATE_NOT_STARTED.

Definition init_step (bsp : bool) (f : vcpu_t -> vcpu_t) : Prop :=
  forall v, id (f v) = id v /\ isr (f v) = isr v /\
    (regs (f v) = regs v \/ regs (f v) = reset_regs bsp) /\
    (state (f v) = state v \/ state (f v) = if bsp then STATE_RUNNING else STATE_NOT_STARTED).

Lemma wf_init_step bsp i f s : init_step bsp f -> wf_machine s -> wf_machine (map_vcpu i f s).
Proof.
  intros Hf. apply wf_machine_map_vcpu. intros v [H1 H2 H3 H4 H5].
  destruct (Hf v) as (E1 & E2 & E3 & E4). constructor; rewrite ?E1, ?E2; try done.
  - destruct E4 as [-> | ->]; [done|]. destruct bsp; auto.
  - destruct E3 as [-> | ->]; [done|]. destruct bsp; by vm_compute.
Qed.

(** The state changed at CPU [i] only, keeping the machine well formed. *)
Definition cpu_step (bsp : bool) (i : nat) (w w' : vmm_world) : Prop :=
  w_held w' = w_held w /\
  exists f, init_step bsp f /\ w_st w' = map_vcpu i f (w_st w).

Lemma cpu_step_refl bsp i w w' : only_trace w w' -> cpu_step bsp i w w'.
Proof.
  intros [Hst Hh]. split; [done|]. exists (fun v => v). split; [|by rewrite map_vcpu_id].
  intros v. auto.
Qed.

Lemma map_vcpu_compose i f g s : map_vcpu i g (map_vcpu i f s) = map_vcpu i (fun v => g (f v)) s.
Proof.
  destruct s as [h n l hp]. unfold map_vcpu, set_field; simpl. f_equal.
  destruct h; simpl. f_equal. apply list_eq. intros j.
  destruct (decide (j = i)) as [->|].
  - rewrite !list_lookup_alter_eq. by destruct (_ !! i) as [[]|].
  - by rewrite !list_lookup_alter_ne.
Qed.

Lemma init_step_trans bsp f g : init_step bsp f -> init_step bsp g ->
  init_step bsp (fun v => g (f v)).
Proof.
  intros Hf Hg v. destruct (Hf v) as (E1 & E2 & E3 & E4).
  destruct (Hg (f v)) as (F1 & F2 & F3 & F4). rewrite F1, F2, E1, E2.
  split; [done|]. split; [done|]. split.
  - destruct F3 as [-> | ->]; auto.
  - destruct F4 as [-> | ->]; auto.
Qed.

Lemma cpu_step_trans bsp i w1 w2 w3 :
  cpu_step bsp i w1 w2 -> cpu_step bsp i w2 w3 -> cpu_step bsp i w1 w3.
Proof.
  intros [H1 (f & Hf & Hst)] [H2 (g & Hg & Hst')]. split; [congruence|].
  exists (fun v => g (f v)). split; [by apply init_step_trans|].
  by rewrite Hst', Hst, map_vcpu_compose.
Qed.

Lemma cpu_step_at bsp i w w' v :
  cpu_step bsp i w w' -> vcpu_at (w_st w) i = Some v -> is_Some (vcpu_at (w_st w') i).
Proof. intros [_ (f & _ & ->)] Hv. rewrite vcpu_at_map_same, Hv. by eexists. Qed.

Lemma comm_only_init bsp f : comm_only f -> init_step bsp f.
Proof. intros Hf v. destruct (Hf v) as [c ->]. simpl. auto. Qed.

Lemma initVcpu_spec i v bsp w :
  vcpu_at (w_st w) i = Some v ->
  wp (initVcpu be i bsp) (fun r w' => cpu_step bsp i w w' /\
    (0 <= r -> exists v', vcpu_at (w_st w') i = Some v' /\ started bsp v')) w.
Proof.
  intros Hv. unfold initVcpu. apply wp_bind.
  eapply wp_mono; [apply create_law; by eexists|]. intros r w1 [Hst1 Hh1].
  destruct (r <? 0) eqn:Hr.
  { apply wp_ret. split; [by apply cpu_step_refl|]. apply Z.ltb_lt in Hr. lia. }
  apply wp_bind, wp_set_vcpu. set (f1 := fun v => v <| driver_fd := r |> <| dirty := true |>
    <| state := if bsp then STATE_RUNNING else STATE_NOT_STARTED |>).
  set (w2 := _ <| w_st ::= _ |>).
  assert (cpu_step bsp i w w2) as Hs2.
  { split; [done|]. exists f1. split; [intros u; simpl; auto|]. unfold w2; simpl. by rewrite Hst1. }
  assert (vcpu_at (w_st w2) i = Some (f1 v)) as Hv2.
  { unfold w2; simpl. by rewrite vcpu_at_map_same, Hst1, Hv. }
  apply wp_bind. eapply wp_mono; [by apply comm_law|].
  intros r3 w3 (Hh3 & f3 & Hf3 & Hst3 & Hc3).
  assert (cpu_step bsp i w w3) as Hs3.
  { eapply cpu_step_trans; [exact Hs2|]. split; [done|]. exists f3.
    split; [by apply comm_only_init|done]. }
  destruct (r3 <? 0) eqn:Hr3.
  { apply wp_ret. split; [done|]. apply Z.ltb_lt in Hr3. lia. }
  apply Z.ltb_ge in Hr3. specialize (Hc3 Hr3).
  apply wp_bind. unfold x86CpuReset. apply wp_set_vcpu.
  set (w4 := _ <| w_st ::= _ |>).
  assert (cpu_step bsp i w w4) as Hs4.
  { eapply cpu_step_trans; [exact Hs3|]. split; [done|]. eexists. split; [|reflexivity].
    intros u. simpl. auto. }
  assert (exists v4, vcpu_at (w_st w4) i = Some v4 /\ started bsp v4) as (v4 & Hv4 & Hstart).
  { exists ((f3 (f1 v)) <| regs := reset_regs bsp |>). split.
    - unfold w4; simpl. by rewrite vcpu_at_map_same, Hst3, vcpu_at_map_same, Hv2.
    - destruct (Hf3 (f1 v)) as [c Hc]. rewrite Hc in *. by repeat split. }
  apply wp_bind. eapply wp_mono; [apply registers_law; by eexists|]. intros r5 w5 Ht5.
  assert (cpu_step bsp i w w5) as Hs5.
  { eapply cpu_step_trans; [exact Hs4|by apply cpu_step_refl]. }
  destruct Ht5 as [Hst5 Hh5].
  destruct (r5 <? 0) eqn:Hr5.
  { apply wp_ret. split; [done|]. apply Z.ltb_lt in Hr5. lia. }
  eapply wp_mono; [apply cpuid_law; rewrite Hst5; by eexists|]. intros r6 w6 [Hst6 Hh6]. split.
  - eapply cpu_step_trans; [exact Hs5|by apply cpu_step_refl].
  - intros _. exists v4. by rewrite Hst6, Hst5.
Qed.

(** What one start leaves: a well-formed machine with one more CPU, or the
    same number when there was no memory for it. *)
Definition start_post (bsp : bool) (w : vmm_world) (r : Z) (w' : vmm_world) : Prop :=
  wf_machine (w_st w') /\ w_held w' = w_held w /\ (r = 0 \/ r = -1) /\
  (forall j v, j <> Z.to_nat (g_nvcpus (w_st w)) -> vcpu_at (w_st w) j = Some v ->
     vcpu_at (w_st w') j = Some v) /\
  (r = 0 -> g_nvcpus (w_st w') = g_nvcpus (w_st w) + 1 /\
     exists v, vcpu_at (w_st w') (Z.to_nat (g_nvcpus (w_st w))) = Some v /\ started bsp v).

Lemma startVcpuThread_spec bsp w :
  wf_machine (w_st w) -> g_nvcpus (w_st w) < NR_MAX_VCPUS ->
  wp (startVcpuThread env be bsp) (fun r w' => start_post bsp w r.1 w') w.
Proof.
  intros Hm Hn. unfold startVcpuThread. apply wp_bind.
  eapply wp_mono; [by apply createVcpu_spec|]. intros [i|] w1 [Hh1 Hr].
  2: { apply wp_ret. unfold start_post. rewrite Hr, Hh1. split; [done|]. split; [done|].
       split; [by right|]. split; [done|discriminate]. }
  destruct Hr as [-> Hst1]. pose proof (wf_add_vcpu _ Hm Hn) as Hm1.
  assert (Z.to_nat (g_nvcpus (w_st w)) < length (vcpus (g_hv (w_st w))))%nat as Hlt.
  { rewrite (wf_vcpus _ (proj1 Hm)). pose proof (wf_nvcpus _ (proj1 Hm)). lia. }
  set (n := Z.to_nat (g_nvcpus (w_st w))) in *.
  assert (vcpu_at (w_st w1) n = Some (vcpu_zero <| id := g_nvcpus (w_st w) |>)) as Hv1.
  { rewrite Hst1, vcpu_at_add by done. by rewrite decide_True. }
  apply wp_bind. eapply wp_mono; [by eapply initVcpu_spec|].
  intros r w2 [[Hh2 (f & Hf & Hst2)] Hok].
  assert (forall r' w', only_trace w2 w' -> (r' = 0 \/ r' = -1) -> (r' = 0 -> 0 <= r) ->
    start_post bsp w r' w') as Hend.
  { intros r' w' [Hst' Hh'] Hres Hr'. unfold start_post. rewrite Hst', Hh'.
    split; [|split; [|split; [done|split]]].
    - rewrite Hst2, Hst1. by apply wf_init_step with bsp.
    - congruence.
    - intros j v Hj Hv. rewrite Hst2, vcpu_at_map_other, Hst1, vcpu_at_add by done.
      by rewrite decide_False.
    - intros H0. split; [|by apply Hok, Hr'].
      rewrite Hst2, Hst1. simpl. unfold set_field. apply wrap_small.
      pose proof (wf_nvcpus _ (proj1 Hm)). unfold in_width, NR_MAX_VCPUS in *. lia. }
  destruct (r <? 0) eqn:Hr.
  { apply wp_ret, Hend; [done|by right|discriminate]. }
  apply Z.ltb_ge in Hr. vmm_step. vmm_step. destruct (_ <? 0).
  - apply wp_ret, Hend; [done|by right|discriminate].
  - apply wp_ret, Hend; [done|by left|done].
Qed.

(** All CPUs: the first is the bootstrap processor. *)
Lemma startThreads_spec (k : nat) : forall done (n : nat) w,
  wf_machine (w_st w) -> g_nvcpus (w_st w) = n -> (n + k <= NR_MAX_VCPUS)%nat ->
  (forall i : nat, (i < n)%nat -> exists v, vcpu_at (w_st w) i = Some v /\
     started (Nat.eqb i 0) v) ->
  wp (startThreads env be done (seq n k)) (fun r w' =>
    wf_machine (w_st w') /\ w_held w' = w_held w /\
    (r.1 = true -> g_nvcpus (w_st w') = (n + k)%nat /\
       forall i, (i < n + k)%nat -> exists v, vcpu_at (w_st w') i = Some v /\
         started (Nat.eqb i 0) v)) w.
Proof.
  induction k as [|k IH]; intros started0 n w Hm Hn Hk Hall; simpl.
  - apply wp_ret. split; [done|]. split; [done|]. intros _. rewrite Nat.add_0_r. auto.
  - apply wp_bind. eapply wp_mono; [apply (startVcpuThread_spec (Nat.eqb n 0)); [done|lia]|].
    intros r w1 (Hm1 & Hh1 & Hres & Hkeep & Hnew). rewrite Hn, Nat2Z.id in *.
    destruct (r.1 <? 0) eqn:Hr; [by apply wp_ret|]. apply Z.ltb_ge in Hr.
    destruct Hnew as [Hn1 Hv]; [lia|].
    eapply wp_mono; [apply (IH _ (S n) w1); [done|lia|lia|]|].
    + intros i Hi. destruct (decide (i = n)) as [->|]; [done|].
      destruct (Hall i) as (v & Hvi & Hs); [lia|]. exists v. split; [|done]. by apply Hkeep.
    + intros r' w' (H1 & H2 & H3). rewrite Hh1 in H2.
      replace (n + S k)%nat with (S n + k)%nat by lia. done.
Qed.
End Client.
