(* ===== verification/VmmProps.v ===== *)
(** * VmmProps: the properties of the monitor and of its KVM backend *)

From S2P Require Import Prelude Effects Libc Wire Machine Apic Samples DeviceBus Kvm Vmm.

Implicit Types (env : vmm_env) (w : vmm_world).

(** A segment register survives the conversion to the driver's format and
    back: base and limit are kept, the selector as 16 bits, and of the
    descriptor flags exactly the type, S, DPL, P, AVL, L, D/B and G bits. *)
Theorem segment_roundtrip seg :
  get_kvm_seg (set_kvm_seg seg) =
  Segment (u16 (selector seg)) (base seg) (limit seg) (Z.land (flags seg) 0xf0ff00).
Proof.
  destruct seg as [sel b l f]. pose proof (get_set_flags sel b l f) as Hf.
  unfold get_kvm_seg in *. cbn [flags] in Hf. by rewrite Hf.
Qed.

(** A descriptor as the driver reports it (every member within its bit
    field, unusable exactly when not present) survives the conversion to the
    monitor's format and back unchanged. *)
Theorem kvm_segment_roundtrip k : kvm_segment_ok k -> set_kvm_seg (get_kvm_seg k) = k.
Proof. apply set_get_kvm_seg. Qed.

Lemma kvm_segment_roundtrip_witness :
  set_kvm_seg (get_kvm_seg (KSegment 0xf0000 0xffff 0xf000 11 1 0 0 1 0 0 0 0 0)) =
  KSegment 0xf0000 0xffff 0xf000 11 1 0 0 1 0 0 0 0 0.
Proof.
  apply (kvm_segment_roundtrip (KSegment 0xf0000 0xffff 0xf000 11 1 0 0 1 0 0 0 0 0)).
  constructor; try (simpl; lia).
  - cbn. rewrite !Forall_cons. auto 12 using Forall_nil_2.
  - by vm_compute.
Defined.

(** A CPU after reset fetches its first instruction from the BIOS: the
    linear address CS.base + EIP lies in the BIOS region of the guest, within
    the part that the BIOS file is loaded to; CS is a present code segment, the
    APIC is enabled at its default address, and exactly the bootstrap processor
    is marked as such. *)
Theorem reset_vector bsp :
  let r := reset_regs bsp in
  let first := base (segment_at r S_CS) + eip r in
  GUEST_BIOS_PADDR + 0x3c000 <= first < GUEST_BIOS_PADDR + HOST_BIOS_SIZE /\
  k_present (set_kvm_seg (segment_at r S_CS)) = 1 /\
  k_type (set_kvm_seg (segment_at r S_CS)) = 11 /\
  Z.land (apicbase r) MSR_IA32_APICBASE_BASE = APIC_DEFAULT_ADDRESS /\
  Z.testbit (apicbase r) 11 = true /\ Z.testbit (apicbase r) 8 = bsp.
Proof. destruct bsp; vm_compute; done. Qed.

(** ** The run loop *)

Section RunWitness.
Lemma quiet_parent tr : quiet_env tr Fork <> 0.
Proof. discriminate. Qed.
Lemma quiet_pages tr fd : run_ok (quiet_env tr (KVM_RUN fd)).2.
Proof. split; simpl; lia. Qed.
Lemma quiet_others tr j s :
  wf_machine s -> wf_machine (quiet_env tr (Cond_wait j) s) /\
  forall k, live k s -> live k (quiet_env tr (Cond_wait j) s).
Proof.
  intros Hm. split.
  - apply wf_machine_map_vcpu; [|done]. intros v [? ? ? ? ?]. constructor; simpl; auto.
  - intros k. by apply live_map_vcpu.
Qed.
Lemma sample_inv st0 st1 :
  0 <= st0 <= 2 -> 0 <= st1 <= 2 -> vcpu_inv 0 (sample_world st0 st1).
Proof.
  intros. split; [|split; [done|by eexists]]. split; [by apply sample_wf|].
  split; [by exists []|apply sample_created].
Qed.
End RunWitness.

(** C1: Every finite run of a virtual CPU commits no fault but one: for any
    guest behaviour (every exit reason, port, address, width and direction), any
    answers of the driver, the devices and the system calls, and any number of
    rounds, no pointer is null, no array access out of bounds, no assertion
    fails and no mutex is taken twice or left behind; the machine stays well
    formed, provided the other threads keep it so while this one waits. The one
    fault is the store of KVM_GET_SREGS, whose argument the code passes by value
    (kvmstubs.c:278): the driver may write its answer to whatever address the
    argument register holds. Where the driver refuses that request or the
    address is not mapped, so that nothing is stored, the run commits no fault
    at all. *)
Theorem vcpu_run_safe env i fuel stack w :
  (forall tr, env tr Fork <> 0) ->
  (forall tr fd, run_ok (env tr (KVM_RUN fd)).2) ->
  (forall tr j s, wf_machine s -> wf_machine (env tr (Cond_wait j) s) /\
     forall k, live k s -> live k (env tr (Cond_wait j) s)) ->
  vcpu_inv i w ->
  upto run_stops (hvRunVcpu env fuel stack i) (fun r w' => vcpu_inv i w' /\ r <> 0) w /\
  ((forall tr fd sr, exists ret, env tr (KVM_GET_SREGS_by_value fd sr) = No_store ret) ->
   safe (hvRunVcpu env fuel stack i) (fun r w' => vcpu_inv i w' /\ r <> 0) w).
Proof.
  intros H1 H2 H3 Hinv. split; [|intros H4]; apply hvRunVcpu_upto; auto using run_stops_all.
Qed.

Lemma vcpu_run_safe_witness :
  safe (hvRunVcpu quiet_env 5 (replicate 28 0) 0) (fun r w' => vcpu_inv 0 w' /\ r <> 0)
    (sample_world 1 0).
Proof.
  apply (vcpu_run_safe quiet_env 0 5 (replicate 28 0) (sample_world 1 0)).
  - exact quiet_parent.
  - exact quiet_pages.
  - exact quiet_others.
  - apply sample_inv; lia.
  - intros tr fd sr. by exists (-1).
Defined.

(** The fault exists: when the driver finds the address mapped, the fetch of
    the registers after the first exit of the guest overwrites it. *)
Theorem fetch_can_store_anywhere env i v w :
  vcpu_at (w_st w) i = Some v ->
  (forall tr fd, 0 <= (env tr (KVM_GET_REGS fd)).1) ->
  (forall tr fd sr, env tr (KVM_GET_SREGS_by_value fd sr) = Stray_store) ->
  faults (hvGetVcpuRegisters env i) StrayStore w.
Proof.
  intros Hv Hr Hs. unfold hvGetVcpuRegisters. apply faults_then. eapply wp_get_vcpu; [exact Hv|].
  apply faults_then. vmm_step. rewrite (proj2 (Z.ltb_ge _ _)) by apply Hr.
  apply faults_then. vmm_step. apply faults_then. vmm_step. apply faults_first.
  rewrite Hs. by eexists.
Qed.

Definition stray_env : vmm_env := fun tr (c : vmm_call) =>
  match c return vmm_reply c with
  | KVM_GET_SREGS_by_value _ _ => Stray_store
  | c => quiet_env tr c
  end.

Lemma fetch_can_store_anywhere_witness :
  faults (hvGetVcpuRegisters stray_env 0) StrayStore (sample_world 1 0).
Proof.
  apply (fetch_can_store_anywhere stray_env 0 (sample_vcpu 0 1)); try reflexivity.
Defined.

(** A guest shutdown ends the run: when the driver reports a shutdown exit
    and can still be asked for the registers, and stores nothing at a stray
    address, the loop returns VM_SHUTDOWN in its first round, without a fault. *)
Theorem vcpu_shutdown env i fuel stack w :
  (forall tr fd, exit_reason (env tr (KVM_RUN fd)).2 = KVM_EXIT_SHUTDOWN) ->
  (forall tr fd, (env tr (KVM_GET_SREGS fd)).1 <> -1) ->
  (forall tr fd sr, exists ret, env tr (KVM_GET_SREGS_by_value fd sr) = No_store ret) ->
  vcpu_inv i w ->
  wp (hvRunVcpu env (S fuel) stack i) (fun r w' => r = VM_SHUTDOWN /\ vcpu_inv i w') w.
Proof.
  intros Hexit Hsregs Hno Hinv. unfold hvRunVcpu. apply wp_loop_inr, wp_bind, wp_bind.
  assert (wp (enterGuest env i) (fun _ w' => vcpu_inv i w' /\ exists v' tr fd,
    vcpu_at (w_st w') i = Some v' /\ comm v' = Some (env tr (KVM_RUN fd)).2) w) as He.
  { assert (forall A (m : vmm_prog A) Q, upto (fun _ => false) m Q w -> wp m Q w) as Hup.
    { intros A m Q. unfold upto, wp. by destruct (m w). }
    apply Hup, enterGuest_spec; [by right|done]. }
  eapply wp_mono; [exact He|]. intros _ w1 (Hinv1 & v1 & tr & fd & Hv1 & Hc1).
  unfold handleExit. apply wp_bind. eapply wp_get_comm; [exact Hv1|exact Hc1|].
  rewrite Hexit. cbn -[vcpu_inv]. apply wp_bind. eapply wp_get_vcpu; [exact Hv1|].
  unfold get_and_dump_sregs. vmm_go. rewrite (proj2 (Z.eqb_neq _ _)) by apply Hsregs.
  vmm_go. cbn -[vcpu_inv]. split; [done|]. by eapply vcpu_inv_trace.
Qed.

Definition shutdown_env : vmm_env := fun tr (c : vmm_call) =>
  match c return vmm_reply c with
  | KVM_RUN _ => (0, kvm_run_zero <| exit_reason := KVM_EXIT_SHUTDOWN |>)
  | c => quiet_env tr c
  end.

Lemma vcpu_shutdown_witness :
  wp (hvRunVcpu shutdown_env 1 [] 0) (fun r w' => r = VM_SHUTDOWN /\ vcpu_inv 0 w')
    (sample_world 1 0).
Proof.
  apply (vcpu_shutdown shutdown_env 0 0 []).
  - reflexivity.
  - discriminate.
  - intros tr fd sr. by exists (-1).
  - apply sample_inv; lia.
Defined.

(** The register fetch never sees the segment and control registers: the
    monitor's copy of them, of CR0 and of the APIC base is as it was before
    (when the request is refused) or zero, whatever the guest's registers are. *)
Theorem sregs_never_fetched env i v w :
  vcpu_at (w_st w) i = Some v ->
  (forall tr fd sr, exists ret, env tr (KVM_GET_SREGS_by_value fd sr) = No_store ret) ->
  wp (hvGetVcpuRegisters env i) (fun _ w' => exists v' k, vcpu_at (w_st w') i = Some v' /\
    (regs v' = regs v \/ regs v' = regs_from_kvm k (regs v) \/
     regs v' = sregs_from_kvm kvm_sregs_zero (regs_from_kvm k (regs v)))) w.
Proof.
  intros Hv Hs. unfold hvGetVcpuRegisters.
  apply wp_bind. eapply wp_get_vcpu; [exact Hv|]. vmm_step. vmm_step.
  set (k := (env (w_trace w) (KVM_GET_REGS (driver_fd v)))).
  destruct (_ <? 0); [apply wp_ret; exists v, k.2; auto|]. vmm_step. vmm_step. vmm_step. vmm_step.
  edestruct Hs as [ret ->]. vmm_step. vmm_step.
  destruct (_ <? 0); vmm_go; simpl; rewrite !vcpu_at_map_same, Hv; eexists _, k.2; auto.
Qed.

(** ** Guest memory *)

(** The memory slots that the calls in a trace register: slot number, flags,
    guest address and size. *)
Definition regions (tr : list vmm_call) : list (Z * Z * Z * Z) :=
  omap (fun c => match c with
                 | KVM_SET_USER_MEMORY_REGION _ slot flags gpa size _ => Some (slot, flags, gpa, size)
                 | _ => None
                 end) tr.

Definition disjoint_regions (l : list (Z * Z * Z * Z)) : Prop :=
  forall i j ri rj, i <> j -> l !! i = Some ri -> l !! j = Some rj ->
    let '(_, _, gpa, size) := ri in
    let '(_, _, gpa', size') := rj in
    gpa + size <= gpa' \/ gpa' + size' <= gpa.

Lemma cleanupMemory_spec env stack ret w :
  wp (cleanupMemory env (kvm_backend env stack) ret) (fun r _ => r = ret) w.
Proof.
  unfold cleanupMemory, close_if, munmap_if. apply wp_bind, wp_gets. cbv zeta.
  repeat (apply wp_total_bind; [apply total_if; intros w0; cbn; unfold hvDelMemory; by vmm_go|];
    intros _ ?).
  by apply wp_ret.
Qed.

Definition next_slot (s : vmm_state) : vmm_state :=
  s <| g_hv ::= fun h => h <| cur_slot ::= fun n => i32 (n + 1) |> |>.

Lemma hvSetMemory_spec env hva len gpa (ro : bool) (Q : Z -> vmm_world -> Prop) w :
  let slot := cur_slot (g_hv (w_st w)) in
  let c := KVM_SET_USER_MEMORY_REGION (vm_fd (g_hv (w_st w))) slot
             (if ro then KVM_MEM_READONLY else 0) gpa len hva in
  let w' := w <| w_st ::= next_slot |>
              <| w_trace := w_trace w ++ [c : call vmm_iface] |> in
  (env (w_trace w) c < 0 -> Q (-1) w') -> Q slot w' -> wp (hvSetMemory env hva len gpa ro) Q w.
Proof.
  intros slot c w' H1 H2. unfold hvSetMemory. vmm_go. destruct (_ <? 0) eqn:Hr; apply wp_ret; [|done].
  apply H1. by apply Z.ltb_lt.
Qed.

(** The system and the driver grant every request of the memory setup. *)
Record memory_granted (env : vmm_env) : Prop := {
  mg_memfd : forall tr n, 0 <= env tr (Memfd_create n);
  mg_ftruncate : forall tr f n, 0 <= env tr (Ftruncate f n);
  mg_mmap : forall tr a n b1 b2 b3 f, 0 <= a -> env tr (Mmap a n b1 b2 b3 f) <> MAP_FAILED;
  mg_open : forall tr n, 0 <= env tr (Open n);
  mg_read : forall tr f a n, 0 <= n -> 0 <= env tr (Read_to f a n);
  mg_region : forall tr v s f g n h, 0 <= env tr (KVM_SET_USER_MEMORY_REGION v s f g n h);
}.

(** [refused H law]: the answer in [H] contradicts [law]. *)
Ltac refused H law :=
  let G := fresh in
  intros G; exfalso;
  first [ apply Z.ltb_lt, Z.lt_nge in H; apply H; apply (law _ G); by vm_compute
        | apply Z.lt_nge in H; apply H; apply (law _ G); by vm_compute
        | apply Z.eqb_eq in H; revert H; apply (law _ G); by vm_compute ].

Definition pc_layout : list (Z * Z * Z * Z) :=
  [(0, 0, 0, 0xa0000); (1, 0, 0x100000, 0x100000); (2, KVM_MEM_READONLY, 0xc0000, 0x40000)].

Lemma pc_layout_disjoint : disjoint_regions pc_layout.
Proof.
  intros i j ri rj Hij Hi Hj.
  destruct i as [|[|[|i]]], j as [|[|[|j]]]; simplify_eq/=; lia.
Qed.

(** C31: The guest's memory is the layout of a PC. The setup succeeds whenever
    the system and the driver grant its requests, and when it succeeds the
    driver has been given exactly three slots, numbered 0 to 2 in this order:
    640 KiB of low memory at 0, 1 MiB of memory at 1 MiB, and 256 KiB of
    read-only BIOS below 1 MiB; no two of them overlap. *)
Theorem guest_memory_layout env stack w :
  cur_slot (g_hv (w_st w)) = 0 -> w_trace w = [] ->
  wp (setupGuestMemory env (kvm_backend env stack)) (fun r w' =>
    (memory_granted env -> r = 0) /\
    (r = 0 -> regions (w_trace w') = pc_layout /\ disjoint_regions pc_layout /\
      fw_mem_id (g_hv (w_st w')) = 0 /\ sys_mem_id (g_hv (w_st w')) = 1 /\
      bios_rom_mem_id (g_hv (w_st w')) = 2)) w.
Proof.
  intros Hslot Htr. pose proof pc_layout_disjoint as Hd.
  set (Q := fun (r : Z) (w' : vmm_world) => _ /\ _).
  assert (forall ret w', ret < 0 -> (memory_granted env -> ret = 0) -> Q ret w') as Hq
    by (intros ret w' ? ?; split; [done|lia]).
  assert (forall ret w', ret < 0 -> (memory_granted env -> ret = 0) ->
    wp (cleanupMemory env (kvm_backend env stack) ret) Q w') as Hc.
  { intros ret w' H1 H2. eapply wp_mono; [apply cleanupMemory_spec|]. intros r w'' ->. auto. }
  destruct w as [[h nv dl hp] tr held]. simpl in Hslot, Htr. subst tr.
  unfold setupGuestMemory. cbn [be_set_memory kvm_backend].
  vmm_step. vmm_step. destruct (_ <? 0) eqn:H; [apply wp_ret, Hq; [lia|refused H mg_memfd]|]. clear H.
  apply wp_bind, wp_set_hv. vmm_step. vmm_step.
  destruct (_ <? 0) eqn:H; [apply Hc; [lia|refused H mg_ftruncate]|]. clear H.
  vmm_step. vmm_step. apply wp_bind, wp_set_hv.
  destruct (_ =? MAP_FAILED) eqn:H; [apply Hc; [lia|refused H mg_mmap]|]. clear H.
  apply wp_bind, hvSetMemory_spec; [intros H; apply Hc; [lia|refused H mg_region]|].
  simpl. rewrite Hslot. simpl.
  apply wp_bind, wp_set_hv. vmm_step. vmm_step.
  destruct (_ <? 0) eqn:H; [apply wp_ret, Hq; [lia|refused H mg_memfd]|]. clear H.
  apply wp_bind, wp_set_hv. vmm_step. vmm_step.
  destruct (_ <? 0) eqn:H; [apply Hc; [lia|refused H mg_ftruncate]|]. clear H.
  vmm_step. vmm_step. apply wp_bind, wp_set_hv.
  destruct (_ =? MAP_FAILED) eqn:H; [apply Hc; [lia|refused H mg_mmap]|]. clear H.
  apply wp_bind, hvSetMemory_spec; [intros H; apply Hc; [lia|refused H mg_region]|].
  simpl. rewrite Hslot. simpl.
  apply wp_bind, wp_set_hv. vmm_step. vmm_step. apply wp_bind, wp_set_hv.
  destruct (_ =? MAP_FAILED) eqn:H; [apply Hc; [lia|refused H mg_mmap]|]. clear H.
  vmm_step. vmm_step. destruct (_ <? 0) eqn:H; [apply Hc; [lia|refused H mg_open]|]. clear H.
  vmm_step. vmm_step. destruct (_ <? 0) eqn:H; [apply Hc; [lia|refused H mg_read]|]. clear H.
  vmm_step. vmm_step.
  apply wp_bind, hvSetMemory_spec; [intros H; apply Hc; [lia|refused H mg_region]|].
  simpl. rewrite Hslot. simpl. apply wp_bind, wp_set_hv, wp_ret. split; done.
Qed.

Lemma quiet_granted : memory_granted quiet_env.
Proof. constructor; intros; simpl; try lia. unfold MAP_FAILED. lia. Qed.

Lemma guest_memory_layout_witness :
  wp (setupGuestMemory quiet_env (kvm_backend quiet_env [])) (fun r w' =>
    r = 0 /\ regions (w_trace w') = pc_layout) (sample_world 1 0).
Proof.
  eapply wp_mono.
  - apply (guest_memory_layout quiet_env [] (sample_world 1 0)); reflexivity.
  - intros r w' [H1 H2]. specialize (H1 quiet_granted). split; [done|]. by apply H2.
Defined.

(** ** Starting the CPUs *)

(** Starting up to four CPUs, on any hypervisor backend that keeps its
    interface promises, and with any failures on the way, keeps the machine
    well formed; when it succeeds there are exactly that many CPUs, each in the
    reset state and ready to be loaded, the first running and the others
    waiting for their startup interrupt. *)
Theorem start_all_cpus env be n w :
  Backend env be -> wf_machine (w_st w) -> g_nvcpus (w_st w) = 0 -> (n <= NR_MAX_VCPUS)%nat ->
  wp (startThreads env be [] (seq 0 n)) (fun r w' =>
    wf_machine (w_st w') /\ w_held w' = w_held w /\
    (r.1 = true -> g_nvcpus (w_st w') = n /\
      forall i, (i < n)%nat -> exists v, vcpu_at (w_st w') i = Some v /\
        started (Nat.eqb i 0) v)) w.
Proof.
  intros Hbe Hm H0 Hn. apply (startThreads_spec env be n [] 0 w Hm H0); [lia|].
  intros i Hi. lia.
Qed.

Lemma quiet_backend : Backend quiet_env (kvm_backend quiet_env (replicate 28 0)).
Proof. apply kvm_backend_ok; [exact quiet_parent|exact quiet_pages|exact quiet_others|done]. Qed.

(** The machine before any CPU exists. *)
Definition empty_state : vmm_state :=
  Vmm (hv_zero <| ioapic_p := Some ioapic_zero |>) 0 (Some []) ∅.

Lemma empty_wf : wf_machine empty_state.
Proof.
  split; [|split].
  - constructor; try done.
    + intros [|[|[|[|i]]]] v Hv; discriminate Hv.
    + repeat constructor; by vm_compute.
    + exists []. split; [by eexists|]. by vm_compute.
  - by exists [].
  - intros i Hi. simpl in Hi. lia.
Qed.

Lemma start_all_cpus_witness :
  wp (startThreads quiet_env (kvm_backend quiet_env (replicate 28 0)) [] (seq 0 4)) (fun r w' =>
    wf_machine (w_st w') /\ w_held w' = [] /\
    (r.1 = true -> g_nvcpus (w_st w') = 4%nat /\
      forall i, (i < 4)%nat -> exists v, vcpu_at (w_st w') i = Some v /\
        started (Nat.eqb i 0) v)) (World empty_state [] []).
Proof.
  apply (start_all_cpus quiet_env (kvm_backend quiet_env (replicate 28 0)) 4
    (World empty_state [] [])).
  - exact quiet_backend.
  - exact empty_wf.
  - reflexivity.
  - unfold NR_MAX_VCPUS. lia.
Defined.

(** Nothing stops a fifth CPU: [main] reports a count above the maximum
    and goes on, and the creation of one CPU more than the array holds writes
    behind the array. *)
Theorem fifth_cpu_out_of_bounds env w :
  env (w_trace w) (Malloc sizeof_vcpu) = true ->
  length (vcpus (g_hv (w_st w))) = NR_MAX_VCPUS -> g_nvcpus (w_st w) = NR_MAX_VCPUS ->
  exists w', createVcpu env w = Fault OutOfBounds w'.
Proof.
  intros Hok Hlen Hn.
  unfold createVcpu, mbind, prog_bind, os, sys, gets, modify. simpl. rewrite Hok. simpl.
  rewrite Hn. unfold znth. simpl.
  destruct (vcpus (g_hv (w_st w))) as [|v0 [|v1 [|v2 [|v3 [|]]]]]; try discriminate Hlen.
  by eexists.
Qed.

Lemma fifth_cpu_out_of_bounds_witness :
  exists w', createVcpu quiet_env
    (World (Vmm hv_zero 4 (Some []) ∅) [] []) = Fault OutOfBounds w'.
Proof. apply fifth_cpu_out_of_bounds; reflexivity. Defined.

(** A CPU that was never started can run: when its thread finds every CPU
    halted, [waitForSipi] says so, but the thread ignores the answer and enters
    the guest. *)
Theorem unstarted_cpu_enters_guest env be fuel i v w :
  vcpu_at (w_st w) i = Some v -> state v = STATE_NOT_STARTED ->
  (forall j : nat, j < g_nvcpus (w_st w) -> exists u, vcpu_at (w_st w) j = Some u /\
     state u <> STATE_RUNNING) ->
  vcpuThread env be fuel i w = be_run_vcpu be fuel i w.
Proof.
  intros Hv Hst Hall. unfold vcpuThread, runVcpu.
  assert (waitForSipi env fuel i w = Ret VM_SHUTDOWN w) as Hw.
  { unfold waitForSipi, mbind at 1, prog_bind at 1, gets.
    assert (forall l, (forall j, j ∈ l -> Z.of_nat j < g_nvcpus (w_st w)) ->
      allHalted true l w = Ret true w) as Hh.
    { induction l as [|j l IH]; intros Hl; simpl; [done|].
      destruct (Hall j) as (u & Hu & Hs); [apply Hl; by left|].
      apply vcpu_at_Some in Hu. unfold mbind, prog_bind, read_vcpus, gets, mbind, prog_bind.
      rewrite Hu. simpl. rewrite (proj2 (Z.eqb_neq _ _) Hs). apply IH.
      intros k Hk. apply Hl. by right. }
    unfold mbind, prog_bind. rewrite Hh; [done|]. intros j Hj%elem_of_seq. lia. }
  unfold mbind, prog_bind at 1, get_vcpu, mbind, prog_bind, gets. rewrite Hv. simpl.
  rewrite (proj2 (Z.eqb_eq _ _) Hst). unfold mbind, prog_bind. by rewrite Hw.
Qed.

Lemma unstarted_cpu_enters_guest_witness :
  vcpuThread quiet_env (kvm_backend quiet_env []) 3 1 (sample_world 2 0) =
  be_run_vcpu (kvm_backend quiet_env []) 3 1 (sample_world 2 0).
Proof.
  apply (unstarted_cpu_enters_guest quiet_env (kvm_backend quiet_env []) 3 1 (sample_vcpu 1 0)
    (sample_world 2 0)); try reflexivity.
  intros [|[|j]] Hj; [| |simpl in Hj; lia]; eexists; (split; [reflexivity|discriminate]).
Defined.
