(* ===== verification/Device.v ===== *)
(** * Device: what all device processes share (devices/utils)

    The system calls of a device process, the handshake with the monitor
    (handshake.c), the connection to the web frontend (coms.c) and the
    per-machine names (per-vm.c).  The functions work on any state [S] of a
    device. *)

From S2P Require Import Prelude Effects Libc Wire.

Inductive dev_thread :=
  | TxThread | IoThread (fd : Z) | PoolThread (i : nat)
  | ScratchThread | RamThread | InterpreterThread | PhyTxThread | PhyRxThread
  | RequestThread | ResponseThread
  | PoolWorker (i : nat) | EnclaveThread.

(** A signal.  [si_frame]: the system could put the frame of the handler on the
    stack that the thread has at that moment, and the handler could work on it. *)
Record siginfo_t := Siginfo { si_signo : Z; si_addr : Z; si_code : Z; si_pkey : Z; si_frame : bool }.

(** What the native code of a payload leaves behind: its result (rax), the memory
    of its enclave, the signals that it raised, and the way it came back.
    [pe_edge]: the eight bytes at the return address that the trampoline takes
    from the stack that the payload left to it.  [pe_home]: that address and that
    stack are the ones of the caller, rbx, r12, r14 and r15 have the values they
    had, and no memory changed but the data and the stack of the enclave. *)
Record payload_exit := PayloadExit {
  pe_result : Z;
  pe_data : bytes;
  pe_stack : bytes;
  pe_signals : list siginfo_t;
  pe_edge : Z;
  pe_home : bool;
}.

Inductive dev_call :=
  | DWrite (fd : Z) (data : bytes)
  | DRead (fd : Z) (n : nat)
  | DOpen (name : string)
  | DClose (fd : Z)
  | DCalloc (n : Z)
  | DFree (n : Z)
  | DGetenv (name : string)
  | DShmUnlink (name : string)
  | DShmOpen (name : string) (rdonly : bool)
  | DFtruncate (fd n : Z)
  | DMmap (n fd : Z)
  | DMunmap (n : Z)
  | DUnlink (name : string)
  | DSocket
  | DBind (fd : Z) (path : string)
  | DListen (fd : Z)
  | DAccept (fd : Z)
  | DSignal
  | DThread_create (t : dev_thread)
  | DThread_join (t : dev_thread)
  | DThread_cancel (t : dev_thread)
  | DCond_signal
  | DCond_wait
  | DNew (n : Z)                  (* operator new: what its memory held before *)
  | DPublish (payload : bytes)    (* mosquitto_publish *)
  | DStat (path : bytes)
  | DOpenFile (path : bytes) (flags mode : Z)
  | DLseek (fd offset : Z)
  | DMkdir (path : bytes) (mode : Z)
  | DUnlinkFile (path : bytes)
  | DRealpath (path : bytes)
  | DMapFile (fd : Z)
  | DPkey_alloc
  | DPkey_mprotect (region : string) (prot label : Z)
  | DMprotect (enclave prot : Z)
  | DRandombytes (n : Z)
  | DReadFile (path : string)
  | DSigaltstack
  | DPayload (label : Z) (code data stack : bytes).  (* runs native code *)

Definition dev_reply (c : dev_call) : Type :=
  match c with
  | DRead _ _ => Z * bytes      (* the result and the bytes read *)
  | DNew _ => bytes
  | DCalloc _ => bool
  | DGetenv _ => option string
  | DStat _ => option (Z * Z)   (* st_mode and st_size *)
  | DRealpath _ | DMapFile _ => option bytes
  | DRandombytes _ | DReadFile _ => bytes
  | DPayload _ _ _ _ => payload_exit
  | _ => Z
  end.

Inductive dev_mutex := vga_lock | work_mutex | virtio_lock | device_mutex | queue_mutex | enclave_mutex (i : nat).
#[export] Instance dev_mutex_eq_dec : EqDecision dev_mutex.
Proof. solve_decision. Defined.

Definition dev_iface : iface := Iface dev_call dev_reply dev_mutex _.
Abbreviation dev_env := (environment dev_iface).
Abbreviation dev_world := (world dev_iface).
Abbreviation dev_prog := (prog dev_iface).

Definition dos {S} (env : dev_env) (c : dev_call) : dev_prog S (dev_reply c) :=
  sys (I := dev_iface) env c.
Definition dlock {S} (m : dev_mutex) : dev_prog S unit := lock (I := dev_iface) m.
Definition dunlock {S} (m : dev_mutex) : dev_prog S unit := unlock (I := dev_iface) m.

Lemma wp_dos {S} env c (Q : dev_reply c -> dev_world S -> Prop) (w : dev_world S) :
  Q (env (w_trace w) c) (w <| w_trace := w_trace w ++ [c : call dev_iface] |>) ->
  wp (dos env c) Q w.
Proof. done. Qed.

Lemma wp_dlock {S} (m : dev_mutex) (Q : unit -> dev_world S -> Prop)
    (w : dev_world S) :
  m ∉ (w_held w : list dev_mutex) -> Q tt (w <| w_held ::= cons (m : mutex dev_iface) |>) ->
  wp (dlock m) Q w.
Proof. apply (wp_lock (I := dev_iface) m). Qed.

Lemma wp_dunlock {S} (m : dev_mutex) (h : list dev_mutex) (Q : unit -> dev_world S -> Prop)
    (w : dev_world S) :
  w_held w = m :: h -> m ∉ (h : list dev_mutex) ->
  Q tt (w <| w_held := (h : list (mutex dev_iface)) |>) -> wp (dunlock m) Q w.
Proof. apply (wp_unlock (I := dev_iface) m h). Qed.

Ltac dev_step :=
  first
    [ wp_step
    | lazymatch goal with |- wp (dos ?e ?c) ?Q ?w => refine (wp_dos e c Q w _) end; cbv beta ].
Ltac dev_go := repeat dev_step.

Section Utils.
Context {S : Type} (env : dev_env).

(** ** handshake.c *)

Definition DeviceWrite (fd : Z) (str : string) : dev_prog S Z :=
  err ← dos env (DWrite fd (string_bytes str));
  mret (if err =? length (string_bytes str) then 0 else -1).

(** The number of descriptors before the first zero. *)
Fixpoint count_fds (l : list Z) : nat :=
  match l with
  | fd :: l => if fd =? 0 then 0%nat else Datatypes.S (count_fds l)
  | [] => 0%nat
  end.

(** The result, [vcpu_fds] and [*nvcpus]; the caller's variables keep their
    zeros when the read fails. *)
Definition DeviceHandshake (fd : Z) : dev_prog S (Z * list Z * Z) :=
  _ ← DeviceWrite fd "INIT";
  r ← dos env (DRead fd sizeof_init_response);
  let init := blit (replicate sizeof_init_response 0) 0 (take sizeof_init_response r.2) in
  if u64 r.1 <? sizeof_init_response then mret (-1, replicate 4 0, 0) else
  let ret := strncmp 4 (load init 0 4) (string_bytes "TINI") in
  let fds := load_init_fds init in
  mret (ret, fds, Z.of_nat (count_fds fds)).

Definition HandledRequest (fd val : Z) : dev_prog S Z :=
  dos env (DWrite fd (le_bytes 4 val)).

(** ** per-vm.c *)

Definition createShm (name : string) (is_rdonly : bool) : dev_prog S Z :=
  _ ← dos env (DShmUnlink name);
  fd ← dos env (DShmOpen name is_rdonly);
  if fd <? 0 then mret (-1) else mret fd.

Definition concatName (base : string) : dev_prog S (option string) :=
  vmname ← dos env (DGetenv "OOOWS_VM_NAME");
  match vmname with
  | None => mret None
  | Some vmname =>
      ok ← dos env (DCalloc (String.length base + String.length vmname + 2));
      if negb ok then mret None else mret (Some (base +:+ "-" +:+ vmname))
  end.

(** ** coms.c *)

Record com_t := Com {
  com_name : string;
  com_cachepath : string;
  com_sun_path : string;
  com_fd : Z;
  com_client_fd : Z;
  com_num_clients : Z;
  com_handshake : bool;      (* whether the callback is set *)
}.
#[local] Instance com_eta : Settable com_t := fun c =>
  Com (com_name c) (com_cachepath c) (com_sun_path c) (com_fd c) (com_client_fd c)
    (com_num_clients c) (com_handshake c).

Definition sizeof_sockaddr_un := 110.
Definition sizeof_com := 64.
Definition sizeof_sun_path : nat := 108.

Definition CreateCom (name : string) : dev_prog S (option com_t) :=
  addr ← dos env (DCalloc sizeof_sockaddr_un);
  com ← dos env (DCalloc sizeof_com);
  if negb (com && addr) then mret None else
  fd ← dos env DSocket;
  if fd =? -1 then mret None else
  cache ← dos env (DCalloc (String.length name + 6 + 1));
  if negb cache then mret None else
  mret (Some (Com name (name +:+ "-cache") (String.substring 0 (sizeof_sun_path - 1) name) fd
                (-1) 0 false)).

Definition InitCom (name : string) (handshake : bool) : dev_prog S (option com_t) :=
  com ← CreateCom name;
  match com with
  | None => mret None
  | Some com =>
      let com := if handshake then com <| com_handshake := true |> else com in
      _ ← dos env (DThread_create TxThread);
      mret (Some com)
  end.

Definition DestroyCom (com : com_t) : dev_prog S unit :=
  _ ← dos env (DFree sizeof_sockaddr_un);
  _ ← dos env (DFree sizeof_com);
  mret tt.

Definition SetHandshake (com : com_t) : com_t := com <| com_handshake := true |>.

Definition SendMessage (com : com_t) (data : bytes) : dev_prog S Z :=
  if com_client_fd com <? 0 then mret (-1) else
  fd ← dos env (DOpen (com_cachepath com));
  (if 0 <=? fd then
     _ ← dos env (DWrite fd data);
     _ ← dos env (DClose fd);
     mret tt
   else mret tt);;
  nwrote ← dos env (DWrite (com_client_fd com) data);
  mret (if nwrote =? length data then 0 else -1).

(** The connection thread: it serves one client at a time, the newest. [put]
    stores the structure back, [handshake] is the callback. *)
Definition TxHandler (fuel : nat) (com : com_t) (put : com_t -> dev_prog S unit)
    (handshake : com_t -> dev_prog S unit) : dev_prog S unit :=
  _ ← dos env (DBind (com_fd com) (com_sun_path com));
  _ ← dos env (DListen (com_fd com));
  loop fuel (fun com =>
    client_fd ← dos env (DAccept (com_fd com));
    if client_fd <? 0 then mret (inr tt) else
    let com1 := com <| com_num_clients := 1 |> in
    _ ← dos env (DClose (com_client_fd com1));
    let com2 := com1 <| com_client_fd := client_fd |> in
    put com2;;
    (if com_handshake com2 then handshake com2 else mret tt);;
    mret (inl com2)) com.
End Utils.

#[export] Existing Instance com_eta.

(** What other threads, or the guest, do to the state while this thread waits;
    an arbitrary function of the history. *)
Definition interfere {S} (others : list dev_call -> S -> S) : dev_prog S unit :=
  fun w : dev_world S => Ret tt (w <| w_st ::= others (w_trace w) |>).

Lemma wp_interfere {S} (others : list dev_call -> S -> S) (Q : unit -> dev_world S -> Prop) (w : dev_world S) :
  Q tt (w <| w_st ::= others (w_trace w) |>) -> wp (interfere others) Q w.
Proof. done. Qed.

(** ** The handshake of both ends *)

Lemma count_fds_app l k :
  Forall (fun x => x <> 0) l -> count_fds (l ++ replicate k 0) = length l.
Proof.
  induction 1 as [|x l Hx _ IH]; simpl.
  - by destruct k.
  - rewrite (proj2 (Z.eqb_neq x 0) Hx). by rewrite IH.
Qed.

Lemma load_init_response m fds :
  length fds = 4%nat -> Forall (fun x => 0 <= x < 2 ^ 31) fds ->
  load_init_fds (store_init_response m fds) = fds.
Proof.
  intros Hl Hf. apply list_eq. intros i. unfold load_init_fds.
  destruct (decide (i < 4)%nat) as [Hi|Hi].
  - rewrite list_lookup_fmap, lookup_seq_lt by done. simpl.
    destruct (lookup_lt_is_Some_2 fds i) as [x Hx]; [lia|]. rewrite Hx. f_equal.
    replace (S (S (S (S (i + (i + (i + (i + 0))))))))%nat with (4 * S i)%nat by lia.
    unfold store_init_response. rewrite (field_words (m :: fds) (S i) x) by done.
    eapply Forall_lookup_1 in Hf; [|exact Hx]. simpl in Hf.
    rewrite wrap_small by (unfold in_width; lia). apply swrap_small; lia.
  - rewrite !lookup_ge_None_2; [done| |]; [lia|]. rewrite length_fmap, length_seq. lia.
Qed.
