(* ===== verification/ThreadPool.v ===== *)
(** * ThreadPool: the work queue of the device processes (utils/threadpool.c)

    Work items are nodes of a doubly linked list on the heap; the queue keeps
    both ends and the length.  [rep] relates the structure to the list of the
    waiting items. *)

From S2P Require Import Prelude Effects Libc Wire Device.

Abbreviation wptr := (option positive).

Record work_t := Work {
  w_flink : wptr;
  w_blink : wptr;
  w_data : bytes;
}.
#[export] Instance work_eta : Settable work_t := fun w => Work (w_flink w) (w_blink w) (w_data w).

Record threadpool_t := ThreadPool {
  q_len : Z;
  q_flink : wptr;
  q_blink : wptr;
  tp_heap : gmap positive work_t;
  tp_workers : list bool;      (* the handles that are set *)
}.
#[export] Instance threadpool_eta : Settable threadpool_t := fun t =>
  ThreadPool (q_len t) (q_flink t) (q_blink t) (tp_heap t) (tp_workers t).

Definition sizeof_work := 16.
Definition sizeof_threadpool := 128.

Abbreviation tp_prog := (dev_prog threadpool_t).
Abbreviation tp_world := (dev_world threadpool_t).

Section Pool.
Context (env : dev_env).

Definition get_work (a : positive) : tp_prog work_t :=
  t ← gets (fun t => t);
  get_or NullDeref (tp_heap t !! a).

Definition set_work (a : positive) (f : work_t -> work_t) : tp_prog unit :=
  modify (fun t => t <| tp_heap ::= alter f a |>).

Definition dequeue_work_unlocked : tp_prog positive :=
  t ← gets (fun t => t);
  work ← get_or NullDeref (q_flink t);
  node ← get_work work;
  (match w_flink node with
   | Some n => _ ← get_work n; set_work n (fun x => x <| w_blink := None |>)
   | None => mret tt
   end);;
  node ← get_work work;
  modify (fun t => t <| q_flink := w_flink node |>);;
  t ← gets (fun t => t);
  (if decide (q_blink t = Some work) then modify (fun t => t <| q_blink := None |>) else mret tt);;
  modify (fun t => t <| q_len ::= fun n => u64 (n - 1) |>);;
  set_work work (fun x => x <| w_flink := None |>);;
  mret work.

Definition queue_work (data : bytes) : tp_prog Z :=
  ok ← dos env (DCalloc (sizeof_work + length data));
  if negb ok then mret (-1) else
  t ← gets (fun t => t);
  let work := fresh (dom (tp_heap t)) in
  modify (fun t => t <| tp_heap ::= <[work := Work None None data]> |>);;
  dlock work_mutex;;
  t ← gets (fun t => t);
  set_work work (fun x => x <| w_flink := None |> <| w_blink := q_blink t |>);;
  (match q_blink t with
   | Some b => _ ← get_work b; set_work b (fun x => x <| w_flink := Some work |>)
   | None => mret tt
   end);;
  (match q_flink t with
   | None => modify (fun t => t <| q_flink := Some work |>)
   | Some _ => mret tt
   end);;
  modify (fun t => t <| q_len ::= fun n => u64 (n + 1) |>);;
  modify (fun t => t <| q_blink := Some work |>);;
  _ ← dos env DCond_signal;
  dunlock work_mutex;;
  mret 0.

(** One round of a worker: [others] is what the other threads do to the queue
    while this one waits for work. *)
Definition take_work (fuel : nat) (others : list dev_call -> threadpool_t -> threadpool_t)
    : tp_prog positive :=
  dlock work_mutex;;
  loop fuel (fun _ : unit =>
    t ← gets (fun t => t);
    if q_len t =? 0 then
      _ ← dos env DCond_wait;
      interfere others;;
      mret (inl tt)
    else mret (inr tt)) tt;;
  work ← dequeue_work_unlocked;
  dunlock work_mutex;;
  mret work.

Definition _routine_stub (rounds fuel : nat) (others : list dev_call -> threadpool_t -> threadpool_t)
    (routine : bytes -> tp_prog Z) : tp_prog unit :=
  loop rounds (fun _ : unit =>
    work ← take_work fuel others;
    node ← get_work work;
    _ ← routine (w_data node);
    _ ← dos env (DFree sizeof_work);
    modify (fun t => t <| tp_heap ::= delete work |>);;
    mret (inl tt)) tt.

(** The loop that creates the workers: [None] when a creation failed. *)
Fixpoint create_workers (done : list bool) (l : list nat) : tp_prog (bool * list bool) :=
  match l with
  | [] => mret (true, done)
  | i :: l =>
      r ← dos env (DThread_create (PoolThread i));
      if r <? 0 then mret (false, done) else create_workers (done ++ [r =? 0]) l
  end.

Definition pool_zero : threadpool_t := ThreadPool 0 None None ∅ [].

(** [true] when a pool was made; it is the state of the model. *)
Definition create_threadpool (n : nat) : tp_prog bool :=
  tp ← dos env (DCalloc sizeof_threadpool);
  if negb tp then mret false else
  modify (fun _ => pool_zero);;
  workers ← dos env (DCalloc (8 * n));
  if negb workers then _ ← dos env (DFree sizeof_threadpool); mret false else
  r ← create_workers [] (seq 0 n);
  modify (fun t => t <| tp_workers := r.2 |>);;
  if (r.1 : bool) then mret true else
  for_each (imap (fun i (b : bool) => (i, b)) r.2) (fun '(i, b) =>
    if (b : bool) then _ ← dos env (DThread_cancel (PoolThread i)); mret tt else mret tt);;
  _ ← dos env (DFree (8 * n));
  _ ← dos env (DFree sizeof_threadpool);
  mret false.
End Pool.

(** ** The structure as a list *)

Definition pred_at (l : list positive) (i : nat) : wptr :=
  match i with O => None | S i => l !! i end.

Record rep (t : threadpool_t) (l : list (positive * bytes)) : Prop := {
  rep_nodup : NoDup l.*1;
  rep_nodes : forall i a d, l !! i = Some (a, d) ->
    tp_heap t !! a = Some (Work (l.*1 !! S i) (pred_at l.*1 i) d);
  rep_head : q_flink t = head l.*1;
  rep_last : q_blink t = last l.*1;
  rep_len : q_len t = length l;
  rep_bound : length l < 2 ^ 64;
}.

Lemma wp_get_work a x (Q : work_t -> tp_world -> Prop) w :
  tp_heap (w_st w) !! a = Some x -> Q x w -> wp (get_work a) Q w.
Proof. intros Ha HQ. unfold get_work. wp_go. by eapply wp_get_or. Qed.

Lemma fst_lookup (l : list (positive * bytes)) i a :
  l.*1 !! i = Some a -> exists d, l !! i = Some (a, d).
Proof. rewrite list_lookup_fmap. destruct (l !! i) as [[a' d]|]; simpl; [|done]. intros [= ->]. eauto. Qed.

Lemma nodup_index (l : list (positive * bytes)) i j a d d' :
  NoDup l.*1 -> l !! i = Some (a, d) -> l !! j = Some (a, d') -> i = j.
Proof.
  intros Hn Hi Hj. eapply NoDup_lookup; [exact Hn| |].
  - rewrite list_lookup_fmap, Hi. done.
  - rewrite list_lookup_fmap, Hj. done.
Qed.

(** Taking the oldest item: its node leaves the list, whose ends and links stay
    consistent. *)
Lemma dequeue_spec a d l (w : tp_world) :
  rep (w_st w) ((a, d) :: l) ->
  wp dequeue_work_unlocked (fun r w' =>
    r = a /\ rep (w_st w') l /\ (a ∉ l.*1) /\ w_held w' = w_held w /\ w_trace w' = w_trace w /\
    exists f b, tp_heap (w_st w') !! a = Some (Work f b d)) w.
Proof.
  intros [Hnd Hn Hh Hl Hlen Hb]. rewrite fmap_cons in Hnd.
  apply NoDup_cons in Hnd as [Ha Hnd]. cbn [fst] in Ha.
  unfold dequeue_work_unlocked. apply wp_bind, wp_gets, wp_bind.
  eapply wp_get_or; [exact Hh|].
  assert (tp_heap (w_st w) !! a = Some (Work (l.*1 !! 0%nat) None d)) as Ha0
    by exact (Hn 0%nat a d eq_refl).
  apply wp_bind. eapply wp_get_work; [exact Ha0|]. cbn [w_flink].
  set (upd := fun h : gmap positive work_t =>
    match l.*1 !! 0%nat with Some n => alter (fun x => x <| w_blink := None |>) n h | None => h end).
  apply wp_bind.
  eapply (wp_mono _ (fun _ w' => w' = w <| w_st ::= fun t => t <| tp_heap ::= upd |> |>)).
  { unfold upd. destruct (l.*1 !! 0%nat) as [n|] eqn:Hn0.
    - destruct (fst_lookup l 0 n Hn0) as [dn Hdn].
      apply wp_bind. eapply wp_get_work; [exact (Hn 1%nat n dn Hdn)|]. by apply wp_modify.
    - apply wp_ret. by destruct w as [[] ? ?]. }
  intros [] w1 ->.
  assert (upd (tp_heap (w_st w)) !! a = tp_heap (w_st w) !! a) as Hupda.
  { unfold upd. destruct (l.*1 !! 0%nat) as [n|] eqn:Hn0; [|done].
    rewrite lookup_alter_ne; [done|]. intros ->. apply Ha. by eapply list_elem_of_lookup_2. }
  apply wp_bind. eapply wp_get_work; [simpl; unfold set_field; rewrite Hupda; exact Ha0|].
  apply wp_bind, wp_modify. apply wp_bind, wp_gets.
  set (w2 := _ <| w_st ::= _ |>).
  eapply (wp_bind _ _ _ w2).
  eapply (wp_mono _ (fun _ w' => w' = w2 <| w_st ::= fun t => t <| q_blink := last l.*1 |> |>)).
  { case_decide as Hlast; simpl in Hlast; rewrite Hl in Hlast.
    - apply wp_modify. destruct l as [|[n dn] l]; [done|]. simpl in Hlast.
      exfalso. apply Ha. 
      apply list_elem_of_lookup_2 with (i := pred (length ((n, dn) :: l).*1)).
      rewrite <-last_lookup. exact Hlast.
    - apply wp_ret. unfold w2; simpl. unfold set_field; simpl. f_equal. f_equal.
      rewrite Hl. destruct l as [|[n dn] l]; [done|]. done. }
  intros [] w3 ->. apply wp_bind, wp_modify. apply wp_bind. unfold set_work. apply wp_modify.
  apply wp_ret. split; [done|]. split; [|split; [done|split; [done|split; [done|]]]].
  - constructor; simpl; unfold set_field.
    + done.
    + intros i b db Hi.
      assert (b <> a) as Hba.
      { intros ->. apply Ha. eapply list_elem_of_lookup_2. by rewrite list_lookup_fmap, Hi. }
      rewrite lookup_alter_ne by done. pose proof (Hn (S i) b db Hi) as Hold.
      simpl in Hold. unfold upd. destruct i as [|i].
      * rewrite list_lookup_fmap, Hi. simpl. rewrite lookup_alter_eq, Hold. done.
      * destruct (l.*1 !! 0%nat) as [n|] eqn:Hn0; [|exact Hold].
        rewrite lookup_alter_ne; [exact Hold|]. intros ->.
        destruct (fst_lookup l 0 b Hn0) as [d' Hd']. by pose proof (nodup_index l _ _ _ _ _ Hnd Hi Hd').
    + by destruct l as [|[]].
    + done.
    + rewrite Hlen. simpl in *. rewrite wrap_small; [lia|]. unfold in_width. lia.
    + simpl in Hb. lia.
  - simpl. unfold set_field. rewrite lookup_alter_eq, Hupda, Ha0. by eexists _, _.
Qed.

Lemma last_index (l : list (positive * bytes)) b :
  last l.*1 = Some b -> exists d, l !! pred (length l) = Some (b, d).
Proof. rewrite last_lookup, length_fmap. apply fst_lookup. Qed.

(** Linking a new node behind the last one. *)
Lemma rep_snoc t l a d :
  rep t l -> tp_heap t !! a = None -> length l < 2 ^ 64 - 1 ->
  let h := <[a := Work None (q_blink t) d]> (tp_heap t) in
  let h' := match q_blink t with
            | Some b => alter (fun x => x <| w_flink := Some a |>) b h
            | None => h
            end in
  rep (t <| tp_heap := h' |>
         <| q_flink := match q_flink t with None => Some a | Some x => Some x end |>
         <| q_len ::= fun n => u64 (n + 1) |>
         <| q_blink := Some a |>) (l ++ [(a, d)]).
Proof.
  intros [Hnd Hn Hh Hl Hlen Hb] Ha Hlt h h'.
  assert (forall i b e, l !! i = Some (b, e) -> b <> a) as Hne.
  { intros i b e Hi ->. apply Hn in Hi. congruence. }
  assert (a ∉ l.*1) as Hal.
  { intros [i Hi]%list_elem_of_lookup. destruct (fst_lookup l i a Hi) as [e He]. by eapply Hne. }
  constructor; simpl; unfold set_field.
  - rewrite fmap_app. apply NoDup_app. split; [done|]. split; [|apply NoDup_singleton].
    intros x Hx Hx'. apply list_elem_of_singleton in Hx'. simpl in Hx'. by subst.
  - intros i b e Hi. rewrite fmap_app. apply lookup_app_Some in Hi as [Hi|[Hge Hi]].
    + assert (i < length l)%nat as Hil by (by eapply lookup_lt_Some).
      assert (pred_at (l.*1 ++ [(a, d)].*1) i = pred_at l.*1 i) as ->.
      { destruct i as [|i]; [done|]. simpl. rewrite lookup_app_l; [done|].
        rewrite length_fmap. lia. }
      pose proof (Hn i b e Hi) as Hold. pose proof (Hne i b e Hi) as Hba.
      assert (h !! b = tp_heap t !! b) as Hhb by (unfold h; by rewrite lookup_insert_ne).
      unfold h'. rewrite Hl. destruct (decide (i = pred (length l))) as [Hlast|Hlast].
      * assert (last l.*1 = Some b) as Hlb.
        { rewrite last_lookup, length_fmap, list_lookup_fmap, <-Hlast, Hi. done. }
        rewrite Hlb, lookup_alter_eq, Hhb, Hold. simpl. unfold set_field. simpl. do 2 f_equal.
        rewrite lookup_app_r by (rewrite length_fmap; lia).
        rewrite length_fmap. replace (S i - length l)%nat with 0%nat by lia. done.
      * assert (last l.*1 <> Some b) as Hlb.
        { intros Hlb. destruct (last_index l b Hlb) as [e' He'].
          apply Hlast. by eapply nodup_index. }
        assert (h' !! b = tp_heap t !! b) as Hh'.
        { unfold h'. rewrite Hl. destruct (last l.*1) as [z|]; [|done].
          rewrite lookup_alter_ne; [done|]. congruence. }
        unfold h' in Hh'. rewrite Hl in Hh'. rewrite Hh', Hold. do 2 f_equal.
        rewrite lookup_app_l; [done|]. rewrite length_fmap. lia.
    + apply list_lookup_singleton_Some in Hi as [Hi0 [= <- <-]].
      assert (i = length l) as -> by lia.
      assert (h' !! a = h !! a) as Hh'.
      { unfold h'. destruct (q_blink t) as [b|] eqn:Hqb; [|done].
        rewrite lookup_alter_ne; [done|]. symmetry in Hl.
        destruct (last_index l b Hl) as [e He]. by eapply Hne. }
      rewrite Hh'. unfold h. rewrite lookup_insert_eq. do 2 f_equal.
      * rewrite lookup_app_r by (rewrite length_fmap; lia). rewrite length_fmap.
        by replace (S (length l) - length l)%nat with 1%nat by lia.
      * rewrite Hl, last_lookup, length_fmap. destruct (length l) as [|n] eqn:Hll.
        -- simpl. by destruct l.
        -- simpl. rewrite lookup_app_l; [done|]. rewrite length_fmap. lia.
  - rewrite fmap_app, Hh. by destruct l.
  - rewrite fmap_app. symmetry. apply last_snoc.
  - rewrite Hlen, length_app. simpl. rewrite wrap_small; [lia|]. unfold in_width. lia.
  - rewrite length_app. simpl. lia.
Qed.

Lemma queue_work_spec env data l (w : tp_world) :
  rep (w_st w) l -> work_mutex ∉ (w_held w : list dev_mutex) -> length l < 2 ^ 64 - 1 ->
  wp (queue_work env data) (fun r w' => w_held w' = w_held w /\
    if env (w_trace w) (DCalloc (sizeof_work + length data))
    then r = 0 /\ exists a, rep (w_st w') (l ++ [(a, data)])
    else r = -1 /\ w_st w' = w_st w) w.
Proof.
  intros Hrep Hm Hlt. unfold queue_work. dev_step. dev_step.
  destruct (env (w_trace w) _); cbn [negb]; [|by apply wp_ret].
  apply wp_bind, wp_gets. cbv zeta. cbn [w_st].
  set (a := fresh (dom (tp_heap (w_st w)))).
  assert (tp_heap (w_st w) !! a = None) as Ha by (apply not_elem_of_dom, is_fresh).
  apply wp_bind, wp_modify, wp_bind, wp_dlock; [exact Hm|].
  apply wp_bind, wp_gets, wp_bind. unfold set_work at 1. apply wp_modify.
  set (h := <[a := Work None (q_blink (w_st w)) data]> (tp_heap (w_st w))).
  lazymatch goal with |- wp _ _ ?W => set (w1 := W) end.
  assert (tp_heap (w_st w1) = h) as Hh1.
  { unfold w1, h; simpl. unfold set_field; simpl. by rewrite alter_insert_eq. }
  apply wp_bind.
  set (h' := match q_blink (w_st w) with
             | Some b => alter (fun x => x <| w_flink := Some a |>) b h
             | None => h
             end).
  eapply (wp_mono _ (fun _ w' => w' = w1 <| w_st ::= fun t => t <| tp_heap := h' |> |>)).
  { unfold h'. simpl. destruct (q_blink (w_st w)) as [b|] eqn:Hqb.
    - destruct Hrep as [_ Hn _ Hl _ _]. rewrite Hl in Hqb.
      destruct (last_index l b Hqb) as [e He]. pose proof (Hn _ b e He) as Hb.
      apply wp_bind. eapply wp_get_work.
      { rewrite Hh1. unfold h. rewrite lookup_insert_ne; [exact Hb|congruence]. }
      unfold set_work. apply wp_modify. unfold set_field. simpl. unfold set_field. simpl.
      do 2 f_equal. by rewrite <-Hh1.
    - apply wp_ret. unfold w1. unfold set_field; simpl. unfold set_field; simpl. do 2 f_equal.
      by rewrite <-Hh1. }
  intros [] w2 ->. simpl.
  apply wp_bind. eapply (wp_mono _ (fun _ w' => w' = w1 <| w_st ::= fun t => t <| tp_heap := h' |>
    <| q_flink := match q_flink (w_st w) with None => Some a | Some x => Some x end |> |>)).
  { destruct (q_flink (w_st w)) as [x|] eqn:Hqf.
    - apply wp_ret. unfold w1. unfold set_field; simpl. unfold set_field; simpl.
      by rewrite Hqf.
    - by apply wp_modify. }
  intros [] w3 ->. apply wp_bind, wp_modify, wp_bind, wp_modify. dev_step. dev_step.
  apply wp_bind. eapply wp_dunlock; [reflexivity|exact Hm|]. apply wp_ret.
  split; [done|]. split; [done|]. exists a.
  pose proof (rep_snoc (w_st w) l a data Hrep Ha Hlt) as Hsnoc. cbv zeta in Hsnoc.
  fold h in Hsnoc. fold h' in Hsnoc. exact Hsnoc.
Qed.

(** ** Submissions and workers *)

Inductive pool_op := Submit (data : bytes) | RunOne.

Section Client.
Context (env : dev_env) (others : list dev_call -> threadpool_t -> threadpool_t).
Hypothesis enough_memory : forall tr n, env tr (DCalloc n) = true.

(** A worker takes the next item, if there is one, and frees it; the result
    is the data that its routine is given. *)
Definition pool_step (op : pool_op) : tp_prog (option bytes) :=
  match op with
  | Submit data => _ ← queue_work env data; mret None
  | RunOne =>
      t ← gets (fun t => t);
      if q_len t =? 0 then mret None else
      work ← take_work env 1 others;
      node ← get_work work;
      _ ← dos env (DFree sizeof_work);
      modify (fun t => t <| tp_heap ::= delete work |>);;
      mret (Some (w_data node))
  end.

Fixpoint pool_run (ops : list pool_op) : tp_prog (list (option bytes)) :=
  match ops with
  | [] => mret []
  | op :: ops => r ← pool_step op; rs ← pool_run ops; mret (r :: rs)
  end.

(** The same on a plain list. *)
Fixpoint fifo (ops : list pool_op) (l : list bytes) : list (option bytes) :=
  match ops, l with
  | [], _ => []
  | Submit d :: ops, l => None :: fifo ops (l ++ [d])
  | RunOne :: ops, [] => None :: fifo ops []
  | RunOne :: ops, d :: l => Some d :: fifo ops l
  end.

Lemma rep_delete t a l : rep t l -> (a ∉ l.*1) -> rep (t <| tp_heap ::= delete a |>) l.
Proof.
  intros [Hnd Hn Hh Hl Hlen Hb] Ha. constructor; try done.
  intros i b e Hi. simpl. unfold set_field. rewrite lookup_delete_ne; [by apply Hn|].
  intros ->. apply Ha. eapply list_elem_of_lookup_2. by rewrite list_lookup_fmap, Hi.
Qed.

Lemma take_work_spec a d l (w : tp_world) :
  rep (w_st w) ((a, d) :: l) -> w_held w = [] ->
  wp (take_work env 1 others) (fun r w' => r = a /\ rep (w_st w') l /\ (a ∉ l.*1) /\
    w_held w' = [] /\ exists f b, tp_heap (w_st w') !! a = Some (Work f b d)) w.
Proof.
  intros Hrep Hh. unfold take_work. apply wp_bind, wp_dlock; [rewrite Hh; apply not_elem_of_nil|].
  apply wp_bind, wp_loop_inr. apply wp_bind, wp_gets.
  rewrite (proj2 (Z.eqb_neq _ _)) by (simpl; rewrite (rep_len _ _ Hrep); simpl; lia).
  apply wp_ret, wp_bind. eapply wp_mono; [apply (dequeue_spec a d l); exact Hrep|].
  simpl. intros r w1 (-> & Hrep1 & Ha & Hh1 & _ & f & b & Hx). apply wp_bind.
  eapply (wp_dunlock work_mutex []).
  - rewrite Hh1. simpl. unfold set_field. by rewrite Hh.
  - apply not_elem_of_nil.
  - apply wp_ret. by eauto 10.
Qed.

Lemma pool_run_fifo ops : forall l (w : tp_world),
  rep (w_st w) l -> w_held w = [] -> length l + length ops < 2 ^ 64 ->
  wp (pool_run ops) (fun rs w' => rs = fifo ops l.*2 /\ w_held w' = []) w.
Proof.
  induction ops as [|op ops IH]; intros l w Hrep Hh Hlt; simpl in *; [by apply wp_ret|].
  apply wp_bind. destruct op as [d|]; simpl.
  - apply wp_bind. eapply wp_mono; [apply (queue_work_spec env d l w Hrep)|].
    + rewrite Hh. apply not_elem_of_nil.
    + lia.
    + intros r w1 [Hh1 Hr]. rewrite enough_memory in Hr. destruct Hr as (_ & a & Hrep1).
      apply wp_ret, wp_bind. eapply wp_mono; [apply (IH (l ++ [(a, d)]) w1 Hrep1)|].
      * by rewrite Hh1.
      * rewrite length_app. simpl. lia.
      * intros rs w2 [-> ?]. apply wp_ret. by rewrite fmap_app.
  - apply wp_bind, wp_gets. rewrite (rep_len _ _ Hrep). destruct l as [|[a d] l]; simpl.
    + apply wp_ret, wp_bind. eapply wp_mono; [apply (IH [] w Hrep Hh); simpl in *; lia|].
      intros rs w2 [-> ?]. by apply wp_ret.
    + apply wp_bind. eapply wp_mono; [exact (take_work_spec a d l w Hrep Hh)|].
      intros r w1 (-> & Hrep1 & Ha & Hh1 & f & b & Hx). apply wp_bind.
      eapply wp_get_work; [exact Hx|]. dev_go.
      eapply wp_mono; [apply (IH l)|].
      * simpl. by apply rep_delete.
      * done.
      * simpl in *. lia.
      * intros rs w2 [-> ?]. by apply wp_ret.
Qed.
End Client.
