(* ===== verification/Vga.v ===== *)
(** * Vga: the display device (devices/ooows-vga.c)

    The state is the global [gVGA].  Memory blocks are byte lists with their
    sizes; [Map_failed] is the pointer that a failed [mmap] returns. *)

From S2P Require Import Prelude Effects Libc Wire Device.
From Stdlib Require Import Ascii.

Definition HOST_VGA_SIZE := 0x20000.
Definition PIO_READ := 0.
Definition PIO_WRITE := 1.
Definition VGA_MODE_TEXT := 0x3.
Definition VGA_MODE_VIDEO := 0x13.
Definition VGA_PORT_CHANGE_MODE := 0x3b0.
Definition VGA_MEM_START := 0xA0000.
Definition TEXT_MEM_START := 0xB8000.
Definition TEXT_MEM_START_OFF := 0x18000.
Definition VIDEO_MEM_START := VGA_MEM_START.
Definition VGA_VIDEO_WIDTH := 320.
Definition VGA_VIDEO_HEIGHT := 200.
Definition VGA_TEXT_WIDTH := 80.
Definition VGA_TEXT_HEIGHT := 25.
Definition TEXT_PLANE_SIZE_BYTES := 4000.
Definition VIDEO_PLANE_SIZE_BYTES := 64000.
Definition sizeof_vga_dev := 112.

Inductive block := Null | Map_failed | Mapped (b : bytes).

Record ooows_vga_dev := Vga {
  width : Z;
  height : Z;
  mode : Z;
  mem : block;
  text_plane : block;
  shm_text_name : option string;
  vplane : block;
  shm_video_name : option string;
  com : option com_t;
}.
#[export] Instance vga_eta : Settable ooows_vga_dev := fun v =>
  Vga (width v) (height v) (mode v) (mem v) (text_plane v) (shm_text_name v) (vplane v)
    (shm_video_name v) (com v).

Definition vga_zero : ooows_vga_dev := Vga 0 0 0 Null Null None Null None None.

Abbreviation vga_prog := (dev_prog (option ooows_vga_dev)).
Abbreviation vga_world := (dev_world (option ooows_vga_dev)).

Definition get_vga : vga_prog ooows_vga_dev :=
  g ← gets (fun g => g);
  get_or NullDeref g.

Definition set_vga (f : ooows_vga_dev -> ooows_vga_dev) : vga_prog unit := modify (fmap f).

(** The bytes of a mapped block; any other pointer faults. *)
Definition deref_block (b : block) : vga_prog bytes :=
  match b with Mapped m => mret m | _ => fail NullDeref end.

Section Vga.
Context (env : dev_env).

(** ** Teardown and initialisation *)

Definition unlink_name (name : option string) : vga_prog unit :=
  match name with
  | Some n => _ ← dos env (DShmUnlink n); _ ← dos env (DFree (String.length n + 1)); mret tt
  | None => mret tt
  end.

Definition munmap_block (b : block) (size : Z) : vga_prog unit :=
  match b with Null => mret tt | _ => _ ← dos env (DMunmap size); mret tt end.

Definition DestroyDevice : vga_prog Z :=
  g ← gets (fun g => g);
  match g with
  | None => mret 0
  | Some v =>
      (match mem v with Null => mret tt | _ => _ ← dos env (DFree HOST_VGA_SIZE); mret tt end);;
      munmap_block (vplane v) VIDEO_PLANE_SIZE_BYTES;;
      munmap_block (text_plane v) TEXT_PLANE_SIZE_BYTES;;
      unlink_name (shm_text_name v);;
      unlink_name (shm_video_name v);;
      (match com v with
       | Some c =>
           _ ← dos env (DUnlink (com_name c));
           _ ← dos env (DFree (String.length (com_name c) + 1));
           DestroyCom env c
       | None => mret tt
       end);;
      _ ← dos env (DFree sizeof_vga_dev);
      modify (fun _ => None);;
      mret 0
  end.

(** A shared memory object of [size] bytes, mapped: the new object is zero. *)
Definition map_shm (fd size : Z) : vga_prog block :=
  _ ← dos env (DFtruncate fd size);
  r ← dos env (DMmap size fd);
  mret (if r <? 0 then Map_failed else Mapped (replicate (Z.to_nat size) 0)).

Definition is_mapped (b : block) : bool := match b with Mapped _ => true | _ => false end.

Definition sig_handler : vga_prog unit :=
  _ ← DestroyDevice;
  fail (Exited 0).

Definition InitDevice : vga_prog Z :=
  let failed := _ ← DestroyDevice; mret (-1) in
  ok ← dos env (DCalloc sizeof_vga_dev);
  if negb ok then failed else
  modify (fun _ => Some vga_zero);;
  text ← concatName env "/vga-shm-text";
  match text with
  | None => failed
  | Some text =>
  fd ← createShm env text false;
  if fd <? 0 then failed else
  set_vga (fun v => v <| shm_text_name := Some text |>);;
  plane ← map_shm fd TEXT_PLANE_SIZE_BYTES;
  set_vga (fun v => v <| text_plane := plane |>);;
  if negb (is_mapped plane) then failed else
  video ← concatName env "/vga-shm-video";
  match video with
  | None => failed
  | Some video =>
  set_vga (fun v => v <| shm_video_name := Some video |>);;
  fd ← createShm env video false;
  if fd <? 0 then failed else
  plane ← map_shm fd VIDEO_PLANE_SIZE_BYTES;
  set_vga (fun v => v <| vplane := plane |>);;
  if negb (is_mapped plane) then failed else
  ok ← dos env (DCalloc HOST_VGA_SIZE);
  if negb ok then failed else
  set_vga (fun v => v <| mem := Mapped (replicate (Z.to_nat HOST_VGA_SIZE) 0) |>
                      <| mode := VGA_MODE_VIDEO |>
                      <| width := VGA_VIDEO_WIDTH |> <| height := VGA_VIDEO_HEIGHT |>);;
  dir ← dos env (DGetenv "OOOWS_VM_STORE_DIR");
  let dir := default "/tmp/vms"%string dir in
  vmname ← dos env (DGetenv "OOOWS_VM_NAME");
  match vmname with
  | None => failed
  | Some vmname =>
  let path := dir +:+ "/" +:+ vmname +:+ "/" +:+ "vga-notifs" in
  ok ← dos env (DCalloc (u32 (String.length path + 1)));
  if negb ok then failed else
  _ ← dos env (DUnlink path);
  c ← InitCom env path true;
  match c with
  | None => failed
  | Some c => set_vga (fun v => v <| com := Some c |>);; mret 0
  end
  end
  end
  end.

(** ** Messages to the frontend *)

Definition SendUpdate (m : Z) : vga_prog unit :=
  ok1 ← dos env (DCalloc 16);
  if negb ok1 then fail NullDeref else
  ok2 ← dos env (DCalloc 1);
  if negb ok2 then fail NullDeref else
  v ← get_vga;
  c ← get_or NullDeref (com v);
  _ ← SendMessage env c [m];
  _ ← dos env (DFree 1);
  _ ← dos env (DFree 16);
  mret tt.

Definition char_v := byte_of "v".
Definition char_t := byte_of "t".

(** [m] is not initialised in any other mode; [stale] is what it then holds. *)
Definition FrontendHandshake (stale : Z) : vga_prog unit :=
  v ← get_vga;
  SendUpdate (if mode v =? 0x13 then char_v else if mode v =? 0x3 then char_t else stale).

(** ** Requests *)

(** [memcpy(dst + off, src, n)] between blocks with their bounds. *)
Definition memcpy_to (dst : bytes) (off : Z) (src : bytes) (n : Z) : vga_prog bytes :=
  if (n <=? length src) && (off + n <=? length dst)
  then mret (blit dst (Z.to_nat off) (take (Z.to_nat n) src)) else fail OutOfBounds.

Definition VgaChangeMode (pio : ioport_request) : vga_prog Z :=
  v ← get_vga;
  if pio_direction pio =? PIO_READ then mret (mode v) else
  let new_mode := u8 (pio_data pio) in
  if new_mode =? VGA_MODE_VIDEO then
    set_vga (fun v => v <| mode := VGA_MODE_VIDEO |>
                        <| width := VGA_VIDEO_WIDTH |> <| height := VGA_VIDEO_HEIGHT |>);;
    m ← deref_block (mem v);
    p ← deref_block (vplane v);
    p ← memcpy_to p 0 m VIDEO_PLANE_SIZE_BYTES;
    set_vga (fun v => v <| vplane := Mapped p |>);;
    mret 0
  else if new_mode =? VGA_MODE_TEXT then
    set_vga (fun v => v <| mode := VGA_MODE_TEXT |>
                        <| width := VGA_TEXT_WIDTH |> <| height := VGA_TEXT_HEIGHT |>);;
    m ← deref_block (mem v);
    p ← deref_block (text_plane v);
    p ← memcpy_to p 0 (drop (Z.to_nat TEXT_MEM_START_OFF) m) TEXT_PLANE_SIZE_BYTES;
    set_vga (fun v => v <| text_plane := Mapped p |>);;
    mret 0
  else mret 0.

Definition VgaHandlePio (fd : Z) (pio : ioport_request) : vga_prog Z :=
  ret ← (if pio_port pio =? VGA_PORT_CHANGE_MODE then VgaChangeMode pio else mret 0);
  _ ← HandledRequest env fd ret;
  mret 0.

(** The bytes of [mmio->data]. *)
Definition data_bytes (mmio : mmio_request) : bytes := le_bytes 8 (mr_data mmio).

Definition notify (m : Z) : vga_prog unit :=
  v ← get_vga;
  c ← get_or NullDeref (com v);
  if 0 <? com_num_clients c then SendUpdate m else mret tt.

Definition VgaTextWrite (mmio : mmio_request) : vga_prog Z :=
  let index := u32 (mr_phys_addr mmio - TEXT_MEM_START) in
  v ← get_vga;
  if index <? u32 (u32 (width v * height v) - mr_len mmio) then
    p ← deref_block (text_plane v);
    p ← memcpy_to p index (data_bytes mmio) (mr_len mmio);
    set_vga (fun v => v <| text_plane := Mapped p |>);;
    notify char_t;;
    mret 0
  else mret (-1).

Definition VgaVideoWrite (mmio : mmio_request) : vga_prog Z :=
  let index := u32 (mr_phys_addr mmio - VIDEO_MEM_START) in
  v ← get_vga;
  if index <? u32 (u32 (width v * height v) - mr_len mmio) then
    p ← deref_block (vplane v);
    p ← memcpy_to p index (data_bytes mmio) (mr_len mmio);
    set_vga (fun v => v <| vplane := Mapped p |>);;
    notify char_v;;
    mret 0
  else mret (-1).

Definition MirrorWrite (mmio : mmio_request) : vga_prog Z :=
  let offset := u32 (mr_phys_addr mmio - VGA_MEM_START) in
  v ← get_vga;
  (if offset <? u32 (HOST_VGA_SIZE - mr_len mmio) then
     m ← deref_block (mem v);
     m ← memcpy_to m offset (data_bytes mmio) (mr_len mmio);
     set_vga (fun v => v <| mem := Mapped m |>)
   else mret tt);;
  mret 0.

(** The new value of [mmio->data]. *)
Definition MirrorRead (mmio : mmio_request) : vga_prog Z :=
  let offset := u32 (mr_phys_addr mmio - VGA_MEM_START) in
  v ← get_vga;
  if offset <? u32 (HOST_VGA_SIZE - mr_len mmio) then
    m ← deref_block (mem v);
    d ← memcpy_to (data_bytes mmio) 0 (drop (Z.to_nat offset) m) (mr_len mmio);
    mret (le_val d)
  else mret (mr_data mmio).

Definition VgaHandleMmio (fd : Z) (mmio : mmio_request) : vga_prog Z :=
  if mr_is_write mmio =? 0 then
    data ← MirrorRead mmio;
    _ ← HandledRequest env fd data;
    mret 0
  else
    _ ← MirrorWrite mmio;
    v ← get_vga;
    ret ← (if mode v =? VGA_MODE_TEXT then VgaTextWrite mmio
           else if mode v =? VGA_MODE_VIDEO then VgaVideoWrite mmio
           else mret (-1));
    _ ← HandledRequest env fd 0;
    mret ret.

(** The body of the request loop: the bytes of one request. *)
Definition handleRequest (fd : Z) (io : bytes) : vga_prog Z :=
  dlock vga_lock;;
  err ← match load_io_request io with
        | Some (Pio r) => VgaHandlePio fd r
        | Some (Mmio r) => VgaHandleMmio fd r
        | None => mret 0
        end;
  dunlock vga_lock;;
  mret err.

(** The thread that serves one CPU. [err] keeps its value over requests of an
    unknown type. *)
Definition VgaHandleIO (fuel : nat) (fd : Z) : vga_prog Z :=
  loop fuel (fun err =>
    r ← dos env (DRead fd sizeof_io_request);
    if negb (u64 r.1 =? sizeof_io_request) then mret (inr 0) else
    let io := blit (replicate sizeof_io_request 0) 0 (take sizeof_io_request r.2) in
    e ← handleRequest fd io;
    let err := match load_io_request io with Some _ => e | None => err end in
    if err =? -2 then mret (inr (-1)) else mret (inl err)) 0.

Definition main : vga_prog Z :=
  _ ← dos env DSignal;
  h ← DeviceHandshake env CHILD_DEVICE_CHANNEL_FD;
  let '(ret, vcpu_fds, nvcpus) := h in
  if negb (ret =? 0) then mret (-1) else
  err ← InitDevice;
  if negb (err =? 0) then mret (-1) else
  let fds := take (Z.to_nat nvcpus) vcpu_fds in
  for_each fds (fun fd => _ ← dos env (DThread_create (IoThread fd)); mret tt);;
  for_each fds (fun fd => _ ← dos env (DThread_join (IoThread fd)); mret tt);;
  _ ← DestroyDevice;
  mret err.
End Vga.

Implicit Types (env : dev_env) (w : vga_world).

(** ** The invariant of the device *)

(** The bytes of the screen that follow the video memory: the last seven of
    the plane are out of reach of some accesses. *)
Definition video_coherent (m p : bytes) : Prop :=
  forall i, (i < Z.to_nat 63992)%nat -> p !! i = m !! i.
Definition text_coherent (m t : bytes) : Prop :=
  forall i, (i < Z.to_nat 1992)%nat -> t !! i = m !! (Z.to_nat TEXT_MEM_START_OFF + i)%nat.

Record vga_ok (v : ooows_vga_dev) (m t p : bytes) : Prop := {
  vo_mem : mem v = Mapped m;
  vo_text : text_plane v = Mapped t;
  vo_video : vplane v = Mapped p;
  vo_lmem : length m = Z.to_nat HOST_VGA_SIZE;
  vo_ltext : length t = Z.to_nat TEXT_PLANE_SIZE_BYTES;
  vo_lvideo : length p = Z.to_nat VIDEO_PLANE_SIZE_BYTES;
  vo_com : is_Some (com v);
  vo_mode :
    (mode v = VGA_MODE_VIDEO /\ width v = VGA_VIDEO_WIDTH /\ height v = VGA_VIDEO_HEIGHT /\
     video_coherent m p) \/
    (mode v = VGA_MODE_TEXT /\ width v = VGA_TEXT_WIDTH /\ height v = VGA_TEXT_HEIGHT /\
     text_coherent m t);
}.

(** The device with the video memory [m]. *)
Definition vga_at (g : option ooows_vga_dev) (m : bytes) : Prop :=
  exists v t p, g = Some v /\ vga_ok v m t p.

(** Accesses as the bus delivers them: at most eight bytes, within a page. *)
Definition access_ok (r : mmio_request) : Prop :=
  0 <= mr_len r <= 8 /\ mr_phys_addr r mod 4096 + mr_len r <= 4096.

Lemma wp_get_vga v (Q : ooows_vga_dev -> vga_world -> Prop) w :
  w_st w = Some v -> Q v w -> wp get_vga Q w.
Proof. intros Hv HQ. unfold get_vga. wp_go. by eapply wp_get_or. Qed.

Lemma wp_set_vga f (Q : unit -> vga_world -> Prop) w :
  Q tt (w <| w_st ::= fmap f |>) -> wp (set_vga f) Q w.
Proof. done. Qed.

Lemma wp_memcpy dst off src n (Q : bytes -> vga_world -> Prop) w :
  0 <= off -> 0 <= n -> n <= length src -> off + n <= length dst ->
  Q (blit dst (Z.to_nat off) (take (Z.to_nat n) src)) w -> wp (memcpy_to dst off src n) Q w.
Proof.
  intros H1 H2 H3 H4 HQ. unfold memcpy_to.
  rewrite (proj2 (andb_true_iff _ _)) by (rewrite !Z.leb_le; lia). by apply wp_ret.
Qed.

Lemma length_data_bytes r : length (data_bytes r) = 8%nat.
Proof. apply length_le_bytes. Qed.

(** Only the trace differs. *)
Definition quiet (w w' : vga_world) : Prop := w_st w' = w_st w /\ w_held w' = w_held w.

Section Requests.
Context (env : dev_env).
Hypothesis enough_memory : forall tr n, env tr (DCalloc n) = true.

Lemma SendMessage_spec c data w :
  wp (SendMessage env c data) (fun _ w' => quiet w w') w.
Proof.
  unfold SendMessage. destruct (_ <? 0); [by apply wp_ret|]. dev_step. dev_step.
  apply wp_bind. eapply (wp_mono _ (fun _ w' => quiet w w')).
  - destruct (0 <=? _); dev_go; done.
  - intros _ w' [H1 H2]. dev_go. done.
Qed.

Lemma SendUpdate_spec m v w :
  w_st w = Some v -> is_Some (com v) -> wp (SendUpdate env m) (fun _ w' => quiet w w') w.
Proof.
  intros Hv [c Hc]. unfold SendUpdate. dev_step. dev_step. rewrite enough_memory. cbn [negb].
  dev_step. dev_step. rewrite enough_memory. cbn [negb].
  apply wp_bind. eapply wp_get_vga; [exact Hv|]. apply wp_bind. eapply wp_get_or; [exact Hc|].
  apply wp_bind. eapply wp_mono; [apply SendMessage_spec|]. intros _ w' [H1 H2]. dev_go.
  split; simpl; [by rewrite H1|by rewrite H2].
Qed.

Lemma notify_spec m v w :
  w_st w = Some v -> is_Some (com v) -> wp (notify env m) (fun _ w' => quiet w w') w.
Proof.
  intros Hv Hc. pose proof Hc as [c Hc']. unfold notify.
  apply wp_bind. eapply wp_get_vga; [exact Hv|]. apply wp_bind. eapply wp_get_or; [exact Hc'|].
  destruct (0 <? _); [by eapply SendUpdate_spec|by apply wp_ret].
Qed.

(** The effect of a store on the mirrored memory. *)
Definition mirror (m : bytes) (r : mmio_request) : bytes :=
  let offset := u32 (mr_phys_addr r - VGA_MEM_START) in
  if offset <? HOST_VGA_SIZE - mr_len r
  then blit m (Z.to_nat offset) (take (Z.to_nat (mr_len r)) (data_bytes r)) else m.

Lemma u32_sub_small a n : 0 <= n <= 8 -> 8 <= a < 2 ^ 32 -> u32 (a - n) = a - n.
Proof. intros. apply wrap_small. unfold in_width. lia. Qed.

Lemma MirrorWrite_spec r v m t p w :
  w_st w = Some v -> vga_ok v m t p -> 0 <= mr_len r <= 8 ->
  wp (MirrorWrite r) (fun _ w' =>
    w_st w' = Some (v <| mem := Mapped (mirror m r) |>) /\ w_held w' = w_held w /\
    w_trace w' = w_trace w) w.
Proof.
  intros Hv Hok Hlen. unfold MirrorWrite, mirror. apply wp_bind.
  eapply wp_get_vga; [exact Hv|]. rewrite (u32_sub_small HOST_VGA_SIZE) by (unfold HOST_VGA_SIZE; lia).
  pose proof (wrap_range 32 (mr_phys_addr r - VGA_MEM_START) ltac:(lia)) as Ho.
  set (offset := u32 _) in *. unfold in_width in Ho.
  destruct (offset <? HOST_VGA_SIZE - mr_len r) eqn:Hlt.
  - apply Z.ltb_lt in Hlt. apply wp_bind, wp_bind. rewrite (vo_mem _ _ _ _ Hok).
    apply wp_ret, wp_bind. apply wp_memcpy; [lia|lia|rewrite length_data_bytes; lia| |].
    { rewrite (vo_lmem _ _ _ _ Hok). unfold HOST_VGA_SIZE in *. lia. }
    apply wp_set_vga, wp_ret. simpl. unfold set_field. by rewrite Hv.
  - apply wp_bind, wp_ret, wp_ret. split; [|done]. rewrite Hv.
    destruct Hok as [Hm _ _ _ _ _ _ _]. destruct v; simpl in *. by subst.
Qed.

Lemma mirror_lookup m r (i : nat) :
  length m = Z.to_nat HOST_VGA_SIZE -> 0 <= mr_len r <= 8 ->
  let offset := u32 (mr_phys_addr r - VGA_MEM_START) in
  mirror m r !! i =
  if decide (offset < HOST_VGA_SIZE - mr_len r /\ offset <= i < offset + mr_len r)
  then data_bytes r !! (i - Z.to_nat offset)%nat else m !! i.
Proof.
  intros Hm Hlen offset. unfold mirror. fold offset.
  pose proof (wrap_range 32 (mr_phys_addr r - VGA_MEM_START) ltac:(lia)) as Ho.
  fold offset in Ho. unfold in_width in Ho. unfold HOST_VGA_SIZE in *.
  destruct (offset <? 0x20000 - mr_len r) eqn:Hlt.
  - apply Z.ltb_lt in Hlt.
    assert (length (take (Z.to_nat (mr_len r)) (data_bytes r)) = Z.to_nat (mr_len r)) as Hl
      by (rewrite length_take, length_data_bytes; lia).
    rewrite blit_lookup by (rewrite Hl, Hm; lia). rewrite Hl.
    case_decide as H1; case_decide as H2; try (exfalso; lia); [|done].
    by rewrite lookup_take_lt by lia.
  - apply Z.ltb_ge in Hlt. rewrite decide_False; [done|]. lia.
Qed.

Lemma length_mirror m r :
  length m = Z.to_nat HOST_VGA_SIZE -> 0 <= mr_len r <= 8 -> length (mirror m r) = length m.
Proof.
  intros Hm Hlen. unfold mirror.
  pose proof (wrap_range 32 (mr_phys_addr r - VGA_MEM_START) ltac:(lia)) as Ho.
  unfold in_width in Ho. unfold HOST_VGA_SIZE in *. case_match eqn:Hlt; [|done].
  apply Z.ltb_lt in Hlt. apply length_blit. rewrite length_take, length_data_bytes. lia.
Qed.

(** The same for a plane of [n] bytes of which [lim] are in use, starting at
    the guest address [start]. *)
Definition plane_store (lim start : Z) (p : bytes) (r : mmio_request) : bytes :=
  let index := u32 (mr_phys_addr r - start) in
  if index <? lim - mr_len r
  then blit p (Z.to_nat index) (take (Z.to_nat (mr_len r)) (data_bytes r)) else p.

Lemma plane_store_lookup lim start p r (i : nat) :
  8 <= lim -> lim <= length p -> 0 <= mr_len r <= 8 ->
  let index := u32 (mr_phys_addr r - start) in
  plane_store lim start p r !! i =
  if decide (index < lim - mr_len r /\ index <= i < index + mr_len r)
  then data_bytes r !! (i - Z.to_nat index)%nat else p !! i.
Proof.
  intros Hlim Hp Hlen index. unfold plane_store. fold index.
  pose proof (wrap_range 32 (mr_phys_addr r - start) ltac:(lia)) as Ho.
  fold index in Ho. unfold in_width in Ho.
  destruct (index <? lim - mr_len r) eqn:Hlt.
  - apply Z.ltb_lt in Hlt.
    assert (length (take (Z.to_nat (mr_len r)) (data_bytes r)) = Z.to_nat (mr_len r)) as Hl
      by (rewrite length_take, length_data_bytes; lia).
    rewrite blit_lookup by (rewrite Hl; lia). rewrite Hl.
    case_decide as H1; case_decide as H2; try (exfalso; lia); [|done].
    by rewrite lookup_take_lt by lia.
  - apply Z.ltb_ge in Hlt. rewrite decide_False; [done|]. lia.
Qed.

Lemma length_plane_store lim start p r :
  8 <= lim -> lim <= length p -> 0 <= mr_len r <= 8 ->
  length (plane_store lim start p r) = length p.
Proof.
  intros Hlim Hp Hlen. unfold plane_store.
  pose proof (wrap_range 32 (mr_phys_addr r - start) ltac:(lia)) as Ho.
  unfold in_width in Ho. case_match eqn:Hlt; [|done].
  apply Z.ltb_lt in Hlt. apply length_blit. rewrite length_take, length_data_bytes. lia.
Qed.

Lemma VgaVideoWrite_spec r v p w :
  w_st w = Some v -> vplane v = Mapped p -> length p = Z.to_nat VIDEO_PLANE_SIZE_BYTES ->
  width v = VGA_VIDEO_WIDTH -> height v = VGA_VIDEO_HEIGHT -> is_Some (com v) ->
  0 <= mr_len r <= 8 ->
  wp (VgaVideoWrite env r) (fun res w' => (res = 0 \/ res = -1) /\ w_held w' = w_held w /\
    w_st w' = Some (v <| vplane := Mapped (plane_store 64000 VIDEO_MEM_START p r) |>)) w.
Proof.
  intros Hv Hp Hlp Hw Hht Hc Hlen. unfold VgaVideoWrite, plane_store.
  apply wp_bind. eapply wp_get_vga; [exact Hv|]. rewrite Hw, Hht.
  change (u32 (VGA_VIDEO_WIDTH * VGA_VIDEO_HEIGHT)) with 64000.
  rewrite (u32_sub_small 64000) by lia.
  pose proof (wrap_range 32 (mr_phys_addr r - VIDEO_MEM_START) ltac:(lia)) as Ho.
  set (index := u32 _) in *. unfold in_width in Ho.
  destruct (index <? 64000 - mr_len r) eqn:Hlt.
  - apply Z.ltb_lt in Hlt. apply wp_bind. rewrite Hp. apply wp_ret, wp_bind.
    apply wp_memcpy; [lia|lia|rewrite length_data_bytes; lia| |].
    { rewrite Hlp. unfold VIDEO_PLANE_SIZE_BYTES. lia. }
    apply wp_bind, wp_set_vga. apply wp_bind. eapply wp_mono.
    { eapply notify_spec; [simpl; unfold set_field; rewrite Hv; reflexivity|done]. }
    intros _ w' [H1 H2]. apply wp_ret. split; [by left|]. split; [by rewrite H2|].
    rewrite H1. simpl. unfold set_field. by rewrite Hv.
  - apply wp_ret. split; [by right|]. split; [done|]. rewrite Hv.
    destruct v; simpl in *. by subst.
Qed.

Lemma VgaTextWrite_spec r v p w :
  w_st w = Some v -> text_plane v = Mapped p -> length p = Z.to_nat TEXT_PLANE_SIZE_BYTES ->
  width v = VGA_TEXT_WIDTH -> height v = VGA_TEXT_HEIGHT -> is_Some (com v) ->
  0 <= mr_len r <= 8 ->
  wp (VgaTextWrite env r) (fun res w' => (res = 0 \/ res = -1) /\ w_held w' = w_held w /\
    w_st w' = Some (v <| text_plane := Mapped (plane_store 2000 TEXT_MEM_START p r) |>)) w.
Proof.
  intros Hv Hp Hlp Hw Hht Hc Hlen. unfold VgaTextWrite, plane_store.
  apply wp_bind. eapply wp_get_vga; [exact Hv|]. rewrite Hw, Hht.
  change (u32 (VGA_TEXT_WIDTH * VGA_TEXT_HEIGHT)) with 2000.
  rewrite (u32_sub_small 2000) by lia.
  pose proof (wrap_range 32 (mr_phys_addr r - TEXT_MEM_START) ltac:(lia)) as Ho.
  set (index := u32 _) in *. unfold in_width in Ho.
  destruct (index <? 2000 - mr_len r) eqn:Hlt.
  - apply Z.ltb_lt in Hlt. apply wp_bind. rewrite Hp. apply wp_ret, wp_bind.
    apply wp_memcpy; [lia|lia|rewrite length_data_bytes; lia| |].
    { rewrite Hlp. unfold TEXT_PLANE_SIZE_BYTES. lia. }
    apply wp_bind, wp_set_vga. apply wp_bind. eapply wp_mono.
    { eapply notify_spec; [simpl; unfold set_field; rewrite Hv; reflexivity|done]. }
    intros _ w' [H1 H2]. apply wp_ret. split; [by left|]. split; [by rewrite H2|].
    rewrite H1. simpl. unfold set_field. by rewrite Hv.
  - apply wp_ret. split; [by right|]. split; [done|]. rewrite Hv.
    destruct v; simpl in *. by subst.
Qed.

(** A store changes memory and screen at the same place. *)
Lemma video_coherent_store m p r :
  length m = Z.to_nat HOST_VGA_SIZE -> length p = Z.to_nat VIDEO_PLANE_SIZE_BYTES ->
  0 <= mr_len r <= 8 -> video_coherent m p ->
  video_coherent (mirror m r) (plane_store 64000 VIDEO_MEM_START p r).
Proof.
  intros Hm Hp Hlen Hco i Hi. unfold VIDEO_PLANE_SIZE_BYTES in Hp.
  rewrite mirror_lookup, plane_store_lookup by (done || lia).
  unfold VIDEO_MEM_START. unfold HOST_VGA_SIZE.
  case_decide; case_decide; try (exfalso; lia); [done|by apply Hco].
Qed.

Lemma text_coherent_store m t r :
  length m = Z.to_nat HOST_VGA_SIZE -> length t = Z.to_nat TEXT_PLANE_SIZE_BYTES ->
  access_ok r -> text_coherent m t ->
  text_coherent (mirror m r) (plane_store 2000 TEXT_MEM_START t r).
Proof.
  intros Hm Ht [Hlen Hpage] Hco i Hi. unfold TEXT_PLANE_SIZE_BYTES in Ht.
  rewrite mirror_lookup, plane_store_lookup by (done || lia).
  set (offset := u32 (mr_phys_addr r - VGA_MEM_START)).
  set (index := u32 (mr_phys_addr r - TEXT_MEM_START)).
  assert (index = u32 (offset - TEXT_MEM_START_OFF)) as Hidx.
  { unfold index, offset, wrap. rewrite Zminus_mod_idemp_l. f_equal.
    unfold VGA_MEM_START, TEXT_MEM_START, TEXT_MEM_START_OFF. lia. }
  assert (offset mod 4096 = mr_phys_addr r mod 4096) as Hmod.
  { unfold offset, wrap, VGA_MEM_START.
    replace (2 ^ 32) with (4096 * 2 ^ 20) by reflexivity.
    rewrite Z.rem_mul_r by lia. rewrite (Z.mul_comm 4096), Z.mod_add, Z.mod_mod by lia.
    rewrite Zminus_mod. change (0xA0000 mod 4096) with 0.
    by rewrite Z.sub_0_r, Z.mod_mod by lia. }
  pose proof (wrap_range 32 (mr_phys_addr r - VGA_MEM_START) ltac:(lia)) as Ho.
  fold offset in Ho. unfold in_width in Ho. unfold TEXT_MEM_START_OFF, HOST_VGA_SIZE in *.
  destruct (Z.lt_ge_cases offset 0x18000) as [Hlow|Hhigh].
  - (* below the text area, which starts a page *)
    assert (index = offset - 0x18000 + 2 ^ 32) as Hi1.
    { rewrite Hidx. unfold wrap. rewrite <-(Z.mod_add _ 1) by lia.
      rewrite Z.mul_1_l. apply Z.mod_small. lia. }
    assert (offset + mr_len r <= 0x18000).
    { pose proof (Z.div_mod offset 4096 ltac:(lia)).
      pose proof (Z.mod_pos_bound offset 4096 ltac:(lia)).
      assert (offset / 4096 < 24) by (apply Z.div_lt_upper_bound; lia). lia. }
    rewrite !decide_False by lia. by apply Hco.
  - assert (index = offset - 0x18000) as Hi1.
    { rewrite Hidx. apply wrap_small. unfold in_width. lia. }
    case_decide; case_decide; try (exfalso; lia).
    + f_equal. lia.
    + by apply Hco.
Qed.

(** Memory after an access, on the mirrored memory only. *)
Definition mem_after (r : mmio_request) (m : bytes) : bytes :=
  if mr_is_write r =? 0 then m else mirror m r.

Lemma MirrorRead_spec r v m t p w :
  w_st w = Some v -> vga_ok v m t p -> 0 <= mr_len r <= 8 ->
  let offset := u32 (mr_phys_addr r - VGA_MEM_START) in
  wp (MirrorRead r) (fun d w' => w' = w /\
    d = if offset <? HOST_VGA_SIZE - mr_len r
        then le_val (blit (data_bytes r) 0
               (take (Z.to_nat (mr_len r)) (drop (Z.to_nat offset) m)))
        else mr_data r) w.
Proof.
  intros Hv Hok Hlen offset. unfold MirrorRead. fold offset. apply wp_bind.
  eapply wp_get_vga; [exact Hv|].
  rewrite (u32_sub_small HOST_VGA_SIZE) by (unfold HOST_VGA_SIZE; lia).
  pose proof (wrap_range 32 (mr_phys_addr r - VGA_MEM_START) ltac:(lia)) as Ho.
  fold offset in Ho. unfold in_width in Ho.
  destruct (offset <? HOST_VGA_SIZE - mr_len r) eqn:Hlt; [|by apply wp_ret].
  apply Z.ltb_lt in Hlt. apply wp_bind. rewrite (vo_mem _ _ _ _ Hok). apply wp_ret, wp_bind.
  apply wp_memcpy; [lia|lia| |rewrite length_data_bytes; lia|by apply wp_ret].
  rewrite length_drop, (vo_lmem _ _ _ _ Hok). unfold HOST_VGA_SIZE in *. lia.
Qed.

(** What an access answers: the data of a read, zero for a write. *)
Definition answer (r : mmio_request) (m : bytes) : Z :=
  let offset := u32 (mr_phys_addr r - VGA_MEM_START) in
  if negb (mr_is_write r =? 0) then 0
  else if offset <? HOST_VGA_SIZE - mr_len r
  then le_val (blit (data_bytes r) 0 (take (Z.to_nat (mr_len r)) (drop (Z.to_nat offset) m)))
  else mr_data r.

Lemma VgaHandleMmio_spec fd r v m t p w :
  w_st w = Some v -> vga_ok v m t p -> access_ok r ->
  wp (VgaHandleMmio env fd r) (fun _ w' => w_held w' = w_held w /\
    last (w_trace w') = Some (DWrite fd (le_bytes 4 (answer r m)) : call dev_iface) /\
    exists v' t' p', w_st w' = Some v' /\ vga_ok v' (mem_after r m) t' p' /\ mode v' = mode v /\
      (mr_is_write r <> 0 -> mode v = VGA_MODE_VIDEO ->
         p' = plane_store 64000 VIDEO_MEM_START p r /\ t' = t) /\
      (mr_is_write r <> 0 -> mode v = VGA_MODE_TEXT ->
         t' = plane_store 2000 TEXT_MEM_START t r /\ p' = p)) w.
Proof.
  intros Hv Hok Hacc. pose proof Hacc as [Hlen _]. unfold VgaHandleMmio, mem_after, answer.
  destruct (Z.eqb_spec (mr_is_write r) 0) as [Hrd|Hwr]; cbn [negb].
  { apply wp_bind. eapply wp_mono; [by eapply MirrorRead_spec|]. intros d ? [-> ->].
    unfold HandledRequest. dev_go. split; [done|]. split; [apply last_snoc|].
    by exists v, t, p. }
  apply wp_bind. eapply wp_mono; [by eapply MirrorWrite_spec|]. intros _ w1 (Hv1 & Hh1 & _).
  apply wp_bind. eapply wp_get_vga; [exact Hv1|]. apply wp_bind.
  destruct Hok as [Hm Ht Hp Hlm Hlt Hlp Hc Hmode].
  pose proof (length_mirror m r Hlm Hlen) as Hlm'.
  destruct Hmode as [(Emode & Ew & Eh & Hco)|(Emode & Ew & Eh & Hco)]; simpl; rewrite Emode; simpl.
  - eapply wp_mono; [by eapply (VgaVideoWrite_spec r _ p w1 Hv1)|].
    intros res w2 (_ & Hh2 & Hv2). unfold HandledRequest. dev_go. split; [simpl; congruence|].
    split; [apply last_snoc|].
    eexists _, t, _. split; [exact Hv2|]. split; [|done]. constructor; try done; simpl; try congruence.
    + rewrite length_plane_store; [done|lia| |done]. rewrite Hlp. unfold VIDEO_PLANE_SIZE_BYTES. lia.
    + left. split; [done|]. split; [done|]. split; [done|]. by apply video_coherent_store.
  - eapply wp_mono; [by eapply (VgaTextWrite_spec r _ t w1 Hv1)|].
    intros res w2 (_ & Hh2 & Hv2). unfold HandledRequest. dev_go. split; [simpl; congruence|].
    split; [apply last_snoc|].
    eexists _, _, p. split; [exact Hv2|]. split; [|done]. constructor; try done; simpl; try congruence.
    + rewrite length_plane_store; [done|lia| |done]. rewrite Hlt. unfold TEXT_PLANE_SIZE_BYTES. lia.
    + right. split; [done|]. split; [done|]. split; [done|]. by apply text_coherent_store.
Qed.

Lemma take_blit_all (p src : bytes) n :
  length p = n -> (n <= length src)%nat -> blit p 0 (take n src) = take n src.
Proof.
  intros Hp Hs. unfold blit. rewrite length_take, Nat.min_l by done. simpl.
  rewrite drop_ge by lia. apply app_nil_r.
Qed.

Lemma VgaChangeMode_spec r v m t p w :
  w_st w = Some v -> vga_ok v m t p ->
  wp (VgaChangeMode r) (fun _ w' => w_held w' = w_held w /\ w_trace w' = w_trace w /\
    exists v' t' p', w_st w' = Some v' /\ vga_ok v' m t' p' /\
      (pio_direction r <> PIO_READ -> u8 (pio_data r) = VGA_MODE_VIDEO ->
         mode v' = VGA_MODE_VIDEO /\ p' = take (Z.to_nat VIDEO_PLANE_SIZE_BYTES) m) /\
      (pio_direction r <> PIO_READ -> u8 (pio_data r) = VGA_MODE_TEXT ->
         mode v' = VGA_MODE_TEXT /\ t' = take (Z.to_nat TEXT_PLANE_SIZE_BYTES)
           (drop (Z.to_nat TEXT_MEM_START_OFF) m))) w.
Proof.
  intros Hv Hok. pose proof Hok as [Hm Ht Hp Hlm Hlt Hlp Hc Hmode]. unfold VgaChangeMode.
  apply wp_bind. eapply wp_get_vga; [exact Hv|].
  destruct (pio_direction r =? PIO_READ) eqn:Hdir.
  { apply Z.eqb_eq in Hdir. apply wp_ret. split; [done|]. split; [done|]. by exists v, t, p. }
  apply Z.eqb_neq in Hdir.
  unfold HOST_VGA_SIZE, VIDEO_PLANE_SIZE_BYTES, TEXT_PLANE_SIZE_BYTES, TEXT_MEM_START_OFF in *.
  destruct (u8 (pio_data r) =? VGA_MODE_VIDEO) eqn:Hvid.
  { apply Z.eqb_eq in Hvid. apply wp_bind, wp_set_vga. rewrite Hm, Hp. apply wp_bind, wp_ret.
    apply wp_bind, wp_ret, wp_bind, wp_memcpy; [lia|lia|lia|lia|].
    apply wp_bind, wp_set_vga, wp_ret. split; [done|]. split; [done|].
    change (Z.to_nat 0) with 0%nat. rewrite take_blit_all by lia.
    eexists _, t, _. split; [simpl; unfold set_field; rewrite Hv; reflexivity|]. split.
    - constructor; try done; simpl.
      + rewrite length_take, Hlm. unfold VIDEO_PLANE_SIZE_BYTES. lia.
      + left. split; [done|]. split; [done|]. split; [done|]. intros i Hi.
        by rewrite lookup_take_lt by lia.
    - split; [done|]. intros _ H2. rewrite Hvid in H2. discriminate H2. }
  apply Z.eqb_neq in Hvid.
  destruct (u8 (pio_data r) =? VGA_MODE_TEXT) eqn:Htxt.
  { apply Z.eqb_eq in Htxt. apply wp_bind, wp_set_vga. rewrite Hm, Ht. apply wp_bind, wp_ret.
    apply wp_bind, wp_ret, wp_bind, wp_memcpy; [lia|lia|rewrite length_drop; lia|lia|].
    apply wp_bind, wp_set_vga, wp_ret. split; [done|]. split; [done|].
    change (Z.to_nat 0) with 0%nat. rewrite take_blit_all by (rewrite ?length_drop; lia).
    eexists _, _, p. split; [simpl; unfold set_field; rewrite Hv; reflexivity|]. split.
    - constructor; try done; simpl.
      + rewrite length_take, length_drop, Hlm. unfold TEXT_PLANE_SIZE_BYTES. lia.
      + right. split; [done|]. split; [done|]. split; [done|]. intros i Hi.
        rewrite lookup_take_lt by lia. apply lookup_drop.
    - split; [done|]. done. }
  apply wp_ret. split; [done|]. split; [done|]. apply Z.eqb_neq in Htxt. by exists v, t, p.
Qed.

Definition request_ok (io : bytes) : Prop :=
  match load_io_request io with Some (Mmio r) => access_ok r | _ => True end.

(** The video memory after a request. *)
Definition request_mem (m io : bytes) : bytes :=
  match load_io_request io with Some (Mmio r) => mem_after r m | _ => m end.

Lemma handleRequest_spec fd io m w :
  vga_at (w_st w) m -> w_held w = [] -> request_ok io ->
  wp (handleRequest env fd io) (fun _ w' => vga_at (w_st w') (request_mem m io) /\ w_held w' = []) w.
Proof.
  intros (v & t & p & Hv & Hok) Hh Hreq. unfold handleRequest, request_ok, request_mem in *.
  apply wp_bind, wp_dlock; [rewrite Hh; apply not_elem_of_nil|].
  set (w1 := w <| w_held ::= _ |>).
  assert (w_held w1 = [vga_lock : mutex dev_iface]) as Hh1
    by (unfold w1; simpl; unfold set_field; by rewrite Hh).
  assert (w_st w1 = Some v) as Hv1 by done. clearbody w1. apply wp_bind.
  eapply (wp_mono _ (fun _ w' => w_held w' = w_held w1 /\ vga_at (w_st w') (request_mem m io))).
  - unfold request_mem. destruct (load_io_request io) as [[r|r]|].
    + unfold VgaHandlePio. apply wp_bind.
      eapply (wp_mono _ (fun _ w' => w_held w' = w_held w1 /\ vga_at (w_st w') m)).
      * destruct (_ =? VGA_PORT_CHANGE_MODE); [|apply wp_ret; split; [done|by exists v, t, p]].
        eapply wp_mono; [by eapply VgaChangeMode_spec|].
        intros res w2 (H1 & _ & v' & t' & p' & H2 & H3 & _). split; [done|]. by exists v', t', p'.
      * intros res w2 [H1 H2]. unfold HandledRequest. dev_go. done.
    + eapply wp_mono; [by eapply VgaHandleMmio_spec|].
      intros res w2 (H1 & _ & v' & t' & p' & H2 & H3 & _). split; [done|]. by exists v', t', p'.
    + apply wp_ret. split; [done|]. by exists v, t, p.
  - intros res w2 [H1 H2]. apply wp_bind.
    eapply (wp_dunlock vga_lock []); [by rewrite H1|apply not_elem_of_nil|]. by apply wp_ret.
Qed.
End Requests.
