(* ===== verification/DeviceProps.v ===== *)
(** * DeviceProps: the correctness of the device processes

    The display device serves requests of any number of CPUs, one at a time
    under its lock; the work queue hands items out in order; a device agrees
    with the monitor on the number of CPUs. *)

From S2P Require Import Prelude Effects Libc Wire Machine DeviceBus Device ThreadPool Vga.

(** ** Sample device *)

Definition quiet_dev_env : dev_env := fun _ (c : dev_call) =>
  match c return dev_reply c with
  | DCalloc _ => true
  | DRead _ n => (20, store_init_response tini_magic (response_fds 2 [(10, 11); (12, 13); (0, 0); (0, 0)]))
  | DGetenv _ => None
  | DNew _ => []
  | DStat _ | DRealpath _ | DMapFile _ => None
  | DRandombytes _ | DReadFile _ => []
  | DPayload _ _ _ _ => PayloadExit 0 [] [] [] 0 false
  | DWrite _ data => length data
  | _ => 0
  end.

Definition blank (n : Z) : bytes := replicate (Z.to_nat n) 0.

Definition sample_vga : ooows_vga_dev :=
  Vga 320 200 VGA_MODE_VIDEO (Mapped (blank HOST_VGA_SIZE)) (Mapped (blank TEXT_PLANE_SIZE_BYTES))
    None (Mapped (blank VIDEO_PLANE_SIZE_BYTES)) None (Some (Com "c" "c-cache" "c" 3 (-1) 0 true)).

Definition dev_start {S} (s : S) : dev_world S := World s [] [].

Lemma sample_vga_ok :
  vga_ok sample_vga (blank HOST_VGA_SIZE) (blank TEXT_PLANE_SIZE_BYTES) (blank VIDEO_PLANE_SIZE_BYTES).
Proof.
  constructor;
    [reflexivity | reflexivity | reflexivity | apply length_replicate | apply length_replicate
    | apply length_replicate | by eexists |].
  left. do 3 (split; [reflexivity|]). intros i Hi. unfold blank, VIDEO_PLANE_SIZE_BYTES, HOST_VGA_SIZE.
  rewrite !lookup_replicate_2 by lia. done.
Qed.

(** A store of the four bytes of [d] at [a], and a load from there. *)
Definition sample_store (a d : Z) : mmio_request := MmioRequest a d 4 1.

Lemma sample_access_ok a d b : a mod 4096 = 0 -> access_ok (MmioRequest a d 4 b).
Proof. intros Ha. unfold access_ok. simpl. rewrite Ha. lia. Qed.

(** ** The display *)





(** The first bytes of the answer to a load of what a store left at [off]. *)
Lemma answer_of_store m off n d d' :
  (n <= 4)%nat -> (off + n <= length m)%nat ->
  take n (le_bytes 4 (le_val (blit (le_bytes 8 d') 0
    (take n (drop off (blit m off (take n (le_bytes 8 d)))))))) = take n (le_bytes 8 d).
Proof.
  intros Hn Hoff. set (src := take n (le_bytes 8 d)).
  assert (length src = n) as Hl by (unfold src; rewrite length_take, length_le_bytes; lia).
  pose proof (load_blit_same m off src ltac:(lia)) as Hload. rewrite Hl in Hload.
  unfold load in Hload. rewrite Hload. rewrite le_bytes_val_take.
  - rewrite take_take, Nat.min_l by lia. unfold blit. simpl (take 0 _). rewrite app_nil_l.
    by rewrite take_app_length'.
  - unfold blit. apply Forall_app. split; [apply Forall_nil_2|]. apply Forall_app. split.
    + apply Forall_take, le_bytes_is_bytes.
    + apply Forall_drop, le_bytes_is_bytes.
  - rewrite length_blit; rewrite length_le_bytes; lia.
Qed.

(** A load returns what the last store wrote: after a store of at most four
    bytes into the video memory, a load of the same bytes is answered with them,
    in either mode. *)
Theorem vga_read_after_write (env : dev_env) fd fd' (r : mmio_request) data v m t p (w : vga_world) :
  (forall tr n, env tr (DCalloc n) = true) ->
  w_st w = Some v -> vga_ok v m t p ->
  access_ok r -> mr_len r <= 4 -> mr_is_write r <> 0 ->
  u32 (mr_phys_addr r - VGA_MEM_START) < HOST_VGA_SIZE - mr_len r ->
  wp (_ ← VgaHandleMmio env fd r;
      VgaHandleMmio env fd' (r <| mr_is_write := 0 |> <| mr_data := data |>))
     (fun _ w' => exists reply, last (w_trace w') = Some (DWrite fd' reply : call dev_iface) /\
        length reply = 4%nat /\
        take (Z.to_nat (mr_len r)) reply = take (Z.to_nat (mr_len r)) (le_bytes 8 (mr_data r))) w.
Proof.
  intros Hmem Hv Hok Hacc Hlen Hwr Hoff. apply wp_bind.
  eapply wp_mono; [by eapply (VgaHandleMmio_spec env Hmem fd r v m t p)|].
  intros _ w1 (_ & _ & v1 & t1 & p1 & Hv1 & Hok1 & _).
  eapply wp_mono; [eapply (VgaHandleMmio_spec env Hmem); [exact Hv1|exact Hok1|done]|].
  intros _ w2 (_ & Hlast & _). eexists. split; [exact Hlast|].
  split; [apply length_le_bytes|]. unfold answer, mem_after.
  rewrite (proj2 (Z.eqb_neq _ _) Hwr). unfold mirror.
  cbn -[le_bytes le_val blit u32 data_bytes VGA_MEM_START HOST_VGA_SIZE Nat.min Z.ltb].
  rewrite (proj2 (Z.ltb_lt _ _) Hoff). apply answer_of_store.
  - destruct Hacc. lia.
  - rewrite (vo_lmem _ _ _ _ Hok). destruct Hacc. unfold HOST_VGA_SIZE in *. lia.
Qed.

Lemma vga_read_after_write_witness :
  wp (_ ← VgaHandleMmio quiet_dev_env 5 (sample_store 0xB8000 0x11223344);
      VgaHandleMmio quiet_dev_env 6 (MmioRequest 0xB8000 7 4 0))
     (fun _ w' => exists reply, last (w_trace w') = Some (DWrite 6 reply : call dev_iface) /\
        length reply = 4%nat /\ take 4 reply = take 4 (le_bytes 8 0x11223344))
     (dev_start (Some sample_vga)).
Proof.
  apply (vga_read_after_write quiet_dev_env 5 6 (sample_store 0xB8000 0x11223344) 7 sample_vga
    (blank HOST_VGA_SIZE) (blank TEXT_PLANE_SIZE_BYTES) (blank VIDEO_PLANE_SIZE_BYTES)).
  - done.
  - reflexivity.
  - apply sample_vga_ok.
  - by apply sample_access_ok.
  - done.
  - done.
  - reflexivity.
Defined.

(** In the graphics mode a store draws exactly its own bytes: those of a
    store that ends before the last byte of the screen appear on the plane, and
    no other byte of it changes; the text plane is left alone. *)
Theorem video_store_drawn (env : dev_env) fd (r : mmio_request) v m t p (w : vga_world) (i : nat) :
  (forall tr n, env tr (DCalloc n) = true) ->
  w_st w = Some v -> vga_ok v m t p -> mode v = VGA_MODE_VIDEO ->
  access_ok r -> mr_is_write r <> 0 ->
  let index := u32 (mr_phys_addr r - VIDEO_MEM_START) in
  wp (VgaHandleMmio env fd r)
     (fun _ w' => exists v' p', w_st w' = Some v' /\ vplane v' = Mapped p' /\
        text_plane v' = Mapped t /\
        p' !! i = if decide (index < 64000 - mr_len r /\ index <= i < index + mr_len r)
                  then le_bytes 8 (mr_data r) !! (i - Z.to_nat index)%nat else p !! i) w.
Proof.
  intros Hmem Hv Hok Hmode Hacc Hwr index.
  eapply wp_mono; [by eapply (VgaHandleMmio_spec env Hmem fd r v m t p)|].
  intros _ w' (_ & _ & v' & t' & p' & Hv' & Hok' & _ & Hvid & _).
  destruct (Hvid Hwr Hmode) as [-> ->]. exists v', (plane_store 64000 VIDEO_MEM_START p r).
  split; [done|]. split; [by apply (vo_video _ _ _ _ Hok')|]. split; [by apply (vo_text _ _ _ _ Hok')|].
  apply plane_store_lookup; [lia| |by destruct Hacc].
  rewrite (vo_lvideo _ _ _ _ Hok). unfold VIDEO_PLANE_SIZE_BYTES. lia.
Qed.

Lemma video_store_drawn_witness :
  wp (VgaHandleMmio quiet_dev_env 5 (sample_store 0xA1000 0x11223344))
     (fun _ w' => exists v' p', w_st w' = Some v' /\ vplane v' = Mapped p' /\
        text_plane v' = Mapped (blank TEXT_PLANE_SIZE_BYTES) /\
        p' !! 4097%nat = if decide (0x1000 < 64000 - 4 /\ 0x1000 <= 4097%nat < 0x1000 + 4)
                  then le_bytes 8 0x11223344 !! (4097 - Z.to_nat 0x1000)%nat
                  else blank VIDEO_PLANE_SIZE_BYTES !! 4097%nat)
     (dev_start (Some sample_vga)).
Proof.
  apply (video_store_drawn quiet_dev_env 5 (sample_store 0xA1000 0x11223344) sample_vga
    (blank HOST_VGA_SIZE) (blank TEXT_PLANE_SIZE_BYTES) (blank VIDEO_PLANE_SIZE_BYTES)).
  - done.
  - reflexivity.
  - apply sample_vga_ok.
  - done.
  - by apply sample_access_ok.
  - done.
Defined.

(** The strict bound of the drawing functions keeps the end of both screens
    out of reach: whatever the guest stores, the last pixel of the graphics mode
    and the second half of the text screen, with its byte 1999, keep what they
    show until the mode is set again. *)
Theorem end_of_screen_unwritable (env : dev_env) (reqs : list (Z * mmio_request)) v m t p
    (w : vga_world) :
  (forall tr n, env tr (DCalloc n) = true) ->
  w_st w = Some v -> vga_ok v m t p ->
  Forall (fun r => access_ok r.2 /\ mr_is_write r.2 <> 0 /\ 1 <= mr_len r.2) reqs ->
  wp (for_each reqs (fun '(fd, r) => _ ← VgaHandleMmio env fd r; mret tt))
     (fun _ w' => exists v' p' t', w_st w' = Some v' /\ vplane v' = Mapped p' /\
        text_plane v' = Mapped t' /\
        p' !! Z.to_nat 63999 = p !! Z.to_nat 63999 /\
        forall i : nat, (1999 <= i)%nat -> t' !! i = t !! i) w.
Proof.
  intros Hmem Hv Hok Hreqs.
  apply (wp_for_each reqs _ (fun _ w' => exists v' m' p' t', w_st w' = Some v' /\ vga_ok v' m' t' p' /\
    p' !! Z.to_nat 63999 = p !! Z.to_nat 63999 /\
    forall i : nat, (1999 <= i)%nat -> t' !! i = t !! i)).
  - by exists v, m, p, t.
  - intros pre [fd r] post w1 -> (v1 & m1 & p1 & t1 & Hv1 & Hok1 & Hp1 & Ht1).
    apply Forall_app in Hreqs as [_ Hreqs]. apply Forall_cons in Hreqs as [(Hacc & Hwr & Hlen) _].
    cbn [snd] in *. apply wp_bind.
    eapply wp_mono; [by eapply (VgaHandleMmio_spec env Hmem fd r v1 m1 t1 p1)|].
    intros _ w2 (_ & _ & v2 & t2 & p2 & Hv2 & Hok2 & _ & Hvid & Htxt). apply wp_ret.
    exists v2, (mem_after r m1), p2, t2. split; [done|]. split; [done|].
    destruct (vo_mode _ _ _ _ Hok1) as [(Hmode & _)|(Hmode & _)].
    + destruct (Hvid Hwr Hmode) as [-> ->]. split; [|done]. rewrite <-Hp1.
      rewrite plane_store_lookup; [| lia | |by destruct Hacc].
      * apply decide_False. lia.
      * rewrite (vo_lvideo _ _ _ _ Hok1). unfold VIDEO_PLANE_SIZE_BYTES. lia.
    + destruct (Htxt Hwr Hmode) as [-> ->]. split; [done|]. intros i Hi. rewrite <-Ht1 by done.
      rewrite plane_store_lookup; [| lia | |by destruct Hacc].
      * apply decide_False. lia.
      * rewrite (vo_ltext _ _ _ _ Hok1). unfold TEXT_PLANE_SIZE_BYTES. lia.
  - intros w' (v' & m' & p' & t' & Hv' & Hok' & Hp' & Ht'). exists v', p', t'.
    split; [done|]. split; [by apply (vo_video _ _ _ _ Hok')|].
    split; [by apply (vo_text _ _ _ _ Hok')|]. done.
Qed.

Lemma end_of_screen_unwritable_witness :
  wp (for_each [(5, MmioRequest 0xAF9FF 0xff 1 1); (6, sample_store 0xA0000 1)]
       (fun '(fd, r) => _ ← VgaHandleMmio quiet_dev_env fd r; mret tt))
     (fun _ w' => exists v' p' t', w_st w' = Some v' /\ vplane v' = Mapped p' /\
        text_plane v' = Mapped t' /\
        p' !! Z.to_nat 63999 = blank VIDEO_PLANE_SIZE_BYTES !! Z.to_nat 63999 /\
        forall i : nat, (1999 <= i)%nat -> t' !! i = blank TEXT_PLANE_SIZE_BYTES !! i)
     (dev_start (Some sample_vga)).
Proof.
  apply (end_of_screen_unwritable quiet_dev_env _ sample_vga (blank HOST_VGA_SIZE)).
  - done.
  - reflexivity.
  - apply sample_vga_ok.
  - apply Forall_cons_2; [|apply Forall_cons_2; [|apply Forall_nil_2]].
    + split; [by vm_compute|]. done.
    + split; [by apply sample_access_ok|]. done.
Defined.

(** Setting a mode redraws the whole screen from the video memory: after a
    write of a mode number to the mode port the device is in that mode, its
    plane is the start of the video memory (graphics) or of the text area
    (text), and the request is answered. *)
Theorem mode_switch_redraws (env : dev_env) fd (r : ioport_request) v m t p (w : vga_world) :
  w_st w = Some v -> vga_ok v m t p ->
  pio_port r = VGA_PORT_CHANGE_MODE -> pio_direction r <> PIO_READ ->
  u8 (pio_data r) = VGA_MODE_VIDEO \/ u8 (pio_data r) = VGA_MODE_TEXT ->
  wp (VgaHandlePio env fd r)
     (fun res w' => res = 0 /\ (exists v' t' p', w_st w' = Some v' /\ vga_ok v' m t' p' /\
        mode v' = u8 (pio_data r) /\
        (if mode v' =? VGA_MODE_VIDEO then p' = take (Z.to_nat VIDEO_PLANE_SIZE_BYTES) m
         else t' = take (Z.to_nat TEXT_PLANE_SIZE_BYTES) (drop (Z.to_nat TEXT_MEM_START_OFF) m))) /\
        exists reply, w_trace w' = w_trace w ++ [DWrite fd reply : call dev_iface]) w.
Proof.
  intros Hv Hok Hport Hdir Hmode. unfold VgaHandlePio. rewrite Hport, Z.eqb_refl. apply wp_bind.
  eapply wp_mono; [by apply (VgaChangeMode_spec r v m t p)|].
  intros res w1 (_ & Htr & v' & t' & p' & Hv' & Hok' & Hvid & Htxt).
  unfold HandledRequest. dev_go. split; [done|]. split.
  - exists v', t', p'. split; [done|]. split; [done|]. destruct Hmode as [E|E].
    + destruct (Hvid Hdir E) as [-> ->]. by rewrite E.
    + destruct (Htxt Hdir E) as [-> ->]. by rewrite E.
  - exists (le_bytes 4 res). cbn [w_trace]. unfold set_field. simpl. by rewrite Htr.
Qed.

Lemma mode_switch_redraws_witness :
  wp (VgaHandlePio quiet_dev_env 5 (IoportRequest VGA_PORT_CHANGE_MODE 1 1 VGA_MODE_TEXT 1))
     (fun res w' => res = 0 /\ (exists v' t' p', w_st w' = Some v' /\
        vga_ok v' (blank HOST_VGA_SIZE) t' p' /\ mode v' = u8 VGA_MODE_TEXT /\
        (if mode v' =? VGA_MODE_VIDEO then p' = take (Z.to_nat VIDEO_PLANE_SIZE_BYTES) (blank HOST_VGA_SIZE)
         else t' = take (Z.to_nat TEXT_PLANE_SIZE_BYTES)
                (drop (Z.to_nat TEXT_MEM_START_OFF) (blank HOST_VGA_SIZE)))) /\
        exists reply, w_trace w' = [] ++ [DWrite 5 reply : call dev_iface])
     (dev_start (Some sample_vga)).
Proof.
  apply (mode_switch_redraws quiet_dev_env 5 (IoportRequest VGA_PORT_CHANGE_MODE 1 1 VGA_MODE_TEXT 1)
    sample_vga (blank HOST_VGA_SIZE) (blank TEXT_PLANE_SIZE_BYTES) (blank VIDEO_PLANE_SIZE_BYTES)).
  - reflexivity.
  - apply sample_vga_ok.
  - reflexivity.
  - done.
  - by right.
Defined.

(** ** The work queue *)

(** C36: The linked list of the thread pool implements a queue: for every
    sequence of submissions and of rounds of workers on a new pool, each worker
    is given the oldest item that waits, none is lost or given out twice, no
    link is dangling and the lock is free at the end. *)
Theorem threadpool_refines_fifo (env : dev_env) others ops (tr : list (call dev_iface)) :
  (forall tr n, env tr (DCalloc n) = true) -> length ops < 2 ^ 64 ->
  wp (pool_run env others ops) (fun rs w' => rs = fifo ops [] /\ w_held w' = [])
     (World pool_zero tr []).
Proof.
  intros Hmem Hlen. apply (pool_run_fifo env others Hmem ops []); [|done|simpl; lia].
  constructor; simpl; try done. apply NoDup_nil_2.
Qed.

Lemma threadpool_refines_fifo_witness :
  wp (pool_run quiet_dev_env (fun _ t => t)
        [Submit [1]; Submit [2]; RunOne; Submit [3]; RunOne; RunOne; RunOne])
     (fun rs w' => rs = [None; None; Some [1]; None; Some [2]; Some [3]; None] /\ w_held w' = [])
     (World pool_zero [] []).
Proof. apply (threadpool_refines_fifo quiet_dev_env); [done|vm_compute; reflexivity]. Defined.

(** ** The handshake *)

(** Monitor and device agree at the handshake: when the device reads the
    structure that the monitor sends for [n] CPUs, it succeeds and knows the
    number of CPUs and the descriptor of each, in the order of the monitor's
    socket pairs. *)
Theorem handshake_agrees {S} (env : dev_env) fd (n : nat) (sv : list (Z * Z)) (w : dev_world S) :
  (forall tr, env tr (DRead fd sizeof_init_response) =
     (Z.of_nat sizeof_init_response, store_init_response tini_magic (response_fds n sv))) ->
  (n <= NR_MAX_VCPUS)%nat -> length sv = NR_MAX_VCPUS -> Forall (fun p => 0 < p.2 < 2 ^ 31) (take n sv) ->
  wp (DeviceHandshake env fd)
     (fun r w' => r = (0, response_fds n sv, Z.of_nat n) /\ w_st w' = w_st w) w.
Proof.
  intros Henv Hn Hsv Hfds. unfold DeviceHandshake, DeviceWrite. dev_go. rewrite Henv.
  cbn [fst snd].
  assert (length (response_fds n sv) = 4%nat) as Hl.
  { unfold response_fds. rewrite length_app, length_take, length_fmap, length_replicate, Hsv.
    unfold NR_MAX_VCPUS in *. lia. }
  assert (length (take n sv.*2) = n) as Hln.
  { rewrite length_take, length_fmap, Hsv. lia. }
  assert (Forall (fun x => 0 < x < 2 ^ 31) (take n sv.*2)) as Hpos.
  { rewrite <-fmap_take. by apply Forall_fmap. }
  set (resp := store_init_response tini_magic (response_fds n sv)).
  assert (length resp = 20%nat) as Hresp
    by (unfold resp, store_init_response; rewrite length_words; cbn [length]; lia).
  assert (blit (replicate sizeof_init_response 0) 0 (take sizeof_init_response resp) = resp) as ->.
  { unfold sizeof_init_response. rewrite take_ge by lia. unfold blit. cbn [take].
    rewrite drop_ge by (rewrite length_replicate; lia). by rewrite app_nil_l, app_nil_r. }
  change (u64 (Z.of_nat sizeof_init_response) <? sizeof_init_response) with false. cbv iota.
  apply wp_ret. split; [|done].
  assert (load_init_fds resp = response_fds n sv) as ->.
  { apply load_init_response; [done|]. unfold response_fds. apply Forall_app. split.
    - eapply Forall_impl; [exact Hpos|]. simpl. lia.
    - apply Forall_replicate. lia. }
  change (load resp 0 4) with (le_bytes 4 tini_magic).
  change (strncmp 4 (le_bytes 4 tini_magic) (string_bytes "TINI")) with 0.
  unfold response_fds. rewrite count_fds_app, Hln; [done|].
  eapply Forall_impl; [exact Hpos|]. simpl. lia.
Qed.

Lemma handshake_agrees_witness :
  wp (DeviceHandshake quiet_dev_env CHILD_DEVICE_CHANNEL_FD)
     (fun r w' => r = (0, [11; 13; 0; 0], 2) /\ w_st w' = tt) (dev_start tt).
Proof.
  apply (handshake_agrees quiet_dev_env CHILD_DEVICE_CHANNEL_FD 2
    [(10, 11); (12, 13); (0, 0); (0, 0)] (dev_start tt)).
  - done.
  - unfold NR_MAX_VCPUS. lia.
  - done.
  - repeat constructor.
Defined.
