(* ===== verification/KMem.v ===== *)
(** * KMem: the memory of the guest kernel and its string functions
    (boot/kernel/malloc.c, lines 15-57)

    The guest kernel runs on i686 without paging: memory is a function from
    32-bit addresses to bytes, every address can be read, and pointers wrap. *)

From S2P Require Import Prelude.

Definition ram := Z -> Z.

(** The [n] bytes at [a], and the store of the bytes [bs] at [a]. *)
Definition rd_bytes (m : ram) (a : Z) (n : nat) : bytes :=
  (fun i : nat => u8 (m (u32 (a + i)))) <$> seq 0 n.

Definition wr_bytes (m : ram) (a : Z) (bs : bytes) : ram := fun x =>
  let i := u32 (x - a) in
  if i <? length bs then u8 (default 0 (bs !! Z.to_nat i)) else m x.

Definition rd8 (m : ram) (a : Z) : Z := u8 (m (u32 a)).
Definition wr8 (m : ram) (a v : Z) : ram := wr_bytes m a [v].
Definition rd32 (m : ram) (a : Z) : Z := le_val (rd_bytes m a 4).
Definition wr32 (m : ram) (a v : Z) : ram := wr_bytes m a (le_bytes 4 v).

(** A [char], which is signed. *)
Definition rd_char (m : ram) (a : Z) : Z := i8 (rd8 m a).

(** ** The string functions: [None] when the fuel was too small. *)

Fixpoint strlen_from (fuel : nat) (m : ram) (s i : Z) : option Z :=
  match fuel with
  | O => None
  | S fuel => if rd_char m (s + i) =? 0 then Some i else strlen_from fuel m s (u32 (i + 1))
  end.

Definition strlen (fuel : nat) (m : ram) (s : Z) : option Z := strlen_from fuel m s 0.

Fixpoint strcmp (fuel : nat) (m : ram) (s1 s2 : Z) : option Z :=
  match fuel with
  | O => None
  | S fuel =>
      let a := rd_char m s1 in
      let b := rd_char m s2 in
      if negb (a =? 0) && negb (b =? 0) then
        let t := i8 (a - b) in
        if negb (t =? 0) then Some t else strcmp fuel m (s1 + 1) (s2 + 1)
      else Some (a - b)
  end.

(** [n--] is evaluated, and [n] wraps, only when both characters are set; the
    result is what [n] holds when the loop ends. *)
Fixpoint kstrncmp (fuel : nat) (m : ram) (s1 s2 n : Z) : option Z :=
  match fuel with
  | O => None
  | S fuel =>
      let a := rd_char m s1 in
      let b := rd_char m s2 in
      if negb (a =? 0) && negb (b =? 0) then
        if n =? 0 then Some (i32 (u32 (n - 1))) else
        let t := i8 (a - b) in
        if negb (t =? 0) then Some t else kstrncmp fuel m (s1 + 1) (s2 + 1) (n - 1)
      else Some (i32 n)
  end.

Definition memcpy (m : ram) (ptr data : Z) (size : nat) : ram :=
  foldl (fun (m : ram) (i : nat) => wr8 m (ptr + i) (rd8 m (data + i))) m (seq 0 size).

Definition memset (m : ram) (ptr val : Z) (size : nat) : ram :=
  foldl (fun (m : ram) (i : nat) => wr8 m (ptr + i) val) m (seq 0 size).

(** ** Loads after stores *)

Definition in_ram (a n : Z) : Prop := 0 <= a /\ 0 <= n /\ a + n <= 2 ^ 32.

Lemma wr_bytes_in m a bs x :
  in_ram a (length bs) -> in_ram x 1 ->
  wr_bytes m a bs x = if decide (a <= x < a + length bs)
                      then u8 (default 0 (bs !! Z.to_nat (x - a))) else m x.
Proof.
  intros (Ha & _ & Hn) (Hx & _ & Hx'). unfold wr_bytes. cbv zeta.
  destruct (Z.le_gt_cases a x) as [Hax|Hax].
  - assert (u32 (x - a) = x - a) as -> by (apply wrap_small; unfold in_width; lia).
    destruct (Z.ltb_spec (x - a) (length bs)); [by rewrite decide_True by lia|].
    by rewrite decide_False by lia.
  - assert (u32 (x - a) = x - a + 2 ^ 32) as ->.
    { unfold wrap. rewrite <-(Z.mod_add _ 1), Z.mul_1_l by lia. apply Z.mod_small. lia. }
    rewrite (proj2 (Z.ltb_ge _ _)) by lia. by rewrite decide_False by lia.
Qed.

Lemma rd_bytes_other m a bs b (n : nat) :
  in_ram a (length bs) -> in_ram b n -> b + n <= a \/ a + length bs <= b ->
  rd_bytes (wr_bytes m a bs) b n = rd_bytes m b n.
Proof.
  intros Ha (Hb & _ & Hn) Hd. unfold rd_bytes. apply list_fmap_ext. intros k i Hk.
  apply lookup_seq in Hk as [-> Hk]. simpl.
  rewrite !(wrap_small 32) by (unfold in_width; lia).
  rewrite wr_bytes_in; [|done|unfold in_ram; lia]. by rewrite decide_False by lia.
Qed.

Lemma rd_bytes_same m a bs :
  in_ram a (length bs) -> is_bytes bs -> rd_bytes (wr_bytes m a bs) a (length bs) = bs.
Proof.
  intros Ha Hb. apply list_eq. intros i. unfold rd_bytes. rewrite list_lookup_fmap.
  destruct (decide (i < length bs)%nat) as [Hi|Hi].
  - rewrite lookup_seq_lt by done. simpl. destruct Ha as (Ha & _ & Hn).
    rewrite (wrap_small 32) by (unfold in_width; lia).
    rewrite wr_bytes_in by (unfold in_ram; lia). rewrite decide_True by lia.
    replace (Z.to_nat (a + i - a)) with i by lia.
    destruct (lookup_lt_is_Some_2 bs i Hi) as [x Hx]. rewrite Hx. simpl.
    pose proof (Forall_lookup_1 _ _ _ _ Hb Hx) as Hxb. simpl in Hxb.
    by rewrite !(wrap_small 8 x) by done.
  - rewrite lookup_seq_ge by lia. by rewrite lookup_ge_None_2 by lia.
Qed.

Lemma rd32_wr32_same m a v : in_ram a 4 -> rd32 (wr32 m a v) a = u32 v.
Proof.
  intros Ha. unfold rd32, wr32.
  pose proof (rd_bytes_same m a (le_bytes 4 v)) as H. rewrite length_le_bytes in H.
  rewrite H; [|done|apply le_bytes_is_bytes]. exact (le_val_bytes 4 v).
Qed.

Lemma rd32_wr32_other m a b v :
  in_ram a 4 -> in_ram b 4 -> b + 4 <= a \/ a + 4 <= b -> rd32 (wr32 m a v) b = rd32 m b.
Proof.
  intros Ha Hb Hd. unfold rd32, wr32. f_equal.
  apply (rd_bytes_other m a (le_bytes 4 v) b 4); rewrite ?length_le_bytes; done.
Qed.

Lemma wr32_outside m a v x :
  in_ram a 4 -> in_ram x 1 -> x < a \/ a + 4 <= x -> wr32 m a v x = m x.
Proof.
  intros Ha Hx Hd. unfold wr32. rewrite wr_bytes_in; rewrite ?length_le_bytes; [|done|done].
  by rewrite decide_False by lia.
Qed.
