(* ===== verification/KMalloc.v ===== *)
(** * KMalloc: the allocator of the guest kernel (boot/kernel/malloc.c)

    Blocks are headers of three 32-bit words in the guest's memory, chained in
    the order of their addresses.  [layout] relates a region of memory to the
    list of the sizes and states of its blocks. *)

From S2P Require Import Prelude KMem.

Definition sizeof_block := 12.

(** [struct block]: the members of the header at [a]. *)
Definition b_size (m : ram) (a : Z) : Z := rd32 m a.
Definition b_free (m : ram) (a : Z) : Z := rd32 m (a + 4).
Definition b_next (m : ram) (a : Z) : Z := rd32 m (a + 8).
Definition set_size (m : ram) (a v : Z) : ram := wr32 m a v.
Definition set_free (m : ram) (a v : Z) : ram := wr32 m (a + 4) v.
Definition set_next (m : ram) (a v : Z) : ram := wr32 m (a + 8) v.

(** The memory and the static variables. *)
Record kheap := KHeap {
  kram : ram;
  freeList : Z;
  HEAPSZ : Z;
  memory : Z;
}.
#[export] Instance kheap_eta : Settable kheap := fun h =>
  KHeap (kram h) (freeList h) (HEAPSZ h) (memory h).

Definition malloc_init (m : ram) (ptr sz : Z) : kheap :=
  let m := set_size m ptr (sz - sizeof_block) in
  let m := set_free m ptr 1 in
  let m := set_next m ptr 0 in
  KHeap m ptr sz ptr.

Definition split (m : ram) (fitting_slot size : Z) : ram :=
  let new := u32 (fitting_slot + size + sizeof_block) in
  let m := set_size m new (b_size m fitting_slot - size - sizeof_block) in
  let m := set_free m new 1 in
  let m := set_next m new (b_next m fitting_slot) in
  let m := set_size m fitting_slot size in
  let m := set_free m fitting_slot 0 in
  set_next m fitting_slot new.

(** The search loop of [malloc]. *)
Fixpoint find_slot (fuel : nat) (m : ram) (noOfBytes curr : Z) : option Z :=
  match fuel with
  | O => None
  | S fuel =>
      if ((b_size m curr <? noOfBytes) || (b_free m curr =? 0)) && negb (b_next m curr =? 0)
      then find_slot fuel m noOfBytes (b_next m curr)
      else Some curr
  end.

(** What [malloc] does with the block that the search ends at. *)
Definition use_slot (m : ram) (noOfBytes curr : Z) : Z * ram :=
  if b_size m curr =? noOfBytes then (u32 (curr + sizeof_block), set_free m curr 0)
  else if u32 (noOfBytes + sizeof_block) <? b_size m curr
  then (u32 (curr + sizeof_block), split m curr noOfBytes)
  else (0, m).

Definition malloc (fuel : nat) (h : kheap) (noOfBytes : Z) : option (Z * kheap) :=
  if b_size (kram h) (freeList h) =? 0 then Some (0, h) else
  curr ← find_slot fuel (kram h) noOfBytes (freeList h);
  let r := use_slot (kram h) noOfBytes curr in
  Some (r.1, h <| kram := r.2 |>).

(** After a merge of the last two blocks [curr] is a null pointer, and the loop
    condition reads its [next], the word at address 8. *)
Fixpoint merge (fuel : nat) (m : ram) (curr : Z) : option ram :=
  match fuel with
  | O => None
  | S fuel =>
      if b_next m curr =? 0 then Some m else
      let next := b_next m curr in
      let m :=
        if negb (b_free m curr =? 0) && negb (b_free m next =? 0) then
          let m := set_size m curr (b_size m curr + b_size m next + sizeof_block) in
          set_next m curr (b_next m (b_next m curr))
        else m in
      merge fuel m (b_next m curr)
  end.

Definition free (fuel : nat) (h : kheap) (ptr : Z) : option kheap :=
  if (memory h <=? ptr) && (ptr <=? u32 (memory h + HEAPSZ h)) then
    let curr := u32 (ptr - sizeof_block) in
    m ← merge fuel (set_free (kram h) curr 1) (freeList h);
    Some (h <| kram := m |>)
  else Some h.

(** ** Blocks as a list *)

Record blk := Blk { bsize : Z; bfree : bool }.

Definition hdr (m : ram) (a : Z) (b : blk) (nx : Z) : Prop :=
  b_size m a = bsize b /\ b_free m a = (if bfree b then 1 else 0) /\ b_next m a = nx.

(** The address behind the block [b] at [a]. *)
Definition behind (a : Z) (b : blk) : Z := a + sizeof_block + bsize b.
Definition link (a : Z) (l : list blk) : Z := match l with [] => 0 | _ => a end.

Fixpoint layout (m : ram) (a : Z) (l : list blk) (e : Z) : Prop :=
  match l with
  | [] => a = e
  | b :: l => 0 <= bsize b /\ hdr m a b (link (behind a b) l) /\ layout m (behind a b) l e
  end.

(** The allocated blocks: the address that the user has, and the size. *)
Fixpoint allocs (a : Z) (l : list blk) : list (Z * Z) :=
  match l with
  | [] => []
  | b :: l => (if bfree b then [] else [(a + sizeof_block, bsize b)]) ++ allocs (behind a b) l
  end.

(** [malloc] and [merge] on lists. *)
Definition place (n a : Z) (b : blk) (l : list blk) : Z * list blk :=
  if bsize b =? n then (a + sizeof_block, Blk n false :: l)
  else if n + sizeof_block <? bsize b
  then (a + sizeof_block, Blk n false :: Blk (bsize b - n - sizeof_block) true :: l)
  else (0, b :: l).

Fixpoint amalloc (n a : Z) (l : list blk) : Z * list blk :=
  match l with
  | [] => (0, [])
  | b :: l =>
      match l with
      | [] => place n a b l
      | _ => if (bsize b <? n) || negb (bfree b)
             then let r := amalloc n (behind a b) l in (r.1, b :: r.2)
             else place n a b l
      end
  end.

Lemma amalloc_cons n a b c l :
  amalloc n a (b :: c :: l) =
  if (bsize b <? n) || negb (bfree b)
  then ((amalloc n (behind a b) (c :: l)).1, b :: (amalloc n (behind a b) (c :: l)).2)
  else place n a b (c :: l).
Proof. reflexivity. Qed.

Fixpoint amerge (l : list blk) : list blk :=
  match l with
  | b :: ((c :: l') as l0) =>
      if bfree b && bfree c then Blk (bsize b + bsize c + sizeof_block) true :: amerge l'
      else b :: amerge l0
  | _ => l
  end.

(** ** Frames *)

Definition same_on (m m' : ram) (a e : Z) : Prop := forall x, a <= x < e -> m' x = m x.

Lemma rd32_same_on m m' a : in_ram a 4 -> same_on m m' a (a + 4) -> rd32 m' a = rd32 m a.
Proof.
  intros (Ha & _ & Hr) Hs. unfold rd32, rd_bytes. f_equal. apply list_fmap_ext.
  intros k i Hk. apply lookup_seq in Hk as [-> Hk]. simpl.
  rewrite (wrap_small 32) by (unfold in_width; lia). f_equal. apply Hs. lia.
Qed.

Lemma hdr_same_on m m' a b nx :
  in_ram a 12 -> same_on m m' a (a + 12) -> hdr m a b nx -> hdr m' a b nx.
Proof.
  intros (Ha & _ & Hr) Hs (H1 & H2 & H3). unfold hdr, b_size, b_free, b_next in *.
  rewrite !(rd32_same_on m m') by (unfold in_ram; lia || (intros x Hx; apply Hs; lia)). done.
Qed.

Lemma layout_le m a l e : layout m a l e -> a <= e.
Proof.
  revert a. induction l as [|b l IH]; intros a; simpl; [lia|].
  intros (H1 & _ & H2). apply IH in H2. unfold behind, sizeof_block in H2. lia.
Qed.

Lemma layout_same_on m m' a l e :
  0 <= a -> e < 2 ^ 32 -> same_on m m' a e -> layout m a l e -> layout m' a l e.
Proof.
  revert a. induction l as [|b l IH]; intros a Ha He Hs; simpl; [done|].
  intros (H1 & H2 & H3). pose proof (layout_le _ _ _ _ H3) as Hle.
  unfold behind, sizeof_block in *. split; [done|]. split.
  - eapply hdr_same_on; [unfold in_ram; lia| |exact H2]. intros x Hx. apply Hs. lia.
  - apply IH; [lia|done| |done]. intros x Hx. apply Hs. lia.
Qed.

(** Reads of a header after writes of headers: [hdr_solve] discharges the side
    conditions. *)
Lemma set_outside m a o v x :
  in_ram (a + o) 4 -> 0 <= x < 2 ^ 32 -> x < a + o \/ a + o + 4 <= x -> wr32 m (a + o) v x = m x.
Proof. intros. apply wr32_outside; unfold in_ram in *; lia. Qed.

Ltac hdr_solve :=
  unfold b_size, b_free, b_next, set_size, set_free, set_next;
  repeat first
    [ rewrite rd32_wr32_same by (unfold in_ram; lia)
    | rewrite rd32_wr32_other by (unfold in_ram; lia) ].

Lemma hdr_use m a n nx b :
  in_ram a 12 -> hdr m a b nx -> bsize b = n -> hdr (set_free m a 0) a (Blk n false) nx.
Proof.
  intros (Ha & _ & Hr) (H1 & H2 & H3) Hn. unfold hdr.
  unfold b_size, b_free, b_next in *. hdr_solve. simpl. rewrite H1, H3. done.
Qed.

Lemma same_on_set_free m a v x : in_ram a 12 -> 0 <= x < 2 ^ 32 -> x < a \/ a + 12 <= x ->
  set_free m a v x = m x.
Proof. intros (?&?&?) ? ?. apply wr32_outside; unfold in_ram; lia. Qed.

(** A split makes two blocks of one. *)
Lemma split_spec m a b n nx :
  0 <= a -> behind a b <= 2 ^ 32 -> 0 <= n -> n + sizeof_block < bsize b -> 0 <= nx < 2 ^ 32 ->
  hdr m a b nx ->
  let c := Blk (bsize b - n - sizeof_block) true in
  let new := a + sizeof_block + n in
  hdr (split m a n) a (Blk n false) new /\ hdr (split m a n) new c nx /\
  forall x, 0 <= x < 2 ^ 32 -> x < a \/ behind a b <= x -> split m a n x = m x.
Proof.
  unfold behind, sizeof_block. intros Ha Hr Hn Hlt Hnx (H1 & H2 & H3). cbv zeta.
  unfold split. cbv zeta. unfold sizeof_block.
  assert (u32 (a + n + 12) = a + 12 + n) as -> by (rewrite wrap_small; [lia|unfold in_width; lia]).
  unfold b_size, b_free, b_next in *. unfold hdr.
  split; [|split].
  - hdr_solve. simpl. rewrite !wrap_small by (unfold in_width; lia). done.
  - hdr_solve. simpl. rewrite H1, H3, !wrap_small by (unfold in_width; lia). done.
  - intros x Hx Hd. unfold set_size, set_free, set_next.
    rewrite !wr32_outside by (unfold in_ram; lia). done.
Qed.

(** ** malloc on a list of blocks *)

Lemma use_slot_spec m a b l e n :
  0 < a -> e < 2 ^ 32 -> 0 <= n < 2 ^ 32 - sizeof_block -> layout m a (b :: l) e ->
  let r := use_slot m n a in
  r.1 = (place n a b l).1 /\ layout r.2 a (place n a b l).2 e /\
  forall x, 0 <= x < 2 ^ 32 -> x < a \/ behind a b <= x -> r.2 x = m x.
Proof.
  intros Ha He Hn (H1 & Hh & Hl). pose proof (layout_le _ _ _ _ Hl) as Hle.
  unfold use_slot, place. cbv zeta. pose proof Hh as (Hsz & _ & Hnx). rewrite Hsz.
  assert (in_ram a 12) as Hra by (unfold in_ram, behind, sizeof_block in *; lia).
  assert (u32 (a + sizeof_block) = a + sizeof_block) as ->
    by (apply wrap_small; unfold in_width, behind, sizeof_block in *; lia).
  rewrite (wrap_small 32 (n + sizeof_block)) by (unfold in_width, sizeof_block in *; lia).
  destruct (Z.eqb_spec (bsize b) n) as [Heq|Hne].
  - cbn [fst snd]. split; [done|]. split.
    + simpl. split; [lia|]. replace (behind a (Blk n false)) with (behind a b)
        by (unfold behind; simpl; lia). split; [by eapply hdr_use|].
      eapply (layout_same_on m); [unfold behind, sizeof_block; lia|done| |exact Hl].
      intros x Hx. apply same_on_set_free; unfold behind, sizeof_block in *; [done|lia|lia].
    + intros x Hx Hd. apply same_on_set_free; unfold behind, sizeof_block in *; [done|lia|lia].
  - destruct (Z.ltb_spec (n + sizeof_block) (bsize b)) as [Hlt|Hge].
    + cbn [fst snd]. split; [done|].
      destruct (split_spec m a b n (link (behind a b) l)) as (Hs1 & Hs2 & Hs3); [lia|lia|lia|done| |done|].
      { unfold link, behind, sizeof_block in *. destruct l; [lia|]. simpl in Hl.
        destruct Hl as (Hb' & _ & Hl'). pose proof (layout_le _ _ _ _ Hl').
        unfold behind, sizeof_block in *. lia. }
      split; [|exact Hs3]. unfold behind, sizeof_block in *. simpl. split; [lia|]. split; [exact Hs1|].
      unfold behind, sizeof_block in *. simpl. split; [lia|].
      replace (a + 12 + n + 12 + (bsize b - n - 12)) with (a + 12 + bsize b) by lia.
      split; [exact Hs2|]. eapply (layout_same_on m); [lia|done| |exact Hl].
      intros x Hx. apply Hs3; lia.
    + cbn [fst snd]. split; [done|]. split; [|done]. simpl. done.
Qed.

(** The block that [malloc] chooses is free when the last block is. *)
Definition tail_free (l : list blk) : Prop := match last l with Some b => bfree b = true | None => True end.

Lemma allocs_in m a l e p s :
  layout m a l e -> (p, s) ∈ allocs a l -> a + sizeof_block <= p /\ 0 <= s /\ p + s <= e.
Proof.
  revert a. induction l as [|b l IH]; intros a; simpl; [intros _ []%not_elem_of_nil|].
  intros (H1 & _ & H3) [Hin|Hin]%elem_of_app.
  - destruct (bfree b); [by apply not_elem_of_nil in Hin|].
    apply list_elem_of_singleton in Hin as [= -> ->]. apply layout_le in H3.
    unfold behind, sizeof_block in *. lia.
  - destruct (IH _ H3 Hin). unfold behind, sizeof_block in *. lia.
Qed.

Lemma place_allocs n a b l :
  bfree b = true -> (place n a b l).1 <> 0 ->
  (place n a b l).1 = a + sizeof_block /\
  allocs a (place n a b l).2 = (a + sizeof_block, n) :: allocs a (b :: l).
Proof.
  intros Hb. unfold place. destruct (Z.eqb_spec (bsize b) n) as [E|E]; cbn [fst snd].
  - intros _. split; [done|]. simpl. rewrite Hb. simpl. unfold behind. simpl. by rewrite E.
  - destruct (_ <? _); [|done]. intros _. split; [done|]. simpl. rewrite Hb. simpl.
    unfold behind. simpl. do 2 f_equal. lia.
Qed.

Lemma tail_free_cons b c l : tail_free (b :: c :: l) -> tail_free (c :: l).
Proof. done. Qed.

Record malloc_ok (m m' : ram) (n a e : Z) (l l' : list blk) (r : Z) : Prop := {
  mo_abs : amalloc n a l = (r, l');
  mo_layout : layout m' a l' e;
  mo_outside : forall x, 0 <= x < 2 ^ 32 -> x < a \/ e <= x -> m' x = m x;
  mo_keep : tail_free l -> forall p s, (p, s) ∈ allocs a l -> same_on m m' p (p + s);
}.

Lemma link_amalloc x n a l : link x (amalloc n a l).2 = link x l.
Proof.
  destruct l as [|b l]; [done|]. cbn [amalloc].
  assert (link x (place n a b l).2 = x) as Hp.
  { unfold place. destruct (_ =? _); [done|]. by destruct (_ <? _). }
  destruct l; [done|]. by destruct (_ || _).
Qed.

(** Passing over a block that does not fit. *)
Lemma malloc_ok_skip m m' n a e b c l r :
  0 < a -> e < 2 ^ 32 -> layout m a (b :: c :: l) e -> (bsize b <? n) || negb (bfree b) = true ->
  malloc_ok m m' n (behind a b) e (c :: l) (amalloc n (behind a b) (c :: l)).2 r ->
  malloc_ok m m' n a e (b :: c :: l) (amalloc n a (b :: c :: l)).2 r.
Proof.
  intros Ha He (H1 & Hh & Hl) Hcond [A B C D]. pose proof (layout_le _ _ _ _ Hl) as Hle.
  assert (amalloc n a (b :: c :: l) = (r, b :: (amalloc n (behind a b) (c :: l)).2)) as E.
  { rewrite amalloc_cons, Hcond. by rewrite A. }
  rewrite E. cbn [snd].
  assert (forall x, 0 <= x < 2 ^ 32 -> x < behind a b -> m' x = m x) as Hout by (intros; apply C; lia).
  constructor; [done| | |].
  - cbn [layout]. split; [done|]. rewrite link_amalloc. split; [|exact B].
    eapply hdr_same_on; [|intros x Hx; apply Hout|exact Hh];
      unfold in_ram, behind, sizeof_block in *; lia.
  - intros x Hx Hd. apply C; [done|]. unfold behind, sizeof_block in *. lia.
  - intros Htf p s Hin. cbn [allocs] in Hin. apply elem_of_app in Hin as [Hin|Hin].
    + destruct (bfree b); [by apply not_elem_of_nil in Hin|].
      apply list_elem_of_singleton in Hin as [= -> ->]. intros x Hx.
      apply Hout; unfold behind, sizeof_block in *; lia.
    + by apply D.
Qed.

Lemma find_slot_spec m l : forall fuel a e n,
  0 < a -> e < 2 ^ 32 -> 0 <= n < 2 ^ 32 - sizeof_block -> layout m a l e -> l <> [] ->
  (length l <= fuel)%nat ->
  exists curr, find_slot fuel m n a = Some curr /\
    malloc_ok m (use_slot m n curr).2 n a e l (amalloc n a l).2 (use_slot m n curr).1.
Proof.
  induction l as [|b l IH]; intros fuel a e n Ha He Hn Hlay Hne Hf; [done|].
  destruct fuel as [|fuel]; [simpl in Hf; lia|]. simpl in Hf.
  pose proof Hlay as (H1 & Hh & Hl). pose proof Hh as (Hsz & Hfr & Hnx).
  pose proof (layout_le _ _ _ _ Hl) as Hle.
  cbn [find_slot]. rewrite Hsz, Hfr, Hnx.
  replace ((if bfree b then 1 else 0) =? 0) with (negb (bfree b)) by (by destruct (bfree b)).
  (* the block at hand is used *)
  assert (forall (Hhere : amalloc n a (b :: l) = place n a b l) (Hfree : tail_free (b :: l) -> bfree b = true),
    malloc_ok m (use_slot m n a).2 n a e (b :: l) (amalloc n a (b :: l)).2 (use_slot m n a).1) as Huse.
  { intros Hhere Hfree. destruct (use_slot_spec m a b l e n Ha He Hn Hlay) as (E1 & E2 & E3).
    rewrite Hhere. constructor.
    - rewrite Hhere, E1. by destruct (place n a b l).
    - exact E2.
    - intros x Hx Hd. apply E3; [done|]. unfold behind, sizeof_block in *. lia.
    - intros Htf p s Hin. pose proof (Hfree Htf) as Hb. intros x Hx.
      simpl in Hin. rewrite Hb in Hin. simpl in Hin.
      destruct (allocs_in _ _ _ _ _ _ Hl Hin) as (? & ? & ?).
      apply E3; unfold behind, sizeof_block in *; lia. }
  destruct l as [|c l]; cbn [link].
  { rewrite andb_false_r. exists a. split; [done|]. apply Huse; [done|]. by intros. }
  assert ((behind a b =? 0) = false) as -> by (apply Z.eqb_neq; unfold behind, sizeof_block; lia).
  rewrite andb_true_r. destruct ((bsize b <? n) || negb (bfree b)) eqn:Hcond.
  - destruct (IH fuel (behind a b) e n) as (curr & Hfind & [A B C D]);
      [unfold behind, sizeof_block in *; lia|done|done|done|done|lia|].
    exists curr. split; [exact Hfind|]. apply malloc_ok_skip; [done|done|done|done|].
    by constructor.
  - apply orb_false_iff in Hcond as [Hc1 Hc2]. exists a. split; [done|]. apply Huse.
    + cbn [amalloc]. by rewrite Hc1, Hc2.
    + intros _. by apply negb_false_iff in Hc2.
Qed.

(** ** What the caller gets *)

Lemma place_bounds n a b l :
  0 <= n -> (place n a b l).1 <> 0 -> (place n a b l).1 = a + sizeof_block /\ n <= bsize b.
Proof.
  intros Hn. unfold place. destruct (Z.eqb_spec (bsize b) n); cbn [fst]; [lia|].
  destruct (Z.ltb_spec (n + sizeof_block) (bsize b)); cbn [fst]; [|done].
  unfold sizeof_block in *. lia.
Qed.

(** A block that [malloc] returns is new: it is added to the allocated ones and
    does not overlap any of them. *)
Lemma amalloc_fresh m n l : forall a e,
  0 <= n -> layout m a l e -> tail_free l -> (amalloc n a l).1 <> 0 ->
  let r := (amalloc n a l).1 in
  a + sizeof_block <= r /\ r + n <= e /\
  allocs a (amalloc n a l).2 ≡ₚ (r, n) :: allocs a l /\
  forall p s, (p, s) ∈ allocs a l -> p + s <= r \/ r + n <= p.
Proof.
  induction l as [|b l IH]; intros a e Hn Hlay Htf Hr; [done|].
  pose proof Hlay as (H1 & _ & Hl). pose proof (layout_le _ _ _ _ Hl) as Hle.
  assert (forall (Hhere : amalloc n a (b :: l) = place n a b l) (Hb : bfree b = true),
    let r := (amalloc n a (b :: l)).1 in
    a + sizeof_block <= r /\ r + n <= e /\
    allocs a (amalloc n a (b :: l)).2 ≡ₚ (r, n) :: allocs a (b :: l) /\
    forall p s, (p, s) ∈ allocs a (b :: l) -> p + s <= r \/ r + n <= p) as Huse.
  { intros Hhere Hb. rewrite Hhere in *. destruct (place_bounds n a b l Hn Hr) as [Er Hnb].
    destruct (place_allocs n a b l Hb Hr) as [_ Hal]. cbv zeta. rewrite Hal, Er.
    unfold behind, sizeof_block in *.
    split; [lia|]. split; [lia|]. split; [done|]. intros p s Hin. simpl in Hin. rewrite Hb in Hin.
    destruct (allocs_in _ _ _ _ _ _ Hl Hin) as (? & ? & ?). unfold sizeof_block in *. lia. }
  destruct l as [|c l]; [by apply Huse|].
  destruct ((bsize b <? n) || negb (bfree b)) eqn:Hcond.
  - assert (amalloc n a (b :: c :: l) = ((amalloc n (behind a b) (c :: l)).1,
      b :: (amalloc n (behind a b) (c :: l)).2)) as E by (cbn [amalloc]; by rewrite Hcond).
    rewrite E in *. cbn [fst snd] in *.
    destruct (IH (behind a b) e Hn Hl Htf Hr) as (G1 & G2 & G3 & G4). cbv zeta.
    unfold behind, sizeof_block in *.
    split; [lia|]. split; [done|]. split.
    + cbn [allocs]. rewrite G3. destruct (bfree b); [done|]. apply perm_swap.
    + intros p s Hin. cbn [allocs] in Hin. apply elem_of_app in Hin as [Hin|Hin]; [|by apply G4].
      destruct (bfree b); [by apply not_elem_of_nil in Hin|].
      apply list_elem_of_singleton in Hin as [= -> ->]. left. unfold sizeof_block in *. lia.
  - apply Huse.
    + cbn [amalloc]. by rewrite Hcond.
    + apply orb_false_iff in Hcond as [_ Hc]. by apply negb_false_iff in Hc.
Qed.

(** ** free on a list of blocks *)

Fixpoint arelease (p a : Z) (l : list blk) : list blk :=
  match l with
  | [] => []
  | b :: l => if p =? a + sizeof_block then Blk (bsize b) true :: l
              else b :: arelease p (behind a b) l
  end.

Lemma link_arelease x p a l : link x (arelease p a l) = link x l.
Proof. destruct l; [done|]. simpl. by destruct (_ =? _). Qed.

Lemma length_arelease p a l : length (arelease p a l) = length l.
Proof.
  revert a. induction l as [|b l IH]; intros a; simpl; [done|]. destruct (_ =? _); simpl; [done|].
  by rewrite IH.
Qed.

Lemma release_spec m p s l : forall a e,
  0 < a -> e < 2 ^ 32 -> layout m a l e -> (p, s) ∈ allocs a l ->
  layout (set_free m (p - sizeof_block) 1) a (arelease p a l) e /\
  allocs a l ≡ₚ (p, s) :: allocs a (arelease p a l) /\
  forall q t, (q, t) ∈ allocs a (arelease p a l) -> q + t <= p - sizeof_block \/ p + s <= q.
Proof.
  induction l as [|b l IH]; intros a e Ha He Hlay Hin; [by apply not_elem_of_nil in Hin|].
  pose proof Hlay as (H1 & Hh & Hl). pose proof (layout_le _ _ _ _ Hl) as Hle.
  assert (in_ram a 12) as Hra by (unfold in_ram, behind, sizeof_block in *; lia).
  cbn [allocs arelease] in *. apply elem_of_app in Hin as [Hin|Hin].
  - destruct (bfree b) eqn:Hb; [by apply not_elem_of_nil in Hin|].
    apply list_elem_of_singleton in Hin as [= -> ->]. rewrite Z.eqb_refl.
    replace (a + sizeof_block - sizeof_block) with a by lia. split; [|split].
    + cbn [layout]. split; [done|]. unfold behind in *. cbn [bsize]. split.
      * destruct Hh as (G1 & G2 & G3). unfold hdr, b_size, b_free, b_next in *.
        unfold sizeof_block in *. unfold in_ram in Hra. hdr_solve. simpl. by rewrite G1, G3.
      * eapply (layout_same_on m); [unfold sizeof_block; lia|done| |exact Hl].
        intros x Hx. apply same_on_set_free; unfold sizeof_block in *; [done|lia|lia].
    + simpl. done.
    + cbn [allocs bfree]. intros q t Hq. simpl in Hq. unfold behind in *. simpl in Hq.
      destruct (allocs_in _ _ _ _ _ _ Hl Hq) as (? & ? & ?). unfold sizeof_block in *. lia.
  - destruct (allocs_in _ _ _ _ _ _ Hl Hin) as (B1 & B2 & B3).
    destruct (IH (behind a b) e) as (G1 & G2 & G3); [unfold behind, sizeof_block in *; lia|done|done|done|].
    destruct (Z.eqb_spec p (a + sizeof_block)) as [E|E];
      [exfalso; unfold behind, sizeof_block in *; lia|].
    split; [|split].
    + cbn [layout]. split; [done|]. rewrite link_arelease. split; [|exact G1].
      eapply hdr_same_on; [done| |exact Hh]. intros x Hx.
      apply same_on_set_free; unfold in_ram, behind, sizeof_block in *; lia.
    + cbn [allocs]. rewrite G2. destruct (bfree b); [done|]. apply perm_swap.
    + intros q t Hq. cbn [allocs] in Hq. apply elem_of_app in Hq as [Hq|Hq]; [|by apply G3].
      destruct (bfree b); [by apply not_elem_of_nil in Hq|].
      apply list_elem_of_singleton in Hq as [= -> ->]. left. unfold behind, sizeof_block in *. lia.
Qed.

(** [merge] joins neighbours without touching an allocated block; [low] is the
    word that the loop reads through a null pointer. *)
Record merge_ok (m m' : ram) (a e : Z) (l : list blk) : Prop := {
  go_layout : layout m' a (amerge l) e;
  go_outside : forall x, 0 <= x < 2 ^ 32 -> x < a \/ e <= x -> m' x = m x;
  go_keep : forall p s, (p, s) ∈ allocs a l -> same_on m m' p (p + s);
}.

Lemma amerge_cons b c l :
  amerge (b :: c :: l) =
  if bfree b && bfree c then Blk (bsize b + bsize c + sizeof_block) true :: amerge l
  else b :: amerge (c :: l).
Proof. reflexivity. Qed.

Lemma link_amerge x l : link x (amerge l) = link x l.
Proof. destruct l as [|b [|c l]]; [done|done|]. rewrite amerge_cons. by destruct (_ && _). Qed.

Lemma amerge_allocs l : forall a, allocs a (amerge l) = allocs a l.
Proof.
  induction l as [l IH] using (induction_ltof1 _ (@length blk)). intros a.
  destruct l as [|b [|c l]]; [done|done|]. rewrite amerge_cons.
  destruct (bfree b && bfree c) eqn:Hbc.
  - apply andb_true_iff in Hbc as [Hb Hc].
    cbn [allocs bfree]. rewrite IH by (unfold ltof; simpl; lia). rewrite Hb, Hc. simpl.
    unfold behind. simpl. f_equal. lia.
  - cbn [allocs]. rewrite (IH (c :: l)) by (unfold ltof; simpl; lia). done.
Qed.

(** The two stores that join the free blocks [b] and [c]. *)
Definition join (m : ram) (a next : Z) : ram :=
  let m := set_size m a (b_size m a + b_size m next + sizeof_block) in
  set_next m a (b_next m (b_next m a)).

Lemma join_spec m a b c l e :
  0 < a -> e < 2 ^ 32 -> layout m a (b :: c :: l) e -> bfree b = true ->
  let d := Blk (bsize b + bsize c + sizeof_block) true in
  layout (join m a (behind a b)) a (d :: l) e /\
  forall x, 0 <= x < 2 ^ 32 -> x < a \/ a + sizeof_block <= x -> join m a (behind a b) x = m x.
Proof.
  intros Ha He Hlay Hb. cbn [layout] in Hlay.
  destruct Hlay as (H1 & (Hs & Hf & Hn) & H2 & (Gs & Gf & Gn) & Hl). cbv zeta.
  pose proof (layout_le _ _ _ _ Hl) as Hle. cbn [link] in Hn.
  assert (0 <= link (behind (behind a b) c) l < 2 ^ 32) as Hlk.
  { unfold link, behind, sizeof_block in *. destruct l; [lia|]. simpl in Hl.
    destruct Hl as (Hb' & _ & Hl'). pose proof (layout_le _ _ _ _ Hl'). unfold behind, sizeof_block in *. lia. }
  assert (forall x, 0 <= x < 2 ^ 32 -> x < a \/ a + sizeof_block <= x ->
            join m a (behind a b) x = m x) as Hout.
  { intros x Hx Hd. unfold join, set_size, set_next. unfold behind, sizeof_block in *.
    by rewrite !wr32_outside by (unfold in_ram; lia). }
  split; [|exact Hout]. cbn [layout bsize]. unfold behind, sizeof_block in *. cbn [bsize].
  replace (a + 12 + (bsize b + bsize c + 12)) with (a + 12 + bsize b + 12 + bsize c) by lia.
  split; [lia|]. split.
  - unfold hdr, join, b_size, b_free, b_next, set_size, set_next in *. unfold sizeof_block in *.
    cbn [bsize bfree]. rewrite Hb in Hf.
    rewrite (rd32_wr32_other m a (a + 8)) by (unfold in_ram; lia). rewrite Hn. hdr_solve.
    rewrite Hs, Gs, Hf, Gn, !wrap_small by (unfold in_width; lia). done.
  - eapply (layout_same_on m); [lia|lia| |exact Hl]. intros x Hx. apply Hout; lia.
Qed.

Lemma merge_ok_cons m m' a e d l :
  0 < a -> e < 2 ^ 32 -> layout m a (d :: l) e -> merge_ok m m' (behind a d) e l ->
  layout m' a (d :: amerge l) e /\
  (forall x, 0 <= x < 2 ^ 32 -> x < a \/ e <= x -> m' x = m x) /\
  (forall p s, (p, s) ∈ allocs a (d :: l) -> same_on m m' p (p + s)).
Proof.
  intros Ha He (H1 & Hh & Hl) [A B C]. pose proof (layout_le _ _ _ _ Hl) as Hle.
  unfold behind, sizeof_block in *. split; [|split].
  - cbn [layout]. rewrite link_amerge. split; [done|]. split; [|exact A].
    eapply hdr_same_on; [unfold in_ram; lia| |exact Hh]. intros x Hx. apply B; lia.
  - intros x Hx Hd. apply B; lia.
  - intros p s Hin. cbn [allocs] in Hin. apply elem_of_app in Hin as [Hin|Hin]; [|by apply C].
    destruct (bfree d); [by apply not_elem_of_nil in Hin|].
    apply list_elem_of_singleton in Hin as [= -> ->]. intros x Hx.
    apply B; unfold sizeof_block in *; lia.
Qed.

Lemma merge_spec k : forall l fuel m a e,
  (length l < k)%nat -> (length l < fuel)%nat -> l <> [] ->
  sizeof_block <= a -> e < 2 ^ 32 -> layout m a l e -> b_next m 0 = 0 ->
  exists m', merge fuel m a = Some m' /\ merge_ok m m' a e l.
Proof.
  induction k as [|k IH]; intros l fuel m a e Hk Hf Hne Ha He Hlay Hlow; [lia|].
  destruct l as [|b l]; [done|]. destruct fuel as [|fuel]; [lia|].
  pose proof Hlay as (H1 & (Hs & Hfr & Hn) & Hl). pose proof (layout_le _ _ _ _ Hl) as Hle.
  cbn [merge]. rewrite Hn. destruct l as [|c l]; cbn [link].
  { simpl (0 =? 0). exists m. split; [done|]. by constructor. }
  assert ((behind a b =? 0) = false) as -> by (apply Z.eqb_neq; unfold behind, sizeof_block in *; lia).
  pose proof Hl as (H2 & (Gs & Gfr & Gn) & Hl').
  rewrite Hfr, Gfr.
  replace (negb ((if bfree b then 1 else 0) =? 0) && negb ((if bfree c then 1 else 0) =? 0))
    with (bfree b && bfree c) by (by destruct (bfree b), (bfree c)).
  destruct (bfree b && bfree c) eqn:Hbc.
  - pose proof Hbc as [Hb Hc]%andb_true_iff.
    change (set_next _ a _) with (join m a (behind a b)).
    destruct (join_spec m a b c l e) as [Jl Jo]; [unfold sizeof_block in *; lia|done|done|done|].
    set (d := Blk (bsize b + bsize c + sizeof_block) true) in *. set (m1 := join m a (behind a b)) in *.
    assert (forall m', merge_ok m1 m' (behind a d) e l ->
              merge_ok m m' a e (b :: c :: l)) as Hgo.
    { intros m' Hm'. destruct (merge_ok_cons m1 m' a e d l) as (A & B & C);
        [unfold sizeof_block in *; lia|done|done|done|].
      constructor; [by rewrite amerge_cons, Hbc| |].
      - intros x Hx Hd. rewrite B by done. apply Jo; unfold behind, sizeof_block in *; lia.
      - intros p s Hin x Hx. cbn [allocs] in Hin. rewrite Hb, Hc in Hin. simpl in Hin.
        destruct (allocs_in _ _ _ _ _ _ Hl' Hin) as (? & ? & ?).
        rewrite (C p s).
        + apply Jo; unfold behind, sizeof_block in *; lia.
        + cbn [allocs]. simpl. unfold behind in *. simpl. by
            replace (a + sizeof_block + (bsize b + bsize c + sizeof_block))
            with (a + sizeof_block + bsize b + sizeof_block + bsize c) by lia.
        + done. }
    pose proof Jl as (_ & (_ & _ & Jn) & Jl'). rewrite Jn. destruct l as [|c' l]; cbn [link].
    + exists m1. destruct fuel as [|fuel]; [simpl in Hf; lia|]. cbn [merge]. split.
      * replace (b_next m1 0) with (b_next m 0); [by rewrite Hlow|]. symmetry.
        apply rd32_same_on; [done|]. intros x Hx. apply Jo; unfold sizeof_block in *; lia.
      * apply Hgo. constructor; [done|done|]. intros p s Hin. by apply not_elem_of_nil in Hin.
    + destruct (IH (c' :: l) fuel m1 (behind a d) e) as (m' & Hm' & Hok);
        [simpl in *; lia|simpl in *; lia|done| |done|done| |].
      { unfold behind, d, sizeof_block in *; simpl; lia. }
      { transitivity (b_next m 0); [|exact Hlow]. apply rd32_same_on; [done|].
        intros x Hx. apply Jo; unfold sizeof_block in *; lia. }
      exists m'. split; [done|]. by apply Hgo.
  - rewrite Hn. destruct (IH (c :: l) fuel m (behind a b) e) as (m' & Hm' & Hok);
      [simpl in *; lia|simpl in *; lia|done| |done|done|done|].
    { unfold behind, sizeof_block in *; lia. }
    exists m'. split; [done|]. destruct (merge_ok_cons m m' a e b (c :: l)) as (A & B & C);
      [unfold sizeof_block in *; lia|done|done|done|].
    constructor; [by rewrite amerge_cons, Hbc|done|done].
Qed.
