(* ===== verification/KernelProps.v ===== *)
(** * KernelProps: the correctness of the guest kernel's allocator *)

From S2P Require Import Prelude KMem KMalloc.

(** The heap [h] is tiled by the blocks [l]; the word at address 8, which
    [merge] can read, is zero. *)
Record heap_ok (h : kheap) (l : list blk) : Prop := {
  ho_layout : layout (kram h) (memory h) l (memory h + HEAPSZ h);
  ho_first : freeList h = memory h;
  ho_base : sizeof_block <= memory h;
  ho_end : memory h + HEAPSZ h < 2 ^ 32;
  ho_blocks : l <> [];
  ho_low : b_next (kram h) 0 = 0;
}.

Lemma layout_set_ram h m l :
  heap_ok h l -> (forall l', layout m (memory h) l' (memory h + HEAPSZ h) -> l' <> [] ->
    same_on (kram h) m 8 12 -> heap_ok (h <| kram := m |>) l').
Proof.
  intros [H1 H2 H3 H4 H5 H6] l' Hl Hne Hs. constructor; try done. simpl.
  transitivity (b_next (kram h) 0); [|exact H6]. apply rd32_same_on; [done|exact Hs].
Qed.

Lemma amalloc_nil n a l : l <> [] -> (amalloc n a l).2 <> [].
Proof.
  intros Hne E. pose proof (link_amalloc 1 n a l) as Hl. rewrite E in Hl. by destruct l.
Qed.

Lemma amalloc_fails n a l : 0 < a -> (amalloc n a l).1 = 0 -> Forall (fun b => 0 <= bsize b) l ->
  (amalloc n a l).2 = l.
Proof.
  intros Ha Hr Hl. revert a Ha Hr. induction Hl as [|b l Hb Hl IH]; intros a Ha Hr; [done|].
  assert ((place n a b l).1 = 0 -> (place n a b l).2 = b :: l) as Hp.
  { unfold place. unfold sizeof_block. destruct (_ =? _); simpl; [lia|].
    destruct (_ <? _); simpl; [lia|done]. }
  destruct l as [|c l]; [by apply Hp|].
  rewrite amalloc_cons in *. destruct (_ || _); [|by apply Hp]. cbn [fst snd] in *.
  f_equal. apply IH; [|exact Hr].
  unfold behind, sizeof_block. lia.
Qed.

Lemma layout_sizes m a l e : layout m a l e -> Forall (fun b => 0 <= bsize b) l.
Proof.
  revert a. induction l as [|b l IH]; intros a; [done|]. intros (H1 & _ & H3).
  constructor; [done|]. by eapply IH.
Qed.

(** The heap after [malloc], whatever the state of the last block. *)
Lemma malloc_step fuel h l n :
  heap_ok h l -> 0 <= n < 2 ^ 32 - sizeof_block -> (length l <= fuel)%nat ->
  exists r h' l', malloc fuel h n = Some (r, h') /\ heap_ok h' l' /\
    (r = 0 /\ l' = l \/ r <> 0 /\ (r, l') = amalloc n (memory h) l) /\
    memory h' = memory h /\ HEAPSZ h' = HEAPSZ h /\
    (tail_free l -> forall p s, (p, s) ∈ allocs (memory h) l -> same_on (kram h) (kram h') p (p + s)).
Proof.
  intros Hok Hn Hf. pose proof Hok as [H1 H2 H3 H4 H5 H6]. unfold malloc. rewrite H2.
  destruct (_ =? 0).
  { exists 0, h, l. split; [done|]. split; [done|]. split; [by left|]. done. }
  destruct (find_slot_spec (kram h) l fuel (memory h) (memory h + HEAPSZ h) n)
    as (curr & Hfind & [A B C D]); [unfold sizeof_block in *; lia|done|done|done|done|done|].
  rewrite Hfind. cbn -[use_slot amalloc]. eexists _, _, _. split; [reflexivity|]. split.
  { apply (layout_set_ram h _ l Hok _ B); [by apply amalloc_nil|].
    intros x Hx. apply C; [lia|]. unfold sizeof_block in *. lia. }
  split; [|split; [done|split; [done|exact D]]].
  destruct (decide ((use_slot (kram h) n curr).1 = 0)) as [E|E].
  - left. split; [done|]. apply amalloc_fails; [unfold sizeof_block in *; lia|by rewrite A|].
    by eapply layout_sizes.
  - right. split; [done|]. rewrite A. cbn [snd]. done.
Qed.

(** On a heap whose last block is free, [malloc] of the guest kernel returns
    after at most one step per block, keeps the heap tiled by its blocks, and
    leaves the bytes of every allocated block as they are.  Either it returns
    NULL and no block changes, or it returns a block of the size that was asked
    for, inside the heap, disjoint from every allocated block and added to
    them. *)
Theorem kernel_malloc_fresh fuel h l n :
  heap_ok h l -> tail_free l -> 0 <= n < 2 ^ 32 - sizeof_block -> (length l <= fuel)%nat ->
  exists r h' l', malloc fuel h n = Some (r, h') /\ heap_ok h' l' /\
    (forall p s, (p, s) ∈ allocs (memory h) l -> same_on (kram h) (kram h') p (p + s)) /\
    (r = 0 /\ l' = l \/
     memory h + sizeof_block <= r /\ r + n <= memory h + HEAPSZ h /\
     allocs (memory h) l' ≡ₚ (r, n) :: allocs (memory h) l /\
     (forall p s, (p, s) ∈ allocs (memory h) l -> p + s <= r \/ r + n <= p)).
Proof.
  intros Hok Htf Hn Hf. destruct (malloc_step fuel h l n Hok Hn Hf)
    as (r & h' & l' & Hm & Hok' & Hr & _ & _ & Hkeep).
  exists r, h', l'. split; [done|]. split; [done|]. split; [by apply Hkeep|].
  destruct Hr as [[-> ->]|[Hr Ea]]; [by left|right].
  destruct (amalloc_fresh (kram h) n l (memory h) (memory h + HEAPSZ h)) as (G1 & G2 & G3 & G4);
    [lia|by apply ho_layout|done|by rewrite <-Ea|]. by rewrite <-Ea in *.
Qed.

(** A heap of 256 bytes at 0x1000 in empty memory. *)
Definition sample_heap : kheap := malloc_init (fun _ => 0) 0x1000 256.

Lemma sample_heap_ok : heap_ok sample_heap [Blk 244 true].
Proof. constructor; try done. Qed.

Lemma kernel_malloc_fresh_witness :
  exists r h' l', malloc 1 sample_heap 16 = Some (r, h') /\ heap_ok h' l' /\
    (forall p s, (p, s) ∈ allocs 0x1000 [Blk 244 true] -> same_on (kram sample_heap) (kram h') p (p + s)) /\
    (r = 0 /\ l' = [Blk 244 true] \/
     0x1000 + sizeof_block <= r /\ r + 16 <= 0x1000 + 256 /\
     allocs 0x1000 l' ≡ₚ (r, 16) :: allocs 0x1000 [Blk 244 true] /\
     (forall p s, (p, s) ∈ allocs 0x1000 [Blk 244 true] -> p + s <= r \/ r + 16 <= p)).
Proof.
  apply (kernel_malloc_fresh 1 sample_heap [Blk 244 true] 16); [apply sample_heap_ok|done|done|simpl; lia].
Defined.

(** The heap after [free]. *)
Lemma free_step fuel h l p s :
  heap_ok h l -> (p, s) ∈ allocs (memory h) l -> (length l < fuel)%nat ->
  exists h', free fuel h p = Some h' /\ heap_ok h' (amerge (arelease p (memory h) l)) /\
    memory h' = memory h /\ HEAPSZ h' = HEAPSZ h /\
    allocs (memory h) l ≡ₚ (p, s) :: allocs (memory h) (amerge (arelease p (memory h) l)) /\
    (forall q t, (q, t) ∈ allocs (memory h) (amerge (arelease p (memory h) l)) ->
       same_on (kram h) (kram h') q (q + t)).
Proof.
  intros Hok Hin Hf. pose proof Hok as [H1 H2 H3 H4 H5 H6].
  destruct (allocs_in _ _ _ _ _ _ H1 Hin) as (B1 & B2 & B3). unfold sizeof_block in *.
  unfold free. rewrite (wrap_small 32 (memory h + HEAPSZ h)) by (unfold in_width; lia).
  rewrite (proj2 (andb_true_iff _ _)) by (rewrite !Z.leb_le; lia).
  rewrite (wrap_small 32) by (unfold in_width, sizeof_block; lia). cbv zeta.
  destruct (release_spec (kram h) p s l (memory h) (memory h + HEAPSZ h)) as (Rl & Ra & Rd);
    [lia|done|done|done|].
  set (m1 := set_free (kram h) (p - sizeof_block) 1) in *.
  assert (forall x, 0 <= x < 2 ^ 32 -> x < p - 12 \/ p <= x -> m1 x = kram h x) as Hm1.
  { intros x Hx Hd. apply same_on_set_free; unfold in_ram, sizeof_block; lia. }
  destruct (merge_spec (S (length (arelease p (memory h) l))) (arelease p (memory h) l) fuel m1
    (memory h) (memory h + HEAPSZ h)) as (m' & Hm' & [A B C]).
  - lia.
  - by rewrite length_arelease.
  - intros E. pose proof (link_arelease 1 p (memory h) l) as Hl. rewrite E in Hl. by destruct l.
  - done.
  - done.
  - done.
  - transitivity (b_next (kram h) 0); [|exact H6]. apply rd32_same_on; [done|].
    intros x Hx. apply Hm1; lia.
  - rewrite H2, Hm'. cbn -[amerge]. eexists. split; [reflexivity|]. split; [|split; [done|split; [done|split]]].
    + apply (layout_set_ram h m' l Hok _ A).
      * intros E. pose proof (link_amerge 1 (arelease p (memory h) l)) as Hl.
        rewrite E, link_arelease in Hl. by destruct l.
      * intros x Hx. rewrite B by lia. apply Hm1; lia.
    + rewrite amerge_allocs. exact Ra.
    + rewrite amerge_allocs. intros q t Hq x Hx.
      transitivity (m1 x); [exact (C q t Hq x Hx)|].
      apply Hm1.
      * destruct (allocs_in _ _ _ _ _ _ Rl Hq) as (? & ? & ?). unfold sizeof_block in *. lia.
      * destruct (Rd q t Hq) as [?|?]; unfold sizeof_block in *; lia.
Qed.

(** [free] of an allocated block returns after at most one step more than
    there are blocks, when the word at address 8 is zero: the block leaves the
    allocated ones, free neighbours are joined, the heap stays tiled, and the
    bytes of every other allocated block are kept. *)
Theorem kernel_free_releases fuel h l p s :
  heap_ok h l -> (p, s) ∈ allocs (memory h) l -> (length l < fuel)%nat ->
  exists h' l', free fuel h p = Some h' /\ heap_ok h' l' /\
    allocs (memory h) l ≡ₚ (p, s) :: allocs (memory h) l' /\
    (forall q t, (q, t) ∈ allocs (memory h) l' -> same_on (kram h) (kram h') q (q + t)).
Proof.
  intros Hok Hin Hf. destruct (free_step fuel h l p s Hok Hin Hf) as (h' & H1 & H2 & _ & _ & H3 & H4).
  by exists h', (amerge (arelease p (memory h) l)).
Qed.

(** The sample heap with one block of 16 bytes taken. *)
Definition sample_heap1 : kheap := sample_heap <| kram := split (kram sample_heap) 0x1000 16 |>.

Lemma sample_heap1_ok : heap_ok sample_heap1 [Blk 16 false; Blk 216 true].
Proof. constructor; try done. Qed.

Lemma kernel_free_releases_witness :
  exists h' l', free 3 sample_heap1 0x100c = Some h' /\ heap_ok h' l' /\
    allocs 0x1000 [Blk 16 false; Blk 216 true] ≡ₚ (0x100c, 16) :: allocs 0x1000 l' /\
    (forall q t, (q, t) ∈ allocs 0x1000 l' -> same_on (kram sample_heap1) (kram h') q (q + t)).
Proof.
  apply (kernel_free_releases 3 sample_heap1 [Blk 16 false; Blk 216 true] 0x100c 16).
  - apply sample_heap1_ok.
  - apply list_elem_of_singleton. reflexivity.
  - simpl. lia.
Defined.

(** ** Clients of the allocator *)

(** A client asks for memory, frees one of its blocks, or stores bytes at the
    start of one of them. *)
Inductive kop := KAlloc (n : Z) | KFree (i : nat) | KStore (i : nat) (data : bytes).

(** The client's blocks: pointers with their sizes. *)
Definition kop_step (fuel : nat) (op : kop) (st : kheap * list (Z * Z)) : option (kheap * list (Z * Z)) :=
  let '(h, live) := st in
  match op with
  | KAlloc n =>
      r ← malloc fuel h n;
      Some (r.2, if r.1 =? 0 then live else (r.1, n) :: live)
  | KFree i =>
      match live !! i with
      | Some (p, _) => h ← free fuel h p; Some (h, delete i live)
      | None => Some st
      end
  | KStore i data =>
      match live !! i with
      | Some (p, s) =>
          if Z.of_nat (length data) <=? s
          then Some (h <| kram := wr_bytes (kram h) p data |>, live) else Some st
      | None => Some st
      end
  end.

Fixpoint krun (fuel : nat) (ops : list kop) (st : kheap * list (Z * Z)) : option (kheap * list (Z * Z)) :=
  match ops with
  | [] => Some st
  | op :: ops => st ← kop_step fuel op st; krun fuel ops st
  end.

(** What the blocks of a run take at most. *)
Definition demand (op : kop) : Z := match op with KAlloc n => n + sizeof_block | _ => 0 end.
Definition total_demand (ops : list kop) : Z := foldr (fun op z => demand op + z) 0 ops.

Definition disjoint_blocks (live : list (Z * Z)) : Prop :=
  forall i j p s q t, i <> j -> live !! i = Some (p, s) -> live !! j = Some (q, t) ->
    p + s <= q \/ q + t <= p.

Definition tail_size (l : list blk) : Z := from_option bsize 0 (last l).

(** The invariant of a client that will not ask for more than [budget]. *)
Record client_ok (base size budget : Z) (st : kheap * list (Z * Z)) (l : list blk) : Prop := {
  co_heap : heap_ok st.1 l;
  co_base : memory st.1 = base;
  co_size : HEAPSZ st.1 = size;
  co_tail : tail_free l;
  co_room : budget < tail_size l;
  co_live : st.2 ≡ₚ allocs base l;
  co_disjoint : disjoint_blocks st.2;
}.

(** The last block: only a request of exactly its size makes it allocated. *)
Lemma amalloc_tail n l : forall a,
  0 <= n -> n <> tail_size l -> Forall (fun b => 0 <= bsize b) l -> tail_free l -> l <> [] ->
  tail_free (amalloc n a l).2 /\ tail_size l - n - sizeof_block <= tail_size (amalloc n a l).2 /\
  (length (amalloc n a l).2 <= S (length l))%nat.
Proof.
  induction l as [|b l IH]; intros a Hn Hne Hsz Htf Hnil; [done|].
  apply Forall_cons in Hsz as [Hb Hsz]. destruct l as [|c l].
  - unfold tail_free, tail_size in *. simpl in *. unfold place.
    destruct (Z.eqb_spec (bsize b) n); [lia|].
    destruct (_ <? _); simpl; unfold sizeof_block; [split; [done|split; [lia|lia]]|].
    split; [done|]. split; [lia|lia].
  - rewrite amalloc_cons. destruct ((bsize b <? n) || negb (bfree b)).
    + cbn [fst snd]. destruct (IH (behind a b) Hn Hne Hsz Htf ltac:(done)) as (H1 & H2 & H3).
      pose proof (amalloc_nil n (behind a b) (c :: l) ltac:(done)) as Hnn.
      destruct (amalloc n (behind a b) (c :: l)).2 as [|d k] eqn:E; [done|].
      split; [exact H1|]. split; [exact H2|]. cbn [length] in *. lia.
    + unfold place. unfold tail_free, tail_size, sizeof_block in *.
      destruct (_ =? n); [|destruct (_ <? _)]; cbn [snd length];
        (split; [exact Htf|split; [simpl in *; lia|lia]]).
Qed.

Lemma arelease_tail p l : forall a,
  tail_free l -> tail_free (arelease p a l) /\ tail_size (arelease p a l) = tail_size l.
Proof.
  induction l as [|b l IH]; intros a Htf; [done|]. cbn [arelease]. destruct (_ =? _).
  - destruct l as [|c l]; [done|]. done.
  - destruct l as [|c l]; [done|]. destruct (IH (behind a b) Htf) as [H1 H2].
    pose proof (link_arelease 1 p (behind a b) (c :: l)) as Hl.
    destruct (arelease p (behind a b) (c :: l)) as [|d k]; [done|]. done.
Qed.

Lemma amerge_tail l :
  Forall (fun b => 0 <= bsize b) l -> tail_free l ->
  tail_free (amerge l) /\ tail_size l <= tail_size (amerge l) /\ (length (amerge l) <= length l)%nat.
Proof.
  induction l as [l IH] using (induction_ltof1 _ (@length blk)). intros Hsz Htf.
  destruct l as [|b [|c l]]; [done|done|]. rewrite amerge_cons.
  apply Forall_cons in Hsz as [Hb Hsz]. pose proof Hsz as [Hc Hsz']%Forall_cons.
  destruct (bfree b && bfree c) eqn:Hbc.
  - destruct l as [|d l].
    { unfold tail_free, tail_size, sizeof_block. simpl. split; [done|]. split; [lia|lia]. }
    destruct (IH (d :: l)) as (H1 & H2 & H3); [unfold ltof; simpl; lia|done|done|].
    pose proof (link_amerge 1 (d :: l)) as Hl.
    destruct (amerge (d :: l)) as [|x k]; [done|].
    split; [exact H1|]. split; [exact H2|]. cbn [length] in *. lia.
  - destruct (IH (c :: l)) as (H1 & H2 & H3); [unfold ltof; simpl; lia|done|done|].
    pose proof (link_amerge 1 (c :: l)) as Hl.
    destruct (amerge (c :: l)) as [|x k]; [done|].
    split; [exact H1|]. split; [exact H2|]. cbn [length] in *. lia.
Qed.

Lemma tail_size_le m l : forall a e, layout m a l e -> tail_size l <= e - a.
Proof.
  induction l as [|b l IH]; intros a e; [simpl; unfold tail_size; simpl; lia|].
  intros (H1 & _ & H3). pose proof (layout_le _ _ _ _ H3). unfold behind, sizeof_block in *.
  destruct l as [|c l]; [unfold tail_size; simpl; lia|].
  apply IH in H3. unfold tail_size in *. simpl in *. lia.
Qed.

(** Stores into an allocated block leave the headers alone. *)
Lemma layout_store m m' p s l : forall a e,
  0 <= a -> e < 2 ^ 32 -> layout m a l e -> (p, s) ∈ allocs a l ->
  (forall x, 0 <= x < 2 ^ 32 -> x < p \/ p + s <= x -> m' x = m x) -> layout m' a l e.
Proof.
  induction l as [|b l IH]; intros a e Ha He Hlay Hin Hs; [done|].
  pose proof Hlay as (H1 & Hh & Hl). pose proof (layout_le _ _ _ _ Hl) as Hle.
  cbn [allocs layout] in *. unfold behind, sizeof_block in *. split; [done|].
  apply elem_of_app in Hin as [Hin|Hin].
  - destruct (bfree b); [by apply not_elem_of_nil in Hin|].
    apply list_elem_of_singleton in Hin as [= -> ->]. split.
    + eapply hdr_same_on; [unfold in_ram; lia| |exact Hh]. intros x Hx. apply Hs; lia.
    + eapply (layout_same_on m); [lia|lia| |exact Hl]. intros x Hx. apply Hs; lia.
  - destruct (allocs_in _ _ _ _ _ _ Hl Hin) as (? & ? & ?). unfold sizeof_block in *. split.
    + eapply hdr_same_on; [unfold in_ram; lia| |exact Hh]. intros x Hx. apply Hs; lia.
    + apply IH; [lia|done|done|done|done].
Qed.

Lemma disjoint_cons p s live :
  disjoint_blocks live -> (forall q t, (q, t) ∈ live -> q + t <= p \/ p + s <= q) ->
  disjoint_blocks ((p, s) :: live).
Proof.
  intros Hd Hf [|i] [|j] q t q' t' Hij Hi Hj; [done|..].
  - injection Hi as -> ->. simpl in Hj. apply list_elem_of_lookup_2 in Hj.
    destruct (Hf _ _ Hj); lia.
  - injection Hj as -> ->. simpl in Hi. apply list_elem_of_lookup_2 in Hi.
    destruct (Hf _ _ Hi); lia.
  - apply (Hd i j); [congruence|done|done].
Qed.

Lemma disjoint_delete i live : disjoint_blocks live -> disjoint_blocks (delete i live).
Proof.
  intros Hd j k p s q t Hjk Hj Hk.
  destruct (decide (j < i)%nat), (decide (k < i)%nat);
    rewrite ?list_lookup_delete_lt, ?list_lookup_delete_ge in Hj by lia;
    rewrite ?list_lookup_delete_lt, ?list_lookup_delete_ge in Hk by lia.
  - by apply (Hd j k).
  - apply (Hd j (S k)); [lia|done|done].
  - apply (Hd (S j) k); [lia|done|done].
  - apply (Hd (S j) (S k)); [lia|done|done].
Qed.

Lemma client_step fuel op base size budget st l :
  match op with KAlloc n => 0 <= n | _ => True end -> 0 <= budget ->
  client_ok base size (demand op + budget) st l -> (length l < fuel)%nat ->
  exists st' l', kop_step fuel op st = Some st' /\ client_ok base size budget st' l' /\
    (length l' <= S (length l))%nat.
Proof.
  intros Hop Hbud [Hheap Hbase Hsize Htail Hroom Hlive Hdisj] Hf. destruct st as [h live].
  cbn [fst snd] in *. pose proof (tail_size_le _ _ _ _ (ho_layout _ _ Hheap)) as Hts.
  pose proof (ho_end _ _ Hheap) as Hend. pose proof (ho_base _ _ Hheap) as Hb0.
  pose proof (layout_sizes _ _ _ _ (ho_layout _ _ Hheap)) as Hsz.
  destruct op as [n|i|i data]; cbn [demand kop_step] in *.
  - unfold sizeof_block in *.
    destruct (malloc_step fuel h l n Hheap) as (r & h' & l' & Hm & Hok' & Hr & Em & Es & _);
      [unfold sizeof_block; lia|lia|]. rewrite Hm. cbn [mbind option_bind fst snd].
    destruct Hr as [[-> ->]|[Hr0 Ea]].
    { exists (h', live), l. split; [done|]. split; [|lia]. constructor; cbn [fst snd]; try done; [congruence|congruence|lia]. }
    rewrite (proj2 (Z.eqb_neq r 0) Hr0).
    destruct (amalloc_tail n l (memory h)) as (T1 & T2 & T3); [done|lia|done|done|by apply ho_blocks in Hheap|].
    destruct (amalloc_fresh (kram h) n l (memory h) (memory h + HEAPSZ h)) as (G1 & G2 & G3 & G4);
      [done|by apply ho_layout|done|by rewrite <-Ea|]. rewrite <-Ea in *. cbn [fst snd] in *.
    rewrite Hbase in *. exists (h', (r, n) :: live), l'. split; [done|]. split; [|done].
    unfold sizeof_block in *.
    constructor; cbn [fst snd]; try done; [congruence|lia| |].
    + by rewrite Hlive, G3.
    + apply disjoint_cons; [done|]. intros q t Hq. apply G4. by rewrite <-Hlive.
  - destruct (live !! i) as [[p s]|] eqn:Hi; [|exists (h, live), l; split; [done|split; [by constructor|lia]]].
    assert ((p, s) ∈ allocs (memory h) l) as Hin
      by (rewrite Hbase, <-Hlive; by eapply list_elem_of_lookup_2).
    destruct (free_step fuel h l p s Hheap Hin Hf) as (h' & Hfr & Hok' & Em & Es & Hperm & _).
    rewrite Hfr. cbn [mbind option_bind].
    eexists _, (amerge (arelease p (memory h) l)). split; [reflexivity|].
    destruct (arelease_tail p l (memory h) Htail) as [R1 R2].
    destruct (amerge_tail (arelease p (memory h) l)) as (M1 & M2 & M3); [|done|].
    { destruct (release_spec (kram h) p s l (memory h) (memory h + HEAPSZ h)) as (Rl & _);
        [unfold sizeof_block in *; lia|done|by apply ho_layout|done|]. by eapply layout_sizes. }
    rewrite length_arelease in M3. split; [|lia].
    constructor; cbn [fst snd]; try done; [congruence|congruence|lia| |by apply disjoint_delete].
    rewrite Hbase in *. apply (Permutation_cons_inv (a := (p, s))). rewrite <-Hperm, <-Hlive.
    symmetry. by apply delete_Permutation.
  - destruct (live !! i) as [[p s]|] eqn:Hi; [|exists (h, live), l; split; [done|split; [by constructor|lia]]].
    destruct (Z.leb_spec (Z.of_nat (length data)) s) as [Hd|Hd];
      [|exists (h, live), l; split; [done|split; [by constructor|lia]]].
    assert ((p, s) ∈ allocs (memory h) l) as Hin
      by (rewrite Hbase, <-Hlive; by eapply list_elem_of_lookup_2).
    destruct (allocs_in _ _ _ _ _ _ (ho_layout _ _ Hheap) Hin) as (? & ? & ?). unfold sizeof_block in *.
    assert (forall x, 0 <= x < 2 ^ 32 -> x < p \/ p + s <= x ->
              wr_bytes (kram h) p data x = kram h x) as Hw.
    { intros x Hx Hout. rewrite wr_bytes_in by (unfold in_ram; lia). by rewrite decide_False by lia. }
    eexists _, l. split; [reflexivity|]. split; [|lia].
    constructor; cbn [fst snd]; try done.
    apply (layout_set_ram h _ l Hheap); [|by apply ho_blocks in Hheap|].
    + eapply layout_store; [lia|done|by apply ho_layout|done|done].
    + intros x Hx. apply Hw; lia.
Qed.

Lemma total_demand_nonneg ops :
  Forall (fun op => match op with KAlloc n => 0 <= n | _ => True end) ops -> 0 <= total_demand ops.
Proof.
  induction 1 as [|op ops Hop _ IH]; [done|]. cbn [total_demand foldr] in *.
  fold (total_demand ops) in *. destruct op; cbn [demand]; unfold sizeof_block; lia.
Qed.

(** A new heap is one free block. *)
Lemma malloc_init_ok m base size budget :
  sizeof_block <= base -> sizeof_block <= size -> base + size < 2 ^ 32 -> b_next m 0 = 0 ->
  budget < size - sizeof_block ->
  client_ok base size budget (malloc_init m base size, []) [Blk (size - sizeof_block) true].
Proof.
  unfold sizeof_block. intros Hb Hs He Hlow Hbud.
  constructor; cbn [fst snd allocs bfree app]; try done.
  constructor; cbn [malloc_init kram memory HEAPSZ freeList]; try done.
  - cbn [layout]. unfold behind, sizeof_block. cbn [bsize link]. split; [lia|]. split; [|lia].
    unfold hdr, b_size, b_free, b_next, set_size, set_free, set_next. cbn [bsize bfree]. hdr_solve.
    by rewrite wrap_small by (unfold in_width; lia).
  - unfold b_next in *. hdr_solve. exact Hlow.
Qed.

Lemma krun_spec base size ops : forall fuel st l,
  Forall (fun op => match op with KAlloc n => 0 <= n | _ => True end) ops ->
  client_ok base size (total_demand ops) st l -> (length l + length ops < fuel)%nat ->
  exists st' l', krun fuel ops st = Some st' /\ client_ok base size 0 st' l'.
Proof.
  induction ops as [|op ops IH]; intros fuel st l Hops Hok Hf; cbn [krun length] in *.
  { by exists st, l. }
  apply Forall_cons in Hops as [Hop Hops].
  destruct (client_step fuel op base size (total_demand ops) st l) as (st' & l' & Hst & Hok' & Hl');
    [done|by apply total_demand_nonneg|done|lia|].
  rewrite Hst. cbn [mbind option_bind]. apply (IH fuel st' l'); [done|done|lia].
Qed.

(** C13: On a machine whose word at address 8 is zero, every client of the guest
    kernel's allocator whose requests together stay below the size of the heap
    runs to its end, whatever it frees and whatever it stores into its blocks:
    the blocks it holds are always disjoint, inside the heap and of the sizes it
    asked for, and they are exactly the allocated blocks of a well-formed heap.
    The condition on address 8 is needed: there [merge] reads the next block of
    a null pointer, and with other contents [free] may not come back
    ([kernel_free_can_diverge]). *)
Theorem kernel_heap_client_safe m base size ops fuel :
  sizeof_block <= base -> base + size < 2 ^ 32 -> b_next m 0 = 0 ->
  Forall (fun op => match op with KAlloc n => 0 <= n | _ => True end) ops ->
  total_demand ops < size - sizeof_block -> (S (length ops) < fuel)%nat ->
  exists h live l, krun fuel ops (malloc_init m base size, []) = Some (h, live) /\
    heap_ok h l /\ live ≡ₚ allocs base l /\ disjoint_blocks live /\
    Forall (fun b => base + sizeof_block <= b.1 /\ b.1 + b.2 <= base + size) live.
Proof.
  intros Hb He Hlow Hops Hdem Hf.
  pose proof (total_demand_nonneg ops Hops) as Hpos.
  destruct (krun_spec base size ops fuel (malloc_init m base size, []) [Blk (size - sizeof_block) true])
    as ([h live] & l & Hrun & [K1 K2 K3 K4 K5 K6 K7]); [done| |cbn [length]; lia|].
  - apply malloc_init_ok; [done|lia|done|done|done].
  - cbn [fst snd] in *. exists h, live, l. split; [done|]. split; [done|]. split; [done|]. split; [done|].
    apply Forall_forall. intros [p s] Hin. cbn [fst snd]. rewrite K6 in Hin.
    pose proof (ho_layout _ _ K1) as Hlay. rewrite K2, K3 in Hlay.
    destruct (allocs_in _ _ _ _ _ _ Hlay Hin) as (? & ? & ?). lia.
Qed.

Lemma kernel_heap_client_safe_witness :
  exists h live l,
    krun 9 [KAlloc 16; KAlloc 32; KStore 0 [1; 2; 3]; KFree 1; KAlloc 8; KFree 0; KFree 0]
      (malloc_init (fun _ => 0) 0x1000 256, []) = Some (h, live) /\
    heap_ok h l /\ live ≡ₚ allocs 0x1000 l /\ disjoint_blocks live /\
    Forall (fun b => 0x1000 + sizeof_block <= b.1 /\ b.1 + b.2 <= 0x1000 + 256) live.
Proof.
  apply kernel_heap_client_safe.
  - done.
  - done.
  - done.
  - repeat constructor; done.
  - done.
  - simpl. lia.
Defined.

(** A request of exactly the size of a heap with one block: the state of the
    block is not looked at. *)
Lemma malloc_last fuel h n :
  b_size (kram h) (freeList h) = n -> n <> 0 -> b_next (kram h) (freeList h) = 0 ->
  malloc (S fuel) h n =
  Some (u32 (freeList h + sizeof_block), h <| kram := set_free (kram h) (freeList h) 0 |>).
Proof.
  intros Hs Hn Hx. unfold malloc. rewrite Hs, (proj2 (Z.eqb_neq n 0) Hn). cbn [find_slot].
  rewrite Hx, andb_false_r. cbn [mbind option_bind]. unfold use_slot. by rewrite Hs, Z.eqb_refl.
Qed.

(** Once the last block of the heap is allocated, the allocator gives it out
    again: after a request of exactly the size of the heap, a second request
    of the same size returns the same address, although the block was never
    freed. *)
Theorem kernel_malloc_double_allocation m base size fuel :
  0 < base -> sizeof_block < size -> base + size < 2 ^ 32 ->
  exists h1 h2,
    malloc (S fuel) (malloc_init m base size) (size - sizeof_block) = Some (base + sizeof_block, h1) /\
    malloc (S fuel) h1 (size - sizeof_block) = Some (base + sizeof_block, h2).
Proof.
  unfold sizeof_block. intros Hb Hs He. set (h0 := malloc_init m base size).
  assert (u32 (freeList h0 + sizeof_block) = base + 12) as Hu
    by (apply wrap_small; unfold in_width, sizeof_block; simpl; lia).
  eexists _, _. split.
  - rewrite malloc_last; [by rewrite Hu| |lia|]; unfold h0, malloc_init; cbn [kram freeList].
    + unfold sizeof_block. hdr_solve. by rewrite wrap_small by (unfold in_width; lia).
    + hdr_solve. done.
  - rewrite malloc_last; [by rewrite <-Hu| |lia|]; unfold h0, malloc_init; cbn [kram freeList set_field].
    + unfold sizeof_block. simpl. hdr_solve. by rewrite wrap_small by (unfold in_width; lia).
    + simpl. hdr_solve. done.
Qed.

Lemma kernel_malloc_double_allocation_witness :
  exists h1 h2,
    malloc 1 (malloc_init (fun _ => 0) 0x1000 256) 244 = Some (0x100c, h1) /\
    malloc 1 h1 244 = Some (0x100c, h2).
Proof. exact (kernel_malloc_double_allocation (fun _ => 0) 0x1000 256 0 eq_refl eq_refl eq_refl). Defined.

(** ** The null pointer of [merge] *)

(** Memory whose first words are not zero: the word at address 8 points to
    address 16, where the word at 24 points again. *)
Definition low_memory : ram := fun x => if (x =? 8) || (x =? 24) then 16 else 0.

Lemma merge_cycle fuel m : b_next m 16 = 16 -> b_free m 16 = 0 -> merge fuel m 16 = None.
Proof.
  intros Hn Hf. induction fuel as [|fuel IH]; [done|]. cbn [merge].
  rewrite Hn, Hf. simpl. by rewrite Hn.
Qed.

Lemma merge_join fuel m a x :
  b_next m a = x -> x <> 0 -> b_free m a <> 0 -> b_free m x <> 0 ->
  merge (S fuel) m a = merge fuel (join m a x) (b_next (join m a x) a).
Proof.
  intros Hx Hx0 Ha Hb. cbn [merge].
  by rewrite Hx, (proj2 (Z.eqb_neq _ _) Hx0), (proj2 (Z.eqb_neq _ _) Ha), (proj2 (Z.eqb_neq _ _) Hb).
Qed.

Lemma merge_skip fuel m a x :
  b_next m a = x -> x <> 0 -> b_free m a = 0 -> merge (S fuel) m a = merge fuel m x.
Proof.
  intros Hx Hx0 Ha. cbn [merge]. rewrite Hx, (proj2 (Z.eqb_neq _ _) Hx0), Ha. simpl. by rewrite Hx.
Qed.

(** When [merge] joins the last two blocks it goes on at the null pointer and
    walks through whatever the first words of memory hold: there is a memory
    in which a client that asks for one block of a new heap and frees it never
    comes back from [free]. *)
Theorem kernel_free_can_diverge :
  exists p h, malloc 1 (malloc_init low_memory 0x1000 256) 16 = Some (p, h) /\
    forall fuel, free fuel h p = None.
Proof.
  set (h0 := malloc_init low_memory 0x1000 256).
  exists 0x100c, (h0 <| kram := split (kram h0) 0x1000 16 |>). split; [reflexivity|]. intros fuel.
  unfold free. set (m := set_free _ _ 1).
  lazymatch goal with |- (if ?b then _ else _) = _ => change b with true end. cbv iota zeta.
  lazymatch goal with |- merge _ _ ?a ≫= _ = _ => change a with 0x1000 end.
  assert (merge fuel m 0x1000 = None) as ->; [|done].
  destruct fuel as [|fuel]; [done|].
  rewrite (merge_join fuel m 0x1000 0x101c); [|vm_compute; congruence..].
  set (m1 := join m 0x1000 0x101c). change (b_next m1 0x1000) with 0.
  destruct fuel as [|fuel]; [done|].
  rewrite (merge_skip fuel m1 0 16); [|vm_compute; congruence..].
  apply merge_cycle; vm_compute; reflexivity.
Qed.
