(* ===== verification/Hyper.v ===== *)
(** * Hyper: the state of the hyper-o kernel module and the instructions and
    kernel services that it uses (hyper-o/inc)

    Page-table entries are 64-bit words with their bit fields; the VMCS of a
    virtual CPU is the map of the fields that were written to it. *)

From S2P Require Import Prelude Effects.

Definition PAGE_SIZE := 4096.
Definition PAGE_SHIFT := 12.
Definition MAX_VCPUS := 8.
Definition MAX_PCPUS := 8.
Definition OOO_VMEXIT_HANDLED := -1.
Definition MODE_REAL := 0.
Definition MODE_PROTECTED := 1.
Definition MODE_PAGING := 2.

(** ** ioooctls.h *)

Definition OOO_RUN := 0x00133700.
Definition OOO_PEEK := 0x03133700.
Definition OOO_POKE := 0x31333700.
Definition OOO_MAP := 0x33133700.
Definition OOO_UNMAP := 0x13333700.

Record ooo_userspace_memory_region := MemoryRegion {
  mreg_guest_phys_addr : Z;
  mreg_memory_size : Z;
  mreg_userspace_addr : Z;
}.

Record ooo_regs := ORegs {
  o_rax : Z; o_rcx : Z; o_rdx : Z; o_rbx : Z;
  o_rsp : Z; o_rbp : Z; o_rsi : Z; o_rdi : Z;
  o_r8 : Z; o_r9 : Z; o_r10 : Z; o_r11 : Z;
  o_r12 : Z; o_r13 : Z; o_r14 : Z; o_r15 : Z;
  o_rip : Z; o_rflags : Z;
}.
#[export] Instance ooo_regs_eta : Settable ooo_regs := fun r =>
  ORegs (o_rax r) (o_rcx r) (o_rdx r) (o_rbx r) (o_rsp r) (o_rbp r) (o_rsi r) (o_rdi r)
    (o_r8 r) (o_r9 r) (o_r10 r) (o_r11 r) (o_r12 r) (o_r13 r) (o_r14 r) (o_r15 r)
    (o_rip r) (o_rflags r).
Definition oregs_zero : ooo_regs := ORegs 0 0 0 0 0 0 0 0 0 0 0 0 0 0 0 0 0 0.

Record ooo_segment := OSeg {
  os_base : Z; os_limit : Z; os_selector : Z; os_type : Z;
  os_present : Z; os_dpl : Z; os_db : Z; os_s : Z; os_l : Z; os_g : Z; os_avl : Z;
  os_unusable : Z;
}.
Definition oseg_zero : ooo_segment := OSeg 0 0 0 0 0 0 0 0 0 0 0 0.

Record ooo_dtable := ODtable { od_base : Z; od_limit : Z }.

Record ooo_sregs := OSregs {
  os_cs : ooo_segment; os_ds : ooo_segment; os_es : ooo_segment;
  os_fs : ooo_segment; os_gs : ooo_segment; os_ss : ooo_segment;
  os_tr : ooo_segment; os_ldt : ooo_segment;
  os_gdt : ooo_dtable; os_idt : ooo_dtable;
  os_cr0 : Z; os_cr2 : Z; os_cr3 : Z; os_cr4 : Z; os_cr8 : Z;
  os_efer : Z;
  os_apic_base : Z;
  os_interrupt_bitmap : list Z;
}.
Definition osregs_zero : ooo_sregs :=
  OSregs oseg_zero oseg_zero oseg_zero oseg_zero oseg_zero oseg_zero oseg_zero oseg_zero
    (ODtable 0 0) (ODtable 0 0) 0 0 0 0 0 0 0 [0; 0; 0; 0].

(** The union of exit data is its 256 bytes. *)
Record ooo_state_t := OState {
  request_interrupt_window : Z;
  immediate_exit : Z;
  st_cr8 : Z;
  st_apic_base : Z;
  st_mode : Z;
  st_rip_gpa : Z;
  st_apicbase : Z;
  st_exit : bytes;
  st_fart : Z;
  st_regs : ooo_regs;
  st_sregs : ooo_sregs;
}.
#[export] Instance ooo_state_eta : Settable ooo_state_t := fun s =>
  OState (request_interrupt_window s) (immediate_exit s) (st_cr8 s) (st_apic_base s) (st_mode s)
    (st_rip_gpa s) (st_apicbase s) (st_exit s) (st_fart s) (st_regs s) (st_sregs s).
Definition ooo_state_zero : ooo_state_t :=
  OState 0 0 0 0 0 0 0 (replicate 256 0) 0 oregs_zero osregs_zero.

(** [state.mmio.phys_addr] and [state.mmio.is_write]. *)
Definition set_mmio (s : ooo_state_t) (phys_addr is_write : Z) : ooo_state_t :=
  s <| st_exit ::= fun b => blit (blit b 0 (le_bytes 8 phys_addr)) 8 (le_bytes 1 is_write) |>.
Definition mmio_phys_addr (s : ooo_state_t) : Z := le_val (load (st_exit s) 0 8).
Definition mmio_is_write (s : ooo_state_t) : Z := le_val (load (st_exit s) 8 1).

(** ** main.h *)

Record vcpu_t := HVcpu {
  vmcs_header : Z;
  vmcs_pa : Z;
  vc_state : ooo_state_t;
  host_cpu_id : Z;
  guest_cpu_id : Z;
  launched : Z;
  initialized : Z;
  vmcs_fields : gmap Z Z;
}.
#[export] Instance hvcpu_eta : Settable vcpu_t := fun v =>
  HVcpu (vmcs_header v) (vmcs_pa v) (vc_state v) (host_cpu_id v) (guest_cpu_id v) (launched v)
    (initialized v) (vmcs_fields v).
Definition hvcpu_zero : vcpu_t := HVcpu 0 0 ooo_state_zero 0 0 0 0 ∅.

Record vm_t := HVm {
  vm_addr : Z;                (* the address of the structure *)
  eptp : list Z;
  pml4 : list Z;
  pdpt : list Z;
  pd : list Z;
  pt : list (list Z);
  hv_vcpus : list vcpu_t;
}.
#[export] Instance hvm_eta : Settable vm_t := fun v =>
  HVm (vm_addr v) (eptp v) (pml4 v) (pdpt v) (pd v) (pt v) (hv_vcpus v).

(** The offsets of the members in [vm_t]. *)
Definition off_eptp := 0x200000.
Definition off_pml4 := 0x201000.
Definition off_pdpt := 0x202000.
Definition off_pd := 0x203000.
Definition off_pt := 0x204000.
Definition off_vcpus := 0x284000.
Definition sizeof_pt := 4096.
Definition NR_PT : nat := 128.

Definition page_zero : list Z := replicate 512 0.
Definition vm_zero (addr : Z) : vm_t :=
  HVm addr page_zero page_zero page_zero page_zero (replicate NR_PT page_zero)
    (replicate (Z.to_nat MAX_VCPUS) hvcpu_zero).

(** ** Instructions and kernel services *)

Inductive host_reg :=
  | CR0 | CR3 | CR4 | CS | SS | DS | ES | FS | GS | TR | GDTR_base | IDTR_base.

Inductive walk_level := PGD | P4D | PUD | PMD.

Inductive hyp_call :=
  | Vmread (encoding : Z)
  | Vmwrite (encoding value : Z)
  | Vmlaunch (regs : ooo_regs)
  | Vmresume (regs : ooo_regs)
  | Vmptrst
  | Vmptrld (pa : Z)
  | Vmclear (pa : Z)
  | Vmxon (pa : Z)
  | Vmxoff
  | Read_reg (r : host_reg)
  | Readmsr (msr : Z)
  | Read_host (addr : Z) (n : nat)
  | Walk (l : walk_level) (addr : Z)
  | Pte_pfn (addr : Z)
  | Vmcs_revision_id
  | Get_vmx_support
  | Smp_processor_id
  | Num_online_cpus
  | Kzalloc (n : Z)
  | Kfree (addr : Z)
  | Copy_region (arg : Z)
  | Copy_state_from (arg : Z)
  | Copy_state_to (arg : Z) (s : ooo_state_t)
  | Remap_pfn_range (addr pfn size : Z)
  | Register_chrdev
  | Unregister_chrdev.

Definition hyp_reply (c : hyp_call) : Type :=
  match c with
  | Vmread _ => Z                                   (* the flag *)
  | Vmlaunch _ | Vmresume _ => Z * ooo_regs * gmap Z Z   (* the result, registers and VMCS after the exit *)
  | Vmptrst => Z * Z
  | Read_host _ _ => bytes
  | Walk _ _ => bool                                (* whether the entry is present and good *)
  | Copy_region _ => option ooo_userspace_memory_region
  | Copy_state_from _ => option ooo_state_t
  | _ => Z
  end.

Definition hyp_iface : iface := Iface hyp_call hyp_reply Empty_set _.
Abbreviation hyp_env := (environment hyp_iface).
Abbreviation hyp_world := (world hyp_iface (option vm_t)).
Abbreviation hyp_prog := (prog hyp_iface (option vm_t)).

Definition hos (env : hyp_env) (c : hyp_call) : hyp_prog (hyp_reply c) := sys (I := hyp_iface) env c.

Lemma wp_hos env c (Q : hyp_reply c -> hyp_world -> Prop) (w : hyp_world) :
  Q (env (w_trace w) c) (w <| w_trace := w_trace w ++ [c : call hyp_iface] |>) ->
  wp (hos env c) Q w.
Proof. done. Qed.

Ltac hyp_step :=
  first
    [ wp_step
    | lazymatch goal with |- wp (hos ?e ?c) ?Q ?w => refine (wp_hos e c Q w _) end; cbv beta ].
Ltac hyp_go := repeat hyp_step.

Definition get_vm : hyp_prog vm_t := o ← gets (fun o => o); get_or NullDeref o.
Definition set_vm (f : vm_t -> vm_t) : hyp_prog unit := modify (fmap f).

Lemma wp_get_vm vm (Q : vm_t -> hyp_world -> Prop) (w : hyp_world) :
  w_st w = Some vm -> Q vm w -> wp get_vm Q w.
Proof. intros Hv HQ. unfold get_vm. wp_go. by eapply wp_get_or. Qed.

Lemma wp_set_vm f (Q : unit -> hyp_world -> Prop) (w : hyp_world) :
  Q tt (w <| w_st ::= fmap f |>) -> wp (set_vm f) Q w.
Proof. done. Qed.

(** [vm->vcpus[i]]. *)
Definition get_cpu (i : nat) : hyp_prog vcpu_t :=
  vm ← get_vm;
  get_or OutOfBounds (hv_vcpus vm !! i).
Definition set_cpu (i : nat) (f : vcpu_t -> vcpu_t) : hyp_prog unit :=
  set_vm (fun vm => vm <| hv_vcpus ::= alter f i |>).
Definition set_state (i : nat) (f : ooo_state_t -> ooo_state_t) : hyp_prog unit :=
  set_cpu i (fun v => v <| vc_state ::= f |>).
Definition set_regs (i : nat) (f : ooo_regs -> ooo_regs) : hyp_prog unit :=
  set_state i (fun s => s <| st_regs ::= f |>).

(** The CPU [i] of the machine in [w]. *)
Definition cpu_at (w : hyp_world) (i : nat) : option vcpu_t :=
  vm ← w_st w; hv_vcpus vm !! i.

Lemma wp_get_cpu i v (Q : vcpu_t -> hyp_world -> Prop) (w : hyp_world) :
  cpu_at w i = Some v -> Q v w -> wp (get_cpu i) Q w.
Proof.
  intros Hv HQ. unfold cpu_at in Hv. destruct (w_st w) as [vm|] eqn:E; [|done].
  apply wp_bind. eapply wp_get_vm; [exact E|]. by eapply wp_get_or.
Qed.
