(* ===== verification/Ept.v ===== *)
(** * Ept: the extended page tables of a virtual machine (hyper-o/vmx.c, lines
    21-230, and hyper-o/inc/memory.h)

    [virt_to_phys] and [phys_to_virt] are the kernel's direct map.  [ept_walk]
    is the translation that the processor makes with the tables. *)

From S2P Require Import Prelude Effects Hyper.

(** ** memory.h: the bit fields of the entries *)

(** [union _EPT_PTE] *)
Definition PTE_Read (e : Z) := bits e 0 1.
Definition PTE_Write (e : Z) := bits e 1 1.
Definition PTE_Execute (e : Z) := bits e 2 1.
Definition PTE_PhysicalAddress (e : Z) := bits e 12 36.
Definition set_PTE_Read (e v : Z) := set_bits e 0 1 v.
Definition set_PTE_Write (e v : Z) := set_bits e 1 1 v.
Definition set_PTE_Execute (e v : Z) := set_bits e 2 1 v.
Definition set_PTE_EPTMemoryType (e v : Z) := set_bits e 3 3 v.
Definition set_PTE_IgnorePAT (e v : Z) := set_bits e 6 1 v.
Definition set_PTE_AccessedFlag (e v : Z) := set_bits e 8 1 v.
Definition set_PTE_DirtyFlag (e v : Z) := set_bits e 9 1 v.
Definition set_PTE_ExecuteForUserMode (e v : Z) := set_bits e 10 1 v.
Definition set_PTE_PhysicalAddress (e v : Z) := set_bits e 12 36 v.
Definition set_PTE_SuppressVE (e v : Z) := set_bits e 63 1 v.

(** The members that [union _EPT_PML4E], [_EPT_PDPTE] and [_EPT_PDE] share. *)
Definition set_entry (address : Z) : Z :=
  let e := 0 in
  let e := set_bits e 0 1 1 in       (* Read *)
  let e := set_bits e 1 1 1 in       (* Write *)
  let e := set_bits e 2 1 1 in       (* Execute *)
  let e := set_bits e 10 1 0 in      (* ExecuteForUserMode *)
  set_bits e 12 36 address.          (* PhysicalAddress *)

(** [union _EPTP] *)
Definition set_eptp (address : Z) : Z :=
  let e := 0 in
  let e := set_bits e 0 3 6 in       (* MemoryType: write back *)
  let e := set_bits e 3 3 (4 - 1) in (* PageWalkLength *)
  let e := set_bits e 6 1 1 in       (* DirtyAndAceessEnabled *)
  let e := set_bits e 7 5 0 in       (* Reserved1 *)
  let e := set_bits e 12 36 address in (* PML4Address *)
  set_bits e 48 16 0.                (* Reserved2 *)

(** The ten assignments of [ept_map] to an entry. *)
Definition map_entry (e host_ppi : Z) : Z :=
  let e := set_PTE_AccessedFlag e 0 in
  let e := set_PTE_DirtyFlag e 0 in
  let e := set_PTE_EPTMemoryType e 6 in
  let e := set_PTE_Execute e 1 in
  let e := set_PTE_ExecuteForUserMode e 1 in
  let e := set_PTE_IgnorePAT e 1 in
  let e := set_PTE_PhysicalAddress e host_ppi in
  let e := set_PTE_Read e 1 in
  let e := set_PTE_SuppressVE e 0 in
  set_PTE_Write e 1.

Section Ept.
Context (env : hyp_env) (virt_to_phys phys_to_virt : Z -> Z).

(** [vm->pt[d][t]]. *)
Definition get_pte (d t : Z) : hyp_prog Z :=
  vm ← get_vm;
  page ← get_or OutOfBounds (pt vm !! Z.to_nat d);
  get_or OutOfBounds (page !! Z.to_nat t).

Definition set_pte (d t : Z) (f : Z -> Z) : hyp_prog unit :=
  _ ← get_pte d t;
  set_vm (fun vm => vm <| pt ::= alter (alter f (Z.to_nat t)) (Z.to_nat d) |>).

(** A null pointer is 0. The index into the page directory is divided by 512
    once too often. *)
Definition guest_to_host (guest_addr : Z) : hyp_prog Z :=
  let guest_p_idx := guest_addr / PAGE_SIZE in
  let guest_pt_idx := guest_p_idx mod 512 in
  let guest_pd_idx := (guest_p_idx / 512 / 512) mod 512 in
  let guest_pdpt_idx := (guest_p_idx / 512 / 512) mod 512 in
  let guest_pml4_idx := (guest_p_idx / 512 / 512 / 512) mod 512 in
  let guest_futureproof_idx := guest_p_idx / 512 / 512 / 512 / 512 in
  if negb (guest_futureproof_idx =? 0) || negb (guest_pml4_idx =? 0) || negb (guest_pdpt_idx =? 0)
  then mret 0 else
  e ← get_pte guest_pd_idx guest_pt_idx;
  let host_physical := Z.shiftl (PTE_PhysicalAddress e) PAGE_SHIFT in
  let host_virt_page := phys_to_virt host_physical in
  let offset := Z.land guest_addr 0xFFF in
  mret (u64 (host_virt_page + offset)).

Definition userspace_virt_to_phys (address : Z) : hyp_prog Z :=
  pgd ← hos env (Walk PGD address);
  if negb pgd then mret 0 else
  p4d ← hos env (Walk P4D address);
  if negb p4d then mret 0 else
  pud ← hos env (Walk PUD address);
  if negb pud then mret 0 else
  pmd ← hos env (Walk PMD address);
  if negb pmd then mret 0 else
  pfn ← hos env (Pte_pfn address);
  mret (u64 (Z.shiftl pfn PAGE_SHIFT)).

Definition ept_unmap (guest_pa : Z) : hyp_prog unit :=
  let guest_p_idx := guest_pa / PAGE_SIZE in
  let guest_pt_idx := guest_p_idx mod 512 in
  let guest_pd_idx := (guest_p_idx / 512 / 512) mod 512 in
  let guest_pdpt_idx := (guest_p_idx / 512 / 512) mod 512 in
  let guest_pml4_idx := (guest_p_idx / 512 / 512 / 512) mod 512 in
  let guest_futureproof_idx := guest_p_idx / 512 / 512 / 512 / 512 in
  if negb (guest_futureproof_idx =? 0) || negb (guest_pml4_idx =? 0) || negb (guest_pdpt_idx =? 0)
  then mret tt else
  set_pte guest_pd_idx guest_pt_idx (fun _ => 0).

(** The values of the counter [i] in the loops over a range of [n] pages. *)
Definition page_offsets (n : nat) : list Z := (fun k : nat => k * PAGE_SIZE) <$> seq 0 n.

(** [i < size] in steps of a page. *)
Definition ept_unmap_range (guest_pa size : Z) : hyp_prog unit :=
  for_each (page_offsets (Z.to_nat ((size + PAGE_SIZE - 1) / PAGE_SIZE)))
    (fun i => ept_unmap (u64 (guest_pa + i))).

Definition ept_map (guest_pa host_va : Z) : hyp_prog bool :=
  let host_pa := virt_to_phys host_va in
  let host_ppi := host_pa / PAGE_SIZE in
  let guest_p_idx := Z.shiftr guest_pa PAGE_SHIFT in
  let guest_pt_idx := guest_p_idx mod 512 in
  let guest_pd_idx := (guest_p_idx / 512) mod 512 in
  let guest_pdpt_idx := (guest_p_idx / 512 / 512) mod 512 in
  let guest_pml4_idx := (guest_p_idx / 512 / 512 / 512) mod 512 in
  let guest_futureproof_idx := guest_p_idx / 512 / 512 / 512 / 512 in
  if negb (guest_futureproof_idx =? 0) then mret false else
  if negb (guest_pml4_idx =? 0) || negb (guest_pdpt_idx =? 0) then mret false else
  set_pte guest_pd_idx guest_pt_idx (fun e => map_entry e host_ppi);;
  mret true.

(** [i <= size] in steps of a page: one page more than [size] has. *)
Definition ept_map_range (guest_pa host_va_base size : Z) : hyp_prog bool :=
  r ← for_until (page_offsets (S (Z.to_nat (size / PAGE_SIZE)))) (fun i =>
    host_va ← (if negb (Z.shiftr host_va_base 63 =? 0) then mret (u64 (host_va_base + i))
               else host_pa ← userspace_virt_to_phys (u64 (host_va_base + i));
                    mret (phys_to_virt host_pa));
    ok ← ept_map (u64 (guest_pa + i)) host_va;
    if (ok : bool) then mret None else mret (Some false));
  mret (default true r).

(** [BUG_ON] of an address that does not start a page. *)
Definition bug_on_unaligned (addr : Z) : hyp_prog unit :=
  c_assert (Z.land (PAGE_SIZE - 1) addr =? 0).

Definition ept_init : hyp_prog unit :=
  vm ← get_vm;
  let a := vm_addr vm in
  bug_on_unaligned (a + off_eptp);;
  bug_on_unaligned (a + off_pml4);;
  bug_on_unaligned (a + off_pdpt);;
  bug_on_unaligned (a + off_pd);;
  for_each (seq 0 512) (fun i : nat => bug_on_unaligned (a + off_pt + i * sizeof_pt));;
  set_vm (fun vm => vm
    <| eptp ::= <[0%nat := set_eptp (virt_to_phys (a + off_pml4) / PAGE_SIZE)]> |>
    <| pml4 ::= <[0%nat := set_entry (virt_to_phys (a + off_pdpt) / PAGE_SIZE)]> |>
    <| pdpt ::= <[0%nat := set_entry (virt_to_phys (a + off_pd) / PAGE_SIZE)]> |>);;
  for_each (seq 0 512) (fun i : nat => set_vm (fun vm => vm
    <| pd ::= <[i := set_entry (virt_to_phys (a + off_pt + i * sizeof_pt) / PAGE_SIZE)]> |>));;
  set_pte 0 0 (fun _ => 0).
End Ept.

(** ** The translation of the processor

    The tables are read from physical memory: [table vm p] are the entries of
    the table of [vm] that is in the page [p]. *)

Definition present (e : Z) : bool := negb (bits e 0 3 =? 0).

Section Walk.
Context (virt_to_phys : Z -> Z).

(** The page number of the member at [off]. *)
Definition page_of (vm : vm_t) (off : Z) : Z := virt_to_phys (vm_addr vm + off) / PAGE_SIZE.

Definition table (vm : vm_t) (p : Z) : option (list Z) :=
  if p =? page_of vm off_pml4 then Some (pml4 vm)
  else if p =? page_of vm off_pdpt then Some (pdpt vm)
  else if p =? page_of vm off_pd then Some (pd vm)
  else '(i, t) ← list_find (fun '(i, _) => p = page_of vm (off_pt + Z.of_nat i * sizeof_pt))
                   (imap (fun i t => (i, t)) (pt vm));
       Some t.2.

(** One level: the entry of the table in page [p] for the index [i]. *)
Definition ept_level (vm : vm_t) (p i : Z) : option Z :=
  t ← table vm p;
  e ← t !! Z.to_nat i;
  if present e then Some (bits e 12 36) else None.

(** The host-physical address of a guest-physical one. *)
Definition ept_walk (vm : vm_t) (gpa : Z) : option Z :=
  root ← eptp vm !! 0%nat;
  p3 ← ept_level vm (bits root 12 36) (bits gpa 39 9);
  p2 ← ept_level vm p3 (bits gpa 30 9);
  p1 ← ept_level vm p2 (bits gpa 21 9);
  p ← ept_level vm p1 (bits gpa 12 9);
  Some (Z.lor (Z.shiftl p 12) (bits gpa 0 12)).
End Walk.

(** ** Entries *)

Lemma present_bit e i : 0 <= i < 3 -> Z.testbit e i = true -> present e = true.
Proof.
  intros Hi He. unfold present. apply negb_true_iff, Z.eqb_neq. intros H0.
  pose proof (f_equal (fun z => Z.testbit z i) H0) as Hb. cbv beta in Hb.
  rewrite bits_testbit, Z.testbit_0_l, bool_decide_true, Z.add_0_r, He in Hb by lia. done.
Qed.

Lemma map_entry_present e p : present (map_entry e p) = true.
Proof.
  apply (present_bit _ 1); [lia|]. unfold map_entry, set_PTE_Write.
  rewrite set_bits_testbit by lia. by rewrite bool_decide_true by lia.
Qed.

Lemma map_entry_address e p : PTE_PhysicalAddress (map_entry e p) = wrap 36 p.
Proof.
  unfold PTE_PhysicalAddress, map_entry, set_PTE_Write, set_PTE_SuppressVE, set_PTE_Read,
    set_PTE_PhysicalAddress. field_solve.
Qed.

Lemma set_entry_present a : present (set_entry a) = true.
Proof.
  apply (present_bit _ 0); [lia|]. unfold set_entry. cbv zeta.
  rewrite !set_bits_testbit by lia. done.
Qed.

Lemma set_entry_address a : bits (set_entry a) 12 36 = wrap 36 a.
Proof. unfold set_entry. cbv zeta. field_solve. Qed.

Lemma set_eptp_address a : bits (set_eptp a) 12 36 = wrap 36 a.
Proof. unfold set_eptp. cbv zeta. field_solve. Qed.

Lemma bits_div v lo w : 0 <= lo -> 0 <= w -> bits v lo w = (v / 2 ^ lo) mod 2 ^ w.
Proof. intros. unfold bits. by rewrite Z.land_ones, Z.shiftr_div_pow2 by lia. Qed.

(** The indices of an address below 256 MiB. *)
Definition pd_idx (gpa : Z) : Z := gpa / PAGE_SIZE / 512.
Definition pt_idx (gpa : Z) : Z := (gpa / PAGE_SIZE) mod 512.

Definition mappable (gpa : Z) : Prop := 0 <= gpa < 2 ^ 28.

Lemma mappable_idx gpa : mappable gpa ->
  0 <= gpa / PAGE_SIZE < 2 ^ 16 /\ 0 <= pd_idx gpa < 128 /\ 0 <= pt_idx gpa < 512.
Proof.
  intros [H1 H2]. unfold pd_idx, pt_idx, PAGE_SIZE.
  assert (0 <= gpa / 4096 < 2 ^ 16) as Hp.
  { split; [apply Z.div_pos; lia|apply Z.div_lt_upper_bound; lia]. }
  split; [done|]. split; [|apply Z.mod_pos_bound; lia].
  split; [apply Z.div_pos; lia|apply Z.div_lt_upper_bound; lia].
Qed.

Lemma mappable_high gpa : mappable gpa ->
  (gpa / PAGE_SIZE / 512) mod 512 = pd_idx gpa /\
  gpa / PAGE_SIZE / 512 / 512 = 0.
Proof.
  intros H. destruct (mappable_idx gpa H) as (H1 & H2 & H3). unfold pd_idx in *.
  split; [apply Z.mod_small; lia|apply Z.div_small; lia].
Qed.

Lemma mappable_bits gpa : mappable gpa ->
  bits gpa 39 9 = 0 /\ bits gpa 30 9 = 0 /\ bits gpa 21 9 = pd_idx gpa /\ bits gpa 12 9 = pt_idx gpa /\
  bits gpa 0 12 = gpa mod PAGE_SIZE.
Proof.
  intros H. pose proof H as [G1 G2]. destruct (mappable_idx gpa H) as (H1 & H2 & H3).
  rewrite !bits_div by lia. unfold pt_idx, pd_idx, PAGE_SIZE in *.
  rewrite !(Z.div_small gpa) by lia. rewrite Z.pow_0_r, Z.div_1_r.
  rewrite Z.div_div in * by lia.
  repeat split; try reflexivity. apply Z.mod_small. change (4096 * 512) with (2 ^ 21) in *. lia.
Qed.

(** ** The invariant of the tables *)

Section Invariant.
Context (virt_to_phys phys_to_virt : Z -> Z).

(** The structure is contiguous in physical memory from the page [P] on, as
    every allocation of [kzalloc] is. *)
Definition direct_map (vm : vm_t) (P : Z) : Prop :=
  0 <= P /\ P + 0x404 <= 2 ^ 36 /\
  forall off, 0 <= off < 0x404000 -> virt_to_phys (vm_addr vm + off) = P * PAGE_SIZE + off.

Record ept_ok (vm : vm_t) (P : Z) : Prop := {
  eo_map : direct_map vm P;
  eo_eptp : eptp vm !! 0%nat = Some (set_eptp (P + 0x201));
  eo_pml4 : pml4 vm !! 0%nat = Some (set_entry (P + 0x202));
  eo_pdpt : pdpt vm !! 0%nat = Some (set_entry (P + 0x203));
  eo_pd : forall i : nat, (i < 512)%nat -> pd vm !! i = Some (set_entry (P + 0x204 + i));
  eo_lpt : length (pt vm) = NR_PT;
  eo_pages : Forall (fun page => length page = 512%nat) (pt vm);
}.

Lemma page_of_direct vm P off :
  direct_map vm P -> 0 <= off < 0x404 -> page_of virt_to_phys vm (off * 4096) = P + off.
Proof.
  intros (_ & _ & Hm) Hoff. unfold page_of. rewrite Hm by lia. unfold PAGE_SIZE.
  rewrite <-Z.mul_add_distr_r. by rewrite Z.div_mul by lia.
Qed.

Lemma table_top vm P : direct_map vm P ->
  table virt_to_phys vm (P + 0x201) = Some (pml4 vm) /\
  table virt_to_phys vm (P + 0x202) = Some (pdpt vm) /\
  table virt_to_phys vm (P + 0x203) = Some (pd vm).
Proof.
  intros Hd. unfold table.
  assert (page_of virt_to_phys vm off_pml4 = P + 0x201) as -> by (by apply (page_of_direct vm P 0x201)).
  assert (page_of virt_to_phys vm off_pdpt = P + 0x202) as -> by (by apply (page_of_direct vm P 0x202)).
  assert (page_of virt_to_phys vm off_pd = P + 0x203) as -> by (by apply (page_of_direct vm P 0x203)).
  rewrite !Z.eqb_refl. rewrite !(proj2 (Z.eqb_neq _ _)) by lia. done.
Qed.

Lemma table_pt vm P (d : nat) page :
  direct_map vm P -> length (pt vm) = NR_PT -> pt vm !! d = Some page ->
  table virt_to_phys vm (P + 0x204 + d) = Some page.
Proof.
  intros Hd Hl Hp. assert (d < 128)%nat as Hlt by (apply lookup_lt_Some in Hp; unfold NR_PT in *; lia).
  unfold table.
  assert (page_of virt_to_phys vm off_pml4 = P + 0x201) as -> by (by apply (page_of_direct vm P 0x201)).
  assert (page_of virt_to_phys vm off_pdpt = P + 0x202) as -> by (by apply (page_of_direct vm P 0x202)).
  assert (page_of virt_to_phys vm off_pd = P + 0x203) as -> by (by apply (page_of_direct vm P 0x203)).
  rewrite !(proj2 (Z.eqb_neq _ _)) by lia.
  assert (forall i : nat, (i < 128)%nat ->
    page_of virt_to_phys vm (off_pt + i * sizeof_pt) = P + 0x204 + i) as Hpg.
  { intros i Hi. unfold off_pt, sizeof_pt. replace (0x204000 + i * 4096) with ((0x204 + i) * 4096) by lia.
    rewrite (page_of_direct vm P) by (done || lia). lia. }
  rewrite (proj2 (list_find_Some _ _ d (d, page))); [done|]. split; [|split].
  - by rewrite list_lookup_imap, Hp.
  - by rewrite Hpg.
  - intros j [j' page'] Hj Hjd. rewrite list_lookup_imap in Hj.
    destruct (pt vm !! j) as [q|] eqn:Eq; [|done]. injection Hj as <- <-. rewrite Hpg by lia. lia.
Qed.

(** Below 256 MiB the walk of the processor is a lookup in [pt]. *)
Lemma ept_walk_pt vm P gpa :
  ept_ok vm P -> mappable gpa ->
  ept_walk virt_to_phys vm gpa =
  (page ← pt vm !! Z.to_nat (pd_idx gpa);
   e ← page !! Z.to_nat (pt_idx gpa);
   if present e then Some (Z.lor (Z.shiftl (PTE_PhysicalAddress e) 12) (gpa mod PAGE_SIZE)) else None).
Proof.
  intros [Hd H0 H1 H2 H3 H4 H5] Hg. pose proof Hd as (HP1 & HP2 & _).
  destruct (mappable_bits gpa Hg) as (B1 & B2 & B3 & B4 & B5).
  destruct (mappable_idx gpa Hg) as (_ & I1 & I2).
  destruct (table_top vm P Hd) as (T1 & T2 & T3).
  unfold ept_walk. rewrite H0. cbn [mbind option_bind].
  rewrite set_eptp_address, B1, B2, B3, B4, B5, wrap_small by (unfold in_width; lia).
  unfold ept_level at 4. rewrite T1. cbn [mbind option_bind]. change (Z.to_nat 0) with 0%nat.
  rewrite H1. cbn [mbind option_bind]. rewrite set_entry_present. cbn [mbind option_bind].
  rewrite set_entry_address, wrap_small by (unfold in_width; lia).
  unfold ept_level at 3. rewrite T2. cbn [mbind option_bind]. change (Z.to_nat 0) with 0%nat.
  rewrite H2. cbn [mbind option_bind]. rewrite set_entry_present. cbn [mbind option_bind].
  rewrite set_entry_address, wrap_small by (unfold in_width; lia).
  unfold ept_level at 2. rewrite T3. cbn [mbind option_bind].
  rewrite H3 by lia. cbn [mbind option_bind]. rewrite set_entry_present. cbn [mbind option_bind].
  rewrite set_entry_address, wrap_small by (unfold in_width; lia).
  destruct (lookup_lt_is_Some_2 (pt vm) (Z.to_nat (pd_idx gpa))) as [page Hp];
    [unfold NR_PT in *; lia|].
  unfold ept_level. rewrite (table_pt vm P _ page Hd H4 Hp), Hp. cbn [mbind option_bind].
  destruct (page !! _) as [e|]; cbn [mbind option_bind]; [|done].
  by destruct (present e).
Qed.
End Invariant.

(** ** The operations on the tables *)

Definition alter_pte (d t : Z) (f : Z -> Z) (vm : vm_t) : vm_t :=
  vm <| pt ::= alter (alter f (Z.to_nat t)) (Z.to_nat d) |>.

(** Two addresses in the same page. *)
Definition same_page (a b : Z) : Prop := a / PAGE_SIZE = b / PAGE_SIZE.
#[export] Instance same_page_dec a b : Decision (same_page a b).
Proof. unfold same_page. apply _. Defined.

Lemma same_page_idx a b :
  same_page a b <-> pd_idx a = pd_idx b /\ pt_idx a = pt_idx b.
Proof.
  unfold same_page, pd_idx, pt_idx. split; [by intros ->|]. intros [H1 H2].
  rewrite (Z.div_mod (a / PAGE_SIZE) 512), (Z.div_mod (b / PAGE_SIZE) 512) by lia.
  by rewrite H1, H2.
Qed.

(** The entry of a mappable address. *)
Definition pte_of (vm : vm_t) (gpa : Z) : Z :=
  default 0 (page ← pt vm !! Z.to_nat (pd_idx gpa); page !! Z.to_nat (pt_idx gpa)).

Section Specs.
Context (env : hyp_env) (virt_to_phys phys_to_virt : Z -> Z).
Abbreviation ept_ok := (ept_ok virt_to_phys).
Abbreviation ept_walk := (ept_walk virt_to_phys).

Lemma pte_of_lookup vm P gpa : ept_ok vm P -> mappable gpa ->
  exists page, pt vm !! Z.to_nat (pd_idx gpa) = Some page /\
    page !! Z.to_nat (pt_idx gpa) = Some (pte_of vm gpa).
Proof.
  intros Hok Hg. destruct (mappable_idx gpa Hg) as (_ & I1 & I2).
  destruct (lookup_lt_is_Some_2 (pt vm) (Z.to_nat (pd_idx gpa))) as [page Hp].
  { rewrite (eo_lpt _ _ _ Hok). unfold NR_PT. lia. }
  pose proof (Forall_lookup_1 _ _ _ _ (eo_pages _ _ _ Hok) Hp) as Hlen. simpl in Hlen.
  destruct (lookup_lt_is_Some_2 page (Z.to_nat (pt_idx gpa))) as [e He]; [lia|].
  exists page. split; [done|]. unfold pte_of. rewrite Hp. simpl. by rewrite He.
Qed.

Lemma lor_page p off : 0 <= p -> 0 <= off < PAGE_SIZE -> Z.lor (Z.shiftl p 12) off = p * PAGE_SIZE + off.
Proof.
  intros Hp Hoff. unfold PAGE_SIZE in *. rewrite Z.shiftl_mul_pow2 by lia. change (2 ^ 12) with 4096.
  symmetry. apply Z.add_nocarry_lor. apply Z.bits_inj'. intros i Hi.
  rewrite Z.land_spec, Z.testbit_0_l. destruct (Z.lt_ge_cases i 12).
  - change 4096 with (2 ^ 12). by rewrite Z.mul_pow2_bits_low by lia.
  - rewrite (in_width_testbit 12 off i), andb_false_r by (unfold in_width; lia). done.
Qed.

(** The walk in terms of the entry. *)
Lemma ept_walk_pte vm P gpa : ept_ok vm P -> mappable gpa ->
  ept_walk vm gpa =
  if present (pte_of vm gpa)
  then Some (PTE_PhysicalAddress (pte_of vm gpa) * PAGE_SIZE + gpa mod PAGE_SIZE) else None.
Proof.
  intros Hok Hg. rewrite (ept_walk_pt _ vm P gpa Hok Hg).
  destruct (pte_of_lookup vm P gpa Hok Hg) as (page & Hp & He). rewrite Hp. cbn [mbind option_bind].
  rewrite He. cbn [mbind option_bind]. rewrite lor_page; [done| |].
  - unfold PTE_PhysicalAddress. apply bits_range. lia.
  - unfold PAGE_SIZE. apply Z.mod_pos_bound. lia.
Qed.

Lemma ept_ok_alter d t f vm P : ept_ok vm P -> ept_ok (alter_pte d t f vm) P.
Proof.
  intros [H0 H1 H2 H3 H4 H5 H6]. constructor; try done; simpl; unfold set_field.
  - by rewrite length_alter.
  - apply Forall_alter; [done|]. intros page Hp Hl. by rewrite length_alter.
Qed.

Lemma pte_of_alter vm P f gpa x :
  ept_ok vm P -> mappable gpa -> mappable x ->
  pte_of (alter_pte (pd_idx gpa) (pt_idx gpa) f vm) x =
  if decide (same_page x gpa) then f (pte_of vm x) else pte_of vm x.
Proof.
  intros Hok Hg Hx. destruct (pte_of_lookup vm P x Hok Hx) as (page & Hp & He).
  destruct (mappable_idx gpa Hg) as (_ & I1 & I2), (mappable_idx x Hx) as (_ & J1 & J2).
  case_decide as Hs; rewrite same_page_idx in Hs; unfold pte_of at 1, alter_pte; simpl; unfold set_field.
  - destruct Hs as [E1 E2]. rewrite <-E1, <-E2, list_lookup_alter_eq, Hp. simpl. by rewrite list_lookup_alter_eq, He.
  - destruct (decide (pd_idx x = pd_idx gpa)) as [E|E].
    + rewrite E, list_lookup_alter_eq, <-E, Hp. simpl.
      rewrite list_lookup_alter_ne, He; [done|]. intros E'. apply Hs. split; [done|]. lia.
    + rewrite list_lookup_alter_ne, Hp; [simpl; by rewrite He|]. lia.
Qed.

(** Only the tables change. *)
Lemma set_pte_spec gpa f vm P w :
  w_st w = Some vm -> ept_ok vm P -> mappable gpa ->
  wp (set_pte (pd_idx gpa) (pt_idx gpa) f) (fun _ w' =>
    w' = w <| w_st := Some (alter_pte (pd_idx gpa) (pt_idx gpa) f vm) |>) w.
Proof.
  intros Hv Hok Hg. destruct (pte_of_lookup vm P gpa Hok Hg) as (page & Hp & He).
  unfold set_pte, get_pte. apply wp_bind, wp_bind. eapply wp_get_vm; [exact Hv|].
  apply wp_bind. eapply wp_get_or; [exact Hp|]. eapply wp_get_or; [exact He|].
  apply wp_set_vm. unfold set_field. simpl. unfold set_field. by rewrite Hv.
Qed.

Lemma get_pte_spec gpa vm P (Q : Z -> hyp_world -> Prop) w :
  w_st w = Some vm -> ept_ok vm P -> mappable gpa -> Q (pte_of vm gpa) w ->
  wp (get_pte (pd_idx gpa) (pt_idx gpa)) Q w.
Proof.
  intros Hv Hok Hg HQ. destruct (pte_of_lookup vm P gpa Hok Hg) as (page & Hp & He).
  unfold get_pte. apply wp_bind. eapply wp_get_vm; [exact Hv|].
  apply wp_bind. eapply wp_get_or; [exact Hp|]. by eapply wp_get_or.
Qed.

(** What a mapped page translates to. *)
Definition remap (vm vm' : vm_t) (gpa hpa : Z) : Prop := forall x, mappable x ->
  ept_walk vm' x = if decide (same_page x gpa) then Some (hpa / PAGE_SIZE * PAGE_SIZE + x mod PAGE_SIZE)
                   else ept_walk vm x.

Definition host_ok (hpa : Z) : Prop := 0 <= hpa < 2 ^ 48.

Lemma ept_map_spec gpa hva vm P w :
  w_st w = Some vm -> ept_ok vm P -> mappable gpa -> host_ok (virt_to_phys hva) ->
  wp (ept_map virt_to_phys gpa hva) (fun ok w' => ok = true /\ w_trace w' = w_trace w /\
    exists vm', w_st w' = Some vm' /\ ept_ok vm' P /\ vm_addr vm' = vm_addr vm /\
      remap vm vm' gpa (virt_to_phys hva)) w.
Proof.
  intros Hv Hok Hg Hh. unfold ept_map. cbv zeta. unfold PAGE_SHIFT.
  rewrite Z.shiftr_div_pow2 by lia. change (2 ^ 12) with PAGE_SIZE.
  destruct (mappable_high gpa Hg) as [E1 E2]. rewrite E1, E2.
  change (0 / 512 / 512) with 0. change (0 / 512) with 0. change (0 mod 512) with 0. simpl.
  apply wp_bind. eapply wp_mono; [by apply (set_pte_spec gpa _ vm P)|]. intros [] w' ->. apply wp_ret.
  split; [done|]. split; [done|]. eexists. split; [reflexivity|].
  pose proof (ept_ok_alter (pd_idx gpa) (pt_idx gpa)
    (fun e => map_entry e (virt_to_phys hva / PAGE_SIZE)) vm P Hok) as Hok'.
  split; [exact Hok'|]. split; [done|]. intros x Hx.
  rewrite (ept_walk_pte _ P x Hok' Hx), (ept_walk_pte _ P x Hok Hx).
  rewrite (pte_of_alter vm P _ gpa x Hok Hg Hx). case_decide; [|done].
  rewrite map_entry_present, map_entry_address, wrap_small; [done|].
  unfold in_width, host_ok, PAGE_SIZE in *.
  split; [apply Z.div_pos; lia|apply Z.div_lt_upper_bound; lia].
Qed.

Lemma page_offsets_lookup n (k : nat) i : page_offsets n !! k = Some i -> i = k * PAGE_SIZE /\ (k < n)%nat.
Proof.
  unfold page_offsets. rewrite list_lookup_fmap. destruct (seq 0 n !! k) as [j|] eqn:E; [|done].
  apply lookup_seq in E as [-> E]. intros [= <-]. split; [lia|done].
Qed.

(** The userspace pages of a region, as the page walk of the kernel finds them. *)
Definition user_pages (pfn : Z -> Z) : Prop :=
  (forall tr l a, env tr (Walk l a) = true) /\ (forall tr a, env tr (Pte_pfn a) = pfn a) /\
  (forall a, 0 <= pfn a < 2 ^ 36) /\ (forall a, host_ok a -> virt_to_phys (phys_to_virt a) = a).

Lemma userspace_virt_to_phys_spec pfn a w :
  user_pages pfn ->
  wp (userspace_virt_to_phys env a) (fun r w' => r = pfn a * PAGE_SIZE /\ w_st w' = w_st w) w.
Proof.
  intros (H1 & H2 & H3 & _). unfold userspace_virt_to_phys.
  do 4 (hyp_step; hyp_step; rewrite H1; cbn [negb]). hyp_go. rewrite H2. split; [|done].
  unfold PAGE_SHIFT, PAGE_SIZE. rewrite Z.shiftl_mul_pow2 by lia.
  apply wrap_small. specialize (H3 a). unfold in_width. lia.
Qed.

(** The translation after the first [n] pages at [gpa] were mapped to those at
    the userspace address [hva]. *)
Definition range_walk (pfn : Z -> Z) (vm vm' : vm_t) (gpa hva n : Z) : Prop := forall x, mappable x ->
  let k := x / PAGE_SIZE - gpa / PAGE_SIZE in
  ept_walk vm' x = if decide (0 <= k < n) then Some (pfn (hva + k * PAGE_SIZE) * PAGE_SIZE + x mod PAGE_SIZE)
                   else ept_walk vm x.

Lemma ept_map_range_spec pfn gpa hva size vm P w :
  user_pages pfn -> w_st w = Some vm -> ept_ok vm P ->
  0 <= gpa -> gpa mod PAGE_SIZE = 0 -> 0 <= size -> gpa + size < 2 ^ 28 ->
  0 <= hva -> hva + size < 2 ^ 63 ->
  wp (ept_map_range env virt_to_phys phys_to_virt gpa hva size) (fun ok w' => ok = true /\
    exists vm', w_st w' = Some vm' /\ ept_ok vm' P /\
      range_walk pfn vm vm' gpa hva (size / PAGE_SIZE + 1)) w.
Proof.
  intros Hu Hv Hok Hg0 Hal Hs Hg1 Hh0 Hh1. pose proof Hu as (_ & _ & Hpfn & Hinv).
  unfold ept_map_range. apply wp_bind.
  assert (Z.shiftr hva 63 = 0) as ->.
  { rewrite Z.shiftr_div_pow2 by lia. apply Z.div_small. lia. }
  assert (0 <= size / PAGE_SIZE) as Hq by (unfold PAGE_SIZE; apply Z.div_pos; lia).
  eapply (wp_for_until_none _ _ (fun pre w' => exists vm', w_st w' = Some vm' /\ ept_ok vm' P /\
    range_walk pfn vm vm' gpa hva (length pre))).
  - exists vm. split; [done|]. split; [done|]. intros x Hx k. cbn [length].
    by rewrite decide_False by lia.
  - intros pre i post w1 Hl (vm1 & Hv1 & Hok1 & Hw1).
    assert (page_offsets (S (Z.to_nat (size / PAGE_SIZE))) !! length pre = Some i) as Hi
      by (rewrite Hl; by apply list_lookup_middle).
    apply page_offsets_lookup in Hi as [-> Hn]. set (n := length pre) in *.
    assert (n * PAGE_SIZE <= size) as Hle.
    { pose proof (Z.mul_div_le size PAGE_SIZE ltac:(unfold PAGE_SIZE; lia)). unfold PAGE_SIZE in *. lia. }
    assert (mappable (gpa + n * PAGE_SIZE)) as Hg by (unfold mappable, PAGE_SIZE in *; lia).
    cbn [Z.eqb negb]. apply wp_bind, wp_bind.
    rewrite !(wrap_small 64) by (unfold in_width, PAGE_SIZE in *; lia).
    eapply wp_mono; [by apply userspace_virt_to_phys_spec|]. intros r w2 [-> Hw2]. apply wp_ret.
    assert (host_ok (pfn (hva + n * PAGE_SIZE) * PAGE_SIZE)) as Hho.
    { specialize (Hpfn (hva + n * PAGE_SIZE)). unfold host_ok, PAGE_SIZE in *. lia. }
    apply wp_bind. eapply wp_mono.
    { apply (ept_map_spec (gpa + n * PAGE_SIZE) _ vm1 P w2); [by rewrite Hw2|done|done|].
      by rewrite Hinv. }
    intros ok w3 (-> & _ & vm3 & Hv3 & Hok3 & _ & Hre). rewrite Hinv in Hre by done.
    apply wp_ret. split; [done|]. exists vm3. split; [done|]. split; [done|].
    intros x Hx k. rewrite (Hre x Hx), length_app. cbn [length]. fold n.
    assert (same_page x (gpa + n * PAGE_SIZE) <-> k = n) as Hsp.
    { unfold same_page, k, PAGE_SIZE. rewrite Z.div_add by lia. lia. }
    destruct (decide (same_page x _)) as [E|E]; rewrite Hsp in E.
    + rewrite decide_True by lia. rewrite E. f_equal. unfold PAGE_SIZE. rewrite Z.div_mul by lia. done.
    + rewrite (Hw1 x Hx). cbv zeta. fold k. case_decide; case_decide; try lia; done.
  - intros w' (vm' & Hv' & Hok' & Hw'). apply wp_ret. split; [done|]. exists vm'.
    split; [done|]. split; [done|].
    replace (size / PAGE_SIZE + 1) with (Z.of_nat (length (page_offsets (S (Z.to_nat (size / PAGE_SIZE)))))).
    + exact Hw'.
    + unfold page_offsets. rewrite length_fmap, length_seq. lia.
Qed.

(** [ept_unmap] and [guest_to_host] use the first table for every address. *)
Definition first_table (gpa : Z) : Z := gpa mod 0x200000.

Lemma first_table_idx gpa : mappable gpa ->
  mappable (first_table gpa) /\ pd_idx (first_table gpa) = 0 /\ pt_idx (first_table gpa) = pt_idx gpa /\
  first_table gpa mod PAGE_SIZE = gpa mod PAGE_SIZE.
Proof.
  intros Hg. unfold first_table, mappable, pd_idx, pt_idx, PAGE_SIZE in *.
  pose proof (Z.mod_pos_bound gpa 0x200000 ltac:(lia)) as Hb.
  split; [lia|]. change 0x200000 with (4096 * 512) in *. split; [|split].
  - rewrite Z.div_div by lia. apply Z.div_small. lia.
  - rewrite Z.rem_mul_r by lia. rewrite Z.mul_comm, Z.div_add by lia.
    rewrite (Z.div_small (gpa mod 4096)) by (apply Z.mod_pos_bound; lia).
    rewrite Z.add_0_l, Z.mod_mod by lia. done.
  - rewrite Z.rem_mul_r by lia. rewrite Z.mul_comm, Z.mod_add, Z.mod_mod by lia. done.
Qed.

Lemma ept_unmap_spec gpa vm P w :
  w_st w = Some vm -> ept_ok vm P -> mappable gpa ->
  wp (ept_unmap gpa) (fun _ w' => exists vm', w_st w' = Some vm' /\ ept_ok vm' P /\
    forall x, mappable x ->
      ept_walk vm' x = if decide (same_page x (first_table gpa)) then None else ept_walk vm x) w.
Proof.
  intros Hv Hok Hg. unfold ept_unmap. cbv zeta.
  destruct (mappable_high gpa Hg) as [_ E2]. rewrite E2.
  change (0 / 512 / 512) with 0. change (0 / 512) with 0. change (0 mod 512) with 0.
  cbn [Z.eqb negb orb].
  destruct (first_table_idx gpa Hg) as (Hf & F1 & F2 & _).
  change ((gpa / PAGE_SIZE) mod 512) with (pt_idx gpa). rewrite <-F1 at 1. rewrite <-F2.
  eapply wp_mono; [by apply (set_pte_spec (first_table gpa) _ vm P)|]. intros [] w' ->.
  eexists. split; [reflexivity|].
  pose proof (ept_ok_alter (pd_idx (first_table gpa)) (pt_idx (first_table gpa)) (fun _ => 0) vm P Hok) as Hok'.
  split; [exact Hok'|]. intros x Hx.
  rewrite (ept_walk_pte _ P x Hok' Hx), (ept_walk_pte _ P x Hok Hx).
  rewrite (pte_of_alter vm P _ (first_table gpa) x Hok Hf Hx). by case_decide.
Qed.

Lemma guest_to_host_spec gpa vm P w :
  w_st w = Some vm -> ept_ok vm P -> mappable gpa ->
  wp (guest_to_host phys_to_virt gpa) (fun r w' => w' = w /\
    r = u64 (phys_to_virt (PTE_PhysicalAddress (pte_of vm (first_table gpa)) * PAGE_SIZE) + gpa mod PAGE_SIZE)) w.
Proof.
  intros Hv Hok Hg. unfold guest_to_host. cbv zeta.
  destruct (mappable_high gpa Hg) as [_ E2]. rewrite E2.
  change (0 / 512 / 512) with 0. change (0 / 512) with 0. change (0 mod 512) with 0.
  cbn [Z.eqb negb orb].
  destruct (first_table_idx gpa Hg) as (Hf & F1 & F2 & _).
  change ((gpa / PAGE_SIZE) mod 512) with (pt_idx gpa). rewrite <-F1 at 1. rewrite <-F2.
  apply wp_bind. eapply (get_pte_spec (first_table gpa)); [exact Hv|exact Hok|exact Hf|]. apply wp_ret.
  split; [done|]. unfold PAGE_SHIFT. rewrite Z.shiftl_mul_pow2 by lia.
  change 0xFFF with (Z.ones 12). by rewrite Z.land_ones by lia.
Qed.
End Specs.

(** ** Initialisation *)

Section Init.
Context (virt_to_phys : Z -> Z).

Lemma bug_on_aligned a (Q : unit -> hyp_world -> Prop) w :
  a mod PAGE_SIZE = 0 -> Q tt w -> wp (bug_on_unaligned a) Q w.
Proof.
  intros Ha HQ. unfold bug_on_unaligned. apply wp_assert; [|done]. apply Z.eqb_eq.
  change (PAGE_SIZE - 1) with (Z.ones 12). rewrite Z.land_comm, Z.land_ones by lia. exact Ha.
Qed.

Lemma lookup_seq_prefix (n : nat) pre (i : nat) post :
  seq 0 n = pre ++ i :: post -> i = length pre /\ (i < n)%nat.
Proof.
  intros Hl. assert (seq 0 n !! length pre = Some i) as Hi by (rewrite Hl; by apply list_lookup_middle).
  apply lookup_seq in Hi as [-> Hi]. split; [lia|done].
Qed.

(** A new machine has its tables linked and nothing mapped. *)
Lemma ept_init_spec a P w :
  w_st w = Some (vm_zero a) -> a mod PAGE_SIZE = 0 -> direct_map virt_to_phys (vm_zero a) P ->
  wp (ept_init virt_to_phys) (fun _ w' => exists vm', w_st w' = Some vm' /\ vm_addr vm' = a /\
    hv_vcpus vm' = hv_vcpus (vm_zero a) /\
    ept_ok virt_to_phys vm' P /\ forall x, mappable x -> ept_walk virt_to_phys vm' x = None) w.
Proof.
  intros Hv Ha Hd. unfold ept_init. apply wp_bind. eapply wp_get_vm; [exact Hv|]. cbv zeta.
  change (vm_addr (vm_zero a)) with a.
  assert (forall k, (a + k * 4096) mod PAGE_SIZE = 0) as Hal
    by (intros k; unfold PAGE_SIZE in *; by rewrite Z.mod_add by lia).
  do 4 (apply wp_bind, bug_on_aligned; [unfold off_eptp, off_pml4, off_pdpt, off_pd;
    first [exact (Hal 0x200) | exact (Hal 0x201) | exact (Hal 0x202) | exact (Hal 0x203)]|]).
  apply wp_bind. apply (wp_for_each _ _ (fun _ w' => w' = w)); [done| |].
  { intros pre i post w' _ ->. apply bug_on_aligned; [|done]. unfold off_pt, sizeof_pt.
    rewrite <-Z.add_assoc. change 0x204000 with (0x204 * 4096). rewrite <-Z.mul_add_distr_r. apply Hal. }
  intros ? ->. pose proof Hd as (HP1 & HP2 & Hlin).
  assert (forall k, 0 <= k < 0x404 -> virt_to_phys (a + k * 4096) / PAGE_SIZE = P + k) as Hpg
    by (intros k Hk; exact (page_of_direct virt_to_phys (vm_zero a) P k Hd Hk)).
  change (virt_to_phys (a + off_pml4)) with (virt_to_phys (a + 0x201 * 4096)).
  change (virt_to_phys (a + off_pdpt)) with (virt_to_phys (a + 0x202 * 4096)).
  change (virt_to_phys (a + off_pd)) with (virt_to_phys (a + 0x203 * 4096)).
  rewrite !Hpg by lia. apply wp_bind, wp_set_vm, wp_bind.
  apply (wp_for_each _ _ (fun pre w' => exists pd', length pd' = 512%nat /\
    (forall i : nat, (i < length pre)%nat -> pd' !! i = Some (set_entry (P + 0x204 + i))) /\
    w_st w' = Some ((vm_zero a)
      <| eptp ::= <[0%nat := set_eptp (P + 0x201)]> |> <| pml4 ::= <[0%nat := set_entry (P + 0x202)]> |>
      <| pdpt ::= <[0%nat := set_entry (P + 0x203)]> |> <| pd := pd' |>))).
  - exists page_zero. split; [done|]. split; [intros i Hi; simpl in Hi; lia|].
    simpl. unfold set_field. rewrite Hv. done.
  - intros pre i post w1 Hl (pd' & Hlen & Hpd & Hv1).
    destruct (lookup_seq_prefix _ _ _ _ Hl) as [-> Hi]. apply wp_set_vm.
    exists (<[length pre := set_entry (P + 0x204 + length pre)]> pd'). split; [by rewrite length_insert|].
    split.
    + intros j Hj. rewrite length_app in Hj. simpl in Hj.
      destruct (decide (j = length pre)) as [->|Hne].
      * apply list_lookup_insert_eq. lia.
      * rewrite list_lookup_insert_ne by done. apply Hpd. lia.
    + simpl. unfold set_field at 1. rewrite Hv1. simpl. unfold set_field. simpl. do 2 f_equal.
      unfold set_field. simpl. f_equal. f_equal. unfold off_pt, sizeof_pt.
      rewrite <-Z.add_assoc. change 0x204000 with (0x204 * 4096). rewrite <-Z.mul_add_distr_r.
      rewrite Hpg by lia. lia.
  - intros w2 (pd' & Hlen & Hpd & Hv2).
    set (vm2 := (vm_zero a) <| eptp ::= _ |> <| pml4 ::= _ |> <| pdpt ::= _ |> <| pd := pd' |>) in *.
    assert (ept_ok virt_to_phys vm2 P) as Hok.
    { constructor; try done. by apply Forall_replicate. }
    change 0 with (pd_idx 0) at 1. change 0 with (pt_idx 0) at 2.
    eapply wp_mono; [by apply (set_pte_spec virt_to_phys 0 _ vm2 P)|]. intros [] w3 ->.
    eexists. split; [reflexivity|]. split; [done|]. split; [done|].
    pose proof (ept_ok_alter virt_to_phys (pd_idx 0) (pt_idx 0) (fun _ => 0) vm2 P Hok) as Hok'.
    split; [exact Hok'|]. intros x Hx. rewrite (ept_walk_pte _ _ P x Hok' Hx).
    rewrite (pte_of_alter virt_to_phys vm2 P _ 0 x Hok) by done.
    assert (pte_of vm2 x = 0) as ->; [|by case_decide].
    unfold pte_of. destruct (mappable_idx x Hx) as (_ & I1 & I2).
    change (pt vm2) with (replicate NR_PT page_zero).
    rewrite lookup_replicate_2 by (unfold NR_PT; lia). cbn [mbind option_bind].
    unfold page_zero. by rewrite lookup_replicate_2 by lia.
Qed.
End Init.
