(* ===== verification/Vmcs.v ===== *)
(** * Vmcs: the virtual-machine control structure (hyper-o/vmx.c, lines 232-544,
    and hyper-o/inc/vmcs_encoding.h)

    The names of the fields with their encodings, [vmread] and [vmwrite] on the
    fields of the CPU at hand, and the initialisation of the structure. *)

From S2P Require Import Prelude Effects Hyper Ept.

(** ** vmcs_encoding.h *)

Inductive vmcs_field :=
  | VIRTUAL_PROCESSOR_ID | POSTED_INTR_NV | GUEST_ES_SELECTOR
  | GUEST_CS_SELECTOR | GUEST_SS_SELECTOR | GUEST_DS_SELECTOR
  | GUEST_FS_SELECTOR | GUEST_GS_SELECTOR | GUEST_LDTR_SELECTOR
  | GUEST_TR_SELECTOR | GUEST_INTR_STATUS | GUEST_PML_INDEX
  | HOST_ES_SELECTOR | HOST_CS_SELECTOR | HOST_SS_SELECTOR
  | HOST_DS_SELECTOR | HOST_FS_SELECTOR | HOST_GS_SELECTOR
  | HOST_TR_SELECTOR | IO_BITMAP_A | IO_BITMAP_A_HIGH
  | IO_BITMAP_B | IO_BITMAP_B_HIGH | MSR_BITMAP
  | MSR_BITMAP_HIGH | VM_EXIT_MSR_STORE_ADDR | VM_EXIT_MSR_STORE_ADDR_HIGH
  | VM_EXIT_MSR_LOAD_ADDR | VM_EXIT_MSR_LOAD_ADDR_HIGH | VM_ENTRY_MSR_LOAD_ADDR
  | VM_ENTRY_MSR_LOAD_ADDR_HIGH | PML_ADDRESS | PML_ADDRESS_HIGH
  | TSC_OFFSET | TSC_OFFSET_HIGH | VIRTUAL_APIC_PAGE_ADDR
  | VIRTUAL_APIC_PAGE_ADDR_HIGH | APIC_ACCESS_ADDR | APIC_ACCESS_ADDR_HIGH
  | POSTED_INTR_DESC_ADDR | POSTED_INTR_DESC_ADDR_HIGH | VM_FUNCTION_CONTROL
  | VM_FUNCTION_CONTROL_HIGH | EPT_POINTER | EPT_POINTER_HIGH
  | EOI_EXIT_BITMAP0 | EOI_EXIT_BITMAP0_HIGH | EOI_EXIT_BITMAP1
  | EOI_EXIT_BITMAP1_HIGH | EOI_EXIT_BITMAP2 | EOI_EXIT_BITMAP2_HIGH
  | EOI_EXIT_BITMAP3 | EOI_EXIT_BITMAP3_HIGH | EPTP_LIST_ADDRESS
  | EPTP_LIST_ADDRESS_HIGH | VMREAD_BITMAP | VMREAD_BITMAP_HIGH
  | VMWRITE_BITMAP | VMWRITE_BITMAP_HIGH | XSS_EXIT_BITMAP
  | XSS_EXIT_BITMAP_HIGH | ENCLS_EXITING_BITMAP | ENCLS_EXITING_BITMAP_HIGH
  | TSC_MULTIPLIER | TSC_MULTIPLIER_HIGH | GUEST_PHYSICAL_ADDRESS
  | GUEST_PHYSICAL_ADDRESS_HIGH | VMCS_LINK_POINTER | VMCS_LINK_POINTER_HIGH
  | GUEST_IA32_DEBUGCTL | GUEST_IA32_DEBUGCTL_HIGH | GUEST_IA32_PAT
  | GUEST_IA32_PAT_HIGH | GUEST_IA32_EFER | GUEST_IA32_EFER_HIGH
  | GUEST_IA32_PERF_GLOBAL_CTRL | GUEST_IA32_PERF_GLOBAL_CTRL_HIGH | GUEST_PDPTR0
  | GUEST_PDPTR0_HIGH | GUEST_PDPTR1 | GUEST_PDPTR1_HIGH
  | GUEST_PDPTR2 | GUEST_PDPTR2_HIGH | GUEST_PDPTR3
  | GUEST_PDPTR3_HIGH | GUEST_BNDCFGS | GUEST_BNDCFGS_HIGH
  | GUEST_IA32_RTIT_CTL | GUEST_IA32_RTIT_CTL_HIGH | HOST_IA32_PAT
  | HOST_IA32_PAT_HIGH | HOST_IA32_EFER | HOST_IA32_EFER_HIGH
  | HOST_IA32_PERF_GLOBAL_CTRL | HOST_IA32_PERF_GLOBAL_CTRL_HIGH | PIN_BASED_VM_EXEC_CONTROL
  | CPU_BASED_VM_EXEC_CONTROL | EXCEPTION_BITMAP | PAGE_FAULT_ERROR_CODE_MASK
  | PAGE_FAULT_ERROR_CODE_MATCH | CR3_TARGET_COUNT | VM_EXIT_CONTROLS
  | VM_EXIT_MSR_STORE_COUNT | VM_EXIT_MSR_LOAD_COUNT | VM_ENTRY_CONTROLS
  | VM_ENTRY_MSR_LOAD_COUNT | VM_ENTRY_INTR_INFO_FIELD | VM_ENTRY_EXCEPTION_ERROR_CODE
  | VM_ENTRY_INSTRUCTION_LEN | TPR_THRESHOLD | SECONDARY_VM_EXEC_CONTROL
  | PLE_GAP | PLE_WINDOW | VM_INSTRUCTION_ERROR
  | VM_EXIT_REASON | VM_EXIT_INTR_INFO | VM_EXIT_INTR_ERROR_CODE
  | IDT_VECTORING_INFO_FIELD | IDT_VECTORING_ERROR_CODE | VM_EXIT_INSTRUCTION_LEN
  | VMX_INSTRUCTION_INFO | GUEST_ES_LIMIT | GUEST_CS_LIMIT
  | GUEST_SS_LIMIT | GUEST_DS_LIMIT | GUEST_FS_LIMIT
  | GUEST_GS_LIMIT | GUEST_LDTR_LIMIT | GUEST_TR_LIMIT
  | GUEST_GDTR_LIMIT | GUEST_IDTR_LIMIT | GUEST_ES_AR_BYTES
  | GUEST_CS_AR_BYTES | GUEST_SS_AR_BYTES | GUEST_DS_AR_BYTES
  | GUEST_FS_AR_BYTES | GUEST_GS_AR_BYTES | GUEST_LDTR_AR_BYTES
  | GUEST_TR_AR_BYTES | GUEST_INTERRUPTIBILITY_INFO | GUEST_ACTIVITY_STATE
  | GUEST_SYSENTER_CS | VMX_PREEMPTION_TIMER_VALUE | HOST_IA32_SYSENTER_CS
  | CR0_GUEST_HOST_MASK | CR4_GUEST_HOST_MASK | CR0_READ_SHADOW
  | CR4_READ_SHADOW | CR3_TARGET_VALUE0 | CR3_TARGET_VALUE1
  | CR3_TARGET_VALUE2 | CR3_TARGET_VALUE3 | EXIT_QUALIFICATION
  | GUEST_LINEAR_ADDRESS | GUEST_CR0 | GUEST_CR3
  | GUEST_CR4 | GUEST_ES_BASE | GUEST_CS_BASE
  | GUEST_SS_BASE | GUEST_DS_BASE | GUEST_FS_BASE
  | GUEST_GS_BASE | GUEST_LDTR_BASE | GUEST_TR_BASE
  | GUEST_GDTR_BASE | GUEST_IDTR_BASE | GUEST_DR7
  | GUEST_RSP | GUEST_RIP | GUEST_RFLAGS
  | GUEST_PENDING_DBG_EXCEPTIONS | GUEST_SYSENTER_ESP | GUEST_SYSENTER_EIP
  | HOST_CR0 | HOST_CR3 | HOST_CR4
  | HOST_FS_BASE | HOST_GS_BASE | HOST_TR_BASE
  | HOST_GDTR_BASE | HOST_IDTR_BASE | HOST_IA32_SYSENTER_ESP
  | HOST_IA32_SYSENTER_EIP | HOST_RSP | HOST_RIP
  | VMCS_GUEST_ACTIVITY_STATE.

Definition encoding (f : vmcs_field) : Z :=
  match f with
  | VIRTUAL_PROCESSOR_ID => 0x0 | POSTED_INTR_NV => 0x2
  | GUEST_ES_SELECTOR => 0x800 | GUEST_CS_SELECTOR => 0x802
  | GUEST_SS_SELECTOR => 0x804 | GUEST_DS_SELECTOR => 0x806
  | GUEST_FS_SELECTOR => 0x808 | GUEST_GS_SELECTOR => 0x80a
  | GUEST_LDTR_SELECTOR => 0x80c | GUEST_TR_SELECTOR => 0x80e
  | GUEST_INTR_STATUS => 0x810 | GUEST_PML_INDEX => 0x812
  | HOST_ES_SELECTOR => 0xc00 | HOST_CS_SELECTOR => 0xc02
  | HOST_SS_SELECTOR => 0xc04 | HOST_DS_SELECTOR => 0xc06
  | HOST_FS_SELECTOR => 0xc08 | HOST_GS_SELECTOR => 0xc0a
  | HOST_TR_SELECTOR => 0xc0c | IO_BITMAP_A => 0x2000
  | IO_BITMAP_A_HIGH => 0x2001 | IO_BITMAP_B => 0x2002
  | IO_BITMAP_B_HIGH => 0x2003 | MSR_BITMAP => 0x2004
  | MSR_BITMAP_HIGH => 0x2005 | VM_EXIT_MSR_STORE_ADDR => 0x2006
  | VM_EXIT_MSR_STORE_ADDR_HIGH => 0x2007 | VM_EXIT_MSR_LOAD_ADDR => 0x2008
  | VM_EXIT_MSR_LOAD_ADDR_HIGH => 0x2009 | VM_ENTRY_MSR_LOAD_ADDR => 0x200a
  | VM_ENTRY_MSR_LOAD_ADDR_HIGH => 0x200b | PML_ADDRESS => 0x200e
  | PML_ADDRESS_HIGH => 0x200f | TSC_OFFSET => 0x2010
  | TSC_OFFSET_HIGH => 0x2011 | VIRTUAL_APIC_PAGE_ADDR => 0x2012
  | VIRTUAL_APIC_PAGE_ADDR_HIGH => 0x2013 | APIC_ACCESS_ADDR => 0x2014
  | APIC_ACCESS_ADDR_HIGH => 0x2015 | POSTED_INTR_DESC_ADDR => 0x2016
  | POSTED_INTR_DESC_ADDR_HIGH => 0x2017 | VM_FUNCTION_CONTROL => 0x2018
  | VM_FUNCTION_CONTROL_HIGH => 0x2019 | EPT_POINTER => 0x201a
  | EPT_POINTER_HIGH => 0x201b | EOI_EXIT_BITMAP0 => 0x201c
  | EOI_EXIT_BITMAP0_HIGH => 0x201d | EOI_EXIT_BITMAP1 => 0x201e
  | EOI_EXIT_BITMAP1_HIGH => 0x201f | EOI_EXIT_BITMAP2 => 0x2020
  | EOI_EXIT_BITMAP2_HIGH => 0x2021 | EOI_EXIT_BITMAP3 => 0x2022
  | EOI_EXIT_BITMAP3_HIGH => 0x2023 | EPTP_LIST_ADDRESS => 0x2024
  | EPTP_LIST_ADDRESS_HIGH => 0x2025 | VMREAD_BITMAP => 0x2026
  | VMREAD_BITMAP_HIGH => 0x2027 | VMWRITE_BITMAP => 0x2028
  | VMWRITE_BITMAP_HIGH => 0x2029 | XSS_EXIT_BITMAP => 0x202c
  | XSS_EXIT_BITMAP_HIGH => 0x202d | ENCLS_EXITING_BITMAP => 0x202e
  | ENCLS_EXITING_BITMAP_HIGH => 0x202f | TSC_MULTIPLIER => 0x2032
  | TSC_MULTIPLIER_HIGH => 0x2033 | GUEST_PHYSICAL_ADDRESS => 0x2400
  | GUEST_PHYSICAL_ADDRESS_HIGH => 0x2401 | VMCS_LINK_POINTER => 0x2800
  | VMCS_LINK_POINTER_HIGH => 0x2801 | GUEST_IA32_DEBUGCTL => 0x2802
  | GUEST_IA32_DEBUGCTL_HIGH => 0x2803 | GUEST_IA32_PAT => 0x2804
  | GUEST_IA32_PAT_HIGH => 0x2805 | GUEST_IA32_EFER => 0x2806
  | GUEST_IA32_EFER_HIGH => 0x2807 | GUEST_IA32_PERF_GLOBAL_CTRL => 0x2808
  | GUEST_IA32_PERF_GLOBAL_CTRL_HIGH => 0x2809 | GUEST_PDPTR0 => 0x280a
  | GUEST_PDPTR0_HIGH => 0x280b | GUEST_PDPTR1 => 0x280c
  | GUEST_PDPTR1_HIGH => 0x280d | GUEST_PDPTR2 => 0x280e
  | GUEST_PDPTR2_HIGH => 0x280f | GUEST_PDPTR3 => 0x2810
  | GUEST_PDPTR3_HIGH => 0x2811 | GUEST_BNDCFGS => 0x2812
  | GUEST_BNDCFGS_HIGH => 0x2813 | GUEST_IA32_RTIT_CTL => 0x2814
  | GUEST_IA32_RTIT_CTL_HIGH => 0x2815 | HOST_IA32_PAT => 0x2c00
  | HOST_IA32_PAT_HIGH => 0x2c01 | HOST_IA32_EFER => 0x2c02
  | HOST_IA32_EFER_HIGH => 0x2c03 | HOST_IA32_PERF_GLOBAL_CTRL => 0x2c04
  | HOST_IA32_PERF_GLOBAL_CTRL_HIGH => 0x2c05 | PIN_BASED_VM_EXEC_CONTROL => 0x4000
  | CPU_BASED_VM_EXEC_CONTROL => 0x4002 | EXCEPTION_BITMAP => 0x4004
  | PAGE_FAULT_ERROR_CODE_MASK => 0x4006 | PAGE_FAULT_ERROR_CODE_MATCH => 0x4008
  | CR3_TARGET_COUNT => 0x400a | VM_EXIT_CONTROLS => 0x400c
  | VM_EXIT_MSR_STORE_COUNT => 0x400e | VM_EXIT_MSR_LOAD_COUNT => 0x4010
  | VM_ENTRY_CONTROLS => 0x4012 | VM_ENTRY_MSR_LOAD_COUNT => 0x4014
  | VM_ENTRY_INTR_INFO_FIELD => 0x4016 | VM_ENTRY_EXCEPTION_ERROR_CODE => 0x4018
  | VM_ENTRY_INSTRUCTION_LEN => 0x401a | TPR_THRESHOLD => 0x401c
  | SECONDARY_VM_EXEC_CONTROL => 0x401e | PLE_GAP => 0x4020
  | PLE_WINDOW => 0x4022 | VM_INSTRUCTION_ERROR => 0x4400
  | VM_EXIT_REASON => 0x4402 | VM_EXIT_INTR_INFO => 0x4404
  | VM_EXIT_INTR_ERROR_CODE => 0x4406 | IDT_VECTORING_INFO_FIELD => 0x4408
  | IDT_VECTORING_ERROR_CODE => 0x440a | VM_EXIT_INSTRUCTION_LEN => 0x440c
  | VMX_INSTRUCTION_INFO => 0x440e | GUEST_ES_LIMIT => 0x4800
  | GUEST_CS_LIMIT => 0x4802 | GUEST_SS_LIMIT => 0x4804
  | GUEST_DS_LIMIT => 0x4806 | GUEST_FS_LIMIT => 0x4808
  | GUEST_GS_LIMIT => 0x480a | GUEST_LDTR_LIMIT => 0x480c
  | GUEST_TR_LIMIT => 0x480e | GUEST_GDTR_LIMIT => 0x4810
  | GUEST_IDTR_LIMIT => 0x4812 | GUEST_ES_AR_BYTES => 0x4814
  | GUEST_CS_AR_BYTES => 0x4816 | GUEST_SS_AR_BYTES => 0x4818
  | GUEST_DS_AR_BYTES => 0x481a | GUEST_FS_AR_BYTES => 0x481c
  | GUEST_GS_AR_BYTES => 0x481e | GUEST_LDTR_AR_BYTES => 0x4820
  | GUEST_TR_AR_BYTES => 0x4822 | GUEST_INTERRUPTIBILITY_INFO => 0x4824
  | GUEST_ACTIVITY_STATE => 0x4826 | GUEST_SYSENTER_CS => 0x482a
  | VMX_PREEMPTION_TIMER_VALUE => 0x482e | HOST_IA32_SYSENTER_CS => 0x4c00
  | CR0_GUEST_HOST_MASK => 0x6000 | CR4_GUEST_HOST_MASK => 0x6002
  | CR0_READ_SHADOW => 0x6004 | CR4_READ_SHADOW => 0x6006
  | CR3_TARGET_VALUE0 => 0x6008 | CR3_TARGET_VALUE1 => 0x600a
  | CR3_TARGET_VALUE2 => 0x600c | CR3_TARGET_VALUE3 => 0x600e
  | EXIT_QUALIFICATION => 0x6400 | GUEST_LINEAR_ADDRESS => 0x640a
  | GUEST_CR0 => 0x6800 | GUEST_CR3 => 0x6802
  | GUEST_CR4 => 0x6804 | GUEST_ES_BASE => 0x6806
  | GUEST_CS_BASE => 0x6808 | GUEST_SS_BASE => 0x680a
  | GUEST_DS_BASE => 0x680c | GUEST_FS_BASE => 0x680e
  | GUEST_GS_BASE => 0x6810 | GUEST_LDTR_BASE => 0x6812
  | GUEST_TR_BASE => 0x6814 | GUEST_GDTR_BASE => 0x6816
  | GUEST_IDTR_BASE => 0x6818 | GUEST_DR7 => 0x681a
  | GUEST_RSP => 0x681c | GUEST_RIP => 0x681e
  | GUEST_RFLAGS => 0x6820 | GUEST_PENDING_DBG_EXCEPTIONS => 0x6822
  | GUEST_SYSENTER_ESP => 0x6824 | GUEST_SYSENTER_EIP => 0x6826
  | HOST_CR0 => 0x6c00 | HOST_CR3 => 0x6c02
  | HOST_CR4 => 0x6c04 | HOST_FS_BASE => 0x6c06
  | HOST_GS_BASE => 0x6c08 | HOST_TR_BASE => 0x6c0a
  | HOST_GDTR_BASE => 0x6c0c | HOST_IDTR_BASE => 0x6c0e
  | HOST_IA32_SYSENTER_ESP => 0x6c10 | HOST_IA32_SYSENTER_EIP => 0x6c12
  | HOST_RSP => 0x6c14 | HOST_RIP => 0x6c16
  | VMCS_GUEST_ACTIVITY_STATE => 0x4826
  end.

(** ** arch/msr.h and arch/segment.h *)

Definition IA32_SYSENTER_CS := 0x174.
Definition IA32_SYSENTER_ESP := 0x175.
Definition IA32_SYSENTER_EIP := 0x176.
Definition IA32_PERF_GLOBAL_CTRL := 0x38f.
Definition IA32_FS_BASE := 0xc0000100.
Definition IA32_GS_BASE := 0xc0000101.
Definition IA32_APIC_BASE := 0x1B.
Definition APIC_DEFAULT_ADDRESS := 0xfee00000.
Definition IA32_APICBASE_BSP := Z.shiftl 1 8.
Definition IA32_APICBASE_ENABLE := Z.shiftl 1 11.
Definition IA32_VMX_MISC_MSR := 0x485.
Definition SEGMENT_DESCRIPTOR_TYPE_TSS_AVAILABLE := 9.
Definition SEGMENT_DESCRIPTOR_TYPE_TSS_BUSY := 11.

(** [union __segment_selector_t] *)
Definition sel_index (segment : Z) : Z := bits segment 3 13.

(** [struct __segment_descriptor_32_t]: the members of its eight bytes; the
    64-bit variant has [base_upper] behind them. *)
Definition desc_base_low (d : bytes) : Z := le_val (load d 2 2).
Definition desc_flags (d : bytes) : Z := le_val (load d 4 4).
Definition desc_base_middle (d : bytes) : Z := bits (desc_flags d) 0 8.
Definition desc_type (d : bytes) : Z := bits (desc_flags d) 8 4.
Definition desc_system (d : bytes) : Z := bits (desc_flags d) 20 1.
Definition desc_base_high (d : bytes) : Z := bits (desc_flags d) 24 8.
Definition desc_base_upper (d : bytes) : Z := le_val (load d 8 4).
Definition sizeof_segment_descriptor := 8.

(** ** The control structures (vmcs.h) *)

(** [union __vmx_pinbased_control_msr_t], [__vmx_primary_processor_based_control_t]
    and [__vmx_secondary_processor_based_control_t]. *)
Definition set_vmx_preemption_timer (c v : Z) : Z := set_bits c 6 1 v.
Definition set_use_msr_bitmaps (c v : Z) : Z := set_bits c 28 1 v.
Definition set_wbinvd_exiting (c v : Z) : Z := set_bits c 6 1 v.
Definition set_enable_pml (c v : Z) : Z := set_bits c 17 1 v.

(** [header.bits] of [struct __vmcs_t]. *)
Definition set_revision_identifier (h v : Z) : Z := set_bits h 0 31 v.
Definition set_shadow_vmcs_indicator (h v : Z) : Z := set_bits h 31 1 v.

Section Vmcs.
Context (env : hyp_env) (virt_to_phys : Z -> Z) (vm_entrypoint : Z).

(** The flag and the value; a failed instruction leaves the value unspecified,
    here what the field holds. *)
Definition vmread (i : nat) (f : vmcs_field) : hyp_prog (Z * Z) :=
  r ← hos env (Vmread (encoding f));
  v ← Hyper.get_cpu i;
  mret ((if r =? 0 then 0 else 1), default 0 (vmcs_fields v !! encoding f)).

Definition vmwrite (i : nat) (f : vmcs_field) (x : Z) : hyp_prog Z :=
  r ← hos env (Vmwrite (encoding f) x);
  if r =? 0 then set_cpu i (fun v => v <| vmcs_fields ::= <[encoding f := x]> |>);; mret 0
  else mret 1.

(** Writes of constants, and [ret |= vmwrite(...)] of computed values. *)
Definition vmwrites (i : nat) (l : list (vmcs_field * Z)) : hyp_prog unit :=
  for_each l (fun '(f, x) => _ ← vmwrite i f x; mret tt).

Fixpoint vmwrites_or (i : nat) (ret : Z) (l : list (vmcs_field * hyp_prog Z)) : hyp_prog Z :=
  match l with
  | [] => mret ret
  | (f, m) :: l => x ← m; r ← vmwrite i f x; vmwrites_or i (Z.lor ret r) l
  end.

Definition get_segment_base (gdt_base segment : Z) : hyp_prog Z :=
  let index := sel_index segment in
  if index =? 0 then mret 0 else
  let descriptor := gdt_base + index * sizeof_segment_descriptor in
  d ← hos env (Read_host descriptor 8);
  let segment_base := u32 (Z.lor (Z.lor (desc_base_low d) (Z.shiftl (desc_base_middle d) 16))
                                 (Z.shiftl (desc_base_high d) 24)) in
  if (desc_system d =? 0) &&
     ((desc_type d =? SEGMENT_DESCRIPTOR_TYPE_TSS_AVAILABLE) ||
      (desc_type d =? SEGMENT_DESCRIPTOR_TYPE_TSS_BUSY)) then
    d ← hos env (Read_host descriptor 16);
    mret (Z.lor segment_base (Z.shiftl (desc_base_upper d) 32))
  else mret segment_base.

(** [sizeof(vcpu_t)] and the offset of [vmcs] in it. *)
Definition sizeof_vcpu := 0x6000.
Definition off_vmcs := 0x4000.

Definition vmcs_alloc (i : nat) : hyp_prog bool :=
  vm ← get_vm;
  let vcpu := vm_addr vm + off_vcpus + i * sizeof_vcpu in
  bug_on_unaligned (vcpu + off_vmcs);;
  bug_on_unaligned vcpu;;
  rev ← hos env Vmcs_revision_id;
  set_cpu i (fun v => v <| vmcs_pa := virt_to_phys (vcpu + off_vmcs) |>
                        <| vmcs_header ::= fun h => set_shadow_vmcs_indicator
                                                      (set_revision_identifier h rev) 0 |>);;
  mret true.

Definition selector_mask := 7.
Definition read_selector (r : host_reg) : hyp_prog Z :=
  s ← hos env (Read_reg r); mret (Z.ldiff s selector_mask).

Definition vmcs_reinit (i : nat) : hyp_prog unit :=
  ret ← vmwrites_or i 0
    [(GUEST_RSP, v ← Hyper.get_cpu i; mret (o_rsp (st_regs (vc_state v))));
     (GUEST_RIP, v ← Hyper.get_cpu i; mret (o_rip (st_regs (vc_state v))))];
  vm ← get_vm;
  root ← get_or OutOfBounds (eptp vm !! 0%nat);
  if root =? 0 then fail Panicked else
  ret ← vmwrites_or i ret [(EPT_POINTER, mret root)];
  gdtr ← hos env (Read_reg GDTR_base);
  idtr ← hos env (Read_reg IDTR_base);
  ret ← vmwrites_or i ret
    [(HOST_CR0, hos env (Read_reg CR0));
     (HOST_CR3, hos env (Read_reg CR3));
     (HOST_CR4, hos env (Read_reg CR4));
     (HOST_RIP, mret vm_entrypoint);
     (HOST_CS_SELECTOR, read_selector CS);
     (HOST_SS_SELECTOR, read_selector SS);
     (HOST_DS_SELECTOR, read_selector DS);
     (HOST_ES_SELECTOR, read_selector ES);
     (HOST_FS_SELECTOR, read_selector FS);
     (HOST_GS_SELECTOR, read_selector GS);
     (HOST_TR_SELECTOR, read_selector TR);
     (HOST_FS_BASE, hos env (Readmsr IA32_FS_BASE));
     (HOST_GS_BASE, hos env (Readmsr IA32_GS_BASE));
     (HOST_TR_BASE, tr ← hos env (Read_reg TR); get_segment_base gdtr tr);
     (HOST_GDTR_BASE, mret gdtr);
     (HOST_IDTR_BASE, mret idtr);
     (HOST_IA32_SYSENTER_CS, hos env (Readmsr IA32_SYSENTER_CS));
     (HOST_IA32_SYSENTER_ESP, hos env (Readmsr IA32_SYSENTER_ESP));
     (HOST_IA32_SYSENTER_EIP, hos env (Readmsr IA32_SYSENTER_EIP));
     (HOST_IA32_PERF_GLOBAL_CTRL, hos env (Readmsr IA32_PERF_GLOBAL_CTRL))];
  if negb (ret =? 0) then fail Panicked else mret tt.

(** The constants that [vmcs_full_init] writes first. *)
Definition full_init_writes : list (vmcs_field * Z) :=
  [
    (CPU_BASED_VM_EXEC_CONTROL, 0xa5986dfa); (CR0_GUEST_HOST_MASK, 0);
    (CR0_READ_SHADOW, 0x60000010); (CR3_TARGET_COUNT, 0x0); (CR4_GUEST_HOST_MASK, 0);
    (CR4_READ_SHADOW, 0x0); (EXCEPTION_BITMAP, 0x60042); (GUEST_CR0, 0x30); (GUEST_CR3, 0x0);
    (GUEST_CR4, 0x2040); (GUEST_CS_AR_BYTES, 0x9b); (GUEST_CS_BASE, 0xf0000);
    (GUEST_CS_LIMIT, 0xffff); (GUEST_CS_SELECTOR, 0xf000); (GUEST_DR7, 0x400);
    (GUEST_DS_AR_BYTES, 0x93); (GUEST_DS_BASE, 0x0); (GUEST_DS_LIMIT, 0xffff);
    (GUEST_DS_SELECTOR, 0x0); (GUEST_ES_AR_BYTES, 0x93); (GUEST_ES_BASE, 0x0);
    (GUEST_ES_LIMIT, 0xffff); (GUEST_ES_SELECTOR, 0x0); (GUEST_FS_AR_BYTES, 0x93);
    (GUEST_FS_BASE, 0x0); (GUEST_FS_LIMIT, 0xffff); (GUEST_FS_SELECTOR, 0x0);
    (GUEST_GDTR_BASE, 0x0); (GUEST_GDTR_LIMIT, 0xffff); (GUEST_GS_AR_BYTES, 0x93);
    (GUEST_GS_BASE, 0x0); (GUEST_GS_LIMIT, 0xffff); (GUEST_GS_SELECTOR, 0x0);
    (GUEST_IA32_DEBUGCTL, 0x0); (GUEST_IA32_EFER, 0x0); (GUEST_IA32_PAT, 0x7040600070406);
    (GUEST_IDTR_BASE, 0x0); (GUEST_IDTR_LIMIT, 0xffff); (GUEST_INTERRUPTIBILITY_INFO, 0x0);
    (GUEST_LDTR_AR_BYTES, 0x82); (GUEST_LDTR_BASE, 0x0); (GUEST_LDTR_LIMIT, 0xffff);
    (GUEST_LDTR_SELECTOR, 0x0); (GUEST_PENDING_DBG_EXCEPTIONS, 0x0); (GUEST_PML_INDEX, 0x1ff);
    (GUEST_RFLAGS, 0x2); (GUEST_SS_AR_BYTES, 0x93); (GUEST_SS_BASE, 0x0);
    (GUEST_SS_LIMIT, 0xffff); (GUEST_SS_SELECTOR, 0x0); (GUEST_SYSENTER_CS, 0x0);
    (GUEST_SYSENTER_EIP, 0x0); (GUEST_SYSENTER_ESP, 0x0); (GUEST_TR_AR_BYTES, 0x8b);
    (GUEST_TR_BASE, 0x0); (GUEST_TR_LIMIT, 0xffff); (GUEST_TR_SELECTOR, 0x0);
    (HOST_IA32_EFER, 0xd01); (PAGE_FAULT_ERROR_CODE_MASK, 0x0);
    (PAGE_FAULT_ERROR_CODE_MATCH, 0x0); (SECONDARY_VM_EXEC_CONTROL, 0x128a2);
    (TPR_THRESHOLD, 0x0); (VIRTUAL_APIC_PAGE_ADDR, 0x0); (VIRTUAL_PROCESSOR_ID, 0x1);
    (VMCS_GUEST_ACTIVITY_STATE, 0x0); (VMCS_LINK_POINTER, 0xffffffffffffffff);
    (VMX_PREEMPTION_TIMER_VALUE, 0xffffffff); (VM_ENTRY_CONTROLS, 0xd1ff);
    (VM_ENTRY_INTR_INFO_FIELD, 0x0); (VM_ENTRY_MSR_LOAD_COUNT, 0x0);
    (VM_EXIT_CONTROLS, 0x2befff); (VM_FUNCTION_CONTROL, 0x0); (XSS_EXIT_BITMAP, 0x0)
  ].

Definition vmcs_full_init (i : nat) : hyp_prog unit :=
  vmwrites i full_init_writes;;
  r1 ← vmwrite i PIN_BASED_VM_EXEC_CONTROL 0x7e;
  pin ← vmread i PIN_BASED_VM_EXEC_CONTROL;
  _ ← vmwrite i PIN_BASED_VM_EXEC_CONTROL (set_vmx_preemption_timer pin.2 1);
  _ ← hos env (Readmsr IA32_VMX_MISC_MSR);
  primary ← vmread i CPU_BASED_VM_EXEC_CONTROL;
  _ ← vmwrite i CPU_BASED_VM_EXEC_CONTROL (set_use_msr_bitmaps primary.2 0);
  secondary ← vmread i SECONDARY_VM_EXEC_CONTROL;
  _ ← vmwrite i SECONDARY_VM_EXEC_CONTROL (set_enable_pml (set_wbinvd_exiting secondary.2 0) 0);
  vmcs_reinit i;;
  if negb (Z.lor r1 pin.1 =? 0) then fail Panicked else mret tt.
End Vmcs.
