(* ===== verification/Vmx.v ===== *)
(** * Vmx: running a virtual CPU and handling its exits (hyper-o/vmx.c, lines
    546-954) and the device file of the module (hyper-o/main.c)

    A CPU is named by its index in the machine of the open file. *)

From S2P Require Import Prelude Effects Hyper Ept Vmcs.

Definition EXITCOOODE_CPUID := 10.
Definition EXITCOOODE_HLT := 12.
Definition EXITCOOODE_IO := 30.
Definition EXITCOOODE_RDMSR := 31.
Definition EXITCOOODE_WRMSR := 32.
Definition EXITCOOODE_TRAP_FLAG := 37.
Definition EXITCOOODE_EPT_VIOLATION := 48.

(** [union __vmx_exit_info_t] and [union __vmx_exit_qual_t] *)
Definition exit_reason (flags : Z) : Z := bits flags 0 16.
Definition data_write (flags : Z) : Z := bits flags 1 1.

(** [union __cr0_t] *)
Definition protection_enable (cr0 : Z) : Z := bits cr0 0 1.
Definition paging_enable (cr0 : Z) : Z := bits cr0 31 1.

Section Vmx.
Context (env : hyp_env) (virt_to_phys phys_to_virt : Z -> Z) (vm_entrypoint : Z).

Definition update_rip (i : nat) (instr_size : Z) : hyp_prog unit :=
  set_regs i (fun r => r <| o_rip ::= fun x => u64 (x + instr_size) |>).

Definition yeet (i : nat) : hyp_prog unit := set_regs i (fun r => r <| o_rip := 0x59454554 |>).

Definition get_guest_mode (i : nat) : hyp_prog Z :=
  cr0 ← vmread env i GUEST_CR0;
  if negb (cr0.1 =? 0) then fail Panicked else
  let c := cr0.2 in
  if (protection_enable c =? 0) && (paging_enable c =? 0) then mret MODE_REAL
  else if (protection_enable c =? 1) && (paging_enable c =? 0) then mret MODE_PROTECTED
  else if (protection_enable c =? 1) && (paging_enable c =? 1) then mret MODE_PAGING
  else mret (-1).

(** In real mode the selector and the offset are joined with a bitwise or. *)
Definition get_guest_rip (i : nat) : hyp_prog Z :=
  m ← get_guest_mode i;
  let mode := u8 m in
  v ← Hyper.get_cpu i;
  let rip := o_rip (st_regs (vc_state v)) in
  if mode =? MODE_REAL then
    cs ← vmread env i GUEST_CS_SELECTOR;
    if negb (cs.1 =? 0) then fail Panicked else
    mret (Z.lor (u64 (Z.shiftl cs.2 4)) rip)
  else mret rip.

Definition ooo_cpuid := 0x4f4f4f4f4f4f4f4f.

(** [switch (exit_info.bits.exit_reason)]: [None] stands for a [break]. *)
Definition handle_exit (i : nat) (reason : Z) : hyp_prog (option Z) :=
  if reason =? EXITCOOODE_CPUID then
    set_regs i (fun r => r <| o_rax := ooo_cpuid |> <| o_rbx := ooo_cpuid |>
                           <| o_rcx := ooo_cpuid |> <| o_rdx := ooo_cpuid |>);;
    update_rip i 2;;
    mret (Some OOO_VMEXIT_HANDLED)
  else if reason =? EXITCOOODE_HLT then
    update_rip i 1;;
    mret None
  else if reason =? EXITCOOODE_IO then
    rip_gpa ← get_guest_rip i;
    _ ← guest_to_host phys_to_virt rip_gpa;
    mret None
  else if reason =? EXITCOOODE_EPT_VIOLATION then
    rip_gpa ← get_guest_rip i;
    _ ← guest_to_host phys_to_virt rip_gpa;
    fault_gpa ← vmread env i GUEST_PHYSICAL_ADDRESS;
    _ ← guest_to_host phys_to_virt fault_gpa.2;
    exit_qual ← vmread env i EXIT_QUALIFICATION;
    set_state i (fun s => set_mmio s fault_gpa.2 (if data_write exit_qual.2 =? 0 then 0 else 1));;
    mret None
  else if reason =? EXITCOOODE_RDMSR then
    set_regs i (fun r => r <| o_rdx := 0 |> <| o_rax := 0 |>);;
    v ← Hyper.get_cpu i;
    (if o_rcx (st_regs (vc_state v)) =? IA32_APIC_BASE then
       set_regs i (fun r => r <| o_rax := Z.lor APIC_DEFAULT_ADDRESS IA32_APICBASE_ENABLE |>);;
       if guest_cpu_id v =? 0
       then set_regs i (fun r => r <| o_rax ::= fun x => Z.lor x IA32_APICBASE_BSP |>)
       else mret tt
     else mret tt);;
    update_rip i 2;;
    mret (Some OOO_VMEXIT_HANDLED)
  else if reason =? EXITCOOODE_WRMSR then
    update_rip i 2;;
    mret (Some OOO_VMEXIT_HANDLED)
  else if reason =? EXITCOOODE_TRAP_FLAG then
    _ ← get_guest_rip i;
    mret None
  else
    rip_gpa ← get_guest_rip i;
    _ ← guest_to_host phys_to_virt rip_gpa;
    mret None.

Definition vmexit_handle (i : nat) : hyp_prog Z :=
  exit_info ← vmread env i VM_EXIT_REASON;
  rip ← vmread env i GUEST_RIP;
  set_regs i (fun r => r <| o_rip := rip.2 |>);;
  mode ← get_guest_mode i;
  set_state i (fun s => s <| st_mode := u8 mode |>);;
  rip_gpa ← get_guest_rip i;
  set_state i (fun s => s <| st_rip_gpa := rip_gpa |>);;
  fault_gpa ← vmread env i GUEST_LINEAR_ADDRESS;
  fault_gva ← vmread env i GUEST_PHYSICAL_ADDRESS;
  let ret := Z.lor (Z.lor (Z.lor exit_info.1 rip.1) fault_gpa.1) fault_gva.1 in
  if negb (ret =? 0) then mret (-1) else
  let reason := exit_reason exit_info.2 in
  r ← handle_exit i reason;
  mret (default reason r).

(** ** CPUs *)

Definition vcpu_alloc (i : nat) : hyp_prog unit :=
  _ ← Hyper.get_cpu i;
  set_cpu i (fun v => v <| guest_cpu_id := u8 i |> <| host_cpu_id := u8 (-1) |>);;
  ok ← vmcs_alloc env virt_to_phys i;
  if negb ok then fail Panicked else mret tt.

Definition vcpu_handle_vmcs (i : nat) (cur_cpu_id : Z) : hyp_prog unit :=
  st ← hos env Vmptrst;
  if st.1 <? 0 then fail Panicked else
  v ← Hyper.get_cpu i;
  (if negb (vmcs_pa v =? st.2) then
     r ← hos env (Vmptrld (vmcs_pa v));
     if r <? 0 then fail Panicked else mret tt
   else mret tt);;
  set_cpu i (fun v => v <| host_cpu_id := u8 cur_cpu_id |>);;
  if initialized v =? 0 then
    vmcs_full_init env vm_entrypoint i;;
    set_cpu i (fun v => v <| initialized := 1 |>)
  else vmcs_reinit env vm_entrypoint i.

Definition vcpu_update_sregs (i : nat) : hyp_prog Z := mret 0.

(** The guest runs in [Vmlaunch] and [Vmresume]: the reply has the registers and
    the fields of the VMCS at the exit. *)
Definition vcpu_run (i : nat) : hyp_prog Z :=
  cur_cpu_id ← hos env Smp_processor_id;
  vcpu_handle_vmcs i cur_cpu_id;;
  v ← Hyper.get_cpu i;
  r ← vmwrite env i GUEST_RSP (o_rsp (st_regs (vc_state v)));
  if negb (r =? 0) then fail Panicked else
  rip_gpa ← get_guest_rip i;
  _ ← guest_to_host phys_to_virt rip_gpa;
  v ← Hyper.get_cpu i;
  let regs := st_regs (vc_state v) in
  x ← (if launched v =? 0 then hos env (Vmlaunch regs) else hos env (Vmresume regs));
  let '(ret, regs', fields) := x in
  if ret <? 0 then
    error ← vmread env i VM_INSTRUCTION_ERROR;
    mret (i32 (- error.2))
  else
  set_cpu i (fun v => v <| vc_state ::= (fun s => s <| st_regs := regs' |>) |>
                        <| vmcs_fields := fields |>);;
  rsp ← vmread env i GUEST_RSP;
  if negb (rsp.1 =? 0) then fail Panicked else
  set_regs i (fun r => r <| o_rsp := rsp.2 |>);;
  set_cpu i (fun v => v <| launched := 1 |>);;
  ret ← vmexit_handle i;
  v ← Hyper.get_cpu i;
  c ← hos env (Vmclear (vmcs_pa v));
  if c <? 0 then fail Panicked else
  set_cpu i (fun v => v <| launched := 0 |>);;
  mret ret.

(** ** Machines *)

Definition sizeof_vm := off_vcpus + MAX_VCPUS * sizeof_vcpu + PAGE_SIZE.

Definition vm_alloc : hyp_prog bool :=
  a ← hos env (Kzalloc sizeof_vm);
  if a =? 0 then mret false else
  modify (fun _ => Some (vm_zero a));;
  ept_init virt_to_phys;;
  for_each (seq 0 (Z.to_nat MAX_VCPUS)) vcpu_alloc;;
  mret true.

Definition vcpu_destroy (i : nat) : hyp_prog bool := mret true.

Definition vm_destroy : hyp_prog bool :=
  o ← gets (fun o => o);
  match o with
  | None => mret false
  | Some vm =>
      for_each (seq 0 (Z.to_nat MAX_VCPUS)) (fun i => _ ← vcpu_destroy i; mret tt);;
      _ ← hos env (Kfree (vm_addr vm));
      modify (fun _ => None);;
      mret true
  end.

(** ** VMX operation of the processors

    [on] is the array [vmxon_virtual] of [MAX_PCPUS] regions; each call runs on
    the processor that it is made for. *)

Definition vmx_cpu_off (on : list Z) : hyp_prog unit :=
  cpu ← hos env Smp_processor_id;
  ret ← hos env Vmxoff;
  if ret <? 0 then fail Panicked else
  region ← get_or OutOfBounds (on !! Z.to_nat cpu);
  _ ← hos env (Kfree region);
  mret tt.

Definition vmx_cpu_on (on : list Z) : hyp_prog (list Z) :=
  cpu ← hos env Smp_processor_id;
  supported ← hos env Get_vmx_support;
  if supported =? 0 then fail Panicked else
  region ← hos env (Kzalloc 4096);
  _ ← get_or OutOfBounds (on !! Z.to_nat cpu);
  if region =? 0 then fail Panicked else
  _ ← hos env Vmcs_revision_id;
  ret ← hos env (Vmxon (virt_to_phys region));
  if ret <? 0 then fail Panicked else mret (<[Z.to_nat cpu := region]> on).

Definition vmx_off (on : list Z) : hyp_prog unit :=
  n ← hos env Num_online_cpus;
  for_each (seq 0 (Z.to_nat n)) (fun _ => vmx_cpu_off on).

Fixpoint vmx_on_from (n : nat) (on : list Z) : hyp_prog (list Z) :=
  match n with
  | O => mret on
  | S n => on ← vmx_cpu_on on; vmx_on_from n on
  end.

Definition vmx_on : hyp_prog (list Z) :=
  n ← hos env Num_online_cpus;
  vmx_on_from (Z.to_nat n) (replicate (Z.to_nat MAX_PCPUS) 0).

(** ** main.c *)

Definition ENOENT := 2.
Definition ENOMEM := 12.
Definition EINVAL := 22.
Definition ENOTTY := 25.

(** The result and the regions of the processors. *)
Definition init_module : hyp_prog (Z * list Z) :=
  register_error ← hos env Register_chrdev;
  if negb (register_error =? 0) then mret (register_error, []) else
  on ← vmx_on;
  mret (0, on).

Definition cleanup_module (on : list Z) : hyp_prog unit :=
  _ ← hos env Unregister_chrdev;
  vmx_off on.

Definition device_open : hyp_prog Z :=
  ok ← vm_alloc;
  mret (if (ok : bool) then 0 else - ENOMEM).

Definition device_release : hyp_prog Z :=
  o ← gets (fun o => o);
  match o with
  | Some _ => _ ← vm_destroy; mret 0
  | None => mret 0
  end.

Definition device_read : hyp_prog Z := mret 0.

(** [None] is the null pointer. *)
Definition get_vcpu (id : Z) : option nat :=
  if (id <? 0) || (MAX_VCPUS <=? id) then None else Some (Z.to_nat id).

(** [i] is unsigned: the comparison with zero always holds. *)
Definition run_loop (fuel : nat) (i : nat) : hyp_prog Z :=
  loop fuel (fun _ : unit =>
    r ← vcpu_run i;
    if u64 r =? u64 OOO_VMEXIT_HANDLED then mret (inl tt) else mret (inr (u64 r))) tt.

Definition device_ioctl_pinned (fuel : nat) (cmd arg : Z) : hyp_prog Z :=
  o ← gets (fun o => o);
  match o with
  | None => mret (- ENOENT)
  | Some _ =>
  let op := Z.ldiff cmd 0xff in
  let vcpu := get_vcpu (Z.land cmd 0xff) in
  if op =? OOO_MAP then
    m ← hos env (Copy_region arg);
    match m with
    | None => mret (- EINVAL)
    | Some m =>
        ok ← ept_map_range env virt_to_phys phys_to_virt (mreg_guest_phys_addr m)
               (mreg_userspace_addr m) (mreg_memory_size m);
        mret (if (ok : bool) then 0 else - EINVAL)
    end
  else if op =? OOO_UNMAP then
    m ← hos env (Copy_region arg);
    match m with
    | None => mret (- EINVAL)
    | Some m => ept_unmap_range (mreg_guest_phys_addr m) (mreg_memory_size m);; mret 0
    end
  else if op =? OOO_PEEK then
    match vcpu with
    | None => mret (- EINVAL)
    | Some i =>
        v ← Hyper.get_cpu i;
        r ← hos env (Copy_state_to arg (vc_state v));
        mret (if negb (r =? 0) then - EINVAL else 0)
    end
  else if op =? OOO_POKE then
    match vcpu with
    | None => mret (- EINVAL)
    | Some i =>
        s ← hos env (Copy_state_from arg);
        match s with
        | None => mret (- EINVAL)
        | Some s => set_state i (fun _ => s);; mret 0
        end
    end
  else if op =? OOO_RUN then
    match vcpu with
    | None => mret (- EINVAL)
    | Some i =>
        s ← hos env (Copy_state_from arg);
        match s with
        | None => mret (- EINVAL)
        | Some s =>
            set_state i (fun _ => s);;
            r ← run_loop fuel i;
            v ← Hyper.get_cpu i;
            c ← hos env (Copy_state_to arg (vc_state v));
            if negb (c =? 0) then mret (- EINVAL) else
            mret (i64 (if 0 <=? r then r else Z.lor 0x1000 (- r)))
        end
    end
  else mret (- ENOTTY)
  end.

Definition device_ioctl (fuel : nat) (cmd arg : Z) : hyp_prog Z :=
  r ← device_ioctl_pinned fuel cmd arg;
  mret (i64 (u64 r)).

(** [&vm->memory + gpa] steps over [gpa] arrays of [sizeof_memory] bytes. *)
Definition sizeof_memory := 0x200000.

Definition device_mmap (vm_start vm_end vm_pgoff : Z) : hyp_prog Z :=
  let vmasize := u64 (vm_end - vm_start) in
  let gpa := u64 (Z.shiftl vm_pgoff PAGE_SHIFT) in
  if 0x200000 <? gpa then mret (- EINVAL) else
  h ← guest_to_host phys_to_virt gpa;
  if negb (virt_to_phys h =? 0) then
    for_each (page_offsets (Z.to_nat ((vmasize + PAGE_SIZE - 1) / PAGE_SIZE))) (fun i =>
      h ← guest_to_host phys_to_virt (u64 (gpa + i));
      let hpa := virt_to_phys h in
      if hpa =? 0 then mret tt else
      _ ← hos env (Remap_pfn_range (u64 (vm_start + i)) (Z.shiftr hpa PAGE_SHIFT) PAGE_SIZE);
      mret tt);;
    mret 0
  else
    vm ← get_vm;
    let mapped := u64 (vm_addr vm + gpa * sizeof_memory) in
    ok ← ept_map_range env virt_to_phys phys_to_virt gpa mapped vmasize;
    if negb ok then mret (- EINVAL) else
    _ ← hos env (Remap_pfn_range vm_start (Z.shiftr (virt_to_phys mapped) PAGE_SHIFT) vmasize);
    mret 0.
End Vmx.

(** ** Reasoning about one CPU *)

(** The machine is [vm] with the CPU [i] replaced by [v]. *)
Definition cpu_is (w : hyp_world) (vm : vm_t) (i : nat) (v : vcpu_t) : Prop :=
  w_st w = Some (vm <| hv_vcpus ::= <[i := v]> |>) /\ (i < length (hv_vcpus vm))%nat.

Lemma cpu_is_start w vm i v :
  w_st w = Some vm -> hv_vcpus vm !! i = Some v -> cpu_is w vm i v.
Proof.
  intros Hw Hv. split; [|by eapply lookup_lt_Some]. rewrite Hw. destruct vm; simpl in *.
  unfold set_field. simpl. by rewrite list_insert_id.
Qed.

Lemma cpu_is_get (Q : vcpu_t -> hyp_world -> Prop) w vm i v :
  cpu_is w vm i v -> Q v w -> wp (Hyper.get_cpu i) Q w.
Proof.
  intros [Hw Hi] HQ. apply (wp_get_cpu i v); [|done]. unfold cpu_at. rewrite Hw. simpl.
  unfold set_field. by rewrite list_lookup_insert_eq.
Qed.

Lemma cpu_is_set f (Q : unit -> hyp_world -> Prop) w vm i v :
  cpu_is w vm i v -> (forall w', cpu_is w' vm i (f v) -> Q tt w') -> wp (set_cpu i f) Q w.
Proof.
  intros [Hw Hi] HQ. apply wp_set_vm, HQ. split; [|done]. simpl. unfold set_field. rewrite Hw. simpl.
  unfold set_field. simpl. do 2 f_equal. apply list_eq. intros j.
  destruct (decide (j = i)) as [->|Hj].
  - by rewrite list_lookup_alter_eq, !list_lookup_insert_eq.
  - by rewrite list_lookup_alter_ne, !list_lookup_insert_ne by done.
Qed.

Section Cpu.
Context (env : hyp_env) (phys_to_virt : Z -> Z).
(** The fields that the code reads exist. *)
Hypothesis vmread_ok : forall tr e, env tr (Vmread e) = 0.

Lemma cpu_is_vmread f (Q : Z * Z -> hyp_world -> Prop) w vm i v :
  cpu_is w vm i v ->
  (forall w', cpu_is w' vm i v -> Q (0, default 0 (vmcs_fields v !! encoding f)) w') ->
  wp (vmread env i f) Q w.
Proof.
  intros Hw HQ. unfold vmread. hyp_step. hyp_step. rewrite vmread_ok.
  eapply wp_bind, cpu_is_get; [exact Hw|]. apply wp_ret. by apply HQ.
Qed.

(** The first table exists, so the translation is defined for every address. *)
Definition first_page (vm : vm_t) : Prop := exists page, pt vm !! 0%nat = Some page /\ length page = 512%nat.

Lemma guest_to_host_total addr (Q : Z -> hyp_world -> Prop) w vm i v :
  first_page vm -> cpu_is w vm i v -> (forall r, Q r w) -> wp (guest_to_host phys_to_virt addr) Q w.
Proof.
  intros (page & Hp & Hl) [Hw _] HQ. unfold guest_to_host. cbv zeta.
  destruct (_ || _) eqn:E; [by apply wp_ret|]. apply orb_false_iff in E as [_ E].
  apply negb_false_iff, Z.eqb_eq in E. rewrite E. apply wp_bind. unfold get_pte.
  apply wp_bind. eapply wp_get_vm; [exact Hw|]. apply wp_bind.
  eapply wp_get_or; [exact Hp|].
  pose proof (Z.mod_pos_bound (addr / PAGE_SIZE) 512 ltac:(lia)).
  destruct (lookup_lt_is_Some_2 page (Z.to_nat ((addr / PAGE_SIZE) mod 512))) as [e He]; [lia|].
  eapply wp_get_or; [exact He|]. by apply wp_ret.
Qed.

(** The mode of the CPU and the address of its instruction. *)
Definition guest_mode (v : vcpu_t) : Z :=
  let c := default 0 (vmcs_fields v !! encoding GUEST_CR0) in
  if (protection_enable c =? 0) && (paging_enable c =? 0) then MODE_REAL
  else if (protection_enable c =? 1) && (paging_enable c =? 0) then MODE_PROTECTED
  else if (protection_enable c =? 1) && (paging_enable c =? 1) then MODE_PAGING
  else -1.

Definition guest_rip (v : vcpu_t) : Z :=
  let rip := o_rip (st_regs (vc_state v)) in
  if u8 (guest_mode v) =? MODE_REAL
  then Z.lor (u64 (Z.shiftl (default 0 (vmcs_fields v !! encoding GUEST_CS_SELECTOR)) 4)) rip
  else rip.

Lemma get_guest_mode_spec (Q : Z -> hyp_world -> Prop) w vm i v :
  cpu_is w vm i v -> (forall w', cpu_is w' vm i v -> Q (guest_mode v) w') ->
  wp (get_guest_mode env i) Q w.
Proof.
  intros Hw HQ. unfold get_guest_mode. apply wp_bind. eapply cpu_is_vmread; [exact Hw|].
  intros w' Hw'. cbn [fst snd]. simpl (negb _). cbv iota. specialize (HQ w' Hw').
  unfold guest_mode in HQ. cbv zeta in *.
  destruct (_ && _); [by apply wp_ret|]. destruct (_ && _); [by apply wp_ret|].
  destruct (_ && _); by apply wp_ret.
Qed.

Lemma get_guest_rip_spec (Q : Z -> hyp_world -> Prop) w vm i v :
  cpu_is w vm i v -> (forall w', cpu_is w' vm i v -> Q (guest_rip v) w') ->
  wp (get_guest_rip env i) Q w.
Proof.
  intros Hw HQ. unfold get_guest_rip. apply wp_bind. eapply get_guest_mode_spec; [exact Hw|].
  intros w1 Hw1. cbv zeta. apply wp_bind. eapply cpu_is_get; [exact Hw1|].
  unfold guest_rip in HQ. cbv zeta in HQ. destruct (_ =? MODE_REAL); [|by apply wp_ret, HQ].
  apply wp_bind. eapply cpu_is_vmread; [exact Hw1|]. intros w2 Hw2. cbn [fst snd].
  simpl (negb _). cbv iota. by apply wp_ret, HQ.
Qed.
End Cpu.

(** [cpu_step] runs the first instruction of a program on one CPU. *)
Ltac cpu_step :=
  lazymatch goal with
  | |- wp (mbind _ _) _ _ => apply wp_bind
  | |- wp (mret _) _ _ => apply wp_ret
  | |- wp (set_regs _ _) _ _ => unfold set_regs
  | |- wp (update_rip _ _) _ _ => unfold update_rip
  | |- wp (set_state _ _) _ _ => unfold set_state
  | |- wp (Hyper.get_cpu _) _ _ => eapply cpu_is_get; [eassumption|]
  | |- wp (set_cpu _ _) _ _ => eapply cpu_is_set; [eassumption|]; intros ? ?
  | |- wp (vmread _ _ _) _ _ => eapply cpu_is_vmread; [eassumption|eassumption|]; intros ? ?
  | |- wp (get_guest_mode _ _) _ _ => eapply get_guest_mode_spec; [eassumption|eassumption|]; intros ? ?
  | |- wp (get_guest_rip _ _) _ _ => eapply get_guest_rip_spec; [eassumption|eassumption|]; intros ? ?
  | |- wp (guest_to_host _ _) _ _ => eapply guest_to_host_total; [eassumption|eassumption|]; intros ?
  end; cbn [fst snd]; cbv beta.
Ltac cpu_go := repeat cpu_step.
