(* ===== verification/HyperProps.v ===== *)
(** * HyperProps: the correctness of the hyper-o kernel module *)

From S2P Require Import Prelude Effects Hyper Ept Vmcs Vmx.

(** ** Sample machine *)

(** The direct map of the samples is the identity; userspace page [a] is in the
    frame [a / 4096 + 0x100000]. *)
Definition sample_pfn (a : Z) : Z := wrap 36 (a / 4096 + 0x100000).

Definition sample_region : ooo_userspace_memory_region := MemoryRegion 0x3000 0x2000 0x7f0000000000.

Definition quiet_hyp_env : hyp_env := fun _ (c : hyp_call) =>
  match c return hyp_reply c with
  | Vmread _ => 0
  | Vmlaunch r | Vmresume r => (0, r, ∅)
  | Vmptrst => (0, 0)
  | Read_host _ n => replicate n 0
  | Walk _ _ => true
  | Pte_pfn a => sample_pfn a
  | Copy_region _ => Some sample_region
  | Copy_state_from _ => Some ooo_state_zero
  | Kzalloc _ => 0x10000000
  | _ => 0
  end.

Definition sample_vm : vm_t :=
  (vm_zero 0x10000000)
    <| eptp ::= <[0%nat := set_eptp 0x10201]> |> <| pml4 ::= <[0%nat := set_entry 0x10202]> |>
    <| pdpt ::= <[0%nat := set_entry 0x10203]> |>
    <| pd := (fun i : nat => set_entry (0x10204 + i)) <$> seq 0 512 |>.

Definition hyp_start (vm : vm_t) : hyp_world := World (Some vm) [] [].

Lemma sample_vm_ok : ept_ok (fun a => a) sample_vm 0x10000.
Proof.
  constructor; try done.
  - intros i Hi. change (pd sample_vm) with ((fun i : nat => set_entry (0x10204 + i)) <$> seq 0 512).
    rewrite list_lookup_fmap, lookup_seq_lt by done.
    done.
  - by apply Forall_replicate.
Qed.

Lemma sample_user_pages : user_pages quiet_hyp_env (fun a => a) (fun a => a) sample_pfn.
Proof.
  split; [done|]. split; [done|]. split; [|done]. intros a. by apply (wrap_range 36).
Qed.

(** ** Extended page tables *)

(** C14: The map request makes a region of userspace memory the memory of the
    guest: after it the processor translates every guest address of the region
    to the frame of the userspace page at the same offset.  It maps one page
    more than the region has, the one behind it; every other translation of the
    first 256 MiB is unchanged, and the tables stay well formed. *)
Theorem map_request_translates env virt_to_phys phys_to_virt pfn fuel arg r vm P (w : hyp_world) :
  user_pages env virt_to_phys phys_to_virt pfn ->
  env (w_trace w) (Copy_region arg) = Some r ->
  w_st w = Some vm -> ept_ok virt_to_phys vm P ->
  let gpa := mreg_guest_phys_addr r in
  let hva := mreg_userspace_addr r in
  let size := mreg_memory_size r in
  0 <= gpa -> gpa mod PAGE_SIZE = 0 -> 0 <= size -> gpa + size < 2 ^ 28 ->
  0 <= hva -> hva + size < 2 ^ 63 ->
  wp (device_ioctl_pinned env virt_to_phys phys_to_virt 0 fuel OOO_MAP arg)
     (fun res w' => res = 0 /\ exists vm', w_st w' = Some vm' /\ ept_ok virt_to_phys vm' P /\
        forall x, 0 <= x < 2 ^ 28 ->
          let k := x / PAGE_SIZE - gpa / PAGE_SIZE in
          ept_walk virt_to_phys vm' x =
          if decide (0 <= k <= size / PAGE_SIZE)
          then Some (pfn (hva + k * PAGE_SIZE) * PAGE_SIZE + x mod PAGE_SIZE)
          else ept_walk virt_to_phys vm x) w.
Proof.
  intros Hu Hr Hv Hok gpa hva size H1 H2 H3 H4 H5 H6. unfold device_ioctl_pinned.
  apply wp_bind, wp_gets. rewrite Hv. cbv zeta.
  change (Z.ldiff OOO_MAP 0xff =? OOO_MAP) with true. cbv iota.
  hyp_step. hyp_step. rewrite Hr. apply wp_bind.
  eapply wp_mono; [by apply (ept_map_range_spec env virt_to_phys phys_to_virt pfn gpa hva size vm P)|].
  intros ok w' (-> & vm' & Hv' & Hok' & Hw'). apply wp_ret. split; [done|]. exists vm'.
  split; [done|]. split; [done|]. intros x Hx. rewrite (Hw' x Hx). cbv zeta. unfold gpa in *.
  case_decide; case_decide; try lia; done.
Qed.

Lemma map_request_translates_witness :
  wp (device_ioctl_pinned quiet_hyp_env (fun a => a) (fun a => a) 0 0 OOO_MAP 0)
     (fun res w' => res = 0 /\ exists vm', w_st w' = Some vm' /\ ept_ok (fun a => a) vm' 0x10000 /\
        forall x, 0 <= x < 2 ^ 28 ->
          let k := x / PAGE_SIZE - 0x3000 / PAGE_SIZE in
          ept_walk (fun a => a) vm' x =
          if decide (0 <= k <= 0x2000 / PAGE_SIZE)
          then Some (sample_pfn (0x7f0000000000 + k * PAGE_SIZE) * PAGE_SIZE + x mod PAGE_SIZE)
          else ept_walk (fun a => a) sample_vm x) (hyp_start sample_vm).
Proof.
  apply (map_request_translates quiet_hyp_env (fun a => a) (fun a => a) sample_pfn 0 0 sample_region
    sample_vm 0x10000).
  - apply sample_user_pages.
  - done.
  - reflexivity.
  - apply sample_vm_ok.
  - done.
  - done.
  - done.
  - done.
  - done.
  - done.
Defined.

(** Unmapping works in the first two megabytes only: [ept_unmap] removes the
    page at the address modulo 2 MiB, so an address above keeps its translation
    and the page of the first table loses it. *)
Theorem ept_unmap_first_table virt_to_phys gpa vm P (w : hyp_world) :
  w_st w = Some vm -> ept_ok virt_to_phys vm P -> 0 <= gpa < 2 ^ 28 ->
  wp (ept_unmap gpa) (fun _ w' => exists vm', w_st w' = Some vm' /\ ept_ok virt_to_phys vm' P /\
    ept_walk virt_to_phys vm' (gpa mod 0x200000) = None /\
    (gpa < 0x200000 -> ept_walk virt_to_phys vm' gpa = None) /\
    (0x200000 <= gpa -> ept_walk virt_to_phys vm' gpa = ept_walk virt_to_phys vm gpa)) w.
Proof.
  intros Hv Hok Hg. eapply wp_mono; [by apply (ept_unmap_spec virt_to_phys gpa vm P)|].
  intros _ w' (vm' & Hv' & Hok' & Hw'). exists vm'. split; [done|]. split; [done|].
  destruct (first_table_idx gpa Hg) as (Hf & _). unfold first_table in *.
  split; [|split].
  - rewrite Hw' by done. by rewrite decide_True by done.
  - intros Hlt. rewrite Hw' by done. rewrite Z.mod_small by lia. by rewrite decide_True by done.
  - intros Hge. rewrite Hw' by done. rewrite decide_False; [done|]. unfold same_page.
    pose proof (Z.mod_pos_bound gpa 0x200000 ltac:(lia)) as Hb.
    assert (0x200000 / PAGE_SIZE <= gpa / PAGE_SIZE) by (apply Z.div_le_mono; unfold PAGE_SIZE; lia).
    assert (gpa mod 0x200000 / PAGE_SIZE < 0x200000 / PAGE_SIZE)
      by (apply Z.div_lt_upper_bound; unfold PAGE_SIZE; [lia|]; change (4096 * (0x200000 / 4096)) with 0x200000; lia).
    lia.
Qed.

Lemma ept_unmap_first_table_witness :
  wp (ept_unmap 0x600000) (fun _ w' => exists vm', w_st w' = Some vm' /\
    ept_ok (fun a => a) vm' 0x10000 /\
    ept_walk (fun a => a) vm' (0x600000 mod 0x200000) = None /\
    (0x600000 < 0x200000 -> ept_walk (fun a => a) vm' 0x600000 = None) /\
    (0x200000 <= 0x600000 -> ept_walk (fun a => a) vm' 0x600000 = ept_walk (fun a => a) sample_vm 0x600000))
    (hyp_start sample_vm).
Proof.
  apply (ept_unmap_first_table (fun a => a) 0x600000 sample_vm 0x10000).
  - reflexivity.
  - apply sample_vm_ok.
  - done.
Defined.

(** ** Exits of the guest *)


Definition regs_of (v : vcpu_t) : ooo_regs := st_regs (vc_state v).



Section Exits.
Context (env : hyp_env) (phys_to_virt : Z -> Z).
Hypothesis vmread_ok : forall tr e, env tr (Vmread e) = 0.



(** The three cases of RDMSR. *)
Section Rdmsr.
Context (v : vcpu_t).




End Rdmsr.

End Exits.






