(* ===== verification/Stubs.v ===== *)
(** * Stubs: the hypervisor backend on hyper-o (hyper-o/stubs/hypero_stubs.c)

    The second implementation of the interface of inc/vmm.h.  The kernel module
    reports an access without its operands, so the backend fetches the
    instruction out of guest memory, has it decoded by the Capstone library and
    executes it on the registers of the CPU.

    The structures of the monitor that the stubs are compiled with have three
    members more than inc/vmm.h: [hv->guest_mem], [vcpu->cs_handle] and
    [vcpu->last_mode]; they and the state in [vcpu->comm] are kept beside the
    state of the monitor.  Capstone, the driver and guest memory are calls to
    the environment.  The accesses go to a device bus, the record [bus];
    [vmm_bus] is the one of devicebus.c. *)

From S2P Require Import Prelude Effects Hyper Ept Vmcs Vmx.
From S2P Require Import Libc Wire Machine Apic DeviceBus NoIoApic.

(** ** Capstone *)

Definition CS_MODE_16 := 2.
Definition CS_MODE_32 := 4.
Definition CS_MODE_64 := 8.
Definition CS_ERR_OK := 0.

(** The registers that the switch of [get_reg_offset] names, and all others. *)
Inductive x86_reg :=
  | X86_REG_AL | X86_REG_AX | X86_REG_EAX
  | X86_REG_CL | X86_REG_CX | X86_REG_ECX
  | X86_REG_DL | X86_REG_DX | X86_REG_EDX
  | X86_REG_BL | X86_REG_BX | X86_REG_EBX
  | X86_REG_SPL | X86_REG_SP | X86_REG_ESP
  | X86_REG_BPL | X86_REG_BP | X86_REG_EBP
  | X86_REG_SIL | X86_REG_SI | X86_REG_ESI
  | X86_REG_DIL | X86_REG_DI | X86_REG_EDI
  | X86_REG_R8B | X86_REG_R8W | X86_REG_R8D
  | X86_REG_R9B | X86_REG_R9W | X86_REG_R9D
  | X86_REG_R10B | X86_REG_R10W | X86_REG_R10D
  | X86_REG_R11B | X86_REG_R11W | X86_REG_R11D
  | X86_REG_R12B | X86_REG_R12W | X86_REG_R12D
  | X86_REG_R13B | X86_REG_R13W | X86_REG_R13D
  | X86_REG_R14B | X86_REG_R14W | X86_REG_R14D
  | X86_REG_R15B | X86_REG_R15W | X86_REG_R15D
  | X86_REG_other (n : Z).

Inductive x86_op_type := X86_OP_REG | X86_OP_IMM | X86_OP_other.

(** [op_reg] and [op_imm] are members of a union: what they give for an operand
    of another type is up to the library. *)
Record cs_x86_op := X86Op {
  op_type : x86_op_type;
  op_reg : x86_reg;
  op_imm : Z;
  op_size : Z;
}.

(** The first two of the eight operands; no other is read. *)
Record cs_insn := Insn {
  insn_size : Z;
  mnemonic : string;
  operand0 : cs_x86_op;
  operand1 : cs_x86_op;
}.

(** ** State *)

Record stub_cpu := StubCpu {
  sc_comm : option ooo_state_t;
  sc_cs_handle : option Z;       (* the mode of the decoder, NULL when it failed to open *)
  sc_last_mode : Z;
}.
#[export] Instance stub_cpu_eta : Settable stub_cpu := fun c =>
  StubCpu (sc_comm c) (sc_cs_handle c) (sc_last_mode c).

Record stub_state := Stub {
  h_vmm : vmm_state;
  h_cpus : list stub_cpu;
  h_guest_mem : Z;
}.
#[export] Instance stub_state_eta : Settable stub_state := fun s =>
  Stub (h_vmm s) (h_cpus s) (h_guest_mem s).

(** ** External calls *)

Inductive stub_call :=
  | Vmm_call (c : vmm_call)
  | Cs_open (mode : Z)
  | Cs_option_detail (handle : option Z)
  | Cs_option_mode (handle : option Z) (mode : Z)
  | Cs_disasm (handle : option Z) (code : bytes)
  | Cs_free
  | Guest_mmap (fd gpa size : Z)
  | Guest_load (addr : Z) (n : nat)
  | Guest_copy (dst src n : Z)
  | Run_request (fd : Z) (s : ooo_state_t)                (* OOO_RUN *)
  | Unmap_request (fd : Z) (r : ooo_userspace_memory_region).  (* OOO_UNMAP *)

Definition stub_reply (c : stub_call) : Type :=
  match c with
  | Vmm_call c => vmm_reply c
  | Cs_disasm _ _ => option cs_insn        (* the first instruction; None for a count of 0 *)
  | Guest_load _ _ => bytes
  | Run_request _ _ => Z * ooo_state_t     (* the result and the state after the exit *)
  | _ => Z
  end.

Definition stub_iface : iface := Iface stub_call stub_reply vmm_mutex _.
Abbreviation stub_env := (environment stub_iface).
Abbreviation stub_world := (world stub_iface stub_state).
Abbreviation stub_prog := (prog stub_iface stub_state).

Definition sos (env : stub_env) (c : stub_call) : stub_prog (stub_reply c) :=
  sys (I := stub_iface) env c.

(** ** Code of the monitor inside of the backend *)

(** What the code of the monitor sees of the environment after the calls [tr]. *)
Definition vmm_view (env : stub_env) (tr : list stub_call) : vmm_env := fun tr' c =>
  env (tr ++ (Vmm_call <$> tr')) (Vmm_call c).

Definition vmm_part (w : stub_world) : vmm_world := World (I := vmm_iface) (h_vmm (w_st w)) [] (w_held w).
Definition with_vmm (w : stub_world) (v : vmm_world) : stub_world :=
  World (I := stub_iface) ((w_st w) <| h_vmm := w_st v |>) (w_trace w ++ (Vmm_call <$> w_trace v))
    (w_held v).

Definition lift {A} (env : stub_env) (m : vmm_env -> vmm_prog A) : stub_prog A := fun w =>
  match m (vmm_view env (w_trace w)) (vmm_part w) with
  | Ret a v => Ret a (with_vmm w v)
  | Fault f v => Fault f (with_vmm w v)
  end.

(** The device bus: [dbusHandlePioAccess] and [dbusHandleMmioAccess]. *)
Record bus := Bus {
  bus_pio : nat -> Z -> bytes -> Z -> Z -> Z -> stub_prog (Z * bytes);
  bus_mmio : nat -> Z -> bytes -> Z -> Z -> stub_prog (Z * bytes);
}.

Definition vmm_bus (env : stub_env) (stack : bytes) : bus := {|
  bus_pio := fun i port data direction size count =>
    lift env (fun e => dbusHandlePioAccess e stack i port data direction size count);
  bus_mmio := fun i phys_addr data len is_write =>
    lift env (fun e => dbusHandleMmioAccess e stack i phys_addr data len is_write);
|}.

(** ** The registers as words *)

Definition get_reg_offset (cs_reg : x86_reg) : Z :=
  match cs_reg with
  | X86_REG_AL | X86_REG_AX | X86_REG_EAX => 0
  | X86_REG_CL | X86_REG_CX | X86_REG_ECX => 1
  | X86_REG_DL | X86_REG_DX | X86_REG_EDX => 2
  | X86_REG_BL | X86_REG_BX | X86_REG_EBX => 3
  | X86_REG_SPL | X86_REG_SP | X86_REG_ESP => 4
  | X86_REG_BPL | X86_REG_BP | X86_REG_EBP => 5
  | X86_REG_SIL | X86_REG_SI | X86_REG_ESI => 6
  | X86_REG_DIL | X86_REG_DI | X86_REG_EDI => 7
  | X86_REG_R8B | X86_REG_R8W | X86_REG_R8D => 8
  | X86_REG_R9B | X86_REG_R9W | X86_REG_R9D => 9
  | X86_REG_R10B | X86_REG_R10W | X86_REG_R10D => 10
  | X86_REG_R11B | X86_REG_R11W | X86_REG_R11D => 11
  | X86_REG_R12B | X86_REG_R12W | X86_REG_R12D => 12
  | X86_REG_R13B | X86_REG_R13W | X86_REG_R13D => 13
  | X86_REG_R14B | X86_REG_R14W | X86_REG_R14D => 14
  | X86_REG_R15B | X86_REG_R15W | X86_REG_R15D => 15
  | X86_REG_other _ => -1
  end.

Definition get_capstone_mode (ooo_mode : Z) : Z :=
  if ooo_mode =? MODE_REAL then CS_MODE_16
  else if ooo_mode =? MODE_PROTECTED then CS_MODE_32
  else if ooo_mode =? MODE_PAGING then CS_MODE_64
  else -1.

(** [struct ooo_regs] as the array of words that the cast makes of it. *)
Definition oregs_list (r : ooo_regs) : list Z :=
  [o_rax r; o_rcx r; o_rdx r; o_rbx r; o_rsp r; o_rbp r; o_rsi r; o_rdi r;
   o_r8 r; o_r9 r; o_r10 r; o_r11 r; o_r12 r; o_r13 r; o_r14 r; o_r15 r; o_rip r; o_rflags r].
Definition oregs_of (l : list Z) : ooo_regs :=
  let at_ k := default 0 (l !! (k : nat)) in
  ORegs (at_ 0%nat) (at_ 1%nat) (at_ 2%nat) (at_ 3%nat) (at_ 4%nat) (at_ 5%nat) (at_ 6%nat)
    (at_ 7%nat) (at_ 8%nat) (at_ 9%nat) (at_ 10%nat) (at_ 11%nat) (at_ 12%nat) (at_ 13%nat)
    (at_ 14%nat) (at_ 15%nat) (at_ 16%nat) (at_ 17%nat).

(** [((uint64_t * )&state->regs)[k]]; the word before the registers is [fart]. *)
Definition state_word (s : ooo_state_t) (k : Z) : option Z :=
  if k =? -1 then Some (st_fart s) else znth (oregs_list (st_regs s)) k.
Definition set_state_word (s : ooo_state_t) (k v : Z) : ooo_state_t :=
  if k =? -1 then s <| st_fart := v |>
  else s <| st_regs ::= fun r => oregs_of (<[Z.to_nat k := v]> (oregs_list r)) |>.

(** [memcpy] of [n] bytes over a word, and of a word into [data = 0]. *)
Definition put_low (n : Z) (old : Z) (data : bytes) : Z :=
  le_val (blit (le_bytes 8 old) 0 (take (Z.to_nat n) data)).
Definition low_bytes (n : Z) (v : Z) : bytes :=
  blit (replicate 8 0) 0 (take (Z.to_nat n) (le_bytes 8 v)).

Definition sizeof_ooo_state := 768.
Definition GUEST_MAP_SIZE := 0x400000.
Definition EXITCOOODE_SHUTDOWN := 2.
Definition MAP_FAILED := -1.

Section Stubs.
Context (env : stub_env) (sizeof_hv : Z) (B : bus).

Definition get_stub (i : nat) : stub_prog stub_cpu :=
  s ← gets (fun s => s);
  get_or OutOfBounds (h_cpus s !! i).
Definition set_stub (i : nat) (f : stub_cpu -> stub_cpu) : stub_prog unit :=
  modify (fun s => s <| h_cpus ::= alter f i |>).
Definition stub_vcpu (i : nat) : stub_prog vcpu_t :=
  s ← gets (fun s => s);
  get_or NullDeref (vcpu_at (h_vmm s) i).
Definition set_stub_vcpu (i : nat) (f : vcpu_t -> vcpu_t) : stub_prog unit :=
  modify (fun s => s <| h_vmm ::= map_vcpu i f |>).

(** [vcpu->comm]. *)
Definition stub_comm (i : nat) : stub_prog ooo_state_t :=
  c ← get_stub i;
  get_or NullDeref (sc_comm c).
Definition set_stub_comm (i : nat) (f : ooo_state_t -> ooo_state_t) : stub_prog unit :=
  set_stub i (fun c => c <| sc_comm ::= fmap f |>).

(** ** The decoder *)

Definition init_capstone (i : nat) : stub_prog Z :=
  r ← sos env (Cs_open CS_MODE_16);
  if negb (r =? CS_ERR_OK) then set_stub i (fun c => c <| sc_cs_handle := None |>);; mret (-1) else
  set_stub i (fun c => c <| sc_cs_handle := Some CS_MODE_16 |>);;
  _ ← sos env (Cs_option_detail (Some CS_MODE_16));
  mret 0.

Definition reinit_capstone (i : nat) (mode : Z) : stub_prog Z :=
  c ← get_stub i;
  _ ← sos env (Cs_option_mode (sc_cs_handle c) mode);
  set_stub i (fun c => c <| sc_cs_handle ::= fmap (fun _ => mode) |>);;
  mret 0.

Definition update_mode (i : nat) : stub_prog unit :=
  s ← stub_comm i;
  c ← get_stub i;
  if sc_last_mode c =? st_mode s then mret tt else
  let capstone_mode := if st_mode s =? MODE_REAL then CS_MODE_16 else CS_MODE_32 in
  _ ← reinit_capstone i (u8 capstone_mode);
  set_stub i (fun c => c <| sc_last_mode := st_mode s |>).

(** ** Guest memory *)

Definition guest_unmap (hyper_fd gpa map_size : Z) : stub_prog unit :=
  _ ← sos env (Unmap_request hyper_fd (MemoryRegion gpa map_size 0));
  mret tt.

Definition guest_map (hyper_fd gpa map_size : Z) : stub_prog Z :=
  guest_memory ← sos env (Guest_mmap hyper_fd gpa map_size);
  c_assert (negb (guest_memory =? MAP_FAILED));;
  mret guest_memory.

(** [memcpy(instr_bytes, guest_mem + rip_gpa, 16)]: an address outside of the
    mapping of 4 MiB is not the guest's memory. *)
Definition fetch (rip_gpa : Z) : stub_prog bytes :=
  s ← gets (fun s => s);
  if (0 <=? rip_gpa) && (rip_gpa + 16 <=? GUEST_MAP_SIZE)
  then sos env (Guest_load (h_guest_mem s + rip_gpa) 16)
  else fail OutOfBounds.

(** ** Accesses *)

Definition advance_rip (i : nat) (size : Z) : stub_prog unit :=
  set_stub_comm i (fun s => s <| st_regs ::= fun r => r <| o_rip ::= fun x => u64 (x + size) |> |>).

(** When nothing is decoded the instruction pointer is not initialised. *)
Definition debug_step (i : nat) : stub_prog Z :=
  s ← stub_comm i;
  instr_bytes ← fetch (st_rip_gpa s);
  c ← get_stub i;
  _ ← sos env (Cs_option_detail (sc_cs_handle c));
  insn ← sos env (Cs_disasm (sc_cs_handle c) instr_bytes);
  insn ← get_or NullDeref insn;
  advance_rip i (insn_size insn);;
  mret 0.

(** The port of the access: an immediate, or DX. *)
Definition port_of (s : ooo_state_t) (op : cs_x86_op) : Z :=
  match op_type op with
  | X86_OP_IMM => u16 (op_imm op)
  | X86_OP_REG => u16 (o_rdx (st_regs s))
  | X86_OP_other => 0
  end.

Definition starts_with (n : nat) (prefix s : string) : bool :=
  strncmp n (string_bytes s) (string_bytes prefix) =? 0.

Definition handle_pio (i : nat) : stub_prog Z :=
  s ← stub_comm i;
  instr_bytes ← fetch (st_rip_gpa s);
  c ← get_stub i;
  insn ← sos env (Cs_disasm (sc_cs_handle c) instr_bytes);
  match insn with
  | None => mret (-1)
  | Some insn =>
      let direction :=
        if starts_with 3 "out" (mnemonic insn) then IO_DIRECTION_OUT
        else if starts_with 2 "in" (mnemonic insn) then IO_DIRECTION_IN
        else 0 in
      ret ← (if direction =? IO_DIRECTION_OUT then
               let port := port_of s (operand0 insn) in
               let data_op := operand1 insn in
               c_assert (op_size data_op <=? 8);;
               r ← bus_pio B i port (low_bytes (op_size data_op) (o_rax (st_regs s))) direction
                     (op_size data_op) 0;
               mret r.1
             else
               let port := port_of s (operand1 insn) in
               let data_op := operand0 insn in
               c_assert (op_size data_op <=? 8);;
               r ← bus_pio B i port (replicate 8 0) direction (op_size data_op) 0;
               set_stub_comm i (fun s => s <| st_regs ::= fun x =>
                 x <| o_rax ::= fun v => put_low (op_size data_op) v r.2 |> |>);;
               mret r.1);
      advance_rip i (insn_size insn);;
      _ ← sos env Cs_free;
      mret ret
  end.

Definition handle_mmio (i : nat) : stub_prog Z :=
  s ← stub_comm i;
  instr_bytes ← fetch (st_rip_gpa s);
  c ← get_stub i;
  insn ← sos env (Cs_disasm (sc_cs_handle c) instr_bytes);
  match insn with
  | None => mret (-1)
  | Some insn =>
      c_assert (starts_with 3 "mov" (mnemonic insn));;
      ret ← (if mmio_is_write s =? 0 then
               let op := operand0 insn in
               let reg_offset := get_reg_offset (op_reg op) in
               c_assert (op_size op <=? 8);;
               r ← bus_mmio B i (mmio_phys_addr s) (replicate 8 0) (op_size op) (mmio_is_write s);
               s ← stub_comm i;
               old ← get_or OutOfBounds (state_word s reg_offset);
               set_stub_comm i (fun s => set_state_word s reg_offset (put_low (op_size op) old r.2));;
               mret r.1
             else
               let op := operand1 insn in
               let reg_offset := get_reg_offset (op_reg op) in
               c_assert (op_size op <=? 8);;
               v ← get_or OutOfBounds (state_word s reg_offset);
               r ← bus_mmio B i (mmio_phys_addr s) (low_bytes (op_size op) v) (op_size op)
                     (mmio_is_write s);
               mret r.1);
      advance_rip i (insn_size insn);;
      _ ← sos env Cs_free;
      mret ret
  end.

(** ** The interface of inc/vmm.h *)

Definition hvDelMemory (man : Z) : stub_prog unit := mret tt.

Definition hvSetCpuid (i : nat) : stub_prog Z := mret 0.

(** The registers of the monitor's CPU to and from [state->regs]. *)
Definition regs_to_ooo (r : x86_cpu_regs_t) (o : ooo_regs) : ooo_regs :=
  let gpr_at k := default 0 (gpr r !! (k : nat)) in
  o <| o_rax := gpr_at G_EAX |> <| o_rbx := gpr_at G_EBX |> <| o_rcx := gpr_at G_ECX |>
    <| o_rdx := gpr_at G_EDX |> <| o_rsi := gpr_at G_ESI |> <| o_rdi := gpr_at G_EDI |>
    <| o_rsp := gpr_at G_ESP |> <| o_rbp := gpr_at G_EBP |>
    <| o_rflags := eflags r |> <| o_rip := eip r |>.

Definition regs_from_ooo (o : ooo_regs) (r : x86_cpu_regs_t) : x86_cpu_regs_t :=
  r <| gpr ::= fun g =>
         <[G_EBP := o_rbp o]> (<[G_ESP := o_rsp o]> (<[G_EDI := o_rdi o]>
        (<[G_ESI := o_rsi o]> (<[G_EDX := o_rdx o]> (<[G_ECX := o_rcx o]>
        (<[G_EBX := o_rbx o]> (<[G_EAX := o_rax o]> g))))))) |>
    <| eflags := o_rflags o |> <| eip := o_rip o |>.

Definition hvSetVcpuRegisters (i : nat) : stub_prog Z :=
  _ ← stub_comm i;
  v ← stub_vcpu i;
  set_stub_comm i (fun s => s <| st_regs ::= regs_to_ooo (regs v) |>);;
  mret 0.

Definition hvGetVcpuRegisters (i : nat) : stub_prog Z :=
  s ← stub_comm i;
  set_stub_vcpu i (fun v => v <| regs ::= regs_from_ooo (st_regs s) |>);;
  mret 0.

(** The result of [init_capstone] is ignored; all CPUs share the descriptor. *)
Definition hvCreateVcpu (i : nat) : stub_prog Z :=
  _ ← init_capstone i;
  set_stub i (fun c => c <| sc_last_mode := CS_MODE_16 |>);;
  s ← gets (fun s => s);
  mret (fd (g_hv (h_vmm s))).

Definition hvEstablishComm (i : nat) : stub_prog Z :=
  ok ← sos env (Vmm_call (Calloc sizeof_ooo_state));
  if negb ok then mret (-1) else
  set_stub i (fun c => c <| sc_comm := Some ooo_state_zero |>);;
  mret 0.

(** The new structure is zeroed, and [hv->ioapic] stays a null pointer:
    [hv_zero] has [ioapic_p := None]. *)
Definition hvInitHypervisor : stub_prog (option hv_t) :=
  ok ← sos env (Vmm_call (Calloc sizeof_hv));
  if negb ok then mret None else
  dev ← sos env (Vmm_call (Open "/dev/hyper-o"));
  if dev <? 0 then _ ← sos env (Vmm_call (Free_struct sizeof_hv)); mret None else
  guest_mem ← guest_map dev 0 GUEST_MAP_SIZE;
  modify (fun s => s <| h_guest_mem := guest_mem |>);;
  guest_unmap dev 0xA0000 (0xC0000 - 0xA0000);;
  mret (Some (hv_zero <| fd := dev |>)).

Definition set_hv (f : hv_t -> hv_t) : stub_prog unit :=
  modify (fun s => s <| h_vmm ::= fun v => v <| g_hv ::= f |> |>).

Definition hvSetMemory (hva len gpa : Z) (readonly : bool) : stub_prog Z :=
  s ← gets (fun s => s);
  let guest_mem := h_guest_mem s in
  if len =? HOST_SYS_MEM_SIZE then
    set_hv (fun h => h <| sys_mem := guest_mem + GUEST_SYS_MEM_PADDR |>);; mret 0
  else if len =? HOST_FW_SIZE then
    set_hv (fun h => h <| fw := guest_mem + GUEST_FW_PADDR |>);; mret 0
  else if len =? HOST_BIOS_SIZE then
    _ ← sos env (Guest_copy (guest_mem + GUEST_BIOS_PADDR + 0x3c000) (hva + 0x3c000) 0x4000);
    set_hv (fun h => h <| bios_rom := guest_mem + GUEST_BIOS_PADDR |>);; mret 0
  else mret (-1).

(** ** The run loop *)

(** The [switch] on the result of the run request. *)
Definition stub_exit (i : nat) (run_ret : Z) : stub_prog Z :=
  if run_ret =? EXITCOOODE_HLT then
    set_stub_vcpu i (fun v => v <| state := STATE_HALTED |>);;
    mret VM_SHUTDOWN
  else if run_ret =? EXITCOOODE_SHUTDOWN then mret VM_SHUTDOWN
  else if run_ret =? EXITCOOODE_IO then handle_pio i
  else if run_ret =? EXITCOOODE_EPT_VIOLATION then handle_mmio i
  else if run_ret =? EXITCOOODE_TRAP_FLAG then debug_step i
  else mret VM_UNHANDLED_EXIT.

Definition stub_round (i : nat) : stub_prog Z :=
  v ← stub_vcpu i;
  s ← stub_comm i;
  r ← sos env (Run_request (driver_fd v) s);
  set_stub_comm i (fun _ => r.2);;
  update_mode i;;
  stub_exit i r.1.

Definition hvRunVcpu (fuel : nat) (i : nat) : stub_prog Z :=
  _ ← stub_comm i;
  set_stub_comm i (fun s => s <| st_regs ::= fun r => r <| o_rsp := 0 |> <| o_rip := 0xfff0 |> |>);;
  set_stub_vcpu i (fun v => v <| dirty := false |>);;
  loop fuel (fun _ : unit =>
    ret ← stub_round i;
    mret (if ret =? 0 then inl tt else inr tt)) tt;;
  mret 0.
End Stubs.

(** ** Rules for the operations of the backend *)

Implicit Types (env : stub_env) (w : stub_world).

Lemma wp_sos env c (Q : stub_reply c -> stub_world -> Prop) w :
  Q (env (w_trace w) c) (w <| w_trace := w_trace w ++ [c : call stub_iface] |>) ->
  wp (sos env c) Q w.
Proof. done. Qed.

Lemma wp_get_stub i c (Q : stub_cpu -> stub_world -> Prop) w :
  h_cpus (w_st w) !! i = Some c -> Q c w -> wp (get_stub i) Q w.
Proof. intros Hc HQ. unfold get_stub. wp_go. by eapply wp_get_or. Qed.

Lemma wp_set_stub i f (Q : unit -> stub_world -> Prop) w :
  Q tt (w <| w_st ::= fun s => s <| h_cpus ::= alter f i |> |>) -> wp (set_stub i f) Q w.
Proof. done. Qed.

Lemma wp_stub_comm i c s (Q : ooo_state_t -> stub_world -> Prop) w :
  h_cpus (w_st w) !! i = Some c -> sc_comm c = Some s -> Q s w -> wp (stub_comm i) Q w.
Proof.
  intros Hc Hs HQ. apply wp_bind. eapply wp_get_stub; [exact Hc|]. by eapply wp_get_or.
Qed.

Lemma wp_stub_vcpu i v (Q : vcpu_t -> stub_world -> Prop) w :
  vcpu_at (h_vmm (w_st w)) i = Some v -> Q v w -> wp (stub_vcpu i) Q w.
Proof. intros Hv HQ. unfold stub_vcpu. wp_go. by eapply wp_get_or. Qed.

Lemma wp_set_stub_vcpu i f (Q : unit -> stub_world -> Prop) w :
  Q tt (w <| w_st ::= fun s => s <| h_vmm ::= map_vcpu i f |> |>) -> wp (set_stub_vcpu i f) Q w.
Proof. done. Qed.

Lemma wp_fetch env rip_gpa (Q : bytes -> stub_world -> Prop) w :
  0 <= rip_gpa <= GUEST_MAP_SIZE - 16 ->
  (let c := Guest_load (h_guest_mem (w_st w) + rip_gpa) 16 in
   Q (env (w_trace w) c) (w <| w_trace := w_trace w ++ [c : call stub_iface] |>)) ->
  wp (fetch env rip_gpa) Q w.
Proof.
  intros Hr HQ. unfold fetch. apply wp_bind, wp_gets.
  replace (_ && _) with true; [by apply wp_sos|].
  symmetry. apply andb_true_intro. split; apply Z.leb_le; lia.
Qed.

(** Code of the monitor runs in the backend as it runs in the monitor. *)
Lemma wp_lift {A} env (m : vmm_env -> vmm_prog A) (Q : A -> stub_world -> Prop) w :
  wp (m (vmm_view env (w_trace w))) (fun a v => Q a (with_vmm w v)) (vmm_part w) ->
  wp (lift env m) Q w.
Proof. unfold wp, lift. by destruct (m _ _). Qed.

Ltac stub_step :=
  first
    [ wp_step
    | lazymatch goal with
      | |- wp (sos ?e ?c) ?Q ?w => refine (wp_sos e c Q w _)
      | |- wp (set_stub _ _) _ _ => apply wp_set_stub
      | |- wp (set_stub_vcpu _ _) _ _ => apply wp_set_stub_vcpu
      end; cbv beta ].
Ltac stub_go := repeat stub_step.

(** ** What the backend relies on *)

(** CPU [i] of a monitor that holds no mutex and is well formed but for the I/O
    APIC, which [hvInitHypervisor] does not allocate. *)
Definition stub_ok (i : nat) (w : stub_world) : Prop :=
  bare_machine (h_vmm (w_st w)) /\ w_held w = [] /\ i < g_nvcpus (h_vmm (w_st w)).

Lemma stub_ok_vcpu i w : stub_ok i w -> is_Some (vcpu_at (h_vmm (w_st w)) i).
Proof. intros ([_ (a & _ & _ & Hcr)] & _ & Hi). by apply (Hcr i). Qed.

(** An access changes the state of the monitor only. *)
Definition access_done (i : nat) (w : stub_world) (r : Z * bytes) (w' : stub_world) : Prop :=
  stub_ok i w' /\ h_cpus (w_st w') = h_cpus (w_st w) /\
  h_guest_mem (w_st w') = h_guest_mem (w_st w) /\ (r.1 = 0 \/ r.1 = -1) /\ length r.2 = 8%nat.

Class BusLaws (B : bus) := {
  pio_law : forall i port data direction size count w, stub_ok i w -> length data = 8%nat ->
    wp (bus_pio B i port data direction size count) (access_done i w) w;
  mmio_law : forall i phys_addr data len is_write w, stub_ok i w -> length data = 8%nat ->
    redtblAccess phys_addr = false ->
    wp (bus_mmio B i phys_addr data len is_write) (access_done i w) w;
}.

(** The device bus of devicebus.c keeps these promises. *)
Section VmmBus.
Context (env : stub_env) (stack : bytes).
Hypothesis in_parent : forall tr, env tr (Vmm_call Fork) <> 0.

Lemma access_lift i (m : vmm_env -> vmm_prog (Z * bytes)) (data : bytes) w :
  stub_ok i w -> length data = 8%nat ->
  (forall (e : vmm_env) v, (forall tr, e tr Fork <> 0) -> vcpu_at (h_vmm (w_st w)) i = Some v ->
     wp (m e) (bare_ok data (vmm_part w)) (vmm_part w)) ->
  wp (lift env m) (access_done i w) w.
Proof.
  intros Hok Hd Hm. destruct (stub_ok_vcpu i w Hok) as [v Hv]. destruct Hok as (_ & Hh & Hi).
  apply wp_lift. eapply wp_mono; [eapply (Hm _ v); [|done]|].
  - intros tr. apply in_parent.
  - intros r u (H1 & H2 & H3 & H4 & H6). rewrite Hd in H4.
    split; [split; [done|split; [done|]]|done]. simpl. by rewrite H6.
Qed.

Lemma vmm_bus_laws : BusLaws (vmm_bus env stack).
Proof.
  constructor; intros; (eapply access_lift; [done|done|]); intros e v Hf Hv.
  - eapply bare_pio; [apply H|apply H|exact Hv|done|lia].
  - eapply bare_mmio; [apply H|apply H|exact Hv|done|lia|done].
Qed.
End VmmBus.

(** ** The invariant of the run loop *)

(** CPU [i] has its state [s]. *)
Definition comm_at (i : nat) (w : stub_world) (c : stub_cpu) (s : ooo_state_t) : Prop :=
  h_cpus (w_st w) !! i = Some c /\ sc_comm c = Some s.

Definition stub_inv (i : nat) (w : stub_world) : Prop :=
  stub_ok i w /\ exists c s, comm_at i w c s.

Lemma comm_at_set i w c s f :
  comm_at i w c s ->
  comm_at i (w <| w_st ::= fun x => x <| h_cpus ::= alter (fun c => c <| sc_comm ::= fmap f |>) i |> |>)
    (c <| sc_comm := Some (f s) |>) (f s).
Proof.
  intros [Hc Hs]. split; [|done]. simpl. unfold set_field. rewrite list_lookup_alter_eq, Hc. simpl.
  do 2 f_equal. destruct c; simpl in *. by subst.
Qed.

Lemma access_done_comm i w r w' c s :
  access_done i w r w' -> comm_at i w c s -> comm_at i w' c s.
Proof. intros (_ & Hc & _) [H1 H2]. split; [by rewrite Hc|done]. Qed.

Lemma stub_inv_intro i w c s : stub_ok i w -> comm_at i w c s -> stub_inv i w.
Proof. intros. split; [done|]. by exists c, s. Qed.

Lemma length_low_bytes n v : length (low_bytes n v) = 8%nat.
Proof.
  unfold low_bytes. rewrite length_blit; [done|].
  rewrite length_take, length_replicate, length_le_bytes. lia.
Qed.

Lemma get_reg_offset_range r : -1 <= get_reg_offset r <= 15.
Proof. destruct r; simpl; lia. Qed.

Lemma state_word_Some s k : -1 <= k <= 15 -> is_Some (state_word s k).
Proof.
  intros Hk. unfold state_word. destruct (k =? -1) eqn:E; [done|]. apply Z.eqb_neq in E.
  apply znth_is_Some. simpl. lia.
Qed.

(** An assertion of the program may end it. *)
Definition aborts (f : fault) : bool :=
  match f with OutOfFuel | AssertFailed => true | _ => false end.

Lemma upto_assert {A} (b : bool) (k : unit -> stub_prog A) Q w :
  (b = true -> upto aborts (k tt) Q w) -> upto aborts (c_assert b ≫= k) Q w.
Proof. intros H. apply upto_bind. destruct b; [by apply wp_upto, wp_ret, H|done]. Qed.

(** Changes to a CPU of the monitor that keep its number, local APIC and APIC
    base. *)
Definition benign_stub (f : vcpu_t -> vcpu_t) : Prop := forall v,
  id (f v) = id v /\ isr (f v) = isr v /\ regs (f v) = regs v /\
  (state (f v) = state v \/ state (f v) = STATE_HALTED).

(** What [update_mode] does to the decoder of a CPU in mode [m]. *)
Definition cs_mode_for (m : Z) : Z := if m =? MODE_REAL then CS_MODE_16 else CS_MODE_32.
Definition mode_update (m : Z) (c : stub_cpu) : stub_cpu :=
  if sc_last_mode c =? m then c
  else c <| sc_cs_handle ::= fmap (fun _ => cs_mode_for m) |> <| sc_last_mode := m |>.

(** The worlds differ in the trace and in the stub data of CPU [i] only. *)
Definition cpu_step (i : nat) (f : stub_cpu -> stub_cpu) (w w' : stub_world) : Prop :=
  w_st w' = (w_st w) <| h_cpus ::= alter f i |> /\ w_held w' = w_held w.

Lemma alter_eq_at {A} (f g : A -> A) i (l : list A) x :
  l !! i = Some x -> f x = g x -> alter f i l = alter g i l.
Proof.
  intros Hx Hfg. apply list_eq. intros j. destruct (decide (i = j)) as [->|Hij].
  - by rewrite !list_lookup_alter_eq, Hx; simpl; rewrite Hfg.
  - by rewrite !list_lookup_alter_ne.
Qed.

Lemma update_mode_spec env i c s w :
  comm_at i w c s ->
  wp (update_mode env i) (fun _ w' => cpu_step i (mode_update (st_mode s)) w w') w.
Proof.
  intros [Hc Hs]. unfold update_mode. apply wp_bind. eapply wp_stub_comm; [exact Hc|exact Hs|].
  apply wp_bind. eapply wp_get_stub; [exact Hc|].
  destruct (sc_last_mode c =? st_mode s) eqn:E.
  - apply wp_ret. split; [|done]. destruct w as [[v l g] tr h]; simpl in *. unfold set_field; simpl.
    f_equal. rewrite <-(list_alter_id (fun c => c) l i) at 1 by done.
    eapply alter_eq_at; [exact Hc|]. unfold mode_update. by rewrite E.
  - apply wp_bind. unfold reinit_capstone. apply wp_bind. eapply wp_get_stub; [exact Hc|].
    apply wp_bind, wp_sos. apply wp_bind, wp_set_stub, wp_ret, wp_set_stub.
    split; [|done]. destruct w as [[v l g] tr h]; simpl in *. unfold set_field; simpl. f_equal.
    rewrite list_alter_alter_eq. eapply alter_eq_at; [exact Hc|].
    unfold mode_update. rewrite E. destruct c as [cm hd lm]. unfold compose, set_field; simpl.
    unfold cs_mode_for. by destruct (st_mode s =? MODE_REAL).
Qed.

Section Running.
Context (env : stub_env) (B : bus) {laws : BusLaws B} (i : nat).

(** What follows every access: the instruction pointer moves on. *)
Lemma access_end c s size (ret : Z) w :
  stub_ok i w -> comm_at i w c s ->
  wp (advance_rip i size;; _ ← sos env Cs_free; mret ret) (fun r w' => stub_inv i w' /\ r = ret) w.
Proof.
  intros Hok Hc. apply wp_bind, wp_set_stub. apply wp_bind, wp_sos, wp_ret. split; [|done].
  eapply stub_inv_intro; [exact Hok|]. exact (comm_at_set _ _ _ _ _ Hc).
Qed.

(** One access on the bus, and what the caller does with its answer. *)
Lemma pio_then {A} port data direction size count (k : Z * bytes -> stub_prog A) Q c s w :
  stub_ok i w -> comm_at i w c s -> length data = 8%nat ->
  (forall r w', stub_ok i w' -> comm_at i w' c s -> upto aborts (k r) Q w') ->
  upto aborts (bus_pio B i port data direction size count ≫= k) Q w.
Proof.
  intros Hok Hc Hd Hk. apply upto_bind, wp_upto. eapply wp_mono; [by apply pio_law|].
  intros r w' Ha. apply Hk; [apply Ha|]. by eapply access_done_comm.
Qed.

Lemma mmio_then {A} phys_addr data len is_write (k : Z * bytes -> stub_prog A) Q c s w :
  stub_ok i w -> comm_at i w c s -> length data = 8%nat -> redtblAccess phys_addr = false ->
  (forall r w', stub_ok i w' -> comm_at i w' c s -> upto aborts (k r) Q w') ->
  upto aborts (bus_mmio B i phys_addr data len is_write ≫= k) Q w.
Proof.
  intros Hok Hc Hd Ht Hk. apply upto_bind, wp_upto. eapply wp_mono; [by apply mmio_law|].
  intros r w' Ha. apply Hk; [apply Ha|]. by eapply access_done_comm.
Qed.

(** The beginning of both handlers: the instruction is fetched and decoded. *)
Lemma decode_then {A} c s (k : option cs_insn -> stub_prog A) Q w :
  stub_ok i w -> comm_at i w c s -> 0 <= st_rip_gpa s <= GUEST_MAP_SIZE - 16 ->
  (forall o w', stub_ok i w' -> comm_at i w' c s -> upto aborts (k o) Q w') ->
  upto aborts (instr_bytes ← fetch env (st_rip_gpa s); c ← get_stub i;
               insn ← sos env (Cs_disasm (sc_cs_handle c) instr_bytes); k insn) Q w.
Proof.
  intros Hok Hc Hr Hk. apply upto_bind, wp_upto, wp_fetch; [done|]. cbv zeta.
  apply upto_bind, wp_upto. eapply wp_get_stub; [apply Hc|].
  apply upto_bind, wp_upto, wp_sos. by apply Hk.
Qed.

Lemma handle_pio_safe c s w :
  stub_ok i w -> comm_at i w c s -> 0 <= st_rip_gpa s <= GUEST_MAP_SIZE - 16 ->
  upto aborts (handle_pio env B i) (fun _ w' => stub_inv i w') w.
Proof.
  intros Hok Hc Hr. unfold handle_pio. apply upto_bind, wp_upto.
  eapply wp_stub_comm; [apply Hc|apply Hc|]. eapply decode_then; [exact Hok|exact Hc|done|].
  intros [insn|] w1 Hok1 Hc1; [|apply wp_upto, wp_ret; by eapply stub_inv_intro].
  cbv zeta. set (direction := if starts_with 3 _ _ then _ else _).
  apply upto_bind. destruct (direction =? IO_DIRECTION_OUT); apply upto_assert; intros _.
  - eapply pio_then; [exact Hok1|exact Hc1|apply length_low_bytes|]. intros r w2 Hok2 Hc2.
    apply wp_upto, wp_ret, wp_upto. eapply wp_mono; [by eapply access_end|]. by intros ? ? [? _].
  - eapply pio_then; [exact Hok1|exact Hc1|done|]. intros r w2 Hok2 Hc2.
    apply upto_bind, wp_upto, wp_set_stub, wp_upto, wp_ret, wp_upto.
    eapply wp_mono; [eapply access_end|by intros ? ? [? _]]; [done|].
    exact (comm_at_set _ _ _ _ _ Hc2).
Qed.

Lemma handle_mmio_safe c s w :
  stub_ok i w -> comm_at i w c s -> 0 <= st_rip_gpa s <= GUEST_MAP_SIZE - 16 ->
  redtblAccess (mmio_phys_addr s) = false ->
  upto aborts (handle_mmio env B i) (fun _ w' => stub_inv i w') w.
Proof.
  intros Hok Hc Hr Ht. unfold handle_mmio. apply upto_bind, wp_upto.
  eapply wp_stub_comm; [apply Hc|apply Hc|]. eapply decode_then; [exact Hok|exact Hc|done|].
  intros [insn|] w1 Hok1 Hc1; [|apply wp_upto, wp_ret; by eapply stub_inv_intro].
  apply upto_assert. intros _. cbv zeta. apply upto_bind.
  destruct (mmio_is_write s =? 0); apply upto_assert; intros _.
  - eapply mmio_then; [exact Hok1|exact Hc1|done|exact Ht|]. intros r w2 Hok2 Hc2.
    apply upto_bind, wp_upto. eapply wp_stub_comm; [apply Hc2|apply Hc2|].
    destruct (state_word_Some s _ (get_reg_offset_range (op_reg (operand0 insn)))) as [v Hv].
    apply upto_bind, wp_upto. eapply wp_get_or; [exact Hv|].
    apply upto_bind, wp_upto, wp_set_stub, wp_upto, wp_ret, wp_upto.
    eapply wp_mono; [eapply access_end|by intros ? ? [? _]]; [done|].
    exact (comm_at_set _ _ _ _ _ Hc2).
  - destruct (state_word_Some s _ (get_reg_offset_range (op_reg (operand1 insn)))) as [v Hv].
    apply upto_bind, wp_upto. eapply wp_get_or; [exact Hv|].
    eapply mmio_then; [exact Hok1|exact Hc1|apply length_low_bytes|exact Ht|]. intros r w2 Hok2 Hc2.
    apply wp_upto, wp_ret, wp_upto. eapply wp_mono; [by eapply access_end|]. by intros ? ? [? _].
Qed.

(** The memory map: the guest executes below 4 MiB, and is not single-stepped. *)
Hypothesis rip_mapped : forall tr fd s,
  0 <= st_rip_gpa (env tr (Run_request fd s)).2 <= GUEST_MAP_SIZE - 16.
Hypothesis no_trap : forall tr fd s, (env tr (Run_request fd s)).1 <> EXITCOOODE_TRAP_FLAG.

(** The guest leaves the redirection table of the I/O APIC alone. *)
Hypothesis no_table : forall tr fd s,
  let r := env tr (Run_request fd s) in
  r.1 = EXITCOOODE_EPT_VIOLATION -> redtblAccess (mmio_phys_addr r.2) = false.

Lemma stub_ok_map_vcpu f w :
  benign_stub f -> stub_ok i w ->
  stub_ok i (w <| w_st ::= fun x => x <| h_vmm ::= map_vcpu i f |> |>).
Proof.
  intros Hf ((Hnull & a & H1 & H2 & H3) & Hh & Hn). split; [|done]. split; [done|].
  exists a. change (wf_machine (map_vcpu i f (plug a (h_vmm (w_st w))))).
  split; [|split]; [|done|].
  - apply wf_map_vcpu; [|done]. intros v [? ? ? ? ?]. destruct (Hf v) as (E1 & E2 & E3 & E4).
    constructor; rewrite ?E1, ?E2, ?E3; auto. destruct E4 as [->| ->]; auto.
  - by apply all_created_map_vcpu.
Qed.

Lemma stub_exit_safe c s run_ret w :
  stub_ok i w -> comm_at i w c s -> 0 <= st_rip_gpa s <= GUEST_MAP_SIZE - 16 ->
  run_ret <> EXITCOOODE_TRAP_FLAG ->
  (run_ret = EXITCOOODE_EPT_VIOLATION -> redtblAccess (mmio_phys_addr s) = false) ->
  upto aborts (stub_exit env B i run_ret) (fun _ w' => stub_inv i w') w.
Proof.
  intros Hok Hc Hr Ht Hno. unfold stub_exit.
  destruct (run_ret =? EXITCOOODE_HLT).
  { apply upto_bind, wp_upto, wp_set_stub_vcpu, wp_upto, wp_ret.
    eapply stub_inv_intro; [|exact Hc]. apply stub_ok_map_vcpu; [|done].
    intros v. simpl. auto. }
  destruct (run_ret =? EXITCOOODE_SHUTDOWN); [apply wp_upto, wp_ret; by eapply stub_inv_intro|].
  destruct (run_ret =? EXITCOOODE_IO); [by eapply handle_pio_safe|].
  destruct (run_ret =? EXITCOOODE_EPT_VIOLATION) eqn:Hept.
  { eapply handle_mmio_safe; [done|exact Hc|done|]. apply Hno. by apply Z.eqb_eq. }
  rewrite (proj2 (Z.eqb_neq _ _) Ht). apply wp_upto, wp_ret. by eapply stub_inv_intro.
Qed.

Lemma stub_round_safe w :
  stub_inv i w -> upto aborts (stub_round env B i) (fun _ w' => stub_inv i w') w.
Proof.
  intros (Hok & c & s & Hc). destruct (stub_ok_vcpu i w Hok) as [v Hv]. unfold stub_round.
  apply upto_bind, wp_upto. eapply wp_stub_vcpu; [exact Hv|].
  apply upto_bind, wp_upto. eapply wp_stub_comm; [apply Hc|apply Hc|].
  apply upto_bind, wp_upto. stub_step. apply upto_bind, wp_upto, wp_set_stub.
  pose proof (rip_mapped (w_trace w) (driver_fd v) s) as Hr.
  pose proof (no_trap (w_trace w) (driver_fd v) s) as Ht.
  pose proof (no_table (w_trace w) (driver_fd v) s) as Hno. cbv zeta in Hno.
  set (r := env (w_trace w) _) in *. set (w1 := _ <| w_st ::= _ |>).
  assert (comm_at i w1 (c <| sc_comm := Some r.2 |>) r.2) as Hc1
    by (apply (comm_at_set i _ c s (fun _ => r.2)); exact Hc).
  apply upto_bind, wp_upto. eapply wp_mono; [exact (update_mode_spec env i _ _ w1 Hc1)|].
  intros _ w2 [Hst2 Hh2].
  eapply (stub_exit_safe (mode_update (st_mode r.2) (c <| sc_comm := Some r.2 |>)) r.2); try done.
  - destruct Hok as (Hm & Hheld & Hlt). unfold stub_ok. rewrite Hst2, Hh2. done.
  - destruct Hc1 as [Hc1 _]. split.
    + rewrite Hst2. etransitivity; [apply list_lookup_alter_eq|]. exact (f_equal (fmap _) Hc1).
    + unfold mode_update. by destruct (_ =? _).
Qed.

Lemma stub_run_safe fuel w :
  stub_inv i w ->
  upto aborts (hvRunVcpu env B fuel i) (fun r w' => stub_inv i w' /\ r = 0) w.
Proof.
  intros (Hok & c & s & Hc). unfold hvRunVcpu.
  apply upto_bind, wp_upto. eapply wp_stub_comm; [apply Hc|apply Hc|].
  apply upto_bind, wp_upto, wp_set_stub. apply upto_bind, wp_upto, wp_set_stub_vcpu.
  apply upto_bind. eapply (upto_loop _ (fun _ w' => stub_inv i w')); [done| |].
  - intros [] w1 Hinv. apply upto_bind. eapply upto_mono; [by apply stub_round_safe|].
    intros r w2 Hinv2. apply wp_upto, wp_ret. destruct (r =? 0); [done|].
    apply wp_upto, wp_ret. done.
  - eapply stub_inv_intro; [apply stub_ok_map_vcpu; [|exact Hok]|].
    + intros v. simpl. auto.
    + exact (comm_at_set _ _ _ _ _ Hc).
Qed.
End Running.

(** ** Words of the register file *)

Lemma oregs_list_of l : length l = 18%nat -> oregs_list (oregs_of l) = l.
Proof. intros Hl. do 18 (destruct l as [|? l]; [done|]). by destruct l. Qed.

Lemma state_word_set s k v j :
  -1 <= k <= 15 -> -1 <= j <= 15 ->
  state_word (set_state_word s k v) j = if decide (j = k) then Some v else state_word s j.
Proof.
  intros Hk Hj. unfold state_word, set_state_word.
  destruct (k =? -1) eqn:Ek; [apply Z.eqb_eq in Ek as ->|apply Z.eqb_neq in Ek].
  - destruct (j =? -1) eqn:Ej; [apply Z.eqb_eq in Ej as ->; by rewrite decide_True|].
    apply Z.eqb_neq in Ej. by rewrite decide_False.
  - destruct (j =? -1) eqn:Ej; [apply Z.eqb_eq in Ej as ->; by rewrite decide_False by lia|].
    apply Z.eqb_neq in Ej. simpl. unfold set_field.
    rewrite oregs_list_of by (by rewrite length_insert).
    unfold znth. replace (j <? 0) with false by (symmetry; apply Z.ltb_ge; lia).
    case_decide as E.
    + subst. apply list_lookup_insert_eq. simpl. lia.
    + apply list_lookup_insert_ne. lia.
Qed.

(** Moving the instruction pointer changes no general register. *)
Lemma state_word_rip s f j :
  -1 <= j <= 15 -> state_word (s <| st_regs ::= fun r => r <| o_rip ::= f |> |>) j = state_word s j.
Proof.
  intros Hj. unfold state_word, znth. destruct (j =? -1) eqn:E; [done|]. apply Z.eqb_neq in E.
  replace (j <? 0) with false by (symmetry; apply Z.ltb_ge; lia).
  assert (Z.to_nat j < 16)%nat as Hn by lia. clear E Hj.
  destruct s as [? ? ? ? ? ? ? ? ? [] ?]. unfold set_field; simpl.
  revert Hn. generalize (Z.to_nat j). intros n Hn. do 16 (destruct n as [|n]; [done|]). lia.
Qed.

(** The low bytes come from the data, the others stay. *)
Lemma put_low_bytes n old data :
  0 <= n <= 8 -> length data = 8%nat ->
  put_low n old data = le_val (take (Z.to_nat n) data ++ drop (Z.to_nat n) (le_bytes 8 old)).
Proof.
  intros Hn Hd. unfold put_low, blit. rewrite take_0, length_take, Hd, Nat.min_l by lia. done.
Qed.

Lemma low_bytes_pad n v :
  0 <= n <= 8 ->
  low_bytes n v = take (Z.to_nat n) (le_bytes 8 v) ++ replicate (8 - Z.to_nat n) 0.
Proof.
  intros Hn. unfold low_bytes, blit.
  rewrite take_0, length_take, length_le_bytes, drop_replicate, Nat.min_l by lia. done.
Qed.

Lemma set_state_word_rip s k v :
  -1 <= k <= 15 -> o_rip (st_regs (set_state_word s k v)) = o_rip (st_regs s).
Proof.
  intros Hk. unfold set_state_word. destruct (k =? -1); [done|]. simpl. unfold set_field.
  change (default 0 (<[Z.to_nat k:=v]> (oregs_list (st_regs s)) !! 16%nat) = o_rip (st_regs s)).
  by rewrite list_lookup_insert_ne by lia.
Qed.
