(* ===== verification/StubProps.v ===== *)
(** * StubProps: the correctness of the hyper-o backend *)

From S2P Require Import Prelude Effects Hyper Ept Vmcs Vmx.
From S2P Require Import Libc Wire Machine Apic Samples DeviceBus NoIoApic Stubs.

Implicit Types (env : stub_env) (w : stub_world).

(** ** Sample machine *)

Definition stub_device : device_node_t :=
  DeviceNode (Some "vga"%string) (replicate NR_MAX_VCPUS 10) 100
    [IoportRange 0x3b0 16] [MmioRange 0xa0000 0x20000].

(** There is no I/O APIC. *)
Definition stub_vmm : vmm_state :=
  unplug ((sample_state 1 0) <| g_devicelist := Some [stub_device] |>).

Lemma stub_vmm_wf : bare_machine stub_vmm.
Proof.
  split; [done|].
  exists (ioapic_zero <| irq_redir_table ::= <[9%nat := 0x10029]> |>).
  unfold stub_vmm. rewrite plug_unplug by done. split; [|split].
  - apply wf_vmm_devices, sample_wf; lia.
  - exists [stub_device]. split; [done|].
    apply (bool_decide_unpack (Forall device_ok [stub_device])). by vm_compute.
  - apply (sample_created 1 0).
Qed.

(** A guest in real mode that loads from video memory into CX, then halts. *)
Definition sample_ooo : ooo_state_t :=
  set_mmio (ooo_state_zero <| st_rip_gpa := 0xffff0 |>
              <| st_regs ::= fun r => r <| o_rcx := 0x11223344 |> |>) 0xa0010 0.

Definition sample_mov : cs_insn :=
  Insn 3 "mov" (X86Op X86_OP_REG X86_REG_CX 0 2) (X86Op X86_OP_other (X86_REG_other 0) 0 2).

Definition sample_in : cs_insn :=
  Insn 1 "in" (X86Op X86_OP_REG X86_REG_AX 0 2) (X86Op X86_OP_REG X86_REG_DX 0 2).

Definition has_run (tr : list stub_call) : bool :=
  existsb (fun c => match c with Run_request _ _ => true | _ => false end) tr.

Definition stub_sample_env : stub_env := fun tr (c : stub_call) =>
  match c return stub_reply c with
  | Vmm_call c => quiet_env [] c
  | Cs_disasm _ _ => Some sample_mov
  | Guest_load _ n => replicate n 0
  | Run_request _ _ =>
      (if has_run tr then EXITCOOODE_HLT else EXITCOOODE_EPT_VIOLATION, sample_ooo)
  | _ => 0
  end.

Definition stub_start : stub_world :=
  World (I := stub_iface) (Stub stub_vmm [StubCpu (Some sample_ooo) (Some CS_MODE_16) MODE_REAL] 0x7f0000000000)
    [] [].

Lemma stub_start_ok : stub_ok 0 stub_start.
Proof. split; [exact stub_vmm_wf|]. split; [done|]. simpl. lia. Qed.

Lemma stub_start_comm :
  comm_at 0 stub_start (StubCpu (Some sample_ooo) (Some CS_MODE_16) MODE_REAL) sample_ooo.
Proof. done. Qed.

(** ** The run loop *)

(** The structure that the backend allocates has no I/O APIC. *)
Lemma hypero_init_bare env sizeof_hv w :
  upto aborts (hvInitHypervisor env sizeof_hv) (fun r _ => forall h, r = Some h -> ioapic_p h = None) w.
Proof.
  unfold hvInitHypervisor, guest_map, guest_unmap.
  apply upto_bind, wp_upto. stub_step. destruct (negb _); [by apply wp_upto, wp_ret|].
  apply upto_bind, wp_upto. stub_step. destruct (_ <? 0); [by apply wp_upto; stub_go|].
  apply upto_bind, upto_bind, wp_upto. stub_step. apply upto_assert. intros _.
  apply wp_upto, wp_ret, wp_upto. stub_go. intros h Hh. by simplify_eq.
Qed.

(** C16: Every finite run of a CPU on the hyper-o backend, on the device bus of
    the monitor and without an I/O APIC, as this backend leaves the machine:
    as long as the guest executes below 4 MiB and does not access the
    redirection table of the I/O APIC, whatever else it does, and whatever the
    decoder, the devices and the system calls answer, the backend reads and
    writes only its own state, the registers and the fetched instruction, keeps
    the machine well formed and leaves no mutex locked. It stops early at most
    in one of its own assertions, and its result is always 0. A 32-bit access to
    that table, however, follows the null pointer hv->ioapic. The run is that
    of the monitor, not of a forked device process, and has no exits for single
    steps: [debug_step] uses the decoded instruction even if there is none. *)
Theorem hypero_run_safe env stack fuel i w :
  (forall tr, env tr (Vmm_call Fork) <> 0) ->
  (forall tr fd s, 0 <= st_rip_gpa (env tr (Run_request fd s)).2 <= GUEST_MAP_SIZE - 16) ->
  (forall tr fd s, (env tr (Run_request fd s)).1 <> EXITCOOODE_TRAP_FLAG) ->
  stub_inv i w ->
  ((forall tr fd s, (env tr (Run_request fd s)).1 = EXITCOOODE_EPT_VIOLATION ->
      redtblAccess (mmio_phys_addr (env tr (Run_request fd s)).2) = false) ->
   upto aborts (hvRunVcpu env (vmm_bus env stack) fuel i)
     (fun r w' => stub_inv i w' /\ r = 0) w) /\
  (forall v phys_addr data is_write, vcpu_at (h_vmm (w_st w)) i = Some v -> length data = 8%nat ->
     lapicAccess v phys_addr = false -> ioApicAccess phys_addr = true ->
     redtblAccess phys_addr = true ->
     faults (bus_mmio (vmm_bus env stack) i phys_addr data 4 is_write) NullDeref w).
Proof.
  intros Hp Hr Ht Hinv. split.
  - intros Hno. pose proof (vmm_bus_laws env stack Hp). by apply stub_run_safe.
  - intros v pa data iw Hv Hd Hl Ha Hred. destruct Hinv as [(Hm & Hh & _) _].
    destruct (bare_table (vmm_view env (w_trace w)) stack i v data (vmm_part w) Hm Hh Hv pa iw Hl Ha Hred)
      as [u Hu]. eexists. unfold vmm_bus; simpl. unfold lift. by rewrite Hu.
Qed.

Lemma hypero_run_safe_witness :
  upto aborts (hvRunVcpu stub_sample_env (vmm_bus stub_sample_env (replicate 28 0)) 5 0)
    (fun r w' => stub_inv 0 w' /\ r = 0) stub_start /\
  faults (bus_mmio (vmm_bus stub_sample_env (replicate 28 0)) 0 0xfec00008 (replicate 8 0) 4 1)
    NullDeref stub_start.
Proof.
  destruct (hypero_run_safe stub_sample_env (replicate 28 0) 5 0 stub_start) as [H1 H2].
  - intros tr. discriminate.
  - intros tr fd s. simpl. unfold GUEST_MAP_SIZE. lia.
  - intros tr fd s. simpl. destruct (has_run tr); discriminate.
  - eapply stub_inv_intro; [exact stub_start_ok|exact stub_start_comm].
  - split; [apply H1; reflexivity|]. by apply (H2 (sample_vcpu 0 1)).
Defined.

(** The run of the sample ends and returns. *)
Example sample_run_returns :
  match hvRunVcpu stub_sample_env (vmm_bus stub_sample_env (replicate 28 0)) 5 0 stub_start with
  | Ret r _ => r = 0
  | Fault _ _ => False
  end.
Proof. by vm_compute. Qed.

(** ** Emulated instructions *)

(** The world after the instruction at the guest's program counter was fetched
    and decoded, and what the decoder said. *)
Definition instr_load (w : stub_world) (s : ooo_state_t) : stub_call :=
  Guest_load (h_guest_mem (w_st w) + st_rip_gpa s) 16.
Definition instr_disasm env w c s : stub_call :=
  Cs_disasm (sc_cs_handle c) (env (w_trace w) (instr_load w s)).
Definition decoded env w c s : option cs_insn :=
  env (w_trace w ++ [instr_load w s : call stub_iface])
    (Cs_disasm (sc_cs_handle c) (env (w_trace w) (instr_load w s))).
Definition after_decode env w c s : stub_world :=
  w <| w_trace := w_trace w ++ [instr_load w s : call stub_iface; instr_disasm env w c s] |>.

Lemma wp_decode {A} env i c s (k : option cs_insn -> stub_prog A) Q w :
  comm_at i w c s -> 0 <= st_rip_gpa s <= GUEST_MAP_SIZE - 16 ->
  wp (k (decoded env w c s)) Q (after_decode env w c s) ->
  wp (instr_bytes ← fetch env (st_rip_gpa s); c ← get_stub i;
      insn ← sos env (Cs_disasm (sc_cs_handle c) instr_bytes); k insn) Q w.
Proof.
  intros Hc Hr Hk. apply wp_bind, wp_fetch; [done|]. cbv zeta.
  apply wp_bind. eapply wp_get_stub; [apply Hc|]. wp_step. stub_step.
  match goal with |- wp _ _ ?w' => replace w' with (after_decode env w c s) end; [exact Hk|].
  unfold after_decode. destruct w. cbn. by rewrite <-app_assoc.
Qed.

Lemma wp_eval {A} (m : stub_prog A) (Q : A -> stub_world -> Prop) a w w' :
  m w = Ret a w' -> Q a w' -> wp m Q w.
Proof. unfold wp. by intros ->. Qed.

(** The state in which an instruction of [size] bytes leaves the CPU. *)
Lemma access_end_exact env i c s size (ret : Z) (Q : Z -> stub_world -> Prop) w :
  comm_at i w c s ->
  (forall c' w', comm_at i w' c'
     (s <| st_regs ::= fun r => r <| o_rip ::= fun x => u64 (x + size) |> |>) -> Q ret w') ->
  wp (advance_rip i size;; _ ← sos env Cs_free; mret ret) Q w.
Proof.
  intros Hc HQ. apply wp_bind, wp_set_stub. apply wp_bind, wp_sos, wp_ret. eapply HQ.
  exact (comm_at_set _ _ _ _ _ Hc).
Qed.

(** C23: A MOV between a register and device memory: a load puts the bytes
    that the bus answers into the low bytes of the register and keeps the others,
    a store sends the low bytes of the register; no other register changes and
    the program counter moves behind the instruction.  A register that the backend does not know (AH, RAX, ...) takes
    the word in front of the registers instead. *)
Theorem mov_emulated env B i c s insn r w w2 :
  comm_at i w c s -> 0 <= st_rip_gpa s <= GUEST_MAP_SIZE - 16 ->
  decoded env w c s = Some insn -> starts_with 3 "mov" (mnemonic insn) = true ->
  let is_load := mmio_is_write s =? 0 in
  let op := if is_load then operand0 insn else operand1 insn in
  let n := Z.to_nat (op_size op) in
  let k := get_reg_offset (op_reg op) in
  let word := default 0 (state_word s k) in
  0 <= op_size op <= 8 ->
  bus_mmio B i (mmio_phys_addr s)
    (if is_load then replicate 8 0 else take n (le_bytes 8 word) ++ replicate (8 - n) 0)
    (op_size op) (mmio_is_write s) (after_decode env w c s) = Ret r w2 ->
  h_cpus (w_st w2) = h_cpus (w_st w) -> length r.2 = 8%nat ->
  wp (handle_mmio env B i) (fun ret w' => ret = r.1 /\ exists c' s', comm_at i w' c' s' /\
    o_rip (st_regs s') = u64 (o_rip (st_regs s) + insn_size insn) /\
    forall j, -1 <= j <= 15 ->
      state_word s' j = if decide (is_load = true /\ j = k)
                        then Some (le_val (take n r.2 ++ drop n (le_bytes 8 word)))
                        else state_word s j) w.
Proof.
  intros Hc Hr Hd Hmov is_load op n k word Hop Hbus Hcpus Hlen.
  assert (-1 <= k <= 15) as Hk by apply get_reg_offset_range.
  destruct (state_word_Some s k Hk) as [v Hv].
  assert (word = v) as Ew by (unfold word; by rewrite Hv). rewrite Ew in *. clear word Ew.
  assert (comm_at i w2 c s) as Hc2 by (split; [rewrite Hcpus|]; apply Hc).
  unfold handle_mmio. apply wp_bind. eapply wp_stub_comm; [apply Hc|apply Hc|].
  eapply wp_decode; [exact Hc|done|]. rewrite Hd, Hmov. wp_step. wp_step. cbv zeta. wp_step.
  fold is_load. unfold n, k, op in *. clear n k op. destruct is_load.
  - wp_step. rewrite (proj2 (Z.leb_le _ _)) by lia. wp_step. wp_step.
    eapply wp_eval; [exact Hbus|]. wp_step. eapply wp_stub_comm; [apply Hc2|apply Hc2|].
    wp_step. eapply wp_get_or; [exact Hv|]. apply wp_bind, wp_set_stub, wp_ret.
    eapply access_end_exact; [exact (comm_at_set _ _ _ _ _ Hc2)|].
    intros c' w' Hc'. split; [done|]. eexists c', _. split; [exact Hc'|]. split.
    + simpl. unfold set_field. simpl. by rewrite set_state_word_rip.
    + intros j Hj. rewrite state_word_rip, state_word_set, put_low_bytes by done.
      by destruct (decide (j = _)) as [->|]; [rewrite !decide_True|rewrite !decide_False by tauto].
  - wp_step. rewrite (proj2 (Z.leb_le _ _)) by lia. wp_step. wp_step.
    eapply wp_get_or; [exact Hv|]. wp_step. rewrite low_bytes_pad by done.
    eapply wp_eval; [exact Hbus|]. apply wp_ret.
    eapply access_end_exact; [exact Hc2|]. intros c' w' Hc'. split; [done|].
    eexists c', _. split; [exact Hc'|]. split; [done|].
    intros j Hj. rewrite state_word_rip by done. by rewrite decide_False by (by intros [? _]).
Qed.

(** A bus whose devices answer with the bytes 1, 2, ..., 8. *)
Definition counting_bus : bus := {|
  bus_pio := fun _ _ _ _ _ _ => mret (0, [1; 2; 3; 4; 5; 6; 7; 8]);
  bus_mmio := fun _ _ _ _ _ => mret (0, [1; 2; 3; 4; 5; 6; 7; 8]);
|}.

(** The sample loads 0x0201 into CX, whose register held 0x11223344. *)
Lemma mov_emulated_witness :
  wp (handle_mmio stub_sample_env counting_bus 0) (fun ret w' => ret = 0 /\ exists c' s',
    comm_at 0 w' c' s' /\ o_rip (st_regs s') = 3 /\
    forall j, -1 <= j <= 15 -> state_word s' j =
      if decide (true = true /\ j = 1) then Some 0x11220201 else state_word sample_ooo j) stub_start.
Proof.
  apply (mov_emulated stub_sample_env counting_bus 0
    (StubCpu (Some sample_ooo) (Some CS_MODE_16) MODE_REAL) sample_ooo sample_mov
    (0, [1; 2; 3; 4; 5; 6; 7; 8]) stub_start
    (after_decode stub_sample_env stub_start
       (StubCpu (Some sample_ooo) (Some CS_MODE_16) MODE_REAL) sample_ooo));
    try reflexivity; try (vm_compute; split; discriminate).
  exact stub_start_comm.
Defined.

(** The port instructions: IN puts the bytes that the bus answers into the
    low bytes of RAX and keeps the others, OUT sends the low bytes of RAX and
    changes nothing; the port is the immediate operand or DX, the width that of
    the data operand, and the program counter moves behind the instruction. *)
Theorem port_emulated env B i c s insn r w w2 :
  comm_at i w c s -> 0 <= st_rip_gpa s <= GUEST_MAP_SIZE - 16 ->
  decoded env w c s = Some insn ->
  let is_out := starts_with 3 "out" (mnemonic insn) in
  let data_op := if is_out then operand1 insn else operand0 insn in
  let port_op := if is_out then operand0 insn else operand1 insn in
  let n := Z.to_nat (op_size data_op) in
  let rax := o_rax (st_regs s) in
  0 <= op_size data_op <= 8 ->
  bus_pio B i (port_of s port_op)
    (if is_out then take n (le_bytes 8 rax) ++ replicate (8 - n) 0 else replicate 8 0)
    (if is_out then IO_DIRECTION_OUT else IO_DIRECTION_IN) (op_size data_op) 0
    (after_decode env w c s) = Ret r w2 ->
  h_cpus (w_st w2) = h_cpus (w_st w) -> length r.2 = 8%nat ->
  wp (handle_pio env B i) (fun ret w' => ret = r.1 /\ exists c', comm_at i w' c'
    (s <| st_regs ::= fun x =>
        (if is_out then x
         else x <| o_rax := le_val (take n r.2 ++ drop n (le_bytes 8 rax)) |>)
        <| o_rip := u64 (o_rip (st_regs s) + insn_size insn) |> |>)) w.
Proof.
  intros Hc Hr Hd is_out data_op port_op n rax Hop Hbus Hcpus Hlen.
  assert (comm_at i w2 c s) as Hc2 by (split; [rewrite Hcpus|]; apply Hc).
  unfold handle_pio. apply wp_bind. eapply wp_stub_comm; [apply Hc|apply Hc|].
  eapply wp_decode; [exact Hc|done|]. rewrite Hd. cbv zeta. fold is_out.
  unfold n, data_op, port_op in *. clear n data_op port_op. wp_step. destruct is_out.
  - wp_step. wp_step. rewrite (proj2 (Z.leb_le _ _)) by lia. wp_step. wp_step.
    rewrite low_bytes_pad by done. eapply wp_eval; [exact Hbus|]. wp_step.
    eapply access_end_exact; [exact Hc2|]. intros c' w' Hc'. split; [done|]. by exists c'.
  - replace (if starts_with 2 "in" (mnemonic insn) then IO_DIRECTION_IN else 0) with IO_DIRECTION_IN
      by (by destruct (starts_with 2 _ _)).
    wp_step. wp_step. rewrite (proj2 (Z.leb_le _ _)) by lia. wp_step. wp_step.
    eapply wp_eval; [exact Hbus|]. apply wp_bind, wp_set_stub, wp_ret.
    eapply access_end_exact; [exact (comm_at_set _ _ _ _ _ Hc2)|].
    intros c' w' Hc'. split; [done|]. exists c'.
    unfold rax. rewrite <-put_low_bytes by done. by destruct s as [? ? ? ? ? ? ? ? ? [] ?].
Qed.

Definition in_env : stub_env := fun tr (c : stub_call) =>
  match c return stub_reply c with
  | Cs_disasm _ _ => Some sample_in
  | c => stub_sample_env tr c
  end.

Lemma port_emulated_witness :
  wp (handle_pio in_env counting_bus 0) (fun ret w' => ret = 0 /\ exists c', comm_at 0 w' c'
    (sample_ooo <| st_regs ::= fun x => x <| o_rax := 0x0201 |> <| o_rip := 1 |> |>)) stub_start.
Proof.
  apply (port_emulated in_env counting_bus 0
    (StubCpu (Some sample_ooo) (Some CS_MODE_16) MODE_REAL) sample_ooo sample_in
    (0, [1; 2; 3; 4; 5; 6; 7; 8]) stub_start
    (after_decode in_env stub_start
       (StubCpu (Some sample_ooo) (Some CS_MODE_16) MODE_REAL) sample_ooo));
    try reflexivity; try (vm_compute; split; discriminate).
  exact stub_start_comm.
Defined.

(** ** The decoder and the mode of the CPU *)

(** The exits of a CPU in the modes [ms], one after the other. *)
Definition exits_in env i (ms : list Z) : stub_prog unit :=
  for_each ms (fun m => set_stub_comm i (fun s => s <| st_mode := m |>);; update_mode env i).

(** The decoder of a CPU after the exits: in the mode of the CPU, unless all
    exits were in paging mode, whose number is that of the first mode. *)
Definition decoder_after (ms : list Z) : Z :=
  if forallb (Z.eqb MODE_PAGING) ms then CS_MODE_16 else cs_mode_for (default 0 (last ms)).

Lemma update_mode_cpu m ms c :
  sc_cs_handle c = Some (decoder_after ms) ->
  sc_last_mode c = default CS_MODE_16 (last ms) ->
  sc_cs_handle (mode_update m c) = Some (decoder_after (ms ++ [m])) /\
  sc_last_mode (mode_update m c) = default CS_MODE_16 (last (ms ++ [m])).
Proof.
  intros Hh Hl. unfold mode_update, decoder_after. rewrite last_snoc, forallb_app, Hl.
  cbn [forallb from_option]. rewrite andb_true_r. destruct (_ =? m) eqn:E.
  - apply Z.eqb_eq in E. split; [|by rewrite Hl]. rewrite Hh. unfold decoder_after.
    destruct (last ms) as [x|] eqn:Hx; cbn [from_option] in *; subst m.
    + destruct (forallb _ ms) eqn:Hf; [|done].
      rewrite forallb_forall in Hf. apply last_Some_elem_of, list_elem_of_In in Hx.
      unfold Datatypes.id. by rewrite (Hf _ Hx).
    + by apply last_None in Hx as ->.
  - split; [|done]. cbn [sc_cs_handle set_field stub_cpu_eta]. unfold set_field. cbn [sc_cs_handle].
    rewrite Hh. cbn [fmap option_fmap option_map]. f_equal. unfold Datatypes.id.
    destruct (forallb (Z.eqb MODE_PAGING) ms && (MODE_PAGING =? m)) eqn:Hb; [|reflexivity].
    apply andb_true_iff in Hb as [Hf Hm]. apply Z.eqb_eq in Hm as <-. exfalso.
    apply Z.eqb_neq in E. apply E. destruct (last ms) as [x|] eqn:Hx; [|done].
    rewrite forallb_forall in Hf. apply last_Some_elem_of, list_elem_of_In, Hf in Hx.
    by apply Z.eqb_eq in Hx.
Qed.

(** From the creation of a CPU on, after any sequence of exits, the decoder
    works in the width of the CPU's mode, 16 bits in real mode and 32 bits
    otherwise.  There is one exception: [last_mode] starts as CS_MODE_16, whose
    number is that of paging mode, so a CPU all of whose exits were in paging
    mode is still decoded as 16-bit code. *)
Theorem decoder_follows_mode env i c ms w :
  (forall tr, env tr (Cs_open CS_MODE_16) = CS_ERR_OK) ->
  (forall tr n, env tr (Vmm_call (Calloc n)) = true) ->
  h_cpus (w_st w) !! i = Some c ->
  wp (_ ← hvCreateVcpu env i; _ ← hvEstablishComm env i; exits_in env i ms) (fun _ w' =>
    exists c', h_cpus (w_st w') !! i = Some c' /\ sc_cs_handle c' = Some (decoder_after ms)) w.
Proof.
  intros Hopen Halloc Hc. unfold hvCreateVcpu, init_capstone.
  stub_go. rewrite Hopen. stub_go. unfold hvEstablishComm. stub_go. rewrite Halloc. stub_go.
  unfold exits_in.
  eapply (wp_for_each _ _ (fun pre w' => exists c' s', comm_at i w' c' s' /\
    sc_cs_handle c' = Some (decoder_after pre) /\ sc_last_mode c' = default CS_MODE_16 (last pre))).
  - eexists _, ooo_state_zero. split; [split|].
    + simpl. unfold set_field. by rewrite !list_lookup_alter_eq, Hc.
    + done.
    + done.
  - intros pre m post w1 _ (c1 & s1 & Hc1 & Hh1 & Hl1). apply wp_bind, wp_set_stub.
    pose proof (comm_at_set i w1 c1 s1 (fun s => s <| st_mode := m |>) Hc1) as Hc2.
    eapply wp_mono; [exact (update_mode_spec env i _ _ _ Hc2)|]. intros _ w2 [Hst _].
    eexists _, _. split; [split|].
    + rewrite Hst. etransitivity; [apply list_lookup_alter_eq|].
      exact (f_equal (fmap _) (proj1 Hc2)).
    + unfold mode_update. by destruct (_ =? _).
    + by apply update_mode_cpu.
  - intros w1 (c1 & s1 & [Hc1 _] & Hh1 & _). by exists c1.
Qed.

Lemma decoder_follows_mode_witness :
  wp (_ ← hvCreateVcpu stub_sample_env 0; _ ← hvEstablishComm stub_sample_env 0;
      exits_in stub_sample_env 0 [MODE_PAGING; MODE_PAGING]) (fun _ w' =>
    exists c', h_cpus (w_st w') !! 0%nat = Some c' /\ sc_cs_handle c' = Some CS_MODE_16) stub_start.
Proof.
  by apply (decoder_follows_mode stub_sample_env 0
    (StubCpu (Some sample_ooo) (Some CS_MODE_16) MODE_REAL) [MODE_PAGING; MODE_PAGING]).
Defined.

(** A guest that executes a port instruction above 4 MiB makes the backend read
    outside of the memory it mapped. *)
Theorem high_code_out_of_bounds env B i c s w :
  comm_at i w c s -> GUEST_MAP_SIZE - 16 < st_rip_gpa s ->
  handle_pio env B i w = Fault OutOfBounds w.
Proof.
  intros [Hc Hs] Hr. unfold handle_pio, stub_comm, get_stub, fetch, gets, get_or, mbind, prog_bind.
  rewrite Hc. simpl. rewrite Hs. simpl.
  replace (st_rip_gpa s + 16 <=? GUEST_MAP_SIZE) with false by (symmetry; apply Z.leb_gt; lia).
  by rewrite andb_false_r.
Qed.
