(* ===== verification/Micro.v ===== *)
(** * Micro: the microcode engine of the network card
    (devices/broadcooom/microengine.cpp, types.hpp, myqueue.hpp)

    Four hardware contexts share one interpreter, 256 registers, scratch memory
    and RAM.  Memory requests are jobs in the queues of two memory controllers,
    each a thread of its own; a context that asks for CTX_SWAP sleeps until its
    job is done.  An instruction is a word of 40 bits with the bit fields of
    types.hpp, allocated from the least significant bit on. *)

From S2P Require Import Prelude Effects Device.

Definition NUM_THREADS := 4.
Definition MAX_ETHERNET_SIZE := 1518.
Definition RAM_WORDS := 0x200000.       (* MB(8), in words *)
Definition SCRATCH_WORDS : nat := 1024.
Definition CODE_SIZE : nat := 1024.
Definition sizeof_m_code := 5120.
Definition sizeof_m_registers := 1024.

(** ** Enumerations of types.hpp *)

(** [opcode_type] *)
Definition ALU := 0.
Definition ALU_SHF := 1.
Definition DBL_SHF := 2.
Definition BR := 3.
Definition BR_EQ := 4.
Definition BR_NEQ := 5.
Definition BR_LESS := 6.
Definition BR_LESS_EQ := 7.
Definition BR_GREATER := 8.
Definition BR_GREATER_EQ := 9.
Definition BR_EQ_COUNT := 10.
Definition BR_NEQ_COUNT := 11.
Definition BR_BSET := 12.
Definition BR_BCLR := 13.
Definition BR_EQ_BYTE := 14.
Definition BR_NEQ_BYTE := 15.
Definition BR_EQ_CTX := 16.
Definition BR_NEQ_CTX := 17.
Definition BR_INP_STATE := 18.
Definition BR_NOT_SIGNAL := 19.
Definition RTN := 20.
Definition CSR := 21.
Definition FAST_WR := 22.
Definition LOCAL_CSR_RD := 23.
Definition RX_PKT := 24.
Definition R_FIFO_RD := 25.
Definition SCRATCH := 26.
Definition RAM := 27.
Definition T_FIFO_WR := 28.
Definition IMMED := 29.
Definition IMMED_B0 := 30.
Definition IMMED_B1 := 31.
Definition IMMED_B2 := 32.
Definition IMMED_B3 := 33.
Definition IMMED_W0 := 34.
Definition IMMED_W1 := 35.
Definition LD_FIELD := 36.
Definition LD_FIELD_W_CLR := 37.
Definition LOAD_ADDR := 38.
Definition CTX_ARB := 39.
Definition NOP := 40.
Definition HASH1_48 := 41.
Definition HASH2_48 := 42.
Definition HASH3_48 := 43.
Definition HASH1_64 := 44.
Definition HASH2_64 := 45.
Definition HASH3_64 := 46.

(** [alu_ops_type] *)
Definition PLUS := 0.
Definition MINUS := 1.
Definition BACKWARDS_MINUS := 2.
Definition SECOND := 3.
Definition BIT_NOT_SECOND := 4.
Definition ALU_AND := 5.
Definition ALU_OR := 6.
Definition ALU_XOR := 7.
Definition PLUS_CARRY := 8.
Definition ALU_SHIFT_LEFT := 9.
Definition ALU_SHIFT_RIGHT := 10.
Definition PLUS_IF_SIGN := 11.
Definition PLUS_FOUR := 12.
Definition PLUS_EIGHT := 13.
Definition PLUS_SIXTEEN := 14.

(** [direction_type] *)
Definition READ := 0.
Definition WRITE := 1.

(** [token_type] *)
Definition NO_TOKEN := 0.
Definition CTX_SWAP := 1.
Definition SIG_DONE := 2.

(** [rot_type] *)
Definition NO_ROT := 0.
Definition ANOTHER_NO_ROT := 1.
Definition LEFT_EIGHT := 2.
Definition LEFT_SIXTEEN := 3.

(** [shift_type] *)
Definition SHIFT_LEFT := 0.
Definition SHIFT_RIGHT := 1.

(** [reg_ref_type] *)
Definition RELATIVE := 0.
Definition ABSOLUTE := 1.

(** ** Instruction formats

    The members of the packed structures, in their order. *)

Record alu := Alu {
  alu_opcode : Z; alu_dst_type : Z; alu_dst : Z; alu_src_1_type : Z; alu_src_1 : Z;
  alu_type : Z; alu_src_2_type : Z; alu_src_2 : Z; alu_shift : Z; alu_num_shift : Z;
}.
Record immediate := Immediate {
  imm_opcode : Z; imm_dst_type : Z; imm_dst : Z; imm_ival : Z; imm_rot : Z;
}.
Record csr := Csr { csr_opcode : Z; csr_dst_type : Z; csr_dst : Z; csr_num : Z }.
Record memory := Memory {
  mem_opcode : Z; mem_direction : Z; mem_xfer_reg_type : Z; mem_xfer_reg : Z;
  mem_addr_1_type : Z; mem_addr_1 : Z; mem_addr_2_type : Z; mem_addr_2 : Z;
  mem_count : Z; mem_token : Z;
}.
Record branch := Branch {
  br_opcode : Z; br_src_1_type : Z; br_src_1 : Z; br_src_2_type : Z; br_src_2 : Z; br_target : Z;
}.
Record load_i := LoadI {
  ld_opcode : Z; ld_dst_type : Z; ld_dst : Z; ld_mask : Z; ld_src_type : Z; ld_src : Z; ld_rot : Z;
}.
Record fifo := Fifo {
  ff_opcode : Z; ff_size_type : Z; ff_size : Z; ff_addr_1_type : Z; ff_addr_1 : Z;
  ff_addr_2_type : Z; ff_addr_2 : Z; ff_token : Z;
}.

(** The members of the union [instruction]. *)
Definition inst_opcode (w : Z) : Z := bits w 0 6.
Definition alu_inst (w : Z) : alu :=
  Alu (bits w 0 6) (bits w 6 1) (bits w 7 8) (bits w 15 1) (bits w 16 8) (bits w 24 4)
    (bits w 28 1) (bits w 29 8) (bits w 37 1) (bits w 38 2).
Definition immediate_inst (w : Z) : immediate :=
  Immediate (bits w 0 6) (bits w 6 1) (bits w 7 8) (bits w 15 16) (bits w 31 2).
Definition csr_inst (w : Z) : csr := Csr (bits w 0 6) (bits w 6 1) (bits w 7 8) (bits w 15 16).
Definition memory_inst (w : Z) : memory :=
  Memory (bits w 0 6) (bits w 6 1) (bits w 7 1) (bits w 8 8) (bits w 16 1) (bits w 17 8)
    (bits w 25 1) (bits w 26 8) (bits w 34 4) (bits w 38 2).
Definition branch_inst (w : Z) : branch :=
  Branch (bits w 0 6) (bits w 6 1) (bits w 7 8) (bits w 15 1) (bits w 16 8) (bits w 24 12).
Definition load_inst (w : Z) : load_i :=
  LoadI (bits w 0 6) (bits w 6 1) (bits w 7 8) (bits w 15 4) (bits w 19 1) (bits w 20 8) (bits w 28 2).
Definition fifo_inst (w : Z) : fifo :=
  Fifo (bits w 0 6) (bits w 6 1) (bits w 7 8) (bits w 15 1) (bits w 16 8) (bits w 24 1)
    (bits w 25 8) (bits w 33 2).

Definition crc32_tab : list Z :=
  [0x00000000; 0x77073096; 0xee0e612c; 0x990951ba; 0x076dc419; 0x706af48f;
   0xe963a535; 0x9e6495a3; 0x0edb8832; 0x79dcb8a4; 0xe0d5e91e; 0x97d2d988;
   0x09b64c2b; 0x7eb17cbd; 0xe7b82d07; 0x90bf1d91; 0x1db71064; 0x6ab020f2;
   0xf3b97148; 0x84be41de; 0x1adad47d; 0x6ddde4eb; 0xf4d4b551; 0x83d385c7;
   0x136c9856; 0x646ba8c0; 0xfd62f97a; 0x8a65c9ec; 0x14015c4f; 0x63066cd9;
   0xfa0f3d63; 0x8d080df5; 0x3b6e20c8; 0x4c69105e; 0xd56041e4; 0xa2677172;
   0x3c03e4d1; 0x4b04d447; 0xd20d85fd; 0xa50ab56b; 0x35b5a8fa; 0x42b2986c;
   0xdbbbc9d6; 0xacbcf940; 0x32d86ce3; 0x45df5c75; 0xdcd60dcf; 0xabd13d59;
   0x26d930ac; 0x51de003a; 0xc8d75180; 0xbfd06116; 0x21b4f4b5; 0x56b3c423;
   0xcfba9599; 0xb8bda50f; 0x2802b89e; 0x5f058808; 0xc60cd9b2; 0xb10be924;
   0x2f6f7c87; 0x58684c11; 0xc1611dab; 0xb6662d3d; 0x76dc4190; 0x01db7106;
   0x98d220bc; 0xefd5102a; 0x71b18589; 0x06b6b51f; 0x9fbfe4a5; 0xe8b8d433;
   0x7807c9a2; 0x0f00f934; 0x9609a88e; 0xe10e9818; 0x7f6a0dbb; 0x086d3d2d;
   0x91646c97; 0xe6635c01; 0x6b6b51f4; 0x1c6c6162; 0x856530d8; 0xf262004e;
   0x6c0695ed; 0x1b01a57b; 0x8208f4c1; 0xf50fc457; 0x65b0d9c6; 0x12b7e950;
   0x8bbeb8ea; 0xfcb9887c; 0x62dd1ddf; 0x15da2d49; 0x8cd37cf3; 0xfbd44c65;
   0x4db26158; 0x3ab551ce; 0xa3bc0074; 0xd4bb30e2; 0x4adfa541; 0x3dd895d7;
   0xa4d1c46d; 0xd3d6f4fb; 0x4369e96a; 0x346ed9fc; 0xad678846; 0xda60b8d0;
   0x44042d73; 0x33031de5; 0xaa0a4c5f; 0xdd0d7cc9; 0x5005713c; 0x270241aa;
   0xbe0b1010; 0xc90c2086; 0x5768b525; 0x206f85b3; 0xb966d409; 0xce61e49f;
   0x5edef90e; 0x29d9c998; 0xb0d09822; 0xc7d7a8b4; 0x59b33d17; 0x2eb40d81;
   0xb7bd5c3b; 0xc0ba6cad; 0xedb88320; 0x9abfb3b6; 0x03b6e20c; 0x74b1d29a;
   0xead54739; 0x9dd277af; 0x04db2615; 0x73dc1683; 0xe3630b12; 0x94643b84;
   0x0d6d6a3e; 0x7a6a5aa8; 0xe40ecf0b; 0x9309ff9d; 0x0a00ae27; 0x7d079eb1;
   0xf00f9344; 0x8708a3d2; 0x1e01f268; 0x6906c2fe; 0xf762575d; 0x806567cb;
   0x196c3671; 0x6e6b06e7; 0xfed41b76; 0x89d32be0; 0x10da7a5a; 0x67dd4acc;
   0xf9b9df6f; 0x8ebeeff9; 0x17b7be43; 0x60b08ed5; 0xd6d6a3e8; 0xa1d1937e;
   0x38d8c2c4; 0x4fdff252; 0xd1bb67f1; 0xa6bc5767; 0x3fb506dd; 0x48b2364b;
   0xd80d2bda; 0xaf0a1b4c; 0x36034af6; 0x41047a60; 0xdf60efc3; 0xa867df55;
   0x316e8eef; 0x4669be79; 0xcb61b38c; 0xbc66831a; 0x256fd2a0; 0x5268e236;
   0xcc0c7795; 0xbb0b4703; 0x220216b9; 0x5505262f; 0xc5ba3bbe; 0xb2bd0b28;
   0x2bb45a92; 0x5cb36a04; 0xc2d7ffa7; 0xb5d0cf31; 0x2cd99e8b; 0x5bdeae1d;
   0x9b64c2b0; 0xec63f226; 0x756aa39c; 0x026d930a; 0x9c0906a9; 0xeb0e363f;
   0x72076785; 0x05005713; 0x95bf4a82; 0xe2b87a14; 0x7bb12bae; 0x0cb61b38;
   0x92d28e9b; 0xe5d5be0d; 0x7cdcefb7; 0x0bdbdf21; 0x86d3d2d4; 0xf1d4e242;
   0x68ddb3f8; 0x1fda836e; 0x81be16cd; 0xf6b9265b; 0x6fb077e1; 0x18b74777;
   0x88085ae6; 0xff0f6a70; 0x66063bca; 0x11010b5c; 0x8f659eff; 0xf862ae69;
   0x616bffd3; 0x166ccf45; 0xa00ae278; 0xd70dd2ee; 0x4e048354; 0x3903b3c2;
   0xa7672661; 0xd06016f7; 0x4969474d; 0x3e6e77db; 0xaed16a4a; 0xd9d65adc;
   0x40df0b66; 0x37d83bf0; 0xa9bcae53; 0xdebb9ec5; 0x47b2cf7f; 0x30b5ffe9;
   0xbdbdf21c; 0xcabac28a; 0x53b39330; 0x24b4a3a6; 0xbad03605; 0xcdd70693;
   0x54de5729; 0x23d967bf; 0xb3667a2e; 0xc4614ab8; 0x5d681b02; 0x2a6f2b94;
   0xb40bbe37; 0xc30c8ea1; 0x5a05df1b; 0x2d02ef8d].

(** ** State *)

(** A pointer into the registers is an index, the callback the context that it
    wakes. *)
Record memory_job := MemoryJob {
  mj_direction : Z;
  mj_mem_offset : Z;
  mj_start_reg : Z;
  mj_count : Z;
  mj_callback : option Z;
}.

(** [start] is the word of RAM that it points to. *)
Record fifo_job := FifoJob {
  fj_size : Z;
  fj_start : Z;
  fj_callback : option Z;
}.

Record micro := Micro {
  m_current_ctx : Z;
  m_pc_ctx : list Z;
  m_scratch : list Z;
  m_csr : Z;
  m_registers : list Z;
  m_code : list Z;
  m_ctx_ready : list bool;
  m_code_len : Z;
  m_done : Z;
  m_mac : bytes;
  m_carry : Z;
  m_sign : Z;
  m_last_alu : Z;
  m_ram : gmap Z Z;                  (* calloc: 0 where nothing was written *)
  m_scratch_queue : list memory_job;
  m_ram_queue : list memory_job;
  m_tx_queue : list fifo_job;
  m_rx_queue : list fifo_job;
  m_pkt_in_queue : list fifo_job;
}.
#[export] Instance micro_eta : Settable micro := fun m =>
  Micro (m_current_ctx m) (m_pc_ctx m) (m_scratch m) (m_csr m) (m_registers m) (m_code m)
    (m_ctx_ready m) (m_code_len m) (m_done m) (m_mac m) (m_carry m) (m_sign m) (m_last_alu m)
    (m_ram m) (m_scratch_queue m) (m_ram_queue m) (m_tx_queue m) (m_rx_queue m) (m_pkt_in_queue m).

(** The engine runs in a device process; it makes no system calls itself and
    holds no lock over an instruction. *)
Abbreviation micro_world := (dev_world micro).
Abbreviation micro_prog := (dev_prog micro).

(** ** Registers and memories *)

Definition reg (k : Z) : micro_prog Z :=
  s ← gets (fun s => s);
  get_or OutOfBounds (znth (m_registers s) k).

Definition set_reg (k v : Z) : micro_prog unit :=
  s ← gets (fun s => s);
  _ ← get_or OutOfBounds (znth (m_registers s) k);
  modify (fun s => s <| m_registers ::= <[Z.to_nat k := v]> |>).

(** The two memories, and the queue of each. *)
Inductive bank := Scratch_mem | Ram_mem.

Definition mem_read (b : bank) (a : Z) : micro_prog Z :=
  s ← gets (fun s => s);
  match b with
  | Scratch_mem => get_or OutOfBounds (znth (m_scratch s) a)
  | Ram_mem => if (0 <=? a) && (a <? RAM_WORDS) then mret (default 0 (m_ram s !! a))
               else fail OutOfBounds
  end.

Definition mem_write (b : bank) (a v : Z) : micro_prog unit :=
  _ ← mem_read b a;
  match b with
  | Scratch_mem => modify (fun s => s <| m_scratch ::= <[Z.to_nat a := v]> |>)
  | Ram_mem => modify (fun s => s <| m_ram ::= <[a := v]> |>)
  end.

Definition queue_of (b : bank) (s : micro) : list memory_job :=
  match b with Scratch_mem => m_scratch_queue s | Ram_mem => m_ram_queue s end.
Definition set_queue (b : bank) (q : list memory_job) (s : micro) : micro :=
  match b with
  | Scratch_mem => s <| m_scratch_queue := q |>
  | Ram_mem => s <| m_ram_queue := q |>
  end.

(** ** Helpers *)

Definition change_csr (new_val : bool) (mask : Z) : micro_prog unit :=
  modify (fun s => s <| m_csr ::= fun c =>
    if new_val then Z.lor c mask else Z.land c (u32 (Z.lnot mask)) |>).

Definition PROMISC_MODE_MASK := 0x1.
Definition CHXSUM_RX_OFFLOAD_MASK := Z.shiftl 0x1 1.
Definition CHXSUM_TX_OFFLOAD_MASK := Z.shiftl 0x1 2.
Definition RX_ETH_CRC_CHECK_MASK := Z.shiftl 0x1 3.
Definition TX_ETH_CRC_OFFLOAD_MASK := Z.shiftl 0x1 4.

Definition set_mac_address (new_mac : bytes) : micro_prog unit :=
  modify (fun s => s <| m_mac := take 6 new_mac |>).

Definition next_context : micro_prog unit :=
  modify (fun s => s <| m_current_ctx ::= fun c => (c + 1) mod NUM_THREADS |>).

Definition set_ready (ctx : Z) (b : bool) (s : micro) : micro :=
  s <| m_ctx_ready ::= <[Z.to_nat ctx := b]> |>.

Definition bytemask_to_bitmask (bytemask : Z) : Z :=
  let step '(bytemask, bitmask) :=
    let bitmask := Z.shiftr bitmask 8 in
    (Z.shiftr bytemask 1,
     if Z.land bytemask 0x1 =? 0 then bitmask else Z.lxor bitmask 0xff000000) in
  (Nat.iter 4 step (bytemask, 0)).2.

Definition perform_rot (val rot : Z) : Z :=
  if rot =? LEFT_EIGHT then u32 (Z.shiftl val 8)
  else if rot =? LEFT_SIXTEEN then u32 (Z.shiftl val 16)
  else val.

(** [register_ref] has 8 bits, and so have the local [start_reg] and the
    result. *)
Definition absolute_register (ctx ref_type r : Z) : Z :=
  if ref_type =? ABSOLUTE then r
  else if r <? 32 then u8 ((r + ctx * 32) mod sizeof_m_registers)
  else if (32 <=? r) && (r <? 48) then
    let start_reg := u8 ((r - 32) + 128) in
    u8 ((start_reg + ctx * 16) mod sizeof_m_registers)
  else
    let start_reg := u8 ((r - 48) + 192) in
    u8 ((start_reg + ctx * 16) mod sizeof_m_registers).

Definition is_memory_read_register (r : Z) : bool := (192 <=? r) && (r <? 256).
Definition is_memory_write_register (r : Z) : bool := (128 <=? r) && (r <? 192).

Definition abs_reg (ref_type r : Z) : micro_prog Z :=
  s ← gets (fun s => s);
  mret (absolute_register (m_current_ctx s) ref_type r).

(** ** Instructions *)

(** The operation of the ALU on 32-bit values, with a 64-bit result.  Shifts by
    32 and more and the unused operation number have no defined result. *)
Definition alu_result (type a b carry sign : Z) : option Z :=
  if type =? PLUS then Some (a + b)
  else if type =? MINUS then Some (u32 (a - b))
  else if type =? BACKWARDS_MINUS then Some (u32 (b - a))
  else if type =? SECOND then Some b
  else if type =? BIT_NOT_SECOND then Some (u32 (Z.lnot b))
  else if type =? ALU_AND then Some (Z.land a b)
  else if type =? ALU_OR then Some (Z.lor a b)
  else if type =? ALU_XOR then Some (Z.lxor a b)
  else if type =? PLUS_CARRY then Some (a + b + carry)
  else if type =? ALU_SHIFT_LEFT then if b <? 32 then Some (u32 (Z.shiftl a b)) else None
  else if type =? ALU_SHIFT_RIGHT then if b <? 32 then Some (Z.shiftr a b) else None
  else if type =? PLUS_IF_SIGN then Some (if sign =? 0 then b else a + b)
  else if type =? PLUS_FOUR then Some (Z.land (u32 (a + b)) 0xF)
  else if type =? PLUS_EIGHT then Some (Z.land (u32 (a + b)) 0xFF)
  else if type =? PLUS_SIXTEEN then Some (Z.land (u32 (a + b)) 0xFFFF)
  else None.

Definition alu_shifted (opcode shift num_shift result : Z) : Z :=
  if opcode =? ALU_SHF then
    let tmp := u32 result in
    if shift =? SHIFT_LEFT then u32 (Z.shiftl tmp num_shift)
    else if shift =? SHIFT_RIGHT then Z.shiftr tmp num_shift
    else tmp
  else result.

Definition interpret_alu_instruction (i : alu) : micro_prog unit :=
  dst ← abs_reg (alu_dst_type i) (alu_dst i);
  src_1 ← abs_reg (alu_src_1_type i) (alu_src_1 i);
  src_2 ← abs_reg (alu_src_2_type i) (alu_src_2 i);
  if (alu_opcode i =? ALU) || (alu_opcode i =? ALU_SHF) then
    src_1_val ← reg src_1;
    src_2_val ← reg src_2;
    s ← gets (fun s => s);
    result ← get_or Undefined (alu_result (alu_type i) src_1_val src_2_val (m_carry s) (m_sign s));
    modify (fun s => s <| m_carry := bits result 32 1 |> <| m_sign := bits result 31 1 |>);;
    let result := u32 (alu_shifted (alu_opcode i) (alu_shift i) (alu_num_shift i) result) in
    set_reg dst result;;
    modify (fun s => s <| m_last_alu := result |>)
  else mret tt.

(** The new value of the destination. *)
Definition immediate_value (i : immediate) (orig : Z) : option Z :=
  let op := imm_opcode i in
  let byte := Z.land (imm_ival i) 0xff in
  let half := Z.land (imm_ival i) 0xffff in
  if op =? IMMED then Some (perform_rot (imm_ival i) (imm_rot i))
  else if op =? IMMED_B0 then Some (u32 (Z.land orig 0xffffff00 + byte))
  else if op =? IMMED_B1 then Some (u32 (Z.land orig 0xffff00ff + Z.shiftl byte 8))
  else if op =? IMMED_B2 then Some (u32 (Z.land orig 0xff00ffff + Z.shiftl byte 16))
  else if op =? IMMED_B3 then Some (u32 (Z.land orig 0x00ffffff + u32 (Z.shiftl byte 24)))
  else if op =? IMMED_W0 then Some (u32 (Z.land orig 0xffff0000 + half))
  else if op =? IMMED_W1 then Some (u32 (Z.land orig 0x0000ffff + u32 (Z.shiftl half 16)))
  else None.

Definition interpret_immediate_instruction (i : immediate) : micro_prog unit :=
  dst ← abs_reg (imm_dst_type i) (imm_dst i);
  orig ← reg dst;
  match immediate_value i orig with
  | Some v => set_reg dst v
  | None => mret tt
  end.

Definition interpret_memory_instruction (i : memory) : micro_prog unit :=
  xfer_reg ← abs_reg (mem_xfer_reg_type i) (mem_xfer_reg i);
  addr_1 ← abs_reg (mem_addr_1_type i) (mem_addr_1 i);
  addr_2 ← abs_reg (mem_addr_2_type i) (mem_addr_2 i);
  s ← gets (fun s => s);
  let count := if mem_count i =? 0 then u8 (m_last_alu s) else mem_count i in
  if ((mem_direction i =? READ) && negb (is_memory_read_register xfer_reg)) ||
     ((mem_direction i =? WRITE) && negb (is_memory_write_register xfer_reg))
  then mret tt else
  a ← reg addr_1;
  b ← reg addr_2;
  let swap := mem_token i =? CTX_SWAP in
  let ctx := m_current_ctx s in
  (if swap then modify (set_ready ctx false) else mret tt);;
  let job := MemoryJob (mem_direction i) (u32 (a + b)) xfer_reg count
               (if swap then Some ctx else None) in
  (if mem_opcode i =? SCRATCH then modify (fun s => s <| m_scratch_queue ::= fun q => q ++ [job] |>)
   else if mem_opcode i =? RAM then modify (fun s => s <| m_ram_queue ::= fun q => q ++ [job] |>)
   else mret tt);;
  if swap then next_context else mret tt.

Definition branch_taken (op a b ctx : Z) : bool :=
  if op =? BR then true
  else if op =? BR_EQ then a =? b
  else if op =? BR_NEQ then negb (a =? b)
  else if op =? BR_LESS then i32 a <? i32 b
  else if op =? BR_LESS_EQ then i32 a <=? i32 b
  else if op =? BR_GREATER then i32 b <? i32 a
  else if op =? BR_GREATER_EQ then i32 b <=? i32 a
  else if op =? BR_EQ_CTX then a =? ctx
  else if op =? BR_NEQ_CTX then negb (a =? ctx)
  else false.

Definition interpret_branch_instruction (i : branch) : micro_prog unit :=
  src_1 ← abs_reg (br_src_1_type i) (br_src_1 i);
  src_2 ← abs_reg (br_src_2_type i) (br_src_2 i);
  a ← reg src_1;
  b ← reg src_2;
  s ← gets (fun s => s);
  if branch_taken (br_opcode i) a b (m_current_ctx s)
  then modify (fun s => s <| m_pc_ctx ::= <[Z.to_nat (m_current_ctx s) := br_target i]> |>)
  else mret tt.

Definition interpret_load_instruction (i : load_i) : micro_prog unit :=
  dst ← abs_reg (ld_dst_type i) (ld_dst i);
  src ← abs_reg (ld_src_type i) (ld_src i);
  if negb ((ld_opcode i =? LD_FIELD) || (ld_opcode i =? LD_FIELD_W_CLR)) then mret tt else
  (if ld_opcode i =? LD_FIELD_W_CLR then set_reg dst 0 else mret tt);;
  val ← reg src;
  let val := perform_rot val (ld_rot i) in
  let bitmask := bytemask_to_bitmask (ld_mask i) in
  orig ← reg dst;
  set_reg dst (Z.lxor (Z.land orig (u32 (Z.lnot bitmask))) (Z.land val bitmask)).

Definition interpret_csr_instruction (i : csr) : micro_prog unit :=
  dst ← abs_reg (csr_dst_type i) (csr_dst i);
  result ← reg dst;
  s ← gets (fun s => s);
  let result :=
    if csr_num i =? 0 then m_csr s
    else if csr_num i =? 1 then le_val (take 4 (m_mac s))
    else if csr_num i =? 2 then le_val (take 2 (drop 4 (m_mac s)))
    else result in
  set_reg dst result.

Definition interpret_fifo_instruction (i : fifo) : micro_prog unit :=
  size ← abs_reg (ff_size_type i) (ff_size i);
  addr_1 ← abs_reg (ff_addr_1_type i) (ff_addr_1 i);
  addr_2 ← abs_reg (ff_addr_2_type i) (ff_addr_2 i);
  s ← gets (fun s => s);
  let swap := ff_token i =? CTX_SWAP in
  let ctx := m_current_ctx s in
  (if swap then modify (set_ready ctx false) else mret tt);;
  a ← reg addr_1;
  b ← reg addr_2;
  let job := FifoJob size (u32 (a + b)) (if swap then Some ctx else None) in
  (if ff_opcode i =? T_FIFO_WR then modify (fun s => s <| m_tx_queue ::= fun q => q ++ [job] |>)
   else if ff_opcode i =? R_FIFO_RD then modify (fun s => s <| m_rx_queue ::= fun q => q ++ [job] |>)
   else if ff_opcode i =? RX_PKT then modify (fun s => s <| m_pkt_in_queue ::= fun q => q ++ [job] |>)
   else mret tt);;
  if swap then next_context else mret tt.

Definition interpret_instruction (inst : Z) : micro_prog unit :=
  let opcode := inst_opcode inst in
  if (ALU <=? opcode) && (opcode <=? DBL_SHF) then interpret_alu_instruction (alu_inst inst)
  else if (IMMED <=? opcode) && (opcode <=? IMMED_W1) then
    interpret_immediate_instruction (immediate_inst inst)
  else if (opcode =? SCRATCH) || (opcode =? RAM) then
    interpret_memory_instruction (memory_inst inst)
  else if (BR <=? opcode) && (opcode <=? BR_NOT_SIGNAL) then
    interpret_branch_instruction (branch_inst inst)
  else if (opcode =? LD_FIELD) || (opcode =? LD_FIELD_W_CLR) then
    interpret_load_instruction (load_inst inst)
  else if (opcode =? T_FIFO_WR) || (opcode =? R_FIFO_RD) || (opcode =? RX_PKT) then
    interpret_fifo_instruction (fifo_inst inst)
  else if opcode =? NOP then mret tt
  else if opcode =? CTX_ARB then next_context
  else if opcode =? CSR then interpret_csr_instruction (csr_inst inst)
  else mret tt.

(** ** The interpreter loop *)

(** One look of [thread_ready_to_run] at the current context. *)
Definition current_ready : micro_prog bool :=
  s ← gets (fun s => s);
  get_or OutOfBounds (znth (m_ctx_ready s) (m_current_ctx s)).

(** The loop ends when the current context is ready; the sleep after each round
    is left out. *)
Definition thread_ready_to_run (fuel : nat) : micro_prog unit :=
  loop fuel (fun _ : unit =>
    r ← current_ready;
    if (r : bool) then mret (inr tt) else next_context;; mret (inl tt)) tt.

(** What follows in one round of [interpreter_loop]. *)
Definition execute_next : micro_prog unit :=
  s ← gets (fun s => s);
  current_pc ← get_or OutOfBounds (znth (m_pc_ctx s) (m_current_ctx s));
  modify (fun s => s <| m_pc_ctx ::= <[Z.to_nat (m_current_ctx s) := u32 (current_pc + 1)]> |>);;
  if m_code_len s <=? current_pc then modify (fun s => s <| m_done := 1 |>) else
  inst ← get_or OutOfBounds (znth (m_code s) current_pc);
  interpret_instruction inst.

Definition interpreter_loop (fuel : nat) : micro_prog unit :=
  loop fuel (fun _ : unit =>
    s ← gets (fun s => s);
    if negb (m_done s =? 0) then mret (inr tt) else
    thread_ready_to_run fuel;;
    execute_next;;
    mret (inl tt)) tt.

(** ** Memory controllers *)

Definition wake (cb : option Z) (s : micro) : micro :=
  match cb with Some ctx => set_ready ctx true s | None => s end.

(** The body of the transfer loops of [handle_ram] and [handle_scratch]. *)
Definition transfer_word (b : bank) (job : memory_job) (i : Z) : micro_prog unit :=
  let a := u32 (mj_mem_offset job + i) in
  if mj_direction job =? WRITE then
    v ← reg (mj_start_reg job + i);
    mem_write b a v
  else if mj_direction job =? READ then
    v ← mem_read b a;
    set_reg (mj_start_reg job + i) v
  else mret tt.

(** A whole job, without interleaving. *)
Definition run_job (b : bank) (job : memory_job) : micro_prog unit :=
  for_each (seq 0 (Z.to_nat (mj_count job))) (fun i => transfer_word b job i);;
  modify (wake (mj_callback job)).

Definition handle_memory (fuel : nat) (b : bank) : micro_prog unit :=
  loop fuel (fun _ : unit =>
    s ← gets (fun s => s);
    match queue_of b s with
    | [] => mret (inr tt)                 (* [get] waits *)
    | job :: q => modify (set_queue b q);; run_job b job;; mret (inl tt)
    end) tt.

(** ** Creation *)

Fixpoint code_words (n : nat) (bs : bytes) : list Z :=
  match n with
  | O => []
  | S n => le_val (take 5 bs) :: code_words n (drop 5 bs)
  end.

Fixpoint put_words (a : Z) (l : list Z) (m : gmap Z Z) : gmap Z Z :=
  match l with
  | [] => m
  | x :: l => put_words (a + 1) l (<[a := x]> m)
  end.

(** The constructor: [None] for the exception.  [stale] is what the memory of
    the code array held before, [last_alu] that of [m_last_alu], [mac] that of
    [m_mac]: none of them is initialised. *)
Definition make_microengine (stale : bytes) (last_alu : Z) (mac : bytes) (code : bytes)
    (code_len : Z) (ram : gmap Z Z) : option micro :=
  if sizeof_m_code <? code_len then None else
  let code := take (Z.to_nat code_len) code ++ drop (Z.to_nat code_len) stale in
  Some {| m_current_ctx := 0;
          m_pc_ctx := replicate 4 0;
          m_scratch := replicate SCRATCH_WORDS 0;
          m_csr := 0;
          m_registers := replicate 256 0;
          m_code := code_words CODE_SIZE code;
          m_ctx_ready := replicate 4 true;
          m_code_len := code_len;
          m_done := 0;
          m_mac := mac;
          m_carry := 0;
          m_sign := 0;
          m_last_alu := last_alu;
          m_ram := put_words 0x400 crc32_tab ram;
          m_scratch_queue := []; m_ram_queue := [];
          m_tx_queue := []; m_rx_queue := []; m_pkt_in_queue := [] |}.

Definition handle_ram (fuel : nat) : micro_prog unit := handle_memory fuel Ram_mem.
Definition handle_scratch (fuel : nat) : micro_prog unit := handle_memory fuel Scratch_mem.
