(* ===== verification/MicroExec.v ===== *)
(** * MicroExec: what one instruction of the microcode engine does

    The well-formedness of the engine (sizes and widths of all its parts), the
    register windows of the contexts, and for every instruction that it is
    executed without a fault, keeps the engine well formed and issues at most
    one job. *)

From S2P Require Import Prelude Effects Device Micro.

Implicit Types (s : micro) (w : micro_world).

(** ** Well-formedness *)

(** A job that [interpret_memory_instruction] makes. *)
Record wf_job (job : memory_job) : Prop := {
  job_direction : mj_direction job = READ \/ mj_direction job = WRITE;
  job_reg : in_width 8 (mj_start_reg job);
  job_count : in_width 8 (mj_count job);
  job_offset : in_width 32 (mj_mem_offset job);
}.

Definition callback_ok (cb : option Z) : Prop :=
  match cb with Some ctx => 0 <= ctx < NUM_THREADS | None => True end.

(** The jobs in the queues of the memory controllers: the first register is one
    for the direction. *)
Record queued_memory (job : memory_job) : Prop := {
  qm_job : wf_job job;
  qm_class : (if mj_direction job =? READ then is_memory_read_register
              else is_memory_write_register) (mj_start_reg job) = true;
  qm_callback : callback_ok (mj_callback job);
}.

(** The jobs in the queues of the packets. *)
Record queued_fifo (job : fifo_job) : Prop := {
  qf_size : in_width 8 (fj_size job);
  qf_start : in_width 32 (fj_start job);
  qf_callback : callback_ok (fj_callback job);
}.

Record wf_micro (s : micro) : Prop := {
  wf_regs_len : length (m_registers s) = 256%nat;
  wf_regs : Forall (in_width 32) (m_registers s);
  wf_ctx : 0 <= m_current_ctx s < NUM_THREADS;
  wf_pc_len : length (m_pc_ctx s) = 4%nat;
  wf_pc : Forall (in_width 32) (m_pc_ctx s);
  wf_ready_len : length (m_ctx_ready s) = 4%nat;
  wf_scratch_len : length (m_scratch s) = SCRATCH_WORDS;
  wf_scratch : Forall (in_width 32) (m_scratch s);
  wf_ram : map_Forall (fun _ v => in_width 32 v) (m_ram s);
  wf_code_len : length (m_code s) = CODE_SIZE;
  wf_flags : in_width 1 (m_carry s) /\ in_width 1 (m_sign s);
  wf_last_alu : in_width 32 (m_last_alu s);
  wf_csr : in_width 32 (m_csr s);
  wf_mac : length (m_mac s) = 6%nat;
  wf_scratch_queue : Forall queued_memory (m_scratch_queue s);
  wf_ram_queue : Forall queued_memory (m_ram_queue s);
  wf_tx_queue : Forall queued_fifo (m_tx_queue s);
  wf_rx_queue : Forall queued_fifo (m_rx_queue s);
  wf_pkt_in_queue : Forall queued_fifo (m_pkt_in_queue s);
}.

(** ** Jobs that will wake a context *)

Definition pending (s : micro) : list (option Z) :=
  (mj_callback <$> m_scratch_queue s) ++ (mj_callback <$> m_ram_queue s) ++
  (fj_callback <$> m_tx_queue s) ++ (fj_callback <$> m_rx_queue s) ++
  (fj_callback <$> m_pkt_in_queue s).

(** What an instruction does to the jobs and the sleeping contexts: nothing, or
    it issues one job and sleeps when the job has a callback for it. *)
Definition issues (s s' : micro) : Prop :=
  (pending s' = pending s /\ m_ctx_ready s' = m_ctx_ready s) \/
  exists cb, pending s' ≡ₚ cb :: pending s /\ (cb = None \/ cb = Some (m_current_ctx s)) /\
    m_ctx_ready s' = match cb with
                     | Some ctx => <[Z.to_nat ctx := false]> (m_ctx_ready s)
                     | None => m_ctx_ready s
                     end.

(** ** Register windows *)

Lemma absolute_register_range ctx t r :
  in_width 8 r -> in_width 8 (absolute_register ctx t r).
Proof.
  intros Hr. unfold absolute_register.
  repeat case_match; try done; apply wrap_range; lia.
Qed.

(** ** Access to registers *)

Lemma lookup_reg s k :
  wf_micro s -> in_width 8 k ->
  exists v, znth (m_registers s) k = Some v /\ in_width 32 v.
Proof.
  intros Hwf Hk. destruct (znth_is_Some (m_registers s) k) as [v Hv].
  { rewrite (wf_regs_len s Hwf). unfold in_width in Hk. simpl in *. lia. }
  exists v. split; [done|]. unfold znth in Hv. destruct (k <? 0); [done|].
  exact (proj1 (Forall_lookup _ _) (wf_regs s Hwf) _ _ Hv).
Qed.

(** The value of register [k]. *)
Definition reg_at (s : micro) (k : Z) : Z := default 0 (znth (m_registers s) k).

Lemma reg_at_range s k : wf_micro s -> in_width 8 k -> in_width 32 (reg_at s k).
Proof. intros Hwf Hk. destruct (lookup_reg s k Hwf Hk) as (v & Hv & ?). unfold reg_at. by rewrite Hv. Qed.

Definition upd_reg (k v : Z) (s : micro) : micro :=
  s <| m_registers ::= <[Z.to_nat k := v]> |>.

Lemma wp_reg k (Q : Z -> micro_world -> Prop) w :
  wf_micro (w_st w) -> in_width 8 k -> Q (reg_at (w_st w) k) w -> wp (reg k) Q w.
Proof.
  intros Hwf Hk HQ. destruct (lookup_reg _ k Hwf Hk) as (v & Hv & _).
  unfold reg. wp_go. eapply wp_get_or; [exact Hv|]. unfold reg_at in HQ. by rewrite Hv in HQ.
Qed.

Lemma wp_set_reg k v (Q : unit -> micro_world -> Prop) w :
  wf_micro (w_st w) -> in_width 8 k -> Q tt (w <| w_st ::= upd_reg k v |>) -> wp (set_reg k v) Q w.
Proof.
  intros Hwf Hk HQ. destruct (lookup_reg _ k Hwf Hk) as (v0 & Hv & _).
  unfold set_reg. wp_go. eapply wp_get_or; [exact Hv|]. by apply wp_modify.
Qed.

Lemma wf_upd_reg k v s : wf_micro s -> in_width 32 v -> wf_micro (upd_reg k v s).
Proof.
  intros [] Hv. constructor; try done; simpl; unfold set_field.
  - by rewrite length_insert.
  - by apply Forall_insert.
Qed.

(** Registers are read back as written. *)
Lemma reg_at_upd s k v j :
  wf_micro s -> in_width 8 k -> in_width 8 j ->
  reg_at (upd_reg k v s) j = if decide (j = k) then v else reg_at s j.
Proof.
  intros Hwf Hk Hj. unfold reg_at, znth, upd_reg, set_field, in_width in *; simpl in *.
  rewrite !(proj2 (Z.ltb_ge j 0)) by lia. case_decide as E.
  - subst. rewrite list_lookup_insert_eq; [done|]. rewrite (wf_regs_len s Hwf). lia.
  - rewrite list_lookup_insert_ne; [done|]. lia.
Qed.

Lemma issues_same s s' :
  pending s' = pending s -> m_ctx_ready s' = m_ctx_ready s -> issues s s'.
Proof. intros. by left. Qed.

(** The register that an operand names in the current context. *)
Definition operand (s : micro) (t r : Z) : Z := absolute_register (m_current_ctx s) t r.

Lemma wp_abs_reg t r (Q : Z -> micro_world -> Prop) w :
  Q (operand (w_st w) t r) w -> wp (abs_reg t r) Q w.
Proof. done. Qed.

Create HintDb micro.
#[export] Hint Extern 1 (in_width 8 (operand _ _ _)) =>
  apply absolute_register_range, (bits_range _ _ 8); lia : micro.

Ltac micro_step :=
  lazymatch goal with
  | |- wp (abs_reg _ _ ≫= _) _ _ => apply wp_bind, wp_abs_reg; cbv beta
  | |- wp (reg _ ≫= _) _ _ =>
      apply wp_bind, wp_reg; [assumption|solve [auto with micro]|]; cbv beta
  | |- wp (reg _) _ _ => fail
  | |- wp (set_reg _ _) _ _ => fail
  | |- _ => wp_step
  end.
Ltac micro_go := repeat micro_step.

(** ** Every instruction *)

(** Whether the source gives an instruction word a meaning in [s]: all but ALU
    instructions with a shift by 32 or more, or with the unused operation. *)
Definition well_defined (x : Z) (s : micro) : bool :=
  let i := alu_inst x in
  if (inst_opcode x =? ALU) || (inst_opcode x =? ALU_SHF) then
    bool_decide (is_Some (alu_result (alu_type i)
      (reg_at s (operand s (alu_src_1_type i) (alu_src_1 i)))
      (reg_at s (operand s (alu_src_2_type i) (alu_src_2 i))) (m_carry s) (m_sign s)))
  else true.

(** The state after an ALU instruction with this 64-bit result. *)
Definition alu_done (x result : Z) (s : micro) : micro :=
  let i := alu_inst x in
  let v := u32 (alu_shifted (alu_opcode i) (alu_shift i) (alu_num_shift i) result) in
  (upd_reg (operand s (alu_dst_type i) (alu_dst i)) v
     (s <| m_carry := bits result 32 1 |> <| m_sign := bits result 31 1 |>)) <| m_last_alu := v |>.

Lemma wf_alu_done x result s : wf_micro s -> wf_micro (alu_done x result s).
Proof.
  intros Hwf. unfold alu_done. cbv zeta. set (v := u32 _).
  assert (in_width 32 v) as Hv by (apply wrap_range; lia).
  assert (wf_micro (s <| m_carry := bits result 32 1 |> <| m_sign := bits result 31 1 |>)) as H1.
  { destruct Hwf. constructor; try done. split; apply (bits_range _ _ 1); lia. }
  destruct (wf_upd_reg (operand s (alu_dst_type (alu_inst x)) (alu_dst (alu_inst x))) v _ H1 Hv).
  by constructor.
Qed.

Lemma alu_exec x result (Q : unit -> micro_world -> Prop) w :
  let i := alu_inst x in let s := w_st w in
  wf_micro s -> (alu_opcode i =? ALU) || (alu_opcode i =? ALU_SHF) = true ->
  alu_result (alu_type i) (reg_at s (operand s (alu_src_1_type i) (alu_src_1 i)))
    (reg_at s (operand s (alu_src_2_type i) (alu_src_2 i))) (m_carry s) (m_sign s) = Some result ->
  Q tt (w <| w_st := alu_done x result s |>) -> wp (interpret_alu_instruction i) Q w.
Proof.
  intros i s Hwf Hop Hres HQ. subst i s. unfold interpret_alu_instruction. micro_go. rewrite Hop.
  micro_go. eapply wp_get_or; [exact Hres|]. wp_go. apply wp_set_reg.
  - destruct Hwf. constructor; try done. split; apply (bits_range _ _ 1); lia.
  - auto with micro.
  - wp_go. exact HQ.
Qed.

Lemma perform_rot_range v rot : in_width 32 v -> in_width 32 (perform_rot v rot).
Proof. intros. unfold perform_rot. repeat case_match; try done; apply wrap_range; lia. Qed.

Lemma in_width_land a x y : 0 <= a -> in_width a x -> in_width a (Z.land x y).
Proof.
  intros Ha Hx. apply in_width_bits; [done|apply Z.land_nonneg; unfold in_width in Hx; lia|].
  intros i Hi. by rewrite Z.land_spec, (in_width_testbit a x).
Qed.

Lemma in_width_lxor a x y : 0 <= a -> in_width a x -> in_width a y -> in_width a (Z.lxor x y).
Proof.
  intros Ha Hx Hy. apply in_width_bits; [done|apply Z.lxor_nonneg; unfold in_width in *; lia|].
  intros i Hi. by rewrite Z.lxor_spec, (in_width_testbit a x), (in_width_testbit a y).
Qed.

Lemma immediate_value_range x orig v :
  immediate_value (immediate_inst x) orig = Some v -> in_width 32 v.
Proof.
  unfold immediate_value. intros H.
  assert (in_width 32 (imm_ival (immediate_inst x))) as Hi
    by (eapply (in_width_mono 16); [lia|]; apply (bits_range _ _ 16); lia).
  repeat case_match; try done; injection H as <-;
    try (apply wrap_range; lia); by apply perform_rot_range.
Qed.

Lemma immediate_exec x v (Q : unit -> micro_world -> Prop) w :
  let i := immediate_inst x in let s := w_st w in
  let dst := operand s (imm_dst_type i) (imm_dst i) in
  wf_micro s -> immediate_value i (reg_at s dst) = Some v ->
  Q tt (w <| w_st ::= upd_reg dst v |>) -> wp (interpret_immediate_instruction i) Q w.
Proof.
  intros i s dst Hwf Hv HQ. subst i s dst. unfold interpret_immediate_instruction. micro_go.
  rewrite Hv. apply wp_set_reg; [done|auto with micro|done].
Qed.

(** ** Loads of bytes *)

Definition load_value (i : load_i) (orig val : Z) : Z :=
  let bitmask := bytemask_to_bitmask (ld_mask i) in
  Z.lxor (Z.land orig (u32 (Z.lnot bitmask))) (Z.land (perform_rot val (ld_rot i)) bitmask).

Lemma bytemask_range m : in_width 32 (bytemask_to_bitmask m).
Proof.
  unfold bytemask_to_bitmask. simpl.
  assert (forall b z, in_width 32 z -> in_width 32
    (if (b : bool) then Z.shiftr z 8 else Z.lxor (Z.shiftr z 8) 0xff000000)) as Hstep.
  { intros b z Hz. assert (in_width 32 (Z.shiftr z 8)) as Hs.
    { unfold in_width in *. rewrite Z.shiftr_div_pow2 by lia. split; [apply Z.div_pos; lia|].
      apply Z.div_lt_upper_bound; lia. }
    destruct b; [done|]. apply in_width_lxor; [lia|done|]. unfold in_width. lia. }
  repeat apply Hstep. unfold in_width. lia.
Qed.

Lemma load_value_range i orig val : in_width 32 orig -> in_width 32 val -> in_width 32 (load_value i orig val).
Proof.
  intros Ho Hv. unfold load_value. cbv zeta.
  apply in_width_lxor; [lia|..]; apply in_width_land; try lia; [done|by apply perform_rot_range].
Qed.

(** The state after a load. *)
Definition load_done (x : Z) (s : micro) : micro :=
  let i := load_inst x in
  let dst := operand s (ld_dst_type i) (ld_dst i) in
  let src := operand s (ld_src_type i) (ld_src i) in
  let s' := if ld_opcode i =? LD_FIELD_W_CLR then upd_reg dst 0 s else s in
  upd_reg dst (load_value i (reg_at s' dst) (reg_at s' src)) s'.

Lemma load_exec x (Q : unit -> micro_world -> Prop) w :
  let i := load_inst x in
  wf_micro (w_st w) -> (ld_opcode i =? LD_FIELD) || (ld_opcode i =? LD_FIELD_W_CLR) = true ->
  Q tt (w <| w_st ::= load_done x |>) -> wp (interpret_load_instruction i) Q w.
Proof.
  intros i Hwf Hop HQ. subst i. unfold interpret_load_instruction. micro_go. rewrite Hop. micro_go.
  unfold load_done in HQ. cbv zeta in HQ. destruct (ld_opcode (load_inst x) =? LD_FIELD_W_CLR).
  - apply wp_set_reg; [done|auto with micro|].
    assert (wf_micro (w_st (w <| w_st ::= upd_reg (operand (w_st w) (ld_dst_type (load_inst x))
      (ld_dst (load_inst x))) 0 |>))) as Hwf' by (apply wf_upd_reg; [done|unfold in_width; lia]).
    micro_go. apply wp_set_reg; [done|auto with micro|done].
  - micro_go. apply wp_set_reg; [done|auto with micro|done].
Qed.

Lemma wf_load_done x s : wf_micro s -> wf_micro (load_done x s).
Proof.
  intros Hwf. unfold load_done. cbv zeta. set (s' := (if ld_opcode _ =? _ then _ else s) : micro).
  assert (wf_micro s') as Hwf' by (unfold s'; case_match; [apply wf_upd_reg; [done|unfold in_width; lia]|done]).
  apply wf_upd_reg; [done|]. apply load_value_range; apply reg_at_range; auto with micro.
Qed.

(** ** Control registers and branches *)

Lemma csr_exec x (Q : unit -> micro_world -> Prop) w :
  let i := csr_inst x in let dst := operand (w_st w) (csr_dst_type i) (csr_dst i) in
  wf_micro (w_st w) ->
  (forall v, in_width 32 v -> Q tt (w <| w_st ::= upd_reg dst v |>)) ->
  wp (interpret_csr_instruction i) Q w.
Proof.
  intros i dst Hwf HQ. subst i dst. unfold interpret_csr_instruction. micro_go.
  apply wp_set_reg; [done|auto with micro|]. apply HQ.
  assert (forall (n : nat) bs, (n <= 4)%nat -> in_width 32 (le_val (take n bs))) as Hle.
  { intros n bs Hn. eapply (in_width_mono (8 * length (take n bs))); [rewrite length_take; lia|].
    apply le_val_range. }
  repeat case_match; try (apply Hle; lia); [apply (wf_csr _ Hwf)|].
  apply reg_at_range; auto with micro.
Qed.

Lemma branch_exec x (Q : unit -> micro_world -> Prop) w :
  let i := branch_inst x in let s := w_st w in
  wf_micro s ->
  Q tt (if branch_taken (br_opcode i) (reg_at s (operand s (br_src_1_type i) (br_src_1 i)))
             (reg_at s (operand s (br_src_2_type i) (br_src_2 i))) (m_current_ctx s)
        then w <| w_st ::= fun s => s <| m_pc_ctx ::= <[Z.to_nat (m_current_ctx s) := br_target i]> |> |>
        else w) ->
  wp (interpret_branch_instruction i) Q w.
Proof.
  intros i s Hwf HQ. subst i s. unfold interpret_branch_instruction. micro_go.
  by case_match; wp_go.
Qed.

Lemma wf_set_pc ctx v s : wf_micro s -> in_width 32 v -> wf_micro (s <| m_pc_ctx ::= <[ctx := v]> |>).
Proof.
  intros [] Hv. constructor; try done; simpl; unfold set_field.
  - by rewrite length_insert.
  - by apply Forall_insert.
Qed.

(** ** Jobs *)

Lemma next_ctx_range c : 0 <= (c + 1) mod NUM_THREADS < NUM_THREADS.
Proof. apply Z.mod_pos_bound. unfold NUM_THREADS. lia. Qed.

Lemma wf_set_ready ctx b s : wf_micro s -> wf_micro (set_ready ctx b s).
Proof. intros []. constructor; try done; simpl; unfold set_field. by rewrite length_insert. Qed.

Lemma wf_next_context s :
  wf_micro s -> wf_micro (s <| m_current_ctx ::= fun c => (c + 1) mod NUM_THREADS |>).
Proof. intros []. constructor; try done. apply next_ctx_range. Qed.

(** Sleeping and going on to the next context, around the queueing of a job. *)
Definition around (swap : bool) (enqueue : micro -> micro) (s : micro) : micro :=
  if swap then (enqueue (set_ready (m_current_ctx s) false s))
                 <| m_current_ctx ::= fun c => (c + 1) mod NUM_THREADS |>
  else enqueue s.

(** A change of the queues only, by one job with this callback. *)
Record enqueues (cb : option Z) (f : micro -> micro) : Prop := {
  enq_wf : forall s, wf_micro s -> wf_micro (f s);
  enq_pending : forall s, pending (f s) ≡ₚ cb :: pending s;
  enq_ready : forall s, m_ctx_ready (f s) = m_ctx_ready s;
}.

Lemma around_issues (swap : bool) f s :
  enqueues (if swap then Some (m_current_ctx s) else None) f -> wf_micro s ->
  wf_micro (around swap f s) /\ issues s (around swap f s).
Proof.
  intros [Hw Hp Hr] Hwf. unfold around. destruct swap; split.
  - by apply wf_next_context, Hw, wf_set_ready.
  - right. exists (Some (m_current_ctx s)).
    split; [exact (Hp (set_ready (m_current_ctx s) false s))|]. split; [by right|].
    exact (Hr (set_ready (m_current_ctx s) false s)).
  - by apply Hw.
  - right. exists None. split; [exact (Hp _)|]. split; [by left|]. exact (Hr _).
Qed.

Definition put_memory (b : bank) (job : memory_job) (s : micro) : micro :=
  match b with
  | Scratch_mem => s <| m_scratch_queue ::= fun q => q ++ [job] |>
  | Ram_mem => s <| m_ram_queue ::= fun q => q ++ [job] |>
  end.

Lemma put_memory_enqueues b job :
  queued_memory job -> enqueues (mj_callback job) (put_memory b job).
Proof.
  intros Hj. constructor; destruct b; intros s; try done.
  1, 2: intros []; constructor; try done; simpl; unfold set_field; apply Forall_app; auto.
  all: unfold pending; simpl; unfold set_field; rewrite fmap_app; simpl; solve_Permutation.
Qed.

Definition put_fifo (op : Z) (job : fifo_job) (s : micro) : micro :=
  if op =? T_FIFO_WR then s <| m_tx_queue ::= fun q => q ++ [job] |>
  else if op =? R_FIFO_RD then s <| m_rx_queue ::= fun q => q ++ [job] |>
  else s <| m_pkt_in_queue ::= fun q => q ++ [job] |>.

Lemma put_fifo_enqueues op job :
  queued_fifo job -> enqueues (fj_callback job) (put_fifo op job).
Proof.
  intros Hj. constructor; unfold put_fifo; intros s; repeat case_match; try done.
  1, 2, 3: intros []; constructor; try done; simpl; unfold set_field; apply Forall_app; auto.
  all: unfold pending; simpl; unfold set_field; rewrite fmap_app; simpl; solve_Permutation.
Qed.

(** The job of a memory instruction, when its register is one for the
    direction. *)
Definition memory_request (i : memory) (s : micro) : option memory_job :=
  let x := operand s (mem_xfer_reg_type i) (mem_xfer_reg i) in
  if ((mem_direction i =? READ) && negb (is_memory_read_register x)) ||
     ((mem_direction i =? WRITE) && negb (is_memory_write_register x))
  then None
  else Some (MemoryJob (mem_direction i)
    (u32 (reg_at s (operand s (mem_addr_1_type i) (mem_addr_1 i)) +
          reg_at s (operand s (mem_addr_2_type i) (mem_addr_2 i))))
    x (if mem_count i =? 0 then u8 (m_last_alu s) else mem_count i)
    (if mem_token i =? CTX_SWAP then Some (m_current_ctx s) else None)).

Lemma memory_request_callback i s job :
  memory_request i s = Some job ->
  mj_callback job = if mem_token i =? CTX_SWAP then Some (m_current_ctx s) else None.
Proof. unfold memory_request. case_match; [done|]. by intros [= <-]. Qed.

(** What the instruction queues is a job as the controllers expect it. *)
Lemma memory_request_ok x s job :
  wf_micro s -> memory_request (memory_inst x) s = Some job -> queued_memory job.
Proof.
  intros Hwf. unfold memory_request. cbv zeta. destruct (_ || _) eqn:E; [done|].
  intros H. apply (inj Some) in H. subst job.
  assert (in_width 8 (operand s (mem_xfer_reg_type (memory_inst x)) (mem_xfer_reg (memory_inst x)))) as Hk
    by auto with micro.
  assert (in_width 1 (mem_direction (memory_inst x))) as Hd by (apply (bits_range x 6 1); lia).
  assert (in_width 4 (mem_count (memory_inst x))) as Hc by (apply (bits_range x 34 4); lia).
  revert E Hk Hd Hc. generalize (memory_inst x). intros i E Hk Hd Hc.
  apply orb_false_iff in E as [E1 E2].
  assert (mem_direction i = READ \/ mem_direction i = WRITE) as Hdir
    by (unfold in_width in Hd; unfold READ, WRITE; lia).
  constructor; cbn [mj_direction mj_mem_offset mj_start_reg mj_count mj_callback].
  - constructor; cbn [mj_direction mj_mem_offset mj_start_reg mj_count]; [done|done| |apply wrap_range; lia].
    case_match; [apply wrap_range; lia|]. by apply (in_width_mono 4); [lia|].
  - destruct Hdir as [Hi|Hi]; rewrite Hi in *; by apply negb_false_iff.
  - case_match; [apply (wf_ctx _ Hwf)|done].
Qed.

Definition memory_bank (i : memory) : bank := if mem_opcode i =? SCRATCH then Scratch_mem else Ram_mem.

Lemma memory_exec x (Q : unit -> micro_world -> Prop) w :
  let i := memory_inst x in
  wf_micro (w_st w) -> (mem_opcode i =? SCRATCH) || (mem_opcode i =? RAM) = true ->
  Q tt (match memory_request i (w_st w) with
        | Some job => w <| w_st ::= around (mem_token i =? CTX_SWAP) (put_memory (memory_bank i) job) |>
        | None => w
        end) ->
  wp (interpret_memory_instruction i) Q w.
Proof.
  intros i Hwf Hop HQ. subst i. unfold interpret_memory_instruction. micro_go.
  unfold memory_request in HQ. cbv zeta in HQ.
  destruct ((_ && _) || (_ && _)) eqn:E in HQ; rewrite E; micro_go; [exact HQ|].
  unfold memory_bank in HQ. apply orb_true_iff in Hop.
  destruct (mem_token (memory_inst x) =? CTX_SWAP), (mem_opcode (memory_inst x) =? SCRATCH);
    wp_go; try exact HQ; (destruct Hop as [|Hop]; [done|]); rewrite Hop; wp_go; exact HQ.
Qed.

Definition fifo_request (i : fifo) (s : micro) : fifo_job :=
  FifoJob (operand s (ff_size_type i) (ff_size i))
    (u32 (reg_at s (operand s (ff_addr_1_type i) (ff_addr_1 i)) +
          reg_at s (operand s (ff_addr_2_type i) (ff_addr_2 i))))
    (if ff_token i =? CTX_SWAP then Some (m_current_ctx s) else None).

Lemma fifo_request_ok x s : wf_micro s -> queued_fifo (fifo_request (fifo_inst x) s).
Proof.
  intros Hwf. constructor; unfold fifo_request; cbn [fj_size fj_start fj_callback];
    [auto with micro|apply wrap_range; lia|].
  case_match; [apply (wf_ctx _ Hwf)|done].
Qed.

Lemma fifo_exec x (Q : unit -> micro_world -> Prop) w :
  let i := fifo_inst x in
  wf_micro (w_st w) ->
  (ff_opcode i =? T_FIFO_WR) || (ff_opcode i =? R_FIFO_RD) || (ff_opcode i =? RX_PKT) = true ->
  Q tt (w <| w_st ::= around (ff_token i =? CTX_SWAP)
                        (put_fifo (ff_opcode i) (fifo_request i (w_st w))) |>) ->
  wp (interpret_fifo_instruction i) Q w.
Proof.
  intros i Hwf Hop HQ. subst i. unfold interpret_fifo_instruction.
  assert (forall ctx, wf_micro (set_ready ctx false (w_st w))) as Hsleep by (intros; by apply wf_set_ready).
  micro_go. unfold fifo_request, put_fifo in HQ.
  destruct (ff_token (fifo_inst x) =? CTX_SWAP); wp_go.
  all: eapply wp_bind, wp_reg; [done || apply Hsleep|auto with micro|].
  all: eapply wp_bind, wp_reg; [done || apply Hsleep|auto with micro|].
  all: destruct (ff_opcode (fifo_inst x) =? T_FIFO_WR); wp_go; try exact HQ.
  all: destruct (ff_opcode (fifo_inst x) =? R_FIFO_RD); wp_go; try exact HQ.
  all: cbn [orb] in Hop; rewrite Hop; wp_go; exact HQ.
Qed.

(** ** The whole instruction set *)

(** The register that an instruction changes, if any. *)
Definition destination (x : Z) (s : micro) : option Z :=
  let op := inst_opcode x in
  if (op =? ALU) || (op =? ALU_SHF) then
    Some (operand s (alu_dst_type (alu_inst x)) (alu_dst (alu_inst x)))
  else if (IMMED <=? op) && (op <=? IMMED_W1) then
    Some (operand s (imm_dst_type (immediate_inst x)) (imm_dst (immediate_inst x)))
  else if (op =? LD_FIELD) || (op =? LD_FIELD_W_CLR) then
    Some (operand s (ld_dst_type (load_inst x)) (ld_dst (load_inst x)))
  else if op =? CSR then Some (operand s (csr_dst_type (csr_inst x)) (csr_dst (csr_inst x)))
  else None.

Definition changes_only (dst : option Z) (s s' : micro) : Prop :=
  forall j, in_width 8 j -> dst <> Some j -> reg_at s' j = reg_at s j.

Lemma changes_none dst s s' : m_registers s' = m_registers s -> changes_only dst s s'.
Proof. intros H j _ _. unfold reg_at. by rewrite H. Qed.

Lemma changes_upd k v s : wf_micro s -> in_width 8 k -> changes_only (Some k) s (upd_reg k v s).
Proof. intros Hwf Hk j Hj Hne. rewrite reg_at_upd by done. case_decide; [by subst|done]. Qed.

Lemma changes_trans dst s1 s2 s3 :
  changes_only dst s1 s2 -> changes_only dst s2 s3 -> changes_only dst s1 s3.
Proof. intros H1 H2 j Hj Hne. by rewrite H2, H1. Qed.

(** What every instruction keeps: the engine is well formed, a job is issued for
    every context that goes to sleep, and only the destination changes. *)
Definition kept (x : Z) (s : micro) (u : unit) (w : micro_world) : Prop :=
  wf_micro (w_st w) /\ issues s (w_st w) /\ changes_only (destination x s) s (w_st w).

Lemma kept_reg x k v w :
  wf_micro (w_st w) -> in_width 8 k -> in_width 32 v -> destination x (w_st w) = Some k ->
  kept x (w_st w) tt (w <| w_st ::= upd_reg k v |>).
Proof.
  intros ? ? ? Hd. split_and!; [by apply wf_upd_reg|by apply issues_same|].
  rewrite Hd. by apply changes_upd.
Qed.

Lemma kept_same x w : wf_micro (w_st w) -> kept x (w_st w) tt w.
Proof. intros. split_and!; [done|by apply issues_same|by apply changes_none]. Qed.

Lemma kept_issue (x : Z) swap f w :
  enqueues (if (swap : bool) then Some (m_current_ctx (w_st w)) else None) f -> wf_micro (w_st w) ->
  (forall s, m_registers (f s) = m_registers s) ->
  kept x (w_st w) tt (w <| w_st ::= around swap f |>).
Proof.
  intros Hf Hwf Hr. destruct (around_issues swap f (w_st w) Hf Hwf). split_and!; [done..|].
  apply changes_none. unfold around; simpl; unfold set_field.
  destruct swap; simpl; unfold set_field; by rewrite Hr.
Qed.

Lemma put_memory_regs b job s : m_registers (put_memory b job s) = m_registers s.
Proof. by destruct b. Qed.
Lemma put_fifo_regs op job s : m_registers (put_fifo op job s) = m_registers s.
Proof. unfold put_fifo. by repeat case_match. Qed.

Lemma changes_load x s : wf_micro s ->
  changes_only (Some (operand s (ld_dst_type (load_inst x)) (ld_dst (load_inst x)))) s (load_done x s).
Proof.
  intros Hwf. unfold load_done. cbv zeta.
  set (s' := (if ld_opcode _ =? _ then _ else s) : micro).
  assert (wf_micro s' /\ changes_only (Some (operand s (ld_dst_type (load_inst x)) (ld_dst (load_inst x)))) s s')
    as [Hwf' Hc].
  { unfold s'. case_match; [|split; [done|by apply changes_none]].
    split; [apply wf_upd_reg; [done|unfold in_width; lia]|]. apply changes_upd; auto with micro. }
  eapply changes_trans; [exact Hc|]. apply changes_upd; auto with micro.
Qed.

Lemma exec_alu x w :
  wf_micro (w_st w) -> well_defined x (w_st w) = true ->
  wp (interpret_alu_instruction (alu_inst x)) (kept x (w_st w)) w.
Proof.
  intros Hwf Hdef.
  unfold well_defined in Hdef. destruct ((inst_opcode x =? ALU) || (inst_opcode x =? ALU_SHF)) eqn:E.
  - apply bool_decide_eq_true in Hdef as [result Hres].
    apply (alu_exec x result); [done..|]. split_and!; [by apply wf_alu_done|by apply issues_same|].
    unfold destination. cbv zeta. rewrite E. unfold alu_done. cbv zeta. simpl.
    intros j Hj Hne. unfold reg_at. simpl. eapply (changes_upd _ _ (w_st w)); [done|auto with micro|done|done].
  - unfold interpret_alu_instruction. micro_go. change (alu_opcode (alu_inst x)) with (inst_opcode x).
    rewrite E. wp_go. by apply kept_same.
Qed.

Lemma exec_immediate x w :
  wf_micro (w_st w) -> (IMMED <=? inst_opcode x) && (inst_opcode x <=? IMMED_W1) = true ->
  wp (interpret_immediate_instruction (immediate_inst x)) (kept x (w_st w)) w.
Proof.
  intros Hwf Hop.
  destruct (immediate_value (immediate_inst x) (reg_at (w_st w) (operand (w_st w)
    (imm_dst_type (immediate_inst x)) (imm_dst (immediate_inst x))))) as [v|] eqn:Ev.
  - apply (immediate_exec x v); [done..|].
    apply kept_reg; [done|auto with micro|by eapply immediate_value_range|].
    unfold destination. cbv zeta. rewrite Hop.
    apply andb_true_iff in Hop as [?%Z.leb_le _]. unfold IMMED, ALU, ALU_SHF in *.
    rewrite (proj2 (Z.eqb_neq _ 0)), (proj2 (Z.eqb_neq _ 1)) by lia. done.
  - unfold interpret_immediate_instruction. micro_go. rewrite Ev. wp_go. by apply kept_same.
Qed.

Lemma exec_memory x w :
  wf_micro (w_st w) -> (inst_opcode x =? SCRATCH) || (inst_opcode x =? RAM) = true ->
  wp (interpret_memory_instruction (memory_inst x)) (kept x (w_st w)) w.
Proof.
  intros Hwf Hop. apply (memory_exec x); [done..|].
  destruct (memory_request _ _) as [job|] eqn:Ej; [|by apply kept_same].
  apply kept_issue; [|done|apply put_memory_regs].
  apply memory_request_ok in Ej as Hj; [|done].
  apply memory_request_callback in Ej as <-. by apply put_memory_enqueues.
Qed.

Lemma exec_branch x w :
  wf_micro (w_st w) -> wp (interpret_branch_instruction (branch_inst x)) (kept x (w_st w)) w.
Proof.
  intros Hwf. apply (branch_exec x); [done|]. case_match; [|by apply kept_same].
  split_and!; [|by apply issues_same|by apply changes_none].
  apply wf_set_pc; [done|]. eapply (in_width_mono 12); [lia|]. apply (bits_range _ _ 12). lia.
Qed.

Lemma exec_load x w :
  wf_micro (w_st w) -> (inst_opcode x =? LD_FIELD) || (inst_opcode x =? LD_FIELD_W_CLR) = true ->
  wp (interpret_load_instruction (load_inst x)) (kept x (w_st w)) w.
Proof.
  intros Hwf Hop. apply (load_exec x); [done..|]. split_and!; [by apply wf_load_done|..].
  - apply issues_same; simpl; unfold set_field, load_done; cbv zeta; by case_match.
  - replace (destination x (w_st w)) with
      (Some (operand (w_st w) (ld_dst_type (load_inst x)) (ld_dst (load_inst x)))); [by apply changes_load|].
    apply orb_true_iff in Hop as [Hop|Hop]; apply Z.eqb_eq in Hop; unfold destination; cbv zeta; by rewrite Hop.
Qed.

Lemma exec_fifo x w :
  wf_micro (w_st w) ->
  (inst_opcode x =? T_FIFO_WR) || (inst_opcode x =? R_FIFO_RD) || (inst_opcode x =? RX_PKT) = true ->
  wp (interpret_fifo_instruction (fifo_inst x)) (kept x (w_st w)) w.
Proof.
  intros Hwf Hop. apply (fifo_exec x); [done..|]. apply kept_issue; [|done|apply put_fifo_regs].
  exact (put_fifo_enqueues _ _ (fifo_request_ok x (w_st w) Hwf)).
Qed.

Lemma exec_instruction x w :
  wf_micro (w_st w) -> well_defined x (w_st w) = true ->
  wp (interpret_instruction x) (kept x (w_st w)) w.
Proof.
  intros Hwf Hdef. unfold interpret_instruction. cbv zeta.
  destruct ((ALU <=? inst_opcode x) && (inst_opcode x <=? DBL_SHF)); [by apply exec_alu|].
  destruct ((IMMED <=? inst_opcode x) && (inst_opcode x <=? IMMED_W1)) eqn:E2; [by apply exec_immediate|].
  destruct ((inst_opcode x =? SCRATCH) || (inst_opcode x =? RAM)) eqn:E3; [by apply exec_memory|].
  destruct ((BR <=? inst_opcode x) && (inst_opcode x <=? BR_NOT_SIGNAL)); [by apply exec_branch|].
  destruct ((inst_opcode x =? LD_FIELD) || (inst_opcode x =? LD_FIELD_W_CLR)) eqn:E5; [by apply exec_load|].
  destruct ((inst_opcode x =? T_FIFO_WR) || (inst_opcode x =? R_FIFO_RD) || (inst_opcode x =? RX_PKT)) eqn:E6;
    [by apply exec_fifo|].
  destruct (inst_opcode x =? NOP); [wp_go; by apply kept_same|].
  destruct (inst_opcode x =? CTX_ARB).
  { unfold next_context. wp_go.
    split_and!; [by apply wf_next_context|by apply issues_same|by apply changes_none]. }
  destruct (inst_opcode x =? CSR) eqn:E9; [|wp_go; by apply kept_same].
  apply (csr_exec x); [done|]. intros v Hv. apply kept_reg; [done|auto with micro|done|].
  apply Z.eqb_eq in E9. unfold destination. cbv zeta. by rewrite E9.
Qed.

Lemma undefined_instruction x w :
  wf_micro (w_st w) -> well_defined x (w_st w) = false ->
  interpret_instruction x w = Fault Undefined w.
Proof.
  intros Hwf Hdef. unfold well_defined in Hdef.
  destruct ((inst_opcode x =? ALU) || (inst_opcode x =? ALU_SHF)) eqn:E; [|done].
  apply bool_decide_eq_false in Hdef.
  assert (alu_result (alu_type (alu_inst x))
    (reg_at (w_st w) (operand (w_st w) (alu_src_1_type (alu_inst x)) (alu_src_1 (alu_inst x))))
    (reg_at (w_st w) (operand (w_st w) (alu_src_2_type (alu_inst x)) (alu_src_2 (alu_inst x))))
    (m_carry (w_st w)) (m_sign (w_st w)) = None) as Hnone.
  { destruct (alu_result _ _ _ _ _); [|done]. destruct Hdef. by eexists. }
  unfold interpret_instruction. cbv zeta.
  replace ((ALU <=? inst_opcode x) && (inst_opcode x <=? DBL_SHF)) with true.
  2: { symmetry. apply orb_true_iff in E as [E|E]; apply Z.eqb_eq in E; by rewrite E. }
  destruct (lookup_reg (w_st w) (operand (w_st w) (alu_src_1_type (alu_inst x)) (alu_src_1 (alu_inst x))))
    as (a & Ha & _); [done|auto with micro|].
  destruct (lookup_reg (w_st w) (operand (w_st w) (alu_src_2_type (alu_inst x)) (alu_src_2 (alu_inst x))))
    as (b & Hb & _); [done|auto with micro|].
  unfold reg_at in Hnone. rewrite Ha, Hb in Hnone. cbv [from_option id] in Hnone.
  unfold interpret_alu_instruction, abs_reg, reg, gets, get_or, operand, mbind, prog_bind, mret, prog_ret in *.
  change (alu_opcode (alu_inst x)) with (inst_opcode x). rewrite E. by rewrite Ha, Hb, Hnone.
Qed.
