(* ===== verification/MicroCrc.v ===== *)
(** * MicroCrc: the checksum table

    The table that the constructor of the engine leaves in RAM is compared with
    the definition of CRC-32 by its generator polynomial. *)

From S2P Require Import Prelude Effects Device Micro MicroExec.

Implicit Types (s : micro) (w : micro_world).

(** ** CRC-32 by its polynomial *)

(** Division of a message by the polynomial, least significant bit first. *)
Definition crc_poly := 0xEDB88320.
Definition crc_bit (c : Z) : Z :=
  if Z.testbit c 0 then Z.lxor (Z.shiftr c 1) crc_poly else Z.shiftr c 1.
Definition crc_bits (n : nat) (c : Z) : Z := Nat.iter n crc_bit c.
Definition crc_bitwise (c : Z) (msg : bytes) : Z :=
  foldl (fun c b => crc_bits 8 (Z.lxor c b)) c msg.

(** With the table of an engine, a byte at a time. *)
Definition crc_entry (s : micro) (i : Z) : Z := default 0 (m_ram s !! (0x400 + i)).
Definition crc_tabular (s : micro) (c : Z) (msg : bytes) : Z :=
  foldl (fun c b => Z.lxor (Z.shiftr c 8) (crc_entry s (Z.land (Z.lxor c b) 0xff))) c msg.

Lemma crc_bit_linear x y : crc_bit (Z.lxor x y) = Z.lxor (crc_bit x) (crc_bit y).
Proof.
  unfold crc_bit. rewrite Z.lxor_spec, Z.shiftr_lxor.
  set (a := Z.shiftr x 1). set (b := Z.shiftr y 1).
  destruct (Z.testbit x 0), (Z.testbit y 0); simpl xorb; cbv iota.
  - rewrite (Z.lxor_comm b), Z.lxor_assoc, <- (Z.lxor_assoc crc_poly), Z.lxor_nilpotent. by rewrite Z.lxor_0_l.
  - by rewrite !Z.lxor_assoc, (Z.lxor_comm b).
  - by rewrite Z.lxor_assoc.
  - done.
Qed.

Lemma crc_bits_linear n x y : crc_bits n (Z.lxor x y) = Z.lxor (crc_bits n x) (crc_bits n y).
Proof.
  induction n as [|n IH]; [done|]. change (crc_bit (crc_bits n (Z.lxor x y)) =
    Z.lxor (crc_bit (crc_bits n x)) (crc_bit (crc_bits n y))). by rewrite IH, crc_bit_linear.
Qed.

Lemma crc_bits_S n c : crc_bits (S n) c = crc_bit (crc_bits n c).
Proof. done. Qed.

(** Bits that the division does not reach are only moved. *)
Lemma crc_bits_high (n : nat) c : (forall i, 0 <= i < n -> Z.testbit c i = false) -> crc_bits n c = Z.shiftr c n.
Proof.
  induction n as [|n IH]; intros H; [done|]. rewrite crc_bits_S, IH by (intros; apply H; lia).
  unfold crc_bit. rewrite Z.shiftr_spec, H by lia. rewrite Z.shiftr_shiftr by lia. f_equal. lia.
Qed.

Lemma crc_bits_split c :
  crc_bits 8 c = Z.lxor (Z.shiftr c 8) (crc_bits 8 (Z.land c 0xff)).
Proof.
  assert (c = Z.lxor (Z.ldiff c 0xff) (Z.land c 0xff)) as E.
  { apply Z.bits_inj'. intros i _. rewrite Z.lxor_spec, Z.ldiff_spec, Z.land_spec.
    by destruct (Z.testbit c i), (Z.testbit 0xff i). }
  rewrite E at 1. rewrite crc_bits_linear. f_equal. rewrite crc_bits_high.
  - apply Z.bits_inj'. intros i Hi. rewrite !Z.shiftr_spec, Z.ldiff_spec by lia.
    change 0xff with (Z.ones 8). rewrite (Z.ones_spec_high 8) by lia. by rewrite andb_true_r.
  - intros i Hi. rewrite Z.ldiff_spec. change 0xff with (Z.ones 8).
    rewrite Z.ones_spec_low by lia. by rewrite andb_false_r.
Qed.

Definition crc_reference : list Z := (fun i => crc_bits 8 (Z.of_nat i)) <$> seq 0 256.

Lemma crc32_tab_reference : crc32_tab = crc_reference.
Proof. vm_compute. reflexivity. Qed.

Lemma put_words_lookup l a m i :
  put_words a l m !! i =
  if (a <=? i) && (i <? a + length l) then l !! Z.to_nat (i - a) else m !! i.
Proof.
  revert a m. induction l as [|x l IH]; intros a m; cbn [put_words length].
  - rewrite andb_comm. case_match eqn:E; [|done]. apply andb_true_iff in E as [E1%Z.ltb_lt E2%Z.leb_le]. lia.
  - rewrite IH. destruct (decide (i = a)) as [->|Hne].
    + rewrite (proj2 (Z.leb_gt _ _)) by lia. cbn [andb]. rewrite lookup_insert_eq.
      rewrite (proj2 (Z.leb_le _ _)), (proj2 (Z.ltb_lt _ _)) by lia. cbn [andb].
      by replace (Z.to_nat (a - a)) with 0%nat by lia.
    + rewrite lookup_insert_ne by done.
      replace (a + 1 <=? i) with (a <=? i) by (destruct (Z.leb_spec a i), (Z.leb_spec (a + 1) i); lia).
      replace (a + 1 + length l) with (a + S (length l)) by lia.
      case_match eqn:E; [|done]. apply andb_true_iff in E as [E1%Z.leb_le E2%Z.ltb_lt].
      replace (Z.to_nat (i - a)) with (S (Z.to_nat (i - (a + 1)))) by lia. done.
Qed.

Lemma make_microengine_ram stale last_alu mac code code_len ram s :
  make_microengine stale last_alu mac code code_len ram = Some s ->
  m_ram s = put_words 0x400 crc32_tab ram.
Proof.
  unfold make_microengine. destruct (sizeof_m_code <? code_len); [discriminate|]. intros H.
  apply (inj Some) in H. subst s. reflexivity.
Qed.

Lemma crc_entry_reference stale last_alu mac code code_len ram s i :
  make_microengine stale last_alu mac code code_len ram = Some s -> in_width 8 i ->
  crc_entry s i = crc_bits 8 i.
Proof.
  intros Hs Hi. unfold crc_entry. rewrite (make_microengine_ram _ _ _ _ _ _ _ Hs), put_words_lookup.
  unfold in_width in Hi.
  rewrite (proj2 (Z.leb_le _ _)) by lia.
  rewrite (proj2 (Z.ltb_lt _ _)) by (change (length crc32_tab) with 256%nat; simpl in *; lia). cbn [andb].
  replace (Z.to_nat (0x400 + i - 0x400)) with (Z.to_nat i) by lia.
  rewrite crc32_tab_reference. unfold crc_reference. rewrite list_lookup_fmap, lookup_seq_lt by (simpl in *; lia).
  cbn [fmap option_fmap option_map default from_option id]. f_equal. lia.
Qed.

Lemma crc_tabular_bitwise s c msg :
  is_bytes msg -> (forall i, in_width 8 i -> crc_entry s i = crc_bits 8 i) ->
  crc_tabular s c msg = crc_bitwise c msg.
Proof.
  intros Hmsg Htab. unfold crc_tabular, crc_bitwise. revert c.
  induction Hmsg as [|b msg Hb Hmsg IH]; intros c; [done|].
  cbn [foldl]. rewrite IH. f_equal. rewrite crc_bits_split, Htab by (apply (land_mask_range _ 8); lia).
  f_equal. rewrite Z.shiftr_lxor, (Z.shiftr_div_pow2 b), Z.div_small by (done || lia).
  by rewrite Z.lxor_0_r.
Qed.
