(* ===== verification/MicroMem.v ===== *)
(** * MicroMem: the transfers of the memory controllers

    A job of a memory controller copies words between the registers and a
    memory.  It does so exactly when its registers and its addresses exist;
    otherwise the controller goes out of bounds. *)

From S2P Require Import Prelude Effects Device Micro MicroExec.

Implicit Types (s : micro) (w : micro_world) (b : bank) (job : memory_job).

Definition mem_size b : Z := match b with Scratch_mem => SCRATCH_WORDS | Ram_mem => RAM_WORDS end.

Definition mem_at b s (a : Z) : Z :=
  match b with Scratch_mem => default 0 (znth (m_scratch s) a) | Ram_mem => default 0 (m_ram s !! a) end.

Definition upd_mem b (a v : Z) s : micro :=
  match b with
  | Scratch_mem => s <| m_scratch ::= <[Z.to_nat a := v]> |>
  | Ram_mem => s <| m_ram ::= <[a := v]> |>
  end.

Lemma wp_mem_read b a (Q : Z -> micro_world -> Prop) w :
  wf_micro (w_st w) -> 0 <= a < mem_size b -> Q (mem_at b (w_st w) a) w -> wp (mem_read b a) Q w.
Proof.
  intros Hwf Ha HQ. unfold mem_read. wp_go. destruct b; unfold mem_size, mem_at in *.
  - destruct (znth_is_Some (m_scratch (w_st w)) a) as [v Hv]; [by rewrite wf_scratch_len|].
    eapply wp_get_or; [exact Hv|]. by rewrite Hv in HQ.
  - rewrite (proj2 (Z.leb_le _ _)), (proj2 (Z.ltb_lt _ _)) by lia. by wp_go.
Qed.

Lemma wp_mem_write b a v (Q : unit -> micro_world -> Prop) w :
  wf_micro (w_st w) -> 0 <= a < mem_size b -> Q tt (w <| w_st ::= upd_mem b a v |>) ->
  wp (mem_write b a v) Q w.
Proof.
  intros Hwf Ha HQ. unfold mem_write. apply wp_bind, wp_mem_read; [done..|].
  destruct b; apply wp_modify; exact HQ.
Qed.

Lemma mem_at_range b s a : wf_micro s -> in_width 32 (mem_at b s a).
Proof.
  intros Hwf. unfold mem_at. destruct b.
  - destruct (znth _ a) as [v|] eqn:E; [|unfold in_width; simpl; lia]. simpl. unfold znth in E. case_match; [done|].
    exact (proj1 (Forall_lookup _ _) (wf_scratch s Hwf) _ _ E).
  - destruct (m_ram s !! a) as [v|] eqn:E; [|unfold in_width; simpl; lia]. exact (wf_ram s Hwf _ _ E).
Qed.

Lemma wf_upd_mem b a v s : wf_micro s -> in_width 32 v -> wf_micro (upd_mem b a v s).
Proof.
  intros [] Hv. destruct b; constructor; try done; simpl; unfold set_field.
  - by rewrite length_insert.
  - by apply Forall_insert.
  - by apply map_Forall_insert_2.
Qed.

Lemma mem_at_upd b a v s a' :
  wf_micro s -> 0 <= a < mem_size b -> 0 <= a' ->
  mem_at b (upd_mem b a v s) a' = if decide (a' = a) then v else mem_at b s a'.
Proof.
  intros Hwf Ha Ha'. destruct b; unfold mem_at, upd_mem, mem_size in *; simpl; unfold set_field.
  - unfold znth. rewrite (proj2 (Z.ltb_ge a' 0)) by lia. case_decide as E.
    + subst. rewrite list_lookup_insert_eq; [done|]. rewrite (wf_scratch_len s Hwf). lia.
    + rewrite list_lookup_insert_ne; [done|]. lia.
  - case_decide as E; [subst; by rewrite lookup_insert_eq|by rewrite lookup_insert_ne].
Qed.

(** ** One word *)

Definition move b job (i : nat) s : micro :=
  let a := u32 (mj_mem_offset job + i) in
  if mj_direction job =? WRITE then upd_mem b a (reg_at s (mj_start_reg job + i)) s
  else upd_reg (mj_start_reg job + i) (mem_at b s a) s.

(** The register and the address of word [i] exist. *)
Definition reaches b job (i : nat) : bool :=
  (mj_start_reg job + i <? 256) && (u32 (mj_mem_offset job + i) <? mem_size b).

Lemma reaches_spec b job i :
  wf_job job -> reaches b job i = true ->
  in_width 8 (mj_start_reg job + i) /\ 0 <= u32 (mj_mem_offset job + i) < mem_size b.
Proof.
  intros Hj H. unfold reaches in H. apply andb_true_iff in H as [H1%Z.ltb_lt H2%Z.ltb_lt].
  pose proof (job_reg job Hj). pose proof (wrap_range 32 (mj_mem_offset job + i)).
  unfold in_width in *. simpl in *. lia.
Qed.

Lemma transfer_word_exec b job (i : nat) (Q : unit -> micro_world -> Prop) w :
  wf_micro (w_st w) -> wf_job job -> reaches b job i = true ->
  Q tt (w <| w_st ::= move b job i |>) -> wp (transfer_word b job i) Q w.
Proof.
  intros Hwf Hj Hr HQ. destruct (reaches_spec b job i Hj Hr) as [Hk Ha].
  unfold transfer_word. cbv zeta. unfold move in HQ. cbv zeta in HQ.
  destruct (job_direction job Hj) as [Hd|Hd]; rewrite Hd in *; cbn [READ WRITE Z.eqb Pos.eqb] in *.
  - apply wp_bind, wp_mem_read; [done..|]. by apply wp_set_reg.
  - apply wp_bind, wp_reg; [done..|]. by apply wp_mem_write.
Qed.

Lemma wf_move b job i s : wf_micro s -> wf_job job -> reaches b job i = true -> wf_micro (move b job i s).
Proof.
  intros Hwf Hj Hr. destruct (reaches_spec b job i Hj Hr) as [Hk Ha]. unfold move. cbv zeta. case_match.
  - apply wf_upd_mem; [done|]. by apply reg_at_range.
  - apply wf_upd_reg; [done|]. by apply mem_at_range.
Qed.

Lemma faults_reg k w : wf_micro (w_st w) -> 256 <= k -> faults (reg k) OutOfBounds w.
Proof.
  intros Hwf Hk. unfold reg. apply faults_then. wp_go. apply faults_get_or. unfold znth.
  rewrite (proj2 (Z.ltb_ge _ _)) by lia. apply lookup_ge_None_2. rewrite (wf_regs_len _ Hwf). lia.
Qed.

Lemma faults_set_reg k v w : wf_micro (w_st w) -> 256 <= k -> faults (set_reg k v) OutOfBounds w.
Proof.
  intros Hwf Hk. unfold set_reg. apply faults_then. wp_go. apply faults_first, faults_get_or. unfold znth.
  rewrite (proj2 (Z.ltb_ge _ _)) by lia. apply lookup_ge_None_2. rewrite (wf_regs_len _ Hwf). lia.
Qed.

Lemma faults_mem_read b a w : wf_micro (w_st w) -> mem_size b <= a -> faults (mem_read b a) OutOfBounds w.
Proof.
  intros Hwf Ha. unfold mem_read. apply faults_then. wp_go. destruct b; unfold mem_size in Ha.
  - apply faults_get_or. unfold znth. case_match; [done|]. apply lookup_ge_None_2.
    rewrite (wf_scratch_len _ Hwf). lia.
  - unfold RAM_WORDS in *. rewrite (proj2 (Z.ltb_ge _ _)), andb_false_r by lia. by eexists.
Qed.

Lemma transfer_word_faults b job (i : nat) w :
  wf_micro (w_st w) -> wf_job job -> reaches b job i = false ->
  faults (transfer_word b job i) OutOfBounds w.
Proof.
  intros Hwf Hj Hr. pose proof (job_reg job Hj) as Hk. unfold in_width in Hk.
  pose proof (wrap_range 32 (mj_mem_offset job + i) ltac:(lia)) as [Ha _].
  unfold reaches in Hr. unfold transfer_word. cbv zeta.
  destruct (job_direction job Hj) as [Hd|Hd]; rewrite Hd; cbn [READ WRITE Z.eqb Pos.eqb].
  - destruct (Z.ltb_spec (u32 (mj_mem_offset job + i)) (mem_size b)).
    + rewrite andb_true_r in Hr. apply Z.ltb_ge in Hr.
      apply faults_then, wp_mem_read; [done..|]. by apply faults_set_reg.
    + by apply faults_first, faults_mem_read.
  - destruct (Z.ltb_spec (mj_start_reg job + i) 256).
    + cbn [andb] in Hr. apply Z.ltb_ge in Hr.
      apply faults_then, wp_reg; [done|unfold in_width; simpl; lia|].
      unfold mem_write. by apply faults_first, faults_mem_read.
    + by apply faults_first, faults_reg.
Qed.

(** ** Whole jobs *)

Fixpoint moves b job (n : nat) s : micro :=
  match n with O => s | S n => move b job n (moves b job n s) end.

(** All the words of a job. *)
Definition fits b job : bool :=
  forallb (reaches b job) (seq 0 (Z.to_nat (mj_count job))).

Lemma wf_moves b job n s :
  wf_micro s -> wf_job job -> (forall i, (i < n)%nat -> reaches b job i = true) -> wf_micro (moves b job n s).
Proof.
  intros Hwf Hj. induction n as [|n IH]; intros Hr; [done|]. cbn [moves].
  apply wf_move; [|done|apply Hr; lia]. apply IH. intros. apply Hr. lia.
Qed.

(** The state before word [length pre] of a job. *)
Definition moving b job (w0 : micro_world) (pre : list nat) (w : micro_world) : Prop :=
  wf_micro (w_st w) /\ w = w0 <| w_st ::= moves b job (length pre) |>.

Lemma moving_word b job w0 pre i post n w :
  wf_job job -> seq 0 n = pre ++ i :: post -> (forall i, (i < n)%nat -> reaches b job i = true) ->
  moving b job w0 pre w -> wp (transfer_word b job i) (fun _ => moving b job w0 (pre ++ [i])) w.
Proof.
  intros Hj Hseq Hr [Hwf ->].
  assert (i = length pre /\ (i < n)%nat) as [-> Hi].
  { assert (seq 0 n !! length pre = Some i) as Hl by (rewrite Hseq; by apply list_lookup_middle).
    apply lookup_seq in Hl. lia. }
  apply transfer_word_exec; [done|done|by apply Hr|]. split.
  - apply wf_move; [done|done|by apply Hr].
  - rewrite length_app. simpl length. by rewrite Nat.add_1_r.
Qed.

Lemma run_job_exec b job (Q : unit -> micro_world -> Prop) w :
  wf_micro (w_st w) -> wf_job job -> fits b job = true ->
  Q tt (w <| w_st ::= fun s => wake (mj_callback job) (moves b job (Z.to_nat (mj_count job)) s) |>) ->
  wp (run_job b job) Q w.
Proof.
  intros Hwf Hj Hf HQ. unfold fits in Hf. set (n := Z.to_nat (mj_count job)) in *.
  assert (forall i, (i < n)%nat -> reaches b job i = true) as Hr.
  { intros i Hi. apply (proj1 (forallb_forall _ _) Hf). apply in_seq. lia. }
  unfold run_job. apply wp_bind, (wp_for_each _ _ (moving b job w)).
  - by destruct w.
  - intros pre i post w' Hseq Hm. by eapply moving_word.
  - intros w' [_ ->]. apply wp_modify. rewrite length_seq. exact HQ.
Qed.

Lemma run_job_faults b job w :
  wf_micro (w_st w) -> wf_job job -> fits b job = false -> faults (run_job b job) OutOfBounds w.
Proof.
  intros Hwf Hj Hf. unfold fits in Hf. set (n := Z.to_nat (mj_count job)) in *.
  assert (exists k, (k < n)%nat /\ reaches b job k = false /\ forall i, (i < k)%nat -> reaches b job i = true)
    as (k & Hk & Hbad & Hgood).
  { clear -Hf. induction n as [|n IH]; [done|]. rewrite seq_S, forallb_app, Nat.add_0_l in Hf.
    destruct (forallb (reaches b job) (seq 0 n)) eqn:E.
    - cbn [andb forallb] in Hf. rewrite andb_true_r in Hf. exists n. split_and!; [lia|done|].
      intros i Hi. apply (proj1 (forallb_forall _ _) E). apply in_seq. lia.
    - destruct (IH eq_refl) as (k & ? & ? & ?). exists k. split_and!; [lia|done|done]. }
  apply faults_first, (faults_for_each _ _ (moving b job w) (seq 0 k) k (seq (S k) (n - S k))).
  - transitivity (seq 0 (k + S (n - S k))); [f_equal; lia|]. by rewrite seq_app.
  - by destruct w.
  - intros pre i post w' Hseq Hm. by eapply moving_word.
  - intros w' [Hwf' _]. by apply transfer_word_faults.
Qed.

(** ** What a job copies *)

(** Addresses do not wrap within a memory. *)
Lemma reaches_offset b job i :
  wf_job job -> reaches b job 0 = true -> (i <= 256)%nat ->
  u32 (mj_mem_offset job + i) = mj_mem_offset job + i.
Proof.
  intros Hj H0 Hi. pose proof (job_offset job Hj) as Ho.
  destruct (reaches_spec b job 0 Hj H0) as [_ Ha].
  rewrite Z.add_0_r, (wrap_small 32) in Ha by done.
  assert (mem_size b <= 0x200000) by (destruct b; unfold mem_size, SCRATCH_WORDS, RAM_WORDS; lia).
  apply wrap_small. unfold in_width in *. simpl in *. lia.
Qed.

Section Copy.
Context (b : bank) (job : memory_job) (s : micro).
Context (Hwf : wf_micro s) (Hj : wf_job job).

Lemma write_regs n : mj_direction job = WRITE -> m_registers (moves b job n s) = m_registers s.
Proof.
  intros Hd. induction n as [|n IH]; [done|]. cbn [moves]. unfold move. cbv zeta. rewrite Hd.
  cbn [WRITE Z.eqb Pos.eqb]. rewrite <- IH. by destruct b.
Qed.

Lemma write_memory n :
  mj_direction job = WRITE -> (n <= 256)%nat -> (forall i, (i < n)%nat -> reaches b job i = true) ->
  forall a, 0 <= a -> mem_at b (moves b job n s) a =
    if decide (mj_mem_offset job <= a < mj_mem_offset job + n)
    then reg_at s (mj_start_reg job + (a - mj_mem_offset job)) else mem_at b s a.
Proof.
  intros Hd Hn. induction n as [|n IH]; intros Hr a Ha; [rewrite decide_False by lia; done|].
  assert (forall i, (i < n)%nat -> reaches b job i = true) as Hr' by (intros; apply Hr; lia).
  destruct (reaches_spec b job n Hj (Hr n ltac:(lia))) as [_ Hin].
  assert (u32 (mj_mem_offset job + n) = mj_mem_offset job + n) as Hoff.
  { apply (reaches_offset b); [done|apply Hr; lia|lia]. }
  assert (wf_micro (moves b job n s)) as Hwf' by (by apply wf_moves).
  cbn [moves]. unfold move. cbv zeta. rewrite Hd. cbn [WRITE Z.eqb Pos.eqb].
  rewrite Hoff in *. rewrite mem_at_upd by done. unfold reg_at at 1. rewrite write_regs by done.
  case_decide as E.
  - subst a. rewrite decide_True by lia. unfold reg_at. do 2 f_equal. lia.
  - rewrite IH by (done || lia). repeat case_decide; try done; lia.
Qed.

Lemma read_memory n b' a : mj_direction job = READ -> mem_at b' (moves b job n s) a = mem_at b' s a.
Proof.
  intros Hd. induction n as [|n IH]; [done|]. cbn [moves]. unfold move. cbv zeta. rewrite Hd.
  cbn [READ WRITE Z.eqb]. rewrite <- IH. by destruct b'.
Qed.

Lemma read_regs n :
  mj_direction job = READ -> (forall i, (i < n)%nat -> reaches b job i = true) ->
  forall k, in_width 8 k -> reg_at (moves b job n s) k =
    if decide (mj_start_reg job <= k < mj_start_reg job + n)
    then mem_at b s (u32 (mj_mem_offset job + (k - mj_start_reg job))) else reg_at s k.
Proof.
  intros Hd. induction n as [|n IH]; intros Hr k Hk; [rewrite decide_False by lia; done|].
  assert (forall i, (i < n)%nat -> reaches b job i = true) as Hr' by (intros; apply Hr; lia).
  destruct (reaches_spec b job n Hj (Hr n ltac:(lia))) as [Hin _].
  assert (wf_micro (moves b job n s)) as Hwf' by (by apply wf_moves).
  cbn [moves]. unfold move. cbv zeta. rewrite Hd. cbn [READ WRITE Z.eqb].
  rewrite reg_at_upd by done. rewrite read_memory by done. case_decide as E.
  - subst k. rewrite decide_True by lia. do 2 f_equal. lia.
  - rewrite IH by done. repeat case_decide; try done; lia.
Qed.
End Copy.

Lemma fits_reaches b job (i : nat) :
  fits b job = true -> (i < Z.to_nat (mj_count job))%nat -> reaches b job i = true.
Proof. intros Hf Hi. apply (proj1 (forallb_forall _ _) Hf). apply in_seq. lia. Qed.

(** The condition in terms of the ends of the two ranges. *)
Lemma fits_spec b job :
  wf_job job ->
  fits b job = (mj_count job =? 0) ||
    ((mj_start_reg job + mj_count job <=? 256) && (mj_mem_offset job + mj_count job <=? mem_size b)).
Proof.
  intros Hj. pose proof (job_count job Hj) as Hc. pose proof (job_offset job Hj) as Ho. unfold in_width in *.
  assert (mem_size b <= 0x200000) as Hsz by (destruct b; unfold mem_size, SCRATCH_WORDS, RAM_WORDS; lia).
  destruct (Z.eqb_spec (mj_count job) 0) as [E|E]; [unfold fits; by rewrite E|]. cbn [orb].
  assert (0 < Z.to_nat (mj_count job))%nat as Hpos by lia.
  apply eq_true_iff_eq. rewrite andb_true_iff, !Z.leb_le. split.
  - intros Hf. set (n := (Z.to_nat (mj_count job) - 1)%nat).
    pose proof (fits_reaches b job 0 Hf ltac:(lia)) as H0.
    pose proof (fits_reaches b job n Hf ltac:(lia)) as Hn. simpl in Hc.
    unfold reaches in Hn. rewrite (reaches_offset b) in Hn by (done || lia).
    apply andb_true_iff in Hn as [?%Z.ltb_lt ?%Z.ltb_lt]. lia.
  - intros [H1 H2]. apply forallb_forall. intros i Hi%in_seq. unfold reaches, wrap.
    rewrite Z.mod_small by (simpl in *; lia). apply andb_true_iff. rewrite !Z.ltb_lt. simpl in *. lia.
Qed.

Lemma count_bound job : wf_job job -> (Z.to_nat (mj_count job) <= 256)%nat.
Proof. intros Hj. pose proof (job_count job Hj) as Hc. unfold in_width in Hc. simpl in Hc. lia. Qed.

Lemma wf_micro_wake cb s : wf_micro s -> wf_micro (wake cb s).
Proof. intros. destruct cb; [by apply wf_set_ready|done]. Qed.

(** Taking the first job out of a queue. *)
Lemma wf_pop_memory b job q s : wf_micro s -> queue_of b s = job :: q -> wf_micro (set_queue b q s).
Proof.
  intros Hwf Hq. pose proof (wf_scratch_queue _ Hwf) as H1. pose proof (wf_ram_queue _ Hwf) as H2.
  destruct b; simpl in Hq; rewrite Hq in *; [inversion_clear H1|inversion_clear H2];
    destruct Hwf; by constructor.
Qed.

Lemma wf_pop_fifo (job : fifo_job) (q : list fifo_job) s :
  wf_micro s ->
  (m_tx_queue s = job :: q -> wf_micro (s <| m_tx_queue := q |>)) /\
  (m_rx_queue s = job :: q -> wf_micro (s <| m_rx_queue := q |>)) /\
  (m_pkt_in_queue s = job :: q -> wf_micro (s <| m_pkt_in_queue := q |>)).
Proof.
  intros Hwf. pose proof (wf_tx_queue _ Hwf) as H1. pose proof (wf_rx_queue _ Hwf) as H2.
  pose proof (wf_pkt_in_queue _ Hwf) as H3.
  split_and!; intros Hq; rewrite Hq in *; [inversion_clear H1|inversion_clear H2|inversion_clear H3];
    destruct Hwf; by constructor.
Qed.
