(* ===== verification/MicroProps.v ===== *)
(** * MicroProps: theorems about the microcode engine *)

From S2P Require Import Prelude Effects Device Micro MicroExec MicroCrc MicroMem.

Implicit Types (s : micro) (w : micro_world).

(** ** Creation *)

Lemma put_words_wf a l m :
  Forall (in_width 32) l -> map_Forall (fun _ v => in_width 32 v) m ->
  map_Forall (fun _ v => in_width 32 v) (put_words a l m).
Proof.
  intros Hl. revert a m. induction Hl as [|x l Hx Hl IH]; intros a m Hm; [done|].
  cbn [put_words]. apply IH. by apply map_Forall_insert_2.
Qed.

Lemma crc32_tab_wf : Forall (in_width 32) crc32_tab.
Proof.
  assert (forallb (fun v => (0 <=? v) && (v <? 2 ^ 32)) crc32_tab = true) as H by (vm_compute; reflexivity).
  apply Forall_forall. intros v Hv. apply (proj1 (forallb_forall _ _)) with (x := v) in H.
  - unfold in_width. lia.
  - by apply list_elem_of_In.
Qed.

Lemma wf_make stale last_alu mac code code_len ram s :
  make_microengine stale last_alu mac code code_len ram = Some s ->
  in_width 32 last_alu -> length mac = 6%nat -> map_Forall (fun _ v => in_width 32 v) ram ->
  wf_micro s.
Proof.
  unfold make_microengine. destruct (sizeof_m_code <? code_len); [discriminate|]. intros H Hl Hm Hr.
  apply (inj Some) in H. subst s.
  assert (in_width 32 0) as H0 by (unfold in_width; lia).
  assert (in_width 1 0) as H1 by (unfold in_width; lia).
  constructor; cbn -[code_words put_words replicate crc32_tab]; try done.
  - by apply Forall_replicate.
  - by repeat constructor.
  - by apply Forall_replicate.
  - apply put_words_wf; [apply crc32_tab_wf|done].
Qed.

(** An engine to try things on. *)
Definition engine (code : list Z) : micro :=
  default (Micro 0 [] [] 0 [] [] [] 0 0 [] 0 0 0 ∅ [] [] [] [] [])
    (make_microengine (replicate (5 * CODE_SIZE) 0) 0 [1; 2; 3; 4; 5; 6]
       (concat (le_bytes 5 <$> code)) (5 * length code) ∅).
Definition engine_world (code : list Z) : micro_world := World (engine code) [] [].

Lemma engine_wf code : 5 * length code <= sizeof_m_code -> wf_micro (engine code).
Proof.
  intros Hlen. unfold engine.
  destruct (make_microengine _ _ _ _ _ _) as [s|] eqn:E.
  - eapply (wf_make _ _ _ _ _ _ s E); [unfold in_width; lia|done|done].
  - exfalso. unfold make_microengine in E. rewrite (proj2 (Z.ltb_ge _ _)) in E by lia. done.
Qed.

(** ** Claims *)

(** C12: any 40-bit word, valid or not, is executed by a well-formed engine
    without a fault and leaves it well formed: the sizes and widths of its
    registers, memories, program counters and flags, and every job in its five
    queues (8-bit count and register index, the register one for the direction
    of the transfer, 32-bit address, a callback of one of the four contexts). It
    puts at most one job in the queues and puts its context to sleep exactly
    when that job has a callback for it; and no register but its destination
    changes.  The exceptions are ALU instructions whose shift distance is 32 or
    more or whose operation is the unused number, which have no defined
    result. *)
Theorem instruction_preserves_types x w :
  wf_micro (w_st w) ->
  if well_defined x (w_st w)
  then wp (interpret_instruction x) (fun _ w' =>
         wf_micro (w_st w') /\ issues (w_st w) (w_st w') /\
         changes_only (destination x (w_st w)) (w_st w) (w_st w')) w
  else interpret_instruction x w = Fault Undefined w.
Proof.
  intros Hwf. destruct (well_defined x (w_st w)) eqn:Hd; [|by apply undefined_instruction].
  by apply exec_instruction.
Qed.

Lemma instruction_preserves_types_witness :
  wp (interpret_instruction 0x5000000000) (fun _ w' => wf_micro (w_st w')) (engine_world [0]).
Proof.
  assert (wf_micro (engine [0])) as Hwf by (apply engine_wf; unfold sizeof_m_code; simpl; lia).
  pose proof (instruction_preserves_types 0x5000000000 (engine_world [0]) Hwf) as H.
  replace (well_defined 0x5000000000 (w_st (engine_world [0]))) with true in H by (vm_compute; reflexivity).
  eapply wp_mono; [exact H|]. intros ? ? (? & _). assumption.
Defined.

(** C22: the table that the constructor of the engine puts in RAM makes the
    byte-wise CRC of a message, one table look-up per byte, equal to the
    division of the message by the CRC-32 polynomial bit by bit. *)
Theorem crc_table_correct stale last_alu mac code code_len ram s c msg :
  make_microengine stale last_alu mac code code_len ram = Some s -> is_bytes msg ->
  crc_tabular s c msg = crc_bitwise c msg.
Proof. intros Hs Hmsg. apply crc_tabular_bitwise; [done|]. intros i Hi. by eapply crc_entry_reference. Qed.

Lemma crc_table_correct_witness :
  Z.lxor (crc_tabular (engine [0]) 0xFFFFFFFF [0x31; 0x32; 0x33; 0x34; 0x35; 0x36; 0x37; 0x38; 0x39]) 0xFFFFFFFF
  = 0xCBF43926.
Proof.
  rewrite (crc_table_correct (replicate (5 * CODE_SIZE) 0) 0 [1; 2; 3; 4; 5; 6] (concat (le_bytes 5 <$> [0])) 5 ∅ (engine [0])).
  - vm_compute. reflexivity.
  - unfold engine. reflexivity.
  - unfold is_bytes, in_width. repeat constructor; simpl; lia.
Defined.

(** ** Addition of two words *)

Lemma wp_alu_plain x type result (Q : unit -> micro_world -> Prop) w :
  let i := alu_inst x in let s := w_st w in
  wf_micro s -> inst_opcode x = ALU -> alu_type i = type ->
  alu_result type (reg_at s (operand s (alu_src_1_type i) (alu_src_1 i)))
    (reg_at s (operand s (alu_src_2_type i) (alu_src_2 i))) (m_carry s) (m_sign s) = Some result ->
  Q tt (w <| w_st := alu_done x result s |>) -> wp (interpret_instruction x) Q w.
Proof.
  intros i s Hwf Hop Ht Hres HQ. subst i s type. unfold interpret_instruction. cbv zeta. rewrite Hop.
  change ((ALU <=? ALU) && (ALU <=? DBL_SHF)) with true. cbv iota.
  assert (alu_opcode (alu_inst x) = ALU) as Ho by exact Hop.
  apply (alu_exec x result); [done|by rewrite Ho|done..].
Qed.

(** The destination of an ALU instruction afterwards. *)
Lemma alu_done_reg x result s j :
  wf_micro s -> inst_opcode x = ALU -> in_width 8 j ->
  reg_at (alu_done x result s) j =
    if decide (j = operand s (alu_dst_type (alu_inst x)) (alu_dst (alu_inst x))) then u32 result
    else reg_at s j.
Proof.
  intros Hwf Hop Hj. unfold alu_done. cbv zeta.
  assert (alu_opcode (alu_inst x) = ALU) as Ho by exact Hop.
  unfold alu_shifted. rewrite Ho. cbn [ALU ALU_SHF Z.eqb Pos.eqb].
  exact (reg_at_upd s (operand s (alu_dst_type (alu_inst x)) (alu_dst (alu_inst x))) (u32 result) j
    Hwf ltac:(auto with micro) Hj).
Qed.

Lemma sum_carry a b : in_width 32 a -> in_width 32 b -> bits (a + b) 32 1 = (a + b) / 2 ^ 32.
Proof.
  unfold in_width. intros Ha Hb. unfold bits. rewrite Z.land_ones, Z.shiftr_div_pow2 by lia.
  apply Z.mod_small. split; [apply Z.div_pos; lia|]. apply Z.div_lt_upper_bound; lia.
Qed.

Lemma add_words al ah bl bh :
  in_width 32 al -> in_width 32 bl ->
  u32 (al + bl) + 2 ^ 32 * u32 (ah + bh + (al + bl) / 2 ^ 32) =
  (al + 2 ^ 32 * ah + (bl + 2 ^ 32 * bh)) mod 2 ^ 64.
Proof.
  intros Ha Hb. unfold wrap. set (t := al + bl).
  replace (al + 2 ^ 32 * ah + (bl + 2 ^ 32 * bh)) with (t + 2 ^ 32 * (ah + bh)) by (unfold t; lia).
  pose proof (Z.div_mod t (2 ^ 32) ltac:(lia)) as Ht. set (q := t / 2 ^ 32) in *. set (r := t mod 2 ^ 32) in *.
  assert (0 <= r < 2 ^ 32) by (apply Z.mod_pos_bound; lia).
  pose proof (Z.div_mod (ah + bh + q) (2 ^ 32) ltac:(lia)) as Hh.
  pose proof (Z.mod_pos_bound (ah + bh + q) (2 ^ 32) ltac:(lia)).
  apply (Z.mod_unique_pos _ _ ((ah + bh + q) / 2 ^ 32)); lia.
Qed.

(** PLUS on the low words followed by PLUS_CARRY on the high words adds
    numbers of 64 bits: the carry that the first leaves in the flags is the one
    that the second adds, provided that the first does not overwrite a high
    word and the second not the low result. *)
Theorem add64 lo hi w :
  let s := w_st w in let i := alu_inst lo in let j := alu_inst hi in
  let al := operand s (alu_src_1_type i) (alu_src_1 i) in
  let bl := operand s (alu_src_2_type i) (alu_src_2 i) in
  let ah := operand s (alu_src_1_type j) (alu_src_1 j) in
  let bh := operand s (alu_src_2_type j) (alu_src_2 j) in
  let dl := operand s (alu_dst_type i) (alu_dst i) in
  let dh := operand s (alu_dst_type j) (alu_dst j) in
  wf_micro s ->
  inst_opcode lo = ALU /\ alu_type i = PLUS /\ inst_opcode hi = ALU /\ alu_type j = PLUS_CARRY ->
  dl <> ah /\ dl <> bh /\ dl <> dh ->
  wp (interpret_instruction lo;; interpret_instruction hi) (fun _ w' =>
    reg_at (w_st w') dl + 2 ^ 32 * reg_at (w_st w') dh =
    ((reg_at s al + 2 ^ 32 * reg_at s ah) + (reg_at s bl + 2 ^ 32 * reg_at s bh)) mod 2 ^ 64) w.
Proof.
  intros s i j al bl ah bh dl dh Hwf (Hlo & Hplus & Hhi & Hcarry) (Ha & Hb & Hd).
  assert (in_width 8 al /\ in_width 8 bl /\ in_width 8 ah /\ in_width 8 bh /\ in_width 8 dl /\ in_width 8 dh)
    as (Wal & Wbl & Wah & Wbh & Wdl & Wdh) by (split_and!; unfold al, bl, ah, bh, dl, dh; auto with micro).
  apply wp_bind, (wp_alu_plain lo PLUS (reg_at s al + reg_at s bl)); [done..|].
  set (s1 := alu_done lo (reg_at s al + reg_at s bl) s).
  assert (wf_micro s1) as Hwf1 by (by apply wf_alu_done).
  assert (reg_at s1 ah = reg_at s ah /\ reg_at s1 bh = reg_at s bh /\ reg_at s1 dl = u32 (reg_at s al + reg_at s bl))
    as (E1 & E2 & E3).
  { unfold s1. rewrite !alu_done_reg by done.
    change (operand s (alu_dst_type (alu_inst lo)) (alu_dst (alu_inst lo))) with dl. split_and!; repeat case_decide; congruence. }
  assert (m_carry s1 = (reg_at s al + reg_at s bl) / 2 ^ 32) as Ec by (apply sum_carry; by apply reg_at_range).
  apply (wp_alu_plain hi PLUS_CARRY (reg_at s1 ah + reg_at s1 bh + m_carry s1)); [done..|].
  change (w_st _) with (alu_done hi (reg_at s1 ah + reg_at s1 bh + m_carry s1) s1).
  rewrite !alu_done_reg by done.
  change (operand s1 (alu_dst_type (alu_inst hi)) (alu_dst (alu_inst hi))) with dh.
  rewrite decide_False, decide_True, E1, E2, E3, Ec by done. apply add_words; by apply reg_at_range.
Qed.

(** An instruction from the widths and the values of its fields. *)
Definition pack (fields : list (Z * Z)) : Z :=
  foldr (fun '(width, v) rest => v + Z.shiftl rest width) 0 fields.
Definition alu_word (type dst src_1 src_2 : Z) : Z :=
  pack [(6, ALU); (1, RELATIVE); (8, dst); (1, RELATIVE); (8, src_1); (4, type); (1, RELATIVE); (8, src_2)].

Definition with_regs (l : list (Z * Z)) (s : micro) : micro :=
  foldr (fun '(k, v) s => upd_reg k v s) s l.

Lemma with_regs_wf l s : wf_micro s -> Forall (fun kv => in_width 32 kv.2) l -> wf_micro (with_regs l s).
Proof. intros Hs. induction 1 as [|[k v] l Hv _ IH]; [done|]. cbn [with_regs foldr]. by apply wf_upd_reg. Qed.

Definition adder : micro_world :=
  World (with_regs [(1, 0xFFFFFFFF); (2, 1); (4, 7); (5, 8)] (engine [])) [] [].

Lemma add64_witness :
  wp (interpret_instruction (alu_word PLUS 0 1 2);; interpret_instruction (alu_word PLUS_CARRY 3 4 5))
    (fun _ w' => reg_at (w_st w') 0 + 2 ^ 32 * reg_at (w_st w') 3 = 2 ^ 32 * 16) adder.
Proof.
  eapply wp_mono.
  - apply (add64 (alu_word PLUS 0 1 2) (alu_word PLUS_CARRY 3 4 5) adder).
    + apply with_regs_wf; [apply engine_wf; unfold sizeof_m_code; simpl; lia|].
      unfold in_width. repeat constructor; simpl; lia.
    + repeat split; vm_compute; reflexivity.
    + repeat split; vm_compute; discriminate.
  - intros [] w' H. vm_compute in H |- *. exact H.
Defined.

(** ** Isolation of the contexts *)

Lemma window_inj c1 c2 r1 r2 :
  0 <= c1 < NUM_THREADS -> 0 <= c2 < NUM_THREADS -> 0 <= r1 < 64 -> 0 <= r2 < 64 ->
  absolute_register c1 RELATIVE r1 = absolute_register c2 RELATIVE r2 -> c1 = c2 /\ r1 = r2.
Proof.
  intros H1 H2 H3 H4. unfold absolute_register, RELATIVE, ABSOLUTE, NUM_THREADS, sizeof_m_registers, wrap in *.
  change (2 ^ 8) with 256. cbn [Z.eqb].
  assert (forall c r, 0 <= c < 4 -> 0 <= r < 64 ->
    (if r <? 32 then ((r + c * 32) mod 1024) mod 256
     else if (32 <=? r) && (r <? 48) then (((r - 32 + 128) mod 256 + c * 16) mod 1024) mod 256
     else (((r - 48 + 192) mod 256 + c * 16) mod 1024) mod 256) =
    if r <? 32 then r + c * 32 else if r <? 48 then r + 96 + c * 16 else r + 144 + c * 16) as Hval.
  { intros c r Hc Hr. destruct (Z.ltb_spec r 32); [rewrite (Z.mod_small (r + c * 32)), Z.mod_small by lia; lia|].
    rewrite (proj2 (Z.leb_le 32 r)) by lia. cbn [andb].
    destruct (Z.ltb_spec r 48);
      [rewrite (Z.mod_small (r - 32 + 128)) by lia|rewrite (Z.mod_small (r - 48 + 192)) by lia];
      rewrite (Z.mod_small _ 1024), Z.mod_small by lia; lia. }
  rewrite !Hval by done. repeat case_match; lia.
Qed.

Lemma window_range c r : in_width 8 r -> in_width 8 (absolute_register c RELATIVE r).
Proof. apply absolute_register_range. Qed.

(** The contexts are isolated from each other: an instruction whose
    destination is a relative register of the current context leaves every
    relative register of the other contexts as it is. *)
Theorem contexts_isolated x w c r d :
  let s := w_st w in
  wf_micro s -> well_defined x s = true ->
  destination x s = Some (absolute_register (m_current_ctx s) RELATIVE d) -> 0 <= d < 64 ->
  0 <= c < NUM_THREADS -> c <> m_current_ctx s -> 0 <= r < 64 ->
  wp (interpret_instruction x) (fun _ w' =>
    reg_at (w_st w') (absolute_register c RELATIVE r) = reg_at s (absolute_register c RELATIVE r)) w.
Proof.
  intros s Hwf Hdef Hdst Hd Hc Hne Hr. eapply wp_mono; [by apply exec_instruction|].
  intros [] w' (_ & _ & Hch). apply Hch.
  - apply window_range. unfold in_width. simpl. lia.
  - fold s. rewrite Hdst. intros [= E]. pose proof (wf_ctx s Hwf).
    apply window_inj in E as [E _]; [by apply Hne|done..].
Qed.

Lemma contexts_isolated_witness :
  wp (interpret_instruction (alu_word PLUS 0 1 2)) (fun _ w' => reg_at (w_st w') 32 = 0) adder.
Proof.
  assert (wf_micro (w_st adder)) as Hwf.
  { apply with_regs_wf; [apply engine_wf; unfold sizeof_m_code; simpl; lia|].
    unfold in_width. repeat constructor; simpl; lia. }
  eapply wp_mono.
  - apply (contexts_isolated (alu_word PLUS 0 1 2) adder 1 0 0); try exact Hwf; try (vm_compute; reflexivity);
      unfold NUM_THREADS; try lia. vm_compute. discriminate.
  - intros [] w' H. vm_compute in H |- *. exact H.
Defined.

(** ** Loads of bytes *)

Lemma bytemask_testbit m i :
  in_width 4 m -> 0 <= i < 32 -> Z.testbit (bytemask_to_bitmask m) i = Z.testbit m (i / 8).
Proof.
  intros Hm Hi.
  assert (forallb (fun m => forallb (fun i =>
    eqb (Z.testbit (bytemask_to_bitmask (Z.of_nat m)) (Z.of_nat i)) (Z.testbit (Z.of_nat m) (Z.of_nat i / 8)))
    (seq 0 32)) (seq 0 16) = true) as H by (vm_compute; reflexivity).
  unfold in_width in Hm. simpl in Hm.
  pose proof (proj1 (forallb_forall _ _) H (Z.to_nat m) ltac:(apply in_seq; lia)) as H1.
  pose proof (proj1 (forallb_forall _ _) H1 (Z.to_nat i) ltac:(apply in_seq; lia)) as H2.
  apply eqb_prop in H2. by rewrite !Z2Nat.id in H2 by lia.
Qed.

Lemma load_value_byte i orig val k :
  in_width 4 (ld_mask i) -> in_width 32 orig -> 0 <= k < 4 ->
  bits (load_value i orig val) (8 * k) 8 =
    if Z.testbit (ld_mask i) k then bits (perform_rot val (ld_rot i)) (8 * k) 8 else bits orig (8 * k) 8.
Proof.
  intros Hm Ho Hk. unfold bits. apply Z.bits_inj'. intros n Hn.
  destruct (Z.testbit (ld_mask i) k) eqn:Em; rewrite !Z.land_spec, !Z.shiftr_spec by done;
    (destruct (Z.ltb_spec n 8); [|by rewrite Z.ones_spec_high, !andb_false_r by lia]);
    unfold load_value; cbv zeta; rewrite Z.lxor_spec, !Z.land_spec; unfold wrap;
    rewrite Z.mod_pow2_bits_low, Z.lnot_spec, bytemask_testbit by (done || lia);
    (replace ((n + 8 * k) / 8) with k by (rewrite (Z.mul_comm 8), Z.div_add, Z.div_small; lia));
    rewrite Em; cbn [negb]; by rewrite ?andb_false_r, ?andb_true_r, ?xorb_false_l, ?xorb_false_r.
Qed.

(** LD_FIELD and LD_FIELD_W_CLR set exactly the bytes of the destination
    that their mask selects, to the same bytes of the shifted source; the other
    bytes keep their value or, with W_CLR, become 0.  W_CLR clears the
    destination first, so a source that is the destination is read as 0. *)
Theorem load_selects_bytes x w k :
  let s := w_st w in let i := load_inst x in
  let dst := operand s (ld_dst_type i) (ld_dst i) in
  let src := operand s (ld_src_type i) (ld_src i) in
  let clr := inst_opcode x =? LD_FIELD_W_CLR in
  wf_micro s -> inst_opcode x = LD_FIELD \/ inst_opcode x = LD_FIELD_W_CLR -> 0 <= k < 4 ->
  wp (interpret_instruction x) (fun _ w' =>
    bits (reg_at (w_st w') dst) (8 * k) 8 =
      if Z.testbit (ld_mask i) k
      then bits (perform_rot (if clr && (src =? dst) then 0 else reg_at s src) (ld_rot i)) (8 * k) 8
      else if clr then 0 else bits (reg_at s dst) (8 * k) 8) w.
Proof.
  intros s i dst src clr Hwf Hop Hk.
  assert (interpret_instruction x = interpret_load_instruction (load_inst x)) as ->.
  { unfold interpret_instruction. cbv zeta. by destruct Hop as [-> | ->]. }
  apply (load_exec x); [done| |].
  { change (ld_opcode (load_inst x)) with (inst_opcode x). by destruct Hop as [-> | ->]. }
  change (w_st _) with (load_done x s). unfold load_done. cbv zeta.
  change (load_inst x) with i. fold dst src. change (ld_opcode i =? LD_FIELD_W_CLR) with clr.
  assert (in_width 8 dst /\ in_width 8 src) as [Wd Ws] by (split; unfold dst, src; auto with micro).
  set (s' := (if clr then _ else s) : micro).
  assert (wf_micro s') as Hwf' by (unfold s'; case_match; [apply wf_upd_reg; [done|unfold in_width; lia]|done]).
  rewrite reg_at_upd, decide_True, load_value_byte
    by (done || (apply (bits_range _ _ 4); lia) || by apply reg_at_range).
  unfold i, s'. destruct clr; cbn [andb]; [|done].
  rewrite !reg_at_upd, (decide_True (P := dst = dst)) by done.
  destruct (Z.eqb_spec src dst) as [E|E]; [rewrite decide_True by done|rewrite decide_False by done].
  all: unfold bits at 2; by rewrite Z.shiftr_0_l, Z.land_0_l.
Qed.

Definition load_word (mask dst src rot : Z) : Z :=
  pack [(6, LD_FIELD); (1, RELATIVE); (8, dst); (4, mask); (1, RELATIVE); (8, src); (2, rot)].

Lemma load_selects_bytes_witness :
  wp (interpret_instruction (load_word 0xA 4 1 LEFT_EIGHT)) (fun _ w' =>
    bits (reg_at (w_st w') 4) 8 8 = 0xFF) adder.
Proof.
  eapply wp_mono.
  - apply (load_selects_bytes (load_word 0xA 4 1 LEFT_EIGHT) adder 1); [|left; vm_compute; reflexivity|lia].
    apply with_regs_wf; [apply engine_wf; unfold sizeof_m_code; simpl; lia|].
    unfold in_width. repeat constructor; simpl; lia.
  - intros [] w' H. vm_compute in H |- *. exact H.
Defined.

(** ** Transfers *)

(** C32: a memory controller copies the words of a job and wakes its context
    exactly when the range of registers ends within the 256 registers and the
    range of addresses within the memory; in every other case it goes out of
    bounds.  In particular the start register alone, which is all that
    [is_memory_read_register] looks at, does not decide it. *)
Theorem transfer_exact b job w :
  let s := w_st w in
  wf_micro s -> wf_job job ->
  if (mj_count job =? 0) ||
     ((mj_start_reg job + mj_count job <=? 256) && (mj_mem_offset job + mj_count job <=? mem_size b))
  then wp (run_job b job) (fun _ w' =>
    wf_micro (w_st w') /\
    (forall ctx, mj_callback job = Some ctx -> 0 <= ctx < NUM_THREADS ->
       znth (m_ctx_ready (w_st w')) ctx = Some true) /\
    forall i, 0 <= i < mj_count job ->
      if mj_direction job =? READ
      then reg_at (w_st w') (mj_start_reg job + i) = mem_at b s (mj_mem_offset job + i)
      else mem_at b (w_st w') (mj_mem_offset job + i) = reg_at s (mj_start_reg job + i)) w
  else faults (run_job b job) OutOfBounds w.
Proof.
  intros s Hwf Hj. rewrite <- (fits_spec b job Hj).
  destruct (fits b job) eqn:Hf; [|by apply run_job_faults].
  apply run_job_exec; [done..|]. pose proof (count_bound job Hj) as Hn.
  pose proof (fun i => fits_reaches b job i Hf) as Hr.
  set (n := Z.to_nat (mj_count job)) in *. change (w_st _) with (wake (mj_callback job) (moves b job n s)).
  assert (wf_micro (moves b job n s)) as Hwf' by (by apply wf_moves). split_and!; [by apply wf_micro_wake|..].
  - intros ctx -> Hctx. unfold znth; simpl; unfold set_field. rewrite (proj2 (Z.ltb_ge _ _)) by lia.
    apply list_lookup_insert_eq. rewrite (wf_ready_len _ Hwf'). unfold NUM_THREADS in Hctx. lia.
  - intros i Hi. assert (mj_count job = n) by lia.
    pose proof (job_reg job Hj) as Wk. pose proof (job_offset job Hj) as Wo.
    destruct (reaches_spec b job (Z.to_nat i) Hj (Hr (Z.to_nat i) ltac:(lia))) as [Wi _].
    rewrite Z2Nat.id in Wi by lia. unfold in_width in Wo.
    destruct (job_direction job Hj) as [Hd|Hd]; rewrite Hd; cbn [READ WRITE Z.eqb].
    + transitivity (reg_at (moves b job n s) (mj_start_reg job + i)); [by destruct (mj_callback job)|].
      rewrite read_regs, decide_True by (done || lia).
      replace (mj_start_reg job + i - mj_start_reg job) with (Z.of_nat (Z.to_nat i)) by lia.
      rewrite (reaches_offset b) by (done || lia || (apply Hr; lia)). f_equal. lia.
    + transitivity (mem_at b (moves b job n s) (mj_mem_offset job + i)); [by destruct (mj_callback job), b|].
      rewrite write_memory, decide_True by (done || lia). f_equal. lia.
Qed.

Definition store_job := MemoryJob WRITE 16 128 3 (Some 0).
Definition fetch_job := MemoryJob READ 16 192 3 (Some 0).

Lemma wf_store_job : wf_job store_job.
Proof. constructor; [by right|unfold in_width; simpl; lia..]. Qed.
Lemma wf_fetch_job : wf_job fetch_job.
Proof. constructor; [by left|unfold in_width; simpl; lia..]. Qed.

Lemma transfer_exact_witness :
  wp (run_job Scratch_mem fetch_job) (fun _ w' => znth (m_ctx_ready (w_st w')) 0 = Some true) (engine_world []) /\
  faults (run_job Scratch_mem (MemoryJob READ 16 250 15 None)) OutOfBounds (engine_world []).
Proof.
  assert (wf_micro (engine [])) as Hwf by (apply engine_wf; unfold sizeof_m_code; simpl; lia). split.
  - eapply wp_mono; [exact (transfer_exact Scratch_mem fetch_job (engine_world []) Hwf wf_fetch_job)|].
    intros [] w' (_ & H & _). apply (H 0); [reflexivity|unfold NUM_THREADS; lia].
  - apply (transfer_exact Scratch_mem (MemoryJob READ 16 250 15 None) (engine_world []) Hwf).
    constructor; [left; reflexivity|unfold in_width; simpl; lia..].
Defined.

(** Words that one job writes to a memory and a second one reads back from
    the same addresses arrive unchanged in the registers of the second. *)
Theorem memory_roundtrip b store fetch w :
  let s := w_st w in
  wf_micro s -> wf_job store -> wf_job fetch -> fits b store = true -> fits b fetch = true ->
  mj_direction store = WRITE -> mj_direction fetch = READ ->
  mj_mem_offset fetch = mj_mem_offset store -> mj_count fetch = mj_count store ->
  wp (run_job b store;; run_job b fetch) (fun _ w' => forall i, 0 <= i < mj_count store ->
    reg_at (w_st w') (mj_start_reg fetch + i) = reg_at s (mj_start_reg store + i)) w.
Proof.
  intros s Hwf Hj Hj' Hf Hf' Hd Hd' Ho Hc.
  pose proof (count_bound store Hj) as Hn. pose proof (fun i => fits_reaches b store i Hf) as Hr.
  pose proof (fun i => fits_reaches b fetch i Hf') as Hr'. rewrite Hc in Hr'.
  set (n := Z.to_nat (mj_count store)) in *.
  set (s1 := wake (mj_callback store) (moves b store n s)).
  assert (wf_micro s1) as Hwf1 by (by apply wf_micro_wake, wf_moves).
  apply wp_bind, run_job_exec; [done..|]. fold n. apply run_job_exec; [done..|]. rewrite Hc. fold n.
  change (w_st _) with (wake (mj_callback fetch) (moves b fetch n s1)). intros i Hi.
  assert (mj_count store = n) by lia. pose proof (job_offset store Hj) as Wo. unfold in_width in Wo.
  destruct (reaches_spec b fetch (Z.to_nat i) Hj' (Hr' (Z.to_nat i) ltac:(lia))) as [Wi _].
  rewrite Z2Nat.id in Wi by lia.
  transitivity (reg_at (moves b fetch n s1) (mj_start_reg fetch + i)); [by destruct (mj_callback fetch)|].
  rewrite read_regs, decide_True by (done || lia).
  replace (mj_start_reg fetch + i - mj_start_reg fetch) with (Z.of_nat (Z.to_nat i)) by lia.
  rewrite (reaches_offset b) by (done || lia || (apply Hr'; lia)). rewrite Ho, Z2Nat.id by lia.
  transitivity (mem_at b (moves b store n s) (mj_mem_offset store + i)); [by destruct (mj_callback store), b|].
  rewrite write_memory, decide_True by (done || lia). f_equal. lia.
Qed.

Lemma memory_roundtrip_witness :
  wp (run_job Ram_mem store_job;; run_job Ram_mem fetch_job) (fun _ w' => reg_at (w_st w') 193 = 5)
    (World (with_regs [(129, 5)] (engine [])) [] []).
Proof.
  eapply wp_mono.
  - apply (memory_roundtrip Ram_mem store_job fetch_job (World (with_regs [(129, 5)] (engine [])) [] []));
      [|exact wf_store_job|exact wf_fetch_job|vm_compute; reflexivity..].
    apply with_regs_wf; [apply engine_wf; unfold sizeof_m_code; simpl; lia|].
    unfold in_width. repeat constructor; simpl; lia.
  - intros [] w' H. specialize (H 1 ltac:(simpl; lia)). vm_compute in H |- *. exact H.
Defined.
