(* ===== verification/Virtio.v ===== *)
(** * Virtio: guest memory and virtio devices
    (devices/utils/mem-manager.cpp, virtio.cpp)

    A device maps the system memory of the guest and checks every address that
    the guest hands it.  The registers of the device, its queues and the memory
    are one record; a device class is an instance of [VirtioDevice], which says
    where its base object is and how it overrides the virtual methods.  Guest
    memory changes only by the device while a request is handled. *)

From S2P Require Import Prelude Effects Libc Wire Device.

(** ** mem-manager.cpp *)

Record memory_manager := MemoryManager {
  m_guest_start_paddr : Z;
  m_guest_end_paddr : Z;
  m_mem_size : Z;
  m_memory : bytes;
}.
#[export] Instance memory_manager_eta : Settable memory_manager := fun m =>
  MemoryManager (m_guest_start_paddr m) (m_guest_end_paddr m) (m_mem_size m) (m_memory m).

Definition new_memory_manager (start_addr size : Z) (memory : bytes) : memory_manager :=
  MemoryManager start_addr (u64 (start_addr + size)) size memory.

Definition oob (m : memory_manager) (guest_addr size : Z) : bool :=
  if guest_addr <? m_guest_start_paddr m then true
  else if u64 (guest_addr + size) <? m_guest_start_paddr m then true
  else if m_guest_end_paddr m <=? guest_addr then true
  else if m_guest_end_paddr m <? u64 (guest_addr + size) then true
  else if u64 (m_guest_end_paddr m - m_guest_start_paddr m) <? size then true
  else false.

(** The distance of the result from [m_memory]. *)
Definition host_addr (m : memory_manager) (guest_addr : Z) : Z :=
  u64 (guest_addr - m_guest_start_paddr m).

(** ** virtio.hpp *)

Definition MAGIC := 0x74726976.
Definition VIRTIO_DEVICE_VERS := 0x2.
Definition CONFIG_SPACE_MAX := 0x400.
Definition CONFIG_SPACE_START := 0x100.
Definition sizeof_m_config_space : nat := 4096.
Definition MAX_VQ_SIZE := 32768.
Definition STATUS_ACKNOWLEDGE := 1.
Definition VIRTIO_NIC := 1.

Definition REG_MAGIC_VAL := 0x0.
Definition REG_DEVICE_VERS := 0x4.
Definition REG_SUBSYS_DEV_ID := 0x8.
Definition REG_SUBSYS_VEND_ID := 0xc.
Definition REG_DEVICE_FEATURES := 0x10.
Definition REG_DEVICE_FEATURES_SELECT := 0x14.
Definition REG_DRIVER_FEATURES := 0x20.
Definition REG_DRIVER_FEATURES_SELECT := 0x24.
Definition REG_QUEUE_SELECT := 0x30.
Definition REG_QUEUE_NUM_MAX := 0x34.
Definition REG_QUEUE_NUM := 0x38.
Definition REG_QUEUE_READY := 0x44.
Definition REG_QUEUE_NOTIFY := 0x50.
Definition REG_ISR := 0x60.
Definition REG_INTR_ACK := 0x64.
Definition REG_DEVICE_STATUS := 0x70.
Definition REG_QUEUE_DESC_LOW := 0x80.
Definition REG_QUEUE_DESC_HIGH := 0x84.
Definition REG_QUEUE_DRIVER_LOW := 0x90.
Definition REG_QUEUE_DRIVER_HIGH := 0x94.
Definition REG_QUEUE_DEVICE_LOW := 0xa0.
Definition REG_QUEUE_DEVICE_HIGH := 0xa4.

Definition GUEST_SYS_MEM_PADDR := 0x100000.
Definition HOST_SYS_MEM_SIZE := 0x100000.

Record VirtqDesc := Desc { d_addr : Z; d_len : Z; d_flags : Z; d_next : Z }.
Definition sizeof_VirtqDesc := 16.
Definition load_desc (b : bytes) : VirtqDesc :=
  Desc (field b 0 8) (field b 8 4) (field b 12 2) (field b 14 2).

Definition sizeof_VirtqAvail := 4.
Definition sizeof_VirtqUsed := 4.
Definition sizeof_VirtqUsedElem := 8.
Definition offsetof_head_idx := 2.
Definition offsetof_ring := 4.

Record VirtQueue := Vq {
  num_bufs : Z;
  ready : bool;
  avail_tail_idx : Z;
  queue_desc_low : Z;
  queue_desc_high : Z;
  queue_driver_low : Z;
  queue_driver_high : Z;
  queue_device_low : Z;
  queue_device_high : Z;
  desc_table_gaddr : Z;
  avail_gaddr : Z;
  used_gaddr : Z;
}.
#[export] Instance VirtQueue_eta : Settable VirtQueue := fun q =>
  Vq (num_bufs q) (ready q) (avail_tail_idx q) (queue_desc_low q) (queue_desc_high q)
    (queue_driver_low q) (queue_driver_high q) (queue_device_low q) (queue_device_high q)
    (desc_table_gaddr q) (avail_gaddr q) (used_gaddr q).
Definition calloc_vq : VirtQueue := Vq 0 false 0 0 0 0 0 0 0 0 0 0.

Record VirtBuf := Vbuf {
  vb_guest_addr : Z;
  vb_len : Z;
  vb_id : Z;
  vb_flags : Z;
  vb_nbytes_written : Z;
  vb_head : Z;
}.
#[export] Instance VirtBuf_eta : Settable VirtBuf := fun b =>
  Vbuf (vb_guest_addr b) (vb_len b) (vb_id b) (vb_flags b) (vb_nbytes_written b) (vb_head b).
Definition sizeof_VirtBuf := 40.

Record vdev := Vdev {
  m_magic : Z;
  m_device_version : Z;
  m_device_id : Z;
  m_vendor_id : Z;
  m_device_features : Z;
  m_device_features_sel : Z;
  m_driver_features : Z;
  m_driver_features_sel : Z;
  m_queue_sel : Z;
  m_isr : Z;
  m_isr_ack : Z;
  m_status : Z;
  m_config_space : bytes;
  m_config_space_size : Z;
  m_mmio_start : Z;
  m_num_queues : Z;
  m_vqs : list VirtQueue;
  m_mem : memory_manager;
}.
#[export] Instance vdev_eta : Settable vdev := fun d =>
  Vdev (m_magic d) (m_device_version d) (m_device_id d) (m_vendor_id d) (m_device_features d)
    (m_device_features_sel d) (m_driver_features d) (m_driver_features_sel d) (m_queue_sel d)
    (m_isr d) (m_isr_ack d) (m_status d) (m_config_space d) (m_config_space_size d)
    (m_mmio_start d) (m_num_queues d) (m_vqs d) (m_mem d).

(** The constructor.  [raw_id] and [raw_vendor] are what the uninitialised
    members held, [memory] is the mapping of the system memory. *)
Definition new_MMIOVirtioDev (raw_id raw_vendor : Z) (memory : bytes) (mmio_start num_vqs : Z) : vdev :=
  {| m_magic := MAGIC;
     m_device_version := VIRTIO_DEVICE_VERS;
     m_device_id := raw_id;
     m_vendor_id := raw_vendor;
     m_device_features := 0;
     m_device_features_sel := 0;
     m_driver_features := 0;
     m_driver_features_sel := 0;
     m_queue_sel := 0;
     m_isr := 0;
     m_isr_ack := 0;
     m_status := STATUS_ACKNOWLEDGE;
     m_config_space := replicate sizeof_m_config_space 0;
     m_config_space_size := CONFIG_SPACE_MAX;
     m_mmio_start := mmio_start;
     m_num_queues := num_vqs;
     m_vqs := replicate (Z.to_nat num_vqs) calloc_vq;
     m_mem := new_memory_manager GUEST_SYS_MEM_PADDR HOST_SYS_MEM_SIZE memory |}.

Abbreviation vprog := (dev_prog vdev).
Abbreviation vworld := (dev_world vdev).

(** ** Accesses to guest memory *)

(** [None] is the error -1. *)
Definition mm_read (guest_addr size : Z) : vprog (option bytes) :=
  d ← gets (fun d => d);
  if oob (m_mem d) guest_addr size then mret None else
  let off := host_addr (m_mem d) guest_addr in
  if off + size <=? length (m_memory (m_mem d))
  then mret (Some (load (m_memory (m_mem d)) (Z.to_nat off) (Z.to_nat size)))
  else fail OutOfBounds.

Definition mm_write (guest_addr : Z) (data : bytes) : vprog Z :=
  d ← gets (fun d => d);
  if oob (m_mem d) guest_addr (length data) then mret (-1) else
  let off := host_addr (m_mem d) guest_addr in
  if off + length data <=? length (m_memory (m_mem d))
  then modify (fun d => d <| m_mem ::= fun m =>
         m <| m_memory ::= fun b => blit b (Z.to_nat off) data |> |>);; mret 0
  else fail OutOfBounds.

(** [readX] and [writeX] at [uint16_t]. *)
Definition readX16 (guest_addr : Z) : vprog (option Z) :=
  r ← mm_read guest_addr 2;
  mret (le_val <$> r).
Definition writeX16 (guest_addr v : Z) : vprog Z := mm_write guest_addr (le_bytes 2 v).

(** [VirtBuf::readU] and [VirtBuf::writeU]: the error, and the buffer with its
    new head. *)
Definition readU (b : VirtBuf) (size : Z) : vprog (option bytes * VirtBuf) :=
  r ← mm_read (vb_head b) size;
  match r with
  | Some data => mret (Some data, b <| vb_head ::= fun h => u64 (h + size) |>)
  | None => mret (None, b)
  end.
Definition writeU (b : VirtBuf) (data : bytes) : vprog (Z * VirtBuf) :=
  err ← mm_write (vb_head b) data;
  mret (err, if err =? 0 then b <| vb_head ::= fun h => u64 (h + length data) |> else b).

(** [VirtBuf::read] and [VirtBuf::write], at an offset. *)
Definition vb_read (b : VirtBuf) (offset size : Z) : vprog (option bytes) :=
  mm_read (u64 (vb_guest_addr b + offset)) size.
Definition vb_write (b : VirtBuf) (offset : Z) (data : bytes) : vprog Z :=
  mm_write (u64 (vb_guest_addr b + offset)) data.
Definition reset_head (b : VirtBuf) (addr : Z) : VirtBuf :=
  if addr =? 0 then b <| vb_head := vb_guest_addr b |> else b <| vb_head := addr |>.

(** ** Queues *)

Definition get_vq (i : Z) : vprog VirtQueue :=
  d ← gets (fun d => d);
  get_or OutOfBounds (znth (m_vqs d) i).
Definition set_vq (i : Z) (f : VirtQueue -> VirtQueue) : vprog unit :=
  _ ← get_vq i;
  modify (fun d => d <| m_vqs ::= alter f (Z.to_nat i) |>).

Definition gaddr (high low : Z) : Z := Z.lor (u64 (Z.shiftl high 32)) low.

Definition ready_queue : vprog Z :=
  d ← gets (fun d => d);
  vq ← get_vq (m_queue_sel d);
  if num_bufs vq =? 0 then mret (-1) else
  let desc_table_addr := gaddr (queue_desc_high vq) (queue_desc_low vq) in
  let avail_addr := gaddr (queue_driver_high vq) (queue_driver_low vq) in
  let used_addr := gaddr (queue_device_high vq) (queue_device_low vq) in
  if oob (m_mem d) desc_table_addr (sizeof_VirtqDesc * num_bufs vq) then mret (-1) else
  if oob (m_mem d) avail_addr (sizeof_VirtqAvail + num_bufs vq * 2) then mret (-1) else
  if oob (m_mem d) used_addr (sizeof_VirtqUsed + num_bufs vq * sizeof_VirtqUsedElem) then mret (-1) else
  set_vq (m_queue_sel d) (fun vq =>
    vq <| desc_table_gaddr := desc_table_addr |> <| avail_gaddr := avail_addr |>
       <| used_gaddr := used_addr |> <| ready := true |>);;
  mret 0.

Definition avail_empty (vq_idx : Z) : vprog bool :=
  vq ← get_vq vq_idx;
  r ← readX16 (u64 (avail_gaddr vq + offsetof_head_idx));
  avail_head_idx ← get_or Thrown r;
  mret (avail_head_idx =? avail_tail_idx vq).

Definition used_full (vq_idx : Z) : vprog bool :=
  vq ← get_vq vq_idx;
  r ← readX16 (u64 (used_gaddr vq + offsetof_head_idx));
  used_head_idx ← get_or Thrown r;
  mret (used_head_idx =? avail_tail_idx vq).

Section Env.
Context (env : dev_env).

Definition get_buf (vq_idx : Z) : vprog (option VirtBuf) :=
  d ← gets (fun d => d);
  if m_num_queues d <=? vq_idx then mret None else
  vq ← get_vq vq_idx;
  if negb (ready vq) then mret None else
  empty ← avail_empty vq_idx;
  if (empty : bool) then mret None else
  (if num_bufs vq =? 0 then fail Undefined else mret tt);;   (* division *)
  let tail := avail_tail_idx vq mod num_bufs vq in
  r ← readX16 (u64 (avail_gaddr vq + offsetof_ring + 2 * tail));
  match r with
  | None => mret None
  | Some desc_id =>
  if num_bufs vq <? desc_id then mret None else
  r ← mm_read (u64 (desc_table_gaddr vq + sizeof_VirtqDesc * desc_id)) sizeof_VirtqDesc;
  match load_desc <$> r with
  | None => mret None
  | Some desc =>
  if oob (m_mem d) (d_addr desc) (d_len desc) then mret None else
  raw ← dos env (DNew sizeof_VirtBuf);
  set_vq vq_idx (fun vq => vq <| avail_tail_idx ::= fun t => u16 (t + 1) |>);;
  mret (Some (Vbuf (d_addr desc) (d_len desc) desc_id (d_flags desc) (field raw 16 4) (d_addr desc)))
  end
  end.

Definition put_buf (vq_idx : Z) (vbuf : VirtBuf) : vprog Z :=
  d ← gets (fun d => d);
  if m_num_queues d <=? vq_idx then mret (-1) else
  vq ← get_vq vq_idx;
  if negb (ready vq) then mret (-1) else
  full ← used_full vq_idx;
  if (full : bool) then mret (-1) else
  let used_elem := le_bytes 4 (vb_id vbuf) ++ le_bytes 4 (vb_nbytes_written vbuf) in
  r ← readX16 (u64 (used_gaddr vq + offsetof_head_idx));
  match r with
  | None => mret (-1)
  | Some head_idx =>
  let new_head_idx := u16 (head_idx + 1) in
  (if num_bufs vq =? 0 then fail Undefined else mret tt);;   (* head_idx %= num_bufs *)
  let addr_to_write := u64 (used_gaddr vq + offsetof_ring + sizeof_VirtqUsedElem * num_bufs vq) in
  err ← mm_write addr_to_write used_elem;
  if negb (err =? 0) then mret (-1) else
  err ← writeX16 (u64 (used_gaddr vq + offsetof_head_idx)) new_head_idx;
  if negb (err =? 0) then mret (-1) else mret 0
  end.

(** ** Registers *)

Definition set_config_space (data : bytes) (size : Z) : vprog Z :=
  if CONFIG_SPACE_MAX <? size then mret (-1) else
  modify (fun d => d <| m_config_space ::= fun b => blit b 0 (take (Z.to_nat size) data) |>
                     <| m_config_space_size := size |>);;
  mret 0.

Definition send_irq (irq : Z) : vprog Z :=
  err ← dos env (DWrite CHILD_DEVICE_IOAPIC_FD [u8 irq]);
  mret (if err =? 1 then err else -1).

Definition set_device_features (features : Z) : vprog unit :=
  modify (fun d => d <| m_device_features := features |>).

Definition get_device_feature_bits (d : vdev) : Z :=
  if negb (m_device_features_sel d =? 0)
  then Z.land (m_device_features d) 0xffffffff
  else Z.land (Z.shiftr (m_device_features d) 32) 0xffffffff.

(** [out] has 8 bytes. *)
Definition config_space_read (offset size : Z) : vprog Z :=
  d ← gets (fun d => d);
  let offset := u64 (offset - CONFIG_SPACE_START) in
  if (size <=? 8) && (offset + size <=? length (m_config_space d))
  then mret (le_val (load (m_config_space d) (Z.to_nat offset) (Z.to_nat size)))
  else fail OutOfBounds.

Definition base_config_space_write (offset data size : Z) : vprog Z :=
  d ← gets (fun d => d);
  let offset := u64 (offset - CONFIG_SPACE_START) in
  if (size <=? 8) && (offset + size <=? length (m_config_space d))
  then modify (fun d => d <| m_config_space ::= fun b =>
         blit b (Z.to_nat offset) (take (Z.to_nat size) (le_bytes 8 data)) |>);; mret 0
  else fail OutOfBounds.

Definition in_config_space (d : vdev) (offset size : Z) : bool :=
  (CONFIG_SPACE_START <=? offset) &&
  (u64 (offset + size) <=? u32 (CONFIG_SPACE_START + m_config_space_size d)).

(** The result is converted to [int]. *)
Definition mmio_read (offset size : Z) : vprog Z :=
  d ← gets (fun d => d);
  if in_config_space d offset size then
    val ← config_space_read offset size;
    mret (i32 val)
  else
  v ← (if offset =? REG_MAGIC_VAL then mret (m_magic d)
       else if offset =? REG_DEVICE_VERS then mret (m_device_version d)
       else if offset =? REG_SUBSYS_DEV_ID then mret (m_device_id d)
       else if offset =? REG_SUBSYS_VEND_ID then mret (m_vendor_id d)
       else if offset =? REG_DEVICE_FEATURES then mret (get_device_feature_bits d)
       else if offset =? REG_QUEUE_NUM_MAX then
         vq ← get_vq (m_queue_sel d);
         mret (if ready vq then MAX_VQ_SIZE else 0)
       else if offset =? REG_QUEUE_READY then
         vq ← get_vq (m_queue_sel d);
         mret (if ready vq then 1 else 0)
       else if offset =? REG_ISR then mret (m_isr d)
       else if offset =? REG_DEVICE_STATUS then mret (m_status d)
       else mret 0);
  mret (i32 v).

(** ** Device classes *)

Class VirtioDevice (T : Type) := {
  base : T -> vdev;
  set_base : vdev -> T -> T;
  got_data : Z -> dev_prog T Z;
  config_space_write : Z -> Z -> Z -> dev_prog T Z;
}.

Section Device.
Context {T : Type} `{!VirtioDevice T}.

Definition in_base {A} (m : vprog A) : dev_prog T A := zoom base set_base m.

Definition write_reg (f : vdev -> vdev) : dev_prog T unit := in_base (modify f).
Definition write_vq (f : VirtQueue -> VirtQueue) : dev_prog T unit :=
  in_base (d ← gets (fun d => d); set_vq (m_queue_sel d) f).

Definition mmio_write (offset size data : Z) : dev_prog T Z :=
  d ← gets base;
  if in_config_space d offset size then config_space_write offset data size else
  (if offset =? REG_DEVICE_FEATURES_SELECT then
     write_reg (fun d => d <| m_device_features_sel := if data =? 0 then 0 else 1 |>)
   else if offset =? REG_DRIVER_FEATURES then
     write_reg (fun d => d <| m_driver_features ::= fun f =>
       if negb (m_driver_features_sel d =? 0)
       then Z.lor (Z.land f 0x00000000ffffffff) (u64 (Z.shiftl (Z.land data 0xffffffff) 32))
       else Z.lor (Z.land f 0xffffffff00000000) (Z.land data 0xffffffff) |>)
   else if offset =? REG_DRIVER_FEATURES_SELECT then
     write_reg (fun d => d <| m_driver_features_sel := if data =? 0 then 0 else 1 |>)
   else if offset =? REG_QUEUE_SELECT then
     if data <? m_num_queues d then write_reg (fun d => d <| m_queue_sel := data |>) else mret tt
   else if offset =? REG_QUEUE_NUM then
     if data <? MAX_VQ_SIZE then
       write_vq (fun vq => if ready vq then vq else vq <| num_bufs := data |>)
     else mret tt
   else if offset =? REG_QUEUE_READY then
     if negb (data =? 0) then
       err ← in_base ready_queue;
       if err =? 0 then _ ← got_data (u16 (m_queue_sel d)); mret tt else mret tt
     else mret tt
   else if offset =? REG_QUEUE_NOTIFY then
     _ ← got_data (u16 data); mret tt
   else if offset =? REG_INTR_ACK then write_reg (fun d => d <| m_isr_ack := u32 data |>)
   else if offset =? REG_QUEUE_DESC_LOW then write_vq (fun vq => vq <| queue_desc_low := u32 data |>)
   else if offset =? REG_QUEUE_DESC_HIGH then write_vq (fun vq => vq <| queue_desc_high := u32 data |>)
   else if offset =? REG_QUEUE_DRIVER_LOW then write_vq (fun vq => vq <| queue_driver_low := u32 data |>)
   else if offset =? REG_QUEUE_DRIVER_HIGH then write_vq (fun vq => vq <| queue_driver_high := u32 data |>)
   else if offset =? REG_QUEUE_DEVICE_LOW then write_vq (fun vq => vq <| queue_device_low := u32 data |>)
   else if offset =? REG_QUEUE_DEVICE_HIGH then write_vq (fun vq => vq <| queue_device_high := u32 data |>)
   else mret tt);;
  mret 0.

Definition handle_MMIO (mmio : mmio_request) : dev_prog T Z :=
  d ← gets base;
  let offset := u64 (mr_phys_addr mmio - m_mmio_start d) in
  dlock virtio_lock;;
  ret ← (if negb (mr_is_write mmio =? 0)
         then _ ← mmio_write offset (mr_len mmio) (mr_data mmio); mret 0
         else in_base (mmio_read offset (mr_len mmio)));
  dunlock virtio_lock;;
  mret ret.

(** The loop variable is [err].  A short read ends the loop.  While a worker
    waits for a request, the guest changes its memory, and the other workers and
    the threads of the device change the device: [others]. *)
Definition IO_loop (fuel : nat) (others : list dev_call -> T -> T) (fd : Z) : dev_prog T Z :=
  loop fuel (fun err =>
    r ← dos env (DRead fd sizeof_io_request);
    interfere others;;
    if negb (r.1 =? sizeof_io_request) then mret (inr err) else
    match load_io_request r.2 with
    | Some (Mmio mmio) =>
        err ← handle_MMIO mmio;
        _ ← HandledRequest env fd err;
        if negb (err =? 0) then mret (inr err) else mret (inl err)
    | _ => mret (inr (-1))
    end) 0.

(** Each worker thread runs [IO_loop] on its descriptor. *)
Definition handle_IO : dev_prog T Z :=
  h ← DeviceHandshake env CHILD_DEVICE_CHANNEL_FD;
  let '(err, vcpu_fds, nvcpus) := h in
  if negb (err =? 0) then mret (-1) else
  for_each (take (Z.to_nat nvcpus) vcpu_fds) (fun fd =>
    _ ← dos env (DThread_create (IoThread fd)); mret tt);;
  for_each (take (Z.to_nat nvcpus) vcpu_fds) (fun fd =>
    _ ← dos env (DThread_join (IoThread fd)); mret tt);;
  mret err.
End Device.
End Env.
