(* ===== verification/VirtioExec.v ===== *)
(** * VirtioExec: what the operations of a virtio device do

    The exact meaning of the bounds check, the invariant of the device, and the
    operations on its queues under that invariant. *)

From S2P Require Import Prelude Effects Libc Wire Device Virtio.

Implicit Types (d : vdev) (q : VirtQueue) (w : vworld).

(** All the outcomes of the comparisons in the goal. *)
Ltac cmp_cases :=
  repeat match goal with
  | |- context [?x <? ?y] => destruct (Z.ltb_spec x y)
  | |- context [?x <=? ?y] => destruct (Z.leb_spec x y)
  end.

(** ** Guest memory *)

Record mm_ok (m : memory_manager) : Prop := {
  mm_start : 0 <= m_guest_start_paddr m;
  mm_end : m_guest_end_paddr m = m_guest_start_paddr m + m_mem_size m;
  mm_size : 0 <= m_mem_size m < 2 ^ 63;
  mm_top : m_guest_end_paddr m < 2 ^ 64;
  mm_mapped : Z.of_nat (length (m_memory m)) = m_mem_size m;
  mm_bytes : is_bytes (m_memory m);
}.

(** The range lies in the system memory, as numbers without wrap-around. *)
Definition in_memory (m : memory_manager) (a size : Z) : Prop :=
  m_guest_start_paddr m <= a < m_guest_end_paddr m /\ a + size <= m_guest_end_paddr m.

Lemma oob_in_memory m a size :
  mm_ok m -> in_width 64 a -> in_width 64 size -> oob m a size = false <-> in_memory m a size.
Proof.
  intros [] Ha Hs. unfold oob, in_memory, in_width in *.
  assert (u64 (m_guest_end_paddr m - m_guest_start_paddr m) = m_mem_size m) as ->.
  { rewrite mm_end0. unfold wrap. rewrite Z.mod_small; lia. }
  destruct (Z.ltb_spec a (m_guest_start_paddr m)); [split; [done|lia]|].
  destruct (Z_lt_ge_dec (a + size) (2 ^ 64)) as [Hlt|Hge].
  - unfold wrap. rewrite Z.mod_small by lia.
    cmp_cases; split; try done; intros; lia.
  - split; [|lia]. unfold wrap.
    replace ((a + size) mod 2 ^ 64) with (a + size - 2 ^ 64).
    + cmp_cases; try done; intros; lia.
    + apply (Z.mod_unique_pos _ _ 1); lia.
Qed.

Lemma host_addr_in m a size : mm_ok m -> in_memory m a size -> 0 <= size ->
  host_addr m a = a - m_guest_start_paddr m /\ host_addr m a + size <= length (m_memory m) /\ 0 <= host_addr m a.
Proof.
  intros [] [Ha Hs] Hsize. unfold host_addr, wrap. rewrite Z.mod_small by lia. rewrite mm_mapped0. lia.
Qed.

(** The bytes at a guest address. *)
Definition guest_bytes (m : memory_manager) (a size : Z) : bytes :=
  load (m_memory m) (Z.to_nat (a - m_guest_start_paddr m)) (Z.to_nat size).

Definition guest_store (m : memory_manager) (a : Z) (data : bytes) : memory_manager :=
  m <| m_memory ::= fun b => blit b (Z.to_nat (a - m_guest_start_paddr m)) data |>.

Lemma wp_mm_read a size (Q : option bytes -> vworld -> Prop) w :
  mm_ok (m_mem (w_st w)) -> in_width 64 a -> in_width 64 size ->
  (in_memory (m_mem (w_st w)) a size -> Q (Some (guest_bytes (m_mem (w_st w)) a size)) w) ->
  (~ in_memory (m_mem (w_st w)) a size -> Q None w) ->
  wp (mm_read a size) Q w.
Proof.
  intros Hm Ha Hs H1 H2. pose proof (oob_in_memory _ _ _ Hm Ha Hs) as Ho. unfold mm_read. wp_go.
  destruct (oob _ a size).
  - wp_go. apply H2. intros Hin. by apply Ho in Hin.
  - destruct (host_addr_in (m_mem (w_st w)) a size) as (Eh & Hb & _); [done|by apply Ho|apply Hs|].
    rewrite (proj2 (Z.leb_le _ _)) by done. wp_go. rewrite Eh. apply H1. by apply Ho.
Qed.

Lemma wp_mm_write a data (Q : Z -> vworld -> Prop) w :
  mm_ok (m_mem (w_st w)) -> in_width 64 a -> in_width 64 (length data) ->
  (in_memory (m_mem (w_st w)) a (length data) ->
     Q 0 (w <| w_st ::= fun d => d <| m_mem := guest_store (m_mem d) a data |> |>)) ->
  (~ in_memory (m_mem (w_st w)) a (length data) -> Q (-1) w) ->
  wp (mm_write a data) Q w.
Proof.
  intros Hm Ha Hs H1 H2. pose proof (oob_in_memory _ _ _ Hm Ha Hs) as Ho. unfold mm_write. wp_go.
  destruct (oob _ a (length data)).
  - wp_go. apply H2. intros Hin. by apply Ho in Hin.
  - destruct (host_addr_in (m_mem (w_st w)) a (length data)) as (Eh & Hb & _); [done|by apply Ho|apply Hs|].
    rewrite (proj2 (Z.leb_le _ _)) by done. wp_go. rewrite Eh. apply H1. by apply Ho.
Qed.

Lemma is_bytes_blit m off src :
  (off + length src <= length m)%nat -> is_bytes m -> is_bytes src -> is_bytes (blit m off src).
Proof.
  intros _ Hm Hs. unfold is_bytes, blit in *. rewrite !Forall_app. split_and!.
  - by apply Forall_take.
  - done.
  - by apply Forall_drop.
Qed.

Lemma mm_ok_store m a data :
  mm_ok m -> in_memory m a (length data) -> is_bytes data -> mm_ok (guest_store m a data).
Proof.
  intros Hm Hin Hd. destruct Hm as [? He ? ? Hl ?], Hin.
  assert (Z.to_nat (a - m_guest_start_paddr m) + length data <= length (m_memory m))%nat by lia.
  constructor; try done; simpl; unfold set_field.
  - rewrite length_blit by lia. lia.
  - by apply is_bytes_blit.
Qed.

(** A load sees the last store to its range, and no store elsewhere. *)
Lemma guest_bytes_same m a data :
  mm_ok m -> in_memory m a (length data) -> guest_bytes (guest_store m a data) a (length data) = data.
Proof.
  intros [] []. unfold guest_bytes, guest_store. simpl. unfold set_field. rewrite Nat2Z.id.
  apply load_blit_same. lia.
Qed.

Lemma guest_bytes_other m a data a' size :
  mm_ok m -> in_memory m a (length data) -> in_memory m a' size -> 0 <= size ->
  a' + size <= a \/ a + length data <= a' ->
  guest_bytes (guest_store m a data) a' size = guest_bytes m a' size.
Proof.
  intros [] [] [] Hs Ho. unfold guest_bytes, guest_store. simpl. unfold set_field.
  apply load_blit_other; lia.
Qed.

Lemma in_memory_store m a data b size : in_memory (guest_store m a data) b size <-> in_memory m b size.
Proof. done. Qed.

(** ** The invariant of a device *)

Record vq_ok (m : memory_manager) (q : VirtQueue) : Prop := {
  vq_num : 0 <= num_bufs q < MAX_VQ_SIZE;
  vq_tail : in_width 16 (avail_tail_idx q);
  vq_regs : Forall (in_width 32) [queue_desc_low q; queue_desc_high q; queue_driver_low q;
              queue_driver_high q; queue_device_low q; queue_device_high q];
  vq_ready : ready q = true ->
    num_bufs q <> 0 /\ in_memory m (desc_table_gaddr q) (sizeof_VirtqDesc * num_bufs q) /\
    in_memory m (avail_gaddr q) (sizeof_VirtqAvail + num_bufs q * 2) /\
    in_memory m (used_gaddr q) (sizeof_VirtqUsed + num_bufs q * sizeof_VirtqUsedElem);
}.

Record vdev_ok (d : vdev) : Prop := {
  vd_mem : mm_ok (m_mem d);
  vd_len : Z.of_nat (length (m_vqs d)) = m_num_queues d;
  vd_sel : 0 <= m_queue_sel d < m_num_queues d;
  vd_nq : m_num_queues d <= 0x10000;
  vd_vqs : Forall (vq_ok (m_mem d)) (m_vqs d);
  vd_config : length (m_config_space d) = sizeof_m_config_space;
  vd_config_size : 0 <= m_config_space_size d <= CONFIG_SPACE_MAX;
}.

(** What the guest may not change: the memory mapping and the queues' number. *)
Definition vq_at (d : vdev) (i : Z) : VirtQueue := default calloc_vq (znth (m_vqs d) i).

Lemma get_vq_lookup d i : vdev_ok d -> 0 <= i < m_num_queues d ->
  znth (m_vqs d) i = Some (vq_at d i) /\ vq_ok (m_mem d) (vq_at d i).
Proof.
  intros Hd Hi. destruct (znth_is_Some (m_vqs d) i) as [q Hq]; [by rewrite (vd_len d Hd)|].
  unfold vq_at. rewrite Hq. split; [done|]. simpl. unfold znth in Hq. case_match; [done|].
  exact (proj1 (Forall_lookup _ _) (vd_vqs d Hd) _ _ Hq).
Qed.

Lemma wp_get_vq i (Q : VirtQueue -> vworld -> Prop) w :
  vdev_ok (w_st w) -> 0 <= i < m_num_queues (w_st w) ->
  Q (vq_at (w_st w) i) w -> wp (get_vq i) Q w.
Proof.
  intros Hd Hi HQ. destruct (get_vq_lookup _ i Hd Hi) as [Hl _]. unfold get_vq. wp_go.
  by eapply wp_get_or.
Qed.

Definition upd_vq (i : Z) (f : VirtQueue -> VirtQueue) (d : vdev) : vdev :=
  d <| m_vqs ::= alter f (Z.to_nat i) |>.

Lemma wp_set_vq i f (Q : unit -> vworld -> Prop) w :
  vdev_ok (w_st w) -> 0 <= i < m_num_queues (w_st w) ->
  Q tt (w <| w_st ::= upd_vq i f |>) -> wp (set_vq i f) Q w.
Proof. intros Hd Hi HQ. unfold set_vq. apply wp_bind, wp_get_vq; [done..|]. by apply wp_modify. Qed.

Lemma vdev_ok_upd i f d :
  vdev_ok d -> 0 <= i < m_num_queues d -> vq_ok (m_mem d) (f (vq_at d i)) -> vdev_ok (upd_vq i f d).
Proof.
  intros Hd Hi Hq. destruct (get_vq_lookup d i Hd Hi) as [Hl _].
  destruct Hd. constructor; try done; simpl; unfold set_field.
  - by rewrite length_alter.
  - apply Forall_alter; [done|]. intros q Hq' _. unfold znth in Hl.
    rewrite (proj2 (Z.ltb_ge i 0)) in Hl by lia.
    rewrite Hq' in Hl. by injection Hl as ->.
Qed.

Lemma vq_at_upd i f d j :
  vdev_ok d -> 0 <= i < m_num_queues d -> 0 <= j ->
  vq_at (upd_vq i f d) j = if decide (j = i) then f (vq_at d i) else vq_at d j.
Proof.
  intros Hd Hi Hj. destruct (get_vq_lookup d i Hd Hi) as [Hl _]. unfold vq_at, upd_vq, znth in *. simpl.
  unfold set_field. rewrite !(proj2 (Z.ltb_ge _ _)) in * by lia. case_decide as E.
  - subst. by rewrite list_lookup_alter_eq, Hl.
  - rewrite list_lookup_alter_ne by lia. done.
Qed.

Lemma vdev_ok_store a data d :
  vdev_ok d -> in_memory (m_mem d) a (length data) -> is_bytes data ->
  vdev_ok (d <| m_mem := guest_store (m_mem d) a data |>).
Proof.
  intros [] Hin Hb. constructor; try done; [by apply mm_ok_store|].
  eapply Forall_impl; [done|]. intros q []. by constructor.
Qed.

(** A pure register of the device is changed. *)
Lemma gaddr_range h l : in_width 32 h -> in_width 32 l -> in_width 64 (gaddr h l).
Proof.
  intros Hh Hl. unfold gaddr. apply in_width_bits; [lia|..].
  - apply Z.lor_nonneg. split; [apply wrap_range; lia|apply Hl].
  - intros i Hi. rewrite Z.lor_spec, (in_width_testbit 64 (u64 _)), (in_width_testbit 32 l)
      by (done || lia || (apply wrap_range; lia)). done.
Qed.

Lemma in_memory_width m a size : mm_ok m -> in_memory m a size -> in_width 64 a.
Proof. intros [] []. unfold in_width. lia. Qed.

(** Where the device and the guest's memory are; this never changes. *)
Definition fixed_part (d : vdev) : Z * Z * Z :=
  (m_mmio_start d, m_guest_start_paddr (m_mem d), m_guest_end_paddr (m_mem d)).

Lemma ready_queue_ok (Q : Z -> vworld -> Prop) w :
  vdev_ok (w_st w) ->
  (forall r d, vdev_ok d -> fixed_part d = fixed_part (w_st w) -> Q r (w <| w_st := d |>)) ->
  wp ready_queue Q w.
Proof.
  intros Hd HQ. assert (forall r, Q r w) as Hsame by (intros r; specialize (HQ r (w_st w) Hd eq_refl); by destruct w).
  pose proof (vd_sel _ Hd) as Hsel. destruct (get_vq_lookup _ _ Hd Hsel) as [_ [Hn Ht Hr _]].
  unfold ready_queue. apply wp_bind, wp_gets, wp_bind, wp_get_vq; [done..|].
  set (q := vq_at (w_st w) (m_queue_sel (w_st w))) in *.
  destruct (Z.eqb_spec (num_bufs q) 0) as [E|E]; [by wp_go|]. cbv zeta.
  assert (Hr' := Hr). rewrite !Forall_cons in Hr'. destruct Hr' as (? & ? & ? & ? & ? & ? & _).
  pose proof (vd_mem _ Hd) as Hm.
  assert (forall a n, in_width 64 a -> 0 <= n < 2 ^ 32 -> oob (m_mem (w_st w)) a n = false ->
    in_memory (m_mem (w_st w)) a n) as Hin.
  { intros a n Ha Hna Ho. apply (oob_in_memory _ a n Hm Ha); [unfold in_width; lia|done]. }
  unfold MAX_VQ_SIZE in Hn.
  destruct (oob _ (gaddr (queue_desc_high q) _) _) eqn:E1; [by wp_go|].
  destruct (oob _ (gaddr (queue_driver_high q) _) _) eqn:E2; [by wp_go|].
  destruct (oob _ (gaddr (queue_device_high q) _) _) eqn:E3; [by wp_go|].
  apply Hin in E1; [|by apply gaddr_range|unfold sizeof_VirtqDesc; lia].
  apply Hin in E2; [|by apply gaddr_range|unfold sizeof_VirtqAvail; lia].
  apply Hin in E3; [|by apply gaddr_range|unfold sizeof_VirtqUsed, sizeof_VirtqUsedElem; lia].
  apply wp_bind, wp_set_vq; [done..|]. wp_go. apply HQ; [|done]. apply vdev_ok_upd; [done..|]. fold q.
  by constructor.
Qed.

(** ** Buffers *)

(** The 16-bit number at a guest address. *)
Definition guest16 (m : memory_manager) (a : Z) : Z := le_val (guest_bytes m a 2).

Lemma guest16_range m a : in_width 16 (guest16 m a).
Proof.
  unfold guest16, guest_bytes, load. rewrite le_val_take. by apply wrap_range.
Qed.

Lemma wp_readX16 a (Q : option Z -> vworld -> Prop) w :
  mm_ok (m_mem (w_st w)) -> in_memory (m_mem (w_st w)) a 2 ->
  Q (Some (guest16 (m_mem (w_st w)) a)) w -> wp (readX16 a) Q w.
Proof.
  intros Hm Hin HQ. unfold readX16. apply wp_bind, wp_mm_read; [done|by eapply in_memory_width|done|by wp_go|done].
Qed.

Lemma u64_in m a size : mm_ok m -> in_memory m a size -> u64 a = a.
Proof. intros Hm Hin. apply wrap_small. by eapply in_memory_width. Qed.

Section Ready.
Context (m : memory_manager) (q : VirtQueue).
Context (Hm : mm_ok m) (Hq : vq_ok m q) (Hr : ready q = true).

Lemma ready_num : 0 < num_bufs q < MAX_VQ_SIZE.
Proof. destruct Hq. destruct (vq_ready0 Hr). lia. Qed.

Lemma ready_heads : in_memory m (avail_gaddr q + offsetof_head_idx) 2 /\ in_memory m (used_gaddr q + offsetof_head_idx) 2.
Proof.
  destruct Hq. destruct (vq_ready0 Hr) as (Hn & _ & [Ha Ha'] & [Hu Hu']).
  unfold in_memory, offsetof_head_idx, sizeof_VirtqAvail, sizeof_VirtqUsed, sizeof_VirtqUsedElem in *. lia.
Qed.

Lemma ready_ring t : 0 <= t < num_bufs q -> in_memory m (avail_gaddr q + offsetof_ring + 2 * t) 2.
Proof.
  intros Ht. destruct Hq. destruct (vq_ready0 Hr) as (Hn & _ & [Ha Ha'] & _).
  unfold in_memory, offsetof_ring, sizeof_VirtqAvail in *. lia.
Qed.

Lemma ready_desc i : 0 <= i < num_bufs q ->
  in_memory m (desc_table_gaddr q + sizeof_VirtqDesc * i) sizeof_VirtqDesc.
Proof.
  intros Hi. destruct Hq. destruct (vq_ready0 Hr) as (Hn & [Ha Ha'] & _).
  unfold in_memory, sizeof_VirtqDesc in *. lia.
Qed.
End Ready.

Lemma wp_avail_empty i (Q : bool -> vworld -> Prop) w :
  let q := vq_at (w_st w) i in
  vdev_ok (w_st w) -> 0 <= i < m_num_queues (w_st w) -> ready q = true ->
  Q (guest16 (m_mem (w_st w)) (avail_gaddr q + offsetof_head_idx) =? avail_tail_idx q) w ->
  wp (avail_empty i) Q w.
Proof.
  intros q Hd Hi Hr HQ. destruct (get_vq_lookup (w_st w) i Hd Hi) as [_ Hq]. pose proof (vd_mem _ Hd) as Hm.
  destruct (ready_heads _ q Hq Hr) as [Hav _].
  unfold avail_empty. apply wp_bind, wp_get_vq; [done..|]. fold q. rewrite (u64_in _ _ _ Hm Hav).
  apply wp_bind, wp_readX16; [done..|]. apply wp_bind. by eapply wp_get_or.
Qed.

Lemma wp_used_full i (Q : bool -> vworld -> Prop) w :
  let q := vq_at (w_st w) i in
  vdev_ok (w_st w) -> 0 <= i < m_num_queues (w_st w) -> ready q = true ->
  Q (guest16 (m_mem (w_st w)) (used_gaddr q + offsetof_head_idx) =? avail_tail_idx q) w ->
  wp (used_full i) Q w.
Proof.
  intros q Hd Hi Hr HQ. destruct (get_vq_lookup (w_st w) i Hd Hi) as [_ Hq]. pose proof (vd_mem _ Hd) as Hm.
  destruct (ready_heads _ q Hq Hr) as [_ Hus].
  unfold used_full. apply wp_bind, wp_get_vq; [done..|]. fold q. rewrite (u64_in _ _ _ Hm Hus).
  apply wp_bind, wp_readX16; [done..|]. apply wp_bind. by eapply wp_get_or.
Qed.

Instance in_memory_dec m a size : Decision (in_memory m a size).
Proof. unfold in_memory. apply _. Defined.

(** The entry of the ring that is next, and its descriptor. *)
Definition next_id (d : vdev) (i : Z) : Z :=
  let q := vq_at d i in
  guest16 (m_mem d) (avail_gaddr q + offsetof_ring + 2 * (avail_tail_idx q mod num_bufs q)).
Definition next_desc (d : vdev) (i : Z) : VirtqDesc :=
  load_desc (guest_bytes (m_mem d) (desc_table_gaddr (vq_at d i) + sizeof_VirtqDesc * next_id d i) sizeof_VirtqDesc).

(** Whether the driver offers a buffer that the device accepts. *)
Definition offered (d : vdev) (i : Z) : Prop :=
  let q := vq_at d i in let desc := next_desc d i in
  i < m_num_queues d /\ ready q = true /\
  guest16 (m_mem d) (avail_gaddr q + offsetof_head_idx) <> avail_tail_idx q /\
  next_id d i <= num_bufs q /\
  in_memory (m_mem d) (desc_table_gaddr q + sizeof_VirtqDesc * next_id d i) sizeof_VirtqDesc /\
  in_memory (m_mem d) (d_addr desc) (d_len desc).

Instance offered_dec d i : Decision (offered d i).
Proof. unfold offered. apply _. Defined.

Definition consumed (i : Z) (d : vdev) : vdev :=
  upd_vq i (fun q => q <| avail_tail_idx ::= fun t => u16 (t + 1) |>) d.

Lemma vdev_ok_consumed i d : vdev_ok d -> 0 <= i < m_num_queues d -> vdev_ok (consumed i d).
Proof.
  intros Hd Hi. apply vdev_ok_upd; [done..|]. destruct (get_vq_lookup d i Hd Hi) as [_ []].
  constructor; try done. apply wrap_range. lia.
Qed.

Lemma field_width b off n : (n <= 8)%nat -> in_width (8 * n) (field b off n).
Proof.
  intros Hn. unfold field, load. rewrite le_val_take. apply wrap_range. lia.
Qed.

Lemma get_buf_exec env i (Q : option VirtBuf -> vworld -> Prop) w :
  vdev_ok (w_st w) -> 0 <= i ->
  (~ offered (w_st w) i -> Q None w) ->
  (offered (w_st w) i -> forall junk,
     let desc := next_desc (w_st w) i in
     Q (Some (Vbuf (d_addr desc) (d_len desc) (next_id (w_st w) i) (d_flags desc) junk (d_addr desc)))
       (w <| w_trace ::= fun t => t ++ [DNew sizeof_VirtBuf : call dev_iface] |> <| w_st ::= consumed i |>)) ->
  wp (get_buf env i) Q w.
Proof.
  intros Hd Hi Hno Hyes. unfold get_buf. wp_go.
  destruct (Z.leb_spec (m_num_queues (w_st w)) i) as [Hge|Hlt].
  { wp_go. apply Hno. intros [? _]. lia. }
  destruct (get_vq_lookup (w_st w) i Hd ltac:(lia)) as [_ Hq]. pose proof (vd_mem _ Hd) as Hm.
  apply wp_bind, wp_get_vq; [done..|]. set (q := vq_at (w_st w) i) in *.
  destruct (ready q) eqn:Hr; cbn [negb]; [|wp_go; apply Hno; intros (_ & H & _); fold q in H; congruence].
  destruct (ready_num _ q Hq Hr) as [Hn Hn'].
  apply wp_bind, wp_avail_empty; [done..|]. fold q.
  destruct (Z.eqb_spec (guest16 (m_mem (w_st w)) (avail_gaddr q + offsetof_head_idx)) (avail_tail_idx q)) as [E|E].
  { wp_go. apply Hno. intros (_ & _ & H & _). by apply H. }
  rewrite (proj2 (Z.eqb_neq (num_bufs q) 0)) by lia. wp_go.
  pose proof (ready_ring _ q Hq Hr (avail_tail_idx q mod num_bufs q) ltac:(apply Z.mod_pos_bound; lia)) as Hring.
  rewrite (u64_in _ _ _ Hm Hring). apply wp_readX16; [done..|].
  change (guest16 _ _) with (next_id (w_st w) i).
  pose proof (guest16_range (m_mem (w_st w)) (avail_gaddr q + offsetof_ring + 2 * (avail_tail_idx q mod num_bufs q))) as Hid.
  change (guest16 _ _) with (next_id (w_st w) i) in Hid.
  destruct (Z.ltb_spec (num_bufs q) (next_id (w_st w) i)) as [Hbig|Hsmall].
  { wp_go. apply Hno. intros (_ & _ & _ & H & _). fold q in H. lia. }
  assert (u64 (desc_table_gaddr q + sizeof_VirtqDesc * next_id (w_st w) i) =
          desc_table_gaddr q + sizeof_VirtqDesc * next_id (w_st w) i) as ->.
  { apply wrap_small. destruct Hq as [_ _ _ H], Hm. destruct (H Hr) as (_ & [H1 H2] & _).
    unfold in_width, sizeof_VirtqDesc in *. lia. }
  apply wp_bind, wp_mm_read; [done| |done| |].
  { destruct Hq as [_ _ _ H], Hm. destruct (H Hr) as (_ & [H1 H2] & _). unfold in_width, sizeof_VirtqDesc in *. lia. }
  2: { intros Hout. wp_go. apply Hno. intros (_ & _ & _ & _ & H & _). by apply Hout. }
  intros Hdesc. cbn [fmap option_fmap option_map]. change (load_desc _) with (next_desc (w_st w) i).
  pose proof (oob_in_memory (m_mem (w_st w)) (d_addr (next_desc (w_st w) i)) (d_len (next_desc (w_st w) i)) Hm
    (field_width _ 0 8 ltac:(lia))
    (in_width_mono 32 64 _ ltac:(lia) (field_width _ 8 4 ltac:(lia)))) as Ho.
  destruct (oob _ _ _); [wp_go; apply Hno; intros (_ & _ & _ & _ & _ & H); by apply Ho in H|].
  apply wp_bind. dev_step. apply wp_bind, wp_set_vq; [done|simpl; lia|]. wp_go. apply Hyes.
  unfold offered. cbv zeta. fold q. split_and!; [done..|]. by apply Ho.
Qed.

(** ** Returned buffers *)

Definition used_head (d : vdev) (i : Z) : Z :=
  guest16 (m_mem d) (used_gaddr (vq_at d i) + offsetof_head_idx).

(** Where the device writes the entry of a returned buffer. *)
Definition used_slot (q : VirtQueue) : Z :=
  used_gaddr q + offsetof_ring + sizeof_VirtqUsedElem * num_bufs q.

Definition used_elem (b : VirtBuf) : bytes := le_bytes 4 (vb_id b) ++ le_bytes 4 (vb_nbytes_written b).

(** The condition for the return of a buffer. *)
Definition returnable (d : vdev) (i : Z) : Prop :=
  i < m_num_queues d /\ ready (vq_at d i) = true /\ used_head d i <> avail_tail_idx (vq_at d i) /\
  in_memory (m_mem d) (used_slot (vq_at d i)) 8.

Definition returned (i : Z) (b : VirtBuf) (d : vdev) : vdev :=
  let q := vq_at d i in
  d <| m_mem := guest_store (guest_store (m_mem d) (used_slot q) (used_elem b))
                  (used_gaddr q + offsetof_head_idx) (le_bytes 2 (u16 (used_head d i + 1))) |>.

Lemma used_elem_bytes b : is_bytes (used_elem b).
Proof. unfold used_elem, is_bytes. apply Forall_app. split; apply le_bytes_is_bytes. Qed.

Lemma vdev_ok_returned i b d :
  vdev_ok d -> 0 <= i -> returnable d i -> vdev_ok (returned i b d).
Proof.
  intros Hd Hi (Hlt & Hr & _ & Hin). destruct (get_vq_lookup d i Hd ltac:(lia)) as [_ Hq].
  destruct (ready_heads _ _ Hq Hr) as [_ Hh].
  assert (vdev_ok (d <| m_mem := guest_store (m_mem d) (used_slot (vq_at d i)) (used_elem b) |>)) as Hd1.
  { apply vdev_ok_store; [done..|apply used_elem_bytes]. }
  exact (vdev_ok_store _ (le_bytes 2 (u16 (used_head d i + 1))) _ Hd1 Hh (le_bytes_is_bytes _ _)).
Qed.

Lemma put_buf_exec i b (Q : Z -> vworld -> Prop) w :
  vdev_ok (w_st w) -> 0 <= i ->
  (~ returnable (w_st w) i -> Q (-1) w) ->
  (returnable (w_st w) i -> Q 0 (w <| w_st ::= returned i b |>)) ->
  wp (put_buf i b) Q w.
Proof.
  intros Hd Hi Hno Hyes. unfold put_buf. wp_go.
  destruct (Z.leb_spec (m_num_queues (w_st w)) i) as [Hge|Hlt].
  { wp_go. apply Hno. intros [? _]. lia. }
  destruct (get_vq_lookup (w_st w) i Hd ltac:(lia)) as [_ Hq]. pose proof (vd_mem _ Hd) as Hm.
  apply wp_bind, wp_get_vq; [done..|]. set (q := vq_at (w_st w) i) in *.
  destruct (ready q) eqn:Hr; cbn [negb]; [|wp_go; apply Hno; intros (_ & H & _); fold q in H; congruence].
  destruct (ready_num _ q Hq Hr) as [Hn Hn']. destruct (ready_heads _ q Hq Hr) as [_ Hus].
  apply wp_bind, wp_used_full; [done..|]. fold q.
  change (guest16 _ (used_gaddr q + _)) with (used_head (w_st w) i).
  destruct (Z.eqb_spec (used_head (w_st w) i) (avail_tail_idx q)) as [E|E].
  { wp_go. apply Hno. intros (_ & _ & H & _). by apply H. }
  rewrite (u64_in _ _ _ Hm Hus). apply wp_bind, wp_readX16; [done..|]. cbv zeta.
  rewrite (proj2 (Z.eqb_neq (num_bufs q) 0)) by lia. wp_go.
  fold (used_elem b). fold (used_slot q).
  change (guest16 _ (used_gaddr q + _)) with (used_head (w_st w) i).
  assert (in_width 64 (used_slot q)) as Hw.
  { destruct Hq as [_ _ _ H], Hm. destruct (H Hr) as (_ & _ & _ & [H1 H2]).
    unfold in_width, used_slot, sizeof_VirtqUsed, sizeof_VirtqUsedElem, offsetof_ring in *. lia. }
  rewrite (wrap_small 64) by done.
  apply wp_mm_write; [done..| |].
  2: { intros Hout. wp_go. apply Hno. intros (_ & _ & _ & H). by apply Hout. }
  intros Hin. wp_go. unfold writeX16.
  apply wp_mm_write; [by apply mm_ok_store; [..|apply used_elem_bytes]|by eapply in_memory_width|done| |].
  - intros _. wp_go. apply Hyes. done.
  - intros Hout. exfalso. by apply Hout.
Qed.
