(* ===== verification/VirtioSafe.v ===== *)
(** * VirtioSafe: any virtio device behind its registers

    What a device class promises to the base class ([VirtioLaws]), and, against
    that interface only, that every register access keeps the invariant of the
    device and that its worker threads stop in no other way than the device class. *)

From S2P Require Import Prelude Effects Libc Wire Device Virtio VirtioExec.

(** [ok] are the ways in which the device may stop; the invariant [inv] is one of
    the calls that were made and of the device. *)
Class VirtioLaws (ok : fault -> bool) (T : Type) `{!VirtioDevice T} (start : Z) (inv : list dev_call -> T -> Prop) := {
  law_fuel : ok OutOfFuel = true;
  law_base : forall d t, base (set_base d t) = d;
  law_inv : forall tr t, inv tr t -> vdev_ok (base t) /\ m_mmio_start (base t) = start;
  law_set : forall tr d t, inv tr t -> vdev_ok d -> fixed_part d = fixed_part (base t) -> inv tr (set_base d t);
  law_read : forall tr t fd n, inv tr t -> inv (tr ++ [DRead fd n]) t;
  law_write : forall tr t fd bs, inv tr t -> inv (tr ++ [DWrite fd bs]) t;
  law_got_data : forall i (w : dev_world T), in_width 16 i -> inv (w_trace w) (w_st w) -> w_held w = [virtio_lock] ->
    upto ok (got_data i) (fun _ w' => inv (w_trace w') (w_st w') /\ w_held w' = w_held w) w;
  law_config_write : forall offset data size (w : dev_world T),
    inv (w_trace w) (w_st w) -> 0 <= size <= 8 ->
    CONFIG_SPACE_START <= offset -> offset + size <= CONFIG_SPACE_START + m_config_space_size (base (w_st w)) ->
    upto ok (config_space_write offset data size) (fun _ w' => inv (w_trace w') (w_st w') /\ w_held w' = w_held w) w;
}.

(** A request that the bus routes to the device: an address of its region and
    at most 8 bytes. *)
Definition mmio_in_range (start : Z) (r : mmio_request) : Prop :=
  0 <= mr_phys_addr r - start < 2 ^ 63 /\ 0 <= mr_len r <= 8 /\ in_width 64 (mr_data r).

Lemma in_config_space_spec d offset size :
  vdev_ok d -> 0 <= offset < 2 ^ 63 -> 0 <= size <= 8 -> in_config_space d offset size = true ->
  CONFIG_SPACE_START <= offset /\ offset + size <= CONFIG_SPACE_START + m_config_space_size d.
Proof.
  intros Hd Ho Hs H. pose proof (vd_config_size d Hd) as Hc. unfold in_config_space, wrap in H.
  unfold CONFIG_SPACE_START, CONFIG_SPACE_MAX in *. rewrite !Z.mod_small in H by lia.
  apply andb_true_iff in H as [?%Z.leb_le ?%Z.leb_le]. lia.
Qed.

Lemma wp_config_space_read offset size (Q : Z -> vworld -> Prop) (w : vworld) :
  vdev_ok (w_st w) -> 0 <= offset < 2 ^ 63 -> 0 <= size <= 8 ->
  CONFIG_SPACE_START <= offset -> offset + size <= CONFIG_SPACE_START + m_config_space_size (w_st w) ->
  (forall v, Q v w) -> wp (config_space_read offset size) Q w.
Proof.
  intros Hd Ho Hs H1 H2 HQ. pose proof (vd_config_size _ Hd) as Hc. pose proof (vd_config _ Hd) as Hl.
  unfold config_space_read. wp_go. unfold wrap, CONFIG_SPACE_START, CONFIG_SPACE_MAX, sizeof_m_config_space in *.
  rewrite Z.mod_small by lia. rewrite (proj2 (Z.leb_le _ _)), (proj2 (Z.leb_le _ _)) by lia. wp_go. apply HQ.
Qed.

Lemma mmio_read_ok offset size (Q : Z -> vworld -> Prop) (w : vworld) :
  vdev_ok (w_st w) -> 0 <= offset < 2 ^ 63 -> 0 <= size <= 8 -> (forall v, Q v w) ->
  wp (mmio_read offset size) Q w.
Proof.
  intros Hd Ho Hs HQ. pose proof (vd_sel _ Hd). unfold mmio_read. wp_go.
  destruct (in_config_space _ _ _) eqn:E.
  - destruct (in_config_space_spec _ _ _ Hd Ho Hs E). apply wp_bind, wp_config_space_read; [done..|].
    intros v. wp_go. apply HQ.
  - apply wp_bind.
    repeat match goal with |- wp (if ?b then _ else _) _ _ => destruct b end; wp_go; try apply HQ.
    all: apply wp_get_vq; [done..|]; wp_go; apply HQ.
Qed.

Lemma set_num_ok data m q :
  0 <= data < MAX_VQ_SIZE -> vq_ok m q -> vq_ok m (if ready q then q else q <| num_bufs := data |>).
Proof.
  intros Hd Hq. destruct (ready q) eqn:E; [done|]. destruct Hq. constructor; try done.
  simpl. rewrite E. discriminate.
Qed.

(** Other contents of the same memory. *)
Definition set_memory (m' : bytes) (v : vdev) : vdev := v <| m_mem ::= fun m => m <| m_memory := m' |> |>.

Lemma vdev_ok_memory v m' :
  vdev_ok v -> length m' = length (m_memory (m_mem v)) -> is_bytes m' -> vdev_ok (set_memory m' v).
Proof.
  intros [Hm] Hl Hb. constructor; try done.
  - destruct Hm. constructor; try done. simpl. unfold set_field. by rewrite Hl.
  - eapply Forall_impl; [done|]. intros q []. by constructor.
Qed.

Section Laws.
Context (ok : fault -> bool) (T : Type) `{!VirtioDevice T} (start : Z) (inv : list dev_call -> T -> Prop) `{!VirtioLaws ok T start inv}.
Implicit Types (w : dev_world T).

(** The end of a register access. *)
Definition kept (w w' : dev_world T) : Prop := inv (w_trace w') (w_st w') /\ w_held w' = w_held w.

Lemma kept_unchanged w : inv (w_trace w) (w_st w) -> kept w w.
Proof. done. Qed.

Lemma in_base_ok {A} (m : vprog A) w :
  inv (w_trace w) (w_st w) ->
  wp m (fun _ (w' : vworld) => vdev_ok (w_st w') /\ fixed_part (w_st w') = fixed_part (base (w_st w)) /\ w_held w' = w_held w /\ w_trace w' = w_trace w)
    (zoom_world base w) ->
  wp (in_base m) (fun _ w' => kept w w') w.
Proof.
  intros Hi Hm. apply wp_zoom. eapply wp_mono; [exact Hm|]. intros a w' (Hd & Hs & Hh & Ht).
  split; [|done]. simpl. rewrite Ht. by apply law_set.
Qed.

Lemma write_reg_ok f w :
  inv (w_trace w) (w_st w) -> vdev_ok (f (base (w_st w))) -> fixed_part (f (base (w_st w))) = fixed_part (base (w_st w)) ->
  wp (write_reg f) (fun _ w' => kept w w') w.
Proof.
  intros Hi H1 H2. destruct (law_inv _ _ Hi) as [Hd Hs]. apply in_base_ok; [done|]. wp_go.
  split_and!; [done|exact H2|done|done].
Qed.

Lemma write_vq_ok f w :
  inv (w_trace w) (w_st w) -> (forall m q, vq_ok m q -> vq_ok m (f q)) ->
  wp (write_vq f) (fun _ w' => kept w w') w.
Proof.
  intros Hi Hf. destruct (law_inv _ _ Hi) as [Hd Hs]. pose proof (vd_sel _ Hd) as Hsel.
  apply in_base_ok; [done|]. wp_go. apply wp_set_vq; [done..|]. split_and!; [|done..].
  apply vdev_ok_upd; [done..|]. apply Hf. by apply get_vq_lookup.
Qed.

Lemma got_data_ok i (w : dev_world T) : inv (w_trace w) (w_st w) -> w_held w = [virtio_lock] -> in_width 16 i ->
  upto ok (_ ← got_data i; mret tt) (fun _ w' => kept w w') w.
Proof.
  intros Hi Hv Hr. apply upto_bind. eapply upto_mono; [by apply law_got_data|].
  intros r w' Hk. by apply wp_upto, wp_ret.
Qed.

Lemma ready_then_ok i (w : dev_world T) : inv (w_trace w) (w_st w) -> w_held w = [virtio_lock] -> in_width 16 i ->
  upto ok (err ← in_base ready_queue; if err =? 0 then _ ← got_data i; mret tt else mret tt)
    (fun _ w' => kept w w') w.
Proof.
  intros Hi Hv Hr. destruct (law_inv _ _ Hi) as [Hd Hs].
  apply upto_bind, (upto_mono ok _ (fun _ w' => kept w w')).
  - apply wp_upto, in_base_ok; [done|]. apply ready_queue_ok; [done|]. intros r d Hd' Hs'.
    split_and!; [done|exact Hs'|done|done].
  - intros r w' [Hi' Hh]. case_match; [|by apply wp_upto, wp_ret].
    eapply upto_mono; [apply got_data_ok; [done|exact (eq_trans Hh Hv)|done]|]. intros ? w'' [? Hh']. split; [done|]. by rewrite Hh'.
Qed.

Lemma mmio_write_ok offset size data (w : dev_world T) :
  inv (w_trace w) (w_st w) -> w_held w = [virtio_lock] -> 0 <= offset < 2 ^ 63 -> 0 <= size <= 8 -> in_width 64 data ->
  upto ok (mmio_write offset size data) (fun _ w' => kept w w') w.
Proof.
  intros Hi Hv Ho Hs Hdat. destruct (law_inv _ _ Hi) as [Hd Hst]. pose proof (vd_sel _ Hd) as Hsel.
  unfold mmio_write. apply upto_bind, wp_upto, wp_gets.
  destruct (in_config_space _ _ _) eqn:E.
  { destruct (in_config_space_spec _ _ _ Hd Ho Hs E). by apply law_config_write. }
  apply upto_bind. apply (upto_mono ok _ (fun _ w' => kept w w')); [|intros _ w' Hk; by apply wp_upto, wp_ret].
  unfold in_width in Hdat.
  repeat lazymatch goal with
  | |- upto ok (if ?b then _ else _) _ _ => destruct b eqn:?
  | |- upto ok (mret _) _ _ => apply wp_upto, wp_ret, kept_unchanged, Hi
  | |- upto ok (write_reg _) _ _ => apply wp_upto, write_reg_ok; [done| |done]
  | |- upto ok (write_vq _) _ _ => apply wp_upto, write_vq_ok; [done|]
  | |- upto ok (_ ← got_data _; _) _ _ => apply got_data_ok; [done|done|apply wrap_range; lia]
  | |- upto ok (_ ← in_base ready_queue; _) _ _ => apply ready_then_ok; [done|done|apply wrap_range; lia]
  end.
  all: try (destruct Hd; constructor; try done; simpl; unfold set_field; lia).
  all: intros m q Hq; try (apply set_num_ok; [lia|done]).
  all: destruct Hq as [Hn Ht Hr Hrdy]; constructor; try done.
  all: simpl in Hr |- *; unfold set_field; rewrite !Forall_cons in Hr |- *.
  all: destruct Hr as (? & ? & ? & ? & ? & ? & _); split_and!; try done; apply wrap_range; lia.
Qed.

Lemma handle_MMIO_ok mmio (w : dev_world T) :
  inv (w_trace w) (w_st w) -> w_held w = [] -> mmio_in_range start mmio ->
  upto ok (handle_MMIO mmio) (fun _ w' => kept w w') w.
Proof.
  intros Hi Hl (Ho & Hs & Hdat). destruct (law_inv _ _ Hi) as [Hd Hst].
  unfold handle_MMIO. apply upto_bind, wp_upto, wp_gets. rewrite Hst.
  unfold wrap at 1 2. rewrite Z.mod_small by lia.
  apply upto_bind, wp_upto, wp_dlock; [rewrite Hl; apply not_elem_of_nil|]. set (w1 := w <| w_held ::= _ |>).
  apply upto_bind. apply (upto_mono ok _ (fun _ w' => kept w1 w')).
  - case_match.
    + apply upto_bind. eapply upto_mono; [apply mmio_write_ok; [done|unfold w1; simpl; unfold set_field; by rewrite Hl|done..]|]. intros r w' Hk. by apply wp_upto, wp_ret.
    + apply wp_upto, in_base_ok; [done|]. by apply mmio_read_ok.
  - intros r w' [Hi' Hh]. apply upto_bind, wp_upto, (wp_dunlock _ (w_held w)); [done|rewrite Hl; apply not_elem_of_nil|].
    by apply wp_upto, wp_ret.
Qed.

(** The monitor sends the device only requests for its region. *)
Definition routed (env : dev_env) : Prop := forall trace fd r,
  load_io_request (env trace (DRead fd sizeof_io_request)).2 = Some (Mmio r) -> mmio_in_range start r.

Lemma IO_loop_ok env fuel others fd (w : dev_world T) :
  inv (w_trace w) (w_st w) -> w_held w = [] -> routed env ->
  (forall tr d, inv tr d -> inv tr (others tr d)) ->
  upto ok (IO_loop env fuel others fd) (fun _ w' => kept w w') w.
Proof.
  intros Hi Hl Hroute Hothers. unfold IO_loop.
  apply (upto_loop ok (fun _ w' => kept w w')); [apply law_fuel| |done]. clear Hi. intros err w1 [Hi Hh].
  assert (w_held w1 = []) as Hl1 by (by rewrite Hh).
  apply upto_bind, wp_upto. dev_step. apply upto_bind, wp_upto, wp_interfere.
  apply (law_read _ _ fd sizeof_io_request) in Hi. apply Hothers in Hi.
  case_match; [by apply wp_upto, wp_ret|].
  destruct (load_io_request _) as [[?|mmio]|] eqn:Eio; try by apply wp_upto, wp_ret.
  apply upto_bind. eapply upto_mono; [apply handle_MMIO_ok; [done|exact Hl1|by eapply Hroute]|].
  intros r w2 [Hi2 Hh2]. unfold HandledRequest. apply upto_bind, wp_upto. dev_step.
  assert (kept w (w2 <| w_trace := w_trace w2 ++ [DWrite fd (le_bytes 4 r) : call dev_iface] |>)) as Hk
    by (split; [by apply law_write|exact (eq_trans Hh2 Hh)]).
  case_match; by apply wp_upto, wp_ret.
Qed.
End Laws.
