(* ===== verification/Net.v ===== *)
(** * Net: the network card (devices/ooows-net.cpp, devices/broadcooom/phy.cpp)

    The card is a virtio device with a microcode engine.  Packets of the guest
    are copied to the engine's RAM and announced in a ring in its scratch
    memory; the firmware hands packets to the PHY, which publishes them, and
    received packets to the guest through the queues of the engine. *)

From S2P Require Import Prelude Effects Libc Wire Device Virtio Micro.

(** ** RAM by bytes *)

Definition RAM_BYTES := 4 * RAM_WORDS.

Definition ram_byte (m : gmap Z Z) (a : Z) : Z :=
  default 0 (le_bytes 4 (default 0 (m !! (a / 4))) !! Z.to_nat (a mod 4)).
Definition put_byte (a v : Z) (m : gmap Z Z) : gmap Z Z :=
  <[a / 4 := le_val (<[Z.to_nat (a mod 4) := v]> (le_bytes 4 (default 0 (m !! (a / 4)))))]> m.
Fixpoint put_bytes (a : Z) (l : bytes) (m : gmap Z Z) : gmap Z Z :=
  match l with
  | [] => m
  | v :: l => put_bytes (a + 1) l (put_byte a v m)
  end.
Definition ram_bytes (m : gmap Z Z) (a size : Z) : bytes :=
  (fun i : nat => ram_byte m (a + i)) <$> seq 0 (Z.to_nat size).

(** [memcpy] from and to RAM. *)
Definition read_ram (a size : Z) : micro_prog bytes :=
  s ← gets (fun s => s);
  if (0 <=? a) && (a + size <=? RAM_BYTES) then mret (ram_bytes (m_ram s) a size) else fail OutOfBounds.
Definition write_ram (a : Z) (data : bytes) : micro_prog unit :=
  if (0 <=? a) && (a + length data <=? RAM_BYTES)
  then modify (fun s => s <| m_ram ::= put_bytes a data |>) else fail OutOfBounds.

Definition job_start (job : fifo_job) : Z := 4 * fj_start job.

(** [ThreadedQueue::get] *)
Definition get_job (proj : micro -> list fifo_job) (put : list fifo_job -> micro -> micro)
    : micro_prog fifo_job :=
  s ← gets (fun s => s);
  match proj s with
  | [] => fail Waits
  | job :: q => modify (put q);; mret job
  end.

(** ** phy.cpp *)

Section Phy.
Context (env : dev_env) (m_nic : Z).

Definition incoming_packet (payload : bytes) : micro_prog unit :=
  s ← gets (fun s => s);
  let payloadlen := Z.of_nat (length payload) in
  if length (m_rx_queue s) =? 0 then mret tt
  else if payloadlen <=? 4 then mret tt
  else if MAX_ETHERNET_SIZE <? payloadlen then mret tt
  else if le_val (take 4 payload) =? m_nic then mret tt
  else
  job ← get_job m_rx_queue (fun q s => s <| m_rx_queue := q |>);
  set_reg (fj_size job) (payloadlen - 4);;
  write_ram (job_start job) (drop 4 payload);;
  modify (wake (fj_callback job)).

(** What follows [get] in the loop of [handle_tx].  [malloc] returns null for a
    negative length, which is a huge [size_t]. *)
Definition send_packet (job : fifo_job) : micro_prog unit :=
  size ← reg (fj_size job);
  let payloadlen := i32 (size + 4) in
  if payloadlen <? 0 then fail NullDeref
  else if payloadlen <? 4 then fail OutOfBounds
  else
  data ← read_ram (job_start job) size;
  _ ← dos env (DPublish (le_bytes 4 m_nic ++ data));
  modify (wake (fj_callback job)).

Definition handle_tx (fuel : nat) : micro_prog unit :=
  loop fuel (fun _ : unit =>
    job ← get_job m_tx_queue (fun q s => s <| m_tx_queue := q |>);
    send_packet job;;
    mret (inl tt)) tt.
End Phy.

(** ** ooows-net.cpp *)

Definition MMIO_START := 0xe1b00000.
Definition NUM_NET_VQS := 3.
Definition VQ_CONTROL := 0.
Definition VQ_DATA_TX := 1.
Definition VQ_DATA_RX := 2.
Definition SCRATCH_TX_RING_BUF := 2.
Definition SCRATCH_TX_RING_BUF_SIZE := 16.
Definition MAX_MTU := 1518.
Definition RAM_BUF_POOL := 0x24000.
Definition RAM_BUF_POOL_SIZE := 256.
Definition sizeof_ram_buf_pool := 1520.
Definition IN_USE_MASK := 0x80000000.
Definition SIZE_MASK := 0xFFFFFF.
Definition sizeof_packet_ring_buf := 8.
Definition sizeof_control_msg := 129.
Definition sizeof_tx_msg := 2.
Definition sizeof_rx_msg := 2.

Definition FEATURE_CHKSUM_TX_OFFLOAD_MASK := 0x1.
Definition FEATURE_CHKSUM_RX_OFFLOAD_MASK := Z.shiftl 0x1 1.
Definition FEATURE_PROMISC_MODE_MASK := Z.shiftl 0x1 2.
Definition FEATURE_CHANGE_MAC_MASK := Z.shiftl 0x1 3.
Definition FEATURE_RX_ETH_CRC_CHECK_MASK := Z.shiftl 0x1 4.
Definition FEATURE_TX_ETH_CRC_OFFLOAD_MASK := Z.shiftl 0x1 5.

Definition SET_MAC := 0.
Definition TOGGLE_CHKSUM_TX_OFFLOAD := 1.
Definition TOGGLE_CHKSUM_RX_OFFLOAD := 2.
Definition PROMISC_MODE := 3.
Definition RX_ETH_CRC_CHECK := 4.
Definition TX_ETH_CRC_OFFLOAD := 5.

Record NetDev := Net {
  nd_base : vdev;
  m_microengine : micro;
  m_tx_ring_buf_idx : Z;
  m_rx_ring_buf_idx : Z;
  m_ram_pool_idx : Z;
  m_nic : Z;             (* of the PHY *)
}.
#[export] Instance NetDev_eta : Settable NetDev := fun d =>
  Net (nd_base d) (m_microengine d) (m_tx_ring_buf_idx d) (m_rx_ring_buf_idx d) (m_ram_pool_idx d) (m_nic d).

Abbreviation net_prog := (dev_prog NetDev).
Abbreviation net_world := (dev_world NetDev).

Definition put_base (b : vdev) (d : NetDev) : NetDev := d <| nd_base := b |>.
Definition put_engine (s : micro) (d : NetDev) : NetDev := d <| m_microengine := s |>.
Definition in_vdev {A} (m : vprog A) : net_prog A := zoom nd_base put_base m.
Definition in_micro {A} (m : micro_prog A) : net_prog A := zoom m_microengine put_engine m.

(** The index of the packet in RAM, in words; its data starts there. *)
Definition new_pkt : net_prog Z :=
  d ← gets (fun d => d);
  let idx := u32 (RAM_BUF_POOL + m_ram_pool_idx d * sizeof_ram_buf_pool / 4) in
  modify (fun d => d <| m_ram_pool_idx ::= fun i => u16 ((i + 1) mod RAM_BUF_POOL_SIZE) |>);;
  mret idx.

Definition add_to_tx_ring_buf (size pkt_idx : Z) : net_prog Z :=
  d ← gets (fun d => d);
  let idx := u32 (SCRATCH_TX_RING_BUF + m_tx_ring_buf_idx d * sizeof_packet_ring_buf / 4) in
  is_free_and_size ← in_micro (mem_read Scratch_mem idx);
  if negb (Z.land is_free_and_size IN_USE_MASK =? 0) then mret (-1) else
  in_micro (mem_write Scratch_mem (idx + 1) pkt_idx);;
  in_micro (mem_write Scratch_mem idx (Z.lor IN_USE_MASK (Z.land size SIZE_MASK)));;
  modify (fun d => d <| m_tx_ring_buf_idx ::= fun i => u16 ((i + 1) mod SCRATCH_TX_RING_BUF_SIZE) |>);;
  mret 0.

(** The results are the buffer and what the function returns; [None] is the
    uninitialised [ret]. *)
Definition handleTx (vbuf : VirtBuf) : net_prog (VirtBuf * option Z) :=
  r ← in_vdev (readU vbuf sizeof_tx_msg);
  let '(msg, vbuf) := r in
  match msg with
  | None => mret (vbuf, Some (-1))
  | Some msg =>
  let size := le_val msg in
  if MAX_MTU <? size then mret (vbuf, Some (-1)) else
  pkt_idx ← new_pkt;
  r ← in_vdev (readU vbuf size);
  let '(data, vbuf) := r in
  match data with
  | None => mret (vbuf, Some (-1))
  | Some data =>
  in_micro (write_ram (4 * pkt_idx) data);;
  err ← add_to_tx_ring_buf size pkt_idx;
  if negb (err =? 0) then mret (vbuf, Some err) else mret (vbuf, None)
  end
  end.

(** [handleRx] once it has a job.  Nothing is read from RAM when the guest's
    buffer is out of bounds. *)
Definition deliver (job : fifo_job) (vbuf : VirtBuf) : net_prog (VirtBuf * Z) :=
  size ← in_micro (reg (fj_size job));
  let size := u16 size in
  r ← in_vdev (writeU vbuf (le_bytes 2 size));
  let '(err, vbuf) := r in
  if negb (err =? 0) then mret (vbuf, err) else
  d ← gets nd_base;
  if oob (m_mem d) (vb_head vbuf) size then mret (vbuf, -1) else
  data ← in_micro (read_ram (job_start job) size);
  r ← in_vdev (writeU vbuf data);
  let '(err, vbuf) := r in
  if negb (err =? 0) then mret (vbuf, err) else
  in_micro (modify (wake (fj_callback job)));;
  mret (vbuf, 0).

Definition handleRx (vbuf : VirtBuf) : net_prog (VirtBuf * Z) :=
  if vb_len vbuf <? MAX_MTU + sizeof_rx_msg then mret (vbuf, -1) else
  job ← in_micro (get_job m_pkt_in_queue (fun q s => s <| m_pkt_in_queue := q |>));
  deliver job vbuf.

(** A bit of the CSR is set from the message if the driver took the feature. *)
Definition toggle (feature mask : Z) (data : bytes) : net_prog unit :=
  d ← gets nd_base;
  if negb (Z.land (m_driver_features d) feature =? 0)
  then in_micro (change_csr (negb (default 0 (head data) =? 0)) mask) else mret tt.

Definition handleControl (vbuf : VirtBuf) : net_prog (VirtBuf * option Z) :=
  r ← in_vdev (readU vbuf sizeof_control_msg);
  let '(msg, vbuf) := r in
  match msg with
  | None => mret (vbuf, Some (-1))
  | Some msg =>
  let type := le_val (take 1 msg) in
  let data := drop 1 msg in
  if type =? SET_MAC then
    d ← gets nd_base;
    if negb (Z.land (m_driver_features d) FEATURE_CHANGE_MAC_MASK =? 0) then
      ret ← in_vdev (set_config_space data 6);
      in_micro (set_mac_address data);;
      mret (vbuf, Some ret)
    else mret (vbuf, None)
  else
    (if type =? TOGGLE_CHKSUM_TX_OFFLOAD then
       toggle FEATURE_CHKSUM_TX_OFFLOAD_MASK CHXSUM_TX_OFFLOAD_MASK data
     else if type =? TOGGLE_CHKSUM_RX_OFFLOAD then
       toggle FEATURE_CHKSUM_RX_OFFLOAD_MASK CHXSUM_RX_OFFLOAD_MASK data
     else if type =? PROMISC_MODE then toggle FEATURE_PROMISC_MODE_MASK PROMISC_MODE_MASK data
     else if type =? RX_ETH_CRC_CHECK then toggle FEATURE_RX_ETH_CRC_CHECK_MASK RX_ETH_CRC_CHECK_MASK data
     else if type =? TX_ETH_CRC_OFFLOAD then toggle FEATURE_TX_ETH_CRC_OFFLOAD_MASK TX_ETH_CRC_OFFLOAD_MASK data
     else mret tt);;
    mret (vbuf, None)
  end.

Section Card.
Context (env : dev_env).

Definition net_got_data (vq_idx : Z) : net_prog Z :=
  r ← in_vdev (get_buf env vq_idx);
  match r with
  | None => mret 0
  | Some vbuf =>
  vbuf ← (if vq_idx =? VQ_CONTROL then r ← handleControl vbuf; mret r.1 else mret vbuf);
  vbuf ← (if vq_idx =? VQ_DATA_TX then r ← handleTx vbuf; mret r.1
          else if vq_idx =? VQ_DATA_RX then r ← handleRx vbuf; mret r.1
          else mret vbuf);
  in_vdev (put_buf vq_idx vbuf)
  end.

Definition net_config_space_write (offset data size : Z) : net_prog Z := mret (-1).

#[export] Instance NetDev_virtio : VirtioDevice NetDev := {
  base := nd_base;
  set_base := put_base;
  got_data := net_got_data;
  config_space_write := net_config_space_write;
}.

(** The constructor.  The arguments are what uninitialised memory held, and the
    contents of the guest's memory.  The calls that connect the PHY to its
    message broker are left out. *)
Definition new_NetDev {S : Type} (raw_vendor raw_nic last_alu : Z) (stale raw_mac memory : bytes)
    : dev_prog S NetDev :=
  let b := new_MMIOVirtioDev 0 raw_vendor memory MMIO_START NUM_NET_VQS in
  let features := Z.lxor (Z.lxor (Z.lxor (Z.lxor FEATURE_CHKSUM_TX_OFFLOAD_MASK
    FEATURE_CHKSUM_RX_OFFLOAD_MASK) FEATURE_PROMISC_MODE_MASK) FEATURE_RX_ETH_CRC_CHECK_MASK)
    FEATURE_TX_ETH_CRC_OFFLOAD_MASK in
  let b := b <| m_device_id := VIRTIO_NIC |> <| m_device_features := features |> in
  fd ← dos env (DOpen "/dev/random");
  nic ← dos env (DRead fd 4);
  _ ← dos env (DClose fd);
  _ ← dos env (DThread_create PhyTxThread);
  _ ← dos env (DThread_create PhyRxThread);
  micro_fd ← dos env (DOpen "./devices-bin/net-firmware");
  if micro_fd =? -1 then fail (Exited (-1)) else
  code ← dos env (DRead micro_fd (Z.to_nat sizeof_m_code));
  _ ← dos env (DClose micro_fd);
  eng ← get_or Thrown (make_microengine stale last_alu (replicate 6 0) code.2 (u32 code.1) ∅);
  _ ← dos env (DThread_create ScratchThread);
  _ ← dos env (DThread_create RamThread);
  fd ← dos env (DOpen "/dev/random");
  mac ← dos env (DRead fd 6);
  _ ← dos env (DClose fd);
  let mac := take 6 (mac.2 ++ drop (length mac.2) raw_mac) in
  let config_space := mac ++ take (Z.to_nat (CONFIG_SPACE_MAX - 6)) (concat (le_bytes 5 <$> m_code eng)) in
  let b := b <| m_config_space ::= fun c => blit c 0 config_space |>
             <| m_config_space_size := CONFIG_SPACE_MAX |> in
  let eng := eng <| m_mac := mac |> in
  _ ← dos env (DThread_create InterpreterThread);
  mret (Net b eng 0 0 0 (le_val (take 4 (nic.2 ++ drop (length nic.2) (le_bytes 4 raw_nic))))).
End Card.
