(* ===== verification/NetSafe.v ===== *)
(** * NetSafe: the network card keeps its invariant

    The card fulfils the interface of a virtio device: each handler leaves the
    registers, the rings, the engine and the pool well formed, whatever the
    guest puts into its buffers. *)

From S2P Require Import Prelude Effects Libc Wire Device Virtio VirtioExec VirtioSafe Micro MicroExec MicroMem Net.

Implicit Types (w : net_world) (d : NetDev) (b : VirtBuf).

(** A receive buffer of the firmware that lies in RAM, whatever its size
    register says. *)
Definition job_in_ram (job : fifo_job) : Prop :=
  in_width 8 (fj_size job) /\ 0 <= fj_start job /\ job_start job + 0xffff <= RAM_BYTES.

Record net_ok (d : NetDev) : Prop := {
  nt_base : vdev_ok (nd_base d);
  nt_start : m_mmio_start (nd_base d) = MMIO_START;
  nt_micro : wf_micro (m_microengine d);
  nt_ring : 0 <= m_tx_ring_buf_idx d < SCRATCH_TX_RING_BUF_SIZE;
  nt_pool : 0 <= m_ram_pool_idx d < RAM_BUF_POOL_SIZE;
  nt_jobs : Forall job_in_ram (m_pkt_in_queue (m_microengine d));
}.

Definition keeps w w' : Prop := net_ok (w_st w') /\ w_held w' = w_held w.

Lemma keeps_trans w1 w2 w3 : keeps w1 w2 -> keeps w2 w3 -> keeps w1 w3.
Proof. intros [_ H1] [H2 H3]. split; [done|]. by rewrite H3. Qed.

Definition vb_ok (b : VirtBuf) : Prop := in_width 64 (vb_head b).

(** ** Guest buffers *)

Lemma wp_readU b size (Q : option bytes * VirtBuf -> vworld -> Prop) (w : vworld) :
  vdev_ok (w_st w) -> vb_ok b -> in_width 64 size ->
  (in_memory (m_mem (w_st w)) (vb_head b) size -> vb_ok (b <| vb_head ::= fun h => u64 (h + size) |>) ->
     Q (Some (guest_bytes (m_mem (w_st w)) (vb_head b) size), b <| vb_head ::= fun h => u64 (h + size) |>) w) ->
  (~ in_memory (m_mem (w_st w)) (vb_head b) size -> Q (None, b) w) -> wp (readU b size) Q w.
Proof.
  intros Hd Hb Hs HQ HN. unfold readU. apply wp_bind, wp_mm_read; [apply vd_mem, Hd|done..| |]; intros Hin.
  - wp_go. apply HQ; [done|]. apply wrap_range. lia.
  - wp_go. by apply HN.
Qed.

Lemma guest_bytes_ok m a size :
  mm_ok m -> in_memory m a size -> 0 <= size ->
  Z.of_nat (length (guest_bytes m a size)) = size /\ is_bytes (guest_bytes m a size).
Proof.
  intros [] [] Hs. unfold guest_bytes. split.
  - rewrite length_load; lia.
  - unfold load. by apply Forall_take, Forall_drop.
Qed.

Lemma wp_writeU b data (Q : Z * VirtBuf -> vworld -> Prop) (w : vworld) :
  vdev_ok (w_st w) -> vb_ok b -> is_bytes data -> in_width 64 (length data) ->
  (forall b' (d' : vdev), vb_ok b' -> vdev_ok d' -> m_mmio_start d' = m_mmio_start (w_st w) ->
     d' = (w_st w) <| m_mem := guest_store (m_mem (w_st w)) (vb_head b) data |> ->
     Q (0, b') (w <| w_st := d' |>)) ->
  Q (-1, b) w -> wp (writeU b data) Q w.
Proof.
  intros Hd Hb Hbs Hs HQ HN. unfold writeU. apply wp_bind, wp_mm_write; [apply vd_mem, Hd|done..| |]; intros Hin.
  - wp_go. apply HQ; [apply wrap_range; lia|by apply vdev_ok_store|done|done].
  - by wp_go.
Qed.

(** ** The engine's memories *)

Lemma put_byte_wf a v m :
  map_Forall (fun _ v => in_width 32 v) m -> map_Forall (fun _ v => in_width 32 v) (put_byte a v m).
Proof.
  intros Hm. apply map_Forall_insert_2; [|done].
  pose proof (le_val_range (<[Z.to_nat (a mod 4) := v]> (le_bytes 4 (default 0 (m !! (a / 4)))))) as H.
  rewrite length_insert, length_le_bytes in H. exact H.
Qed.

Lemma put_bytes_wf l a m :
  map_Forall (fun _ v => in_width 32 v) m -> map_Forall (fun _ v => in_width 32 v) (put_bytes a l m).
Proof. revert a m. induction l as [|v l IH]; intros a m Hm; [done|]. by apply IH, put_byte_wf. Qed.

Lemma wf_set_ram f s :
  wf_micro s -> (forall m, map_Forall (fun _ v => in_width 32 v) m -> map_Forall (fun _ v => in_width 32 v) (f m)) ->
  wf_micro (s <| m_ram ::= f |>).
Proof. intros [] Hf. constructor; try done. by apply Hf. Qed.

Lemma wp_write_ram a data (Q : unit -> micro_world -> Prop) (w : micro_world) :
  0 <= a -> a + length data <= RAM_BYTES -> Q tt (w <| w_st ::= fun s => s <| m_ram ::= put_bytes a data |> |>) ->
  wp (write_ram a data) Q w.
Proof. intros H1 H2 HQ. unfold write_ram. rewrite !(proj2 (Z.leb_le _ _)) by lia. by wp_go. Qed.

Lemma wp_read_ram a size (Q : bytes -> micro_world -> Prop) (w : micro_world) :
  0 <= a -> a + size <= RAM_BYTES -> Q (ram_bytes (m_ram (w_st w)) a size) w -> wp (read_ram a size) Q w.
Proof. intros H1 H2 HQ. unfold read_ram. wp_go. rewrite !(proj2 (Z.leb_le _ _)) by lia. by wp_go. Qed.

Lemma ram_bytes_ok m a size : 0 <= size ->
  Z.of_nat (length (ram_bytes m a size)) = size /\ is_bytes (ram_bytes m a size).
Proof.
  intros Hs. unfold ram_bytes. split; [rewrite length_fmap, length_seq; lia|].
  apply Forall_fmap, Forall_forall. intros i _. unfold compose, ram_byte.
  destruct (_ !! Z.to_nat ((a + i) mod 4)) as [v|] eqn:E; [|unfold in_width; simpl; lia].
  exact (proj1 (Forall_lookup _ _) (le_bytes_is_bytes 4 _) _ _ E).
Qed.

(** ** Steps of the handlers *)

Definition micro_part (s : micro) : Prop := wf_micro s /\ Forall job_in_ram (m_pkt_in_queue s).

Lemma in_micro_ok {A} (m : micro_prog A) (Q : A -> net_world -> Prop) w :
  net_ok (w_st w) ->
  wp m (fun a (w' : micro_world) => micro_part (w_st w') /\ w_held w' = w_held w /\
          (keeps w (unzoom put_engine w w') ->
           Q a (unzoom put_engine w w'))) (zoom_world m_microengine w) ->
  wp (in_micro m) Q w.
Proof.
  intros Hd Hm. apply wp_zoom. eapply wp_mono; [exact Hm|].
  intros a w' ([Hwf Hj] & Hh & HQ). apply HQ. split; [|done]. destruct Hd. by constructor.
Qed.

Lemma in_vdev_ok {A} (m : vprog A) (Q : A -> net_world -> Prop) w :
  net_ok (w_st w) ->
  wp m (fun a (w' : vworld) => vdev_ok (w_st w') /\ m_mmio_start (w_st w') = MMIO_START /\ w_held w' = w_held w /\
          (keeps w (unzoom put_base w w') ->
           Q a (unzoom put_base w w'))) (zoom_world nd_base w) ->
  wp (in_vdev m) Q w.
Proof.
  intros Hd Hm. apply wp_zoom. eapply wp_mono; [exact Hm|].
  intros a w' (Hv & Hs & Hh & HQ). apply HQ. split; [|done]. destruct Hd. by constructor.
Qed.

Lemma net_readU b size (Q : option bytes * VirtBuf -> net_world -> Prop) w :
  net_ok (w_st w) -> vb_ok b -> in_width 64 size ->
  (forall data b', Z.of_nat (length data) = size -> is_bytes data -> vb_ok b' -> Q (Some data, b') w) ->
  Q (None, b) w -> wp (in_vdev (readU b size)) Q w.
Proof.
  intros Hd Hb Hs HQ HN. pose proof (nt_base _ Hd) as Hv. pose proof (nt_start _ Hd) as Hst.
  assert (unzoom put_base w (zoom_world nd_base w) = w) as E.
  { destruct w as [[] ? ?]. done. }
  apply in_vdev_ok; [done|]. apply wp_readU; [done..| |].
  - intros Hin Hb'. split_and!; [done..|]. intros _. rewrite E.
    destruct (guest_bytes_ok _ _ _ (vd_mem _ Hv) Hin ltac:(apply Hs)). by apply HQ.
  - intros _. split_and!; [done..|]. intros _. by rewrite E.
Qed.

Lemma net_writeU b data (Q : Z * VirtBuf -> net_world -> Prop) w :
  net_ok (w_st w) -> vb_ok b -> is_bytes data -> in_width 64 (length data) ->
  (forall r b' w', vb_ok b' -> keeps w w' -> m_microengine (w_st w') = m_microengine (w_st w) -> Q (r, b') w') ->
  wp (in_vdev (writeU b data)) Q w.
Proof.
  intros Hd Hb Hbs Hs HQ. pose proof (nt_base _ Hd) as Hv. pose proof (nt_start _ Hd) as Hst.
  apply in_vdev_ok; [done|]. apply wp_writeU; [done..| |].
  - intros b' d' Hb' Hd' Hst' _. split_and!; [done|simpl; unfold set_field; by rewrite Hst'|done|].
    intros Hk. by apply HQ.
  - split_and!; [done..|]. intros Hk. by apply HQ.
Qed.

Lemma micro_part_same w : net_ok (w_st w) -> micro_part (m_microengine (w_st w)).
Proof. intros []. by split. Qed.

(** Changes of the card's own indices. *)
Lemma pool_index_step i : 0 <= i < RAM_BUF_POOL_SIZE ->
  u32 (RAM_BUF_POOL + i * sizeof_ram_buf_pool / 4) = RAM_BUF_POOL + 380 * i.
Proof.
  unfold RAM_BUF_POOL_SIZE, RAM_BUF_POOL, sizeof_ram_buf_pool. intros Hi.
  replace (i * 1520) with (380 * i * 4) by lia. rewrite Z.div_mul by lia. apply wrap_small. unfold in_width. lia.
Qed.

Lemma ring_index_step i : 0 <= i < SCRATCH_TX_RING_BUF_SIZE ->
  u32 (SCRATCH_TX_RING_BUF + i * sizeof_packet_ring_buf / 4) = SCRATCH_TX_RING_BUF + 2 * i.
Proof.
  unfold SCRATCH_TX_RING_BUF_SIZE, SCRATCH_TX_RING_BUF, sizeof_packet_ring_buf. intros Hi.
  replace (i * 8) with (2 * i * 4) by lia. rewrite Z.div_mul by lia. apply wrap_small. unfold in_width. lia.
Qed.

Lemma wrap_index n i : 0 < n <= 2 ^ 16 -> 0 <= u16 ((i + 1) mod n) < n /\ u16 ((i + 1) mod n) = (i + 1) mod n.
Proof.
  intros Hn. pose proof (Z.mod_pos_bound (i + 1) n ltac:(lia)). rewrite wrap_small by (unfold in_width; lia). lia.
Qed.

Lemma wp_new_pkt (Q : Z -> net_world -> Prop) w :
  net_ok (w_st w) ->
  (forall idx w', 0 <= idx -> 4 * idx + sizeof_ram_buf_pool <= RAM_BYTES -> keeps w w' -> Q idx w') ->
  wp new_pkt Q w.
Proof.
  intros Hd HQ. unfold new_pkt. wp_go. pose proof (nt_pool _ Hd) as Hp.
  rewrite pool_index_step by done. unfold RAM_BUF_POOL_SIZE, RAM_BUF_POOL, sizeof_ram_buf_pool, RAM_BYTES, RAM_WORDS in *.
  apply HQ; [lia|lia|]. split; [|done]. destruct Hd. constructor; try done.
  apply (wrap_index RAM_BUF_POOL_SIZE). unfold RAM_BUF_POOL_SIZE. lia.
Qed.

Lemma net_mem_read a (Q : Z -> net_world -> Prop) w :
  net_ok (w_st w) -> 0 <= a < SCRATCH_WORDS ->
  Q (mem_at Scratch_mem (m_microengine (w_st w)) a) w -> wp (in_micro (mem_read Scratch_mem a)) Q w.
Proof.
  intros Hd Ha HQ. apply wp_zoom, wp_mem_read; [apply nt_micro, Hd|done|]. by destruct w as [[] ? ?].
Qed.

Lemma net_mem_write a v (Q : unit -> net_world -> Prop) w :
  net_ok (w_st w) -> 0 <= a < SCRATCH_WORDS -> in_width 32 v ->
  (forall w', keeps w w' -> m_tx_ring_buf_idx (w_st w') = m_tx_ring_buf_idx (w_st w) ->
     m_microengine (w_st w') = upd_mem Scratch_mem a v (m_microengine (w_st w)) -> Q tt w') ->
  wp (in_micro (mem_write Scratch_mem a v)) Q w.
Proof.
  intros Hd Ha Hv HQ. apply in_micro_ok; [done|]. apply wp_mem_write; [apply nt_micro, Hd|done|].
  split_and!; [split; [apply wf_upd_mem; [apply nt_micro, Hd|done]|apply nt_jobs, Hd]|done|].
  intros Hk. by apply HQ.
Qed.

Lemma lor_range a x y : 0 <= a -> in_width a x -> in_width a y -> in_width a (Z.lor x y).
Proof.
  intros Ha Hx Hy. apply in_width_bits; [done|apply Z.lor_nonneg; unfold in_width in *; lia|].
  intros i Hi. by rewrite Z.lor_spec, (in_width_testbit a x), (in_width_testbit a y).
Qed.

Lemma add_to_tx_ring_buf_ok size pkt_idx (Q : Z -> net_world -> Prop) w :
  net_ok (w_st w) -> in_width 32 pkt_idx -> (forall r w', keeps w w' -> Q r w') ->
  wp (add_to_tx_ring_buf size pkt_idx) Q w.
Proof.
  intros Hd Hp HQ. unfold add_to_tx_ring_buf. wp_go. pose proof (nt_ring _ Hd) as Hr.
  rewrite ring_index_step by done. unfold SCRATCH_TX_RING_BUF_SIZE, SCRATCH_TX_RING_BUF in *.
  apply net_mem_read; [done|unfold SCRATCH_WORDS; lia|].
  case_match; [wp_go; by apply HQ|].
  apply wp_bind, net_mem_write; [done|unfold SCRATCH_WORDS; lia|done|]. intros w1 Hk1 Et1 _.
  apply wp_bind, net_mem_write; [apply Hk1|unfold SCRATCH_WORDS; lia| |].
  { apply lor_range; [lia|unfold in_width, IN_USE_MASK; lia|].
    rewrite Z.land_comm. apply in_width_land; [lia|]. unfold in_width, SIZE_MASK. lia. }
  intros w2 Hk2 Et2 _. wp_go. apply HQ. eapply keeps_trans; [exact Hk1|]. eapply keeps_trans; [exact Hk2|].
  split; [|done]. destruct Hk2 as [[] _]. constructor; try done.
  apply (wrap_index SCRATCH_TX_RING_BUF_SIZE). unfold SCRATCH_TX_RING_BUF_SIZE. lia.
Qed.

Lemma le_val_width bs n : Z.of_nat (length bs) = n -> in_width (8 * n) (le_val bs).
Proof. intros <-. apply le_val_range. Qed.

Lemma handleTx_ok b (Q : VirtBuf * option Z -> net_world -> Prop) w :
  net_ok (w_st w) -> vb_ok b -> (forall b' r w', vb_ok b' -> keeps w w' -> Q (b', r) w') ->
  wp (handleTx b) Q w.
Proof.
  intros Hd Hb HQ. unfold handleTx. apply wp_bind, net_readU; [done..| |].
  2: { wp_go. by apply HQ. }
  intros msg b1 Hl Hbs Hb1. cbv beta iota. apply le_val_width in Hl as Hsz.
  destruct (Z.ltb_spec MAX_MTU (le_val msg)) as [|Hmtu]; [wp_go; by apply HQ|].
  apply wp_bind, wp_new_pkt; [done|]. intros idx w1 Hi1 Hi2 Hk1.
  apply wp_bind, net_readU; [apply Hk1|done|unfold in_width, MAX_MTU in *; lia| |].
  2: { wp_go. by apply HQ. }
  intros data b2 Hl2 Hbs2 Hb2. cbv beta iota. unfold MAX_MTU, sizeof_ram_buf_pool in *.
  apply wp_bind, in_micro_ok; [apply Hk1|]. apply wp_write_ram; [lia|lia|]. split_and!; [|done|].
  { split; [apply wf_set_ram; [apply nt_micro, Hk1|]|apply nt_jobs, Hk1]. intros m. apply put_bytes_wf. }
  intros Hk2. apply wp_bind, add_to_tx_ring_buf_ok; [apply Hk2| |].
  { unfold in_width, RAM_BYTES, RAM_WORDS in *. lia. }
  intros r w3 Hk3. assert (keeps w w3) as Hk 
    by exact (keeps_trans _ _ _ Hk1 (keeps_trans _ _ _ Hk2 Hk3)).
  case_match; wp_go; by apply HQ.
Qed.

Lemma toggle_ok feature mask data (Q : unit -> net_world -> Prop) w :
  net_ok (w_st w) -> in_width 32 mask -> (forall w', keeps w w' -> Q tt w') -> wp (toggle feature mask data) Q w.
Proof.
  intros Hd Hm HQ. unfold toggle. wp_go. case_match; [|wp_go; by apply HQ].
  apply in_micro_ok; [done|]. unfold change_csr. wp_go. pose proof (wf_csr _ (nt_micro _ Hd)) as Hc.
  split_and!; [|done|by auto]. split; [|apply nt_jobs, Hd].
  destruct (nt_micro _ Hd). constructor; try done. simpl. unfold set_field.
  case_match; [by apply lor_range|by apply in_width_land].
Qed.

Lemma handleControl_ok b (Q : VirtBuf * option Z -> net_world -> Prop) w :
  net_ok (w_st w) -> vb_ok b -> (forall b' r w', vb_ok b' -> keeps w w' -> Q (b', r) w') ->
  wp (handleControl b) Q w.
Proof.
  intros Hd Hb HQ. unfold handleControl. apply wp_bind, net_readU; [done..| |].
  2: { wp_go. by apply HQ. }
  intros msg b1 Hl Hbs Hb1. cbv beta iota zeta.
  destruct (_ =? SET_MAC).
  - wp_go. case_match; [|wp_go; by apply HQ].
    apply wp_bind, in_vdev_ok; [done|]. unfold set_config_space.
    change (CONFIG_SPACE_MAX <? 6) with false. wp_go. split_and!; [|apply nt_start, Hd|done|].
    { destruct (nt_base _ Hd) as [H1 H2 H3 H4 H5 H6 H7]. constructor; try done; simpl; unfold set_field.
      rewrite length_blit; [done|]. rewrite length_take. unfold sizeof_m_config_space in H6.
      change (Z.to_nat 6) with 6%nat. lia. }
    intros Hk1. apply wp_bind, in_micro_ok; [apply Hk1|]. unfold set_mac_address. wp_go.
    split_and!; [|done|].
    { split; [|apply nt_jobs, Hk1]. destruct (nt_micro _ Hd). constructor; try done.
      simpl. rewrite length_take, length_drop. unfold sizeof_control_msg in Hl. lia. }
    intros Hk2. wp_go. apply HQ; [done|]. exact (keeps_trans _ _ _ Hk1 Hk2).
  - apply wp_bind.
    assert (forall w', keeps w w' -> wp (mret (b1, None)) Q w') as Hend by (intros; by apply HQ).
    repeat match goal with |- wp (if ?c then _ else _) _ _ => destruct c end;
      [apply toggle_ok; [done|vm_compute; split; congruence|done]..|by wp_go; apply Hend].
Qed.

Lemma net_get_job (Q : fifo_job -> net_world -> Prop) w :
  net_ok (w_st w) -> (forall job w', job_in_ram job -> keeps w w' -> Q job w') ->
  safe (in_micro (get_job m_pkt_in_queue (fun q s => s <| m_pkt_in_queue := q |>))) Q w.
Proof.
  intros Hd HQ. pose proof (nt_jobs _ Hd) as Hj. unfold get_job. apply upto_zoom. apply upto_bind, wp_upto, wp_gets.
  change (m_pkt_in_queue (w_st (zoom_world m_microengine w))) with (m_pkt_in_queue (m_microengine (w_st w))).
  destruct (m_pkt_in_queue (m_microengine (w_st w))) as [|job q] eqn:Eq; [done|].
  apply wp_upto. wp_go. inversion_clear Hj. apply HQ; [done|]. split; [|done].
  destruct Hd as [? ? Hwf]. constructor; try done. by apply (wf_pop_fifo job).
Qed.

Lemma handleRx_ok b (Q : VirtBuf * Z -> net_world -> Prop) w :
  net_ok (w_st w) -> vb_ok b -> (forall b' r w', vb_ok b' -> keeps w w' -> Q (b', r) w') ->
  safe (handleRx b) Q w.
Proof.
  intros Hd Hb HQ. unfold handleRx, deliver. case_match; [apply wp_safe, wp_ret; by apply HQ|].
  apply safe_bind, net_get_job; [done|]. intros job w1 (Hj1 & Hj2 & Hj3) Hk1. apply wp_safe.
  apply wp_bind, wp_zoom, wp_reg; [apply nt_micro, Hk1|done|].
  set (size := u16 _). assert (in_width 16 size) as Hsz by (apply wrap_range; lia).
  assert (unzoom put_engine w1 (zoom_world m_microengine w1) = w1) as -> by (by destruct w1 as [[] ? ?]).
  apply wp_bind, net_writeU; [apply Hk1|done|apply le_bytes_is_bytes|done|].
  intros r b1 w2 Hb1 Hk2 Hm2. assert (keeps w w2) as Hk02 by exact (keeps_trans _ _ _ Hk1 Hk2).
  case_match; [wp_go; by apply HQ|]. wp_go.
  case_match; [wp_go; by apply HQ|]. unfold in_width in Hsz. simpl in Hsz.
  apply wp_bind, wp_zoom, wp_read_ram; [unfold job_start in *; lia|lia|].
  assert (unzoom put_engine w2 (zoom_world m_microengine w2) = w2) as -> by (by destruct w2 as [[] ? ?]).
  destruct (ram_bytes_ok (m_ram (w_st (zoom_world m_microengine w2))) (job_start job) size ltac:(lia)) as [Hl Hbs].
  apply wp_bind, net_writeU; [apply Hk02|done|done|unfold in_width; lia|].
  intros r' b2 w3 Hb2 Hk3 Hm3. assert (keeps w w3) as Hk03 by exact (keeps_trans _ _ _ Hk02 Hk3).
  case_match; [wp_go; by apply HQ|]. apply wp_bind, in_micro_ok; [apply Hk03|]. wp_go.
  split_and!; [|done|].
  - pose proof (nt_micro _ (proj1 Hk03)). pose proof (nt_jobs _ (proj1 Hk03)).
    split; [by apply wf_micro_wake|]. by destruct (fj_callback job).
  - intros Hk4. wp_go. apply HQ; [done|]. exact (keeps_trans _ _ _ Hk03 Hk4).
Qed.

Lemma net_get_buf env i (Q : option VirtBuf -> net_world -> Prop) w :
  net_ok (w_st w) -> 0 <= i -> (forall b w', vb_ok b -> keeps w w' -> Q (Some b) w') -> Q None w ->
  wp (in_vdev (get_buf env i)) Q w.
Proof.
  intros Hd Hi HQ HN. pose proof (nt_base _ Hd) as Hv. pose proof (nt_start _ Hd) as Hs.
  apply in_vdev_ok; [done|]. apply get_buf_exec; [done..| |].
  - intros _. split_and!; [done..|]. intros _. by destruct w as [[] ? ?].
  - intros (Hlt & _) junk. split_and!; [by apply vdev_ok_consumed|done|done|].
    intros Hk. apply HQ; [|done]. apply (field_width _ 0 8). lia.
Qed.

Lemma net_put_buf i b (Q : Z -> net_world -> Prop) w :
  net_ok (w_st w) -> 0 <= i -> (forall r w', keeps w w' -> Q r w') -> wp (in_vdev (put_buf i b)) Q w.
Proof.
  intros Hd Hi HQ. pose proof (nt_base _ Hd) as Hv. pose proof (nt_start _ Hd) as Hs.
  apply in_vdev_ok; [done|]. apply put_buf_exec; [done..| |].
  - intros _. split_and!; [done..|]. intros Hk. by apply HQ.
  - intros Hr. split_and!; [by apply vdev_ok_returned|done|done|]. intros Hk. by apply HQ.
Qed.

Lemma net_got_data_ok env i w :
  net_ok (w_st w) -> 0 <= i -> safe (net_got_data env i) (fun _ w' => keeps w w') w.
Proof.
  intros Hd Hi. unfold net_got_data. apply safe_bind, wp_safe, net_get_buf; [done..| |].
  2: { by apply wp_safe, wp_ret. }
  intros b w1 Hb Hk1. apply safe_bind, (safe_mono _ (fun b w' => vb_ok b /\ keeps w w')).
  { case_match; apply wp_safe; [|by wp_go]. apply wp_bind, handleControl_ok; [apply Hk1|done|].
    intros b' r w' Hb' Hk'. wp_go. split; [done|]. exact (keeps_trans _ _ _ Hk1 Hk'). }
  intros b1 w2 [Hb1 Hk2]. apply safe_bind, (safe_mono _ (fun b w' => vb_ok b /\ keeps w w')).
  { case_match; [|case_match]; [apply wp_safe, wp_bind, handleTx_ok|apply safe_bind, handleRx_ok|by apply wp_safe, wp_ret].
    all: try done; try apply Hk2.
    all: intros b' r w' Hb' Hk'; try apply wp_safe; wp_go; (split; [done|]); exact (keeps_trans _ _ _ Hk2 Hk'). }
  intros b3 w3 [Hb3 Hk3]. apply wp_safe, net_put_buf; [apply Hk3|done|]. intros r w' Hk'.
  exact (keeps_trans _ _ _ Hk3 Hk').
Qed.

(** The card keeps the promises of a device class. *)
#[export] Instance NetDev_laws (env : dev_env) :
  VirtioLaws Effects.stops NetDev (VirtioDevice0 := NetDev_virtio env) MMIO_START (fun _ => net_ok).
Proof.
  constructor.
  - done.
  - done.
  - intros _ d []. done.
  - intros _ b d [] Hb Hs. injection Hs as Hs _ _. constructor; try done. by rewrite <-nt_start0.
  - done.
  - done.
  - intros i w Hi Hd _. apply net_got_data_ok; [done|apply Hi].
  - intros offset data size w Hd _ _ _. by apply wp_safe, wp_ret.
Qed.
