(* ===== verification/NetProps.v ===== *)
(** * NetProps: theorems about virtio devices and the network card *)

From S2P Require Import Prelude Effects Libc Wire Device Virtio VirtioExec VirtioSafe Micro MicroExec.
From S2P Require Import MicroMem MicroProps Net NetSafe.



(** ** RAM by bytes *)

Lemma le_val_insert_lookup (l : bytes) (i j : nat) v :
  is_bytes l -> length l = 4%nat -> in_width 8 v -> (i < 4)%nat ->
  le_bytes 4 (le_val (<[i := v]> l)) !! j = if decide (j = i) then Some v else l !! j.
Proof.
  intros Hl Hlen Hv Hi. replace 4%nat with (length (<[i := v]> l)) at 1 by (by rewrite length_insert).
  rewrite le_bytes_val by (by apply Forall_insert). case_decide as E.
  - subst. apply list_lookup_insert_eq. lia.
  - by apply list_lookup_insert_ne.
Qed.

Lemma ram_byte_put a v m a' :
  0 <= a -> 0 <= a' -> in_width 8 v ->
  ram_byte (put_byte a v m) a' = if decide (a' = a) then v else ram_byte m a'.
Proof.
  intros Ha Ha' Hv. unfold ram_byte, put_byte.
  pose proof (Z.mod_pos_bound a 4 ltac:(lia)). pose proof (Z.mod_pos_bound a' 4 ltac:(lia)).
  pose proof (Z.div_mod a 4 ltac:(lia)). pose proof (Z.div_mod a' 4 ltac:(lia)).
  destruct (decide (a' / 4 = a / 4)) as [E|E].
  - rewrite E, lookup_insert_eq. cbn [default from_option id].
    rewrite le_val_insert_lookup; [|apply le_bytes_is_bytes|apply length_le_bytes|done|lia].
    repeat case_decide; try done; lia.
  - rewrite lookup_insert_ne by done. case_decide; [congruence|done].
Qed.

Lemma ram_byte_put_bytes l a m a' :
  0 <= a -> 0 <= a' -> is_bytes l ->
  ram_byte (put_bytes a l m) a' =
    if decide (a <= a' < a + length l) then default 0 (l !! Z.to_nat (a' - a)) else ram_byte m a'.
Proof.
  intros Ha Ha' Hl. revert a m Ha. induction Hl as [|v l Hv Hl IH]; intros a m Ha; cbn [put_bytes length].
  - rewrite decide_False by lia. done.
  - rewrite IH by lia. rewrite ram_byte_put by done.
    destruct (decide (a' = a)) as [->|Hne].
    + rewrite decide_False, decide_True by lia. by replace (Z.to_nat (a - a)) with 0%nat by lia.
    + destruct (decide (a + 1 <= a' < a + 1 + length l)).
      * rewrite decide_True by lia. by replace (Z.to_nat (a' - a)) with (S (Z.to_nat (a' - (a + 1)))) by lia.
      * rewrite decide_False by lia. done.
Qed.

(** A packet is read from RAM as it was written. *)
Lemma ram_bytes_put l a m : 0 <= a -> is_bytes l -> ram_bytes (put_bytes a l m) a (length l) = l.
Proof.
  intros Ha Hl. apply list_eq. intros i. unfold ram_bytes. rewrite Nat2Z.id.
  destruct (decide (i < length l)%nat) as [Hi|Hi].
  - rewrite list_lookup_fmap, lookup_seq_lt by done. cbn [fmap option_fmap option_map].
    rewrite ram_byte_put_bytes, decide_True by (done || lia).
    replace (Z.to_nat (a + (0 + i)%nat - a)) with i by lia.
    destruct (lookup_lt_is_Some_2 l i Hi) as [v ->]. done.
  - rewrite !lookup_ge_None_2; [done|lia|]. rewrite length_fmap, length_seq. lia.
Qed.

(** ** Claims *)

(** The bounds check of the memory manager is exact: with its wrap-around
    arithmetic on 64 bits it refuses exactly the ranges that do not lie in the
    guest's memory, so no address or length that the guest chooses gets past
    it. *)
Theorem oob_exact m a size :
  mm_ok m -> in_width 64 a -> in_width 64 size ->
  oob m a size = negb (bool_decide (in_memory m a size)).
Proof.
  intros Hm Ha Hs. pose proof (oob_in_memory m a size Hm Ha Hs) as H.
  destruct (oob m a size); case_bool_decide; tauto || (simpl; intuition congruence).
Qed.

Definition small_memory (memory : bytes) : memory_manager := new_memory_manager 0x1000 (length memory) memory.

Lemma small_memory_ok memory : is_bytes memory -> length memory < 2 ^ 32 -> mm_ok (small_memory memory).
Proof.
  intros Hb Hl. unfold small_memory, new_memory_manager.
  constructor; simpl; unfold wrap; rewrite ?Z.mod_small by lia; done || lia.
Qed.

Lemma oob_exact_witness : oob (small_memory (replicate 16 7)) 0x100f (2 ^ 64 - 1) = true.
Proof.
  rewrite oob_exact.
  - vm_compute. reflexivity.
  - apply small_memory_ok; [|simpl; lia]. apply Forall_replicate. unfold in_width. lia.
  - unfold in_width. lia.
  - unfold in_width. lia.
Defined.

(** ** The whole card *)

Definition start_faults (f : fault) : bool := match f with Exited _ | Thrown => true | _ => false end.

Lemma vdev_ok_new raw_vendor memory (config : bytes) (d : vdev) :
  is_bytes memory -> Z.of_nat (length memory) = HOST_SYS_MEM_SIZE -> (length config <= 1024)%nat ->
  d = new_MMIOVirtioDev 0 raw_vendor memory MMIO_START NUM_NET_VQS ->
  forall id features, vdev_ok (d <| m_device_id := id |> <| m_device_features := features |>
    <| m_config_space ::= fun c => blit c 0 config |> <| m_config_space_size := CONFIG_SPACE_MAX |>).
Proof.
  intros Hb Hl Hc -> id features.
  assert (length (blit (replicate sizeof_m_config_space 0) 0 config) = sizeof_m_config_space) as Hlen.
  { rewrite length_blit, length_replicate; [done|]. rewrite length_replicate. unfold sizeof_m_config_space. lia. }
  constructor; try done.
  apply (Forall_replicate _ 3). constructor; simpl; try done; unfold in_width; try lia.
  repeat constructor; simpl; lia.
Qed.

(** A short read leaves the rest of the buffer as it was. *)
Lemma length_overlay n (got old : bytes) :
  length old = n -> length (take n (got ++ drop (length got) old)) = n.
Proof. intros <-. rewrite length_take, length_app, length_drop. lia. Qed.

(** The promises of [new_NetDev]: the card is well formed, or the process ends
    because there is no firmware or it is too long. *)
Lemma new_NetDev_ok {S} env raw_vendor raw_nic last_alu stale raw_mac memory (w : dev_world S) (Q : NetDev -> dev_world S -> Prop) :
  is_bytes memory -> Z.of_nat (length memory) = HOST_SYS_MEM_SIZE -> in_width 32 last_alu ->
  length raw_mac = 6%nat -> (forall d (w' : dev_world S), net_ok d -> Q d w') ->
  upto start_faults (new_NetDev env raw_vendor raw_nic last_alu stale raw_mac memory) Q w.
Proof.
  intros Hb Hl Ha Hraw HQ. unfold new_NetDev. cbv zeta.
  do 5 (apply upto_bind, wp_upto; dev_step).
  apply upto_bind, wp_upto; dev_step. case_match; [done|].
  do 2 (apply upto_bind, wp_upto; dev_step).
  apply upto_bind. destruct (make_microengine _ _ _ _ _ _) as [s|] eqn:Es; [|done].
  apply wp_upto. dev_go. apply HQ.
  assert (wf_micro s) as Hwf by (eapply wf_make; [exact Es|done|done|done]).
  assert (m_pkt_in_queue s = []) as Hq.
  { unfold make_microengine in Es. case_match; [done|]. apply (inj Some) in Es. by rewrite <- Es. }
  set (mac := take 6 (_ ++ _)).
  assert (length mac = 6%nat) as Hmac by (by apply length_overlay).
  clearbody mac. constructor; try (simpl; lia); simpl.
  - eapply (vdev_ok_new raw_vendor memory); [done..| |done]. rewrite length_app, length_take. unfold CONFIG_SPACE_MAX. lia.
  - destruct Hwf. by constructor.
  - unfold SCRATCH_TX_RING_BUF_SIZE. lia.
  - unfold RAM_BUF_POOL_SIZE. lia.
  - by rewrite Hq.
Qed.

(** C2: whatever the operating system answers, whatever requests for its region
    the bus routes to the card, and whatever the guest writes to its memory, the
    network card starts or leaves the process because of its firmware file, and
    then each of its worker threads, as long as it serves requests, commits no
    fault: no access outside of the guest's memory, the queues, the engine's
    memories or the configuration space, no exception, no division by zero,
    every lock released. The rely condition on the other threads, in particular
    on the firmware, is that between two requests they keep the card well
    formed: queues and indices in range, and the buffers with which the firmware
    waits for packets in the engine's RAM, since [handleRx] copies from them
    unchecked. A worker may also leave its loop, which is what it does after it
    answered a read that is not zero ([magic_read_ends_worker]). Proved from the
    laws of device classes, which the card fulfils. *)
Theorem card_serves_safely (env : dev_env) raw_vendor raw_nic last_alu stale raw_mac memory fuel others fd (w : dev_world unit) :
  is_bytes memory -> Z.of_nat (length memory) = HOST_SYS_MEM_SIZE -> in_width 32 last_alu ->
  length raw_mac = 6%nat -> routed MMIO_START env -> (forall tr d, net_ok d -> net_ok (others tr d)) ->
  upto start_faults (new_NetDev env raw_vendor raw_nic last_alu stale raw_mac memory) (fun d w' =>
    safe (IO_loop env (VirtioDevice0 := NetDev_virtio env) fuel others fd)
      (fun _ w2 => net_ok (w_st w2) /\ w_held w2 = []) (World d (w_trace w') [])) w.
Proof.
  intros Hb Hl Ha Hraw Hr Ho. apply new_NetDev_ok; [done..|]. intros d w' Hd.
  eapply safe_mono; [apply (IO_loop_ok Effects.stops NetDev MMIO_START (fun _ => net_ok) (VirtioLaws0 := NetDev_laws env))|].
  - done.
  - done.
  - done.
  - done.
  - intros r w2 Hk. exact Hk.
Qed.

(** An environment in which the firmware is one instruction long and the first
    request notifies the transmit queue. *)
Definition notify_request : bytes := store_io_request (replicate 28 0) (Mmio (MmioRequest (MMIO_START + 0x50) VQ_DATA_TX 4 1)).
Definition net_env : dev_env := fun trace (c : dev_call) =>
  match c return dev_reply c with
  | DCalloc _ => true
  | DRead _ n => if Nat.eqb n sizeof_io_request then (28, notify_request) else (5, [0; 0; 0; 0; 0])
  | DGetenv _ => None
  | DNew _ => []
  | DStat _ | DRealpath _ | DMapFile _ => None
  | DRandombytes _ | DReadFile _ => []
  | DPayload _ _ _ _ => PayloadExit 0 [] [] [] 0 false
  | _ => 0
  end.

Lemma net_env_routed : routed MMIO_START net_env.
Proof.
  intros trace fd r H. cbn [net_env dev_reply Nat.eqb snd sizeof_io_request] in H.
  assert (load_io_request notify_request = Some (Mmio (MmioRequest (MMIO_START + 0x50) VQ_DATA_TX 4 1))) as E
    by (vm_compute; reflexivity).
  rewrite E in H. injection H as <-. unfold mmio_in_range, in_width. simpl. unfold VQ_DATA_TX. lia.
Qed.

(** The guest writes its memory and the firmware offers a receive buffer. *)
Definition busy_others (_ : list dev_call) (d : NetDev) : NetDev :=
  let b := nd_base d in
  d <| nd_base := if oob (m_mem b) 0x100000 3 then b
                  else b <| m_mem := guest_store (m_mem b) 0x100000 [1; 2; 3] |> |>
    <| m_microengine ::= fun s => s <| m_pkt_in_queue ::= fun q => q ++ [FifoJob 7 0x1000 None] |> |>.

Lemma busy_others_ok tr d : net_ok d -> net_ok (busy_others tr d).
Proof.
  intros [Hb Hs Hm ? ? Hj]. unfold busy_others. constructor; try done.
  - simpl. destruct (oob _ _ _) eqn:E; [done|].
    apply vdev_ok_store; [done| |repeat constructor; unfold in_width; lia].
    apply oob_in_memory; [by apply vd_mem|unfold in_width; simpl; lia..|done].
  - simpl. by destruct (oob _ _ _).
  - destruct Hm. constructor; try done. simpl. unfold set_field. apply Forall_app. split; [done|].
    apply Forall_singleton. constructor; simpl; unfold in_width; lia || done.
  - simpl. apply Forall_app. split; [done|].
    repeat constructor; unfold in_width, job_start, RAM_BYTES, RAM_WORDS; simpl; lia.
Qed.

Lemma card_serves_safely_witness :
  upto start_faults (new_NetDev net_env 0 0 0 [] (replicate 6 0) (replicate (Z.to_nat HOST_SYS_MEM_SIZE) 0)) (fun d w' =>
    safe (IO_loop net_env (VirtioDevice0 := NetDev_virtio net_env) 3 busy_others 10)
      (fun _ w2 => net_ok (w_st w2) /\ w_held w2 = []) (World d (w_trace w') [])) (World tt [] []).
Proof.
  apply card_serves_safely.
  - apply Forall_replicate. unfold in_width. lia.
  - rewrite length_replicate. apply Z2Nat.id. unfold HOST_SYS_MEM_SIZE. lia.
  - unfold in_width. lia.
  - reflexivity.
  - apply net_env_routed.
  - apply busy_others_ok.
Defined.

(** ** Queues *)

(** [get_buf] takes exactly the buffer that the driver offers next: the
    entry of the available ring at the device's own tail, modulo the size of
    the queue, if the queue is ready, the ring is not empty, the entry is at
    most the number of descriptors, and descriptor and buffer lie in the guest's
    memory.  It then moves the tail by one; in every other case the device does
    not change. *)
Theorem get_buf_exact env i (w : vworld) :
  vdev_ok (w_st w) -> 0 <= i ->
  wp (get_buf env i) (fun r w' =>
    if decide (offered (w_st w) i)
    then let desc := next_desc (w_st w) i in
         w_st w' = consumed i (w_st w) /\
         (fun b => (vb_guest_addr b, vb_len b, vb_id b, vb_head b)) <$> r =
           Some (d_addr desc, d_len desc, next_id (w_st w) i, d_addr desc) /\
         in_memory (m_mem (w_st w)) (d_addr desc) (d_len desc)
    else r = None /\ w' = w) w.
Proof.
  intros Hd Hi. apply get_buf_exec; [done..| |].
  - intros Hno. by rewrite decide_False.
  - intros Hyes junk. rewrite decide_True by done. split_and!; [done..|]. apply Hyes.
Qed.

(** A device with one ready queue of two buffers: descriptors at 0x1000, the
    available ring at 0x1020 with one entry, the used ring at 0x1030; the data is
    at 0x1060. *)
Definition queue_memory : bytes :=
  le_bytes 8 0x1060 ++ le_bytes 4 16 ++ replicate 4 0 ++     (* descriptor 0 *)
  replicate 16 0 ++                                         (* descriptor 1 *)
  le_bytes 2 0 ++ le_bytes 2 1 ++ replicate 4 0 ++ replicate 8 0 ++
  replicate 48 0 ++ [3; 0; 10; 20; 30] ++ replicate 11 0.
Definition queue_device : vdev :=
  (new_MMIOVirtioDev 1 0 [] MMIO_START 2)
    <| m_mem := small_memory queue_memory |>
    <| m_vqs := replicate 2 (Vq 2 true 0 0x1000 0 0x1020 0 0x1030 0 0x1000 0x1020 0x1030) |>.

Lemma queue_device_ok : vdev_ok queue_device.
Proof.
  constructor; try done.
  - apply small_memory_ok; [|vm_compute; reflexivity].
    unfold queue_memory, is_bytes. rewrite !Forall_app.
    split_and!; try apply le_bytes_is_bytes; try apply Forall_replicate; unfold in_width; try lia.
    repeat constructor; lia.
  - unfold queue_device. apply (Forall_replicate _ 2). constructor; simpl; try done; unfold in_width; try lia.
    repeat constructor; simpl; lia.
Qed.

Lemma get_buf_exact_witness :
  wp (get_buf net_env 1) (fun r w' => vb_guest_addr <$> r = Some 0x1060 /\ w_st w' = consumed 1 queue_device)
    (World queue_device [] []).
Proof.
  eapply wp_mono; [apply (get_buf_exact net_env 1 (World queue_device [] [])); [apply queue_device_ok|lia]|].
  intros r w' H. cbv beta in H. rewrite decide_True in H by (vm_compute; split_and!; discriminate || reflexivity).
  destruct H as (H1 & H2 & _). split; [|exact H1].
  destruct r as [b|]; [|discriminate]. injection H2 as Ha _ _ _.
  cbn [fmap option_fmap option_map]. f_equal. rewrite Ha. vm_compute. reflexivity.
Defined.

(** C40: [put_buf] never writes an entry of the used ring: it announces one more
    used buffer, but puts the identifier and the length behind the last entry of
    the ring, whatever the index of the head is, and every entry keeps its old
    value. *)
Theorem put_buf_misses_ring i b (w : vworld) :
  let q := vq_at (w_st w) i in
  vdev_ok (w_st w) -> 0 <= i -> returnable (w_st w) i ->
  wp (put_buf i b) (fun r w' =>
    r = 0 /\ used_head (w_st w') i = u16 (used_head (w_st w) i + 1) /\
    guest_bytes (m_mem (w_st w')) (used_gaddr q + offsetof_ring + sizeof_VirtqUsedElem * num_bufs q) 8
      = used_elem b /\
    forall k, 0 <= k < num_bufs q ->
      guest_bytes (m_mem (w_st w')) (used_gaddr q + offsetof_ring + sizeof_VirtqUsedElem * k) 8 =
      guest_bytes (m_mem (w_st w)) (used_gaddr q + offsetof_ring + sizeof_VirtqUsedElem * k) 8) w.
Proof.
  intros q Hd Hi Hret. apply put_buf_exec; [done..|]. intros _. destruct Hret as (Hlt & Hr & _ & Hslot).
  destruct (get_vq_lookup _ i Hd ltac:(lia)) as [_ Hq]. fold q in Hq, Hr, Hslot. pose proof (vd_mem _ Hd) as Hm.
  destruct (ready_heads _ q Hq Hr) as [_ Hh]. destruct (ready_num _ q Hq Hr) as [Hn _].
  pose proof (mm_ok_store _ _ (used_elem b) Hm Hslot (used_elem_bytes b)) as Hm1.
  set (m1 := guest_store (m_mem (w_st w)) (used_slot q) (used_elem b)) in *.
  set (head := le_bytes 2 (u16 (used_head (w_st w) i + 1))).
  change (m_mem (w_st (_ <| w_st ::= returned i b |>))) with (guest_store m1 (used_gaddr q + offsetof_head_idx) head).
  change (used_head (w_st (_ <| w_st ::= returned i b |>)) i) with
    (guest16 (guest_store m1 (used_gaddr q + offsetof_head_idx) head) (used_gaddr q + offsetof_head_idx)).
  split_and!; [done|..].
  - unfold guest16. change 2 with (Z.of_nat (length head)). rewrite guest_bytes_same by done.
    apply le_val_bytes_id, wrap_range. lia.
  - fold (used_slot q). rewrite guest_bytes_other; [|done..|lia|].
    + exact (guest_bytes_same _ (used_slot q) (used_elem b) Hm Hslot).
    + right. unfold used_slot, offsetof_head_idx, offsetof_ring, sizeof_VirtqUsedElem. simpl length. lia.
  - intros k Hk.
    assert (in_memory (m_mem (w_st w)) (used_gaddr q + offsetof_ring + sizeof_VirtqUsedElem * k) 8) as Hin.
    { destruct Hq as [_ _ _ H]. destruct (H Hr) as (_ & _ & _ & [? ?]).
      unfold in_memory, offsetof_ring, sizeof_VirtqUsed, sizeof_VirtqUsedElem in *. lia. }
    rewrite (guest_bytes_other m1 _ head); [|done..|lia|].
    2: { right. change (Z.of_nat (length head)) with 2. unfold offsetof_head_idx, offsetof_ring, sizeof_VirtqUsedElem. lia. }
    apply (guest_bytes_other _ (used_slot q) (used_elem b)); [done..|lia|].
    left. unfold used_slot, offsetof_ring, sizeof_VirtqUsedElem. lia.
Qed.

Lemma put_buf_misses_ring_witness :
  wp (put_buf 0 (Vbuf 0x1060 16 1 0 7 0x1060)) (fun r w' =>
    guest_bytes (m_mem (w_st w')) 0x1034 8 = replicate 8 0) (World (consumed 0 queue_device) [] []).
Proof.
  eapply wp_mono.
  - apply (put_buf_misses_ring 0 (Vbuf 0x1060 16 1 0 7 0x1060) (World (consumed 0 queue_device) [] [])).
    + apply vdev_ok_consumed; [apply queue_device_ok|simpl; lia].
    + lia.
    + vm_compute. repeat split; discriminate || reflexivity.
  - intros r w' (_ & _ & _ & H). specialize (H 0). vm_compute in H |- *. apply H. split; [discriminate|reflexivity].
Defined.

(** The worker thread of a device takes the value of a register read for an
    error: after it has answered a read of the magic number it leaves its loop,
    so that no later request of that processor is ever answered. *)
Theorem magic_read_ends_worker (env : dev_env) fuel others fd (w : net_world) r request :
  (forall tr, net_ok (others tr (w_st w))) -> virtio_lock ∉ (w_held w : list dev_mutex) ->
  (forall tr, m_magic (nd_base (others tr (w_st w))) = MAGIC) ->
  env (w_trace w) (DRead fd sizeof_io_request) = (28, request) ->
  load_io_request request = Some (Mmio r) -> mr_is_write r = 0 ->
  mr_phys_addr r = MMIO_START + REG_MAGIC_VAL -> mr_len r = 4 ->
  wp (IO_loop env (VirtioDevice0 := NetDev_virtio env) (S fuel) others fd) (fun res w' =>
    res = MAGIC /\
    w_trace w' = w_trace w ++ [DRead fd sizeof_io_request : call dev_iface; DWrite fd (le_bytes 4 MAGIC)]) w.
Proof.
  intros Hd Hl Hmagic Henv Hreq Hw Ha Hlen. unfold IO_loop. apply wp_loop_inr. apply wp_bind. dev_step.
  apply wp_bind, wp_interfere. pose (tr := w_trace w ++ [DRead fd sizeof_io_request : call dev_iface]). specialize (Hd tr). specialize (Hmagic tr).
  rewrite Henv. cbn [fst snd]. change (negb (28 =? sizeof_io_request)) with false. cbv iota. rewrite Hreq.
  apply wp_bind. unfold handle_MMIO. wp_go.
  change (base (w_st _)) with (nd_base (others tr (w_st w))). rewrite (nt_start _ Hd), Ha, Hw, Hlen.
  change (u64 (MMIO_START + REG_MAGIC_VAL - MMIO_START)) with REG_MAGIC_VAL.
  apply wp_dlock; [done|]. cbn [Z.eqb negb].
  apply wp_bind, wp_zoom. unfold mmio_read. wp_go.
  apply (wp_dunlock _ (w_held w)); [done|done|]. wp_go.
  change (w_st (zoom_world base _)) with (nd_base (others tr (w_st w))).
  rewrite Hmagic. change (i32 MAGIC) with MAGIC.
  split; [done|]. simpl. unfold tr. by rewrite <- app_assoc.
Qed.

Definition card : NetDev := Net queue_device (engine []) 0 0 0 42.

Lemma card_ok : net_ok card.
Proof.
  constructor; [apply queue_device_ok|reflexivity| |done..|constructor].
  apply engine_wf. unfold sizeof_m_code. simpl. lia.
Qed.

Definition magic_request : bytes := store_io_request (replicate 28 0) (Mmio (MmioRequest MMIO_START 0 4 0)).
Definition magic_env : dev_env := fun trace (c : dev_call) =>
  match c return dev_reply c with
  | DCalloc _ => true
  | DRead _ _ => (28, magic_request)
  | DGetenv _ => None
  | DNew _ => []
  | DStat _ | DRealpath _ | DMapFile _ => None
  | DRandombytes _ | DReadFile _ => []
  | DPayload _ _ _ _ => PayloadExit 0 [] [] [] 0 false
  | _ => 0
  end.

Lemma magic_read_ends_worker_witness :
  wp (IO_loop magic_env (VirtioDevice0 := NetDev_virtio magic_env) 5 busy_others 10) (fun res _ => res = MAGIC) (World card [] []).
Proof.
  eapply wp_mono.
  - apply (magic_read_ends_worker magic_env 4 busy_others 10 (World card [] []) (MmioRequest MMIO_START 0 4 0) magic_request).
    + intros tr. apply busy_others_ok, card_ok.
    + apply not_elem_of_nil.
    + reflexivity.
    + reflexivity.
    + vm_compute. reflexivity.
    + reflexivity.
    + reflexivity.
    + reflexivity.
  - intros r w' [H _]. exact H.
Defined.

(** ** Packets *)

Lemma packet_head nic data : take 4 (le_bytes 4 nic ++ data) = le_bytes 4 nic /\ drop 4 (le_bytes 4 nic ++ data) = data.
Proof.
  split; [apply take_app_length'|apply drop_app_length']; by rewrite length_le_bytes.
Qed.

(** An accepted packet. *)
Definition received (job : fifo_job) (q : list fifo_job) (data : bytes) (s : micro) : micro :=
  wake (fj_callback job)
    ((upd_reg (fj_size job) (length data) (s <| m_rx_queue := q |>)) <| m_ram ::= put_bytes (job_start job) data |>).

Lemma incoming_packet_exec nic job q p (Q : unit -> micro_world -> Prop) (w : micro_world) :
  wf_micro (w_st w) -> in_width 8 (fj_size job) -> 4 < length p <= MAX_ETHERNET_SIZE ->
  0 <= job_start job -> job_start job + (length p - 4) <= RAM_BYTES ->
  m_rx_queue (w_st w) = job :: q -> le_val (take 4 p) <> nic ->
  Q tt (w <| w_st ::= received job q (drop 4 p) |>) -> wp (incoming_packet nic p) Q w.
Proof.
  intros Hwf Hs Hp Hr1 Hr2 Hq Hnic HQ. unfold incoming_packet. wp_go. rewrite Hq.
  change (length (job :: q) =? 0) with false. cbv iota.
  rewrite (proj2 (Z.leb_gt _ _)), (proj2 (Z.ltb_ge _ _)), (proj2 (Z.eqb_neq _ _)) by (done || lia).
  apply wp_bind. unfold get_job. wp_go. rewrite Hq. wp_go.
  apply wp_set_reg; [by apply (wf_pop_fifo job)|done|].
  apply wp_bind, wp_write_ram; [done|rewrite length_drop; lia|]. wp_go.
  unfold received in HQ. replace (Z.of_nat (length (drop 4 p))) with (length p - 4) in HQ by (rewrite length_drop; lia).
  exact HQ.
Qed.

Lemma received_spec job q data s :
  wf_micro s -> in_width 8 (fj_size job) -> 0 <= job_start job -> is_bytes data ->
  let s' := received job q data s in
  reg_at s' (fj_size job) = length data /\ m_rx_queue s' = q /\
  ram_bytes (m_ram s') (job_start job) (length data) = data.
Proof.
  intros Hwf Hs Hr Hb s'.
  assert (m_registers s' = m_registers (upd_reg (fj_size job) (length data) s) /\ m_rx_queue s' = q /\
          m_ram s' = put_bytes (job_start job) data (m_ram s)) as (E1 & E2 & E3)
    by (unfold s', received; by destruct (fj_callback job)).
  split_and!; [|done|].
  - unfold reg_at. rewrite E1. fold (reg_at (upd_reg (fj_size job) (length data) s) (fj_size job)).
    rewrite reg_at_upd by done. by rewrite decide_True.
  - rewrite E3. by apply ram_bytes_put.
Qed.

(** C29: a packet of 1 to 1514 bytes that one card sends from its RAM is
    received by every other card of the network that waits with a buffer in its
    RAM: unchanged, with its size, in the first such buffer. The card that sent
    it ignores it. A packet of more than 1514 bytes is published too, but every
    card drops it: the receiver allows 1518 bytes with the 4 bytes of the header
    that the sender puts in front, while a card takes packets of up to 1518 bytes
    from its guest. *)
Theorem packet_roundtrip env nicA nicB jobA jobB q (A B : micro_world) :
  let n := reg_at (w_st A) (fj_size jobA) in
  wf_micro (w_st A) -> wf_micro (w_st B) ->
  in_width 8 (fj_size jobA) -> in_width 8 (fj_size jobB) ->
  0 < n -> 0 <= job_start jobA /\ job_start jobA + n <= RAM_BYTES ->
  m_rx_queue (w_st B) = jobB :: q ->
  in_width 32 nicA -> nicA <> nicB ->
  wp (send_packet env nicA jobA) (fun _ A' => exists p,
    w_trace A' = w_trace A ++ [DPublish p : call dev_iface] /\
    incoming_packet nicA p B = Ret tt B /\
    if decide (n <= MAX_ETHERNET_SIZE - 4)
    then 0 <= job_start jobB /\ job_start jobB + n <= RAM_BYTES ->
         wp (incoming_packet nicB p) (fun _ B' =>
           reg_at (w_st B') (fj_size jobB) = n /\ m_rx_queue (w_st B') = q /\
           ram_bytes (m_ram (w_st B')) (job_start jobB) n = ram_bytes (m_ram (w_st A)) (job_start jobA) n) B
    else incoming_packet nicB p B = Ret tt B) A.
Proof.
  intros n HA HB HsA HsB Hn HrA Hq Hnic Hne. unfold RAM_BYTES, RAM_WORDS in HrA.
  unfold send_packet. apply wp_bind, wp_reg; [done..|]. fold n.
  assert (i32 (n + 4) = n + 4) as -> by (apply swrap_small; lia).
  rewrite !(proj2 (Z.ltb_ge _ _)) by lia.
  apply wp_bind, wp_read_ram; [lia|unfold RAM_BYTES, RAM_WORDS; lia|].
  set (data := ram_bytes (m_ram (w_st A)) (job_start jobA) n).
  destruct (ram_bytes_ok (m_ram (w_st A)) (job_start jobA) n ltac:(lia)) as [Hl Hb]. fold data in Hl, Hb.
  apply wp_bind. dev_step. apply wp_modify. exists (le_bytes 4 nicA ++ data). split; [done|].
  assert (Z.of_nat (length (le_bytes 4 nicA ++ data)) = n + 4) as Hlen by (rewrite length_app, length_le_bytes; lia).
  destruct (packet_head nicA data) as [Ht Hdrop].
  assert (le_val (take 4 (le_bytes 4 nicA ++ data)) = nicA) as Hval by (rewrite Ht; by apply le_val_bytes_id).
  split; [unfold incoming_packet, gets, mbind, prog_bind; rewrite Hval, Z.eqb_refl; by repeat case_match|].
  case_decide as Hsize.
  - intros HrB. apply (incoming_packet_exec nicB jobB q); [done..|lia|lia|lia|done|by rewrite Hval|].
    rewrite Hdrop. destruct (received_spec jobB q data (w_st B) HB HsB ltac:(lia) Hb) as (H1 & H2 & H3).
    rewrite Hl in H1, H3. done.
  - unfold incoming_packet, gets, mbind, prog_bind. rewrite Hlen, Hq.
    change (length (jobB :: q) =? 0) with false. cbv iota.
    rewrite (proj2 (Z.leb_gt _ _)), (proj2 (Z.ltb_lt _ _)) by lia. done.
Qed.

Definition sender : micro_world :=
  World ((with_regs [(3, 6)] (engine [])) <| m_ram ::= put_bytes 64 [1; 2; 3; 4; 5; 6] |>) [] [].
Definition receiver : micro_world :=
  World ((engine []) <| m_rx_queue := [FifoJob 9 0x100 (Some 2)] |>) [] [].

Lemma packet_roundtrip_witness :
  wp (send_packet net_env 7 (FifoJob 3 16 None)) (fun _ A' => exists p,
    w_trace A' = [DPublish p : call dev_iface] /\
    wp (incoming_packet 8 p) (fun _ B' => ram_bytes (m_ram (w_st B')) 0x400 6 = [1; 2; 3; 4; 5; 6]) receiver) sender.
Proof.
  assert (wf_micro (engine [])) as He by (apply engine_wf; unfold sizeof_m_code; simpl; lia).
  eapply wp_mono.
  - apply (packet_roundtrip net_env 7 8 (FifoJob 3 16 None) (FifoJob 9 0x100 (Some 2)) [] sender receiver);
      [| |vm_compute; repeat split; discriminate || reflexivity..].
    + apply wf_set_ram; [|intros m; apply put_bytes_wf]. apply with_regs_wf; [exact He|].
      unfold in_width. repeat constructor; simpl; lia.
    + destruct He. constructor; try assumption. apply Forall_singleton.
      constructor; simpl; unfold in_width, NUM_THREADS; lia.
  - intros [] A' (p & H1 & _ & H2). exists p. split; [exact H1|].
    rewrite decide_True in H2 by (vm_compute; discriminate).
    eapply wp_mono; [apply H2; vm_compute; repeat split; discriminate|].
    intros [] B' (_ & _ & H). vm_compute in H |- *. exact H.
Defined.

(** ** Transmission *)

(** The buffer of the guest: a 16-bit size and the bytes of the packet. *)
Definition tx_buffer (m : memory_manager) (a : Z) (data : bytes) : Prop :=
  0 < length data <= MAX_MTU /\ is_bytes data /\ in_memory m a (2 + length data) /\
  guest_bytes m a 2 = le_bytes 2 (length data) /\ guest_bytes m (a + 2) (length data) = data.

Definition slot_of (d : NetDev) : Z := SCRATCH_TX_RING_BUF + 2 * m_tx_ring_buf_idx d.
Definition packet_of (d : NetDev) : Z := RAM_BUF_POOL + 380 * m_ram_pool_idx d.

(** The card after a packet was copied to RAM, and after it was announced. *)
Definition copied (data : bytes) (d : NetDev) : NetDev :=
  d <| m_ram_pool_idx := (m_ram_pool_idx d + 1) mod RAM_BUF_POOL_SIZE |>
    <| m_microengine ::= fun s => s <| m_ram ::= put_bytes (4 * packet_of d) data |> |>.
Definition announced (size pkt : Z) (d : NetDev) : NetDev :=
  d <| m_tx_ring_buf_idx := (m_tx_ring_buf_idx d + 1) mod SCRATCH_TX_RING_BUF_SIZE |>
    <| m_microengine ::= fun s =>
         upd_mem Scratch_mem (slot_of d) (Z.lor IN_USE_MASK (Z.land size SIZE_MASK))
           (upd_mem Scratch_mem (slot_of d + 1) pkt s) |>.

Lemma add_to_tx_ring_buf_exec size pkt (Q : Z -> net_world -> Prop) (w : net_world) :
  let d := w_st w in
  wf_micro (m_microengine d) -> 0 <= m_tx_ring_buf_idx d < SCRATCH_TX_RING_BUF_SIZE -> in_width 32 pkt ->
  Z.land (mem_at Scratch_mem (m_microengine d) (slot_of d)) IN_USE_MASK = 0 ->
  Q 0 (w <| w_st := announced size pkt d |>) -> wp (add_to_tx_ring_buf size pkt) Q w.
Proof.
  intros d Hwf Hr Hp Hfree HQ. unfold add_to_tx_ring_buf. wp_go. fold d.
  rewrite ring_index_step by done. fold (slot_of d).
  assert (0 <= slot_of d /\ slot_of d + 1 < SCRATCH_WORDS) as Hslot.
  { unfold slot_of, SCRATCH_TX_RING_BUF, SCRATCH_TX_RING_BUF_SIZE, SCRATCH_WORDS in *. lia. }
  apply wp_zoom, wp_mem_read; [done|simpl; lia|]. change (w_st (zoom_world m_microengine w)) with (m_microengine d).
  rewrite Hfree. cbn [Z.eqb negb].
  apply wp_bind, wp_zoom, wp_mem_write; [done|simpl; lia|].
  apply wp_bind, wp_zoom, wp_mem_write; [by apply wf_upd_mem|simpl; lia|]. wp_go.
  destruct (wrap_index SCRATCH_TX_RING_BUF_SIZE (m_tx_ring_buf_idx d)
    ltac:(unfold SCRATCH_TX_RING_BUF_SIZE; lia)) as [_ Er].
  unfold announced in HQ. rewrite <- Er in HQ. exact HQ.
Qed.

Lemma handleTx_exec b data (Q : VirtBuf * option Z -> net_world -> Prop) (w : net_world) :
  let d := w_st w in
  net_ok d -> vb_ok b -> tx_buffer (m_mem (nd_base d)) (vb_head b) data ->
  Z.land (mem_at Scratch_mem (m_microengine d) (slot_of d)) IN_USE_MASK = 0 ->
  (forall b', Q (b', None) (w <| w_st := announced (length data) (packet_of d) (copied data d) |>)) -> wp (handleTx b) Q w.
Proof.
  intros d Hd Hb (Hmtu & Hbs & Hin & Hhdr & Hdata) Hfree HQ. pose proof (nt_base _ Hd) as Hv.
  pose proof (nt_micro _ Hd) as Hwf. pose proof (nt_ring _ Hd) as Hring. pose proof (nt_pool _ Hd) as Hpool.
  pose proof (vd_mem _ Hv) as Hm. unfold MAX_MTU in Hmtu.
  assert (in_memory (m_mem (nd_base d)) (vb_head b) 2 /\ in_memory (m_mem (nd_base d)) (vb_head b + 2) (length data))
    as [Hin1 Hin2] by (destruct Hin; unfold in_memory; lia).
  assert (unzoom put_base w (zoom_world nd_base w) = w) as Eid by (by destruct w as [[] ? ?]).
  unfold handleTx. apply wp_bind, wp_zoom, wp_readU; [done|done|done| |by intros []].
  intros _ Hb1. rewrite Eid. cbv beta iota. cbn [zoom_world w_st]. fold d. change sizeof_tx_msg with 2.
  rewrite Hhdr, le_val_bytes_id by (unfold in_width; simpl; lia).
  rewrite (proj2 (Z.ltb_ge _ _)) by (unfold MAX_MTU; lia).
  unfold new_pkt. apply wp_bind. wp_go. fold d. rewrite pool_index_step by done. fold (packet_of d).
  destruct (wrap_index RAM_BUF_POOL_SIZE (m_ram_pool_idx d) ltac:(unfold RAM_BUF_POOL_SIZE; lia)) as [_ Epool].
  assert (u64 (vb_head b + 2) = vb_head b + 2) as Eh by (eapply u64_in; [exact Hm|exact Hin2]).
  apply wp_zoom, wp_readU; [done| |unfold in_width; lia| |].
  { exact Hb1. }
  2: { intros Hno. exfalso. apply Hno. simpl. unfold set_field. by rewrite Eh. }
  intros _ Hb2. cbv beta iota.
  change (vb_head (b <| vb_head ::= fun h => u64 (h + 2) |>)) with (u64 (vb_head b + 2)). rewrite Eh.
  change (m_mem (w_st (zoom_world nd_base _))) with (m_mem (nd_base d)). rewrite Hdata.
  apply wp_bind, wp_zoom, wp_write_ram.
  { unfold packet_of, RAM_BUF_POOL, RAM_BUF_POOL_SIZE in *. lia. }
  { unfold packet_of, RAM_BUF_POOL, RAM_BUF_POOL_SIZE, RAM_BYTES, RAM_WORDS in *. lia. }
  apply wp_bind, add_to_tx_ring_buf_exec.
  - by apply wf_set_ram; [|intros m; apply put_bytes_wf].
  - exact Hring.
  - unfold in_width, packet_of, RAM_BUF_POOL, RAM_BUF_POOL_SIZE in *. lia.
  - exact Hfree.
  - wp_go. unfold copied in HQ. rewrite <- Epool in HQ. apply HQ.
Qed.

(** A packet that the guest hands over arrives at the firmware: its bytes are
    in the next buffer of the pool in the engine's RAM, the next slot of the
    transmit ring in scratch memory holds the address of that buffer and, marked
    in use, the size, and both positions move on modulo the number of buffers
    and of slots. *)
Theorem tx_delivers b data (w : net_world) :
  let d := w_st w in
  net_ok d -> vb_ok b -> tx_buffer (m_mem (nd_base d)) (vb_head b) data ->
  Z.land (mem_at Scratch_mem (m_microengine d) (slot_of d)) IN_USE_MASK = 0 ->
  wp (handleTx b) (fun _ w' => let d' := w_st w' in
    mem_at Scratch_mem (m_microengine d') (slot_of d) = IN_USE_MASK + length data /\
    mem_at Scratch_mem (m_microengine d') (slot_of d + 1) = packet_of d /\
    ram_bytes (m_ram (m_microengine d')) (4 * packet_of d) (length data) = data /\
    m_tx_ring_buf_idx d' = (m_tx_ring_buf_idx d + 1) mod SCRATCH_TX_RING_BUF_SIZE /\
    m_ram_pool_idx d' = (m_ram_pool_idx d + 1) mod RAM_BUF_POOL_SIZE) w.
Proof.
  intros d Hd Hb Htx Hfree. apply (handleTx_exec b data); [done..|]. intros b'.
  destruct Htx as (Hlen & Hbs & _). pose proof (nt_micro _ Hd) as Hwf.
  pose proof (nt_ring _ Hd) as Hr. pose proof (nt_pool _ Hd) as Hp.
  assert (0 <= slot_of d /\ slot_of d + 1 < SCRATCH_WORDS) as Hslot.
  { unfold slot_of, SCRATCH_TX_RING_BUF, SCRATCH_TX_RING_BUF_SIZE, SCRATCH_WORDS in *. fold d in Hr. lia. }
  fold d. set (s1 := (m_microengine d) <| m_ram ::= put_bytes (4 * packet_of d) data |>).
  set (s2 := upd_mem Scratch_mem (slot_of d + 1) (packet_of d) s1).
  assert (in_width 32 (packet_of d)) as Wp.
  { unfold in_width, packet_of, RAM_BUF_POOL, RAM_BUF_POOL_SIZE in *. fold d in Hp. lia. }
  assert (wf_micro s1) as Hwf1 by (by apply wf_set_ram; [|intros m; apply put_bytes_wf]).
  assert (wf_micro s2) as Hwf2 by (by apply wf_upd_mem).
  cbv zeta. change (m_microengine (w_st _)) with
    (upd_mem Scratch_mem (slot_of d) (Z.lor IN_USE_MASK (Z.land (length data) SIZE_MASK)) s2).
  split_and!; [..|done|done].
  - rewrite mem_at_upd, decide_True by (done || simpl; lia). unfold MAX_MTU in Hlen.
    change SIZE_MASK with (Z.ones 24). rewrite Z.land_ones, Z.mod_small by lia. symmetry. apply Z.add_nocarry_lor.
    apply Z.bits_inj'. intros i Hi. change IN_USE_MASK with (2 ^ 31). rewrite Z.land_spec, Z.bits_0.
    destruct (decide (i = 31)) as [->|Hne]; [|by rewrite Z.pow2_bits_false by lia].
    rewrite (in_width_testbit 31 (length data)), andb_false_r by (unfold in_width; lia). done.
  - rewrite mem_at_upd, decide_False by (done || simpl; lia). unfold s2.
    rewrite mem_at_upd, decide_True by (done || simpl; lia). done.
  - apply (ram_bytes_put data (4 * packet_of d) (m_ram (m_microengine d))); [|done].
    unfold in_width in Wp. lia.
Qed.

Definition tx_card : net_world := World card [] [].

Lemma tx_delivers_witness :
  wp (handleTx (Vbuf 0x1060 16 0 0 0 0x1060)) (fun _ w' =>
    ram_bytes (m_ram (m_microengine (w_st w'))) (4 * RAM_BUF_POOL) 3 = [10; 20; 30]) tx_card.
Proof.
  eapply wp_mono.
  - apply (tx_delivers (Vbuf 0x1060 16 0 0 0 0x1060) [10; 20; 30] tx_card).
    + apply card_ok.
    + unfold vb_ok, in_width. simpl. lia.
    + vm_compute. repeat (split || constructor); discriminate || reflexivity.
    + vm_compute. reflexivity.
  - intros r w' (_ & _ & H & _). exact H.
Defined.
