(* ===== verification/NicSys.v ===== *)
(** * NicSys: the threads of the network card

    The interpreter, the two memory controllers, the PHY and the thread that
    serves the guest run concurrently on the engine.  A step is one instruction
    of the firmware, one word of a transfer, one queue operation of a thread, or
    the delivery of a packet to the guest, which touches nothing of the engine
    but what it reads of the packet and the callback that it calls;
    a context that sleeps is woken by the callback of its job. *)

From S2P Require Import Prelude Effects Device Virtio Micro MicroExec MicroMem Net NetSafe.

(** ** Partial correctness: what holds if a program returns *)

Definition any_fault (f : fault) : bool := true.
Definition returns {A} (m : micro_prog A) (Q : A -> micro_world -> Prop) (w : micro_world) : Prop :=
  upto any_fault m Q w.

(** [m] takes the engine from [s] to [s'] and returns [a]. *)
Definition runs {A} (m : micro_prog A) (a : A) (s s' : micro) : Prop :=
  exists w w', w_st w = s /\ w_st w' = s' /\ m w = Ret a w'.

Lemma runs_returns {A} (m : micro_prog A) (Q : A -> micro -> Prop) a s s' :
  runs m a s s' -> (forall w, w_st w = s -> returns m (fun a w' => Q a (w_st w')) w) -> Q a s'.
Proof. intros (w & w' & Hs & <- & H) HQ. specialize (HQ w Hs). unfold returns, upto in HQ. by rewrite H in HQ. Qed.

(** ** Threads *)

Record nic := Nic {
  n_eng : micro;
  n_scratch : option (memory_job * nat);   (* the job and the next word *)
  n_ram : option (memory_job * nat);
  n_tx : option fifo_job;
  n_host : option fifo_job;
  n_lost : list (option Z);                (* callbacks of failed deliveries *)
}.
#[export] Instance nic_eta : Settable nic := fun n =>
  Nic (n_eng n) (n_scratch n) (n_ram n) (n_tx n) (n_host n) (n_lost n).

Definition controller (b : bank) (n : nic) : option (memory_job * nat) :=
  match b with Scratch_mem => n_scratch n | Ram_mem => n_ram n end.
Definition set_controller (b : bank) (c : option (memory_job * nat)) (n : nic) : nic :=
  match b with Scratch_mem => n <| n_scratch := c |> | Ram_mem => n <| n_ram := c |> end.

(** What the thread that serves the guest does to the engine besides [handleRx]. *)
Inductive host_op : micro_prog unit -> Prop :=
  | host_scratch a v : in_width 32 v -> host_op (mem_write Scratch_mem a v)
  | host_ram a data : host_op (write_ram a data)
  | host_csr b mask : in_width 32 mask -> host_op (change_csr b mask)
  | host_mac mac : (6 <= length mac)%nat -> host_op (set_mac_address mac).

(** [handleRx] with the job that it took, on any state of the card around the
    engine and into any buffer of the guest. *)
Definition delivers (job : fifo_job) (err : Z) (s s' : micro) : Prop :=
  exists vbuf vbuf' w w', m_microengine (w_st w) = s /\ m_microengine (w_st w') = s' /\
    deliver job vbuf w = Ret (vbuf', err) w'.

Inductive nic_step : nic -> nic -> Prop :=
  (* thread_ready_to_run goes on to the next context *)
  | step_scan n s' :
      m_done (n_eng n) = 0 -> runs current_ready false (n_eng n) (n_eng n) ->
      runs next_context tt (n_eng n) s' -> nic_step n (n <| n_eng := s' |>)
  (* interpreter_loop executes the next instruction *)
  | step_exec n s' :
      m_done (n_eng n) = 0 -> runs current_ready true (n_eng n) (n_eng n) ->
      runs execute_next tt (n_eng n) s' -> nic_step n (n <| n_eng := s' |>)
  (* handle_scratch and handle_ram *)
  | step_get b n job q :
      controller b n = None -> queue_of b (n_eng n) = job :: q ->
      nic_step n (set_controller b (Some (job, 0%nat)) (n <| n_eng ::= set_queue b q |>))
  | step_word b n job i s' :
      controller b n = Some (job, i) -> Z.of_nat i < mj_count job ->
      runs (transfer_word b job i) tt (n_eng n) s' ->
      nic_step n (set_controller b (Some (job, S i)) (n <| n_eng := s' |>))
  | step_done b n job i :
      controller b n = Some (job, i) -> mj_count job <= Z.of_nat i ->
      nic_step n (set_controller b None (n <| n_eng ::= wake (mj_callback job) |>))
  (* Phy::handle_tx *)
  | step_tx_get n job q :
      n_tx n = None -> m_tx_queue (n_eng n) = job :: q ->
      nic_step n (n <| n_tx := Some job |> <| n_eng ::= fun s => s <| m_tx_queue := q |> |>)
  | step_tx_done env nic n job s' :
      n_tx n = Some job -> runs (send_packet env nic job) tt (n_eng n) s' ->
      nic_step n (n <| n_tx := None |> <| n_eng := s' |>)
  (* incoming_packet *)
  | step_rx nic p n s' :
      runs (incoming_packet nic p) tt (n_eng n) s' -> nic_step n (n <| n_eng := s' |>)
  (* NetDev::handleRx: it takes a job, delivers the packet and returns *)
  | step_host_get n job q :
      n_host n = None -> m_pkt_in_queue (n_eng n) = job :: q ->
      nic_step n (n <| n_host := Some job |> <| n_eng ::= fun s => s <| m_pkt_in_queue := q |> |>)
  | step_host_done n job s' :
      n_host n = Some job -> delivers job 0 (n_eng n) s' ->
      nic_step n (n <| n_host := None |> <| n_eng := s' |>)
  | step_host_fail n job err s' :
      n_host n = Some job -> err <> 0 -> delivers job err (n_eng n) s' ->
      nic_step n (n <| n_host := None |> <| n_eng := s' |> <| n_lost ::= cons (fj_callback job) |>)
  (* NetDev::handleTx and NetDev::handleControl *)
  | step_host_op m n s' :
      host_op m -> runs m tt (n_eng n) s' -> nic_step n (n <| n_eng := s' |>).

Definition nic_start (s : micro) : nic := Nic s None None None None [].
Definition reachable (s : micro) : nic -> Prop := rtc nic_step (nic_start s).

(** The callbacks that some thread or queue still holds. *)
Definition outstanding (n : nic) : list (option Z) :=
  pending (n_eng n) ++ (mj_callback ∘ fst <$> option_list (n_scratch n)) ++
  (mj_callback ∘ fst <$> option_list (n_ram n)) ++ (fj_callback <$> option_list (n_tx n)) ++
  (fj_callback <$> option_list (n_host n)).

(** ** Sleeping contexts and callbacks *)

(** Of the contexts, exactly those that sleep have a callback in [l], and one. *)
Record accounted (r : list bool) (l : list (option Z)) : Prop := {
  acc_len : length r = 4%nat;
  acc_once : NoDup (omap id l);
  acc_range : Forall (fun c => 0 <= c < NUM_THREADS) (omap id l);
  acc_iff : forall c, 0 <= c < NUM_THREADS -> znth r c = Some false <-> c ∈ omap id l;
}.

#[export] Instance accounted_proper : Proper ((=) ==> (≡ₚ) ==> iff) accounted.
Proof.
  assert (forall r l l', l ≡ₚ l' -> accounted r l -> accounted r l') as H.
  { intros r l l' Hp [Hl Hn Hr Hi].
    assert (omap id l ≡ₚ omap id l') as Ho by (by apply omap_Permutation).
    constructor; [done|by rewrite <- Ho|by rewrite <- Ho|]. intros c Hc. rewrite <- Ho. by apply Hi. }
  intros r ? <- l l' Hp. split; [by apply H|by apply H].
Qed.

Lemma accounted_none r l : accounted r (None :: l) <-> accounted r l.
Proof. split; intros []; by constructor. Qed.

Lemma accounted_sleep r l c :
  accounted r l -> 0 <= c < NUM_THREADS -> znth r c = Some true ->
  accounted (<[Z.to_nat c := false]> r) (Some c :: l).
Proof.
  intros [Hl Hn Hr Hi] Hc Ht.
  assert (c ∉ omap id l) as Hout by (intros Hin; apply Hi in Hin; congruence).
  constructor; cbn [omap list_omap id]; [by rewrite length_insert|by constructor|by constructor|].
  intros c' Hc'. unfold znth in *. rewrite (proj2 (Z.ltb_ge c' 0)) by lia. rewrite elem_of_cons.
  destruct (decide (c' = c)) as [->|Hne].
  - rewrite list_lookup_insert_eq by (unfold NUM_THREADS in *; lia). naive_solver.
  - rewrite list_lookup_insert_ne by lia. specialize (Hi c' Hc').
    rewrite (proj2 (Z.ltb_ge c' 0)) in Hi by lia. naive_solver.
Qed.

Lemma accounted_wake r l cb :
  accounted r (cb :: l) ->
  accounted (match cb with Some c => <[Z.to_nat c := true]> r | None => r end) l.
Proof.
  destruct cb as [c|]; [|apply accounted_none]. intros [Hl Hn Hr Hi]. cbn [omap list_omap id] in *.
  apply NoDup_cons in Hn as [Hout Hn]. apply Forall_cons in Hr as [Hc Hr].
  constructor; [by rewrite length_insert|done|done|]. intros c' Hc'. unfold znth in *.
  rewrite (proj2 (Z.ltb_ge c' 0)) by lia. specialize (Hi c' Hc').
  rewrite (proj2 (Z.ltb_ge c' 0)), elem_of_cons in Hi by lia. destruct (decide (c' = c)) as [->|Hne].
  - rewrite list_lookup_insert_eq by (unfold NUM_THREADS in *; lia). naive_solver.
  - rewrite list_lookup_insert_ne by lia. naive_solver.
Qed.

(** ** What the operations of the threads leave alone *)

Definition quiet (s s' : micro) : Prop :=
  wf_micro s' /\ pending s' = pending s /\ m_ctx_ready s' = m_ctx_ready s.

Lemma quiet_refl s : wf_micro s -> quiet s s.
Proof. done. Qed.

Lemma quiet_trans s1 s2 s3 : quiet s1 s2 -> quiet s2 s3 -> quiet s1 s3.
Proof. intros (_ & H1 & H2) (H3 & H4 & H5). split_and!; congruence. Qed.

Lemma returns_get_or {A} f (o : option A) (Q : A -> micro_world -> Prop) w :
  (forall a, o = Some a -> Q a w) -> returns (get_or f o) Q w.
Proof. intros HQ. destruct o; [by apply wp_upto, wp_ret, HQ|done]. Qed.

Lemma returns_gets_then {A} (k : micro -> micro_prog A) (Q : A -> micro_world -> Prop) w :
  returns (k (w_st w)) Q w -> returns (s ← gets (fun s => s); k s) Q w.
Proof. intros H. by apply upto_bind, wp_upto, wp_gets. Qed.

Lemma returns_reg k (Q : Z -> micro_world -> Prop) w :
  wf_micro (w_st w) -> (forall v, in_width 32 v -> Q v w) -> returns (reg k) Q w.
Proof.
  intros Hwf HQ. apply returns_gets_then, returns_get_or. intros v Hv. apply HQ.
  unfold znth in Hv. case_match; [done|]. exact (proj1 (Forall_lookup _ _) (wf_regs _ Hwf) _ _ Hv).
Qed.

Lemma returns_set_reg k v (Q : unit -> micro_world -> Prop) w :
  wf_micro (w_st w) -> in_width 32 v ->
  (quiet (w_st w) (upd_reg k v (w_st w)) -> Q tt (w <| w_st ::= upd_reg k v |>)) -> returns (set_reg k v) Q w.
Proof.
  intros Hwf Hv HQ. apply returns_gets_then. apply upto_bind, returns_get_or. intros v0 _.
  apply wp_upto, wp_modify, HQ. split; [by apply wf_upd_reg|done].
Qed.

Lemma returns_mem_read b a (Q : Z -> micro_world -> Prop) w :
  wf_micro (w_st w) -> (forall v, in_width 32 v -> Q v w) -> returns (mem_read b a) Q w.
Proof.
  intros Hwf HQ. apply returns_gets_then. destruct b.
  - apply returns_get_or. intros v Hv. apply HQ. unfold znth in Hv. case_match; [done|].
    exact (proj1 (Forall_lookup _ _) (wf_scratch _ Hwf) _ _ Hv).
  - case_match; [|done]. apply wp_upto, wp_ret, HQ. exact (mem_at_range Ram_mem _ a Hwf).
Qed.

Lemma returns_mem_write b a v (Q : unit -> micro_world -> Prop) w :
  wf_micro (w_st w) -> in_width 32 v ->
  (quiet (w_st w) (upd_mem b a v (w_st w)) -> Q tt (w <| w_st ::= upd_mem b a v |>)) ->
  returns (mem_write b a v) Q w.
Proof.
  intros Hwf Hv HQ. apply upto_bind, returns_mem_read; [done|]. intros v0 _.
  assert (quiet (w_st w) (upd_mem b a v (w_st w))) as Hq by (split; [by apply wf_upd_mem|by destruct b]).
  specialize (HQ Hq). destruct b; apply wp_upto, wp_modify; exact HQ.
Qed.

Lemma transfer_quiet b job i w :
  wf_micro (w_st w) -> returns (transfer_word b job i) (fun _ w' => quiet (w_st w) (w_st w')) w.
Proof.
  intros Hwf. unfold transfer_word. cbv zeta. case_match; [|case_match; [|by apply wp_upto, wp_ret]].
  - apply upto_bind, returns_reg; [done|]. intros v Hv. by apply returns_mem_write.
  - apply upto_bind, returns_mem_read; [done|]. intros v Hv. by apply returns_set_reg.
Qed.

Lemma write_ram_quiet a data (Q : unit -> micro_world -> Prop) w :
  wf_micro (w_st w) ->
  (quiet (w_st w) ((w_st w) <| m_ram ::= put_bytes a data |>) ->
     Q tt (w <| w_st ::= fun s => s <| m_ram ::= put_bytes a data |> |>)) ->
  returns (write_ram a data) Q w.
Proof.
  intros Hwf HQ. unfold write_ram. case_match; [|done]. apply wp_upto, wp_modify, HQ.
  split; [|done]. apply wf_set_ram; [done|]. intros m. apply put_bytes_wf.
Qed.

Lemma host_quiet m w : host_op m -> wf_micro (w_st w) -> returns m (fun _ w' => quiet (w_st w) (w_st w')) w.
Proof.
  intros [a v Hv|a data|b mask Hm|mac Hl] Hwf.
  - by apply returns_mem_write.
  - by apply write_ram_quiet.
  - apply wp_upto, wp_modify. split; [|done]. pose proof (wf_csr _ Hwf). destruct Hwf. constructor; try done.
    simpl. unfold set_field. case_match; [by apply lor_range|by apply in_width_land].
  - apply wp_upto, wp_modify. split; [|done]. destruct Hwf. constructor; try done.
    simpl. unfold set_field. rewrite length_take. lia.
Qed.

(** A queue operation and a wake-up. *)
Lemma pending_wake cb s : pending (wake cb s) = pending s.
Proof. by destruct cb. Qed.
Lemma ready_wake cb s :
  m_ctx_ready (wake cb s) =
  match cb with Some c => <[Z.to_nat c := true]> (m_ctx_ready s) | None => m_ctx_ready s end.
Proof. by destruct cb. Qed.

Lemma send_returns env nic job w :
  wf_micro (w_st w) ->
  returns (send_packet env nic job) (fun _ w' => exists s1, quiet (w_st w) s1 /\ w_st w' = wake (fj_callback job) s1) w.
Proof.
  intros Hwf. unfold send_packet. apply upto_bind, returns_reg; [done|]. intros size _. cbv zeta.
  case_match; [done|]. case_match; [done|].
  apply upto_bind, returns_gets_then. case_match; [|done]. apply wp_upto, wp_ret.
  apply upto_bind, wp_upto. dev_step. apply wp_upto, wp_modify. by exists (w_st w).
Qed.

Lemma incoming_returns nic p w :
  wf_micro (w_st w) ->
  returns (incoming_packet nic p) (fun _ w' => w_st w' = w_st w \/
    exists job q s1, m_rx_queue (w_st w) = job :: q /\
      quiet ((w_st w) <| m_rx_queue := q |>) s1 /\ w_st w' = wake (fj_callback job) s1) w.
Proof.
  intros Hwf. unfold incoming_packet. apply returns_gets_then. cbv zeta.
  repeat case_match; try (apply wp_upto, wp_ret; by left).
  unfold MAX_ETHERNET_SIZE in *.
  apply upto_bind, returns_gets_then. destruct (m_rx_queue (w_st w)) as [|job q] eqn:Eq; [done|].
  apply wp_upto, wp_bind, wp_modify, wp_ret.
  assert (wf_micro ((w_st w) <| m_rx_queue := q |>)) as Hwf1 by (by apply (wf_pop_fifo job)).
  apply upto_bind, returns_set_reg; [done|unfold in_width; lia|]. intros Hq1.
  apply upto_bind, write_ram_quiet; [apply Hq1|]. intros Hq2.
  apply wp_upto, wp_modify. right. eexists job, q, _. split; [done|]. split; [|reflexivity].
  eapply quiet_trans; [exact Hq1|exact Hq2].
Qed.

(** [handleRx] calls the callback exactly if it returns 0: on its error paths
    the engine stays as it was. *)
Lemma deliver_returns job vbuf w :
  upto any_fault (deliver job vbuf) (fun r w' => m_microengine (w_st w') =
    if r.2 =? 0 then wake (fj_callback job) (m_microengine (w_st w)) else m_microengine (w_st w)) w.
Proof.
  set (s := m_microengine (w_st w)).
  assert (forall A (m : vprog A) (k : A -> net_prog (VirtBuf * Z)) Q w1,
    m_microengine (w_st w1) = s ->
    (forall a w2, m_microengine (w_st w2) = s -> upto any_fault (k a) Q w2) ->
    upto any_fault (in_vdev m ≫= k) Q w1) as Hbase.
  { intros A m k Q w1 H1 Hk. apply upto_bind, upto_zoom. unfold upto.
    destruct (m _) as [a w2|]; [|done]. by apply Hk. }
  unfold deliver. apply upto_bind, upto_zoom, returns_gets_then, returns_get_or. intros size _.
  cbv zeta. apply Hbase; [done|]. intros [err b1] w1 H1.
  destruct (err =? 0) eqn:E1; [|apply wp_upto, wp_ret; simpl; by rewrite E1].
  simpl. apply upto_bind, wp_upto, wp_gets. case_match; [by apply wp_upto, wp_ret|].
  apply upto_bind, upto_zoom, returns_gets_then. case_match; [|done]. apply wp_upto, wp_ret.
  apply Hbase; [done|]. intros [err' b2] w2 H2.
  destruct (err' =? 0) eqn:E2; [|apply wp_upto, wp_ret; simpl; by rewrite E2].
  simpl. apply wp_upto, wp_bind, wp_zoom, wp_modify, wp_ret. simpl. unfold set_field. simpl. by rewrite H2.
Qed.

Lemma delivers_engine job err s s' :
  delivers job err s s' -> s' = if err =? 0 then wake (fj_callback job) s else s.
Proof.
  intros (vbuf & vbuf' & w & w' & <- & <- & H). pose proof (deliver_returns job vbuf w) as Hd.
  unfold upto in Hd. by rewrite H in Hd.
Qed.

Lemma execute_returns w :
  wf_micro (w_st w) ->
  returns execute_next (fun _ w' => wf_micro (w_st w') /\ issues (w_st w) (w_st w')) w.
Proof.
  intros Hwf. unfold execute_next. apply returns_gets_then. apply upto_bind, returns_get_or. intros pc Hpc.
  apply upto_bind, wp_upto, wp_modify.
  set (s1 := (w_st w) <| m_pc_ctx ::= <[Z.to_nat (m_current_ctx (w_st w)) := u32 (pc + 1)]> |>).
  assert (wf_micro s1) as Hwf1 by (apply wf_set_pc; [done|apply wrap_range; lia]).
  set (w1 := w <| w_st ::= _ |>). change (w_st w1) with s1. case_match.
  { apply wp_upto, wp_modify. split; [|by apply issues_same]. destruct Hwf1. by constructor. }
  apply upto_bind, returns_get_or. intros x _.
  destruct (well_defined x s1) eqn:Hdef.
  - apply wp_upto. eapply wp_mono; [apply (exec_instruction x w1 Hwf1 Hdef)|]. by intros [] w' (H1 & H2 & _).
  - unfold returns, upto. by rewrite (undefined_instruction x w1 Hwf1 Hdef).
Qed.

Lemma current_ready_runs b s : runs current_ready b s s -> znth (m_ctx_ready s) (m_current_ctx s) = Some b.
Proof.
  intros (w & w' & <- & _ & H). unfold current_ready, gets, mbind, prog_bind in H.
  destruct (znth _ _); [|done]. by injection H as <-.
Qed.

(** ** The invariant *)

Definition nic_inv (n : nic) : Prop :=
  wf_micro (n_eng n) /\ accounted (m_ctx_ready (n_eng n)) (outstanding n ++ n_lost n).

Lemma inv_quiet n s' :
  nic_inv n -> quiet (n_eng n) s' -> nic_inv (n <| n_eng := s' |>).
Proof.
  intros [Hwf Ha] (Hwf' & Hp & Hr). split; [done|]. unfold outstanding in *. simpl. by rewrite Hp, Hr.
Qed.

(** The thread that holds a job finishes it: its callback is called. *)
Lemma inv_wake n n' cb s1 :
  nic_inv n -> quiet (n_eng n) s1 -> n_eng n' = wake cb s1 ->
  outstanding n ++ n_lost n ≡ₚ cb :: outstanding n' ++ n_lost n' -> nic_inv n'.
Proof.
  intros [Hwf Ha] (Hwf' & Hp & Hr) En Hperm. split; rewrite En; [by apply wf_micro_wake|].
  rewrite ready_wake, Hr. apply accounted_wake. by rewrite <- Hperm.
Qed.

(** A job moves from a queue to a thread. *)
Lemma inv_move n n' :
  nic_inv n -> wf_micro (n_eng n') -> m_ctx_ready (n_eng n') = m_ctx_ready (n_eng n) ->
  outstanding n ++ n_lost n ≡ₚ outstanding n' ++ n_lost n' -> nic_inv n'.
Proof. intros [Hwf Ha] Hwf' Hr Hp. split; [done|]. by rewrite Hr, <- Hp. Qed.

Lemma inv_exec n s' :
  nic_inv n -> wf_micro s' -> issues (n_eng n) s' ->
  znth (m_ctx_ready (n_eng n)) (m_current_ctx (n_eng n)) = Some true -> nic_inv (n <| n_eng := s' |>).
Proof.
  intros [Hwf Ha] Hwf' [[Hp Hr]|(cb & Hp & Hcb & Hr)] Hcur; split; try done; unfold outstanding in *; simpl in *.
  - by rewrite Hp, Hr.
  - rewrite Hp, Hr, <- !app_comm_cons. destruct Hcb as [-> | ->].
    + by apply accounted_none.
    + apply accounted_sleep; [done|apply (wf_ctx _ Hwf)|done].
Qed.

Ltac held_perm := unfold outstanding, pending; simpl; unfold set_field; simpl; solve_Permutation.

Lemma inv_get b n job q :
  nic_inv n -> controller b n = None -> queue_of b (n_eng n) = job :: q ->
  nic_inv (set_controller b (Some (job, 0%nat)) (n <| n_eng ::= set_queue b q |>)).
Proof.
  intros Hinv Hc Hq. destruct Hinv as [Hwf Ha].
  apply (inv_move n); [done| |by destruct b|].
  { destruct b; by eapply wf_pop_memory. }
  destruct b; simpl in *; unfold outstanding, pending; simpl; unfold set_field; rewrite Hc, Hq; simpl; solve_Permutation.
Qed.

Lemma inv_word b n job i s' :
  nic_inv n -> controller b n = Some (job, i) -> quiet (n_eng n) s' ->
  nic_inv (set_controller b (Some (job, S i)) (n <| n_eng := s' |>)).
Proof.
  intros Hinv Hc Hq. pose proof (inv_quiet _ _ Hinv Hq) as Hinv1.
  apply (inv_move (n <| n_eng := s' |>)); [done|destruct b; apply Hq|by destruct b|].
  destruct b; simpl in *; unfold outstanding, pending; simpl; unfold set_field; rewrite Hc; simpl; solve_Permutation.
Qed.

Lemma inv_done b n job i :
  nic_inv n -> controller b n = Some (job, i) ->
  nic_inv (set_controller b None (n <| n_eng ::= wake (mj_callback job) |>)).
Proof.
  intros Hinv Hc. apply (inv_wake n _ (mj_callback job) (n_eng n)); [done|apply quiet_refl, Hinv|by destruct b|].
  assert (pending (wake (mj_callback job) (n_eng n)) = pending (n_eng n)) as Hp by apply pending_wake.
  destruct b; simpl in *; unfold outstanding; simpl; unfold set_field; rewrite Hc, Hp; simpl; solve_Permutation.
Qed.

Lemma inv_rx n s' :
  nic_inv n ->
  (s' = n_eng n \/ exists job q s1, m_rx_queue (n_eng n) = job :: q /\
     quiet ((n_eng n) <| m_rx_queue := q |>) s1 /\ s' = wake (fj_callback job) s1) ->
  nic_inv (n <| n_eng := s' |>).
Proof.
  intros Hinv [-> | (job & q & s1 & Hq & Hs1 & ->)]; [by destruct n|].
  destruct Hinv as [Hwf Ha]. destruct Hs1 as (Hwf1 & Hp1 & Hr1). split; [by apply wf_micro_wake|].
  simpl. unfold set_field. rewrite ready_wake, Hr1. apply accounted_wake.
  assert (outstanding n ++ n_lost n ≡ₚ fj_callback job :: outstanding (n <| n_eng := wake (fj_callback job) s1 |>) ++ n_lost n)
    as Hperm.
  { unfold outstanding. simpl. unfold set_field. rewrite pending_wake, Hp1. unfold pending. simpl.
    rewrite Hq. simpl. solve_Permutation. }
  by rewrite <- Hperm.
Qed.

Lemma nic_step_inv n n' : nic_step n n' -> nic_inv n -> nic_inv n'.
Proof.
  intros Hstep Hinv. pose proof (proj1 Hinv) as Hwf.
  destruct Hstep as [n s' _ _ H|n s' _ Hcur H|b n job q Hc Hq|b n job i s' Hc _ H|b n job i Hc _
    |n job q Ht Hq|env nic n job s' Ht H|nic p n s' H|n job q Hh Hq|n job s' Hh H|n job err s' Hh Herr H|m n s' Hm H].
  - eapply inv_quiet; [done|]. apply (runs_returns _ (fun _ s' => quiet (n_eng n) s')) in H; [done|].
    intros w Hw; rewrite <- Hw in *. apply wp_upto, wp_modify. split; [by apply wf_next_context|done].
  - apply (runs_returns _ (fun _ s' => wf_micro s' /\ issues (n_eng n) s')) in H as [H1 H2].
    + apply inv_exec; [done..|by apply current_ready_runs].
    + intros w Hw; rewrite <- Hw in *. by apply execute_returns.
  - by apply inv_get.
  - eapply inv_word; [done..|]. apply (runs_returns _ (fun _ s' => quiet (n_eng n) s')) in H; [done|].
    intros w Hw; rewrite <- Hw in *. by apply transfer_quiet.
  - by eapply inv_done.
  - apply (inv_move n); [done|by apply (wf_pop_fifo job)|done|].
    unfold outstanding, pending. simpl. unfold set_field. rewrite Ht, Hq. simpl. solve_Permutation.
  - apply (runs_returns _ (fun _ s' => exists s1, quiet (n_eng n) s1 /\ s' = wake (fj_callback job) s1)) in H
      as (s1 & Hs1 & ->); [|intros w Hw; rewrite <- Hw in *; by apply send_returns].
    apply (inv_wake n _ (fj_callback job) s1); [done..|]. unfold outstanding. simpl. unfold set_field.
    rewrite pending_wake, (proj1 (proj2 Hs1)), Ht. simpl. solve_Permutation.
  - apply inv_rx; [done|]. apply (runs_returns _ (fun _ s' => s' = n_eng n \/ exists job q s1,
      m_rx_queue (n_eng n) = job :: q /\ quiet ((n_eng n) <| m_rx_queue := q |>) s1 /\
      s' = wake (fj_callback job) s1)) in H; [done|]. intros w Hw; rewrite <- Hw in *. by apply incoming_returns.
  - apply (inv_move n); [done|by apply (wf_pop_fifo job)|done|].
    unfold outstanding, pending. simpl. unfold set_field. rewrite Hh, Hq. simpl. solve_Permutation.
  - apply delivers_engine in H as ->.
    apply (inv_wake n _ (fj_callback job) (n_eng n)); [done|by apply quiet_refl|done|]. unfold outstanding. simpl.
    unfold set_field. rewrite pending_wake, Hh. simpl. solve_Permutation.
  - apply delivers_engine in H. rewrite (proj2 (Z.eqb_neq _ _) Herr) in H. subst s'.
    apply (inv_move n); [done..|]. unfold outstanding. simpl. unfold set_field. rewrite Hh. simpl. solve_Permutation.
  - eapply inv_quiet; [done|]. apply (runs_returns _ (fun _ s' => quiet (n_eng n) s')) in H; [done|].
    intros w Hw; rewrite <- Hw in *. by apply host_quiet.
Qed.
