(* ===== verification/NicProps.v ===== *)
(** * NicProps: theorems about the threads of the network card *)

From S2P Require Import Prelude Effects Device Virtio Micro MicroExec MicroMem MicroProps Net NetSafe NicSys.

Lemma reachable_inv s n :
  wf_micro s -> m_ctx_ready s = replicate 4 true -> pending s = [] -> reachable s n -> nic_inv n.
Proof.
  intros Hwf Hr Hp Hn.
  assert (nic_inv (nic_start s)) as H0.
  { split; [done|]. unfold outstanding. simpl. rewrite Hr, Hp. constructor; [done|constructor|constructor|].
    intros c Hc. unfold NUM_THREADS in Hc. simpl. split; [|by intros ?%elem_of_nil].
    unfold znth. rewrite (proj2 (Z.ltb_ge _ _)) by lia. intros E.
    apply (lookup_replicate_1 4 true) in E as [? _]. done. }
  unfold reachable in Hn. revert H0. generalize (nic_start s), Hn. intros n0 H.
  induction H as [|x y z Hxy _ IH]; intros Hinv; [done|]. by apply IH, (nic_step_inv x).
Qed.

Lemma in_callbacks c (l : list (option Z)) : c ∈ omap id l <-> Some c ∈ l.
Proof. rewrite list_elem_of_omap. split; [|intros H; by exists (Some c)]. intros (x & Hx & E). by rewrite <- E. Qed.

(** C11: in every state that the threads of the card reach from a new engine, with
    any firmware, any interleaving and any packets, the engine is well formed and
    every sleeping context has exactly one callback that will wake it, in a queue
    or in the hands of a thread, or one that a failed delivery to the guest has
    dropped; a context that is ready has none.  So no wake-up is lost except by
    [handleRx], and none comes early. *)
Theorem no_lost_wakeup s n :
  wf_micro s -> m_ctx_ready s = replicate 4 true -> pending s = [] -> reachable s n ->
  wf_micro (n_eng n) /\ NoDup (omap id (outstanding n ++ n_lost n)) /\
  forall c, 0 <= c < NUM_THREADS ->
    znth (m_ctx_ready (n_eng n)) c = Some false <-> Some c ∈ outstanding n \/ Some c ∈ n_lost n.
Proof.
  intros Hwf Hr Hp Hn. destruct (reachable_inv s n Hwf Hr Hp Hn) as [Hwf' [Hl Hnd Hrg Hi]].
  split_and!; [done..|]. intros c Hc. rewrite (Hi c Hc), in_callbacks. apply elem_of_app.
Qed.

Lemma lost_mono n n' c : rtc nic_step n n' -> Some c ∈ n_lost n -> Some c ∈ n_lost n'.
Proof.
  induction 1 as [|x y z Hxy _ IH]; [done|]. intros Hin. apply IH. destruct Hxy; try (by destruct b); try done.
  simpl. apply elem_of_cons. by right.
Qed.

(** C39: when [handleRx] took a job of the firmware and the delivery to the
    guest fails (its buffer lies outside of the guest's memory, so that a copy
    returns an error), it returns without calling the callback of the job, and
    the context of the firmware that waits for it sleeps for ever: no later step
    of any thread of the card makes it ready. *)
Theorem failed_delivery_strands s n job c vbuf vbuf' err (w w' : net_world) :
  wf_micro s -> m_ctx_ready s = replicate 4 true -> pending s = [] -> reachable s n ->
  n_host n = Some job -> fj_callback job = Some c ->
  m_microengine (w_st w) = n_eng n -> deliver job vbuf w = Ret (vbuf', err) w' -> err <> 0 ->
  exists n1, nic_step n n1 /\ n_eng n1 = m_microengine (w_st w') /\
    forall n', rtc nic_step n1 n' -> znth (m_ctx_ready (n_eng n')) c = Some false.
Proof.
  intros Hwf Hr Hp Hn Hh Hc Hw Hd Herr.
  assert (nic_step n (n <| n_host := None |> <| n_eng := m_microengine (w_st w') |>
                        <| n_lost ::= cons (fj_callback job) |>)) as Hstep.
  { eapply step_host_fail; [done|exact Herr|]. by exists vbuf, vbuf', w, w'. }
  eexists. split; [exact Hstep|]. split; [done|]. intros n' Hn'.
  destruct (reachable_inv s n' Hwf Hr Hp) as [_ [_ _ Hrg Hi]].
  { refine (transitivity Hn _). by eapply rtc_l. }
  assert (Some c ∈ n_lost n') as Hin.
  { eapply lost_mono; [exact Hn'|]. simpl. unfold set_field. rewrite Hc. apply list_elem_of_here. }
  assert (c ∈ omap id (outstanding n' ++ n_lost n')) as Hin'.
  { apply in_callbacks, elem_of_app. by right. }
  apply Hi; [|done]. by apply (proj1 (Forall_forall _ _) Hrg).
Qed.

(** ** A run *)

(** A firmware that hands a packet to the guest and sleeps. *)
Definition rx_word : Z :=
  pack [(6, RX_PKT); (1, ABSOLUTE); (8, 0); (1, ABSOLUTE); (8, 0); (1, ABSOLUTE); (8, 0); (2, CTX_SWAP)].

(** The engine after a program that returns. *)
Definition after {A} (m : micro_prog A) (s : micro) : micro :=
  match m (World s [] []) with Ret _ w => w_st w | Fault _ w => w_st w end.

Lemma runs_after {A} (m : micro_prog A) a s :
  match m (World s [] []) with Ret b _ => b = a | Fault _ _ => False end -> runs m a s (after m s).
Proof.
  unfold after. intros H. destruct (m (World s [] [])) as [b w|] eqn:E; [|done]. subst b.
  exists (World s [] []), w. by rewrite E.
Qed.

Definition running : nic := nic_start (engine [rx_word]).
Definition asleep : nic := running <| n_eng := after execute_next (engine [rx_word]) |>.

Lemma asleep_step : nic_step running asleep.
Proof.
  apply step_exec; [vm_compute; reflexivity| |].
  - exists (World (engine [rx_word]) [] []), (World (engine [rx_word]) [] []). split_and!; [reflexivity..|].
    unfold current_ready, gets, mbind, prog_bind. cbn [w_st].
    assert (znth (m_ctx_ready (engine [rx_word])) (m_current_ctx (engine [rx_word])) = Some true) as ->
      by (vm_compute; reflexivity). reflexivity.
  - apply runs_after. vm_compute. reflexivity.
Qed.

Lemma engine_ready code : 5 * length code <= sizeof_m_code ->
  m_ctx_ready (engine code) = replicate 4 true /\ pending (engine code) = [].
Proof.
  intros Hlen. unfold engine, make_microengine. rewrite (proj2 (Z.ltb_ge _ _)) by lia. done.
Qed.

Lemma no_lost_wakeup_witness :
  znth (m_ctx_ready (n_eng asleep)) 0 = Some false <-> Some 0 ∈ outstanding asleep \/ Some 0 ∈ n_lost asleep.
Proof.
  assert (5 * length [rx_word] <= sizeof_m_code) as Hlen by (unfold sizeof_m_code; simpl; lia).
  apply (no_lost_wakeup (engine [rx_word])).
  - apply engine_wf, Hlen.
  - apply engine_ready, Hlen.
  - apply engine_ready, Hlen.
  - apply rtc_once, asleep_step.
  - unfold NUM_THREADS. lia.
Defined.

Definition waiting_job : fifo_job := FifoJob 0 0 (Some 0).
Definition delivering : nic :=
  asleep <| n_host := Some waiting_job |> <| n_eng ::= fun s => s <| m_pkt_in_queue := [] |> |>.

Lemma delivering_reachable : reachable (engine [rx_word]) delivering.
Proof.
  eapply rtc_l; [exact asleep_step|]. apply rtc_once.
  apply (step_host_get asleep waiting_job []); [reflexivity|vm_compute; reflexivity].
Qed.

(** The card around the engine, and a buffer that the guest placed at 0, which
    is not in its memory of 1 MiB at 1 MiB. *)
Definition delivering_card : net_world :=
  World (Net (new_MMIOVirtioDev 0 0 (replicate 16 0) MMIO_START NUM_NET_VQS) (n_eng delivering) 0 0 0 0) [] [].
Definition stray_buffer : VirtBuf := Vbuf 0 2000 0 0 0 0.

Lemma stray_delivery_fails :
  deliver waiting_job stray_buffer delivering_card = Ret (stray_buffer, -1) delivering_card.
Proof.
  unfold deliver, mbind, prog_bind, in_micro, zoom.
  assert (reg (fj_size waiting_job) (zoom_world m_microengine delivering_card) =
          Ret 0 (zoom_world m_microengine delivering_card)) as ->; [|reflexivity].
  unfold reg, gets, mbind, prog_bind.
  assert (znth (m_registers (w_st (zoom_world m_microengine delivering_card))) (fj_size waiting_job) = Some 0)
    as -> by (vm_compute; reflexivity). reflexivity.
Qed.

Lemma failed_delivery_strands_witness :
  exists n1, nic_step delivering n1 /\ n_eng n1 = n_eng delivering /\
    forall n', rtc nic_step n1 n' -> znth (m_ctx_ready (n_eng n')) 0 = Some false.
Proof.
  assert (5 * length [rx_word] <= sizeof_m_code) as Hlen by (unfold sizeof_m_code; simpl; lia).
  apply (failed_delivery_strands (engine [rx_word]) delivering waiting_job 0 stray_buffer stray_buffer (-1)
    delivering_card delivering_card).
  - apply engine_wf, Hlen.
  - apply engine_ready, Hlen.
  - apply engine_ready, Hlen.
  - apply delivering_reachable.
  - reflexivity.
  - reflexivity.
  - reflexivity.
  - apply stray_delivery_fails.
  - discriminate.
Defined.
