(* ===== verification/P9Wire.v ===== *)
(** * P9Wire: the messages of the 9p file server
    (devices/p9fs/trequests.hpp, trequests.cpp, rresponses.hpp, rresponses.cpp)

    Requests are parsed out of the bytes of the guest with a reader that has the
    local variables [size] and [offset] of the constructors; responses are
    written into the guest's memory field by field.  A [std::string] is a list
    of bytes. *)

From S2P Require Import Prelude Effects Libc Wire Device.

Definition P9_TVERSION := 100.
Definition P9_RVERSION := 101.
Definition P9_TAUTH := 102.
Definition P9_RAUTH := 103.
Definition P9_TATTACH := 104.
Definition P9_RATTACH := 105.
Definition P9_RERROR := 107.
Definition P9_TFLUSH := 108.
Definition P9_RFLUSH := 109.
Definition P9_TWALK := 110.
Definition P9_RWALK := 111.
Definition P9_TOPEN := 112.
Definition P9_ROPEN := 113.
Definition P9_TCREATE := 114.
Definition P9_RCREATE := 115.
Definition P9_TREAD := 116.
Definition P9_RREAD := 117.
Definition P9_TWRITE := 118.
Definition P9_RWRITE := 119.
Definition P9_TCLUNK := 120.
Definition P9_RCLUNK := 121.
Definition P9_TREMOVE := 122.
Definition P9_RREMOVE := 123.
Definition P9_TSTAT := 124.
Definition P9_RSTAT := 125.
Definition P9_TWSTAT := 126.

Definition sizeof_p9_msg := 3.    (* type and tag, packed; the body has no size *)
Definition sizeof_p9_pkt := 7.
Definition sizeof_qid := 13.      (* packed *)
Definition sizeof_p9_stat : nat := 48.

Record qid_t := MkQid { qid_type : Z; qid_version : Z; qid_path : Z }.
Definition qid_bytes (q : qid_t) : bytes :=
  le_bytes 1 (qid_type q) ++ le_bytes 4 (qid_version q) ++ le_bytes 8 (qid_path q).

(** [p9_stat_t] has the alignment of its members: the qid is at 8, [mode] at 24
    and [length] at 40. *)
Record p9_stat_t := MkStat { st9_size : Z; st9_qid : qid_t; st9_length : Z }.
Definition stat_bytes (s : p9_stat_t) : bytes :=
  blit (blit (blit (replicate sizeof_p9_stat 0) 0 (le_bytes 2 (st9_size s)))
         8 (qid_bytes (st9_qid s))) 40 (le_bytes 8 (st9_length s)).

(** ** Requests *)

Inductive tbody :=
  | TVersion (msize : Z) (version : bytes)
  | TAuth (afid : Z) (uname aname : bytes)
  | TFlush (oldtag : Z)
  | TAttach (fid afid : Z) (uname aname : bytes)
  | TWalk (fid newfid : Z) (wnames : list bytes)
  | TOpen (fid mode : Z)
  | TCreate (fid : Z) (name : bytes) (perm mode : Z)
  | TRead (fid offset count : Z)
  | TWrite (fid offset count : Z) (data : bytes)
  | TClunk (fid : Z)
  | TRemove (fid : Z)
  | TStat (fid : Z)
  | TWstat (fid : Z) (stat : bytes).

Record trequest := TRequest { t_tag : Z; t_body : tbody }.

(** The local variables of a constructor: the argument [body], the bytes of the
    allocation behind it, [size] and [offset]. *)
Record reader := Reader { rd_body : bytes; rd_size : Z; rd_offset : Z }.
#[export] Instance reader_eta : Settable reader := fun r =>
  Reader (rd_body r) (rd_size r) (rd_offset r).
Abbreviation read_prog := (dev_prog reader).

Definition READ (l : Z) : read_prog bytes :=
  r ← gets (fun r => r);
  if rd_size r <? l then fail Thrown else
  if rd_offset r + l <=? length (rd_body r) then
    modify (fun r => r <| rd_size ::= fun s => u64 (s - l) |> <| rd_offset ::= fun o => u64 (o + l) |>);;
    mret (load (rd_body r) (Z.to_nat (rd_offset r)) (Z.to_nat l))
  else fail OutOfBounds.

Definition READVAL (n : nat) : read_prog Z := data ← READ n; mret (le_val data).

(** The bytes before the first zero: what a [char *] is as a [std::string]. *)
Fixpoint c_str (l : bytes) : option bytes :=
  match l with
  | [] => None
  | x :: l => if x =? 0 then Some [] else cons x <$> c_str l
  end.

Section Parse.
Context (env : dev_env).

(** The buffer has no terminator; the string goes on in the memory behind it.
    The reply of [DNew] is the memory at the new address: the block and what
    follows it. *)
Definition READSTR : read_prog bytes :=
  l ← READVAL 2;
  mem ← dos env (DNew l);
  s ← READ l;
  str ← get_or OutOfBounds (c_str (s ++ drop (Z.to_nat l) mem));
  _ ← dos env (DFree l);
  mret str.

Fixpoint read_names (n : nat) : read_prog (list bytes) :=
  match n with
  | O => mret []
  | S n => tmp ← READSTR; l ← read_names n; mret (tmp :: l)
  end.

Definition parse_TVersion : read_prog tbody :=
  msize ← READVAL 4; version ← READSTR; mret (TVersion msize version).
Definition parse_TAuth : read_prog tbody :=
  afid ← READVAL 4; uname ← READSTR; aname ← READSTR; mret (TAuth afid uname aname).
Definition parse_TFlush : read_prog tbody :=
  oldtag ← READVAL 4; mret (TFlush oldtag).
Definition parse_TAttach : read_prog tbody :=
  fid ← READVAL 4; afid ← READVAL 4; uname ← READSTR; aname ← READSTR;
  mret (TAttach fid afid uname aname).
Definition parse_TWalk : read_prog tbody :=
  fid ← READVAL 4; newfid ← READVAL 4; nwname ← READVAL 2;
  wnames ← read_names (Z.to_nat nwname);
  mret (TWalk fid newfid wnames).
Definition parse_TOpen : read_prog tbody :=
  fid ← READVAL 4; mode ← READVAL 1; mret (TOpen fid mode).
Definition parse_TCreate : read_prog tbody :=
  fid ← READVAL 4; name ← READSTR; perm ← READVAL 4; mode ← READVAL 1;
  mret (TCreate fid name perm mode).
Definition parse_TRead : read_prog tbody :=
  fid ← READVAL 4; offset ← READVAL 8; count ← READVAL 4; mret (TRead fid offset count).
Definition parse_TWrite : read_prog tbody :=
  fid ← READVAL 4; offset ← READVAL 8; count ← READVAL 4;
  _ ← dos env (DNew count);
  data ← READ count;
  mret (TWrite fid offset count data).
Definition parse_TClunk : read_prog tbody := fid ← READVAL 4; mret (TClunk fid).
Definition parse_TRemove : read_prog tbody := fid ← READVAL 4; mret (TRemove fid).
Definition parse_TStat : read_prog tbody := fid ← READVAL 4; mret (TStat fid).
Definition parse_TWstat : read_prog tbody :=
  fid ← READVAL 4; nstat ← READVAL 2;
  _ ← dos env (DNew nstat);
  stat ← READ nstat;
  mret (TWstat fid stat).

Definition parse_body (type : Z) : option (read_prog tbody) :=
  if type =? P9_TVERSION then Some parse_TVersion
  else if type =? P9_TAUTH then Some parse_TAuth
  else if type =? P9_TFLUSH then Some parse_TFlush
  else if type =? P9_TATTACH then Some parse_TAttach
  else if type =? P9_TWALK then Some parse_TWalk
  else if type =? P9_TOPEN then Some parse_TOpen
  else if type =? P9_TCREATE then Some parse_TCreate
  else if type =? P9_TREAD then Some parse_TRead
  else if type =? P9_TWRITE then Some parse_TWrite
  else if type =? P9_TCLUNK then Some parse_TClunk
  else if type =? P9_TREMOVE then Some parse_TRemove
  else if type =? P9_TSTAT then Some parse_TStat
  else if type =? P9_TWSTAT then Some parse_TWstat
  else None.

(** [P9FsDev::ToTRequest]: [msg] is the allocation that the message was copied
    to, [size] what the caller passes. *)
Definition ToTRequest {S} (msg : bytes) (size : Z) : dev_prog S (option trequest) :=
  type ← get_or OutOfBounds (znth msg 0);
  match parse_body type with
  | None => mret None
  | Some m =>
      body ← with_locals (Reader (drop 3 msg) size 0) m;
      mret (Some (TRequest (field msg 1 2) body))
  end.
End Parse.

Definition legal_chars : bytes :=
  string_bytes "ABCDEFGHIJKLMNOPQRSTUVWXYZabcdefghijklmnopqrstuvwxyvz1234567890_-.".
Definition LegalName (s : bytes) : bool :=
  forallb (fun c => bool_decide (c ∈ legal_chars)) s.

(** [Valid] of the request classes. *)
Definition Valid (t : tbody) : bool :=
  match t with
  | TWalk _ _ wnames => forallb LegalName wnames
  | TCreate _ name _ _ => LegalName name
  | _ => true
  end.

(** ** Responses *)

(** A walk holds pointers to the objects of its path. *)
Inductive rbody :=
  | RError (error : bytes)
  | RVersion (msize : Z) (version : bytes)
  | RAuth (aqid : qid_t)
  | RFlush
  | RAttach (qid : qid_t)
  | RWalk (qids : list positive)
  | ROpen (qid : qid_t) (iounit : Z)
  | RCreate (qid : qid_t) (iounit : Z)
  | RRead (count : Z) (data : bytes)
  | RWrite (count : Z)
  | RClunk
  | RRemove
  | RStat (stat : p9_stat_t).

Record rresponse := RResponse { r_tag : Z; r_body : rbody }.

Definition r_type (b : rbody) : Z :=
  match b with
  | RError _ => P9_RERROR | RVersion _ _ => P9_RVERSION | RAuth _ => P9_RAUTH
  | RFlush => P9_RFLUSH | RAttach _ => P9_RATTACH | RWalk _ => P9_RWALK
  | ROpen _ _ => P9_ROPEN | RCreate _ _ => P9_RCREATE | RRead _ _ => P9_RREAD
  | RWrite _ => P9_RWRITE | RClunk => P9_RCLUNK | RRemove => P9_RREMOVE | RStat _ => P9_RSTAT
  end.

Definition SerializedBodySize (b : rbody) : Z :=
  match b with
  | RError e => u32 (2 + length e)
  | RVersion _ v => u32 (4 + 2 + length v)
  | RAuth _ | RAttach _ => sizeof_qid
  | RWalk _ => 2 * sizeof_qid
  | ROpen _ _ | RCreate _ _ => sizeof_qid + 4
  | RRead count _ => u32 (4 + count)
  | RWrite _ => 4
  | RStat _ => sizeof_p9_stat
  | RFlush | RClunk | RRemove => 0
  end.

Definition SerializedSize (r : rresponse) : Z := u32 (4 + sizeof_p9_msg + SerializedBodySize (r_body r)).
