(* ===== verification/P9Core.v ===== *)
(** * P9Core: the objects and requests of the 9p file server
    (devices/p9fs/qidobject.cpp, qidobject.hpp, p9core.cpp, p9core.hpp,
    and [Execute], [Respond] and [Process] of trequests.cpp)

    A [QidObject] lives on the heap of the process from its creation until its
    count of references drops to zero or it is deleted; pointers to it are held
    by the map of fids and by responses to walks.  An access through a pointer
    whose object is gone is the fault [UseAfterFree]. *)

From S2P Require Import Prelude Effects Libc Wire Device P9Wire.

Definition DMDIR := 0x80000000.
Definition P9_QTDIR := 0x80.
Definition P9_QTSYMLINK := 0x02.
Definition P9_QTFILE := 0x00.
Definition P9_OREAD := 0.
Definition P9_OWRITE := 1.
Definition P9_ORDWR := 2.

(** <fcntl.h> and <sys/stat.h> *)
Definition O_RDONLY := 0.
Definition O_WRONLY := 1.
Definition O_RDWR := 2.
Definition O_CREAT_EXCL := 0xc0.
Definition S_IFMT := 0xf000.
Definition S_ISREG (m : Z) : bool := Z.land m S_IFMT =? 0x8000.
Definition S_ISDIR (m : Z) : bool := Z.land m S_IFMT =? 0x4000.
Definition S_ISLNK (m : Z) : bool := Z.land m S_IFMT =? 0xa000.

(** [None] is a member that was not initialised. *)
Record QidObject := Qobj {
  q_type : option Z;
  q_version : Z;
  q_path : Z;
  q_fspath : bytes;
  q_root : bytes;
  q_opened : bool;
  q_mode : option Z;
  q_fd : option Z;
  q_refcnt : Z;
}.
#[export] Instance QidObject_eta : Settable QidObject := fun q =>
  Qobj (q_type q) (q_version q) (q_path q) (q_fspath q) (q_root q) (q_opened q) (q_mode q) (q_fd q)
    (q_refcnt q).

Record P9Core := Core {
  m_authed : bool;
  m_auth_required : bool;
  m_sharename : bytes;
  m_mountpoint : bytes;
  m_fid_map : gmap Z positive;
  (* the registered requests by tag; the value is the flag [m_cancelled] *)
  m_request_map : gmap Z bool;
  p_heap : gmap positive QidObject;
}.
#[export] Instance P9Core_eta : Settable P9Core := fun c =>
  Core (m_authed c) (m_auth_required c) (m_sharename c) (m_mountpoint c) (m_fid_map c)
    (m_request_map c) (p_heap c).

Definition new_P9Core (auth_required : bool) (sharename mountpoint : bytes) : P9Core :=
  Core false auth_required sharename mountpoint ∅ ∅ ∅.

Abbreviation core_prog := (dev_prog P9Core).
Abbreviation core_world := (dev_world P9Core).

(** ** Objects *)

Definition get_obj (p : positive) : core_prog QidObject :=
  c ← gets (fun c => c);
  get_or UseAfterFree (p_heap c !! p).
Definition set_obj (p : positive) (f : QidObject -> QidObject) : core_prog unit :=
  _ ← get_obj p;
  modify (fun c => c <| p_heap ::= alter f p |>).
Definition delete_obj (p : positive) : core_prog unit :=
  _ ← get_obj p;
  modify (fun c => c <| p_heap ::= delete p |>).

(** The hash of a path; [char] is signed. *)
Definition path_hash (path : bytes) : Z :=
  foldl (fun h c => u64 (u64 (u64 (Z.shiftl h 5) + h) + i8 c)) 5381 path.

Section Env.
Context (env : dev_env).

(** The constructor; [None] is the exception. *)
Definition new_QidObject (path root : bytes) : core_prog (option positive) :=
  st ← dos env (DStat path);
  match st with
  | None => mret None
  | Some (mode, _) =>
      let type := if S_ISREG mode then Some P9_QTFILE
                  else if S_ISDIR mode then Some P9_QTDIR
                  else if S_ISLNK mode then Some P9_QTSYMLINK
                  else None in
      c ← gets (fun c => c);
      let p := fresh (dom (p_heap c)) in
      modify (fun c => c <| p_heap ::= <[p := Qobj type 0 (path_hash path) path root false None None 0]> |>);;
      mret (Some p)
  end.

Definition Type_of (p : positive) : core_prog Z := q ← get_obj p; get_or Undefined (q_type q).
Definition Opened (p : positive) : core_prog bool := q ← get_obj p; mret (q_opened q).
Definition IsRoot (q : QidObject) : bool := bool_decide (q_fspath q = q_root q).
Definition IncRef (p : positive) : core_prog unit :=
  set_obj p (fun q => q <| q_refcnt ::= fun n => u32 (n + 1) |>).
Definition DecRef (p : positive) : core_prog unit :=
  set_obj p (fun q => q <| q_refcnt ::= fun n => u32 (n - 1) |>);;
  q ← get_obj p;
  if q_refcnt q =? 0 then delete_obj p else mret tt.

Definition Qid (p : positive) : core_prog qid_t :=
  q ← get_obj p;
  type ← get_or Undefined (q_type q);
  mret (MkQid type (q_version q) (q_path q)).

Definition Open (p : positive) (mode : Z) : core_prog bool :=
  q ← get_obj p;
  if q_opened q then mret false else
  type ← get_or Undefined (q_type q);
  if type =? P9_QTDIR then
    set_obj p (fun q => q <| q_opened := true |> <| q_mode := Some mode |>);; mret true
  else
  let flags := if mode =? P9_OREAD then O_RDONLY else if mode =? P9_OWRITE then O_WRONLY
               else if mode =? P9_ORDWR then O_RDWR else -1 in
  if flags <? 0 then mret false else
  fd ← dos env (DOpenFile (q_fspath q) flags 0);
  set_obj p (fun q => q <| q_fd := Some fd |>);;
  if fd <? 0 then mret false else
  set_obj p (fun q => q <| q_opened := true |> <| q_mode := Some mode |>);;
  mret true.

(** The data; its length is the new value of [count]. *)
Definition Read (p : positive) (offset count : Z) : core_prog (option bytes) :=
  q ← get_obj p;
  if negb (q_opened q) then mret None else
  fd ← get_or Undefined (q_fd q);
  r ← dos env (DLseek fd offset);
  if r <? 0 then mret None else
  raw ← dos env (DNew count);
  r ← dos env (DRead fd (Z.to_nat count));
  let new_count := r.1 in
  if new_count <? 0 then mret None else
  if count <? new_count then fail OutOfBounds else
  mret (Some (take (Z.to_nat new_count) (r.2 ++ drop (length r.2) raw))).

Definition Write (p : positive) (offset : Z) (data : bytes) (count : Z) : core_prog Z :=
  q ← get_obj p;
  if negb (q_opened q) then mret 0 else
  fd ← get_or Undefined (q_fd q);
  _ ← dos env (DLseek fd offset);
  ret ← dos env (DWrite fd (take (Z.to_nat count) data));
  mret (if ret <? 0 then 0 else u32 ret).

Definition Stat (p : positive) : core_prog (option p9_stat_t) :=
  q ← get_obj p;
  st ← dos env (DStat (q_fspath q));
  match st with
  | None => mret None
  | Some (_, st_size) =>
      qid ← Qid p;
      mret (Some (MkStat sizeof_p9_stat qid st_size))
  end.

Definition Close (p : positive) : core_prog bool :=
  q ← get_obj p;
  if negb (q_opened q) then mret false else
  fd ← get_or Undefined (q_fd q);
  _ ← dos env (DClose fd);
  set_obj p (fun q => q <| q_opened := false |>);;
  mret true.

Definition Remove (p : positive) : core_prog bool :=
  q ← get_obj p;
  r ← dos env (DUnlinkFile (q_fspath q));
  mret (r =? 0).

Definition slash : bytes := string_bytes "/".
Definition dotdot : bytes := string_bytes "..".

Definition Traverse (p : positive) (next : bytes) : core_prog (option positive) :=
  q ← get_obj p;
  let newpath := if IsRoot q && bool_decide (next = dotdot) then q_fspath q
                 else q_fspath q ++ slash ++ next in
  resolved ← dos env (DRealpath newpath);
  match resolved with
  | None => mret None
  | Some resolved => new_QidObject resolved (q_root q)
  end.

Definition CreateChild (p : positive) (child : bytes) (perm : Z) : core_prog (option positive) :=
  q ← get_obj p;
  let newpath := q_fspath q ++ slash ++ child in
  ok ← (if negb (Z.land perm DMDIR =? 0) then
          r ← dos env (DMkdir newpath (Z.land perm 0x1ff)); mret (r =? 0)
        else
          fd ← dos env (DOpenFile newpath O_CREAT_EXCL (Z.land perm 0x1ff));
          if fd <? 0 then mret false else _ ← dos env (DClose fd); mret true);
  if (ok : bool) then Traverse p child else mret None.

(** ** p9core.cpp *)

Definition Serving (point : bytes) : core_prog bool :=
  c ← gets (fun c => c); mret (bool_decide (m_sharename c = point)).

Definition BindFid (fid : Z) (qobj : positive) : core_prog bool :=
  c ← gets (fun c => c);
  match m_fid_map c !! fid with
  | Some _ => mret false
  | None =>
      IncRef qobj;;
      modify (fun c => c <| m_fid_map ::= <[fid := qobj]> |>);;
      mret true
  end.

(** [m_fid_map[fid]] is null for an unknown fid. *)
Definition RemoveFid (fid : Z) : core_prog unit :=
  c ← gets (fun c => c);
  modify (fun c => c <| m_fid_map ::= delete fid |>);;
  qobj ← get_or NullDeref (m_fid_map c !! fid);
  DecRef qobj.

Definition GetFid (fid : Z) : core_prog (option positive) :=
  c ← gets (fun c => c); mret (m_fid_map c !! fid).

Definition Attach (point : bytes) : core_prog positive :=
  c ← gets (fun c => c);
  r ← new_QidObject (m_mountpoint c) (m_mountpoint c);
  get_or Thrown r.

Definition HasRequest (tag : Z) : core_prog bool :=
  c ← gets (fun c => c); mret (bool_decide (is_Some (m_request_map c !! tag))).
Definition CancelRequest (tag : Z) : core_prog unit :=
  c ← gets (fun c => c);
  _ ← get_or NullDeref (m_request_map c !! tag);
  modify (fun c => c <| m_request_map ::= <[tag := true]> |>).
Definition RegisterRequest (tag : Z) : core_prog unit :=
  modify (fun c => c <| m_request_map ::= <[tag := false]> |>).
Definition UnregisterRequest (tag : Z) : core_prog unit :=
  modify (fun c => c <| m_request_map ::= delete tag |>).

(** ** Execute and Respond of the requests *)

(** The members that [Execute] sets for [Respond]; [None] is a qid that was not
    set. *)
Inductive outs :=
  | Onothing
  | Oqid (q : option qid_t)
  | Oqids (l : list positive)
  | Odata (data : bytes)
  | Ocount (n : Z)
  | Ostat (s : p9_stat_t).

(** [inl] is the argument of [SetError]. *)
Definition errored {A} (msg : string) : core_prog (bytes + A) := mret (inl (string_bytes msg)).
Definition done_with (o : outs) : core_prog (bytes + outs) := mret (inr o).

Definition exec_TVersion (version : bytes) : core_prog (bytes + outs) :=
  if bool_decide (version = string_bytes "P92021") then done_with Onothing
  else errored "Invalid version string".

Definition must_auth : core_prog bool :=
  c ← gets (fun c => c); mret (negb (m_authed c) && m_auth_required c).

Definition exec_TAuth : core_prog (bytes + outs) :=
  b ← must_auth;
  if (b : bool) then done_with (Oqid None) else errored "Authentication not required".

Definition exec_TAttach (fid afid : Z) (aname : bytes) : core_prog (bytes + outs) :=
  b ← must_auth;
  if (b : bool) then done_with (Oqid None) else
  if negb (afid =? u32 (-1)) then errored "Incorrect Afid" else
  serving ← Serving aname;
  if negb serving then errored "No such aname" else
  qobj ← Attach aname;
  bound ← BindFid fid qobj;
  if negb bound then delete_obj qobj;; errored "Fid already claimed" else
  q ← Qid qobj;
  done_with (Oqid (Some q)).

(** The loop of [TWalk::Execute]: [None] when a name does not exist. *)
Fixpoint walk_names (next : positive) (wnames : list bytes) : core_prog (option (list positive)) :=
  match wnames with
  | [] => mret (Some [])
  | n :: wnames =>
      r ← Traverse next n;
      match r with
      | None => mret None
      | Some next =>
          l ← walk_names next wnames;
          mret (cons next <$> l)
      end
  end.

Definition exec_TWalk (fid newfid : Z) (wnames : list bytes) : core_prog (bytes + outs) :=
  base ← GetFid fid;
  match base with
  | None => errored "No such fid"
  | Some base =>
  type ← Type_of base;
  if negb (type =? P9_QTDIR) then errored "Fid is not a directory" else
  r ← walk_names base wnames;
  match r with
  | None => errored "Invalid path"
  | Some l =>
  let qids := base :: l in
  (if fid =? newfid then RemoveFid fid else mret tt);;
  bound ← BindFid newfid (List.last qids base);
  if negb bound then errored "Newfid already bound" else
  done_with (Oqids qids)
  end
  end.

Definition exec_TOpen (fid mode : Z) : core_prog (bytes + outs) :=
  qid ← GetFid fid;
  match qid with
  | None => errored "No such fid"
  | Some qid =>
  type ← Type_of qid;
  if negb (type =? P9_QTFILE) then errored "Can only read from files" else
  ok ← Open qid mode;
  if negb ok then errored "Failed to open" else
  q ← Qid qid;
  done_with (Oqid (Some q))
  end.

Definition exec_TCreate (fid : Z) (name : bytes) (perm mode : Z) : core_prog (bytes + outs) :=
  base ← GetFid fid;
  match base with
  | None => errored "No such fid"
  | Some base =>
  type ← Type_of base;
  if negb (type =? P9_QTDIR) then errored "Fid is not a directory" else
  child ← CreateChild base name perm;
  match child with
  | None => errored "Failed to create"
  | Some child =>
  ok ← Open child mode;
  if negb ok then errored "Failed to open" else
  RemoveFid fid;;
  bound ← BindFid fid child;
  if negb bound then errored "Failed to bind to fid" else
  q ← Qid child;
  done_with (Oqid (Some q))
  end
  end.

Definition exec_TRead (fid offset count : Z) : core_prog (bytes + outs) :=
  obj ← GetFid fid;
  match obj with
  | None => errored "No such fid"
  | Some obj =>
  type ← Type_of obj;
  if negb (type =? P9_QTFILE) then errored "Can only read from files" else
  opened ← Opened obj;
  if negb opened then errored "Fid must be open to read" else
  if 0x1000 <? count then errored "Count too large" else
  data ← Read obj offset count;
  match data with
  | None => errored "Read failed"
  | Some data => done_with (Odata data)
  end
  end.

Definition exec_TWrite (fid offset count : Z) (data : bytes) : core_prog (bytes + outs) :=
  obj ← GetFid fid;
  match obj with
  | None => errored "No such fid"
  | Some obj =>
  type ← Type_of obj;
  if negb (type =? P9_QTFILE) then errored "Can only write to files" else
  opened ← Opened obj;
  if negb opened then errored "Fid must be open to write" else
  count ← Write obj offset data count;
  if count =? 0 then errored "Failed to write to fid" else done_with (Ocount count)
  end.

Definition exec_TClunk (fid : Z) : core_prog (bytes + outs) :=
  obj ← GetFid fid;
  match obj with
  | None => errored "No such fid"
  | Some obj =>
  ret ← Close obj;
  RemoveFid fid;;
  if negb ret then errored "Failed to clunk fid" else done_with Onothing
  end.

Definition exec_TRemove (fid : Z) : core_prog (bytes + outs) :=
  obj ← GetFid fid;
  match obj with
  | None => errored "No such fid"
  | Some obj =>
  opened ← Opened obj;
  closed ← (if (opened : bool) then Close obj else mret true);
  if negb closed then errored "Failed to close fid" else
  removed ← Remove obj;
  if negb removed then errored "Failed to remove fid" else
  RemoveFid fid;;
  done_with Onothing
  end.

(** An unknown fid sets the error, and the null pointer is used all the same. *)
Definition exec_TStat (fid : Z) : core_prog (bytes + outs) :=
  obj ← GetFid fid;
  obj ← get_or NullDeref obj;
  st ← Stat obj;
  match st with
  | None => errored "Failed to stat"
  | Some st => done_with (Ostat st)
  end.

Definition Execute (t : tbody) : core_prog (bytes + outs) :=
  match t with
  | TVersion _ version => exec_TVersion version
  | TAuth _ _ _ => exec_TAuth
  | TFlush _ => done_with Onothing
  | TAttach fid afid _ aname => exec_TAttach fid afid aname
  | TWalk fid newfid wnames => exec_TWalk fid newfid wnames
  | TOpen fid mode => exec_TOpen fid mode
  | TCreate fid name perm mode => exec_TCreate fid name perm mode
  | TRead fid offset count => exec_TRead fid offset count
  | TWrite fid offset count data => exec_TWrite fid offset count data
  | TClunk fid => exec_TClunk fid
  | TRemove fid => exec_TRemove fid
  | TStat fid => exec_TStat fid
  | TWstat _ _ => done_with Onothing
  end.

(** [None] is no response; a qid that was not set has no defined value. *)
Definition Respond (t : tbody) (o : outs) : core_prog (option rbody) :=
  match t, o with
  | TVersion msize version, _ => mret (Some (RVersion msize version))
  | TAuth _ _ _, Oqid q => q ← get_or Undefined q; mret (Some (RAuth q))
  | TFlush _, _ => mret (Some RFlush)
  | TAttach _ _ _ _, Oqid q => q ← get_or Undefined q; mret (Some (RAttach q))
  | TWalk _ _ _, Oqids l => mret (Some (RWalk l))
  | TOpen _ _, Oqid q => q ← get_or Undefined q; mret (Some (ROpen q 0))
  | TCreate _ _ _ _, Oqid q => q ← get_or Undefined q; mret (Some (RCreate q 0))
  | TRead _ _ _, Odata d => mret (Some (RRead (length d) d))
  | TWrite _ _ _ _, Ocount n => mret (Some (RWrite n))
  | TClunk _, _ => mret (Some RClunk)
  | TRemove _, _ => mret (Some RRemove)
  | TStat _, Ostat s => mret (Some (RStat s))
  | _, _ => mret None
  end.

Definition Process (t : trequest) : core_prog (option rresponse) :=
  has ← HasRequest (t_tag t);
  (if (has : bool) then CancelRequest (t_tag t) else RegisterRequest (t_tag t));;
  r ← (if Valid (t_body t) then Execute (t_body t) else errored "Invalid TMesg");
  response ← match r with
             | inl error => mret (Some (RError error))
             | inr o => Respond (t_body t) o
             end;
  UnregisterRequest (t_tag t);;
  mret (RResponse (t_tag t) <$> response).

(** The destructor of a response: a walk deletes the objects between the first
    and the last. *)
Definition delete_response (r : rbody) : core_prog unit :=
  match r with
  | RWalk qids =>
      if (2 <? length qids)%nat then for_each (removelast (tail qids)) delete_obj else mret tt
  | _ => mret tt
  end.
End Env.
