(* ===== verification/P9Dev.v ===== *)
(** * P9Dev: the 9p device
    (devices/ooows-p9fs.cpp, and the serialisation of rresponses.cpp)

    The worker threads of the virtio device parse requests of the guest, a
    request thread executes them in order, and a response thread writes the
    responses into the buffers that the guest offered.  [ThreadedQueue]s join
    the threads. *)

From S2P Require Import Prelude Effects Libc Wire Device Virtio P9Wire P9Core.

Definition MMIO_START := 0x9b000000.
Definition NUM_9P_VQS := 2.
Definition VQ_TMESG := 0.
Definition VQ_RMESG := 1.
Definition P9FS_IRQ := 9.
Definition VIRTIO_9P_TRANSPORT := 9.
Definition S_IRWXU := 0x1c0.

Record P9FsDev := P9 {
  pd_base : vdev;
  m_core : P9Core;
  m_trequest_queue : list trequest;
  m_rresponse_queue : list rresponse;
  m_rmesgvbuf_queue : list VirtBuf;
}.
#[export] Instance P9FsDev_eta : Settable P9FsDev := fun d =>
  P9 (pd_base d) (m_core d) (m_trequest_queue d) (m_rresponse_queue d) (m_rmesgvbuf_queue d).

Abbreviation p9_prog := (dev_prog P9FsDev).
Abbreviation p9_world := (dev_world P9FsDev).

Definition p9_put_base (b : vdev) (d : P9FsDev) : P9FsDev := d <| pd_base := b |>.
Definition p9_put_core (c : P9Core) (d : P9FsDev) : P9FsDev := d <| m_core := c |>.
Definition p9_vdev {A} (m : vprog A) : p9_prog A := zoom pd_base p9_put_base m.
Definition p9_core {A} (m : core_prog A) : p9_prog A := zoom m_core p9_put_core m.

(** [VirtBuf::host_addr], as a distance from the start of the guest's memory. *)
Definition vb_host_addr (b : VirtBuf) (offset : Z) : p9_prog Z :=
  d ← gets pd_base; mret (host_addr (m_mem d) (u64 (vb_guest_addr b + offset))).

(** Accesses through such a pointer, which nothing checks. *)
Definition peek (addr n : Z) : p9_prog bytes :=
  d ← gets pd_base;
  let mem := m_memory (m_mem d) in
  if addr + n <=? length mem then mret (load mem (Z.to_nat addr) (Z.to_nat n)) else fail OutOfBounds.
Definition poke (addr : Z) (data : bytes) : p9_prog unit :=
  d ← gets pd_base;
  if addr + length data <=? length (m_memory (m_mem d)) then
    p9_vdev (modify (fun d => d <| m_mem ::= fun m =>
      m <| m_memory ::= fun b => blit b (Z.to_nat addr) data |> |>))
  else fail OutOfBounds.

(** ** Serialisation

    [data] is the argument, [limit] the bytes there, the result is the new
    [offset]. *)

Definition WRITE (data limit offset : Z) (d : bytes) : p9_prog Z :=
  if limit <? u64 (offset + length d) then fail Thrown else
  poke (data + offset) d;;
  mret (u64 (offset + length d)).

Definition WRITESTR (data limit offset : Z) (str : bytes) : p9_prog Z :=
  let l := u16 (length str) in
  offset ← WRITE data limit offset (le_bytes 2 l);
  WRITE data limit offset (take (Z.to_nat l) str).

(** The loop of [RWalk::SerializeBodyTo]. *)
Fixpoint write_qids (data limit offset : Z) (qids : list positive) : p9_prog Z :=
  match qids with
  | [] => mret offset
  | obj :: qids =>
      q ← p9_core (Qid obj);
      offset ← WRITE data limit offset (qid_bytes q);
      write_qids data limit offset qids
  end.

Definition SerializeBodyTo (data limit : Z) (r : rbody) : p9_prog Z :=
  let offset := 0 in
  match r with
  | RError error => WRITESTR data limit offset error
  | RVersion msize version =>
      offset ← WRITE data limit offset (le_bytes 4 msize);
      WRITESTR data limit offset version
  | RAuth q | RAttach q => WRITE data limit offset (qid_bytes q)
  | RWalk qids =>
      offset ← WRITE data limit offset (le_bytes 2 (length qids));
      write_qids data limit offset qids
  | ROpen q iounit | RCreate q iounit =>
      offset ← WRITE data limit offset (qid_bytes q);
      WRITE data limit offset (le_bytes 4 iounit)
  | RRead count d =>
      offset ← WRITE data limit offset (le_bytes 4 count);
      WRITE data limit offset (take (Z.to_nat count) d)
  | RWrite count => WRITE data limit offset (le_bytes 4 count)
  | RStat stat => WRITE data limit offset (stat_bytes stat)
  | RFlush | RClunk | RRemove => mret offset
  end.

(** The result is the number of bytes written. *)
Definition SerializeTo (data limit : Z) (r : rresponse) : p9_prog Z :=
  let total := SerializedSize r in
  offset ← WRITE data limit 0 (le_bytes 4 total);
  offset ← WRITE data limit offset (le_bytes 1 (r_type (r_body r)));
  offset ← WRITE data limit offset (le_bytes 2 (r_tag r));
  n ← SerializeBodyTo (data + offset) (u64 (limit - offset)) (r_body r);
  mret (offset + n).

(** [ThreadedQueue::get] *)
Definition p9_get {A} (proj : P9FsDev -> list A) (put : list A -> P9FsDev -> P9FsDev) : p9_prog A :=
  d ← gets (fun d => d);
  match proj d with
  | [] => fail Waits
  | x :: q => modify (put q);; mret x
  end.

Section Env.
Context (env : dev_env).
(** What the other processors of the guest write to its memory before the n-th
    fetch of a message, and the number of iterations of the loop of [got_data]
    that is followed. *)
Context (race : nat -> list dev_call -> bytes -> bytes) (fuel : nat).

(** One iteration of [RequestLoop]. *)
Definition RequestLoop_step : p9_prog unit :=
  trequest ← p9_get m_trequest_queue (fun q d => d <| m_trequest_queue := q |>);
  rresponse ← p9_core (Process env trequest);
  match rresponse with
  | Some r => modify (fun d => d <| m_rresponse_queue ::= fun q => q ++ [r] |>)
  | None => mret tt
  end.

(** One iteration of [ResponseLoop]. *)
Definition ResponseLoop_step : p9_prog unit :=
  rresponse ← p9_get m_rresponse_queue (fun q d => d <| m_rresponse_queue := q |>);
  vbuf ← p9_get m_rmesgvbuf_queue (fun q d => d <| m_rmesgvbuf_queue := q |>);
  data ← vb_host_addr vbuf 0;
  _ ← SerializeTo data (vb_len vbuf) rresponse;
  let vbuf := vbuf <| vb_nbytes_written := SerializedSize rresponse |> in
  p9_core (delete_response (r_body rresponse));;
  _ ← p9_vdev (put_buf VQ_RMESG vbuf);
  _ ← p9_vdev (send_irq env P9FS_IRQ);
  mret tt.

(** [pkt->size], read from the guest's memory once more. *)
Definition fetch_size (n : nat) (pkt : Z) : p9_prog Z :=
  interfere (fun trace d => d <| pd_base ::= fun b => b <| m_mem ::= fun m =>
    m <| m_memory ::= race n trace |> |> |>);;
  size ← peek pkt 4;
  mret (le_val size).

Definition handleTMesg (vbuf : VirtBuf) : p9_prog Z :=
  if vb_len vbuf <? sizeof_p9_pkt then mret (-1) else
  pkt ← vb_host_addr vbuf 0;
  size ← fetch_size 0 pkt;
  if size <? sizeof_p9_pkt then mret (-1) else
  size ← fetch_size 1 pkt;
  raw ← dos env (DNew size);
  let raw := take (Z.to_nat size) raw in
  msg_addr ← vb_host_addr vbuf 4;
  size ← fetch_size 2 pkt;
  data ← peek msg_addr (u32 (size - 4));
  (if length raw <? length data then fail OutOfBounds else mret tt);;
  let msg := blit raw 0 data in
  size ← fetch_size 3 pkt;
  trequest ← ToTRequest env msg size;
  match trequest with
  | Some t => modify (fun d => d <| m_trequest_queue ::= fun q => q ++ [t] |>)
  | None => mret tt
  end;;
  mret 0.

Definition p9_got_data (vq_idx : Z) : p9_prog Z :=
  loop fuel (fun ret =>
    vbuf ← p9_vdev (get_buf env vq_idx);
    match vbuf with
    | None => mret (inr ret)
    | Some vbuf =>
        ret ← (if vq_idx =? VQ_TMESG then
                 _ ← handleTMesg vbuf;
                 p9_vdev (put_buf vq_idx vbuf)
               else mret ret);
        (if vq_idx =? VQ_RMESG
         then modify (fun d => d <| m_rmesgvbuf_queue ::= fun q => q ++ [vbuf] |>)
         else mret tt);;
        mret (inl ret)
    end) 0.

(** The device does not override the method of its base class. *)
#[export] Instance P9FsDev_virtio : VirtioDevice P9FsDev := {
  base := pd_base;
  set_base := p9_put_base;
  got_data := p9_got_data;
  config_space_write offset data size := p9_vdev (base_config_space_write offset data size);
}.

(** The constructor.  [raw_vendor] and [memory] are as for the base class. *)
Definition new_P9FsDev {S : Type} (raw_vendor : Z) (memory : bytes) : dev_prog S P9FsDev :=
  let b := new_MMIOVirtioDev 0 raw_vendor memory MMIO_START NUM_9P_VQS in
  let b := b <| m_device_id := VIRTIO_9P_TRANSPORT |> <| m_config_space_size := 0 |> in
  store ← dos env (DGetenv "OOOWS_VM_STORE_DIR");
  store ← get_or Thrown store;
  vmname ← dos env (DGetenv "OOOWS_VM_NAME");
  vmname ← get_or Thrown vmname;
  let mntpoint := string_bytes store ++ string_bytes vmname ++ string_bytes "/9pshare" in
  st ← dos env (DStat mntpoint);
  (match st with
   | Some _ => mret tt
   | None =>
       r ← dos env (DMkdir mntpoint S_IRWXU);
       if negb (r =? 0) then fail Thrown else mret tt
   end);;
  _ ← dos env (DThread_create RequestThread);
  _ ← dos env (DThread_create ResponseThread);
  mret (P9 b (new_P9Core false (string_bytes "share") mntpoint) [] [] []).
End Env.
