(* ===== verification/P9Safe.v ===== *)
(** * P9Safe: the objects of the 9p server stay alive as long as they are used

    The invariant of the server's object heap, and that each request that a
    careful client sends keeps it and commits no fault. *)

From S2P Require Import Prelude Effects Libc Wire Device P9Wire P9Core.

Implicit Types (c : P9Core) (w : core_world) (p : positive) (q : QidObject).

Lemma string_bytes_ok (s : string) : is_bytes (string_bytes s).
Proof.
  apply Forall_fmap, Forall_forall. intros c _. unfold compose, byte_of, in_width.
  pose proof (Ascii.nat_ascii_bounded c). lia.
Qed.

(** ** How many fids name an object *)

Definition fid_count (m : gmap Z positive) p : nat := size (filter (fun kv : Z * positive => kv.2 = p) m).

Lemma fid_count_bind (m : gmap Z positive) fid p p' : m !! fid = None ->
  fid_count (<[fid := p]> m) p' = ((if decide (p = p') then 1 else 0) + fid_count m p')%nat.
Proof.
  intros Hn. unfold fid_count. rewrite map_filter_insert. simpl. case_decide.
  - rewrite map_size_insert_None; [done|]. apply map_lookup_filter_None. by left.
  - by rewrite delete_id.
Qed.

Lemma fid_count_unbind (m : gmap Z positive) fid p p' : m !! fid = Some p ->
  fid_count m p' = ((if decide (p = p') then 1 else 0) + fid_count (delete fid m) p')%nat.
Proof.
  intros Hs. rewrite <-fid_count_bind with (fid := fid) by apply lookup_delete_eq.
  by rewrite insert_delete_id.
Qed.

Lemma fid_count_0 (m : gmap Z positive) p : fid_count m p = 0%nat <-> (forall fid, m !! fid <> Some p).
Proof.
  unfold fid_count. rewrite map_size_empty_iff, map_empty. split; intros H fid.
  - intros E. specialize (H fid). rewrite map_lookup_filter_None in H. destruct H as [H|H]; [congruence|].
    by apply (H p).
  - apply map_lookup_filter_None. right. intros p' E E'. simpl in E'. subst p'. by apply (H fid).
Qed.

Lemma size_below (X : gset Z) n : (forall x, x ∈ X -> 0 <= x < n) -> Z.of_nat (size X) <= Z.max 0 n.
Proof.
  intros H. assert (X ⊆ list_to_set (seqZ 0 n)) as Hs.
  { intros x Hx. apply elem_of_list_to_set, elem_of_seqZ. specialize (H x Hx). lia. }
  apply subseteq_size in Hs. rewrite size_list_to_set, length_seqZ in Hs by apply NoDup_seqZ. lia.
Qed.

(** There are 2^32 fids, so the count of references cannot come round to zero. *)
Lemma fid_count_bound (m : gmap Z positive) p :
  map_Forall (fun fid _ => in_width 32 fid) m -> Z.of_nat (fid_count m p) <= 2 ^ 32.
Proof.
  intros Hm. unfold fid_count. rewrite <-size_dom.
  replace (2 ^ 32) with (Z.max 0 (2 ^ 32)) by lia. apply size_below.
  intros fid Hf. apply elem_of_dom in Hf as [p' Hf]. apply map_lookup_filter_Some in Hf as [Hf _].
  apply (Hm _ _ Hf).
Qed.

(** ** The invariant *)

(** The objects that the destructor of a walk's response deletes. *)
Definition inner (qids : list positive) : list positive := removelast (tail qids).

(** The responses that wait to be sent: what one deletes is used by no later
    one. *)
Fixpoint walks_apart (pend : list (list positive)) : Prop :=
  match pend with
  | [] => True
  | l :: pend => NoDup (inner l) /\ (forall p, p ∈ inner l -> p ∉ concat pend) /\ walks_apart pend
  end.

Definition obj_ok (fids : gmap Z positive) p q : Prop :=
  is_Some (q_type q) /\ q_refcnt q = u32 (fid_count fids p) /\
  (q_opened q = true -> q_type q <> Some P9_QTDIR -> is_Some (q_fd q)).

Record core_ok (pend : list (list positive)) c : Prop := {
  co_auth : m_auth_required c = false;
  co_fids : map_Forall (fun fid p => in_width 32 fid /\ is_Some (p_heap c !! p)) (m_fid_map c);
  co_objs : map_Forall (obj_ok (m_fid_map c)) (p_heap c);
  co_live : forall p, p ∈ concat pend -> is_Some (p_heap c !! p);
  co_apart : walks_apart pend;
  co_inner : forall p, p ∈ concat (inner <$> pend) -> fid_count (m_fid_map c) p = 0%nat;
}.

Lemma inner_sub qids p : p ∈ inner qids -> p ∈ qids.
Proof.
  unfold inner. destruct qids as [|x l]; [done|]. simpl. intros H. right.
  destruct (decide (l = [])) as [->|Hl]; [done|]. rewrite (app_removelast_last x Hl). apply elem_of_app. by left.
Qed.

Lemma inner_concat_sub pend p : p ∈ concat (inner <$> pend) -> p ∈ concat pend.
Proof.
  induction pend as [|l pend IH]; [done|]. simpl. rewrite !elem_of_app. intros [H|H]; [left; by apply inner_sub|right; auto].
Qed.

(** The heap only gained objects. *)
Definition grown c c' : Prop :=
  m_fid_map c' = m_fid_map c /\ p_heap c ⊆ p_heap c' /\ m_mountpoint c' = m_mountpoint c.

Lemma grown_refl c : grown c c.
Proof. done. Qed.
Lemma grown_trans c1 c2 c3 : grown c1 c2 -> grown c2 c3 -> grown c1 c3.
Proof. intros (?&?&?) (?&?&?). split_and!; [congruence|by etrans|congruence]. Qed.

Lemma unbound_dead pend c p : core_ok pend c -> p_heap c !! p = None -> fid_count (m_fid_map c) p = 0%nat.
Proof. intros Hc Hp. apply fid_count_0. intros fid E. destruct (co_fids _ _ Hc _ _ E) as [_ [? ?]]. congruence. Qed.

(** ** Steps on objects *)

Lemma wp_get_obj p q (Q : QidObject -> core_world -> Prop) w :
  p_heap (w_st w) !! p = Some q -> Q q w -> wp (get_obj p) Q w.
Proof. intros Hp HQ. unfold get_obj. wp_go. by eapply wp_get_or. Qed.

Lemma wp_set_obj p f q (Q : unit -> core_world -> Prop) w :
  p_heap (w_st w) !! p = Some q -> Q tt (w <| w_st ::= fun c => c <| p_heap ::= <[p := f q]> |> |>) ->
  wp (set_obj p f) Q w.
Proof.
  intros Hp HQ. unfold set_obj. apply wp_bind. eapply wp_get_obj; [exact Hp|]. wp_go.
  enough (alter f p (p_heap (w_st w)) = <[p := f q]> (p_heap (w_st w))) as E.
  { unfold set_field in *. simpl in *. by rewrite E. }
  apply map_eq. intros i. destruct (decide (i = p)) as [->|].
  - by rewrite lookup_alter_eq, lookup_insert_eq, Hp.
  - by rewrite lookup_alter_ne, lookup_insert_ne by done.
Qed.

Lemma wp_delete_obj p q (Q : unit -> core_world -> Prop) w :
  p_heap (w_st w) !! p = Some q -> Q tt (w <| w_st ::= fun c => c <| p_heap ::= delete p |> |>) ->
  wp (delete_obj p) Q w.
Proof. intros Hp HQ. unfold delete_obj. apply wp_bind. eapply wp_get_obj; [exact Hp|]. by wp_go. Qed.

(** A change of one object that keeps its type and its count. *)
Lemma core_ok_upd pend c p q q' :
  core_ok pend c -> p_heap c !! p = Some q -> q_type q' = q_type q -> q_refcnt q' = q_refcnt q ->
  (q_opened q' = true -> q_type q <> Some P9_QTDIR -> is_Some (q_fd q')) ->
  core_ok pend (c <| p_heap ::= <[p := q']> |>).
Proof.
  intros [] Hp Ht Hr Hf. assert (forall i, is_Some (p_heap c !! i) -> is_Some (<[p := q']> (p_heap c) !! i)) as Hl.
  { intros i Hi. destruct (decide (i = p)) as [->|]; [by rewrite lookup_insert_eq|by rewrite lookup_insert_ne]. }
  constructor; try done; simpl; unfold set_field.
  - intros fid i Hi. destruct (co_fids0 _ _ Hi). auto.
  - apply map_Forall_insert_2; [|done]. destruct (co_objs0 _ _ Hp) as (H1 & H2 & _).
    split_and!; [by rewrite Ht|congruence|by rewrite Ht].
  - auto.
Qed.

Lemma wp_Type_of pend p (Q : Z -> core_world -> Prop) w :
  core_ok pend (w_st w) -> is_Some (p_heap (w_st w) !! p) ->
  (forall q t, p_heap (w_st w) !! p = Some q -> q_type q = Some t -> Q t w) -> wp (Type_of p) Q w.
Proof.
  intros Hc [q Hp] HQ. destruct (co_objs _ _ Hc _ _ Hp) as ([t Ht] & _).
  unfold Type_of. apply wp_bind. eapply wp_get_obj; [exact Hp|]. eapply wp_get_or; [exact Ht|]. eauto.
Qed.

Lemma wp_Opened p (Q : bool -> core_world -> Prop) w :
  is_Some (p_heap (w_st w) !! p) ->
  (forall q, p_heap (w_st w) !! p = Some q -> Q (q_opened q) w) -> wp (Opened p) Q w.
Proof. intros [q Hp] HQ. unfold Opened. apply wp_bind. eapply wp_get_obj; [exact Hp|]. wp_go. auto. Qed.

Lemma wp_Qid pend p (Q : qid_t -> core_world -> Prop) w :
  core_ok pend (w_st w) -> is_Some (p_heap (w_st w) !! p) -> (forall i, Q i w) -> wp (Qid p) Q w.
Proof.
  intros Hc [q Hp] HQ. destruct (co_objs _ _ Hc _ _ Hp) as ([t Ht] & _).
  unfold Qid. apply wp_bind. eapply wp_get_obj; [exact Hp|]. apply wp_bind. eapply wp_get_or; [exact Ht|]. wp_go. auto.
Qed.

(** What the host's file system promises: the share exists and holds files and
    directories only, [read] returns at most what was asked for, and memory and
    files hold bytes. *)
Record share_ok (env : dev_env) (mountpoint : bytes) : Prop := {
  sh_mounted : forall trace, is_Some (env trace (DStat mountpoint));
  sh_types : forall trace path mode size, env trace (DStat path) = Some (mode, size) ->
    S_ISREG mode || S_ISDIR mode = true;
  sh_read : forall trace fd (n : nat), (env trace (DRead fd n)).1 <= n;
  sh_bytes : forall trace fd (n : nat), is_bytes (env trace (DRead fd n)).2;
  sh_new : forall trace n, is_bytes (env trace (DNew n));
}.

Section Env.
Context (env : dev_env) (mnt : bytes) (Henv : share_ok env mnt).

Lemma core_ok_new pend c p q :
  core_ok pend c -> p_heap c !! p = None -> is_Some (q_type q) -> q_refcnt q = 0 -> q_opened q = false ->
  core_ok pend (c <| p_heap ::= <[p := q]> |>) /\ grown c (c <| p_heap ::= <[p := q]> |>).
Proof.
  intros Hc Hp Ht Hr Ho. pose proof (unbound_dead _ _ _ Hc Hp) as Hu. destruct Hc.
  assert (p_heap c ⊆ <[p := q]> (p_heap c)) as Hs by by apply insert_subseteq.
  split; [|by split_and!]. constructor; try done; simpl; unfold set_field.
  - intros fid i Hi. destruct (co_fids0 _ _ Hi) as [? [q' ?]]. split; [done|]. exists q'. by eapply lookup_weaken.
  - apply map_Forall_insert_2; [|done]. split_and!; [done|by rewrite Hr, Hu|by rewrite Ho].
  - intros i Hi. destruct (co_live0 i Hi) as [q' ?]. exists q'. by eapply lookup_weaken.
Qed.

Lemma wp_new_QidObject pend path root (Q : option positive -> core_world -> Prop) w :
  core_ok pend (w_st w) ->
  (forall w', w_st w' = w_st w -> env (w_trace w) (DStat path) = None -> Q None w') ->
  (forall p w', core_ok pend (w_st w') -> grown (w_st w) (w_st w') -> p_heap (w_st w) !! p = None ->
     is_Some (p_heap (w_st w') !! p) -> Q (Some p) w') ->
  wp (new_QidObject env path root) Q w.
Proof.
  intros Hc HN HS. unfold new_QidObject. dev_go.
  destruct (env (w_trace w) (DStat path)) as [[mode size]|] eqn:E; dev_go; [|by apply HN].
  apply (sh_types _ _ Henv) in E. set (p := fresh _).
  assert (p_heap (w_st w) !! p = None) as Hp by apply not_elem_of_dom, is_fresh.
  set (q := Qobj _ _ _ _ _ _ _ _ _). destruct (core_ok_new pend (w_st w) p q Hc Hp) as [Hc' Hg].
  - simpl. destruct (S_ISREG mode); [done|]. simpl in E. by rewrite E.
  - done.
  - done.
  - apply HS; [exact Hc'|exact Hg|exact Hp|]. simpl. unfold set_field. by rewrite lookup_insert_eq.
Qed.

Lemma wp_Traverse pend p next (Q : option positive -> core_world -> Prop) w :
  core_ok pend (w_st w) -> is_Some (p_heap (w_st w) !! p) ->
  (forall w', w_st w' = w_st w -> Q None w') ->
  (forall p' w', core_ok pend (w_st w') -> grown (w_st w) (w_st w') -> p_heap (w_st w) !! p' = None ->
     is_Some (p_heap (w_st w') !! p') -> Q (Some p') w') ->
  wp (Traverse env p next) Q w.
Proof.
  intros Hc [q Hq] HN HS. unfold Traverse. apply wp_bind. eapply wp_get_obj; [exact Hq|]. dev_go.
  destruct (env _ (DRealpath _)); dev_go; [|by apply HN].
  eapply wp_new_QidObject; [done| |done]. intros w' E _. by apply HN.
Qed.

Lemma grown_live c c' p : grown c c' -> is_Some (p_heap c !! p) -> is_Some (p_heap c' !! p).
Proof. intros (_ & Hs & _) [q Hq]. exists q. by eapply lookup_weaken. Qed.
Lemma grown_dead c c' p : grown c c' -> p_heap c' !! p = None -> p_heap c !! p = None.
Proof. intros (_ & Hs & _) Hq. by eapply lookup_weaken_None. Qed.

(** The objects of a walk are new and all different. *)
Definition new_objs c c' (l : list positive) : Prop :=
  NoDup l /\ Forall (fun p => p_heap c !! p = None /\ is_Some (p_heap c' !! p)) l.

Lemma wp_walk_names pend wnames p (Q : option (list positive) -> core_world -> Prop) w :
  core_ok pend (w_st w) -> is_Some (p_heap (w_st w) !! p) ->
  (forall w', core_ok pend (w_st w') -> grown (w_st w) (w_st w') -> Q None w') ->
  (forall l w', core_ok pend (w_st w') -> grown (w_st w) (w_st w') -> new_objs (w_st w) (w_st w') l ->
     length l = length wnames -> Q (Some l) w') ->
  wp (walk_names env p wnames) Q w.
Proof.
  revert p Q w. induction wnames as [|n wnames IH]; intros p Q w Hc Hp HN HS; simpl.
  { dev_go. apply HS; [done..| |done]. split; [constructor|done]. }
  apply wp_bind, (wp_Traverse pend); [done..| |].
  { intros w' E. wp_go. apply HN; rewrite E; done. }
  intros p1 w1 Hc1 Hg1 Hn1 Hp1. cbv beta iota. apply wp_bind, IH; [done..| |].
  { intros w2 Hc2 Hg2. wp_go. apply HN; [done|]. by eapply grown_trans. }
  intros l w2 Hc2 Hg2 [Hnd Hl] Hlen. wp_go. apply HS; [done|by eapply grown_trans| |by simpl; rewrite Hlen]. split.
  - constructor; [|done]. intros Hin. rewrite Forall_forall in Hl. destruct (Hl _ Hin) as [? _].
    destruct Hp1; congruence.
  - constructor; [by eauto using grown_live|]. eapply Forall_impl; [exact Hl|].
    intros x [H1 H2]. split; [by eapply grown_dead|done].
Qed.

(** ** Open, Close, Read and Write *)

(** The set of live objects and the fids did not change. *)
Definition same_objs c c' : Prop :=
  m_fid_map c' = m_fid_map c /\ dom (p_heap c') = dom (p_heap c) /\ m_mountpoint c' = m_mountpoint c.

Lemma same_live c c' p : same_objs c c' -> is_Some (p_heap c !! p) -> is_Some (p_heap c' !! p).
Proof. intros (_ & E & _). rewrite <-!elem_of_dom. by rewrite E. Qed.

Lemma same_upd c p q q' : p_heap c !! p = Some q -> same_objs c (c <| p_heap ::= <[p := q']> |>).
Proof.
  intros Hp. split_and!; [done| |done]. simpl. unfold set_field. rewrite dom_insert_L.
  apply elem_of_dom_2 in Hp. set_solver.
Qed.

Lemma same_trans c1 c2 c3 : same_objs c1 c2 -> same_objs c2 c3 -> same_objs c1 c3.
Proof. intros (?&?&?) (?&?&?). split_and!; congruence. Qed.

Lemma wp_Open pend p mode (Q : bool -> core_world -> Prop) w :
  core_ok pend (w_st w) -> is_Some (p_heap (w_st w) !! p) ->
  (forall b w', core_ok pend (w_st w') -> same_objs (w_st w) (w_st w') -> Q b w') ->
  wp (Open env p mode) Q w.
Proof.
  intros Hc [q Hq] HQ. destruct (co_objs _ _ Hc _ _ Hq) as ([t Ht] & _ & Hfd).
  assert (forall b, Q b w) as HQ0 by (intros b; by apply HQ).
  unfold Open. apply wp_bind. eapply wp_get_obj; [exact Hq|].
  destruct (q_opened q) eqn:Eo; [by wp_go|]. apply wp_bind. eapply wp_get_or; [exact Ht|].
  destruct (Z.eqb_spec t P9_QTDIR) as [->|Hdir].
  { apply wp_bind. eapply wp_set_obj; [exact Hq|]. wp_go. apply HQ; [|by eapply same_upd].
    eapply core_ok_upd; [exact Hc|exact Hq|done..|]. by rewrite Ht. }
  set (flags := if mode =? P9_OREAD then _ else _). clearbody flags. cbv zeta.
  destruct (flags <? 0); [by wp_go|]. dev_go. eapply wp_set_obj; [exact Hq|].
  set (w1 := _ <| w_st ::= _ |>).
  assert (core_ok pend (w_st w1)) as Hc1.
  { eapply core_ok_upd; [exact Hc|exact Hq|done..|]. simpl. unfold set_field. by rewrite Eo. }
  assert (same_objs (w_st w) (w_st w1)) as Hs1 by by eapply same_upd.
  case_match; [wp_go; by apply HQ|].
  apply wp_bind. eapply wp_set_obj; [simpl; apply lookup_insert_eq|]. wp_go. apply HQ.
  - eapply core_ok_upd; [exact Hc1|apply lookup_insert_eq|done..].
  - eapply same_trans; [exact Hs1|]. eapply same_upd, lookup_insert_eq.
Qed.

Definition closable q : bool := negb (q_opened q && bool_decide (q_type q = Some P9_QTDIR)).

Lemma wp_Close pend p q (Q : bool -> core_world -> Prop) w :
  core_ok pend (w_st w) -> p_heap (w_st w) !! p = Some q -> closable q = true ->
  (forall w', core_ok pend (w_st w') -> same_objs (w_st w) (w_st w') -> Q (q_opened q) w') ->
  wp (Close env p) Q w.
Proof.
  intros Hc Hq Hcl HQ. destruct (co_objs _ _ Hc _ _ Hq) as (_ & _ & Hfd). unfold closable in Hcl.
  unfold Close. apply wp_bind. eapply wp_get_obj; [exact Hq|].
  destruct (q_opened q); [|by wp_go; apply HQ]. simpl in Hcl. apply negb_true_iff, bool_decide_eq_false in Hcl.
  destruct (Hfd eq_refl Hcl) as [fd Efd]. apply wp_bind. eapply wp_get_or; [exact Efd|]. dev_go.
  eapply wp_set_obj; [exact Hq|]. wp_go. apply HQ; [|by eapply same_upd].
  eapply core_ok_upd; [exact Hc|exact Hq|done..].
Qed.

Lemma wp_Read pend p q offset count (Q : option bytes -> core_world -> Prop) w :
  core_ok pend (w_st w) -> p_heap (w_st w) !! p = Some q -> q_type q = Some P9_QTFILE -> 0 <= count ->
  (forall data w', w_st w' = w_st w -> is_bytes (default [] data) -> Q data w') ->
  wp (Read env p offset count) Q w.
Proof.
  intros Hc Hq Ht Hn HQ. destruct (co_objs _ _ Hc _ _ Hq) as (_ & _ & Hfd).
  unfold Read. apply wp_bind. eapply wp_get_obj; [exact Hq|].
  destruct (q_opened q); [|wp_go; apply HQ; [done|constructor]]. destruct Hfd as [fd Efd]; [done|by rewrite Ht|].
  apply wp_bind. eapply wp_get_or; [exact Efd|]. dev_go. case_match; [wp_go; apply HQ; [done|constructor]|]. dev_go.
  match goal with |- context [env ?t (DRead ?f ?n)] =>
    pose proof (sh_read _ _ Henv t f n) as Hr; pose proof (sh_bytes _ _ Henv t f n) as Hb end.
  case_match; [wp_go; apply HQ; [done|constructor]|]. rewrite (proj2 (Z.ltb_ge _ _)) by lia. wp_go. apply HQ; [done|].
  apply Forall_take, Forall_app. split; [done|]. apply Forall_drop, (sh_new _ _ Henv).
Qed.

Lemma wp_Write pend p q offset data count (Q : Z -> core_world -> Prop) w :
  core_ok pend (w_st w) -> p_heap (w_st w) !! p = Some q -> q_type q = Some P9_QTFILE ->
  (forall n w', w_st w' = w_st w -> Q n w') -> wp (Write env p offset data count) Q w.
Proof.
  intros Hc Hq Ht HQ. destruct (co_objs _ _ Hc _ _ Hq) as (_ & _ & Hfd).
  unfold Write. apply wp_bind. eapply wp_get_obj; [exact Hq|].
  destruct (q_opened q); [|by wp_go; apply HQ]. destruct Hfd as [fd Efd]; [done|by rewrite Ht|].
  apply wp_bind. eapply wp_get_or; [exact Efd|]. dev_go. by apply HQ.
Qed.

Lemma wp_Stat pend p (Q : option p9_stat_t -> core_world -> Prop) w :
  core_ok pend (w_st w) -> is_Some (p_heap (w_st w) !! p) ->
  (forall s w', w_st w' = w_st w -> Q s w') -> wp (Stat env p) Q w.
Proof.
  intros Hc [q Hq] HQ. unfold Stat. apply wp_bind. eapply wp_get_obj; [exact Hq|]. dev_go.
  destruct (env _ _) as [[? ?]|]; dev_go; [|by apply HQ].
  eapply wp_Qid; [exact Hc|by eexists|]. intros i. wp_go. by apply HQ.
Qed.

Lemma wp_CreateChild pend p child perm (Q : option positive -> core_world -> Prop) w :
  core_ok pend (w_st w) -> is_Some (p_heap (w_st w) !! p) ->
  (forall w', w_st w' = w_st w -> Q None w') ->
  (forall p' w', core_ok pend (w_st w') -> grown (w_st w) (w_st w') -> p_heap (w_st w) !! p' = None ->
     is_Some (p_heap (w_st w') !! p') -> Q (Some p') w') ->
  wp (CreateChild env p child perm) Q w.
Proof.
  intros Hc [q Hq] HN HS. unfold CreateChild. apply wp_bind. eapply wp_get_obj; [exact Hq|]. cbv zeta.
  apply wp_bind. apply (wp_mono _ (fun _ w' => w_st w' = w_st w)).
  { destruct (negb _); dev_go; [done|]. destruct (_ <? 0); dev_go; done. }
  intros ok w1 E1. destruct ok; [|wp_go; by apply HN].
  apply (wp_Traverse pend); rewrite ?E1; [done|by eexists|..].
  - intros w' E. apply HN. congruence.
  - done.
Qed.

(** ** Fids *)

Lemma wp_BindFid pend fid p (Q : bool -> core_world -> Prop) w :
  core_ok pend (w_st w) -> is_Some (p_heap (w_st w) !! p) -> in_width 32 fid ->
  p ∉ concat (inner <$> pend) ->
  (is_Some (m_fid_map (w_st w) !! fid) -> Q false w) ->
  (forall w', m_fid_map (w_st w) !! fid = None -> core_ok pend (w_st w') ->
     m_fid_map (w_st w') = <[fid := p]> (m_fid_map (w_st w)) ->
     dom (p_heap (w_st w')) = dom (p_heap (w_st w)) -> m_mountpoint (w_st w') = m_mountpoint (w_st w) -> Q true w') ->
  wp (BindFid fid p) Q w.
Proof.
  intros Hc [q Hq] Hf Hin HN HS. unfold BindFid. wp_go.
  destruct (m_fid_map (w_st w) !! fid) as [p0|] eqn:E; [wp_go; apply HN; by eexists|].
  unfold IncRef. apply wp_bind. eapply wp_set_obj; [exact Hq|]. wp_go.
  destruct (same_upd (w_st w) p q (q <| q_refcnt ::= fun n => u32 (n + 1) |>) Hq) as (_ & Hdom & _).
  apply HS; [done| |done|exact Hdom|done].
  destruct Hc. constructor; try done; simpl; unfold set_field.
  - apply map_Forall_insert_2.
    + split; [done|]. by rewrite lookup_insert_eq.
    + intros fid' p' Hp'. destruct (co_fids0 _ _ Hp') as [? Hl]. split; [done|].
      rewrite <-elem_of_dom in Hl |- *. set_solver.
  - intros p' q' Hp'. destruct (decide (p' = p)) as [->|Hne].
    + rewrite lookup_insert_eq in Hp'. injection Hp' as <-. destruct (co_objs0 _ _ Hq) as (H1 & H2 & H3).
      split_and!; [done| |done]. simpl. rewrite fid_count_bind, decide_True, H2 by done.
      unfold wrap. rewrite Z.add_mod_idemp_l by lia. f_equal. lia.
    + rewrite lookup_insert_ne in Hp' by done. destruct (co_objs0 _ _ Hp') as (H1 & H2 & H3).
      split_and!; [done| |done]. by rewrite fid_count_bind, decide_False.
  - intros p' Hp'. apply co_live0 in Hp'. rewrite <-elem_of_dom in Hp' |- *. set_solver.
  - intros p' Hp'. rewrite fid_count_bind, decide_False by (done || congruence). simpl. auto.
Qed.

(** The object of [fid] stays, or no response refers to it. *)
Definition droppable pend c fid : Prop :=
  forall p, m_fid_map c !! fid = Some p -> fid_count (m_fid_map c) p = 1%nat -> p ∉ concat pend.

Lemma core_ok_drop pend c p : core_ok pend c -> p ∉ concat pend -> fid_count (m_fid_map c) p = 0%nat ->
  core_ok pend (c <| p_heap ::= delete p |>).
Proof.
  intros [] Hp H0. constructor; try done; simpl; unfold set_field.
  - intros fid i Hi. destruct (co_fids0 _ _ Hi). split; [done|]. rewrite lookup_delete_ne; [done|].
    intros ->. by apply (proj1 (fid_count_0 _ _) H0 fid).
  - intros i x Hi. apply lookup_delete_Some in Hi as [_ Hi]. by apply co_objs0.
  - intros i Hi. rewrite lookup_delete_ne; [auto|]. by intros ->.
Qed.

Lemma wp_RemoveFid pend fid p (Q : unit -> core_world -> Prop) w :
  core_ok pend (w_st w) -> m_fid_map (w_st w) !! fid = Some p -> droppable pend (w_st w) fid ->
  (forall w', core_ok pend (w_st w') -> m_fid_map (w_st w') = delete fid (m_fid_map (w_st w)) ->
     (forall p', is_Some (p_heap (w_st w) !! p') -> p' <> p \/ fid_count (m_fid_map (w_st w)) p <> 1%nat ->
        is_Some (p_heap (w_st w') !! p')) ->
     (fid_count (m_fid_map (w_st w)) p = 1%nat -> p_heap (w_st w') !! p = None) ->
     m_mountpoint (w_st w') = m_mountpoint (w_st w) -> Q tt w') ->
  wp (RemoveFid fid) Q w.
Proof.
  intros Hc Hp Hd HQ. pose proof Hc as [Hauth Hfids Hobjs Hlive Hapart Hinner].
  destruct (Hfids _ _ Hp) as [Hw [q Hq]]. destruct (Hobjs _ _ Hq) as (Ht & Hr & Hfd).
  pose proof (fid_count_unbind _ _ _ p Hp) as Hcnt. rewrite decide_True in Hcnt by done.
  pose proof (fid_count_bound (m_fid_map (w_st w)) p) as Hb.
  assert (Z.of_nat (fid_count (m_fid_map (w_st w)) p) <= 2 ^ 32) as Hb'.
  { apply Hb. intros ? ? Hx. apply (Hfids _ _ Hx). }
  unfold RemoveFid. wp_go. eapply wp_get_or; [exact Hp|].
  unfold DecRef. apply wp_bind. eapply wp_set_obj; [exact Hq|]. apply wp_bind.
  eapply wp_get_obj; [simpl; apply lookup_insert_eq|].
  set (w1 := _ <| w_st ::= _ |>). assert (core_ok pend (w_st w1)) as Hc1.
  { constructor; try done; simpl; unfold set_field.
    - intros fid' i Hi. apply lookup_delete_Some in Hi as [_ Hi]. destruct (Hfids _ _ Hi) as [? Hl].
      split; [done|]. destruct (decide (i = p)) as [->|]; [by rewrite lookup_insert_eq|by rewrite lookup_insert_ne].
    - intros i x Hi. pose proof (fid_count_unbind _ _ _ i Hp) as Hci. destruct (decide (i = p)) as [->|Hne].
      + rewrite lookup_insert_eq in Hi. injection Hi as <-. split_and!; [done| |done]. simpl. rewrite Hr.
        unfold wrap. rewrite Zminus_mod_idemp_l. f_equal. lia.
      + rewrite lookup_insert_ne in Hi by done. rewrite decide_False in Hci by congruence.
        destruct (Hobjs _ _ Hi) as (? & Hri & ?). split_and!; [done| |done]. by rewrite Hri, Hci.
    - intros i Hi. apply Hlive in Hi. destruct (decide (i = p)) as [->|]; [by rewrite lookup_insert_eq|by rewrite lookup_insert_ne].
    - intros i Hi. apply Hinner in Hi. pose proof (fid_count_unbind _ _ _ i Hp) as Hci. lia. }
  assert (forall p', is_Some (p_heap (w_st w) !! p') -> is_Some (p_heap (w_st w1) !! p')) as Hl1.
  { intros i Hi. simpl. unfold set_field. destruct (decide (i = p)) as [->|]; [by rewrite lookup_insert_eq|by rewrite lookup_insert_ne]. }
  simpl. rewrite Hr. destruct (Z.eqb_spec (u32 (u32 (fid_count (m_fid_map (w_st w)) p) - 1)) 0) as [E|E].
  - assert (fid_count (m_fid_map (w_st w)) p = 1%nat) as E1.
    { unfold wrap in E. rewrite Zminus_mod_idemp_l in E. rewrite Hcnt in E, Hb' |- *.
      rewrite Z.mod_small in E; lia. }
    eapply wp_delete_obj; [simpl; apply lookup_insert_eq|]. apply HQ; [|done| | |done].
    + apply core_ok_drop; [exact Hc1|by apply Hd|]. simpl. unfold set_field. lia.
    + intros p' Hp' [Hne|Hne]; [|done]. simpl. unfold set_field. rewrite lookup_delete_ne by done. by apply Hl1.
    + intros _. simpl. unfold set_field. apply lookup_delete_eq.
  - wp_go. apply HQ; auto. intros E1. exfalso. apply E. rewrite E1. done.
Qed.
(** ** Requests *)

(** What every parsed request fulfils. *)
Definition t_typed (t : tbody) : Prop :=
  match t with
  | TVersion _ version => is_bytes version
  | TAttach fid _ _ _ | TWalk _ fid _ | TCreate fid _ _ _ => in_width 32 fid
  | TRead _ _ count => 0 <= count
  | _ => True
  end.

(** What a client has to see to: it does not walk a fid onto itself while that
    is the only name of the object, asks for the status of fids it knows only,
    does not clunk an open directory, and drops no object that a response on its
    way refers to. *)
Definition careful (pend : list (list positive)) c (t : tbody) : Prop :=
  match t with
  | TWalk fid newfid _ =>
      fid = newfid -> forall p, m_fid_map c !! fid = Some p -> fid_count (m_fid_map c) p <> 1%nat
  | TCreate fid _ _ _ => droppable pend c fid
  | TClunk fid | TRemove fid => droppable pend c fid /\
      forall p q, m_fid_map c !! fid = Some p -> p_heap c !! p = Some q -> closable q = true
  | TStat fid => is_Some (m_fid_map c !! fid)
  | _ => True
  end.

Definition is_walk (t : tbody) : bool := match t with TWalk _ _ _ => true | _ => false end.

Definition exec_post pend (t : tbody) (r : bytes + outs) w : Prop :=
  match r with
  | inr (Oqids l) => is_walk t = true /\ core_ok (pend ++ [l]) (w_st w)
  | inr (Oqid None) => False
  | _ => core_ok pend (w_st w)
  end /\ m_mountpoint (w_st w) = mnt /\
  match r with inl e => is_bytes e | inr (Odata d) => is_bytes d | _ => True end.

Lemma GetFid_cases pend fid (k : option positive -> core_prog (bytes + outs)) Q w :
  core_ok pend (w_st w) ->
  (m_fid_map (w_st w) !! fid = None -> wp (k None) Q w) ->
  (forall p, m_fid_map (w_st w) !! fid = Some p -> is_Some (p_heap (w_st w) !! p) -> wp (k (Some p)) Q w) ->
  wp (obj ← GetFid fid; k obj) Q w.
Proof.
  intros Hc HN HS. unfold GetFid. wp_go. destruct (m_fid_map (w_st w) !! fid) as [p|] eqn:E; [|auto].
  apply HS; [done|]. by apply (co_fids _ _ Hc _ _ E).
Qed.

Ltac exec_done :=
  unfold errored, done_with; wp_go; split_and!; try done; try solve [apply string_bytes_ok].

Lemma exec_TAttach_ok pend fid afid uname aname w :
  core_ok pend (w_st w) -> m_mountpoint (w_st w) = mnt -> in_width 32 fid ->
  wp (exec_TAttach env fid afid aname) (exec_post pend (TAttach fid afid uname aname)) w.
Proof.
  intros Hc Hm Hf. unfold exec_TAttach, must_auth. wp_go. rewrite (co_auth _ _ Hc), andb_false_r.
  case_match; [exec_done|]. unfold Serving. wp_go. case_match; [exec_done|].
  unfold Attach. wp_go. apply (wp_new_QidObject pend); [done| |].
  { intros w' _ E. pose proof (sh_mounted _ _ Henv (w_trace w)) as Hx. rewrite <-Hm, E in Hx. by destruct Hx. }
  intros p w1 Hc1 Hg1 Hn1 Hp1. wp_go. eapply wp_get_or; [done|].
  assert (m_mountpoint (w_st w1) = mnt) as Hm1 by (destruct Hg1 as (_ & _ & ->); done).
  assert (p ∉ concat pend) as Hnp by (intros Hx; destruct (co_live _ _ Hc _ Hx); congruence).
  apply wp_bind, (wp_BindFid pend); [done..| | |].
  { intros Hx. by apply Hnp, inner_concat_sub. }
  - intros _. simpl. destruct Hp1 as [q Hq]. apply wp_bind. eapply wp_delete_obj; [exact Hq|]. exec_done.
    apply core_ok_drop; [done..|]. destruct Hg1 as (-> & _). by eapply unbound_dead.
  - intros w2 _ Hc2 _ Hd2 Hm2. simpl. apply wp_bind, (wp_Qid pend); [done| |].
    { rewrite <-elem_of_dom, Hd2, elem_of_dom. done. }
    intros i. exec_done. congruence.
Qed.

Lemma walks_apart_snoc pend l :
  walks_apart pend -> NoDup (inner l) -> (forall p, p ∈ concat (inner <$> pend) -> p ∉ l) ->
  walks_apart (pend ++ [l]).
Proof.
  induction pend as [|l' pend IH]; simpl; intros Hw Hn Hd.
  - split_and!; [done| |done]. intros p _. by apply not_elem_of_nil.
  - destruct Hw as (H1 & H2 & H3). split_and!; [done| |].
    + intros p Hp. rewrite concat_app, elem_of_app. simpl. rewrite app_nil_r. intros [Hx|Hx]; [by eapply H2|].
      eapply Hd; [|exact Hx]. apply elem_of_app. by left.
    + apply IH; [done..|]. intros p Hp. apply Hd. apply elem_of_app. by right.
Qed.

(** A walk that ended: its response is one more that waits. *)
Lemma core_ok_walk pend c qids :
  core_ok pend c -> (forall p, p ∈ qids -> is_Some (p_heap c !! p)) -> NoDup (inner qids) ->
  (forall p, p ∈ inner qids -> fid_count (m_fid_map c) p = 0%nat) ->
  (forall p, p ∈ concat (inner <$> pend) -> p ∉ qids) ->
  core_ok (pend ++ [qids]) c.
Proof.
  intros [] Hl Hn Hz Hd. constructor; [done..| | |].
  - intros p. rewrite concat_app, elem_of_app. simpl. rewrite app_nil_r. intros [?|?]; auto.
  - by apply walks_apart_snoc.
  - intros p. rewrite fmap_app, concat_app, elem_of_app. simpl. rewrite app_nil_r. intros [?|?]; auto.
Qed.

Lemma bound_not_inner pend c fid p : core_ok pend c -> m_fid_map c !! fid = Some p -> p ∉ concat (inner <$> pend).
Proof. intros Hc Hp Hx. by apply (proj1 (fid_count_0 _ _) (co_inner _ _ Hc _ Hx) fid). Qed.

Lemma new_not_pending pend c p : core_ok pend c -> p_heap c !! p = None -> p ∉ concat pend.
Proof. intros Hc Hp Hx. destruct (co_live _ _ Hc _ Hx). congruence. Qed.

(** The end of a walk in [c1], from [base] along the objects [l], which were not
    there in [c]: [newfid] is bound to the last one, giving [c2]. *)
Lemma walk_bound pend c c1 c2 base l newfid :
  core_ok pend c -> core_ok pend c2 -> new_objs c c1 l -> base ∉ concat (inner <$> pend) ->
  (forall p, p ∈ l -> fid_count (m_fid_map c1) p = 0%nat) ->
  (forall p, p ∈ base :: l -> is_Some (p_heap c2 !! p)) ->
  m_fid_map c1 !! newfid = None -> m_fid_map c2 = <[newfid := List.last (base :: l) base]> (m_fid_map c1) ->
  core_ok (pend ++ [base :: l]) c2.
Proof.
  intros Hc Hc2 [Hnd Hnew] Hbase Hz Hl Hn E. rewrite Forall_forall in Hnew. apply core_ok_walk; [done..| | |].
  - unfold inner. simpl. destruct l as [|x l _] using rev_ind; [constructor|]. rewrite removelast_last.
    by apply NoDup_app in Hnd as (? & _).
  - intros p Hp. unfold inner in Hp. simpl in Hp.
    destruct l as [|x l _] using rev_ind; [by apply elem_of_nil in Hp|]. rewrite removelast_last in Hp.
    rewrite E, fid_count_bind by done. change (base :: l ++ [x]) with ((base :: l) ++ [x]). rewrite List.last_last.
    rewrite decide_False; [apply Hz, elem_of_app; by left|]. intros ->.
    apply NoDup_app in Hnd as (_ & Hd & _). eapply Hd; [exact Hp|]. by left.
  - intros p Hp [->|Hx]%elem_of_cons; [done|]. destruct (Hnew _ Hx) as [Hno _].
    by apply (new_not_pending _ _ _ Hc Hno), inner_concat_sub.
Qed.

Lemma last_in (x : positive) l : List.last (x :: l) x ∈ x :: l.
Proof.
  destruct l as [|y l _] using rev_ind; [by left|]. change (x :: l ++ [y]) with ((x :: l) ++ [y]).
  rewrite List.last_last. apply elem_of_app. right. by left.
Qed.

Lemma exec_TWalk_ok pend fid newfid wnames w :
  core_ok pend (w_st w) -> m_mountpoint (w_st w) = mnt -> in_width 32 newfid ->
  careful pend (w_st w) (TWalk fid newfid wnames) ->
  wp (exec_TWalk env fid newfid wnames) (exec_post pend (TWalk fid newfid wnames)) w.
Proof.
  intros Hc Hm Hf Hself. simpl in Hself. apply (GetFid_cases pend); [done|intros _; exec_done|]. intros base Hb Hlb.
  apply wp_bind, (wp_Type_of pend); [done..|]. intros q t _ _. case_match; [exec_done|].
  apply wp_bind, (wp_walk_names pend); [done..| |].
  { intros w1 Hc1 (_ & _ & Em1). exec_done. congruence. }
  intros l w1 Hc1 Hg1 [Hnd Hnew] _. simpl. pose proof Hg1 as (Ef1 & _ & Em1).
  assert (base ∉ concat (inner <$> pend)) as Hbi by exact (bound_not_inner _ _ _ _ Hc Hb).
  assert (forall p, p ∈ base :: l -> is_Some (p_heap (w_st w1) !! p)) as Hl1.
  { rewrite Forall_forall in Hnew. intros p [->|Hp]%elem_of_cons; [by eapply grown_live|by apply Hnew]. }
  assert (forall p, p ∈ l -> fid_count (m_fid_map (w_st w)) p = 0%nat) as Hz.
  { rewrite Forall_forall in Hnew. intros p Hp. by eapply unbound_dead, Hnew. }
  apply wp_bind. apply (wp_mono _ (fun _ w2 => core_ok pend (w_st w2) /\ m_mountpoint (w_st w2) = mnt /\
    (forall p, p ∈ base :: l -> is_Some (p_heap (w_st w2) !! p)) /\
    (forall p, p ∈ l -> fid_count (m_fid_map (w_st w2)) p = 0%nat))).
  { case_match eqn:Ec; [|wp_go; rewrite Em1, Ef1; done]. apply Z.eqb_eq in Ec as <-.
    specialize (Hself eq_refl _ Hb). rewrite <-Ef1 in Hself, Hb.
    eapply (wp_RemoveFid pend); [done|exact Hb| |]; [intros p Hp; congruence|].
    intros w2 Hc2 Ef2 Hl2 _ Em2. split_and!; [done|congruence|auto|].
    intros p Hp. specialize (Hz p Hp). rewrite <-Ef1 in Hz. rewrite Ef2.
    pose proof (fid_count_unbind _ _ _ p Hb). lia. }
  intros [] w2 (Hc2 & Em2 & Hl2 & Hz2).
  set (p := List.last (base :: l) base). assert (p ∈ base :: l) as Hp by apply last_in.
  apply wp_bind, (wp_BindFid pend); [done|by apply Hl2|done| | |].
  - change (p ∉ concat (inner <$> pend)). apply elem_of_cons in Hp as [E|Hp]; [by rewrite E|]. rewrite Forall_forall in Hnew. intros Hx.
    by apply (new_not_pending _ _ p Hc); [apply Hnew|apply inner_concat_sub].
  - intros _. exec_done.
  - intros w3 Hn Hc3 Ef3 Hd3 Em3. exec_done; [|congruence].
    apply (walk_bound pend (w_st w) (w_st w2) (w_st w3) base l newfid); try done.
    + split; [done|]. rewrite Forall_forall in Hnew |- *. intros x Hx. split; [by apply Hnew|].
      apply Hl2. by right.
    + intros x Hx. rewrite <-elem_of_dom, Hd3, elem_of_dom. auto.
Qed.

Lemma exec_TOpen_ok pend fid mode w :
  core_ok pend (w_st w) -> m_mountpoint (w_st w) = mnt ->
  wp (exec_TOpen env fid mode) (exec_post pend (TOpen fid mode)) w.
Proof.
  intros Hc Hm. apply (GetFid_cases pend); [done|intros _; exec_done|]. intros p Hb Hlp.
  apply wp_bind, (wp_Type_of pend); [done..|]. intros q t _ _. case_match; [exec_done|].
  apply wp_bind, (wp_Open pend); [done..|]. intros b w1 Hc1 Hs1. pose proof Hs1 as (_ & _ & Em).
  destruct b; simpl; [|exec_done; congruence].
  apply wp_bind, (wp_Qid pend); [done|by eapply same_live|]. intros i. exec_done. congruence.
Qed.

Lemma exec_TCreate_ok pend fid name perm mode w :
  core_ok pend (w_st w) -> m_mountpoint (w_st w) = mnt -> in_width 32 fid ->
  careful pend (w_st w) (TCreate fid name perm mode) ->
  wp (exec_TCreate env fid name perm mode) (exec_post pend (TCreate fid name perm mode)) w.
Proof.
  intros Hc Hm Hf Hd. simpl in Hd. apply (GetFid_cases pend); [done|intros _; exec_done|]. intros base Hb Hlb.
  apply wp_bind, (wp_Type_of pend); [done..|]. intros q t _ _. case_match; [exec_done|].
  apply wp_bind, (wp_CreateChild pend); [done..| |].
  { intros w' E. exec_done; by rewrite E. }
  intros child w1 Hc1 Hg1 Hnew Hlc. simpl. pose proof Hg1 as (Ef1 & _ & Em1).
  apply wp_bind, (wp_Open pend); [done..|]. intros b w2 Hc2 Hs2. pose proof Hs2 as (Ef2 & Ed2 & Em2).
  assert (m_fid_map (w_st w2) = m_fid_map (w_st w)) as Ef by congruence.
  destruct b; simpl; [|exec_done; congruence].
  apply wp_bind. eapply (wp_RemoveFid pend); [done|by rewrite Ef| |].
  { unfold droppable. by rewrite Ef. }
  intros w3 Hc3 Ef3 Hl3 _ Em3.
  assert (is_Some (p_heap (w_st w3) !! child)) as Hl.
  { apply Hl3; [by eapply same_live|]. left. intros ->. destruct Hlb. congruence. }
  apply wp_bind, (wp_BindFid pend); [done..| | |].
  - intros Hx. by eapply (new_not_pending pend (w_st w)), inner_concat_sub.
  - intros [? Hx]. rewrite Ef3, lookup_delete_eq in Hx. done.
  - intros w4 _ Hc4 _ Hd4 Em4. simpl. apply wp_bind, (wp_Qid pend); [done| |].
    { rewrite <-elem_of_dom, Hd4, elem_of_dom. done. }
    intros i. exec_done. congruence.
Qed.

Lemma exec_TRead_ok pend fid offset count w :
  core_ok pend (w_st w) -> m_mountpoint (w_st w) = mnt -> 0 <= count ->
  wp (exec_TRead env fid offset count) (exec_post pend (TRead fid offset count)) w.
Proof.
  intros Hc Hm Hn. apply (GetFid_cases pend); [done|intros _; exec_done|]. intros p Hb Hlp.
  apply wp_bind, (wp_Type_of pend); [done..|]. intros q t Hq Ht.
  destruct (Z.eqb_spec t P9_QTFILE) as [->|]; simpl; [|exec_done].
  apply wp_bind, wp_Opened; [done|]. intros q' _. case_match; [exec_done|]. case_match; [exec_done|].
  apply wp_bind, (wp_Read pend _ q); [done..|]. intros data w1 E Hd. destruct data; exec_done; by rewrite E.
Qed.

Lemma exec_TWrite_ok pend fid offset count data w :
  core_ok pend (w_st w) -> m_mountpoint (w_st w) = mnt ->
  wp (exec_TWrite env fid offset count data) (exec_post pend (TWrite fid offset count data)) w.
Proof.
  intros Hc Hm. apply (GetFid_cases pend); [done|intros _; exec_done|]. intros p Hb Hlp.
  apply wp_bind, (wp_Type_of pend); [done..|]. intros q t Hq Ht.
  destruct (Z.eqb_spec t P9_QTFILE) as [->|]; simpl; [|exec_done].
  apply wp_bind, wp_Opened; [done|]. intros q' _. case_match; [exec_done|].
  apply wp_bind, (wp_Write pend _ q); [done..|]. intros n w1 E. case_match; exec_done; by rewrite E.
Qed.

Lemma droppable_same pend c c' fid : same_objs c c' -> droppable pend c fid -> droppable pend c' fid.
Proof. intros (E & _) H. unfold droppable. by rewrite E. Qed.

Lemma exec_TClunk_ok pend fid w :
  core_ok pend (w_st w) -> m_mountpoint (w_st w) = mnt -> careful pend (w_st w) (TClunk fid) ->
  wp (exec_TClunk env fid) (exec_post pend (TClunk fid)) w.
Proof.
  intros Hc Hm [Hd Hcl]. apply (GetFid_cases pend); [done|intros _; exec_done|]. intros p Hb [q Hq].
  apply wp_bind, (wp_Close pend _ q); [done..|by eapply Hcl|]. intros w1 Hc1 Hs1. pose proof Hs1 as (E1 & _ & Em1).
  apply wp_bind. eapply (wp_RemoveFid pend); [done|by rewrite E1|by eapply droppable_same|].
  intros w2 Hc2 _ _ _ Em2. case_match; exec_done; congruence.
Qed.

Lemma exec_TRemove_ok pend fid w :
  core_ok pend (w_st w) -> m_mountpoint (w_st w) = mnt -> careful pend (w_st w) (TRemove fid) ->
  wp (exec_TRemove env fid) (exec_post pend (TRemove fid)) w.
Proof.
  intros Hc Hm [Hd Hcl]. apply (GetFid_cases pend); [done|intros _; exec_done|]. intros p Hb [q Hq].
  apply wp_bind, wp_Opened; [by eexists|]. intros q' Hq'. assert (q' = q) as -> by congruence.
  apply wp_bind. apply (wp_mono _ (fun _ w1 => core_ok pend (w_st w1) /\ same_objs (w_st w) (w_st w1))).
  { case_match; [|by wp_go]. apply (wp_Close pend _ q); [done..|by eapply Hcl|done]. }
  intros closed w1 [Hc1 Hs1]. pose proof Hs1 as (E1 & _ & Em1). case_match; [exec_done; congruence|].
  unfold Remove. destruct (same_live _ _ p Hs1) as [q1 Hq1]; [by eexists|].
  apply wp_bind, wp_bind. eapply wp_get_obj; [exact Hq1|]. dev_go. case_match; [exec_done; simpl; congruence|].
  apply wp_bind. eapply (wp_RemoveFid pend); [done|by simpl; rewrite E1|by eapply droppable_same|].
  intros w2 Hc2 _ _ _ Em2. exec_done; simpl in *; congruence.
Qed.

Lemma exec_TStat_ok pend fid w :
  core_ok pend (w_st w) -> m_mountpoint (w_st w) = mnt -> is_Some (m_fid_map (w_st w) !! fid) ->
  wp (exec_TStat env fid) (exec_post pend (TStat fid)) w.
Proof.
  intros Hc Hm [p0 Hp0]. apply (GetFid_cases pend); [done|congruence|]. intros p Hb Hlp.
  apply wp_bind. eapply wp_get_or; [done|]. apply wp_bind, (wp_Stat pend); [done..|].
  intros s w1 E. case_match; exec_done; by rewrite E.
Qed.

Lemma Execute_ok pend t w :
  core_ok pend (w_st w) -> m_mountpoint (w_st w) = mnt -> t_typed t -> careful pend (w_st w) t ->
  wp (Execute env t) (exec_post pend t) w.
Proof.
  intros Hc Hm Hty Ht. destruct t; simpl Execute.
  - unfold exec_TVersion. case_match; exec_done.
  - unfold exec_TAuth, must_auth. wp_go. rewrite (co_auth _ _ Hc), andb_false_r. exec_done.
  - exec_done.
  - by apply exec_TAttach_ok.
  - by apply exec_TWalk_ok.
  - by apply exec_TOpen_ok.
  - by apply exec_TCreate_ok.
  - by apply exec_TRead_ok.
  - by apply exec_TWrite_ok.
  - by apply exec_TClunk_ok.
  - by apply exec_TRemove_ok.
  - by apply exec_TStat_ok.
  - exec_done.
Qed.

(** The objects that a response holds on to. *)
Definition held_objs (r : rbody) : list positive := match r with RWalk l => l | _ => [] end.

(** The parts of a response whose length is not fixed. *)
Definition r_typed (r : rbody) : Prop :=
  match r with
  | RError s | RVersion _ s => is_bytes s
  | RRead count d => is_bytes d /\ count = length d
  | _ => True
  end.

Definition response_ok pend c (r : option rbody) : Prop :=
  match r with
  | Some b => r_typed b /\ core_ok (pend ++ [held_objs b]) c
  | None => core_ok pend c
  end.

Lemma core_ok_requests pend c f : core_ok pend c -> core_ok pend (c <| m_request_map ::= f |>).
Proof. by intros []. Qed.

(** A response that holds no object. *)
Lemma core_ok_plain pend c : core_ok pend c -> core_ok (pend ++ [[]]) c.
Proof.
  intros Hc. apply core_ok_walk; [done|..].
  - intros p Hp. by inversion Hp.
  - constructor.
  - intros p Hp. by inversion Hp.
  - intros p _ Hp. by inversion Hp.
Qed.

Lemma Respond_ok pend t o w : t_typed t -> exec_post pend t (inr o) w ->
  wp (Respond t o) (fun r w' => w' = w /\ response_ok pend (w_st w) r) w.
Proof.
  intros Hty (Hp & Hm & Hb). destruct o as [|[i|]|l|d|n|s]; [| |done|destruct Hp as [Hw Hp]| | |].
  all: destruct t; try done; simpl; wp_go; split; try done; split; try done; by apply core_ok_plain.
Qed.

Lemma Process_wp pend t w :
  core_ok pend (w_st w) -> m_mountpoint (w_st w) = mnt -> t_typed (t_body t) -> careful pend (w_st w) (t_body t) ->
  wp (Process env t) (fun r w' => m_mountpoint (w_st w') = mnt /\
    response_ok pend (w_st w') (r_body <$> r) /\ (forall r', r = Some r' -> r_tag r' = t_tag t)) w.
Proof.
  intros Hc Hm Hty Ht. unfold Process, HasRequest. wp_go.
  apply (wp_mono _ (fun _ w1 => core_ok pend (w_st w1) /\ m_mountpoint (w_st w1) = mnt /\
    careful pend (w_st w1) (t_body t))).
  { case_bool_decide as Hr.
    - destruct Hr as [b Hb]. unfold CancelRequest. wp_go. eapply wp_get_or; [exact Hb|]. wp_go.
      split_and!; [by apply core_ok_requests|done|by destruct (t_body t)].
    - unfold RegisterRequest. wp_go. split_and!; [by apply core_ok_requests|done|by destruct (t_body t)]. }
  intros [] w1 (Hc1 & Hm1 & Ht1). apply wp_bind, (wp_mono _ (exec_post pend (t_body t))).
  { case_match; [by apply Execute_ok|]. exec_done. }
  intros r w2 Hx. apply wp_bind. eapply (wp_mono _ (fun r w' => m_mountpoint (w_st w') = mnt /\
    response_ok pend (w_st w') r)).
  { destruct r as [e|o].
    - wp_go. destruct Hx as (? & ? & ?). split; [done|]. split; [done|]. by apply core_ok_plain.
    - eapply wp_mono; [by apply Respond_ok|]. intros b w' (-> & ?). split; [apply Hx|done]. }
  intros b w3 [Hm3 Hb]. unfold UnregisterRequest. wp_go. split_and!; [done| |].
  - destruct b; simpl in *; [destruct Hb; split; [done|]|]; by apply core_ok_requests.
  - intros r' E. destruct b; [|done]. by injection E as <-.
Qed.
End Env.

(** ** Responses *)

Lemma core_ok_next l pend c : core_ok (l :: pend) c -> core_ok pend c.
Proof.
  intros []. destruct co_apart0 as (_ & _ & ?). constructor; try done.
  - intros p Hp. apply co_live0. simpl. apply elem_of_app. by right.
  - intros p Hp. apply co_inner0. simpl. apply elem_of_app. by right.
Qed.

(** The core without the objects of [l]. *)
Definition without (l : list positive) (c : P9Core) : P9Core := c <| p_heap ::= fun h => foldl (fun h p => delete p h) h l |>.

Lemma delete_all_ok pend l w :
  core_ok pend (w_st w) -> NoDup l ->
  (forall p, p ∈ l -> is_Some (p_heap (w_st w) !! p) /\ (p ∉ concat pend) /\
     fid_count (m_fid_map (w_st w)) p = 0%nat) ->
  wp (for_each l delete_obj) (fun _ w' => core_ok pend (w_st w') /\ w_st w' = without l (w_st w) /\
    w_trace w' = w_trace w) w.
Proof.
  revert w. induction l as [|p l IH]; intros w Hc Hnd Hl; cbn [for_each]; [wp_go; split_and!; [done| |done]; by destruct (w_st w)|].
  apply NoDup_cons in Hnd as [Hpl Hnd]. destruct (Hl p) as ([q Hq] & Hp & H0); [by left|].
  apply wp_bind. eapply wp_delete_obj; [exact Hq|]. eapply wp_mono; [apply IH|].
  - by apply core_ok_drop.
  - done.
  - intros p' Hp'. simpl. unfold set_field. rewrite lookup_delete_ne by (by intros ->). apply Hl. by right.
  - done.
Qed.

(** The inner objects of a walk belong to its response alone. *)
Lemma inner_alone l pend c p : core_ok (l :: pend) c -> p ∈ inner l ->
  is_Some (p_heap c !! p) /\ (forall fid, m_fid_map c !! fid <> Some p) /\ p ∉ concat pend.
Proof.
  intros Hc Hp. destruct Hc. destruct co_apart0 as (_ & Ha & _). split_and!; [| |by apply Ha].
  - apply co_live0. simpl. apply elem_of_app. left. by apply inner_sub.
  - apply fid_count_0, co_inner0. simpl. apply elem_of_app. by left.
Qed.

(** The destructor of the response that was sent. *)
Lemma delete_response_ok r pend w : core_ok (held_objs r :: pend) (w_st w) ->
  wp (delete_response r) (fun _ w' => core_ok pend (w_st w') /\ w_st w' = without (inner (held_objs r)) (w_st w) /\
    w_trace w' = w_trace w) w.
Proof.
  intros Hc. pose proof (core_ok_next _ _ _ Hc) as Hc'.
  assert (w_st w = without [] (w_st w)) as E0 by (by destruct (w_st w)).
  destruct r as [| | | | |qids| | | | | | |]; try (simpl; wp_go; by split_and!).
  cbn [delete_response held_objs]. destruct (Nat.ltb_spec 2 (length qids)) as [|Hle].
  2: { replace (inner qids) with (@nil positive); [wp_go; by split_and!|]. by destruct qids as [|? [|? [|? ?]]]; simpl in Hle; try lia. }
  eapply wp_mono; [apply (delete_all_ok pend); [done|apply (co_apart _ _ Hc)|]|done].
  intros p Hp. destruct (inner_alone _ _ _ _ Hc Hp) as (Hl & Hf & Ha). split_and!; [done|done|by apply fid_count_0].
Qed.
