(* ===== verification/P9Serve.v ===== *)
(** * P9Serve: the threads of the 9p device

    The bytes of a response and the buffer they are written to, and the
    invariant of the device under all interleavings of its threads with a
    careful client. *)

From S2P Require Import Prelude Effects Libc Wire Device Virtio VirtioExec P9Wire P9Core P9Dev P9Safe.

Implicit Types (w : p9_world) (d : P9FsDev) (b : VirtBuf).

(** ** The bytes of a response *)

Definition obj_qid (q : QidObject) : qid_t := MkQid (default 0 (q_type q)) (q_version q) (q_path q).
Definition heap_qids (heap : gmap positive QidObject) (l : list positive) : list qid_t :=
  omap (fun p => obj_qid <$> heap !! p) l.

Definition string_wire (s : bytes) : list bytes :=
  [le_bytes 2 (u16 (length s)); take (Z.to_nat (u16 (length s))) s].

(** What is written behind the header, one entry for each [WRITE]. *)
Definition body_wire (heap : gmap positive QidObject) (r : rbody) : list bytes :=
  match r with
  | RError error => string_wire error
  | RVersion msize version => le_bytes 4 msize :: string_wire version
  | RAuth q | RAttach q => [qid_bytes q]
  | RWalk qids => le_bytes 2 (length qids) :: (qid_bytes <$> heap_qids heap qids)
  | ROpen q iounit | RCreate q iounit => [qid_bytes q; le_bytes 4 iounit]
  | RRead count data => [le_bytes 4 count; take (Z.to_nat count) data]
  | RWrite count => [le_bytes 4 count]
  | RStat stat => [stat_bytes stat]
  | RFlush | RClunk | RRemove => []
  end.
Definition header_wire (r : rresponse) : list bytes :=
  [le_bytes 4 (SerializedSize r); le_bytes 1 (r_type (r_body r)); le_bytes 2 (r_tag r)].
Definition response_bytes (heap : gmap positive QidObject) (r : rresponse) : bytes :=
  concat (header_wire r ++ body_wire heap (r_body r)).

Lemma length_qid_bytes q : length (qid_bytes q) = 13%nat.
Proof. unfold qid_bytes. by rewrite !length_app, !length_le_bytes. Qed.

Lemma is_bytes_concat ls : Forall is_bytes ls -> is_bytes (concat ls).
Proof. induction 1; [constructor|]. simpl. apply Forall_app. by split. Qed.

Lemma is_bytes_qid q : is_bytes (qid_bytes q).
Proof. unfold qid_bytes. apply Forall_app; split; [|apply Forall_app; split]; apply le_bytes_is_bytes. Qed.

Lemma length_stat_bytes s : length (stat_bytes s) = 48%nat.
Proof.
  unfold stat_bytes. rewrite !length_blit; rewrite ?length_blit, ?length_le_bytes, ?length_qid_bytes; simpl; try lia.
Qed.

Lemma is_bytes_stat s : is_bytes (stat_bytes s).
Proof.
  unfold stat_bytes. apply is_bytes_blit; [|apply is_bytes_blit; [|apply is_bytes_blit|]|].
  all: try (apply le_bytes_is_bytes || apply is_bytes_qid).
  all: rewrite ?length_blit, ?length_le_bytes, ?length_qid_bytes; simpl; try lia.
  change (is_bytes (replicate 48 0)). apply Forall_replicate. unfold in_width. lia.
Qed.

Lemma string_wire_bytes s : is_bytes s -> Forall is_bytes (string_wire s).
Proof.
  intros Hs. apply Forall_cons_2; [apply le_bytes_is_bytes|]. apply Forall_cons_2; [by apply Forall_take|done].
Qed.

Lemma body_wire_bytes heap r : r_typed r -> Forall is_bytes (body_wire heap r).
Proof.
  intros Hr. destruct r; cbn [body_wire r_typed] in *; try by apply string_wire_bytes.
  all: repeat first [apply le_bytes_is_bytes | apply is_bytes_qid | apply is_bytes_stat | apply Forall_nil_2
                     | by apply string_wire_bytes | apply Forall_cons_2].
  - apply Forall_fmap, Forall_forall. intros q _. apply is_bytes_qid.
  - destruct Hr. by apply Forall_take.
Qed.

Lemma response_is_bytes heap r : r_typed (r_body r) -> is_bytes (response_bytes heap r).
Proof.
  intros Hr. apply is_bytes_concat, Forall_app. split; [|by apply body_wire_bytes].
  repeat (apply Forall_cons_2; [apply le_bytes_is_bytes|]). done.
Qed.

(** ** Writing to the guest *)

Definition store_at (a : Z) (bs : bytes) (d : P9FsDev) : P9FsDev :=
  d <| pd_base ::= fun v => v <| m_mem ::= fun m =>
    m <| m_memory ::= fun x => blit x (Z.to_nat a) bs |> |> |>.
Definition mem_size d : Z := length (m_memory (m_mem (pd_base d))).

Lemma blit_app m off x y : (off + length x + length y <= length m)%nat ->
  blit (blit m off x) (off + length x) y = blit m off (x ++ y).
Proof.
  intros Hl. apply list_eq. intros i. rewrite !blit_lookup; rewrite ?length_blit, ?length_app; try lia.
  repeat case_decide; try lia; try done.
  - rewrite lookup_app_r by lia. f_equal. lia.
  - by rewrite lookup_app_l by lia.
Qed.

Lemma blit_nil m off : blit m off [] = m.
Proof. unfold blit. simpl. by rewrite Nat.add_0_r, take_drop. Qed.

Lemma store_at_app a x y d : 0 <= a -> a + length x + length y <= mem_size d ->
  store_at (a + length x) y (store_at a x d) = store_at a (x ++ y) d.
Proof.
  intros Ha Hl. unfold mem_size in Hl. destruct d as [v ? ? ? ?]. destruct v. destruct m_mem. unfold store_at. simpl.
  unfold set_field. simpl in *. do 3 f_equal. rewrite <-blit_app by lia. f_equal. lia.
Qed.

Lemma mem_size_store a bs d : 0 <= a -> a + length bs <= mem_size d -> mem_size (store_at a bs d) = mem_size d.
Proof. intros Ha Hl. unfold mem_size, store_at in *. simpl. unfold set_field. rewrite length_blit; lia. Qed.

Lemma wp_WRITE data limit offset bs (Q : Z -> p9_world -> Prop) w :
  0 <= offset -> 0 <= data -> offset + length bs <= limit -> limit < 2 ^ 64 -> data + limit <= mem_size (w_st w) ->
  Q (offset + length bs) (w <| w_st ::= store_at (data + offset) bs |>) -> wp (WRITE data limit offset bs) Q w.
Proof.
  intros Ho Hd Hl Hl64 Hm HQ. unfold WRITE, mem_size in *.
  rewrite (wrap_small 64) by (unfold in_width; lia). rewrite (proj2 (Z.ltb_ge _ _)) by lia.
  unfold poke. wp_go. rewrite (proj2 (Z.leb_le _ _)) by lia. apply wp_zoom. wp_go. apply HQ.
Qed.

Lemma WRITE_throws data limit offset bs w :
  0 <= offset -> offset + length bs < 2 ^ 64 -> limit < offset + length bs -> faults (WRITE data limit offset bs) Thrown w.
Proof.
  intros Ho H64 Hl. unfold WRITE. rewrite (wrap_small 64) by (unfold in_width; lia).
  rewrite (proj2 (Z.ltb_lt _ _)) by lia. by eexists.
Qed.

(** A sequence of [WRITE]s. *)
Fixpoint write_all (data limit offset : Z) (ls : list bytes) : p9_prog Z :=
  match ls with
  | [] => mret offset
  | bs :: ls => offset ← WRITE data limit offset bs; write_all data limit offset ls
  end.

Lemma store_at_nil a d : store_at a [] d = d.
Proof.
  destruct d as [v ? ? ? ?]. destruct v. destruct m_mem. unfold store_at. simpl. unfold set_field. by rewrite blit_nil.
Qed.

Lemma store_world_nil a w : w <| w_st ::= store_at a [] |> = w.
Proof. destruct w. simpl. unfold set_field. by rewrite store_at_nil. Qed.

Lemma wp_write_all data limit ls : forall offset (Q : Z -> p9_world -> Prop) w,
  0 <= offset -> 0 <= data -> offset + length (concat ls) <= limit -> limit < 2 ^ 64 ->
  data + limit <= mem_size (w_st w) ->
  Q (offset + length (concat ls)) (w <| w_st ::= store_at (data + offset) (concat ls) |>) ->
  wp (write_all data limit offset ls) Q w.
Proof.
  induction ls as [|bs ls IH]; intros offset Q w Ho Hd Hl H64 Hm HQ; simpl in *.
  - wp_go. rewrite store_world_nil, Z.add_0_r in HQ. done.
  - rewrite length_app in *. apply wp_bind, wp_WRITE; [done..|lia|done|done|]. apply IH; try lia.
    + simpl. unfold set_field. rewrite mem_size_store; lia.
    + replace (offset + length bs + length (concat ls)) with (offset + (length bs + length (concat ls))%nat) by lia.
      destruct w as [st ? ?]. simpl in *. unfold set_field in *. simpl in *.
      rewrite Z.add_assoc, store_at_app by lia. done.
Qed.

Lemma write_all_throws data limit ls : forall offset w,
  0 <= offset <= limit -> 0 <= data -> limit < offset + length (concat ls) -> offset + length (concat ls) < 2 ^ 64 ->
  data + limit <= mem_size (w_st w) -> faults (write_all data limit offset ls) Thrown w.
Proof.
  induction ls as [|bs ls IH]; intros offset w Ho Hd Hl H64 Hm; simpl in *; [lia|]. rewrite length_app in *.
  destruct (decide (limit < offset + length bs)); [apply faults_first, WRITE_throws; lia|].
  apply faults_then, wp_WRITE; try lia. apply IH; try lia. simpl. unfold set_field. rewrite mem_size_store; lia.
Qed.

(** ** Serialisation *)

Lemma bind_ret {A} (m : p9_prog A) w : (x ← m; mret x) w = m w.
Proof. unfold mbind, prog_bind. by destruct (m w). Qed.

Lemma WRITE_core data limit offset bs n w w' : WRITE data limit offset bs w = Ret n w' -> m_core (w_st w') = m_core (w_st w).
Proof.
  unfold WRITE, poke, mbind, prog_bind, gets, p9_vdev, zoom, fail. repeat case_match; try discriminate.
  intros [= <- <-]. by simplify_eq.
Qed.

(** The objects of a response are alive and have a type. *)
Definition objs_ok (c : P9Core) (l : list positive) : Prop :=
  Forall (fun p => exists q, p_heap c !! p = Some q /\ is_Some (q_type q)) l.

Lemma write_qids_all data limit qids : forall offset w, objs_ok (m_core (w_st w)) qids ->
  write_qids data limit offset qids w =
  write_all data limit offset (qid_bytes <$> heap_qids (p_heap (m_core (w_st w))) qids) w.
Proof.
  induction qids as [|p qids IH]; intros offset w Ho; [done|]. apply Forall_cons in Ho as [(q & Hq & [t Ht]) Ho].
  unfold heap_qids. simpl. rewrite Hq. simpl. unfold mbind at 1, prog_bind at 1.
  assert (p9_core (Qid p) w = Ret (obj_qid q) w) as ->.
  { unfold p9_core, zoom, Qid, get_obj, mbind, prog_bind, gets, get_or. simpl. rewrite Hq. simpl. rewrite Ht. simpl.
    unfold obj_qid. rewrite Ht. simpl. destruct w as [[] ? ?]. done. }
  unfold mbind, prog_bind. destruct (WRITE _ _ _ _ w) as [n w'|] eqn:E; [|done]. pose proof (WRITE_core _ _ _ _ _ _ _ E) as Ec.
  rewrite <-Ec in Ho |- *. by apply IH.
Qed.

Lemma SerializeBodyTo_all data limit r w : objs_ok (m_core (w_st w)) (held_objs r) ->
  SerializeBodyTo data limit r w = write_all data limit 0 (body_wire (p_heap (m_core (w_st w))) r) w.
Proof.
  intros Ho. destruct r; cbn [SerializeBodyTo body_wire write_all string_wire]; unfold WRITESTR.
  all: try (symmetry; apply bind_ret).
  all: try (unfold mbind, prog_bind; repeat (destruct (WRITE _ _ _ _ _); try done); done).
  unfold mbind, prog_bind. destruct (WRITE _ _ _ _ w) as [n w'|] eqn:E; [|done]. pose proof (WRITE_core _ _ _ _ _ _ _ E) as Ec.
  simpl in Ho. rewrite <-Ec in Ho |- *. by apply write_qids_all.
Qed.

Lemma SerializeTo_header data limit r w :
  SerializeTo data limit r w =
  (offset ← write_all data limit 0 (header_wire r);
   n ← SerializeBodyTo (data + offset) (u64 (limit - offset)) (r_body r);
   mret (offset + n)) w.
Proof.
  unfold SerializeTo. cbn [header_wire write_all]. unfold mbind, prog_bind.
  repeat (destruct (WRITE _ _ _ _ _); try done).
Qed.

Lemma length_header r : length (concat (header_wire r)) = 7%nat.
Proof. done. Qed.

Lemma length_response heap r :
  length (response_bytes heap r) = (7 + length (concat (body_wire heap (r_body r))))%nat.
Proof. unfold response_bytes. by rewrite concat_app, length_app, length_header. Qed.

Lemma SerializeTo_wp data limit r (Q : Z -> p9_world -> Prop) w :
  let bs := response_bytes (p_heap (m_core (w_st w))) r in
  objs_ok (m_core (w_st w)) (held_objs (r_body r)) -> 0 <= data -> length bs <= limit -> limit < 2 ^ 64 ->
  data + limit <= mem_size (w_st w) ->
  Q (length bs) (w <| w_st ::= store_at data bs |>) -> wp (SerializeTo data limit r) Q w.
Proof.
  intros bs Ho Hd Hl H64 Hm HQ. unfold bs in *. rewrite length_response in *.
  unfold wp. rewrite SerializeTo_header. fold (wp (offset ← write_all data limit 0 (header_wire r);
    n ← SerializeBodyTo (data + offset) (u64 (limit - offset)) (r_body r); mret (offset + n)) Q w).
  apply wp_bind, wp_write_all; rewrite ?length_header; try lia. change (0 + Z.of_nat 7) with 7. rewrite Z.add_0_r.
  set (w1 := w <| w_st ::= _ |>).
  apply wp_bind. unfold wp at 1. rewrite SerializeBodyTo_all by exact Ho.
  change (p_heap (m_core (w_st w1))) with (p_heap (m_core (w_st w))).
  rewrite (wrap_small 64) by (unfold in_width; lia). 
  apply wp_write_all; try lia.
  - change (w_st w1) with (store_at data (concat (header_wire r)) (w_st w)).
    rewrite mem_size_store; rewrite ?length_header; lia.
  - wp_go. unfold response_bytes in HQ. rewrite concat_app, Nat2Z.inj_add in HQ. change (Z.of_nat 7) with 7 in HQ.
    set (body := concat (body_wire _ _)) in *. rewrite Z.add_0_l, Z.add_0_r.
    enough (w1 <| w_st ::= store_at (data + 7) body |> =
            w <| w_st ::= store_at data (concat (header_wire r) ++ body) |>) as -> by exact HQ.
    clearbody body. unfold w1. destruct w as [st tr h]. cbn [w_st] in *.
    change (@World dev_iface P9FsDev (store_at (data + 7) body (store_at data (concat (header_wire r)) st)) tr h =
            @World dev_iface P9FsDev (store_at data (concat (header_wire r) ++ body) st) tr h). f_equal.
    rewrite <-store_at_app by (rewrite ?length_header; lia). by rewrite length_header.
Qed.

Lemma SerializeTo_throws data limit r w :
  let bs := response_bytes (p_heap (m_core (w_st w))) r in
  objs_ok (m_core (w_st w)) (held_objs (r_body r)) -> 0 <= data -> 0 <= limit < length bs -> length bs < 2 ^ 64 ->
  data + limit <= mem_size (w_st w) -> faults (SerializeTo data limit r) Thrown w.
Proof.
  intros bs Ho Hd Hl H64 Hm. unfold bs in *. rewrite length_response in *.
  assert (faults (offset ← write_all data limit 0 (header_wire r);
    n ← SerializeBodyTo (data + offset) (u64 (limit - offset)) (r_body r); mret (offset + n)) Thrown w) as H.
  { destruct (decide (limit < 7)).
    - apply faults_first, write_all_throws; rewrite ?length_header; lia.
    - apply faults_then, wp_write_all; rewrite ?length_header; try lia. change (0 + Z.of_nat 7) with 7. rewrite Z.add_0_r.
      set (w1 := w <| w_st ::= _ |>). apply faults_first. unfold faults. rewrite SerializeBodyTo_all by exact Ho.
      rewrite (wrap_small 64) by (unfold in_width; lia). apply write_all_throws; try lia.
      + change (p_heap (m_core (w_st w1))) with (p_heap (m_core (w_st w))). lia.
      + change (p_heap (m_core (w_st w1))) with (p_heap (m_core (w_st w))). lia.
      + change (w_st w1) with (store_at data (concat (header_wire r)) (w_st w)).
    rewrite mem_size_store; rewrite ?length_header; lia. }
  destruct H as [w' E]. exists w'. by rewrite SerializeTo_header.
Qed.

(** ** The length field *)

Lemma string_wire_length s : length s < 2 ^ 16 -> length (concat (string_wire s)) = (2 + length s)%nat.
Proof.
  intros Hl. simpl. rewrite (wrap_small 16) by (unfold in_width; lia).
  rewrite !length_app, length_take. simpl. lia.
Qed.

Lemma length_qids_wire ids : length (concat (qid_bytes <$> ids)) = (13 * length ids)%nat.
Proof. induction ids as [|q ids IH]; [done|]. cbn [fmap list_fmap concat]. rewrite length_app, length_qid_bytes, IH. simpl. lia. Qed.

Lemma heap_qids_length c l : objs_ok c l -> length (heap_qids (p_heap c) l) = length l.
Proof.
  unfold heap_qids. induction 1 as [|p l (q & Hq & _) _ IH]; [done|]. cbn [omap list_omap]. rewrite Hq. simpl. by rewrite IH.
Qed.

(** The strings of a response fit their length field. *)
Definition short_strings (r : rbody) : Prop :=
  match r with RError s | RVersion _ s => length s < 2 ^ 16 | RRead _ d => length d < 2 ^ 31 | _ => True end.

Definition is_walk_response (r : rbody) : bool := match r with RWalk _ => true | _ => false end.

Lemma body_size heap r : r_typed r -> short_strings r -> is_walk_response r = false ->
  Z.of_nat (length (concat (body_wire heap r))) = SerializedBodySize r.
Proof.
  intros Ht Hs Hw. destruct r; try done; cbn [body_wire SerializedBodySize short_strings r_typed] in *.
  - rewrite string_wire_length by done. rewrite (wrap_small 32) by (unfold in_width; lia). lia.
  - cbn [concat]. rewrite length_app, length_le_bytes, string_wire_length by done.
    rewrite (wrap_small 32) by (unfold in_width; lia). lia.
  - destruct Ht as [_ ->]. cbn [concat]. rewrite !length_app, length_le_bytes, length_take, Nat2Z.id. cbn [length].
    rewrite (wrap_small 32) by (unfold in_width; lia). lia.
Qed.

(** ** The invariant of the device *)

(** The objects that the waiting responses hold on to. *)
Definition pending_of (rq : list rresponse) : list (list positive) := held_objs ∘ r_body <$> rq.

Record p9_ok (mnt : bytes) (d : P9FsDev) : Prop := {
  p9_base : vdev_ok (pd_base d);
  p9_start : m_mmio_start (pd_base d) = MMIO_START;
  p9_mnt : m_mountpoint (m_core d) = mnt;
  p9_objs : core_ok (pending_of (m_rresponse_queue d)) (m_core d);
  p9_responses : Forall (fun r => r_typed (r_body r)) (m_rresponse_queue d);
  p9_requests : Forall (fun t => t_typed (t_body t)) (m_trequest_queue d);
  p9_bufs : Forall (fun b => in_memory (m_mem (pd_base d)) (vb_guest_addr b) (vb_len b) /\ in_width 32 (vb_len b))
              (m_rmesgvbuf_queue d);
}.

Lemma wp_p9_get {A} (proj : P9FsDev -> list A) put x q (Q : A -> p9_world -> Prop) w :
  proj (w_st w) = x :: q -> Q x (w <| w_st ::= put q |>) -> wp (p9_get proj put) Q w.
Proof. intros E HQ. unfold p9_get. wp_go. rewrite E. by wp_go. Qed.

Section Env.
Context (env : dev_env) (mnt : bytes) (Henv : share_ok env mnt).

Lemma RequestLoop_step_ok t q w :
  p9_ok mnt (w_st w) -> m_trequest_queue (w_st w) = t :: q ->
  careful (pending_of (m_rresponse_queue (w_st w))) (m_core (w_st w)) (t_body t) ->
  wp (RequestLoop_step env) (fun _ w' => p9_ok mnt (w_st w') /\ m_trequest_queue (w_st w') = q /\
    exists r, m_rresponse_queue (w_st w') = m_rresponse_queue (w_st w) ++ option_list r /\
      forall r', r = Some r' -> r_tag r' = t_tag t) w.
Proof.
  intros [] Eq Ht. unfold RequestLoop_step. apply wp_bind. eapply wp_p9_get; [exact Eq|]. rewrite Eq in *. wp_go.
  apply Forall_cons in p9_requests0 as [Hty Hq].
  apply wp_zoom. eapply wp_mono; [by apply (Process_wp env mnt Henv (pending_of (m_rresponse_queue (w_st w))))|].
  intros r w' (Hm & Hr & Htag). destruct r as [r|]; wp_go; simpl in Hr.
  - destruct Hr as [Hrt Hc]. split_and!; [|done|by exists (Some r)]. constructor; try done; simpl; unfold set_field.
    + unfold pending_of. by rewrite fmap_app.
    + apply Forall_app. split; [done|]. by constructor.
  - split_and!; [by constructor|done|]. exists None. simpl. by rewrite app_nil_r.
Qed.

(** What the guest finds when a response was sent. *)
Definition sent (r : rresponse) (b : VirtBuf) (c : P9Core) (v : vdev) : vdev :=
  v <| m_mem := guest_store (m_mem v) (vb_guest_addr b) (response_bytes (p_heap c) r) |>.

Lemma core_objs_ok l pend c : core_ok (l :: pend) c -> objs_ok c l.
Proof.
  intros Hc. apply Forall_forall. intros p Hp.
  destruct (co_live _ _ Hc p) as [q Hq]; [simpl; apply elem_of_app; by left|].
  exists q. split; [done|]. apply (co_objs _ _ Hc _ _ Hq).
Qed.

Lemma store_at_guest b bs d : vdev_ok (pd_base d) -> in_memory (m_mem (pd_base d)) (vb_guest_addr b) (vb_len b) ->
  0 <= vb_len b ->
  store_at (host_addr (m_mem (pd_base d)) (vb_guest_addr b)) bs d =
  d <| pd_base ::= fun v => v <| m_mem := guest_store (m_mem v) (vb_guest_addr b) bs |> |>.
Proof.
  intros Hv Hin Hl. destruct (host_addr_in _ _ _ (vd_mem _ Hv) Hin Hl) as (E & _ & _). by unfold store_at; rewrite E.
Qed.

Lemma ResponseLoop_step_ok r rq b bq w :
  p9_ok mnt (w_st w) -> m_rresponse_queue (w_st w) = r :: rq -> m_rmesgvbuf_queue (w_st w) = b :: bq ->
  length (response_bytes (p_heap (m_core (w_st w))) r) <= vb_len b ->
  wp (ResponseLoop_step env) (fun _ w' => p9_ok mnt (w_st w') /\ m_rresponse_queue (w_st w') = rq /\
    m_rmesgvbuf_queue (w_st w') = bq /\ m_trequest_queue (w_st w') = m_trequest_queue (w_st w) /\
    m_core (w_st w') = without (inner (held_objs (r_body r))) (m_core (w_st w)) /\
    let v := sent r b (m_core (w_st w)) (pd_base (w_st w)) in
    let b' := b <| vb_nbytes_written := SerializedSize r |> in
    (returnable v VQ_RMESG /\ pd_base (w_st w') = returned VQ_RMESG b' v \/
     (~ returnable v VQ_RMESG /\ pd_base (w_st w') = v)) /\
    w_trace w' = w_trace w ++ [DWrite CHILD_DEVICE_IOAPIC_FD [P9FS_IRQ] : call dev_iface]) w.
Proof.
  intros Hok Er Eb Hfit. pose proof Hok as [Hv Hst Hm Hc Hrs Hts Hbs]. rewrite Er in Hc, Hrs. rewrite Eb in Hbs.
  apply Forall_cons in Hrs as [Hrt Hrs]. apply Forall_cons in Hbs as [[Hin Hw] Hbs].
  pose proof (host_addr_in _ _ _ (vd_mem _ Hv) Hin ltac:(apply Hw)) as (Eh & Hhi & Hlo).
  unfold ResponseLoop_step. apply wp_bind. eapply wp_p9_get; [exact Er|]. apply wp_bind. eapply wp_p9_get; [exact Eb|].
  unfold vb_host_addr. wp_go. rewrite Z.add_0_r. simpl m_mem. rewrite (u64_in _ _ _ (vd_mem _ Hv) Hin).
  set (bs := response_bytes (p_heap (m_core (w_st w))) r) in *.
  apply SerializeTo_wp; [by eapply core_objs_ok|done|done| |exact Hhi|].
  { destruct Hw. lia. }
  fold bs. set (w1 := _ <| w_st ::= store_at _ _ |>).
  set (v := sent r b (m_core (w_st w)) (pd_base (w_st w))).
  assert (pd_base (w_st w1) = v) as Ev.
  { pose proof (store_at_guest b bs (w_st w) Hv Hin ltac:(apply Hw)) as E. apply (f_equal pd_base) in E. exact E. }
  assert (vdev_ok v) as Hv1.
  { apply vdev_ok_store; [done| |by apply response_is_bytes]. destruct Hin. split; [done|]. fold bs. lia. }
  apply wp_bind, wp_zoom. eapply wp_mono; [by apply (delete_response_ok _ (pending_of rq))|].
  intros [] w2 (Hc2 & Es2 & Ht2). apply wp_bind, wp_zoom. set (w3 := unzoom _ _ _).
  change (zoom_world pd_base w3) with (@World dev_iface vdev (pd_base (w_st w1)) (w_trace w2) (w_held w2)). rewrite Ev.
  assert (forall v', vdev_ok v' -> fixed_part v' = fixed_part (pd_base (w_st w)) ->
    p9_ok mnt (w_st (unzoom p9_put_base w3 (@World dev_iface vdev v' (w_trace w2) (w_held w2))))) as Hfin.
  { intros v' Hv' Ef. injection Ef as E0 Es Ee. constructor; try done; simpl; unfold set_field; simpl.
    - congruence.
    - by rewrite Es2.
    - eapply Forall_impl; [exact Hbs|]. intros b' [Hb' ?]. split; [|done]. unfold in_memory in *. by rewrite Es, Ee. }
  apply put_buf_exec; [done..| |]; intros Hret; unfold send_irq; dev_go; apply wp_zoom; dev_go.
  - split_and!; [by apply Hfin|done|done|done|exact Es2| |].
    + by right.
    + simpl. by rewrite Ht2.
  - split_and!; [|done|done|done|exact Es2| |].
    + apply (Hfin (returned VQ_RMESG (b <| vb_nbytes_written := SerializedSize r |>) v)); [by apply vdev_ok_returned|done].
    + by left.
    + simpl. by rewrite Ht2.
Qed.
End Env.
