(* ===== verification/P9Parse.v ===== *)
(** * P9Parse: messages on the wire

    The encoding of 9p requests as a reference, and what the parser of the server
    makes of it; what the parser guarantees for arbitrary bytes. *)

From S2P Require Import Prelude Effects Libc Wire Device P9Wire P9Core P9Safe.

(** ** The encoding of requests *)

Definition enc_str (s : bytes) : bytes := le_bytes 2 (length s) ++ s.

Definition t_type (t : tbody) : Z :=
  match t with
  | TVersion _ _ => P9_TVERSION | TAuth _ _ _ => P9_TAUTH | TFlush _ => P9_TFLUSH
  | TAttach _ _ _ _ => P9_TATTACH | TWalk _ _ _ => P9_TWALK | TOpen _ _ => P9_TOPEN
  | TCreate _ _ _ _ => P9_TCREATE | TRead _ _ _ => P9_TREAD | TWrite _ _ _ _ => P9_TWRITE
  | TClunk _ => P9_TCLUNK | TRemove _ => P9_TREMOVE | TStat _ => P9_TSTAT | TWstat _ _ => P9_TWSTAT
  end.

Definition body_enc (t : tbody) : bytes :=
  match t with
  | TVersion msize version => le_bytes 4 msize ++ enc_str version
  | TAuth afid uname aname => le_bytes 4 afid ++ enc_str uname ++ enc_str aname
  | TFlush oldtag => le_bytes 4 oldtag
  | TAttach fid afid uname aname => le_bytes 4 fid ++ le_bytes 4 afid ++ enc_str uname ++ enc_str aname
  | TWalk fid newfid wnames =>
      le_bytes 4 fid ++ le_bytes 4 newfid ++ le_bytes 2 (length wnames) ++ concat (enc_str <$> wnames)
  | TOpen fid mode => le_bytes 4 fid ++ le_bytes 1 mode
  | TCreate fid name perm mode => le_bytes 4 fid ++ enc_str name ++ le_bytes 4 perm ++ le_bytes 1 mode
  | TRead fid offset count => le_bytes 4 fid ++ le_bytes 8 offset ++ le_bytes 4 count
  | TWrite fid offset count data => le_bytes 4 fid ++ le_bytes 8 offset ++ le_bytes 4 count ++ data
  | TClunk fid | TRemove fid | TStat fid => le_bytes 4 fid
  | TWstat fid stat => le_bytes 4 fid ++ le_bytes 2 (length stat) ++ stat
  end.

Definition msg_enc (t : trequest) : bytes :=
  le_bytes 1 (t_type (t_body t)) ++ le_bytes 2 (t_tag t) ++ body_enc (t_body t).

(** A request whose fields have their widths and whose strings can be sent. *)
Definition sendable_str (s : bytes) : Prop := length s < 2 ^ 16 /\ (0 ∉ s).
Definition sendable (t : tbody) : Prop :=
  match t with
  | TVersion msize version => in_width 32 msize /\ sendable_str version
  | TAuth afid uname aname => in_width 32 afid /\ sendable_str uname /\ sendable_str aname
  | TFlush oldtag => in_width 32 oldtag
  | TAttach fid afid uname aname => in_width 32 fid /\ in_width 32 afid /\ sendable_str uname /\ sendable_str aname
  | TWalk fid newfid wnames =>
      in_width 32 fid /\ in_width 32 newfid /\ length wnames < 2 ^ 16 /\ Forall sendable_str wnames
  | TOpen fid mode => in_width 32 fid /\ in_width 8 mode
  | TCreate fid name perm mode => in_width 32 fid /\ sendable_str name /\ in_width 32 perm /\ in_width 8 mode
  | TRead fid offset count => in_width 32 fid /\ in_width 64 offset /\ in_width 32 count
  | TWrite fid offset count data =>
      in_width 32 fid /\ in_width 64 offset /\ in_width 32 count /\ Z.of_nat (length data) = count
  | TClunk fid | TRemove fid | TStat fid => in_width 32 fid
  | TWstat fid stat => in_width 32 fid /\ length stat < 2 ^ 16
  end.

(** ** What arrives

    A string is sent without a terminator, and the server puts it into a block of
    its length: what it makes of it goes on with the memory behind the block, up
    to the first zero there. *)

Section Heard.
Context (env : dev_env).

Definition behind (trace : list dev_call) (n : nat) : option bytes := c_str (drop n (env trace (DNew n))).
Definition heard (s s' : bytes) : Prop := exists trace tail, behind trace (length s) = Some tail /\ s' = s ++ tail.

(** The request [t] as it arrives. *)
Definition received (t t' : tbody) : Prop :=
  match t with
  | TVersion msize version => exists v, t' = TVersion msize v /\ heard version v
  | TAuth afid uname aname => exists u a, t' = TAuth afid u a /\ heard uname u /\ heard aname a
  | TAttach fid afid uname aname => exists u a, t' = TAttach fid afid u a /\ heard uname u /\ heard aname a
  | TWalk fid newfid wnames => exists l, t' = TWalk fid newfid l /\ Forall2 heard wnames l
  | TCreate fid name perm mode => exists n, t' = TCreate fid n perm mode /\ heard name n
  | _ => t' = t
  end.

(** The strings of a request. *)
Definition strings_of (t : tbody) : list bytes :=
  match t with
  | TVersion _ version => [version]
  | TAuth _ uname aname | TAttach _ _ uname aname => [uname; aname]
  | TWalk _ _ wnames => wnames
  | TCreate _ name _ _ => [name]
  | _ => []
  end.

(** There is a zero somewhere behind every block of the string's length. *)
Definition terminated (s : bytes) : Prop := forall trace, is_Some (behind trace (length s)).

(** There is one right behind it. *)
Definition zero_ended (s : bytes) : Prop := forall trace, behind trace (length s) = Some [].

Lemma heard_exact s s' : zero_ended s -> heard s s' -> s' = s.
Proof. intros Hz (trace & tail & E & ->). rewrite Hz in E. injection E as <-. apply app_nil_r. Qed.

Lemma received_exact t t' : Forall zero_ended (strings_of t) -> received t t' -> t' = t.
Proof.
  intros Hz Hr. destruct t; simpl in *; repeat (apply Forall_cons in Hz as [? Hz]); destruct_and?; try done;
    repeat match goal with
    | H : exists _, _ |- _ => destruct H
    | H : _ /\ _ |- _ => destruct H
    | H : heard _ _ |- _ => apply heard_exact in H; [|done]
    end; subst; try done.
  f_equal. match goal with H : Forall2 _ _ _ |- _ => induction H as [|x y l l' Hxy _ IH] end; [done|].
  apply Forall_cons in Hz as [Hx Hz]. f_equal; [by apply heard_exact|by apply IH].
Qed.
End Heard.

(** ** Parsers that read exactly some bytes

    [parses ok m bs P]: where [bs] comes next, [m] reads it and returns something
    in [P], or it stops in a way that [ok] accepts. *)

Section Env.
Context (env : dev_env) (ok : fault -> bool).

Definition parses {A} (m : read_prog A) (bs : bytes) (P : A -> Prop) : Prop :=
  forall pre post n (w : dev_world reader) (Q : A -> dev_world reader -> Prop),
  w_st w = Reader (pre ++ bs ++ post) n (length pre) ->
  length bs <= n < 2 ^ 62 -> length (pre ++ bs ++ post) < 2 ^ 62 ->
  (forall a w', P a -> w_st w' = Reader (pre ++ bs ++ post) (n - length bs) (length pre + length bs)%nat -> Q a w') ->
  upto ok m Q w.

Lemma parses_ret {A} (a : A) (P : A -> Prop) : P a -> parses (mret a) [] P.
Proof.
  intros Ha pre post n w Q E Hn Hl HQ. apply wp_upto. wp_go. apply HQ; [done|]. rewrite E. simpl. by rewrite Z.sub_0_r, Nat.add_0_r.
Qed.

Lemma parses_bind {A B} (m : read_prog A) (k : A -> read_prog B) x y (P : A -> Prop) (R : B -> Prop) :
  parses m x P -> (forall a, P a -> parses (k a) y R) -> parses (m ≫= k) (x ++ y) R.
Proof.
  intros Hm Hk pre post n w Q E Hn Hl HQ. rewrite length_app in Hn. rewrite <-app_assoc in *.
  apply upto_bind, (Hm pre (y ++ post) n); [done|lia|done|]. intros a w1 Ha E1.
  apply (Hk a Ha (pre ++ x) post (n - length x)).
  - rewrite E1, <-app_assoc, length_app. f_equal.
  - lia.
  - by rewrite <-app_assoc.
  - intros b w2 Hb E2. apply HQ; [done|]. rewrite E2, <-app_assoc, !length_app. f_equal; lia.
Qed.

(** Nothing is left to read, and one way to go on. *)
Lemma parses_last {A B} (m : read_prog A) (k : A -> read_prog B) x (P : A -> Prop) (R : B -> Prop) :
  parses m x P -> (forall a, P a -> parses (k a) [] R) -> parses (m ≫= k) x R.
Proof. intros Hm Hk. rewrite <-(app_nil_r x). by eapply parses_bind. Qed.

Lemma parses_READ bs : parses (READ (length bs)) bs (eq bs).
Proof.
  intros pre post n w Q E Hn Hl HQ. apply wp_upto. unfold READ. wp_go. rewrite !length_app in *. rewrite E. cbn [rd_size rd_offset rd_body].
  rewrite (proj2 (Z.ltb_ge _ _)) by lia. rewrite (proj2 (Z.leb_le _ _)) by (rewrite !length_app; lia). wp_go.
  assert (load (pre ++ bs ++ post) (Z.to_nat (length pre)) (Z.to_nat (length bs)) = bs) as ->.
  { unfold load. rewrite !Nat2Z.id, drop_app_length. apply take_app_length. }
  apply HQ; [done|]. simpl. unfold set_field. rewrite E. simpl. f_equal; rewrite (wrap_small 64) by (unfold in_width; lia); lia.
Qed.

Lemma parses_READVAL (k : nat) v : in_width (8 * k) v -> parses (READVAL k) (le_bytes k v) (eq v).
Proof.
  intros Hv. unfold READVAL. apply (parses_last _ _ _ (eq (le_bytes k v))).
  - rewrite <-(length_le_bytes k v) at 1. apply parses_READ.
  - intros _ <-. rewrite le_val_bytes, wrap_small by done. by apply parses_ret.
Qed.

Lemma c_str_app s l : (0 ∉ s) -> c_str (s ++ l) = app s <$> c_str l.
Proof.
  induction s as [|x s IH]; intros Hs; [simpl; by destruct (c_str l)|]. simpl. rewrite (proj2 (Z.eqb_neq x 0)) by set_solver.
  rewrite IH by set_solver. by destruct (c_str l).
Qed.

Lemma parses_sys {A} (c : dev_call) (k : dev_reply c -> read_prog A) bs P :
  (forall r, (exists trace, r = env trace c) -> parses (k r) bs P) -> parses (r ← dos env c; k r) bs P.
Proof.
  intros Hk pre post n w Q E Hn Hl HQ. apply upto_bind, wp_upto. dev_step. eapply Hk; [by eexists|exact E|done..].
Qed.

(** A string without an end is read out of the block; [ok] accepts that, or it does not happen. *)
Definition readable (s : bytes) : Prop := ok OutOfBounds = true \/ terminated env s.

Lemma parses_READSTR s : sendable_str s -> readable s -> parses (READSTR env) (enc_str s) (heard env s).
Proof.
  intros [Hl H0] Hr. unfold READSTR, enc_str.
  eapply parses_bind; [apply parses_READVAL; unfold in_width; lia|]. intros _ <-.
  apply (parses_sys (DNew (length s))). intros mem [trace ->].
  eapply parses_last; [apply parses_READ|]. intros _ <-. rewrite c_str_app, Nat2Z.id by done. fold (behind env trace (length s)).
  destruct (behind env trace (length s)) as [tail|] eqn:Et.
  - eapply (parses_last (mret (s ++ tail)) _ [] (eq (s ++ tail))); [by apply parses_ret|]. intros _ <-.
    apply (parses_sys (DFree (length s))). intros _ _. apply parses_ret. by exists trace, tail.
  - intros pre post n w Q _ _ _ _. destruct Hr as [Hok|Ht]; [exact Hok|]. specialize (Ht trace). rewrite Et in Ht. by destruct Ht.
Qed.

Lemma parses_names l : Forall sendable_str l -> Forall readable l ->
  parses (read_names env (length l)) (concat (enc_str <$> l)) (Forall2 (heard env) l).
Proof.
  induction 1 as [|s l Hs _ IH]; intros Hr; [by apply parses_ret|]. apply Forall_cons in Hr as [Hr1 Hr].
  cbn [read_names length fmap list_fmap concat].
  eapply parses_bind; [by apply parses_READSTR|]. intros s' Hs'.
  eapply parses_last; [by apply IH|]. intros l' Hl'. apply parses_ret. by constructor.
Qed.

Ltac parse_go :=
  repeat lazymatch goal with
  | |- parses (READVAL _ ≫= _) _ _ => eapply parses_bind; [apply parses_READVAL; done|]; intros _ <-
  | |- parses (READSTR _ ≫= _) _ _ => eapply parses_bind; [by apply parses_READSTR|]; intros ? ?
  end.

(** Each request is read back from its encoding. *)
Lemma parse_body_enc t : sendable t -> Forall readable (strings_of t) ->
  exists m, parse_body env (t_type t) = Some m /\ parses m (body_enc t) (received env t).
Proof.
  intros Ht Hr. destruct t; eexists; (split; [reflexivity|]); simpl in Ht, Hr; rewrite <-(app_nil_r (body_enc _));
    cbn [body_enc]; rewrite <-?app_assoc;
    try unfold parse_TVersion; try unfold parse_TAuth; try unfold parse_TFlush; try unfold parse_TAttach;
    try unfold parse_TWalk; try unfold parse_TOpen; try unfold parse_TCreate; try unfold parse_TRead;
    try unfold parse_TWrite; try unfold parse_TClunk; try unfold parse_TRemove; try unfold parse_TStat;
    try unfold parse_TWstat; destruct_and?; rewrite ?Forall_cons in Hr; destruct_and?; parse_go; try (apply parses_ret; simpl; eauto).
  - eapply parses_bind; [apply parses_READVAL; unfold in_width; lia|]. intros _ <-. rewrite Nat2Z.id.
    eapply parses_bind; [by apply parses_names|]. intros l Hl. apply parses_ret. simpl. eauto.
  - apply (parses_sys (DNew count)). intros _ _. subst count.
    eapply parses_bind; [apply parses_READ|]. intros _ <-. by apply parses_ret.
  - eapply parses_bind; [apply parses_READVAL; unfold in_width; lia|]. intros _ <-.
    apply (parses_sys (DNew (length stat))). intros _ _.
    eapply parses_bind; [apply parses_READ|]. intros _ <-. by apply parses_ret.
Qed.

Lemma ToTRequest_enc {S} t post size (Q : option trequest -> dev_world S -> Prop) (w : dev_world S) :
  sendable (t_body t) -> Forall readable (strings_of (t_body t)) -> in_width 16 (t_tag t) ->
  length (body_enc (t_body t)) <= size < 2 ^ 62 -> length (msg_enc t ++ post) < 2 ^ 62 ->
  (forall t' w', received env (t_body t) t' -> w_st w' = w_st w -> Q (Some (TRequest (t_tag t) t')) w') ->
  upto ok (ToTRequest env (msg_enc t ++ post) size) Q w.
Proof.
  intros Ht Hr Htag Hs Hl HQ. destruct (parse_body_enc _ Ht Hr) as (m & Em & Hm). unfold ToTRequest.
  assert (znth (msg_enc t ++ post) 0 = Some (t_type (t_body t))) as E0 by (by destruct t as [? []]).
  apply upto_bind, wp_upto. eapply wp_get_or; [exact E0|]. rewrite Em. apply upto_bind, upto_zoom.
  assert (drop 3 (msg_enc t ++ post) = body_enc (t_body t) ++ post) as Ed by done. rewrite Ed.
  rewrite length_app in Hl. unfold msg_enc in Hl. rewrite !length_app, !length_le_bytes in Hl.
  apply (Hm [] post size); [done|done|rewrite app_nil_l, length_app; lia|]. intros t' w' Ht' _. apply wp_upto. wp_go.
  assert (field (msg_enc t ++ post) 1 2 = t_tag t) as ->.
  { unfold field, load. change (take 2 (drop 1 (msg_enc t ++ post))) with (le_bytes 2 (t_tag t)).
    rewrite le_val_bytes. by apply wrap_small. }
  by apply HQ.
Qed.
End Env.

(** ** Arbitrary bytes *)

Abbreviation whatever := (fun _ : fault => true).

Section Any.
Context (env : dev_env) (Hnew : forall trace n, is_bytes (env trace (DNew n))) (held : list dev_mutex).

Definition reads_bytes (w : dev_world reader) : Prop :=
  is_bytes (rd_body (w_st w)) /\ (w_held w : list dev_mutex) = held.

Lemma READ_any l (Q : bytes -> dev_world reader -> Prop) w :
  reads_bytes w -> (forall bs w', reads_bytes w' -> is_bytes bs -> (length bs <= Z.to_nat l)%nat -> Q bs w') ->
  upto whatever (READ l) Q w.
Proof.
  intros Hb HQ. unfold READ. apply upto_bind, wp_upto, wp_gets. case_match; [done|]. case_match; [|done].
  apply wp_upto. wp_go. destruct Hb. apply HQ; [done|by apply Forall_take, Forall_drop|].
  unfold load. rewrite length_take. lia.
Qed.

Lemma READVAL_any (n : nat) (Q : Z -> dev_world reader -> Prop) w :
  reads_bytes w -> (forall v w', reads_bytes w' -> in_width (8 * n) v -> Q v w') -> upto whatever (READVAL n) Q w.
Proof.
  intros Hb HQ. unfold READVAL. apply upto_bind, READ_any; [done|]. intros bs w' Hb' _ Hl.
  apply wp_upto, wp_ret, HQ; [done|]. eapply in_width_mono; [|apply le_val_range]. lia.
Qed.

Lemma c_str_bytes l s : is_bytes l -> c_str l = Some s -> is_bytes s.
Proof.
  intros Hl. revert s. induction Hl as [|x l Hx _ IH]; intros s E; [done|]. simpl in E.
  destruct (x =? 0); [injection E as <-; constructor|]. destruct (c_str l); [|done]. injection E as <-.
  constructor; [done|]. by apply IH.
Qed.

Lemma READSTR_any (Q : bytes -> dev_world reader -> Prop) w :
  reads_bytes w -> (forall s w', reads_bytes w' -> is_bytes s -> Q s w') -> upto whatever (READSTR env) Q w.
Proof.
  intros Hb HQ. unfold READSTR. apply upto_bind, READVAL_any; [done|]. intros l w1 Hb1 _.
  apply upto_bind, wp_upto. dev_step. apply upto_bind, READ_any; [exact Hb1|]. intros s w2 Hb2 Hs _. apply upto_bind.
  destruct (c_str _) as [str|] eqn:E; [|done]. apply wp_upto, wp_ret. apply upto_bind, wp_upto. dev_step.
  apply wp_upto, wp_ret, HQ; [done|]. eapply c_str_bytes; [|exact E]. apply Forall_app. split; [done|]. apply Forall_drop, Hnew.
Qed.

Lemma read_names_any n (Q : list bytes -> dev_world reader -> Prop) w :
  reads_bytes w -> (forall l w', reads_bytes w' -> Q l w') -> upto whatever (read_names env n) Q w.
Proof.
  revert Q w. induction n as [|n IH]; intros Q w Hb HQ; simpl; [apply wp_upto, wp_ret; auto|].
  apply upto_bind, READSTR_any; [done|]. intros s w1 Hb1 _. apply upto_bind, IH; [done|]. intros l w2 Hb2.
  apply wp_upto, wp_ret. auto.
Qed.

Ltac any_go :=
  repeat lazymatch goal with
  | |- upto _ (READVAL _ ≫= _) _ _ => apply upto_bind, READVAL_any; [done|intros ? ? ? ?]
  | |- upto _ (READSTR _ ≫= _) _ _ => apply upto_bind, READSTR_any; [done|intros ? ? ? ?]
  | |- upto _ (READ _ ≫= _) _ _ => apply upto_bind, READ_any; [done|intros ? ? ? ? ?]
  | |- upto _ (read_names _ _ ≫= _) _ _ => apply upto_bind, read_names_any; [done|intros ? ? ?]
  | |- upto _ (dos _ _ ≫= _) _ _ => apply upto_bind, wp_upto; dev_step
  | |- upto _ (mret _) _ _ => apply wp_upto, wp_ret
  end.

Ltac head_of m := lazymatch m with ?f _ => head_of f | _ => m end.

Lemma parse_body_typed type m w :
  parse_body env type = Some m -> reads_bytes w -> upto whatever m (fun t w' => t_typed t /\ reads_bytes w') w.
Proof.
  intros E Hb. unfold parse_body in E.
  repeat match type of E with (if ?b then _ else _) = _ => destruct b; [injection E as <-|] end; [..|done].
  all: repeat match goal with |- upto _ ?m _ _ => first [progress any_go | let h := head_of m in unfold h] end;
    simpl; try done.
  all: split; [|done]. all: first [match goal with H : in_width _ ?x |- in_width 32 ?x => exact H end | unfold in_width in *; lia].
Qed.

Lemma ToTRequest_typed {S} msg size (w : dev_world S) : is_bytes msg -> (w_held w : list dev_mutex) = held ->
  upto whatever (ToTRequest env msg size) (fun r w' => w_st w' = w_st w /\ w_held w' = w_held w /\
    forall t, r = Some t -> t_typed (t_body t)) w.
Proof.
  intros Hb Hh. unfold ToTRequest. apply upto_bind. destruct (znth msg 0) as [type|]; [|done]. apply wp_upto, wp_ret.
  destruct (parse_body env type) as [m|] eqn:E; [|by apply wp_upto, wp_ret].
  apply upto_bind, upto_zoom. eapply upto_mono; [eapply parse_body_typed; [exact E|]|].
  - split; [by apply Forall_drop|done].
  - intros t w' [Ht [_ Hh']]. apply wp_upto, wp_ret. split_and!; [done|simpl; congruence|]. by intros t' [= <-].
Qed.
End Any.
