(* ===== verification/P9Steps.v ===== *)
(** * P9Steps: the 9p device and its guest

    The device as a transition system: register accesses of the guest, the two
    threads of the server, and changes of the guest's memory, in any order.  Its
    invariant survives everything the guest sends as long as the process lives,
    and a careful guest meets no fault. *)

From S2P Require Import Prelude Effects Libc Wire Device Virtio VirtioExec VirtioSafe.
From S2P Require Import P9Wire P9Core P9Dev P9Safe P9Serve P9Parse.

Implicit Types (w : p9_world) (d : P9FsDev) (b : VirtBuf).

Lemma p9_ok_base mnt d v :
  p9_ok mnt d -> vdev_ok v -> fixed_part v = fixed_part (pd_base d) -> p9_ok mnt (p9_put_base v d).
Proof.
  intros [] Hv E. injection E as E1 E2 E3. constructor; try done; simpl; [congruence|].
  eapply Forall_impl; [done|]. intros b [Hb ?]. split; [|done]. unfold in_memory in *. by rewrite E2, E3.
Qed.

Lemma vdev_ok_config v f : vdev_ok v -> length (f (m_config_space v)) = length (m_config_space v) ->
  vdev_ok (v <| m_config_space ::= f |>).
Proof. intros [] E. constructor; try done. simpl. unfold set_field. by rewrite E. Qed.

(** The guest's processors write bytes to its memory. *)
Definition race_ok (race : nat -> list dev_call -> bytes -> bytes) : Prop := forall n trace m,
  is_bytes m -> length (race n trace m) = length m /\ is_bytes (race n trace m).

Section Env.
Context (env : dev_env) (mnt : bytes) (Henv : share_ok env mnt).
Context (race : nat -> list dev_call -> bytes -> bytes) (Hrace : race_ok race) (fuel : nat).

Definition p9_keeps w w' : Prop := p9_ok mnt (w_st w') /\ w_held w' = w_held w.

Lemma p9_keeps_trans w1 w2 w3 : p9_keeps w1 w2 -> p9_keeps w2 w3 -> p9_keeps w1 w3.
Proof. intros [_ H1] [H2 H3]. split; [done|]. by rewrite H3. Qed.

Lemma peek_any a n (Q : bytes -> p9_world -> Prop) w :
  p9_ok mnt (w_st w) -> (forall bs, is_bytes bs -> Q bs w) -> upto whatever (peek a n) Q w.
Proof.
  intros Hd HQ. unfold peek. apply upto_bind, wp_upto, wp_gets. case_match; [|done]. apply wp_upto, wp_ret, HQ.
  apply Forall_take, Forall_drop. apply (mm_bytes _ (vd_mem _ (p9_base _ _ Hd))).
Qed.

Lemma fetch_size_any n a (Q : Z -> p9_world -> Prop) w :
  p9_ok mnt (w_st w) -> (forall z w', p9_keeps w w' -> Q z w') -> upto whatever (fetch_size race n a) Q w.
Proof.
  intros Hd HQ. unfold fetch_size. apply upto_bind, wp_upto, wp_interfere.
  pose proof (vd_mem _ (p9_base _ _ Hd)) as Hm. destruct (Hrace n (w_trace w) _ (mm_bytes _ Hm)) as [Hl Hb].
  assert (p9_keeps w (w <| w_st ::= fun d => d <| pd_base ::= fun v => v <| m_mem ::= fun m =>
    m <| m_memory ::= race n (w_trace w) |> |> |> |>)) as Hk.
  { split; [|done]. apply (p9_ok_base mnt _ (set_memory (race n (w_trace w) (m_memory (m_mem (pd_base (w_st w)))))
      (pd_base (w_st w)))); [done|apply vdev_ok_memory; [apply Hd|done..]|done]. }
  apply upto_bind, peek_any; [apply Hk|]. intros bs _. by apply wp_upto, wp_ret, HQ.
Qed.

Lemma p9_ok_put_request d t :
  p9_ok mnt d -> t_typed (t_body t) -> p9_ok mnt (d <| m_trequest_queue ::= fun q => q ++ [t] |>).
Proof. intros [] Ht. constructor; try done. simpl. unfold set_field. apply Forall_app. split; [done|]. by apply Forall_singleton. Qed.

Lemma handleTMesg_any b w : p9_ok mnt (w_st w) ->
  upto whatever (handleTMesg env race b) (fun _ w' => p9_keeps w w') w.
Proof.
  intros Hd. unfold handleTMesg. case_match; [by apply wp_upto, wp_ret|].
  apply upto_bind, wp_upto. unfold vb_host_addr at 1. wp_go.
  apply upto_bind, fetch_size_any; [done|]. intros z0 w0 Hk0. case_match; [by apply wp_upto, wp_ret|].
  apply upto_bind, fetch_size_any; [apply Hk0|]. intros size w1 Hk1.
  apply upto_bind, wp_upto. dev_step. set (w2 := w1 <| w_trace := _ |>).
  assert (p9_keeps w1 w2) as Hk2 by (split; [apply Hk1|done]).
  pose proof (sh_new _ _ Henv (w_trace w1) size) as Hnew.
  apply upto_bind, wp_upto. unfold vb_host_addr. wp_go.
  apply upto_bind, fetch_size_any; [apply Hk2|]. intros size2 w3 Hk3.
  apply upto_bind, peek_any; [apply Hk3|]. intros data Hb. apply upto_bind. case_match; [done|].
  apply wp_upto, wp_ret. apply upto_bind, fetch_size_any; [apply Hk3|]. intros size3 w4 Hk4.
  apply upto_bind. eapply upto_mono; [eapply (ToTRequest_typed env (sh_new _ _ Henv)); [|reflexivity]|].
  { unfold blit. apply Forall_app. split; [by apply Forall_take, Forall_take|].
    apply Forall_app. split; [done|by apply Forall_drop, Forall_take]. }
  intros r w5 (E & Eh & Ht). assert (p9_keeps w w5) as Hk5.
  { do 4 (eapply p9_keeps_trans; [eassumption|]). split; [by rewrite E; apply Hk4|done]. }
  apply upto_bind. destruct r as [t|]; apply wp_upto; wp_go; apply wp_upto, wp_ret; [|done].
  destruct Hk5. split; [|done]. apply p9_ok_put_request; auto.
Qed.

Lemma p9_vdev_ok {A} (m : vprog A) (Q : A -> p9_world -> Prop) w :
  p9_ok mnt (w_st w) ->
  wp m (fun a (w' : vworld) => vdev_ok (w_st w') /\ fixed_part (w_st w') = fixed_part (pd_base (w_st w)) /\
          w_held w' = w_held w /\ (p9_keeps w (unzoom p9_put_base w w') -> Q a (unzoom p9_put_base w w')))
    (zoom_world pd_base w) ->
  wp (p9_vdev m) Q w.
Proof.
  intros Hd Hm. apply wp_zoom. eapply wp_mono; [exact Hm|]. intros a w' (Hv & Hf & Hh & HQ). apply HQ.
  split; [by apply p9_ok_base|done].
Qed.

(** A buffer of the guest that the device may use. *)
Definition vbuf_ok d b : Prop :=
  in_memory (m_mem (pd_base d)) (vb_guest_addr b) (vb_len b) /\ in_width 32 (vb_len b).

Lemma p9_get_buf i (Q : option VirtBuf -> p9_world -> Prop) w :
  p9_ok mnt (w_st w) -> 0 <= i -> Q None w -> (forall b w', p9_keeps w w' -> vbuf_ok (w_st w') b -> Q (Some b) w') ->
  wp (p9_vdev (get_buf env i)) Q w.
Proof.
  intros Hd Hi HN HS. pose proof (p9_base _ _ Hd) as Hv. apply p9_vdev_ok; [done|]. apply get_buf_exec; [done..| |].
  - intros _. split_and!; [done..|]. intros _. by destruct w as [[] ? ?].
  - intros Ho junk desc. pose proof Ho as (Hlt & _ & _ & _ & _ & Hin).
    split_and!; [by apply vdev_ok_consumed|done|done|]. intros Hk. apply HS; [done|].
    split; [exact Hin|]. apply (field_width _ 8 4). lia.
Qed.

Lemma p9_put_buf i b (Q : Z -> p9_world -> Prop) w :
  p9_ok mnt (w_st w) -> 0 <= i -> (forall r w', p9_keeps w w' -> Q r w') -> wp (p9_vdev (put_buf i b)) Q w.
Proof.
  intros Hd Hi HQ. pose proof (p9_base _ _ Hd) as Hv. apply p9_vdev_ok; [done|]. apply put_buf_exec; [done..| |].
  - intros _. split_and!; [done..|]. intros Hk. by apply HQ.
  - intros Hr. split_and!; [by apply vdev_ok_returned|done|done|]. intros Hk. by apply HQ.
Qed.

Lemma p9_ok_put_buf d b :
  p9_ok mnt d -> vbuf_ok d b -> p9_ok mnt (d <| m_rmesgvbuf_queue ::= fun q => q ++ [b] |>).
Proof. intros [] Ht. constructor; try done. simpl. unfold set_field. apply Forall_app. split; [done|]. by apply Forall_singleton. Qed.

Lemma p9_got_data_any i w : p9_ok mnt (w_st w) -> 0 <= i ->
  upto whatever (p9_got_data env race fuel i) (fun _ w' => p9_keeps w w') w.
Proof.
  intros Hd Hi. apply (upto_loop whatever (fun _ w' => p9_keeps w w')); [done| |by split]. clear Hd.
  intros ret w1 Hk1. apply upto_bind, wp_upto, p9_get_buf; [apply Hk1|done|by apply wp_upto, wp_ret|].
  intros b w2 Hk2 Hb. apply (p9_keeps_trans _ _ _ Hk1) in Hk2. apply upto_bind.
  apply (upto_mono _ _ (fun _ w' => p9_keeps w w' /\ (i <> VQ_TMESG -> w' = w2))).
  { destruct (Z.eqb_spec i VQ_TMESG) as [->|]; [|by apply wp_upto, wp_ret].
    apply upto_bind. eapply upto_mono; [apply handleTMesg_any, Hk2|]. intros ? w3 Hk3.
    apply wp_upto, p9_put_buf; [apply Hk3|done|]. intros r w4 Hk4. split; [|done].
    exact (p9_keeps_trans _ _ _ Hk2 (p9_keeps_trans _ _ _ Hk3 Hk4)). }
  intros ret' w3 [Hk3 E3]. apply upto_bind.
  apply (upto_mono _ _ (fun _ w' => p9_keeps w w')); [|intros ? w4 Hk4; by apply wp_upto, wp_ret].
  destruct (Z.eqb_spec i VQ_RMESG) as [->|]; apply wp_upto; wp_go; [|done].
  rewrite (E3 ltac:(done)). destruct Hk2. split; [by apply p9_ok_put_buf|done].
Qed.

(** The device class, whatever the guest sends. *)
Lemma P9FsDev_laws :
  VirtioLaws whatever P9FsDev (VirtioDevice0 := P9FsDev_virtio env race fuel) MMIO_START (fun _ => p9_ok mnt).
Proof.
  constructor.
  - done.
  - done.
  - intros _ d []. done.
  - intros _ v d Hd Hv E. by apply p9_ok_base.
  - done.
  - done.
  - intros i w Hi Hd _. apply p9_got_data_any; [done|apply Hi].
  - intros offset data size w Hd Hs H1 H2. pose proof (p9_base _ _ Hd) as Hv. apply wp_upto, p9_vdev_ok; [done|].
    pose proof (vd_config _ Hv) as Hc. pose proof (vd_config_size _ Hv) as Hcs.
    unfold base_config_space_write, wrap. wp_go. cbn [base P9FsDev_virtio] in H2.
    unfold CONFIG_SPACE_START, CONFIG_SPACE_MAX, sizeof_m_config_space in *. rewrite Z.mod_small by lia.
    rewrite (proj2 (Z.leb_le _ _)), (proj2 (Z.leb_le _ _)) by (simpl; lia). wp_go.
    split_and!; [|done|done|by intros Hk].
    apply vdev_ok_config; [done|]. rewrite length_blit; [done|]. rewrite length_take, length_le_bytes.
    change (m_config_space (w_st (zoom_world pd_base w))) with (m_config_space (pd_base (w_st w))). lia.
Qed.

(** ** The transition system *)

Definition p9_handle : mmio_request -> p9_prog Z :=
  handle_MMIO (T := P9FsDev) (VirtioDevice0 := P9FsDev_virtio env race fuel).

(** A response fits the buffer that it is written to. *)
Definition fits d (r : rresponse) b : Prop := length (response_bytes (p_heap (m_core d)) r) <= vb_len b.

Inductive p9_step : p9_world -> p9_world -> Prop :=
  | step_mmio mmio r w w' :
      mmio_in_range MMIO_START mmio -> w_held w = [] ->
      p9_handle mmio w = Ret r w' -> p9_step w w'
  | step_memory m' w :
      length m' = length (m_memory (m_mem (pd_base (w_st w)))) -> is_bytes m' ->
      p9_step w (w <| w_st ::= fun d => p9_put_base (set_memory m' (pd_base d)) d |>)
  | step_request t q w w' :
      m_trequest_queue (w_st w) = t :: q ->
      careful (pending_of (m_rresponse_queue (w_st w))) (m_core (w_st w)) (t_body t) ->
      RequestLoop_step env w = Ret tt w' -> p9_step w w'
  | step_response r rq b bq w w' :
      m_rresponse_queue (w_st w) = r :: rq -> m_rmesgvbuf_queue (w_st w) = b :: bq -> fits (w_st w) r b ->
      ResponseLoop_step env w = Ret tt w' -> p9_step w w'.

Lemma wp_run {I S A} (m : prog I S A) Q (w w' : world I S) a : wp m Q w -> m w = Ret a w' -> Q a w'.
Proof. unfold wp. intros H E. by rewrite E in H. Qed.
Lemma upto_run {I S A} ok (m : prog I S A) Q (w w' : world I S) a : upto ok m Q w -> m w = Ret a w' -> Q a w'.
Proof. unfold upto. intros H E. by rewrite E in H. Qed.

Lemma p9_step_ok w w' : p9_ok mnt (w_st w) -> p9_step w w' -> p9_ok mnt (w_st w').
Proof.
  intros Hd Hs. inversion Hs as [mmio r ? ? Hr Hl E|m' ? Hl Hb|t q ? ? Eq Hc E|r rq b bq ? ? Er Eb Hf E]; subst.
  - eapply (handle_MMIO_ok whatever P9FsDev MMIO_START (fun _ => p9_ok mnt) (VirtioLaws0 := P9FsDev_laws)) in Hr; [|done..].
    by apply (upto_run _ _ _ _ _ _ Hr E).
  - apply p9_ok_base; [done|apply vdev_ok_memory; [apply Hd|done..]|done].
  - pose proof (RequestLoop_step_ok env mnt Henv t q w Hd Eq Hc) as H. by apply (wp_run _ _ _ _ _ H E).
  - pose proof (ResponseLoop_step_ok env mnt r rq b bq w Hd Er Eb Hf) as H. by apply (wp_run _ _ _ _ _ H E).
Qed.

Lemma p9_reachable_ok w w' : p9_ok mnt (w_st w) -> rtc p9_step w w' -> p9_ok mnt (w_st w').
Proof. intros Hd Hr. induction Hr as [|w w1 w2 Hs _ IH]; [done|]. by eapply IH, p9_step_ok. Qed.
End Env.

(** ** The constructor *)

Lemma new_P9FsDev_ok {S} env raw_vendor memory (w : dev_world S) :
  is_bytes memory -> Z.of_nat (length memory) = HOST_SYS_MEM_SIZE ->
  upto whatever (new_P9FsDev env raw_vendor memory) (fun d _ => exists store name,
    let mnt := string_bytes store ++ string_bytes name ++ string_bytes "/9pshare" in
    p9_ok mnt d /\ m_core d = new_P9Core false (string_bytes "share") mnt) w.
Proof.
  intros Hb Hl. unfold new_P9FsDev. apply upto_bind, wp_upto. dev_step. apply upto_bind.
  destruct (env _ (DGetenv _)) as [store|]; [|done]. apply wp_upto, wp_ret. apply upto_bind, wp_upto. dev_step.
  apply upto_bind. destruct (env _ (DGetenv _)) as [name|]; [|done]. apply wp_upto, wp_ret.
  apply upto_bind, wp_upto. dev_step. apply upto_bind.
  eapply (upto_mono _ _ (fun _ _ => True)).
  { case_match; [by apply wp_upto, wp_ret|]. apply upto_bind, wp_upto. dev_step. case_match; [done|by apply wp_upto, wp_ret]. }
  intros [] w' _. apply wp_upto. dev_go. exists store, name. split; [|done]. constructor; try done.
  - constructor; try done. apply (Forall_replicate _ 2). constructor; simpl; try done; unfold in_width; try lia.
    repeat constructor; simpl; lia.
  - constructor; try done; try apply map_Forall_empty; intros p Hp; by inversion Hp.
Qed.

(** ** A message that stays as it is *)

Definition no_race : nat -> list dev_call -> bytes -> bytes := fun _ _ m => m.

Lemma wp_peek a n (Q : bytes -> p9_world -> Prop) w :
  a + n <= mem_size (w_st w) ->
  Q (load (m_memory (m_mem (pd_base (w_st w)))) (Z.to_nat a) (Z.to_nat n)) w -> wp (peek a n) Q w.
Proof. intros Hl HQ. unfold peek. wp_go. rewrite (proj2 (Z.leb_le _ _)) by done. by wp_go. Qed.

Lemma wp_fetch_stable n a (Q : Z -> p9_world -> Prop) w :
  a + 4 <= mem_size (w_st w) -> Q (le_val (load (m_memory (m_mem (pd_base (w_st w)))) (Z.to_nat a) 4)) w ->
  wp (fetch_size no_race n a) Q w.
Proof.
  intros Hl HQ. unfold fetch_size. apply wp_bind, wp_interfere.
  match goal with |- wp _ _ ?w' => assert (w' = w) as -> by (by destruct w as [[[]] ? ?]; destruct m_mem) end.
  apply wp_bind, wp_peek; [done|]. by wp_go.
Qed.

Lemma wp_vb_host_addr b off (Q : Z -> p9_world -> Prop) w :
  vdev_ok (pd_base (w_st w)) -> vbuf_ok (w_st w) b -> 0 <= off < vb_len b ->
  (let a := vb_guest_addr b - m_guest_start_paddr (m_mem (pd_base (w_st w))) in
   0 <= a -> a + vb_len b <= mem_size (w_st w) -> Q (a + off) w) ->
  wp (vb_host_addr b off) Q w.
Proof.
  intros Hv [[Ha Hb] Hl] Ho HQ. pose proof (vd_mem _ Hv) as Hm. destruct Hm. unfold vb_host_addr. wp_go.
  unfold host_addr, mem_size, wrap in *. rewrite !Z.mod_small by (rewrite ?Z.mod_small; lia).
  replace (vb_guest_addr b + off - m_guest_start_paddr (m_mem (pd_base (w_st w))))
    with (vb_guest_addr b - m_guest_start_paddr (m_mem (pd_base (w_st w))) + off) by lia.
  apply HQ; lia.
Qed.

(** The packet of a request, as a client puts it into its buffer. *)
Definition pkt_enc (t : trequest) : bytes := le_bytes 4 (4 + length (msg_enc t)) ++ msg_enc t.

Lemma load_app m off (x y : bytes) : load m off (length (x ++ y)) = x ++ y ->
  load m off (length x) = x /\ load m (off + length x) (length y) = y.
Proof.
  unfold load. rewrite length_app, <-take_take_drop, drop_drop. intros E.
  apply app_inj_1 in E; [by destruct E|]. apply (f_equal length) in E.
  rewrite !length_app, !length_take, !length_drop in E. rewrite length_take, length_drop. lia.
Qed.

(** [operator new] gives as many bytes as it was asked for. *)
Definition full_blocks (env : dev_env) : Prop := forall trace n, n <= length (env trace (DNew n)).

(** A read outside of mapped memory; and what holds for every kind of stop that
    takes care of a request's strings holds in general and, without faults, when
    they all end. *)
Definition reads_outside (f : fault) : bool := match f with OutOfBounds => true | _ => false end.
Lemma handled_as_sent {A} env (l : list bytes) (m : p9_prog A) Q w :
  (forall ok, Forall (readable env ok) l -> upto ok m Q w) ->
  (Forall (terminated env) l -> wp m Q w) /\ upto reads_outside m Q w.
Proof.
  intros H. split.
  - intros Hl. apply upto_wp, H. eapply Forall_impl; [exact Hl|]. intros s Hs. by right.
  - apply H, Forall_true. intros s. by left.
Qed.

Lemma handleTMesg_enc env ok b t w :
  full_blocks env -> Forall (readable env ok) (strings_of (t_body t)) -> vdev_ok (pd_base (w_st w)) -> vbuf_ok (w_st w) b ->
  sendable (t_body t) -> in_width 16 (t_tag t) -> length (pkt_enc t) <= vb_len b ->
  guest_bytes (m_mem (pd_base (w_st w))) (vb_guest_addr b) (length (pkt_enc t)) = pkt_enc t ->
  upto ok (handleTMesg env no_race b) (fun r w' => r = 0 /\ exists t', received env (t_body t) t' /\
    w_st w' = (w_st w) <| m_trequest_queue ::= fun q => q ++ [TRequest (t_tag t) t'] |>) w.
Proof.
  intros Hfull Hr Hv Hb Ht Htag Hl Hmem. pose proof Hb as [_ Hw]. unfold in_width in Hw.
  unfold guest_bytes in Hmem. rewrite Nat2Z.id in Hmem. apply load_app in Hmem as [Hsz Hmsg].
  rewrite length_le_bytes in Hsz, Hmsg. unfold pkt_enc in Hl. rewrite length_app, length_le_bytes in Hl.
  set (n := Z.of_nat (length (msg_enc t))) in *.
  assert (n = 3 + length (body_enc (t_body t))) as Hn by (unfold n, msg_enc; rewrite !length_app, !length_le_bytes; lia).
  assert (le_val (le_bytes 4 (4 + n)) = 4 + n) as Esz by (rewrite le_val_bytes; apply wrap_small; unfold in_width; lia).
  unfold handleTMesg, sizeof_p9_pkt. rewrite (proj2 (Z.ltb_ge _ _)) by lia.
  apply upto_bind, wp_upto, wp_vb_host_addr; [done..|lia|]. intros a Ha Hsize. rewrite Z.add_0_r. fold a in Hsz, Hmsg.
  apply upto_bind, wp_upto, wp_fetch_stable; [lia|]. rewrite Hsz, Esz, (proj2 (Z.ltb_ge _ _)) by lia.
  apply upto_bind, wp_upto, wp_fetch_stable; [lia|]. rewrite Hsz, Esz. apply upto_bind, wp_upto. dev_step.
  set (w1 := w <| w_trace := _ |>). pose proof (Hfull (w_trace w) (4 + n)) as Hraw.
  set (raw := env (w_trace w) (DNew (4 + n))) in *. cbv zeta.
  apply upto_bind, wp_upto, wp_vb_host_addr; [done..|lia|]. intros a1 _ _. subst a1. fold a.
  apply upto_bind, wp_upto, wp_fetch_stable; [change (mem_size (w_st w1)) with (mem_size (w_st w)); lia|].
  change (w_st w1) with (w_st w). rewrite Hsz, Esz. replace (4 + n - 4) with n by lia. rewrite (wrap_small 32) by (unfold in_width; lia).
  apply upto_bind, wp_upto, wp_peek; [change (mem_size (w_st w1)) with (mem_size (w_st w)); lia|].
  change (w_st w1) with (w_st w). fold a.
  assert (load (m_memory (m_mem (pd_base (w_st w)))) (Z.to_nat (a + 4)) (Z.to_nat n) = msg_enc t) as ->.
  { rewrite <-Hmsg. f_equal; unfold n; lia. }
  rewrite (proj2 (Z.ltb_ge _ _)) by (rewrite length_take; lia). apply upto_bind, wp_upto, wp_ret, upto_bind, wp_upto.
  apply wp_fetch_stable; [change (mem_size (w_st w1)) with (mem_size (w_st w)); lia|].
  change (w_st w1) with (w_st w). rewrite Hsz, Esz. apply upto_bind.
  assert (blit (take (Z.to_nat (4 + n)) raw) 0 (msg_enc t) =
          msg_enc t ++ drop (length (msg_enc t)) (take (Z.to_nat (4 + n)) raw)) as -> by done.
  apply ToTRequest_enc; [done..| | |].
  - lia.
  - rewrite length_app, length_drop, length_take. lia.
  - intros t' w2 Ht' E2. apply wp_upto. wp_go. split; [done|]. exists t'. split; [done|]. simpl. unfold set_field. rewrite E2. done.
Qed.

