(* ===== verification/P9Path.v ===== *)
(** * P9Path: the 9p server stays inside its share

    The lexical meaning of a path, and that every object of the server and every
    call to the file system stays below the shared directory, if that directory
    is named by a canonical path and the share has no symbolic links. *)

From S2P Require Import Prelude Effects Libc Wire Device P9Wire P9Core.

Implicit Types (c : P9Core) (w : core_world) (p : positive) (q : QidObject).

(** ** Paths *)

Definition sep : Z := 47.
Definition dot : bytes := string_bytes ".".

Fixpoint split_slash (l : bytes) : list bytes :=
  match l with
  | [] => [[]]
  | x :: l =>
      if x =? sep then [] :: split_slash l
      else match split_slash l with
           | [] => [[x]]
           | s :: ss => (x :: s) :: ss
           end
  end.

(** The stack of directory names, innermost first, after one more component. *)
Definition enter (st : list bytes) (s : bytes) : list bytes :=
  if bool_decide (s = []) || bool_decide (s = dot) then st
  else if bool_decide (s = dotdot) then tail st
  else s :: st.
Definition render (names : list bytes) : bytes := concat ((fun s => sep :: s) <$> names).

(** The path without empty components, [.] and [..]. *)
Definition canon (path : bytes) : bytes := render (rev (foldl enter [] (split_slash path))).

Definition plain (s : bytes) : Prop := s <> [] /\ s <> dot /\ s <> dotdot /\ (sep ∉ s).

Lemma split_slash_app a b : split_slash (a ++ sep :: b) = split_slash a ++ split_slash b.
Proof.
  induction a as [|x a IH]; [done|]. simpl. rewrite IH. destruct (x =? sep); [done|].
  destruct (split_slash a) as [|s ss] eqn:E; [|done].
  exfalso. clear IH. destruct a as [|y a]; [done|]. simpl in E. repeat case_match; done.
Qed.

Lemma split_slash_one s : sep ∉ s -> split_slash s = [s].
Proof.
  induction s as [|x s IH]; intros Hs; [done|]. simpl. rewrite (proj2 (Z.eqb_neq x sep)) by set_solver.
  rewrite IH by set_solver. done.
Qed.

Lemma split_render names : Forall (fun s => sep ∉ s) names -> split_slash (render names) = [] :: names.
Proof.
  induction names as [|s names IH] using rev_ind; intros Hn; [done|]. apply Forall_app in Hn as [Hn Hs].
  rewrite Forall_singleton in Hs. unfold render. rewrite fmap_app, concat_app. cbn [fmap list_fmap concat].
  rewrite app_nil_r, split_slash_app. fold (render names). rewrite (IH Hn), (split_slash_one _ Hs). done.
Qed.

Lemma enter_plain st s : plain s -> enter st s = s :: st.
Proof. intros (H1 & H2 & H3 & _). unfold enter. rewrite !bool_decide_eq_false_2 by done. done. Qed.

Lemma enter_names st names : Forall plain names -> foldl enter st names = rev names ++ st.
Proof.
  revert st. induction names as [|s names IH]; intros st Hn; [done|]. apply Forall_cons in Hn as [Hs Hn].
  simpl. rewrite enter_plain, IH by done. by rewrite <-app_assoc.
Qed.

Lemma plain_no_sep names : Forall plain names -> Forall (fun s => sep ∉ s) names.
Proof. intros Hn. eapply Forall_impl; [exact Hn|]. by intros s (_ & _ & _ & ?). Qed.

Lemma canon_render names : Forall plain names -> canon (render names) = render names.
Proof.
  intros Hn. unfold canon. rewrite split_render by by apply plain_no_sep. simpl.
  rewrite enter_names, app_nil_r, rev_involutive by done. done.
Qed.

(** One more component behind a canonical path. *)
Lemma canon_child names s : Forall plain names -> sep ∉ s ->
  canon (render names ++ slash ++ s) = render (rev (enter (rev names) s)).
Proof.
  intros Hn Hs. unfold canon. change (render names ++ slash ++ s) with (render names ++ sep :: s).
  rewrite split_slash_app, split_render, split_slash_one, foldl_app by (done || by apply plain_no_sep).
  simpl. by rewrite enter_names, app_nil_r.
Qed.

Lemma legal_no_sep s : LegalName s = true -> sep ∉ s.
Proof.
  intros H Hs. unfold LegalName in H. rewrite forallb_forall in H. apply list_elem_of_In in Hs.
  specialize (H _ Hs). apply bool_decide_eq_true in H. revert H. apply (bool_decide_unpack _). vm_compute. exact I.
Qed.

(** [path] is the directory [root] or lies in it, without detours. *)
Definition below (root path : bytes) : Prop :=
  exists names more, Forall plain names /\ names <> [] /\ Forall plain more /\
    root = render names /\ path = render (names ++ more).

(** The path of an existing directory inside, and one legal name. *)
Definition child_of (root path : bytes) : Prop :=
  exists dir s, below root dir /\ LegalName s = true /\ path = dir ++ slash ++ s.

Lemma render_app a b : render (a ++ b) = render a ++ render b.
Proof. unfold render. by rewrite fmap_app, concat_app. Qed.

Lemma render_nil a : render a = [] -> a = [].
Proof. destruct a; [done|discriminate]. Qed.

(** A step from a directory inside, as [realpath] resolves it. *)
Lemma canon_below root dir s : below root dir -> LegalName s = true -> (dir = root -> s <> dotdot) ->
  below root (canon (dir ++ slash ++ s)).
Proof.
  intros (names & more & Hn & Hne & Hm & -> & ->) Hl Hr. pose proof (legal_no_sep _ Hl) as Hs.
  rewrite canon_child by (by apply Forall_app || done).
  unfold enter. destruct (bool_decide (s = []) || bool_decide (s = dot)) eqn:E1.
  { rewrite rev_involutive. by exists names, more. }
  apply orb_false_iff in E1 as [E1%bool_decide_eq_false E2%bool_decide_eq_false].
  case_bool_decide as E3.
  - destruct more as [|x more _] using rev_ind; [exfalso; apply Hr; [by rewrite app_nil_r|done]|].
    rewrite app_assoc, rev_unit. cbn [tail]. rewrite rev_involutive. apply Forall_app in Hm as [Hm _].
    by exists names, more.
  - cbn [rev]. rewrite rev_involutive, <-app_assoc. exists names, (more ++ [s]). split_and!; try done.
    apply Forall_app. split; [done|]. by apply Forall_singleton.
Qed.

Lemma canon_root root : below root root -> canon root = root.
Proof. intros (names & more & Hn & _ & _ & -> & _). by apply canon_render. Qed.

Lemma below_root root path : below root path -> below root root.
Proof. intros (names & more & ? & ? & _ & -> & _). exists names, []. rewrite app_nil_r. by split_and!. Qed.

(** ** The server *)

(** The calls that reach the file system. *)
Definition ok_call (root : bytes) (x : dev_call) : Prop :=
  match x with
  | DStat path | DUnlinkFile path => below root path
  | DOpenFile path flags _ => below root path \/ (flags = O_CREAT_EXCL /\ child_of root path)
  | DMkdir path _ => child_of root path
  | DRealpath path => below root path \/ child_of root path
  | _ => True
  end.

Definition confined (root : bytes) w : Prop :=
  m_mountpoint (w_st w) = root /\ below root root /\
  map_Forall (fun _ q => q_root q = root /\ below root (q_fspath q)) (p_heap (w_st w)) /\
  Forall (ok_call root) (w_trace w : list dev_call).

(** [realpath] where no name is a symbolic link. *)
Definition no_symlinks (env : dev_env) : Prop :=
  forall trace path resolved, env trace (DRealpath path) = Some resolved -> resolved = canon path.

Section Confined.
Context (env : dev_env) (Hlinks : no_symlinks env) (root : bytes).

(** [m] keeps the server confined, up to the fault if it has one. *)
Definition tame {A} (m : core_prog A) : Prop :=
  forall w, confined root w -> match m w with Ret _ w' => confined root w' | Fault _ w' => confined root w' end.

Lemma tame_ret {A} (a : A) : tame (mret a).
Proof. by intros w Hw. Qed.
Lemma tame_fail {A} f : tame (fail f : core_prog A).
Proof. by intros w Hw. Qed.
Lemma tame_bind {A B} (m : core_prog A) (k : A -> core_prog B) : tame m -> (forall a, tame (k a)) -> tame (m ≫= k).
Proof.
  intros Hm Hk w Hw. specialize (Hm w Hw). unfold mbind, prog_bind. destruct (m w) as [a w'|]; [|done]. by apply Hk.
Qed.
Lemma tame_gets {A} (f : P9Core -> A) : tame (gets f).
Proof. by intros w Hw. Qed.
Lemma tame_get_or {A} f (o : option A) : tame (get_or f o).
Proof. by destruct o; intros w Hw. Qed.

(** A change of the maps of fids and requests. *)
Lemma tame_modify f : (forall c, m_mountpoint (f c) = m_mountpoint c /\ p_heap (f c) = p_heap c) -> tame (modify f).
Proof.
  intros Hf w (H1 & H2 & H3 & H4). destruct (Hf (w_st w)) as [E1 E2]. unfold confined. simpl. unfold set_field.
  by rewrite E1, E2.
Qed.

Lemma tame_dos (x : dev_call) : ok_call root x -> tame (dos env x).
Proof. intros Hx w (H1 & H2 & H3 & H4). split_and!; try done. apply Forall_app. split; [done|]. by apply Forall_singleton. Qed.

Lemma tame_get_obj {A} p (k : QidObject -> core_prog A) :
  (forall q, q_root q = root -> below root (q_fspath q) -> tame (k q)) -> tame (q ← get_obj p; k q).
Proof.
  intros Hk w Hw. unfold get_obj, mbind, prog_bind, gets. destruct (p_heap (w_st w) !! p) as [q|] eqn:E; [|done].
  simpl. destruct Hw as (H1 & H2 & H3 & H4). destruct (H3 _ _ E). by apply Hk.
Qed.

Lemma tame_set_obj p f : (forall q, q_fspath (f q) = q_fspath q /\ q_root (f q) = q_root q) -> tame (set_obj p f).
Proof.
  intros Hf. apply tame_get_obj. intros _ _ _ w (H1 & H2 & H3 & H4). split_and!; try done.
  simpl. unfold set_field. intros i q Hq. destruct (decide (i = p)) as [->|].
  - rewrite lookup_alter_eq in Hq. apply fmap_Some in Hq as (q0 & Hq & ->). destruct (Hf q0) as [-> ->]. by apply (H3 p).
  - rewrite lookup_alter_ne in Hq by done. by apply (H3 i).
Qed.

Lemma tame_delete_obj p : tame (delete_obj p).
Proof.
  apply tame_get_obj. intros _ _ _ w (H1 & H2 & H3 & H4). split_and!; try done.
  simpl. unfold set_field. intros i q Hq. apply lookup_delete_Some in Hq as [_ Hq]. by apply (H3 i).
Qed.

Lemma tame_new_QidObject path : below root path -> tame (new_QidObject env path root).
Proof.
  intros Hp. unfold new_QidObject. apply tame_bind; [by apply tame_dos|]. intros [[mode size]|]; [|apply tame_ret].
  apply tame_bind; [apply tame_gets|]. intros c. apply tame_bind; [|intros; apply tame_ret].
  intros w (H1 & H2 & H3 & H4). split_and!; try done. simpl. unfold set_field.
  by apply map_Forall_insert_2.
Qed.

Create HintDb tame.
#[local] Hint Resolve tame_ret tame_fail tame_gets tame_get_or tame_delete_obj : tame.

(** Decomposes a program; calls and new objects need a reason. *)
Ltac tame_go :=
  repeat first
    [ solve [auto with tame]
    | lazymatch goal with
      | |- tame (get_obj _ ≫= _) => apply tame_get_obj; intros ? ? ?
      | |- tame (_ ≫= _) => apply tame_bind; [|intros ?]
      | |- tame (set_obj _ _) => apply tame_set_obj; done
      | |- tame (modify _) => apply tame_modify; done
      | |- tame (match ?x with _ => _ end) => destruct x
      end ].

Lemma tame_IncRef p : tame (IncRef p).
Proof. unfold IncRef. tame_go. Qed.
Lemma tame_DecRef p : tame (DecRef p).
Proof. unfold DecRef. tame_go. Qed.
#[local] Hint Resolve tame_IncRef tame_DecRef : tame.

Lemma tame_Qid p : tame (Qid p).
Proof. unfold Qid. tame_go. Qed.
Lemma tame_Type p : tame (Type_of p).
Proof. unfold Type_of. tame_go. Qed.
Lemma tame_Opened p : tame (Opened p).
Proof. unfold Opened. tame_go. Qed.
Lemma tame_Open p mode : tame (Open env p mode).
Proof. unfold Open. tame_go. apply tame_dos. by left. Qed.
Lemma tame_Close p : tame (Close env p).
Proof. unfold Close. tame_go. by apply tame_dos. Qed.
Lemma tame_Read p offset count : tame (Read env p offset count).
Proof. unfold Read. tame_go. all: by apply tame_dos. Qed.
Lemma tame_Write p offset data count : tame (Write env p offset data count).
Proof. unfold Write. tame_go. all: by apply tame_dos. Qed.
#[local] Hint Resolve tame_Qid tame_Type tame_Opened tame_Open tame_Close tame_Read tame_Write : tame.
Lemma tame_Stat p : tame (Stat env p).
Proof. unfold Stat. tame_go. by apply tame_dos. Qed.
Lemma tame_Remove p : tame (Remove env p).
Proof. unfold Remove. tame_go. by apply tame_dos. Qed.
#[local] Hint Resolve tame_Stat tame_Remove : tame.

Lemma tame_realpath {A} path (k : option bytes -> core_prog A) :
  below root path \/ child_of root path -> tame (k None) -> tame (k (Some (canon path))) ->
  tame (r ← dos env (DRealpath path); k r).
Proof.
  intros Hp HN HS w Hw. pose proof (tame_dos (DRealpath path) Hp w Hw) as Hw'. unfold mbind, prog_bind.
  change (dos env (DRealpath path) w) with
    (Ret (env (w_trace w) (DRealpath path)) (w <| w_trace := w_trace w ++ [DRealpath path : call dev_iface] |>)).
  change (dos env (DRealpath path) w) with
    (Ret (env (w_trace w) (DRealpath path)) (w <| w_trace := w_trace w ++ [DRealpath path : call dev_iface] |>)) in Hw'.
  destruct (env (w_trace w) (DRealpath path)) as [r|] eqn:E; [|by apply HN].
  rewrite (Hlinks _ _ _ E). by apply HS.
Qed.

Lemma tame_Traverse p s : LegalName s = true -> tame (Traverse env p s).
Proof.
  intros Hs. unfold Traverse. apply tame_get_obj. intros q Hr Hb. rewrite Hr. unfold IsRoot. rewrite Hr.
  destruct (bool_decide (q_fspath q = root) && bool_decide (s = dotdot)) eqn:E.
  - apply andb_true_iff in E as [E%bool_decide_eq_true _]. rewrite E in *.
    apply tame_realpath; [by left|apply tame_ret|]. rewrite canon_root by done. by apply tame_new_QidObject.
  - apply andb_false_iff in E. apply tame_realpath; [right; by exists (q_fspath q), s|apply tame_ret|].
    apply tame_new_QidObject, canon_below; [done..|]. intros E1 E2. rewrite !bool_decide_eq_false in E. tauto.
Qed.

Lemma tame_CreateChild p s perm : LegalName s = true -> tame (CreateChild env p s perm).
Proof.
  intros Hs. unfold CreateChild. apply tame_get_obj. intros q Hr Hb.
  assert (child_of root (q_fspath q ++ slash ++ s)) as Hc by by exists (q_fspath q), s.
  tame_go; try by apply tame_dos.
  - apply tame_dos. by right.
  - by apply tame_Traverse.
Qed.

Lemma tame_walk_names p names : forallb LegalName names = true -> tame (walk_names env p names).
Proof.
  revert p. induction names as [|s names IH]; intros p Hn; simpl; [apply tame_ret|].
  simpl in Hn. apply andb_true_iff in Hn as [Hs Hn]. apply tame_bind; [by apply tame_Traverse|].
  intros [next|]; [|apply tame_ret]. apply tame_bind; [by apply IH|]. intros; apply tame_ret.
Qed.

Lemma tame_BindFid fid p : tame (BindFid fid p).
Proof. unfold BindFid. tame_go. Qed.
Lemma tame_RemoveFid fid : tame (RemoveFid fid).
Proof. unfold RemoveFid. tame_go. Qed.
Lemma tame_GetFid fid : tame (GetFid fid).
Proof. unfold GetFid. tame_go. Qed.
Lemma tame_errored {A} s : tame (errored s : core_prog (bytes + A)).
Proof. apply tame_ret. Qed.
Lemma tame_done o : tame (done_with o).
Proof. apply tame_ret. Qed.
#[local] Hint Resolve tame_BindFid tame_RemoveFid tame_GetFid tame_errored tame_done : tame.

Lemma tame_Attach point : tame (Attach env point).
Proof.
  unfold Attach. intros w Hw. pose proof Hw as (E & Hb & _). unfold mbind, prog_bind, gets. rewrite E.
  pose proof (tame_new_QidObject root Hb w Hw) as H. destruct (new_QidObject env root root w) as [r w'|]; [|done].
  by destruct r.
Qed.
#[local] Hint Resolve tame_Attach : tame.

Lemma tame_Execute t : Valid t = true -> tame (Execute env t).
Proof.
  intros Hv. destruct t; cbn [Execute Valid] in *; tame_go.
  all: unfold exec_TVersion, exec_TAuth, exec_TAttach, exec_TWalk, exec_TOpen, exec_TCreate, exec_TRead, exec_TWrite,
    exec_TClunk, exec_TRemove, exec_TStat, must_auth, Serving; tame_go.
  - by apply tame_walk_names.
  - by apply tame_CreateChild.
Qed.

Lemma tame_Process t : tame (Process env t).
Proof.
  unfold Process, HasRequest, CancelRequest, RegisterRequest, UnregisterRequest.
  apply tame_bind; [tame_go|]. intros b. apply tame_bind; [tame_go|]. intros [].
  apply tame_bind; [destruct (Valid _) eqn:E; [by apply tame_Execute|tame_go]|]. intros r.
  apply tame_bind; [destruct r; [tame_go|unfold Respond; tame_go]|]. intros b'. tame_go.
Qed.

Lemma tame_for_each {A} (l : list A) (body : A -> core_prog unit) : (forall x, tame (body x)) -> tame (for_each l body).
Proof. intros Hb. induction l as [|x l IH]; [apply tame_ret|]. by apply tame_bind. Qed.
End Confined.
