(* ===== verification/P9Props.v ===== *)
(** * P9Props: properties of the 9p file server *)

From S2P Require Import Prelude Effects Libc Wire Device Virtio VirtioExec VirtioSafe.
From S2P Require Import P9Wire P9Core P9Dev P9Safe P9Serve P9Parse P9Steps P9Path.

Implicit Types (w : p9_world) (d : P9FsDev) (b : VirtBuf).

(** ** Sample data *)

(** A host whose share is full of directories. *)
Definition share_env : dev_env := fun _ x =>
  match x return dev_reply x with
  | DStat _ => Some (0x41c0, 0)
  | DRead _ _ => (0, [])
  | DNew n => replicate (Z.to_nat n) 0 ++ [0]
  | DRealpath path => Some (canon path)
  | DMapFile _ => None
  | DRandombytes _ | DReadFile _ => []
  | DPayload _ _ _ _ => PayloadExit 0 [] [] [] 0 false
  | DGetenv _ => Some "/vms/"%string
  | DCalloc _ => true
  | _ => 0
  end.

Definition share_root : bytes := string_bytes "/vms/1/9pshare".

Lemma share_env_ok mnt : share_ok share_env mnt.
Proof.
  constructor.
  - intros trace. by eexists.
  - by intros trace path mode size [= <- <-].
  - intros trace fd n. simpl. lia.
  - constructor.
  - intros trace n. simpl. apply Forall_app. split; [apply Forall_replicate|apply Forall_singleton]; unfold in_width; lia.
Qed.

(** A device with 64 bytes of guest memory at 0x1000, an attached root with fid
    1, a request that waits and a buffer for its response. *)
Definition sample_memory : memory_manager := new_memory_manager 0x1000 64 (replicate 64 0).
Definition sample_base : vdev := (new_MMIOVirtioDev 9 0 [] MMIO_START 2) <| m_mem := sample_memory |>.
Definition root_obj : QidObject :=
  Qobj (Some P9_QTDIR) 0 (path_hash share_root) share_root share_root false None None 1.
Definition sample_core : P9Core :=
  Core false false (string_bytes "share") share_root {[1 := 1%positive]} ∅ {[1%positive := root_obj]}.
Definition sample_dev (ts : list trequest) (rs : list rresponse) : P9FsDev :=
  P9 sample_base sample_core ts rs [Vbuf 0x1000 64 0 0 0 0x1000].

Lemma sample_base_ok : vdev_ok sample_base.
Proof.
  constructor; try done.
  - constructor; try done. change (is_bytes (replicate 64 0)). apply Forall_replicate. unfold in_width. lia.
  - apply (Forall_replicate _ 2). constructor; simpl; try done; unfold in_width; try lia.
    repeat constructor; simpl; lia.
Qed.

Lemma sample_core_ok : core_ok [] sample_core.
Proof.
  constructor; try done.
  - apply map_Forall_singleton. split; [unfold in_width; lia|by eexists].
  - apply map_Forall_singleton. split_and!; [by eexists|reflexivity|done].
  - intros p Hp. by inversion Hp.
  - intros p Hp. by inversion Hp.
Qed.

Lemma sample_dev_ok ts : Forall (fun t => t_typed (t_body t)) ts -> p9_ok share_root (sample_dev ts []).
Proof.
  intros Ht. constructor; try done; [apply sample_base_ok|apply sample_core_ok|].
  apply Forall_singleton. split; [by vm_compute|done].
Qed.

(** ** The invariant *)

(** C3: The constructor of the device establishes its invariant (each fid names
    a live object whose count of references is the number of its fids, waiting
    responses hold live objects only, and registers, rings and buffers are in
    range), and every step of a run keeps it: a register access with anything in
    the guest's rings and messages that does not end the process, an arbitrary
    change of the guest's memory, also while a message is being read, a request
    of a careful client, and a response. *)
Theorem p9_invariant env mnt race fuel :
  share_ok env mnt -> race_ok race ->
  (forall (w : dev_world unit) raw_vendor memory,
     is_bytes memory -> Z.of_nat (length memory) = HOST_SYS_MEM_SIZE ->
     upto whatever (new_P9FsDev env raw_vendor memory) (fun d _ => p9_ok (m_mountpoint (m_core d)) d) w) /\
  (forall w w', p9_ok mnt (w_st w) -> p9_step env race fuel w w' -> p9_ok mnt (w_st w')).
Proof.
  intros Henv Hrace. split.
  - intros w raw_vendor memory Hb Hl. eapply upto_mono; [by apply new_P9FsDev_ok|].
    intros d _ (store & name & Hd & E). by rewrite E.
  - intros w w' Hd Hs. by eapply p9_step_ok.
Qed.

Lemma p9_invariant_witness :
  p9_ok share_root (sample_dev [] []) /\
  p9_ok share_root (p9_put_base (set_memory (replicate 64 7) sample_base) (sample_dev [] [])).
Proof.
  split; [by apply sample_dev_ok|].
  apply (proj2 (p9_invariant share_env share_root no_race 1 (share_env_ok _) ltac:(by intros n t m Hm))
           (World (sample_dev [] []) [] [])
           (World (p9_put_base (set_memory (replicate 64 7) sample_base) (sample_dev [] [])) [] [])).
  - by apply sample_dev_ok.
  - apply (step_memory share_env no_race 1 (replicate 64 7) (World (sample_dev [] []) [] [])); [done|].
    apply Forall_replicate. unfold in_width. lia.
Defined.

(** C4: In every state that the device reaches from a good one in a run with a
    careful client, under any interleaving of its threads with the guest, the
    request thread executes the next careful request without any fault and
    queues at most one response, with the tag of the request; and the response
    thread sends the next response that fits the guest's buffer without a
    fault. *)
Theorem p9_threads_safe env mnt race fuel w0 w :
  share_ok env mnt -> race_ok race -> p9_ok mnt (w_st w0) -> rtc (p9_step env race fuel) w0 w ->
  (forall t q, m_trequest_queue (w_st w) = t :: q ->
     careful (pending_of (m_rresponse_queue (w_st w))) (m_core (w_st w)) (t_body t) ->
     wp (RequestLoop_step env) (fun _ w' => p9_ok mnt (w_st w') /\ m_trequest_queue (w_st w') = q /\
       exists r, m_rresponse_queue (w_st w') = m_rresponse_queue (w_st w) ++ option_list r /\
         forall r', r = Some r' -> r_tag r' = t_tag t) w) /\
  (forall r rq b bq, m_rresponse_queue (w_st w) = r :: rq -> m_rmesgvbuf_queue (w_st w) = b :: bq ->
     fits (w_st w) r b ->
     wp (ResponseLoop_step env) (fun _ w' => p9_ok mnt (w_st w') /\ m_rresponse_queue (w_st w') = rq /\
       m_rmesgvbuf_queue (w_st w') = bq) w).
Proof.
  intros Henv Hrace Hd Hr. assert (p9_ok mnt (w_st w)) as Hw by by eapply p9_reachable_ok. split.
  - intros t q Eq Hc. by apply RequestLoop_step_ok.
  - intros r rq b bq Er Eb Hf. eapply wp_mono; [by eapply ResponseLoop_step_ok|].
    by intros a w' (H1 & H2 & H3 & _).
Qed.

(** The client attaches a second fid to the root. *)
Definition attach_request : trequest :=
  TRequest 0x100 (TAttach 2 (u32 (-1)) [] (string_bytes "share")).

Lemma p9_threads_safe_witness :
  wp (RequestLoop_step share_env) (fun _ w' => m_trequest_queue (w_st w') = [])
    (World (sample_dev [attach_request] []) [] []).
Proof.
  eapply wp_mono; [apply (proj1 (p9_threads_safe share_env share_root no_race 1
    (World (sample_dev [attach_request] []) [] []) (World (sample_dev [attach_request] []) [] [])
    (share_env_ok _) ltac:(by intros n t m Hm)
    (sample_dev_ok [attach_request] ltac:(repeat constructor; simpl; lia))
    (rtc_refl _ _)) attach_request []); done|].
  by intros a w' (_ & H & _).
Defined.

(** ** The share *)

(** C5: If the mountpoint is a canonical path and no name in the share is a
    symbolic link, the server never leaves the share: after any sequence of
    requests, valid or not, and also where one of them makes it fail, every
    object lies below the mountpoint, and so do all paths that it passed to
    [stat], [open] and [unlink]; names that it creates or resolves are one legal
    name behind such a path. *)
Theorem p9_confined env root (ts : list trequest) (w : core_world) :
  no_symlinks env -> confined root w ->
  match for_each ts (fun t => _ ← Process env t; mret tt) w with
  | Ret _ w' => confined root w'
  | Fault _ w' => confined root w'
  end.
Proof.
  intros Hl. revert w. apply (tame_for_each root). intros t. apply tame_bind; [by apply tame_Process|].
  intros r. apply tame_ret.
Qed.

Lemma sample_confined : confined share_root (World sample_core [] []).
Proof.
  assert (below share_root share_root) as Hb.
  { exists [string_bytes "vms"; string_bytes "1"; string_bytes "9pshare"], []. rewrite app_nil_r.
    split_and!; try done. repeat constructor; try discriminate; apply (bool_decide_unpack _); by vm_compute. }
  split_and!; try done. by apply map_Forall_singleton.
Qed.

(** A walk to [../../x] from the root ends inside. *)
Lemma p9_confined_witness :
  match for_each [TRequest 1 (TWalk 1 2 [dotdot; dotdot; string_bytes "x"])]
          (fun t => _ ← Process share_env t; mret tt) (World sample_core [] []) with
  | Ret _ w' => confined share_root w' /\
      (exists p q, m_fid_map (w_st w') !! 2 = Some p /\ p_heap (w_st w') !! p = Some q /\
         q_fspath q = string_bytes "/vms/1/9pshare/x")
  | Fault _ _ => False
  end.
Proof.
  pose proof (p9_confined share_env share_root [TRequest 1 (TWalk 1 2 [dotdot; dotdot; string_bytes "x"])]
    (World sample_core [] []) ltac:(intros trace path r Hr; by injection Hr) sample_confined) as H.
  destruct (for_each _ _ _) as [[] w'|] eqn:E.
  - split; [exact H|]. apply (f_equal (fun o => match o with Ret _ w => w_st w | Fault _ w => w_st w end)) in E.
    rewrite <-E. eexists _, _. split; [vm_compute; reflexivity|]. split; vm_compute; reflexivity.
  - apply (f_equal (fun o => match o with Ret _ _ => true | Fault _ _ => false end)) in E.
    vm_compute in E. discriminate.
Defined.

(** A mountpoint with a component that [realpath] removes is not recognised as
    the root any more after a step to [.], and [..] leaves the share. *)
Definition odd_root : bytes := string_bytes "/vms//1/9pshare".
Definition odd_core : P9Core :=
  Core false false (string_bytes "share") odd_root {[1 := 1%positive]} ∅
    {[1%positive := root_obj <| q_fspath := odd_root |> <| q_root := odd_root |>]}.

Example uncanonical_root_escapes :
  match Process share_env (TRequest 1 (TWalk 1 2 [dot; dotdot])) (World odd_core [] []) with
  | Ret _ w' => exists p q, m_fid_map (w_st w') !! 2 = Some p /\ p_heap (w_st w') !! p = Some q /\
      q_fspath q = string_bytes "/vms/1"
  | Fault _ _ => False
  end.
Proof. vm_compute. eexists _, _. by split_and!. Qed.

(** ** Messages *)

(** C27: A request that a client put into the guest's buffer, and that does not
    change while it is read, is queued under its tag, and nothing else of the device
    changes.  All its numbers and its data are the ones that were sent.  A string
    is the one that was sent followed by what the memory behind the server's block
    holds up to the next zero, for it is sent without a terminator and read as a
    C string; it is exact where a zero is right behind the block.  A request
    without strings, or with a zero somewhere behind each of the blocks, is read
    without a fault; otherwise the only fault is a read outside of mapped memory.
    The blocks of [operator new] have the size that was asked for. *)
Theorem p9_request_received env b t w :
  full_blocks env -> vdev_ok (pd_base (w_st w)) -> vbuf_ok (w_st w) b ->
  sendable (t_body t) -> in_width 16 (t_tag t) -> length (pkt_enc t) <= vb_len b ->
  guest_bytes (m_mem (pd_base (w_st w))) (vb_guest_addr b) (length (pkt_enc t)) = pkt_enc t ->
  let queued (r : Z) (w' : p9_world) := r = 0 /\ exists t', received env (t_body t) t' /\
    (Forall (zero_ended env) (strings_of (t_body t)) -> t' = t_body t) /\
    w_st w' = (w_st w) <| m_trequest_queue ::= fun q => q ++ [TRequest (t_tag t) t'] |> in
  (Forall (terminated env) (strings_of (t_body t)) -> wp (handleTMesg env no_race b) queued w) /\
  upto reads_outside (handleTMesg env no_race b) queued w.
Proof.
  intros Hf Hv Hb Ht Htag Hl Hm queued. apply handled_as_sent.
  - intros ok Hr. eapply upto_mono; [by apply (handleTMesg_enc env ok b t)|]. intros r w' (-> & t' & Ht' & E). split; [done|].
    exists t'. split_and!; [done|intros Hz; by eapply received_exact|done].
Qed.

Definition walk_request : trequest := TRequest 0x101 (TWalk 1 2 [string_bytes "dir"; string_bytes "file"]).
Definition message_dev : P9FsDev :=
  store_at 0 (pkt_enc walk_request) (sample_dev [] []).

(** With a zero behind each block, and with the letter B and a zero. *)
Definition stale_env : dev_env := fun tr x =>
  match x return dev_reply x with
  | DNew n => replicate (Z.to_nat n) 0 ++ [66; 0]
  | c => share_env tr c
  end.

Lemma p9_request_received_witness :
  wp (handleTMesg share_env no_race (Vbuf 0x1000 64 0 0 0 0x1000))
    (fun r w' => m_trequest_queue (w_st w') = [walk_request]) (World message_dev [] []) /\
  wp (handleTMesg stale_env no_race (Vbuf 0x1000 64 0 0 0 0x1000))
    (fun r w' => exists t', received stale_env (t_body walk_request) t' /\ m_trequest_queue (w_st w') = [TRequest 0x101 t']) (World message_dev [] []).
Proof.
  assert (forall env, full_blocks env -> _) as H by (intros env Hf; refine
    (proj1 (p9_request_received env (Vbuf 0x1000 64 0 0 0 0x1000) walk_request (World message_dev [] []) Hf _ _ _ _ _ _));
    [ apply (vdev_ok_store 0x1000 (pkt_enc walk_request) sample_base sample_base_ok); [by vm_compute|];
      vm_compute; repeat constructor; discriminate
    | split; [by vm_compute|done]
    | simpl; split_and!; try done; repeat constructor; try done; apply (bool_decide_unpack _); by vm_compute
    | done | by vm_compute | by vm_compute ]).
  assert (Forall (zero_ended share_env) (strings_of (t_body walk_request))) as Hz.
  { repeat constructor. }
  split; (eapply wp_mono; [apply H|]).
  - intros trace n. simpl. rewrite length_app, length_replicate. simpl. lia.
  - repeat constructor; by eexists.
  - intros r w' (_ & t' & _ & Ht & E). rewrite (Ht Hz) in E. by rewrite E.
  - intros trace n. simpl. rewrite length_app, length_replicate. simpl. lia.
  - repeat constructor; by eexists.
  - intros r w' (_ & t' & Ht & _ & E). exists t'. split; [exact Ht|]. by rewrite E.
Defined.

(** What the server makes of the two names when an old byte is behind them. *)
Lemma stale_name_received t : received stale_env (t_body walk_request) t -> t = TWalk 1 2 [string_bytes "dirB"; string_bytes "fileB"].
Proof.
  intros (l & -> & Hl). f_equal. assert (forall s s', heard stale_env s s' -> s' = s ++ [66]) as Hs.
  { intros s s' (trace & tail & E & ->). unfold behind in E. simpl in E.
    rewrite drop_app_length' in E by (rewrite length_replicate; lia). by injection E as <-. }
  inversion Hl as [|? x ? ? H1 H2]; subst. inversion H2 as [|? y ? ? H3 H4]; subst. inversion H4; subst.
  by rewrite (Hs _ _ H1), (Hs _ _ H3).
Qed.

(** C28: A response reaches the guest byte for byte: the response thread stores
    its encoding at the start of the guest's buffer and nowhere else, returns the
    buffer with the length that the response announces if the used ring takes it,
    and raises the interrupt.  It deletes the objects between the first and the last
    of a walk, which are alive, have no fid and are in no other response, and changes
    nothing else of the core.  If the buffer is too small, the process ends with
    an exception. *)
Theorem p9_response_sent env mnt r rq b bq w :
  p9_ok mnt (w_st w) -> m_rresponse_queue (w_st w) = r :: rq -> m_rmesgvbuf_queue (w_st w) = b :: bq ->
  (fits (w_st w) r b ->
   wp (ResponseLoop_step env) (fun _ w' => p9_ok mnt (w_st w') /\ m_rresponse_queue (w_st w') = rq /\
     m_rmesgvbuf_queue (w_st w') = bq /\ m_trequest_queue (w_st w') = m_trequest_queue (w_st w) /\
     m_core (w_st w') = without (inner (held_objs (r_body r))) (m_core (w_st w)) /\
     let v := sent r b (m_core (w_st w)) (pd_base (w_st w)) in
     let b' := b <| vb_nbytes_written := SerializedSize r |> in
     (returnable v VQ_RMESG /\ pd_base (w_st w') = returned VQ_RMESG b' v \/
      (~ returnable v VQ_RMESG /\ pd_base (w_st w') = v)) /\
     w_trace w' = w_trace w ++ [DWrite CHILD_DEVICE_IOAPIC_FD [P9FS_IRQ] : call dev_iface]) w) /\
  (forall p, p ∈ inner (held_objs (r_body r)) -> is_Some (p_heap (m_core (w_st w)) !! p) /\
     (forall fid, m_fid_map (m_core (w_st w)) !! fid <> Some p) /\ p ∉ concat (pending_of rq)) /\
  (~ fits (w_st w) r b -> length (response_bytes (p_heap (m_core (w_st w))) r) < 2 ^ 64 ->
   faults (ResponseLoop_step env) Thrown w).
Proof.
  intros Hd Er Eb. split_and!; [by apply ResponseLoop_step_ok| |].
  { intros p Hp. pose proof (p9_objs _ _ Hd) as Hc. rewrite Er in Hc. by apply (inner_alone (held_objs (r_body r)) (pending_of rq)). }
  intros Hf H64.
  pose proof Hd as [Hv _ _ Hc _ _ Hbs]. rewrite Eb in Hbs. apply Forall_cons in Hbs as [[Hin Hw] _].
  pose proof (host_addr_in _ _ _ (vd_mem _ Hv) Hin ltac:(apply Hw)) as (_ & Hhi & Hlo).
  rewrite Er in Hc. unfold ResponseLoop_step.
  apply faults_then. eapply wp_p9_get; [exact Er|]. apply faults_then. eapply wp_p9_get; [exact Eb|].
  apply faults_then. unfold vb_host_addr. wp_go. rewrite Z.add_0_r. simpl m_mem.
  rewrite (u64_in _ _ _ (vd_mem _ Hv) Hin). apply faults_first. unfold fits in Hf.
  apply SerializeTo_throws; [by eapply core_objs_ok|done| |done|exact Hhi].
  split; [apply Hw|]. apply Z.nle_gt. exact Hf.
Qed.

Definition error_response : rresponse := RResponse 0x102 (RError (string_bytes "No such fid")).

Lemma p9_response_sent_witness :
  wp (ResponseLoop_step share_env) (fun _ w' =>
    guest_bytes (m_mem (pd_base (w_st w'))) 0x1000 20 =
      le_bytes 4 20 ++ [P9_RERROR] ++ le_bytes 2 0x102 ++ le_bytes 2 11 ++ string_bytes "No such fid")
    (World (sample_dev [] [error_response]) [] []).
Proof.
  assert (p9_ok share_root (sample_dev [] [error_response])) as Hd.
  { destruct (sample_dev_ok [] ltac:(constructor)). constructor; try done.
    - exact (core_ok_plain [] _ sample_core_ok).
    - constructor; [|done]. apply string_bytes_ok. }
  eapply wp_mono; [apply (proj1 (p9_response_sent share_env share_root error_response [] (Vbuf 0x1000 64 0 0 0 0x1000) []
                     (World (sample_dev [] [error_response]) [] []) Hd eq_refl eq_refl)); by vm_compute|].
  intros [] w' (_ & _ & _ & _ & _ & [[Hret _]|[_ E]] & _); [exfalso|rewrite E; by vm_compute].
  destruct Hret as (_ & Hr & _). by vm_compute in Hr.
Defined.

(** The length that a response announces is the number of its bytes, if its
    strings fit their length fields, exactly for the responses that do not
    answer a walk: the announced length of those is 33 whatever the number of
    the objects, and never right. *)
Theorem p9_response_length d r :
  r_typed (r_body r) -> short_strings (r_body r) -> objs_ok (m_core d) (held_objs (r_body r)) ->
  length (held_objs (r_body r)) < 2 ^ 16 ->
  (SerializedSize r = length (response_bytes (p_heap (m_core d)) r) <-> is_walk_response (r_body r) = false).
Proof.
  intros Ht Hs Ho Hl. rewrite length_response. unfold SerializedSize. destruct (is_walk_response (r_body r)) eqn:E.
  - destruct (r_body r) as [| | | | |qids| | | | | | |]; try done. cbn [body_wire concat held_objs SerializedBodySize] in *.
    rewrite length_app, length_le_bytes, length_qids_wire, (heap_qids_length (m_core d)) by done.
    unfold sizeof_p9_msg, sizeof_qid. rewrite (wrap_small 32) by (unfold in_width; lia). split; [lia|done].
  - split; [done|]. intros _. rewrite Nat2Z.inj_add, (body_size (p_heap (m_core d)) (r_body r)) by done.
    unfold sizeof_p9_msg. apply wrap_small.
    rewrite <-(body_size (p_heap (m_core d)) (r_body r)) by done.
    assert (length (concat (body_wire (p_heap (m_core d)) (r_body r))) < 2 ^ 31 + 7) as Hb.
    { rewrite (body_size (p_heap (m_core d)) (r_body r)) by done.
      destruct (r_body r); try done; cbn [SerializedBodySize short_strings r_typed] in *.
      all: rewrite (wrap_small 32) by (unfold in_width; lia); lia. }
    unfold in_width. lia.
Qed.

Lemma p9_response_length_witness :
  (SerializedSize error_response = 20 /\
   length (response_bytes (p_heap sample_core) error_response) = 20%nat) /\
  SerializedSize (RResponse 1 (RWalk [1%positive])) <>
    length (response_bytes (p_heap sample_core) (RResponse 1 (RWalk [1%positive]))).
Proof.
  split.
  - assert (SerializedSize error_response = length (response_bytes (p_heap sample_core) error_response)) as H.
    { apply (proj2 (p9_response_length (sample_dev [] []) error_response (string_bytes_ok _) eq_refl
                     ltac:(constructor) eq_refl)). reflexivity. }
    split; [by vm_compute|]. by vm_compute in H.
  - intros H. apply (p9_response_length (sample_dev [] []) (RResponse 1 (RWalk [1%positive]))) in H; done.
Defined.

(** ** What a careless client can do *)

(** A fid that is the only name of a directory, while no response waits. *)
Record only_name (c : P9Core) (fid : Z) (p : positive) : Prop := {
  on_ok : core_ok [] c;
  on_fid : m_fid_map c !! fid = Some p;
  on_count : fid_count (m_fid_map c) p = 1%nat;
  on_dir : exists q, p_heap c !! p = Some q /\ q_type q = Some P9_QTDIR;
}.

Lemma only_name_start c fid p {A} (k : Z -> core_prog A) (Q : A -> core_world -> Prop) (w : core_world) :
  w_st w = c -> only_name c fid p -> wp (k P9_QTDIR) Q w -> wp (t ← Type_of p; k t) Q w.
Proof.
  intros E Ho HQ. destruct (on_dir _ _ _ Ho) as (q & Hq & Ht). rewrite <-E in Hq.
  unfold Type_of. apply wp_bind, wp_bind. eapply wp_get_obj; [exact Hq|]. by eapply wp_get_or.
Qed.

Lemma exec_self_walk_faults env fid p (w : core_world) :
  only_name (w_st w) fid p -> faults (exec_TWalk env fid fid []) UseAfterFree w.
Proof.
  intros Ho. pose proof Ho as [Hc Hp Hcnt (q & Hq & Ht)]. unfold exec_TWalk.
  apply faults_then. unfold GetFid. wp_go. rewrite Hp. apply faults_then. unfold Type_of. apply wp_bind.
  eapply wp_get_obj; [exact Hq|]. eapply wp_get_or; [exact Ht|]. apply faults_then. simpl walk_names. wp_go.
  rewrite Z.eqb_refl. apply faults_then.
  eapply (wp_RemoveFid []); [exact Hc|exact Hp|by intros p' _ _ Hx; inversion Hx|].
  intros w2 Hc2 Ef2 _ Hdead _. specialize (Hdead Hcnt). apply faults_first. unfold BindFid.
  apply faults_then. wp_go. rewrite Ef2, lookup_delete_eq. apply faults_first.
  unfold IncRef, set_obj. apply faults_first. unfold get_obj. apply faults_then. wp_go.
  apply faults_get_or. exact Hdead.
Qed.

Lemma exec_self_walk_dangles env mnt fid p names (w : core_world) :
  share_ok env mnt -> only_name (w_st w) fid p -> in_width 32 fid -> names <> [] ->
  wp (exec_TWalk env fid fid names) (fun r (w' : core_world) => (exists e, r = inl e) \/
    (exists l, r = inr (Oqids (p :: l)) /\ p_heap (w_st w') !! p = None)) w.
Proof.
  intros Henv Ho Hf Hne. pose proof Ho as [Hc Hp Hcnt (q & Hq & Ht)]. unfold exec_TWalk, GetFid. wp_go. rewrite Hp.
  eapply only_name_start; [done|exact Ho|]. rewrite Z.eqb_refl. apply wp_bind.
  apply (wp_walk_names env mnt Henv []); [done|by eexists| |].
  { intros v _ _. unfold errored. wp_go. left. by eexists. }
  intros l v1 Hc1 Hg1 [Hnd Hnew] Hlen. rewrite Z.eqb_refl. pose proof Hg1 as (Ef1 & _).
  rewrite <-Ef1 in Hp, Hcnt. apply wp_bind.
  eapply (wp_RemoveFid []); [exact Hc1|exact Hp|by intros p' _ _ Hx; inversion Hx|].
  intros v2 Hc2 Ef2 Hlive Hdead _. specialize (Hdead Hcnt).
  destruct l as [|x l _] using rev_ind; [by destruct names|].
  change (p :: l ++ [x]) with ((p :: l) ++ [x]). rewrite List.last_last.
  apply Forall_app in Hnew as [_ Hx]. rewrite Forall_singleton in Hx. destruct Hx as [Hx1 Hx2].
  apply wp_bind, (wp_BindFid env mnt Henv []); [done| |done|by intros Hx; inversion Hx| |].
  - apply Hlive; [done|]. left. intros ->. congruence.
  - intros [? E]. by rewrite Ef2, lookup_delete_eq in E.
  - intros v3 _ _ _ Hd3 _. unfold done_with. wp_go. right. exists (l ++ [x]). split; [done|].
    apply not_elem_of_dom. rewrite Hd3. by apply not_elem_of_dom.
Qed.

(** C37: A walk of the only fid of a directory onto itself frees the directory
    while it is still in use: without a path, the request thread touches freed
    memory at once; with a path, unless that does not exist, it answers with a
    response whose first object is gone, and sending such a response touches
    freed memory. *)
Theorem p9_self_walk_dangles env mnt tag fid p names (w : core_world) :
  share_ok env mnt -> only_name (w_st w) fid p -> in_width 32 fid -> forallb LegalName names = true ->
  (names = [] -> faults (Process env (TRequest tag (TWalk fid fid names))) UseAfterFree w) /\
  (names <> [] -> wp (Process env (TRequest tag (TWalk fid fid names))) (fun r (w' : core_world) =>
     (exists e, r = Some (RResponse tag (RError e))) \/
     (exists l, r = Some (RResponse tag (RWalk (p :: l))) /\ p_heap (w_st w') !! p = None)) w) /\
  (forall l rq b bq (w' : p9_world), p_heap (m_core (w_st w')) !! p = None ->
     p9_ok mnt ((w_st w') <| m_rresponse_queue := rq |>) ->
     m_rresponse_queue (w_st w') = RResponse tag (RWalk (p :: l)) :: rq -> m_rmesgvbuf_queue (w_st w') = b :: bq ->
     9 <= vb_len b -> faults (ResponseLoop_step env) UseAfterFree w').
Proof.
  intros Henv Ho Hf Hn.
  assert (wp (HasRequest tag) (fun has v => wp (if has then CancelRequest tag else RegisterRequest tag)
    (fun _ v' => only_name (w_st v') fid p) v) w) as Hstart.
  { unfold HasRequest. wp_go. destruct Ho. case_bool_decide as Hr.
    - destruct Hr as [x Hx]. unfold CancelRequest. wp_go. eapply wp_get_or; [exact Hx|]. wp_go.
      constructor; [by apply core_ok_requests|done..].
    - unfold RegisterRequest. wp_go. constructor; [by apply core_ok_requests|done..]. }
  split_and!.
  - intros ->. unfold Process. cbn [t_tag t_body Valid forallb]. apply faults_then. eapply wp_mono; [exact Hstart|].
    intros has v Hv. apply faults_then. eapply wp_mono; [exact Hv|]. intros ? v' Ho'. cbv beta in Ho'.
    by eapply faults_first, exec_self_walk_faults.
  - intros Hne. unfold Process. cbn [t_tag t_body Valid]. rewrite Hn. apply wp_bind. eapply wp_mono; [exact Hstart|].
    intros has v Hv. apply wp_bind. eapply wp_mono; [exact Hv|]. intros ? v' Ho'. cbv beta in Ho'.
    apply wp_bind. eapply wp_mono; [by eapply exec_self_walk_dangles|].
    intros r v2 [[e ->]|(l & -> & Hdead)]; unfold UnregisterRequest; cbn [Respond]; wp_go; [left|right]; by eexists.
  - intros l rq b bq w' Hdead Hd Er Eb Hlb. unfold ResponseLoop_step.
    apply faults_then. eapply wp_p9_get; [exact Er|]. apply faults_then. eapply wp_p9_get; [exact Eb|].
    pose proof Hd as [Hv _ _ _ _ _ Hbs]. simpl in Hbs, Hv. unfold set_field in Hbs, Hv. rewrite Eb in Hbs.
    apply Forall_cons in Hbs as [[Hin Hw] _].
    pose proof (host_addr_in _ _ _ (vd_mem _ Hv) Hin ltac:(apply Hw)) as (_ & Hhi & Hlo).
    apply faults_then. unfold vb_host_addr. wp_go. rewrite Z.add_0_r. simpl m_mem.
    rewrite (u64_in _ _ _ (vd_mem _ Hv) Hin). apply faults_first. unfold in_width in Hw.
    unfold faults. rewrite SerializeTo_header.
    apply faults_then, wp_write_all; rewrite ?length_header; try lia; [exact Hhi|].
    change (0 + Z.of_nat 7) with 7. apply faults_first. cbn [r_body SerializeBodyTo].
    rewrite (wrap_small 64) by (unfold in_width in *; lia).
    apply faults_then, wp_WRITE; rewrite ?length_le_bytes; try lia.
    { match goal with |- _ <= mem_size (w_st ?x) => change (w_st x) with
        (store_at (host_addr (m_mem (pd_base (w_st w'))) (vb_guest_addr b) + 0)
           (concat (header_wire (RResponse tag (RWalk (p :: l))))) ((w_st w') <| m_rresponse_queue := rq |> <| m_rmesgvbuf_queue := bq |>)) end.
      rewrite mem_size_store; rewrite ?length_header; try lia; change (mem_size _) with (mem_size (w_st w')); unfold mem_size; lia. }
    cbn [write_qids]. apply faults_first, faults_zoom. unfold Qid. apply faults_first. unfold get_obj.
    apply faults_then. wp_go. apply faults_get_or. exact Hdead.
Qed.

Lemma p9_self_walk_dangles_witness :
  faults (Process share_env (TRequest 1 (TWalk 1 1 []))) UseAfterFree (World sample_core [] []).
Proof.
  apply (p9_self_walk_dangles share_env share_root 1 1 1%positive [] (World sample_core [] []) (share_env_ok _));
    [|unfold in_width; lia|done|done].
  constructor; [apply sample_core_ok|done|done|]. by exists root_obj.
Defined.

(** The guest's other processors write [sizes n] to the length field before its
    n-th fetch. *)
Definition size_race (a : Z) (sizes : nat -> Z) : nat -> list dev_call -> bytes -> bytes :=
  fun n _ m => blit m (Z.to_nat a) (le_bytes 4 (sizes n)).

Lemma wp_fetch_race a sizes n (Q : Z -> p9_world -> Prop) w :
  0 <= a -> a + 4 <= mem_size (w_st w) -> in_width 32 (sizes n) ->
  (forall w', mem_size (w_st w') = mem_size (w_st w) ->
     m_guest_start_paddr (m_mem (pd_base (w_st w'))) = m_guest_start_paddr (m_mem (pd_base (w_st w))) ->
     Q (sizes n) w') ->
  wp (fetch_size (size_race a sizes) n a) Q w.
Proof.
  intros Ha Hl Hs HQ. unfold fetch_size. apply wp_bind, wp_interfere.
  match goal with |- wp _ _ ?x => set (w1 := x) end. unfold mem_size in Hl.
  assert (mem_size (w_st w1) = mem_size (w_st w)) as E.
  { unfold mem_size, w1. simpl. unfold set_field, size_race. rewrite length_blit; rewrite ?length_le_bytes; lia. }
  apply wp_bind, wp_peek; [unfold mem_size in *; lia|]. wp_go.
  assert (load (m_memory (m_mem (pd_base (w_st w1)))) (Z.to_nat a) (Z.to_nat 4) = le_bytes 4 (sizes n)) as ->.
  { unfold w1. simpl. unfold set_field, size_race. apply (load_blit_same _ (Z.to_nat a) (le_bytes 4 (sizes n))). lia. }
  rewrite le_val_bytes, wrap_small by done. by apply HQ.
Qed.

(** The device trusts the length field of a message and reads it anew at
    each use: a guest that makes it larger between the allocation and the copy
    makes the device write behind its allocation, and a length beyond the end of
    the guest's memory makes it read there, whatever the length of the buffer. *)
Theorem p9_length_unchecked env b (sizes : nat -> Z) w :
  let a := vb_guest_addr b - m_guest_start_paddr (m_mem (pd_base (w_st w))) in
  vdev_ok (pd_base (w_st w)) -> vbuf_ok (w_st w) b -> 7 <= vb_len b -> (forall n, in_width 32 (sizes n)) ->
  7 <= sizes 0%nat -> 4 <= sizes 2%nat ->
  sizes 1%nat < sizes 2%nat - 4 \/ mem_size (w_st w) < a + sizes 2%nat ->
  faults (handleTMesg env (size_race a sizes) b) OutOfBounds w.
Proof.
  intros a Hv Hb Hl Hs H0 H2 Hbad. unfold handleTMesg, sizeof_p9_pkt. rewrite (proj2 (Z.ltb_ge _ _)) by lia.
  apply faults_then, wp_vb_host_addr; [done..|lia|]. intros a' Ha Hsize. unfold a' in *. fold a in Ha, Hsize |- *.
  rewrite Z.add_0_r. clear a'.
  apply faults_then, wp_fetch_race; [done|lia|done|]. intros w0 E0 F0. rewrite (proj2 (Z.ltb_ge _ _)) by lia.
  apply faults_then, wp_fetch_race; [done|lia|done|]. intros w1 E1 F1. apply faults_then. dev_step.
  set (w2 := w1 <| w_trace := _ |>). assert (mem_size (w_st w2) = mem_size (w_st w)) as E2 by (rewrite <-E0, <-E1; done).
  apply faults_then. apply (wp_mono _ (fun x w' => x = a + 4 /\ w' = w2)).
  { unfold vb_host_addr. wp_go. split; [|done]. destruct Hb as [[Hb1 Hb2] Hb3]. destruct (vd_mem _ Hv).
    unfold host_addr, wrap. change (w_st w2) with (w_st w1). rewrite F1, F0.
    unfold in_width in Hb3. rewrite (Z.mod_small (vb_guest_addr b + 4)) by lia. rewrite Z.mod_small by lia. unfold a. lia. }
  intros x w' [-> ->]. apply faults_then, wp_fetch_race; [done|lia|done|]. intros w3 E3 _.
  pose proof (Hs 2%nat) as Hs2. pose proof (Hs 1%nat) as Hs1. unfold in_width in Hs1, Hs2.
  rewrite (wrap_small 32) by (unfold in_width; lia).
  destruct (decide (a + sizes 2%nat <= mem_size (w_st w3))) as [Hin|Hout].
  - apply faults_then, wp_peek; [lia|]. apply faults_first.
    rewrite (proj2 (Z.ltb_lt _ _)); [by eexists|].
    unfold load. rewrite !length_take, length_drop. unfold mem_size in *. lia.
  - apply faults_first. unfold peek. apply faults_then. wp_go. rewrite (proj2 (Z.leb_gt _ _)) by (unfold mem_size in *; lia).
    by eexists.
Qed.

Lemma p9_length_unchecked_witness :
  faults (handleTMesg share_env (size_race 0 (fun n => if decide (n = 2)%nat then 60 else 8))
    (Vbuf 0x1000 64 0 0 0 0x1000)) OutOfBounds (World (sample_dev [] []) [] []).
Proof.
  apply (p9_length_unchecked share_env (Vbuf 0x1000 64 0 0 0 0x1000)
    (fun n => if decide (n = 2)%nat then 60 else 8) (World (sample_dev [] []) [] [])).
  - apply sample_base_ok.
  - split; [by vm_compute|done].
  - done.
  - intros n. case_decide; unfold in_width; lia.
  - done.
  - done.
  - by left.
Defined.
