(* ===== verification/KP9.v ===== *)
(** * KP9: the 9p client of the guest kernel (boot/kernel/p9.c, p9.h)

    Each function writes one request into a buffer; the message and its body are
    packed structures, and [size_t] has 32 bits. *)

From S2P Require Import Prelude KMem Libc P9Wire.

Definition rd16 (m : ram) (a : Z) : Z := le_val (rd_bytes m a 2).
Definition wr16 (m : ram) (a v : Z) : ram := wr_bytes m a (le_bytes 2 v).
Definition wr64 (m : ram) (a v : Z) : ram := wr_bytes m a (le_bytes 8 v).

(** The memory and the globals [fid] and [tag]. *)
Record client := Client { c_ram : ram; c_fid : Z; c_tag : Z }.
#[export] Instance client_eta : Settable client := fun k => Client (c_ram k) (c_fid k) (c_tag k).

Definition sizeof_p9_msg_t := 7.
Definition sizeof_p9_string_t := 2.
Definition sizeof_p9_version_msg_body_t := 4.
Definition sizeof_p9_auth_msg_body_t := 4.
Definition sizeof_p9_attach_msg_body_t := 8.
Definition sizeof_p9_walk_msg_body_t := 10.
Definition sizeof_p9_create_msg_body_t := 4.
Definition sizeof_p9_write_msg_body_t := 16.
Definition sizeof_p9_read_msg_body_t := 16.
Definition sizeof_p9_open_msg_body_t := 5.
Definition sizeof_p9_clunk_msg_body_t := 4.

Section Client.
(** The fuel of [strlen], and where the linker put the string literals. *)
Context (fuel : nat) (lit : string -> Z).

(** [msg->size = total; msg->type = type; msg->tag = tag++] *)
Definition set_msg (k : client) (addr total type : Z) : client :=
  let m := wr32 (c_ram k) addr total in
  let m := wr8 m (addr + 4) type in
  let m := wr16 m (addr + 5) (c_tag k) in
  Client m (c_fid k) (u32 (c_tag k + 1)).

(** [msg->body] *)
Definition msg_body (addr : Z) : Z := addr + sizeof_p9_msg_t.

(** [str->size = strlen(s); memcpy(str->data, s, strlen(s))] *)
Definition set_string (m : ram) (str s : Z) : option ram :=
  n ← strlen fuel m s;
  let m := wr16 m str n in
  n ← strlen fuel m s;
  Some (memcpy m (str + sizeof_p9_string_t) s (Z.to_nat n)).

Definition p9_version (k : client) (addr : Z) : option client :=
  n ← strlen fuel (c_ram k) (lit "P92021");
  let total := u32 (sizeof_p9_msg_t + sizeof_p9_version_msg_body_t + sizeof_p9_string_t + n) in
  let k := set_msg k addr total P9_TVERSION in
  let body := msg_body addr in
  let m := wr32 (c_ram k) body 0x10000 in
  m ← set_string m (body + sizeof_p9_version_msg_body_t) (lit "P92021");
  Some (k <| c_ram := m |>).

(** The arguments are overwritten. *)
Definition p9_auth (k : client) (addr u a : Z) : option client :=
  let u := lit "pizza" in
  let a := lit "who" in
  n1 ← strlen fuel (c_ram k) u;
  n2 ← strlen fuel (c_ram k) a;
  let total := u32 (sizeof_p9_msg_t + sizeof_p9_auth_msg_body_t + sizeof_p9_string_t + sizeof_p9_string_t + n1 + n2) in
  let k := set_msg k addr total P9_TAUTH in
  let body := msg_body addr in
  let m := wr32 (c_ram k) body (c_fid k) in
  let k := k <| c_fid ::= fun f => u32 (f + 1) |> in
  let uname := body + sizeof_p9_auth_msg_body_t in
  m ← set_string m uname u;
  let aname := uname + rd16 m uname + sizeof_p9_string_t in
  m ← set_string m aname a;
  Some (k <| c_ram := m |>).

Definition p9_attach (k : client) (addr u a : Z) : option (Z * client) :=
  n1 ← strlen fuel (c_ram k) u;
  n2 ← strlen fuel (c_ram k) a;
  let total := u32 (sizeof_p9_msg_t + sizeof_p9_attach_msg_body_t + sizeof_p9_string_t + sizeof_p9_string_t + n1 + n2) in
  let k := set_msg k addr total P9_TATTACH in
  let body := msg_body addr in
  let m := wr32 (c_ram k) body (c_fid k) in
  let k := k <| c_fid ::= fun f => u32 (f + 1) |> in
  let m := wr32 m (body + 4) (-1) in
  let uname := body + sizeof_p9_attach_msg_body_t in
  m ← set_string m uname u;
  let aname := uname + rd16 m uname + sizeof_p9_string_t in
  m ← set_string m aname a;
  Some (i32 (rd32 m body), k <| c_ram := m |>).

(** The loops over [wnames], an array of pointers. *)
Fixpoint names_size (m : ram) (wnames : Z) (n : nat) (total : Z) : option Z :=
  match n with
  | O => Some total
  | S n =>
      l ← strlen fuel m (rd32 m wnames);
      names_size m (wnames + 4) n (u32 (u32 (total + sizeof_p9_string_t) + l))
  end.
Fixpoint set_names (m : ram) (tail wnames : Z) (n : nat) : option ram :=
  match n with
  | O => Some m
  | S n =>
      m ← set_string m tail (rd32 m wnames);
      set_names m (tail + sizeof_p9_string_t + rd16 m tail) (wnames + 4) n
  end.

Definition p9_walk (k : client) (addr fid newfid n wnames : Z) : option (Z * client) :=
  total ← names_size (c_ram k) wnames (Z.to_nat n) (sizeof_p9_msg_t + sizeof_p9_walk_msg_body_t);
  let k := set_msg k addr total P9_TWALK in
  let body := msg_body addr in
  let m := wr32 (c_ram k) body fid in
  let m := wr32 m (body + 4) newfid in
  let m := wr16 m (body + 8) n in
  m ← set_names m (body + sizeof_p9_walk_msg_body_t) wnames (Z.to_nat n);
  Some (i32 (rd32 m (body + 4)), k <| c_ram := m |>).

Definition p9_create (k : client) (addr fid newf perms mode : Z) : option client :=
  n ← strlen fuel (c_ram k) newf;
  let total := u32 (sizeof_p9_msg_t + sizeof_p9_create_msg_body_t + sizeof_p9_string_t + n + 4 + 1) in
  let k := set_msg k addr total P9_TCREATE in
  let body := msg_body addr in
  let m := wr32 (c_ram k) body fid in
  let tail := body + sizeof_p9_create_msg_body_t in
  n ← strlen fuel m newf;
  let m := wr16 m tail n in
  let m := memcpy m (tail + sizeof_p9_string_t) newf (Z.to_nat (rd16 m tail)) in
  let permsp := tail + sizeof_p9_string_t + rd16 m tail in
  let m := wr32 m permsp perms in
  let m := wr8 m (permsp + 4) mode in
  Some (k <| c_ram := m |>).

Definition p9_write (k : client) (addr fid offset data count : Z) : client :=
  let total := u32 (sizeof_p9_msg_t + sizeof_p9_write_msg_body_t + count) in
  let k := set_msg k addr total P9_TWRITE in
  let body := msg_body addr in
  let m := wr32 (c_ram k) body fid in
  let m := wr64 m (body + 4) (Z.land offset 0xffffffff) in
  let m := wr32 m (body + 12) count in
  k <| c_ram := memcpy m (body + sizeof_p9_write_msg_body_t) data (Z.to_nat count) |>.

Definition p9_read (k : client) (addr fid offset count : Z) : client :=
  let k := set_msg k addr (sizeof_p9_msg_t + sizeof_p9_read_msg_body_t) P9_TREAD in
  let body := msg_body addr in
  let m := wr32 (c_ram k) body fid in
  let m := wr64 m (body + 4) (Z.land offset 0xffffffff) in
  k <| c_ram := wr32 m (body + 12) count |>.

Definition p9_open (k : client) (addr fid mode : Z) : client :=
  let k := set_msg k addr (sizeof_p9_msg_t + sizeof_p9_open_msg_body_t) P9_TOPEN in
  let body := msg_body addr in
  let m := wr32 (c_ram k) body fid in
  k <| c_ram := wr8 m (body + 4) mode |>.

Definition p9_clunk (k : client) (addr fid : Z) : client :=
  let k := set_msg k addr (sizeof_p9_msg_t + sizeof_p9_clunk_msg_body_t) P9_TCLUNK in
  k <| c_ram := wr32 (c_ram k) (msg_body addr) fid |>.

Definition p9_remove (k : client) (addr fid : Z) : client :=
  let k := set_msg k addr (sizeof_p9_msg_t + sizeof_p9_clunk_msg_body_t) P9_TREMOVE in
  k <| c_ram := wr32 (c_ram k) (msg_body addr) fid |>.
End Client.
