(* ===== verification/KP9Enc.v ===== *)
(** * KP9Enc: the packets of the guest's 9p client

    A buffer that is filled front to back ([built]), and that each function of
    the client leaves there the packet of its request as the server defines it. *)

From S2P Require Import Prelude Effects KMem Libc Device P9Wire P9Parse P9Steps KP9.

Implicit Types (m : ram).

(** ** Loads of several parts *)

Lemma rd_bytes_app m a (n1 n2 : nat) : rd_bytes m a (n1 + n2) = rd_bytes m a n1 ++ rd_bytes m (a + n1) n2.
Proof.
  unfold rd_bytes. rewrite seq_app, fmap_app. f_equal. apply list_eq. intros i. rewrite !list_lookup_fmap.
  destruct (decide (i < n2)%nat).
  - rewrite !lookup_seq_lt by done. simpl. by replace (a + n1 + i) with (a + (n1 + i)%nat) by lia.
  - by rewrite !lookup_seq_ge by lia.
Qed.

Lemma length_rd_bytes m a n : length (rd_bytes m a n) = n.
Proof. unfold rd_bytes. by rewrite length_fmap, length_seq. Qed.

Lemma is_bytes_rd m a n : is_bytes (rd_bytes m a n).
Proof. unfold rd_bytes. apply Forall_fmap, Forall_forall. intros i _. apply wrap_range. lia. Qed.

(** Two memories that agree on a range. *)
Lemma rd_bytes_ext m m' a (n : nat) :
  in_ram a n -> (forall x, a <= x < a + n -> m' x = m x) -> rd_bytes m' a n = rd_bytes m a n.
Proof.
  intros (Ha & _ & Hn) Hx. unfold rd_bytes. apply list_fmap_ext. intros k i Hk. apply lookup_seq in Hk as [-> Hk].
  simpl. rewrite (wrap_small 32) by (unfold in_width; lia). by rewrite Hx by lia.
Qed.

Lemma memcpy_wr m ptr data (n : nat) x :
  in_ram ptr n -> in_ram data n -> ptr + n <= data \/ data + n <= ptr -> in_ram x 1 ->
  memcpy m ptr data n x = wr_bytes m ptr (rd_bytes m data n) x.
Proof.
  revert x. unfold memcpy. induction n as [|n IH]; intros x Hp Hd Hdis Hx.
  { rewrite wr_bytes_in by done. by rewrite decide_False by (simpl; lia). }
  assert (in_ram ptr n /\ in_ram data n) as [Hp' Hd'] by (unfold in_ram in *; lia).
  rewrite seq_S, foldl_app. simpl foldl at 1. set (m1 := foldl _ m (seq 0 n)) in *.
  assert (forall y, in_ram y 1 -> m1 y = wr_bytes m ptr (rd_bytes m data n) y) as H1.
  { intros y Hy. apply IH; [done..|lia|done]. }
  unfold wr8. rewrite wr_bytes_in by (unfold in_ram in *; simpl; lia). cbn [length].
  rewrite (wr_bytes_in m ptr (rd_bytes m data (S n))) by (rewrite ?length_rd_bytes; done). rewrite length_rd_bytes.
  replace (S n) with (n + 1)%nat by lia. rewrite rd_bytes_app.
  destruct (decide (x = ptr + n)) as [->|Hne].
  - rewrite !decide_True by lia. replace (Z.to_nat (ptr + n - (ptr + n))) with 0%nat by lia.
    rewrite lookup_app_r by (rewrite length_rd_bytes; lia). rewrite length_rd_bytes.
    replace (Z.to_nat (ptr + n - ptr) - n)%nat with 0%nat by lia. simpl. unfold rd8.
    rewrite Z.add_0_r, !(wrap_small 32 (data + n)) by (unfold in_width, in_ram in *; lia). f_equal. f_equal.
    rewrite H1 by (unfold in_ram in *; lia). rewrite wr_bytes_in by (rewrite ?length_rd_bytes; unfold in_ram in *; try lia; done).
    rewrite length_rd_bytes. by rewrite decide_False by lia.
  - rewrite decide_False by lia. rewrite H1 by done. rewrite wr_bytes_in by (rewrite ?length_rd_bytes; done). rewrite length_rd_bytes.
    destruct (decide (ptr <= x < ptr + n)).
    + rewrite !decide_True by lia. rewrite lookup_app_l by (rewrite length_rd_bytes; lia). done.
    + by rewrite !decide_False by lia.
Qed.

(** ** A buffer that is filled front to back *)

Record built (m0 m : ram) (a : Z) (pre : bytes) : Prop := {
  bt_room : in_ram a (length pre);
  bt_bytes : rd_bytes m a (length pre) = pre;
  bt_frame : forall x, in_ram x 1 -> x < a \/ a + length pre <= x -> m x = m0 x;
}.

Lemma built_nil m a : in_ram a 0 -> built m m a [].
Proof. by constructor. Qed.

Lemma built_ext m0 m m' a pre bs :
  built m0 m a pre -> in_ram a (length pre + length bs)%nat -> is_bytes bs ->
  (forall x, in_ram x 1 -> m' x = wr_bytes m (a + length pre) bs x) -> built m0 m' a (pre ++ bs).
Proof.
  intros [Hr Hb Hf] Hroom Hbs Hm'. assert (in_ram (a + length pre) (length bs)) as Hr2 by (unfold in_ram in *; lia).
  constructor.
  - by rewrite length_app.
  - rewrite length_app, rd_bytes_app. f_equal.
    + rewrite <-Hb at 2. apply rd_bytes_ext; [done|]. intros x Hx.
      rewrite Hm', wr_bytes_in by (unfold in_ram in *; lia || done). by rewrite decide_False by lia.
    + rewrite <-(rd_bytes_same m (a + length pre) bs) at 2 by done.
      apply rd_bytes_ext; [done|]. intros x Hx. apply Hm'. unfold in_ram in *. lia.
  - intros x Hx Ho. rewrite length_app in Ho. rewrite Hm', wr_bytes_in by done. rewrite decide_False by lia. apply Hf; [done|lia].
Qed.

Lemma built_wr m0 m a pre bs at_ :
  built m0 m a pre -> at_ = a + length pre -> in_ram a (length pre + length bs)%nat -> is_bytes bs ->
  built m0 (wr_bytes m at_ bs) a (pre ++ bs).
Proof. intros Hb -> Hr Hbs. by eapply built_ext. Qed.

(** A range of memory that the buffer does not touch. *)
Definition apart (a n b k : Z) : Prop := b + k <= a \/ a + n <= b.

Lemma built_rd m0 m a pre b (k : nat) : built m0 m a pre -> in_ram b k -> apart a (length pre) b k ->
  rd_bytes m b k = rd_bytes m0 b k.
Proof.
  intros [Hr Hb Hf] Hbk Ha. apply rd_bytes_ext; [done|]. intros x Hx. apply Hf; [unfold in_ram in *; lia|].
  unfold apart in Ha. lia.
Qed.

Lemma built_memcpy m0 m a pre at_ data (n : nat) :
  built m0 m a pre -> at_ = a + length pre -> in_ram a (length pre + n)%nat -> in_ram data n ->
  apart a (length pre + n) data n -> built m0 (memcpy m at_ data n) a (pre ++ rd_bytes m0 data n).
Proof.
  intros Hb -> Hr Hd Ha. unfold apart in Ha. rewrite <-(built_rd m0 m a pre data n) by (try done; unfold apart; lia).
  eapply built_ext; [exact Hb|by rewrite length_rd_bytes|apply is_bytes_rd|].
  intros x Hx. apply memcpy_wr; [unfold in_ram in *; lia|done|lia|done].
Qed.

(** A part of what was written. *)
Lemma built_part m0 m a x y z : built m0 m a (x ++ y ++ z) -> rd_bytes m (a + length x) (length y) = y.
Proof.
  intros [_ Hb _]. rewrite !length_app, !rd_bytes_app in Hb. apply app_inj_1 in Hb as [_ Hb]; [|apply length_rd_bytes].
  apply app_inj_1 in Hb as [Hb _]; [done|apply length_rd_bytes].
Qed.

Lemma le_bytes_wrap n z : le_bytes n (wrap (8 * n) z) = le_bytes n z.
Proof.
  pose proof (le_bytes_val (le_bytes n z) (le_bytes_is_bytes n z)) as H.
  by rewrite length_le_bytes, le_val_bytes in H.
Qed.

(** ** C strings *)

Record cstr_at m (s : Z) (str : bytes) : Prop := {
  cs_room : in_ram s (length str + 1)%nat;
  cs_bytes : rd_bytes m s (length str + 1) = str ++ [0];
  cs_chars : 0 ∉ str;
}.

Lemma rd_bytes_lookup m a n (i : nat) : (i < n)%nat -> rd_bytes m a n !! i = Some (rd8 m (a + i)).
Proof. intros Hi. unfold rd_bytes. rewrite list_lookup_fmap, lookup_seq_lt by done. done. Qed.

Lemma cstr_char m s str (i : nat) : cstr_at m s str -> (i <= length str)%nat -> Some (rd8 m (s + i)) = (str ++ [0]) !! i.
Proof. intros [_ Hb _] Hi. rewrite <-Hb. by rewrite rd_bytes_lookup by lia. Qed.

Lemma i8_zero v : in_width 8 v -> (i8 v =? 0) = (v =? 0).
Proof.
  unfold in_width. intros Hv. unfold swrap, wrap. change (2 ^ (8 - 1)) with 128. change (2 ^ 8) with 256 in *.
  destruct (Z.eqb_spec v 0) as [->|Hne]; [done|]. apply Z.eqb_neq.
  destruct (Z_lt_ge_dec v 128); [rewrite Z.mod_small by lia; lia|].
  rewrite <-(Z.mod_add _ (-1)) by lia. rewrite Z.mod_small by lia. lia.
Qed.

Lemma strlen_ok fuel m s str : cstr_at m s str -> (length str < fuel)%nat -> strlen fuel m s = Some (Z.of_nat (length str)).
Proof.
  intros Hs. assert (Z.of_nat (length str) < 2 ^ 32) as Hl by (destruct Hs as [Hr _ _]; unfold in_ram in Hr; lia).
  unfold strlen. assert (forall k fuel, (k <= length str)%nat -> (k < fuel)%nat ->
    strlen_from fuel m s (length str - k)%nat = Some (Z.of_nat (length str))) as Hgo.
  { induction k as [|k IH]; intros f Hk Hf; (destruct f as [|f]; [lia|]); simpl.
    - pose proof (cstr_char m s str (length str) Hs ltac:(lia)) as Hc. rewrite list_lookup_middle in Hc by done.
      injection Hc as Hc. unfold rd_char. rewrite Nat.sub_0_r, Hc. done.
    - pose proof (cstr_char m s str (length str - S k) Hs ltac:(lia)) as Hc.
      rewrite lookup_app_l in Hc by lia. unfold rd_char. rewrite i8_zero by (apply wrap_range; lia).
      destruct (Z.eqb_spec (rd8 m (s + (length str - S k)%nat)) 0) as [E|E].
      + exfalso. apply (cs_chars _ _ _ Hs). rewrite E in Hc. symmetry in Hc. by apply list_elem_of_lookup_2 in Hc.
      + rewrite (wrap_small 32) by (unfold in_width; lia).
        replace ((length str - S k)%nat + 1) with (Z.of_nat (length str - k)) by lia. apply IH; lia. }
  intros Hf. specialize (Hgo (length str) fuel ltac:(lia) Hf). by rewrite Nat.sub_diag in Hgo.
Qed.

Lemma cstr_built m0 m a pre s str : built m0 m a pre -> cstr_at m0 s str ->
  apart a (length pre) s (length str + 1)%nat -> cstr_at m s str.
Proof. intros Hb [Hr Hs Hc] Ha. constructor; [done| |done]. by rewrite (built_rd m0 m a pre). Qed.

Lemma cstr_data m s str : cstr_at m s str -> rd_bytes m s (length str) = str.
Proof.
  intros [_ Hb _]. rewrite rd_bytes_app in Hb. apply app_inj_1 in Hb as [Hb _]; [done|]. apply length_rd_bytes.
Qed.

Lemma cstr_is_bytes m s str : cstr_at m s str -> is_bytes str.
Proof. intros H. rewrite <-(cstr_data _ _ _ H). apply is_bytes_rd. Qed.

(** A string appended to the buffer. *)
Lemma set_string_ok fuel m0 m a pre at_ s str :
  built m0 m a pre -> at_ = a + length pre -> cstr_at m0 s str -> (length str < fuel)%nat ->
  in_ram a (length pre + length (enc_str str))%nat ->
  apart a (length pre + length (enc_str str))%nat s (length str + 1)%nat ->
  exists m', set_string fuel m at_ s = Some m' /\ built m0 m' a (pre ++ enc_str str).
Proof.
  intros Hb -> Hs Hf Hr Ha. unfold enc_str in Hr, Ha. rewrite length_app, length_le_bytes in Hr, Ha. unfold apart in Ha.
  unfold set_string. rewrite (strlen_ok fuel m s str) by (done || (eapply cstr_built; [exact Hb|done|unfold apart; lia])).
  cbn [mbind option_bind]. set (m1 := wr16 m _ _).
  assert (built m0 m1 a (pre ++ le_bytes 2 (length str))) as Hb1.
  { apply built_wr; [done|done|rewrite length_le_bytes; unfold in_ram in *; lia|apply le_bytes_is_bytes]. }
  rewrite (strlen_ok fuel m1 s str)
    by (done || (eapply cstr_built; [exact Hb1|done|rewrite length_app, length_le_bytes; unfold apart; lia])).
  cbn [mbind option_bind]. rewrite Nat2Z.id. eexists. split; [done|]. unfold enc_str. rewrite app_assoc.
  rewrite <-(cstr_data m0 s str Hs) at 3. apply built_memcpy; [done| |..].
  - rewrite length_app, length_le_bytes. unfold sizeof_p9_string_t. lia.
  - rewrite length_app, length_le_bytes. unfold in_ram in *. lia.
  - destruct Hs as [Hsr _ _]. unfold in_ram in *. lia.
  - rewrite length_app, length_le_bytes. unfold apart. lia.
Qed.

(** ** Packets *)

Definition header (total type tag : Z) : bytes := le_bytes 4 total ++ le_bytes 1 type ++ le_bytes 2 tag.

Lemma length_header_7 total type tag : length (header total type tag) = 7%nat.
Proof. done. Qed.

Lemma pkt_split tag t : pkt_enc (TRequest tag t) = header (7 + length (body_enc t)) (t_type t) tag ++ body_enc t.
Proof.
  unfold pkt_enc, header, msg_enc. cbn [t_tag t_body]. rewrite !length_app, !length_le_bytes, <-!app_assoc.
  f_equal. f_equal. lia.
Qed.

Lemma set_msg_ok k addr total type :
  in_ram addr 7 -> in_width 8 type ->
  built (c_ram k) (c_ram (set_msg k addr total type)) addr (header total type (u16 (c_tag k))).
Proof.
  intros Hr Ht. unfold set_msg, header. cbn [c_ram].
  assert (built (c_ram k) (wr32 (c_ram k) addr total) addr (le_bytes 4 total)) as H1.
  { apply (built_wr _ _ _ []); [apply built_nil; unfold in_ram in *; lia|simpl; lia| |apply le_bytes_is_bytes].
    rewrite length_le_bytes. unfold in_ram in *. simpl. lia. }
  assert (le_bytes 1 type = [type]) as E1 by (simpl; by rewrite wrap_small).
  assert (built (c_ram k) (wr8 (wr32 (c_ram k) addr total) (addr + 4) type) addr (le_bytes 4 total ++ le_bytes 1 type)) as H2.
  { rewrite E1. apply built_wr; [done|by rewrite length_le_bytes| |by repeat constructor; apply Ht].
    rewrite length_le_bytes. unfold in_ram in *. simpl. lia. }
  change (u16 (c_tag k)) with (wrap (8 * 2%nat) (c_tag k)). rewrite app_assoc, le_bytes_wrap. apply built_wr; [done| | |apply le_bytes_is_bytes].
  - rewrite length_app, !length_le_bytes. lia.
  - rewrite length_app, !length_le_bytes. unfold in_ram in *. simpl. lia.
Qed.

(** [k'] is [k] with the packet of [t] at [addr], and the next tag. *)
Definition wrote (k k' : client) (addr : Z) (t : tbody) : Prop :=
  built (c_ram k) (c_ram k') addr (pkt_enc (TRequest (u16 (c_tag k)) t)) /\ c_tag k' = u32 (c_tag k + 1).

(** The buffer for the packet of [t]. *)
Definition room (addr : Z) (t : tbody) : Prop := in_ram addr (7 + length (body_enc t))%nat.

Ltac lens := repeat (rewrite ?length_app, ?length_le_bytes, ?length_header_7 in * ); unfold in_ram, apart, enc_str, msg_body, sizeof_p9_msg_t, sizeof_p9_string_t, sizeof_p9_version_msg_body_t,
    sizeof_p9_auth_msg_body_t, sizeof_p9_attach_msg_body_t, sizeof_p9_walk_msg_body_t, sizeof_p9_create_msg_body_t,
    sizeof_p9_write_msg_body_t in *;
  repeat (rewrite ?length_app, ?length_le_bytes in * ).
Ltac lens_lia := lens; simpl in *; lia.

(** One more field behind what [H] says was written. *)
Lemma built_field m0 m a pre n v at_ : built m0 m a pre -> at_ = a + length pre -> in_ram a (length pre + n)%nat ->
  built m0 (wr_bytes m at_ (le_bytes n v)) a (pre ++ le_bytes n v).
Proof. intros Hb E Hr. apply built_wr; [done..|by rewrite length_le_bytes|apply le_bytes_is_bytes]. Qed.

Lemma built_byte m0 m a pre v at_ : built m0 m a pre -> at_ = a + length pre -> in_ram a (length pre + 1)%nat ->
  in_width 8 v -> built m0 (wr8 m at_ v) a (pre ++ le_bytes 1 v).
Proof.
  intros Hb E Hr Hv. assert (le_bytes 1 v = [v]) as -> by (simpl; by rewrite wrap_small).
  apply built_wr; [done..|]. by repeat constructor; apply Hv.
Qed.

Lemma built_rd16 m0 m a x v z at_ : built m0 m a (x ++ le_bytes 2 v ++ z) -> in_width 16 v -> at_ = a + length x ->
  rd16 m at_ = v.
Proof.
  intros Hb Hv ->. unfold rd16. pose proof (built_part _ _ _ _ _ _ Hb) as E. rewrite length_le_bytes in E.
  rewrite E, le_val_bytes. by apply wrap_small.
Qed.

Lemma built_rd32 m0 m a x v z at_ : built m0 m a (x ++ le_bytes 4 v ++ z) -> at_ = a + length x ->
  rd32 m at_ = u32 v.
Proof.
  intros Hb ->. unfold rd32. pose proof (built_part _ _ _ _ _ _ Hb) as E. rewrite length_le_bytes in E.
  by rewrite E, le_val_bytes.
Qed.

Lemma u32_is x y : x = y -> 0 <= x < 2 ^ 32 -> y = u32 x.
Proof. intros -> H. by rewrite wrap_small. Qed.

(** Two strings, the second one found behind the first by its length. *)
Lemma set_two_strings_ok fuel m0 m a pre at_ s1 s2 str1 str2 :
  built m0 m a pre -> at_ = a + length pre -> cstr_at m0 s1 str1 -> cstr_at m0 s2 str2 ->
  (length str1 < fuel)%nat -> (length str2 < fuel)%nat -> length str1 < 2 ^ 16 ->
  in_ram a (length pre + length (enc_str str1) + length (enc_str str2))%nat ->
  apart a (length pre + length (enc_str str1) + length (enc_str str2))%nat s1 (length str1 + 1)%nat ->
  apart a (length pre + length (enc_str str1) + length (enc_str str2))%nat s2 (length str2 + 1)%nat ->
  exists m', (m ← set_string fuel m at_ s1; set_string fuel m (at_ + rd16 m at_ + sizeof_p9_string_t) s2) = Some m' /\
    built m0 m' a (pre ++ enc_str str1 ++ enc_str str2).
Proof.
  intros Hb E Hs1 Hs2 Hf1 Hf2 Hl Hr Ha1 Ha2.
  destruct (set_string_ok fuel _ _ _ _ at_ _ _ Hb E Hs1 Hf1) as (m1 & -> & Hb1); [lens_lia..|]. cbn [mbind option_bind].
  assert (rd16 m1 at_ = length str1) as ->.
  { eapply (built_rd16 m0 m1 a pre); [exact Hb1|unfold in_width; lia|done]. }
  rewrite app_assoc. eapply set_string_ok; [exact Hb1| |done|done|..]; lens_lia.
Qed.

Section Client.
Context (fuel : nat) (lit : string -> Z) (k : client).

Lemma p9_clunk_enc addr fid : in_width 32 fid -> room addr (TClunk fid) -> wrote k (p9_clunk k addr fid) addr (TClunk fid).
Proof.
  intros Hf Hr. unfold room in Hr. cbn [body_enc] in Hr. split; [|done]. rewrite pkt_split. unfold p9_clunk.
  apply built_field; [apply set_msg_ok; [lens_lia|done]| |lens_lia]. done.
Qed.

Lemma p9_remove_enc addr fid : in_width 32 fid -> room addr (TRemove fid) -> wrote k (p9_remove k addr fid) addr (TRemove fid).
Proof.
  intros Hf Hr. unfold room in Hr. cbn [body_enc] in Hr. split; [|done]. rewrite pkt_split. unfold p9_remove.
  apply built_field; [apply set_msg_ok; [lens_lia|done]| |lens_lia]. done.
Qed.

Lemma p9_open_enc addr fid mode : in_width 8 mode -> room addr (TOpen fid mode) ->
  wrote k (p9_open k addr fid mode) addr (TOpen fid mode).
Proof.
  intros Hm Hr. unfold room in Hr. cbn [body_enc] in Hr. split; [|done]. rewrite pkt_split. unfold p9_open.
  cbn [body_enc]. rewrite app_assoc.
  apply built_byte; [apply built_field; [apply set_msg_ok; [lens_lia|done]|done|lens_lia]|lens_lia|lens_lia|done].
Qed.

Lemma p9_read_enc addr fid offset count : room addr (TRead fid (Z.land offset 0xffffffff) count) ->
  wrote k (p9_read k addr fid offset count) addr (TRead fid (Z.land offset 0xffffffff) count).
Proof.
  intros Hr. unfold room in Hr. cbn [body_enc] in Hr. split; [|done]. rewrite pkt_split. unfold p9_read.
  cbn [body_enc]. rewrite !app_assoc.
  apply built_field; [apply built_field; [apply built_field; [apply set_msg_ok; [lens_lia|done]|done|lens_lia]| |]| |].
  all: lens_lia.
Qed.

Lemma p9_write_enc addr fid offset data count :
  0 <= count -> let t := TWrite fid (Z.land offset 0xffffffff) count (rd_bytes (c_ram k) data (Z.to_nat count)) in
  room addr t -> in_ram data (Z.to_nat count) -> apart addr (7 + length (body_enc t))%nat data (Z.to_nat count) ->
  wrote k (p9_write k addr fid offset data count) addr t.
Proof.
  intros Hc t Hr Hd Ha. unfold room in Hr. cbn [t body_enc] in Hr, Ha. split; [|done]. rewrite pkt_split. unfold p9_write.
  cbn [t body_enc t_type]. rewrite !app_assoc, !length_app, length_rd_bytes, !length_le_bytes in *.
  replace (u32 (sizeof_p9_msg_t + sizeof_p9_write_msg_body_t + count)) with (7 + (4 + 8 + 4 + Z.to_nat count)%nat).
  2: { rewrite (wrap_small 32) by (unfold in_width; lens_lia). lens_lia. }
  apply built_memcpy; [|lens_lia..].
  apply built_field; [apply built_field; [apply built_field; [apply set_msg_ok; [lens_lia|done]|done|lens_lia]| |]| |].
  all: lens_lia.
Qed.

(** A string argument outside of the buffer. *)
Definition arg (addr : Z) (t : tbody) (s : Z) (str : bytes) : Prop :=
  cstr_at (c_ram k) s str /\ (length str < fuel)%nat /\ apart addr (7 + length (body_enc t))%nat s (length str + 1)%nat.

Lemma arg_strlen addr t s str : arg addr t s str -> strlen fuel (c_ram k) s = Some (Z.of_nat (length str)).
Proof. intros (Hs & Hf & _). by apply strlen_ok. Qed.

Lemma p9_version_enc addr :
  let t := TVersion 0x10000 (string_bytes "P92021") in
  room addr t -> arg addr t (lit "P92021") (string_bytes "P92021") ->
  exists k', p9_version fuel lit k addr = Some k' /\ wrote k k' addr t.
Proof.
  intros t Hr Ha. pose proof Ha as (Hs & Hf & Hap). unfold room in Hr. cbn [t body_enc] in Hr, Hap. unfold p9_version.
  rewrite (arg_strlen _ _ _ _ Ha). cbn [mbind option_bind].
  set (k1 := set_msg k addr _ P9_TVERSION).
  assert (built (c_ram k) (wr32 (c_ram k1) (msg_body addr) 0x10000) addr
    (header 19 P9_TVERSION (u16 (c_tag k)) ++ le_bytes 4 0x10000)) as Hb.
  { apply built_field; [apply set_msg_ok; [lens_lia|done]|lens_lia|lens_lia]. }
  destruct (set_string_ok fuel _ _ _ _ (msg_body addr + sizeof_p9_version_msg_body_t) _ _ Hb ltac:(lens_lia) Hs Hf) as (m' & -> & Hb').
  - lens_lia.
  - lens_lia.
  - eexists. split; [done|]. split; [|done]. rewrite pkt_split. cbn [t body_enc]. rewrite app_assoc. exact Hb'.
Qed.

Lemma p9_attach_enc addr u a us as_ :
  let t := TAttach (c_fid k) (u32 (-1)) us as_ in
  in_width 32 (c_fid k) -> room addr t -> arg addr t u us -> arg addr t a as_ -> length us < 2 ^ 16 ->
  exists k', p9_attach fuel k addr u a = Some (i32 (c_fid k), k') /\ wrote k k' addr t /\ c_fid k' = u32 (c_fid k + 1).
Proof.
  intros t Hw Hr Hu Ha Hl. pose proof Hu as (Hs1 & Hf1 & Hap1). pose proof Ha as (Hs2 & Hf2 & Hap2).
  pose proof (cs_room _ _ _ Hs1) as Hc1. pose proof (cs_room _ _ _ Hs2) as Hc2.
  unfold room in Hr. cbn [t body_enc] in Hr, Hap1, Hap2. unfold p9_attach.
  rewrite (arg_strlen _ _ _ _ Hu), (arg_strlen _ _ _ _ Ha). cbn [mbind option_bind].
  replace (u32 (sizeof_p9_msg_t + sizeof_p9_attach_msg_body_t + sizeof_p9_string_t + sizeof_p9_string_t +
    length us + length as_)) with (7 + length (body_enc t)).
  2: { cbn [t body_enc]. apply u32_is; lens_lia. }
  set (k1 := set_msg k addr _ P9_TATTACH).
  assert (built (c_ram k) (wr32 (wr32 (c_ram k1) (msg_body addr) (c_fid k1)) (msg_body addr + 4) (-1)) addr
    ((header (7 + length (body_enc t)) P9_TATTACH (u16 (c_tag k)) ++ le_bytes 4 (c_fid k)) ++ le_bytes 4 (-1))) as Hb.
  { apply built_field; [apply built_field; [apply set_msg_ok; [lens_lia|done]|lens_lia|lens_lia]|lens_lia|lens_lia]. }
  destruct (set_two_strings_ok fuel _ _ _ _ (msg_body addr + sizeof_p9_attach_msg_body_t) u a us as_ Hb) as (m' & E & Hb').
  all: try lens_lia; try done.
  cbn [mbind option_bind] in E |- *. rewrite <-!app_assoc in Hb'.
  destruct (set_string _ _ _ u) as [m1|]; [|done]. cbn [mbind option_bind] in E |- *. rewrite E. cbn [mbind option_bind].
  rewrite (built_rd32 _ _ _ _ _ _ (msg_body addr) Hb'), (wrap_small 32 (c_fid k)) by (done || lens_lia).
  eexists. split; [done|]. split; [split; [|done]|done]. rewrite pkt_split. exact Hb'.
Qed.

Lemma p9_auth_enc addr u a :
  let t := TAuth (c_fid k) (string_bytes "pizza") (string_bytes "who") in
  in_width 32 (c_fid k) -> room addr t -> arg addr t (lit "pizza") (string_bytes "pizza") ->
  arg addr t (lit "who") (string_bytes "who") ->
  exists k', p9_auth fuel lit k addr u a = Some k' /\ wrote k k' addr t /\ c_fid k' = u32 (c_fid k + 1).
Proof.
  intros t Hw Hr Hu Ha. pose proof Hu as (Hs1 & Hf1 & Hap1). pose proof Ha as (Hs2 & Hf2 & Hap2).
  unfold room in Hr. cbn [t body_enc] in Hr, Hap1, Hap2. unfold p9_auth.
  rewrite (arg_strlen _ _ _ _ Hu), (arg_strlen _ _ _ _ Ha). cbn [mbind option_bind].
  set (k1 := set_msg k addr _ P9_TAUTH).
  assert (built (c_ram k) (wr32 (c_ram k1) (msg_body addr) (c_fid k1)) addr
    (header (7 + length (body_enc t)) P9_TAUTH (u16 (c_tag k)) ++ le_bytes 4 (c_fid k))) as Hb.
  { apply built_field; [apply set_msg_ok; [lens_lia|done]|lens_lia|lens_lia]. }
  destruct (set_two_strings_ok fuel _ _ _ _ (msg_body addr + sizeof_p9_auth_msg_body_t) (lit "pizza") (lit "who")
    (string_bytes "pizza") (string_bytes "who") Hb) as (m' & E & Hb').
  all: try lens_lia; try done.
  cbn [mbind option_bind] in E |- *. destruct (set_string _ _ _ (lit "pizza")) as [m1|]; [|done].
  cbn [mbind option_bind] in E |- *. rewrite E.
  cbn [mbind option_bind]. eexists. split; [done|]. split; [split; [|done]|done]. rewrite pkt_split. rewrite <-app_assoc in Hb'. exact Hb'.
Qed.

Lemma p9_create_enc addr fid newf perms mode name :
  let t := TCreate fid name perms mode in
  in_width 8 mode -> room addr t -> arg addr t newf name -> length name < 2 ^ 16 ->
  exists k', p9_create fuel k addr fid newf perms mode = Some k' /\ wrote k k' addr t.
Proof.
  intros t Hm Hr Hu Hl. pose proof Hu as (Hs & Hf & Hap). pose proof (cs_room _ _ _ Hs) as Hc.
  unfold room in Hr. cbn [t body_enc] in Hr, Hap. unfold p9_create.
  rewrite (arg_strlen _ _ _ _ Hu). cbn [mbind option_bind].
  replace (u32 (sizeof_p9_msg_t + sizeof_p9_create_msg_body_t + sizeof_p9_string_t + length name + 4 + 1))
    with (7 + length (body_enc t)).
  2: { cbn [t body_enc]. apply u32_is; lens_lia. }
  set (k1 := set_msg k addr _ P9_TCREATE). set (hdr := header (7 + length (body_enc t)) P9_TCREATE (u16 (c_tag k))).
  assert (length hdr = 7%nat) as Hh by done.
  assert (built (c_ram k) (wr32 (c_ram k1) (msg_body addr) fid) addr (hdr ++ le_bytes 4 fid)) as Hb.
  { apply built_field; [apply set_msg_ok; [lens_lia|done]|lens_lia|lens_lia]. }
  rewrite (strlen_ok fuel (wr32 (c_ram k1) (msg_body addr) fid) newf name); [|eapply cstr_built; [exact Hb|done|lens_lia]|done].
  cbn [mbind option_bind]. set (m1 := wr16 _ _ _).
  assert (built (c_ram k) m1 addr ((hdr ++ le_bytes 4 fid) ++ le_bytes 2 (length name))) as Hb1.
  { apply built_field; [done|lens_lia|lens_lia]. }
  assert (rd16 m1 (msg_body addr + sizeof_p9_create_msg_body_t) = length name) as E1.
  { eapply (built_rd16 _ _ _ (hdr ++ le_bytes 4 fid) _ []); [rewrite app_nil_r; exact Hb1|unfold in_width; lia|lens_lia]. }
  rewrite E1, Nat2Z.id. set (m2 := memcpy _ _ _ _).
  assert (built (c_ram k) m2 addr (((hdr ++ le_bytes 4 fid) ++ le_bytes 2 (length name)) ++ name)) as Hb2.
  { rewrite <-(cstr_data _ _ _ Hs) at 2. apply built_memcpy; [done|lens_lia..| |]; destruct Hs as [Hsr _ _]; lens_lia. }
  assert (rd16 m2 (msg_body addr + sizeof_p9_create_msg_body_t) = length name) as E2.
  { eapply (built_rd16 _ _ _ (hdr ++ le_bytes 4 fid) _ name); [by rewrite app_assoc|unfold in_width; lia|lens_lia]. }
  rewrite E2. eexists. split; [done|]. split; [|done]. rewrite pkt_split.
  change (header (7 + length (body_enc t)) (t_type t) (u16 (c_tag k))) with hdr.
  replace (hdr ++ body_enc t) with (((((hdr ++ le_bytes 4 fid) ++ le_bytes 2 (length name)) ++ name) ++ le_bytes 4 perms) ++ le_bytes 1 mode).
  2: { by rewrite <-!app_assoc. }
  apply built_byte; [apply built_field; [exact Hb2|lens_lia..]|lens_lia..|done].
Qed.

(** The strings [names] behind the array of pointers at [w], outside of [n] bytes at [addr]. *)
Fixpoint names_at (addr n w : Z) (names : list bytes) : Prop :=
  match names with
  | [] => True
  | str :: l =>
      let s := rd32 (c_ram k) w in
      in_ram w 4 /\ apart addr n w 4 /\ cstr_at (c_ram k) s str /\ (length str < fuel)%nat /\ length str < 2 ^ 16 /\
      apart addr n s (length str + 1)%nat /\ names_at addr n (w + 4) l
  end.

Lemma names_size_ok addr n names : forall w total,
  names_at addr n w names -> 0 <= total -> total + length (concat (enc_str <$> names)) < 2 ^ 32 ->
  names_size fuel (c_ram k) w (length names) total = Some (total + length (concat (enc_str <$> names))).
Proof.
  induction names as [|str l IH]; intros w total Hn Ht Hl; cbn [names_size length].
  { simpl. f_equal. lia. }
  destruct Hn as (_ & _ & Hs & Hf & _ & _ & Hn). rewrite (strlen_ok _ _ _ _ Hs Hf). cbn [mbind option_bind].
  rewrite fmap_cons in Hl |- *. cbn [concat] in Hl |- *. unfold enc_str at 1 in Hl. unfold enc_str at 1.
  rewrite !length_app, length_le_bytes in Hl |- *. unfold sizeof_p9_string_t.
  rewrite (wrap_small 32 (total + 2)), (wrap_small 32) by (unfold in_width; lia).
  rewrite IH by (done || lia). f_equal. lia.
Qed.

Lemma set_names_ok addr (n : nat) names : forall m pre at_ w,
  built (c_ram k) m addr pre -> at_ = addr + length pre -> names_at addr n w names ->
  n = (length pre + length (concat (enc_str <$> names)))%nat -> in_ram addr n ->
  exists m', set_names fuel m at_ w (length names) = Some m' /\
    built (c_ram k) m' addr (pre ++ concat (enc_str <$> names)).
Proof.
  induction names as [|str l IH]; intros m pre at_ w Hb -> Hn En Hr; cbn [set_names length].
  { exists m. simpl. by rewrite app_nil_r. }
  destruct Hn as (Hw & Haw & Hs & Hf & Hl & Has & Hn). rewrite fmap_cons in En |- *. cbn [concat] in En |- *.
  rewrite length_app in En. set (rest := concat (enc_str <$> l)) in *.
  assert (rd32 m w = rd32 (c_ram k) w) as ->.
  { unfold rd32. f_equal. eapply built_rd; [exact Hb|done|unfold apart in *; lia]. }
  destruct (set_string_ok fuel _ _ _ _ (addr + length pre) _ _ Hb eq_refl Hs Hf) as (m1 & -> & Hb1).
  { unfold in_ram in *. lia. }
  { unfold apart in *. lia. }
  cbn [mbind option_bind].
  assert (rd16 m1 (addr + length pre) = length str) as ->.
  { eapply (built_rd16 _ m1 addr pre); [exact Hb1|unfold in_width; lia|done]. }
  destruct (IH m1 (pre ++ enc_str str) (addr + length pre + sizeof_p9_string_t + length str) (w + 4))
    as (m' & E & Hb'); [done| |done|rewrite length_app; lia|done|].
  { unfold enc_str. rewrite !length_app, length_le_bytes. unfold sizeof_p9_string_t. lia. }
  exists m'. by rewrite app_assoc.
Qed.

Lemma p9_walk_enc addr fid newfid wnames names :
  let t := TWalk fid newfid names in
  in_width 32 newfid -> room addr t -> names_at addr (7 + length (body_enc t))%nat wnames names ->
  exists k', p9_walk fuel k addr fid newfid (length names) wnames = Some (i32 newfid, k') /\ wrote k k' addr t.
Proof.
  intros t Hw Hr Hn. unfold room in Hr. unfold p9_walk. rewrite Nat2Z.id.
  set (rest := concat (enc_str <$> names)).
  assert (length (body_enc t) = (10 + length rest)%nat) as El by (cbn [t body_enc]; by rewrite !length_app, !length_le_bytes).
  assert (17 + length rest < 2 ^ 32) as Hlt.
  { unfold rest in *. destruct names as [|str l]; [done|]. destruct Hn as (Hn1 & Hn2 & _). unfold in_ram, apart in *. lia. }
  erewrite names_size_ok; [|exact Hn|done|exact Hlt].
  cbn [mbind option_bind]. fold rest. set (total := _ + _ + _).
  assert (total = 7 + length (body_enc t)) as -> by (rewrite El; unfold total, sizeof_p9_msg_t, sizeof_p9_walk_msg_body_t; lia).
  set (hdr := header (7 + length (body_enc t)) P9_TWALK (u16 (c_tag k))). assert (length hdr = 7%nat) as Hh by done.
  set (k1 := set_msg k addr _ P9_TWALK).
  assert (built (c_ram k) (c_ram k1) addr hdr) as H0 by (apply set_msg_ok; [unfold in_ram in *; lia|done]).
  set (m := wr16 _ _ _).
  assert (built (c_ram k) m addr (((hdr ++ le_bytes 4 fid) ++ le_bytes 4 newfid) ++ le_bytes 2 (length names))) as H1.
  { apply built_field; [apply built_field; [apply built_field; [exact H0|..]|..]|..]; clear Hn; lens_lia. }
  destruct (set_names_ok addr (7 + length (body_enc t)) names m _ (msg_body addr + sizeof_p9_walk_msg_body_t) wnames H1)
    as (m' & -> & Hb'); [clear -Hh; lens_lia|done| |done|].
  { rewrite El, !length_app, !length_le_bytes. unfold rest. lia. }
  cbn [mbind option_bind].
  rewrite <-!app_assoc in Hb'. change (built (c_ram k) m' addr (hdr ++ body_enc t)) in Hb'.
  erewrite (built_rd32 _ _ _ (hdr ++ le_bytes 4 fid) newfid _ (msg_body addr + 4));
    [|rewrite <-app_assoc; exact Hb'|clear -Hh; lens_lia]. rewrite (wrap_small 32 newfid) by done.
  eexists. split; [done|]. split; [|done]. rewrite pkt_split. exact Hb'.
Qed.
End Client.
