(* ===== verification/KShare.v ===== *)
(** * KShare: the memory that the guest and its devices share *)

From S2P Require Import Prelude Effects KMem Wire Device Virtio VirtioExec KP9Enc.

(** The device sees the memory [m] of the guest. *)
Definition shares (g : memory_manager) (m : ram) : Prop := forall a (n : nat),
  in_memory g a n -> guest_bytes g a n = rd_bytes m a n.

Lemma load_rd m a size o n : (o + n <= size)%nat -> load (rd_bytes m a size) o n = rd_bytes m (a + o) n.
Proof.
  intros Hn. replace size with (o + n + (size - o - n))%nat by lia. rewrite !rd_bytes_app. unfold load.
  rewrite <-app_assoc, drop_app_length' by (by rewrite length_rd_bytes). by rewrite take_app_length' by (by rewrite length_rd_bytes).
Qed.

(** A device that maps the memory as it is. *)
Lemma shares_snapshot g m : m_guest_end_paddr g = m_guest_start_paddr g + m_mem_size g ->
  shares (g <| m_memory := rd_bytes m (m_guest_start_paddr g) (Z.to_nat (m_mem_size g)) |>) m.
Proof.
  intros He a n [Ha Hn]. simpl in *. unfold set_field in *. unfold guest_bytes. simpl. unfold set_field. rewrite Nat2Z.id, load_rd by lia.
  f_equal. lia.
Qed.

(** A number in the shared memory. *)
Lemma shares_bytes g m a (n : nat) bs : shares g m -> in_memory g a n -> rd_bytes m a n = bs -> guest_bytes g a n = bs.
Proof. intros Hs Hi <-. by apply Hs. Qed.

Lemma shares16 g m a v : shares g m -> in_memory g a 2 -> in_width 16 v -> rd_bytes m a 2 = le_bytes 2 v -> guest16 g a = v.
Proof.
  intros Hs Hi Hv E. unfold guest16. pose proof (shares_bytes g m a 2 _ Hs Hi E) as H. change (Z.of_nat 2) with 2 in H.
  rewrite H, le_val_bytes. by apply wrap_small.
Qed.
