(* ===== verification/KP9Props.v ===== *)
(** * KP9Props: the guest's 9p client against the server *)

From S2P Require Import Prelude Effects KMem Libc Wire Device Virtio VirtioExec.
From S2P Require Import P9Wire P9Core P9Dev P9Parse P9Steps KP9 KP9Enc KShare P9Props.

Implicit Types (k : client) (w : p9_world) (b : VirtBuf).

(** The calls of the client; where an argument points to strings, they are given too. *)
Inductive p9_call :=
  | CVersion
  | CAuth (u a : Z)
  | CAttach (u a : Z) (us as_ : bytes)
  | CWalk (fid newfid wnames : Z) (names : list bytes)
  | CCreate (fid newf perms mode : Z) (name : bytes)
  | CWrite (fid offset data count : Z)
  | CRead (fid offset count : Z)
  | COpen (fid mode : Z)
  | CClunk (fid : Z)
  | CRemove (fid : Z).

Section Calls.
Context (fuel : nat) (lit : string -> Z).

Definition p9_client (k : client) (addr : Z) (c : p9_call) : option client :=
  match c with
  | CVersion => p9_version fuel lit k addr
  | CAuth u a => p9_auth fuel lit k addr u a
  | CAttach u a _ _ => snd <$> p9_attach fuel k addr u a
  | CWalk fid newfid wnames names => snd <$> p9_walk fuel k addr fid newfid (length names) wnames
  | CCreate fid newf perms mode _ => p9_create fuel k addr fid newf perms mode
  | CWrite fid offset data count => Some (p9_write k addr fid offset data count)
  | CRead fid offset count => Some (p9_read k addr fid offset count)
  | COpen fid mode => Some (p9_open k addr fid mode)
  | CClunk fid => Some (p9_clunk k addr fid)
  | CRemove fid => Some (p9_remove k addr fid)
  end.

(** The request that a call stands for; offsets are cut to 32 bits. *)
Definition meant (k : client) (c : p9_call) : tbody :=
  match c with
  | CVersion => TVersion 0x10000 (string_bytes "P92021")
  | CAuth _ _ => TAuth (c_fid k) (string_bytes "pizza") (string_bytes "who")
  | CAttach _ _ us as_ => TAttach (c_fid k) (u32 (-1)) us as_
  | CWalk fid newfid _ names => TWalk fid newfid names
  | CCreate fid _ perms mode name => TCreate fid name perms mode
  | CWrite fid offset data count =>
      TWrite fid (Z.land offset 0xffffffff) count (rd_bytes (c_ram k) data (Z.to_nat count))
  | CRead fid offset count => TRead fid (Z.land offset 0xffffffff) count
  | COpen fid mode => TOpen fid mode
  | CClunk fid => TClunk fid
  | CRemove fid => TRemove fid
  end.

(** What the pointers of the call point to lies outside of the packet. *)
Definition args_at (k : client) (addr : Z) (c : p9_call) : Prop :=
  let t := meant k c in
  match c with
  | CVersion => arg fuel k addr t (lit "P92021") (string_bytes "P92021")
  | CAuth _ _ => arg fuel k addr t (lit "pizza") (string_bytes "pizza") /\ arg fuel k addr t (lit "who") (string_bytes "who")
  | CAttach u a us as_ => arg fuel k addr t u us /\ arg fuel k addr t a as_
  | CWalk _ _ wnames names => names_at fuel k addr (7 + length (body_enc t))%nat wnames names
  | CCreate _ newf _ _ name => arg fuel k addr t newf name
  | CWrite _ _ data count =>
      in_ram data (Z.to_nat count) /\ apart addr (7 + length (body_enc t))%nat data (Z.to_nat count)
  | _ => True
  end.

Lemma p9_client_enc k addr c : in_width 32 (c_fid k) -> sendable (meant k c) -> room addr (meant k c) -> args_at k addr c ->
  exists k', p9_client k addr c = Some k' /\ wrote k k' addr (meant k c).
Proof.
  intros Hk Hs Hr Ha. destruct c; cbn [p9_client meant args_at sendable] in *.
  - by apply p9_version_enc.
  - destruct Ha as [Hu Hn]. destruct (p9_auth_enc fuel lit k addr u a Hk Hr Hu Hn) as (k' & E & W & _). eauto.
  - destruct Ha as [Hu Hn]. destruct Hs as (_ & _ & [Hl _] & _).
    destruct (p9_attach_enc fuel k addr u a us as_ Hk Hr Hu Hn Hl) as (k' & -> & W & _). by exists k'.
  - destruct Hs as (_ & Hw & _). destruct (p9_walk_enc fuel k addr fid newfid wnames names Hw Hr Ha) as (k' & -> & W).
    by exists k'.
  - destruct Hs as (_ & [Hl _] & _ & Hm). by apply p9_create_enc.
  - destruct Hs as (_ & _ & Hc & _). destruct Ha as [Hd Hp]. eexists. split; [done|].
    apply p9_write_enc; [unfold in_width in Hc; lia|done..].
  - eexists. split; [done|]. by apply p9_read_enc.
  - destruct Hs as [_ Hm]. eexists. split; [done|]. by apply p9_open_enc.
  - eexists. split; [done|]. by apply p9_clunk_enc.
  - eexists. split; [done|]. by apply p9_remove_enc.
Qed.
End Calls.

(** C8: Every function of the guest's client ends and leaves a packet in its buffer
    such that the device, which sees the guest's memory, queues the request that
    the call stands for under the client's tag; all other bytes of the memory keep
    their values, and the next request has the next tag.  The numbers and the data
    of the request arrive as they were given.  A string arrives with what the
    memory behind the server's block holds up to the next zero: the client
    sends no terminator and the server reads a C string.  It is exact where that
    memory starts with a zero; where it holds no zero at all, the server reads
    outside of mapped memory, and that is its only fault.  The blocks of [operator
    new] have the size that was asked for. *)
Theorem guest_request_served fuel lit env k addr c b :
  full_blocks env -> in_width 32 (c_fid k) -> sendable (meant k c) -> room addr (meant k c) -> args_at fuel lit k addr c ->
  vb_guest_addr b = addr -> 7 + length (body_enc (meant k c)) <= vb_len b ->
  exists k', p9_client fuel lit k addr c = Some k' /\ c_tag k' = u32 (c_tag k + 1) /\
    (forall x, in_ram x 1 -> apart addr (7 + length (body_enc (meant k c)))%nat x 1 -> c_ram k' x = c_ram k x) /\
    forall w, vdev_ok (pd_base (w_st w)) -> vbuf_ok (w_st w) b -> shares (m_mem (pd_base (w_st w))) (c_ram k') ->
    let queued (r : Z) (w' : p9_world) := r = 0 /\ exists t', received env (meant k c) t' /\
      (Forall (zero_ended env) (strings_of (meant k c)) -> t' = meant k c) /\
      w_st w' = (w_st w) <| m_trequest_queue ::= fun q => q ++ [TRequest (u16 (c_tag k)) t'] |> in
    (Forall (terminated env) (strings_of (meant k c)) -> wp (handleTMesg env no_race b) queued w) /\
    upto reads_outside (handleTMesg env no_race b) queued w.
Proof.
  intros Hfull Hk Hs Hr Ha Eb Hl. destruct (p9_client_enc fuel lit k addr c Hk Hs Hr Ha) as (k' & E & [[Hroom Hb Hf] Ht]).
  assert (length (pkt_enc (TRequest (u16 (c_tag k)) (meant k c))) = (7 + length (body_enc (meant k c)))%nat) as Elen
    by (rewrite pkt_split, length_app, length_header_7; done).
  exists k'. split_and!; [done..| |].
  { intros x Hx Hap. apply Hf; [done|]. unfold apart in Hap. lia. }
  intros w Hv Hvb Hsh queued. apply handled_as_sent. intros ok Hok.
  eapply upto_mono; [apply (handleTMesg_enc env ok b (TRequest (u16 (c_tag k)) (meant k c))); [done..| | |]|].
  - apply wrap_range. lia.
  - rewrite Elen. lia.
  - rewrite Eb, Hsh; [done|]. destruct Hvb as [[Hlo Hhi] _]. rewrite Eb in *. split; lia.
  - intros r w' (-> & t' & Ht' & E'). split; [done|]. exists t'. split_and!; [done|intros Hz; by eapply received_exact|done].
Qed.

(** A guest whose memory holds the path "dir" at 0x2000 and, at 0x2010, a pointer to it. *)
Definition walk_client : client :=
  Client (wr32 (wr_bytes (fun _ => 0) 0x2000 (string_bytes "dir" ++ [0])) 0x2010 0x2000) 3 0x10005.
Definition walk_call : p9_call := CWalk 1 2 0x2010 [string_bytes "dir"].
Definition snapshot (m : ram) : P9FsDev :=
  (sample_dev [] []) <| pd_base ::= fun d => d <| m_mem ::= fun g => g <| m_memory := rd_bytes m 0x1000 64 |> |> |>.

Lemma snapshot_ok m : vdev_ok (pd_base (snapshot m)).
Proof.
  destruct sample_base_ok as [[] ? ? ?]. constructor; try done.
  - constructor; try done. apply is_bytes_rd.
  - apply (Forall_replicate _ 2). constructor; simpl; try done; unfold in_width; try lia.
    repeat constructor; simpl; lia.
Qed.

Lemma snapshot_buf m : vbuf_ok (snapshot m) (Vbuf 0x1000 64 0 0 0 0x1000).
Proof. assert (in_memory sample_memory 0x1000 64) as Hi by (by vm_compute). by split; [exact Hi|]. Qed.

Lemma guest_request_served_witness :
  exists k', p9_client 10 (fun _ => 0) walk_client 0x1000 walk_call = Some k' /\
  wp (handleTMesg share_env no_race (Vbuf 0x1000 64 0 0 0 0x1000))
    (fun r w' => m_trequest_queue (w_st w') = [TRequest 5 (TWalk 1 2 [string_bytes "dir"])])
    (World (snapshot (c_ram k')) [] []).
Proof.
  edestruct (guest_request_served 10 (fun _ => 0) share_env walk_client 0x1000 walk_call (Vbuf 0x1000 64 0 0 0 0x1000))
    as (k' & E & _ & _ & H).
  - intros trace n. simpl. rewrite length_app, length_replicate. simpl. lia.
  - done.
  - simpl. split_and!; try done. repeat constructor; try done; apply (bool_decide_unpack _); by vm_compute.
  - by vm_compute.
  - cbn [walk_call args_at names_at].
    replace (rd32 (c_ram walk_client) 0x2010) with 0x2000 by (by vm_compute).
    split_and!; try done; try (unfold apart; simpl; lia).
    constructor; [by vm_compute|by vm_compute|]. apply (bool_decide_unpack _); by vm_compute.
  - done.
  - by vm_compute.
  - exists k'. split; [exact E|].
    destruct (H (World (snapshot (c_ram k')) [] []) (snapshot_ok _) (snapshot_buf _) (shares_snapshot sample_memory (c_ram k') eq_refl)) as [Hw _].
    clear E H. eapply wp_mono; [apply Hw; repeat constructor; by eexists|].
    intros r w' (_ & t' & _ & Ht & E'). rewrite Ht in E' by repeat constructor. by rewrite E'.
Defined.
