(* ===== verification/KSys.v ===== *)
(** * KSys: the guest kernel and the machine it runs on
    (boot/kernel/kernel.c, asm_routines.asm, interrupts.h, noflag.c)

    What leaves the kernel are port accesses, stores to device registers and a
    few instructions; they are the calls of an interface.  The devices store
    into the guest's memory: while the kernel waits in a loop ([Wait], which may
    also bring interrupts), and while a store to a register of a virtio device
    is carried out.  The memory and the globals of the allocator are the record
    [kheap]; the other globals of the C files are fields of their own. *)

From S2P Require Import Prelude Effects KMem KMalloc Libc P9Wire KP9.
From Stdlib Require Import Ascii.

Inductive kcall :=
  | Outb (v port : Z)
  | Outd (v port : Z)
  | Inb (port : Z)
  | Reg (a v : Z)         (* a register of a virtio device *)
  | St32 (a v : Z)        (* the local APIC and the I/O APIC *)
  | St8 (a v : Z)         (* the display *)
  | Ld8 (a : Z)
  | Rdmsr (msr : Z)
  | Apic_id               (* cpuid, leaf 1, bits 31-24 of EBX *)
  | Lidt (base limit : Z)
  | Sti
  | Wait.

(** What happens while the kernel waits. *)
Inductive outside :=
  | Dma (a : Z) (bs : bytes)
  | Irq (irq : Z)
  | Racing.               (* another CPU, in [ap_run] *)

Definition kreply (c : kcall) : Type :=
  match c with
  | Inb _ | Ld8 _ | Rdmsr _ | Apic_id => Z
  | Reg _ _ => list (Z * bytes)
  | Wait => list outside
  | _ => unit
  end.

#[export] Instance empty_set_eq_dec : EqDecision Empty_set.
Proof. intros []. Defined.
Definition k_iface : iface := Iface kcall kreply Empty_set _.
Abbreviation kenv := (environment k_iface).

(** [idt_entry_t] and [idtr_t] *)
Record idt_entry_t := IdtEntry { isr_low : Z; kernel_cs : Z; reserved : Z; attributes : Z; isr_high : Z }.
Record idtr_t := Idtr { limit : Z; idtr_base : Z }.
Definition sizeof_idt_entry_t := 8.
Definition IDT_MAX_DESCRIPTORS := 10.

Record kernel := Kernel {
  k_heap : kheap;
  g_fid : Z;               (* p9.c *)
  g_tag : Z;
  OGX_READY : Z;
  p9_racing_doit : Z;
  p9_ready_to_race : Z;
  p9_race_addr : Z;
  p9_intrs : Z;
  rolling_fid : Z;
  p9_rq : Z;
  idt : list idt_entry_t;  (* 256 entries *)
  idtr : idtr_t;
}.
#[export] Instance kernel_eta : Settable kernel := fun k =>
  Kernel (k_heap k) (g_fid k) (g_tag k) (OGX_READY k) (p9_racing_doit k) (p9_ready_to_race k) (p9_race_addr k)
    (p9_intrs k) (rolling_fid k) (p9_rq k) (idt k) (idtr k).

Abbreviation kprog := (prog k_iface kernel).
Abbreviation kworld := (world k_iface kernel).

Definition k_ram (k : kernel) : ram := kram (k_heap k).
Definition put_ram (f : ram -> ram) (k : kernel) : kernel := k <| k_heap ::= fun h => h <| kram ::= f |> |>.

Definition CRLF : string := String "013"%char (String "010"%char EmptyString).

Definition VGA := 0xA0000.
Definition ioapic_ptr := 0xFEC00000.
Definition lapic_ptr := 0xfee00000.
Definition OGX_READY_IRQ := 2.
Definition P9_RESPONSE_IRQ := 9.
Definition P9_INITIAL_FID := 1.
Definition P9_INITIAL_TAG := 0x100.

Section Kernel.
(** The environment, the fuel of the loops, the addresses of string literals,
    of [isr_stub_table] and of [idt]. *)
Context (env : kenv) (fuel : nat) (lit : string -> Z) (isr_stub_table idt_address : Z).

Definition ksys (c : kcall) : kprog (kreply c) := sys (I := k_iface) env c.

(** ** Memory *)

Definition ld {A} (f : ram -> A) : kprog A := gets (fun k => f (k_ram k)).
Definition ld8 (a : Z) : kprog Z := ld (fun m => rd8 m a).
Definition ld16 (a : Z) : kprog Z := ld (fun m => rd16 m a).
Definition ld32 (a : Z) : kprog Z := ld (fun m => rd32 m a).
Definition st (f : ram -> ram) : kprog unit := modify (put_ram f).
Definition st8 (a v : Z) : kprog unit := st (fun m => wr8 m a v).
Definition st16 (a v : Z) : kprog unit := st (fun m => wr16 m a v).
Definition st32 (a v : Z) : kprog unit := st (fun m => wr32 m a v).
Definition st64 (a v : Z) : kprog unit := st (fun m => wr64 m a v).

(** The allocator, the string functions and the 9p client in this state. *)
Definition kmalloc (n : Z) : kprog Z :=
  h ← gets k_heap;
  r ← get_or OutOfFuel (malloc fuel h n);
  modify (fun k => k <| k_heap := r.2 |>);;
  mret r.1.
Definition kstrlen (s : Z) : kprog Z := n ← ld (fun m => strlen fuel m s); get_or OutOfFuel n.
Definition kstrcmp (s1 s2 : Z) : kprog Z := n ← ld (fun m => strcmp fuel m s1 s2); get_or OutOfFuel n.
Definition k_strncmp (s1 s2 n : Z) : kprog Z := r ← ld (fun m => kstrncmp fuel m s1 s2 n); get_or OutOfFuel r.
Definition as_client (k : kernel) : client := Client (k_ram k) (g_fid k) (g_tag k).
Definition from_client (c : client) (k : kernel) : kernel :=
  (put_ram (fun _ => c_ram c) k) <| g_fid := c_fid c |> <| g_tag := c_tag c |>.
Definition run_client {A} (f : client -> option (A * client)) : kprog A :=
  k ← gets (fun k => k);
  r ← get_or OutOfFuel (f (as_client k));
  modify (from_client r.2);;
  mret r.1.

(** ** asm_routines.asm *)

Definition outb (p a : Z) : kprog unit := ksys (Outb (u8 p) (u16 a)).
Definition outd (p a : Z) : kprog unit := ksys (Outd (u32 p) (u16 a)).
Definition inb (p : Z) : kprog Z := v ← ksys (Inb (u16 p)); mret (u8 v).

(** ** The console *)

Definition getc : kprog Z := v ← inb 0x3F8; mret (i8 (Z.land (i8 v) 0xff)).
Definition kprintc (c : Z) : kprog unit := outb c 0x3F8.
Definition kprints (s : Z) : kprog unit :=
  loop fuel (fun s =>
    c ← ld (fun m => rd_char m s);
    if negb (c =? 0) then kprintc c;; mret (inl (s + 1)) else mret (inr tt)) s.
Definition kprintl (s : string) : kprog unit := kprints (lit s).

(** The local array [buf]. *)
Fixpoint hex_buf (n : nat) (s : Z) (buf : list Z) : list Z :=
  match n with
  | O => buf
  | S n =>
      let out := Z.land s 0xf in
      let out := i8 (out + (if out <? 10 then 0x30 else 0x37)) in
      hex_buf n (Z.shiftr s 4) (out :: buf)
  end.
Definition kprinti (s : Z) : kprog unit := for_each (hex_buf 8 s []) kprintc.
Definition kprintiln (s : Z) : kprog unit := kprinti s;; kprintl CRLF.

Definition read_u8 : kprog Z := c ← getc; mret (u8 c).
Definition read_u16 : kprog Z :=
  a ← getc; b ← getc;
  let a := u8 a in let b := u8 b in
  let a := if a =? 0xff then 0 else a in
  let b := if b =? 0xff then 0 else b in
  mret (u16 (Z.lor a (Z.shiftl b 8))).

(** ** Interrupts *)

Definition intr_handler (irq : Z) : kprog unit :=
  ksys (St8 VGA 0x86);;
  ksys (St8 VGA 0x86);;
  ksys (St8 VGA (u8 irq));;
  ksys (St8 VGA 0x86);;
  ksys (St8 VGA 0x86);;
  (if irq =? OGX_READY_IRQ then modify (fun k => k <| OGX_READY := 1 |>)
   else if irq =? P9_RESPONSE_IRQ then
     modify (fun k => k <| p9_intrs ::= fun n => i32 (n + 1) |>);;
     n ← gets p9_intrs;
     ksys (St8 VGA (u8 n))
   else mret tt);;
  ksys (St32 (lapic_ptr + 8) (u32 irq)).

Definition idt_set_descriptor (vector isr flags : Z) : kprog unit :=
  modify (fun k => k <| idt ::= <[ Z.to_nat vector :=
    IdtEntry (Z.land (u32 isr) 0xFFFF) 0x08 0 flags (Z.shiftr (u32 isr) 16) ]> |>).

(** [isr_stub_table[vector]] is read behind the end of the table. *)
Definition idt_init (cpu_id : Z) : kprog unit :=
  modify (fun k => k <| idtr := Idtr (u16 (sizeof_idt_entry_t * IDT_MAX_DESCRIPTORS - 1)) idt_address |>);;
  for_each (seq 0 32) (fun vector : nat =>
    isr ← ld32 (isr_stub_table + 4 * vector);
    idt_set_descriptor vector isr 0x8E);;
  r ← gets idtr;
  ksys (Lidt (idtr_base r) (limit r));;
  ksys Sti.

Definition program_ioapic : kprog unit :=
  let TABLE_OFF := 2 in
  for_each (seq 0 (Z.to_nat IDT_MAX_DESCRIPTORS)) (fun i : nat =>
    let dest_cpu := 0 in
    let dest_vector := u16 i in
    let irq_entry := Z.lor (u32 (Z.shiftl dest_cpu 16)) dest_vector in
    ksys (St32 (ioapic_ptr + 4 * (TABLE_OFF + i)) irq_entry)).

(** ** Waiting *)

Definition happens (o : outside) : kprog unit :=
  match o with
  | Dma a bs => st (fun m => wr_bytes m a bs)
  | Irq irq => intr_handler irq
  | Racing => modify (fun k => k <| p9_ready_to_race := 1 |>)
  end.
Definition wait : kprog unit := l ← ksys Wait; for_each l happens.

(** [while (!c);] *)
Definition spin (c : kprog bool) : kprog unit :=
  loop fuel (fun _ : unit =>
    b ← c;
    if (b : bool) then mret (inr tt) else wait;; mret (inl tt)) tt.

(** A store to a register of a virtio device: [device[REG/4] = v]. *)
Definition reg (device off v : Z) : kprog unit :=
  l ← ksys (Reg (device + 4 * (off / 4)) (u32 v));
  for_each l (fun x => st (fun m => wr_bytes m x.1 x.2)).

(** ** noflag.c *)

Definition noflag_give_file (file : Z) : kprog unit :=
  loop fuel (fun i =>
    c ← ld (fun m => rd_char m (file + i));
    if c =? 0 then mret (inr tt) else outb c 0xf146;; mret (inl (i + 1))) 0;;
  outd 1337 0xf146;;
  for_each (seq 0 10) (fun _ => c ← inb 0xf146; kprintc c).

Definition exploit_noflag : kprog unit :=
  for_each (string_bytes "/fla" ++ [0] ++ string_bytes "g") (fun c => outb c 0xf146);;
  outd 1337 0xf146;;
  for_each (seq 0 48) (fun _ => c ← inb 0xf146; kprintc c);;
  kprintl CRLF.
End Kernel.

Lemma wp_ksys env c (Q : kreply c -> kworld -> Prop) (w : kworld) :
  Q (env (w_trace w) c) (w <| w_trace := w_trace w ++ [c : call k_iface] |>) -> wp (ksys env c) Q w.
Proof. done. Qed.

Ltac k_step :=
  first
    [ wp_step
    | lazymatch goal with |- wp (ksys ?e ?c) ?Q ?w => refine (wp_ksys e c Q w _) end; cbv beta ].
Ltac k_go := repeat k_step.
