(* ===== verification/KDriver.v ===== *)
(** * KDriver: the virtio driver of the guest kernel (boot/kernel/virtio_drv.c)

    Queues are structures in the heap of the kernel; the compiler extends the
    32-bit pointers that are stored in 64-bit members with their sign. *)

From S2P Require Import Prelude Effects KMem KMalloc Libc P9Wire KP9 Virtio KSys.

Definition sizeof_virtq := 16.
Definition sizeof_virtq_desc := 16.
Definition sizeof_virtq_avail := 4.
Definition sizeof_virtq_used := 4.
Definition sizeof_virtq_used_elem := 8.

(** [struct virtq] *)
Definition vq_num_at (vq : Z) : Z := vq.
Definition vq_desc_at (vq : Z) : Z := vq + 4.
Definition vq_avail_at (vq : Z) : Z := vq + 8.
Definition vq_used_at (vq : Z) : Z := vq + 12.
(** [struct virtq_desc] and [struct virtq_avail] *)
Definition desc_addr (desc i : Z) : Z := desc + sizeof_virtq_desc * i.
Definition desc_len (desc i : Z) : Z := desc + sizeof_virtq_desc * i + 8.
Definition avail_idx (avail : Z) : Z := avail + 2.
Definition avail_ring (avail i : Z) : Z := avail + 4 + 2 * i.

Definition rd64 (m : ram) (a : Z) : Z := le_val (rd_bytes m a 8).

Section Driver.
Context (env : kenv) (fuel : nat).

Definition idx_inc (avail : Z) : kprog unit :=
  i ← ld16 (avail_idx avail);
  st16 (avail_idx avail) (i + 1).

(** The body of the loop; [Some] is the early return of NULL. *)
Definition setup_buf (desc_table avail buf_sz : Z) (i : nat) : kprog (option unit) :=
  addr ← kmalloc fuel buf_sz;
  st64 (desc_addr desc_table i) (i32 addr);;
  a ← ld (fun m => rd64 m (desc_addr desc_table i));
  if a =? 0 then mret (Some tt) else
  st32 (desc_len desc_table i) buf_sz;;
  st16 (avail_ring avail i) i;;
  idx_inc avail;;
  mret None.

Definition setup_virtq (device nbufs buf_sz qnum : Z) : kprog Z :=
  vq ← kmalloc fuel sizeof_virtq;
  desc_table ← kmalloc fuel (u32 (sizeof_virtq_desc * nbufs));
  avail ← kmalloc fuel (u32 (sizeof_virtq_avail + 2 * nbufs));
  used ← kmalloc fuel (u32 (sizeof_virtq_used + sizeof_virtq_used_elem * nbufs));
  r ← for_until (seq 0 (Z.to_nat nbufs)) (setup_buf desc_table avail buf_sz);
  match r with
  | Some _ => mret 0
  | None =>
      st32 (vq_num_at vq) nbufs;;
      st32 (vq_desc_at vq) desc_table;;
      st32 (vq_avail_at vq) avail;;
      st32 (vq_used_at vq) used;;
      reg env device REG_QUEUE_SELECT qnum;;
      reg env device REG_QUEUE_NUM nbufs;;
      mret vq
  end.

Definition commit_and_ready_vq (device vq_idx vq : Z) : kprog unit :=
  reg env device REG_QUEUE_SELECT vq_idx;;
  desc ← ld32 (vq_desc_at vq);
  reg env device REG_QUEUE_DESC_LOW desc;;
  avail ← ld32 (vq_avail_at vq);
  reg env device REG_QUEUE_DRIVER_LOW avail;;
  used ← ld32 (vq_used_at vq);
  reg env device REG_QUEUE_DEVICE_LOW used;;
  reg env device REG_QUEUE_READY 1.

Definition add_buf (device vq_idx vq buf len : Z) : kprog Z :=
  avail ← ld32 (vq_avail_at vq);
  desc_idx ← ld16 (avail_idx avail);
  num ← ld32 (vq_num_at vq);
  if num =? 0 then fail Undefined else   (* division *)
  let desc_idx := desc_idx mod num in
  desc ← ld32 (vq_desc_at vq);
  st64 (desc_addr desc desc_idx) (i32 buf);;
  desc ← ld32 (vq_desc_at vq);
  st32 (desc_len desc desc_idx) len;;
  avail ← ld32 (vq_avail_at vq);
  st16 (avail_ring avail desc_idx) desc_idx;;
  avail ← ld32 (vq_avail_at vq);
  idx_inc avail;;
  reg env device REG_QUEUE_NOTIFY vq_idx;;
  mret 0.

(** [vq->desc[idx].addr] as a pointer. *)
Definition buf_of (vq idx : Z) : kprog Z :=
  desc ← ld32 (vq_desc_at vq);
  ld32 (desc_addr desc idx).
End Driver.
