(* ===== verification/KBump.v ===== *)
(** * KBump: the allocator of the guest kernel before anything is freed

    As long as nothing is freed, all blocks but the last are allocated, and
    [malloc] cuts the next block from the last one.  The free memory of a new
    heap is zero and stays so. *)

From S2P Require Import Prelude KMem KMalloc KernelProps.

(** The heap consists of the allocated blocks [live] and, at [p], the header of
    the free rest of [n] zero bytes. *)
Record bump (h : kheap) (live : list (Z * Z)) (p n : Z) : Prop := {
  bu_heap : exists pre, heap_ok h (pre ++ [Blk n true]) /\ live = allocs (memory h) pre /\
    Forall (fun b => bfree b = false) pre /\ p = foldl behind (memory h) pre;
  bu_first : b_size (kram h) (freeList h) <> 0;
  bu_zero : forall x, p + sizeof_block <= x < p + sizeof_block + n -> kram h x = 0;
}.

Lemma foldl_behind_app a pre b : foldl behind a (pre ++ [b]) = behind (foldl behind a pre) b.
Proof. by rewrite foldl_app. Qed.

Lemma allocs_app l1 l2 : forall a, allocs a (l1 ++ l2) = allocs a l1 ++ allocs (foldl behind a l1) l2.
Proof. induction l1 as [|b l1 IH]; intros a; [done|]. simpl. by rewrite IH, app_assoc. Qed.

Lemma length_allocs l : Forall (fun b => bfree b = false) l -> forall a, length (allocs a l) = length l.
Proof. induction 1 as [|b l Hb _ IH]; intros a; [done|]. simpl. rewrite Hb. simpl. by rewrite IH. Qed.

Lemma layout_last m pre b : forall a e, layout m a (pre ++ [b]) e ->
  a <= foldl behind a pre /\ e = behind (foldl behind a pre) b /\ 0 <= bsize b /\ hdr m (foldl behind a pre) b 0.
Proof.
  induction pre as [|c pre IH]; intros a e; simpl.
  - intros (H1 & H2 & <-). done.
  - intros (H1 & _ & H3). apply IH in H3 as (? & -> & ? & ?). unfold behind, sizeof_block in *. split_and!; try done. lia.
Qed.

Lemma bump_range h live p n : bump h live p n ->
  sizeof_block <= memory h <= p /\ p + sizeof_block + n = memory h + HEAPSZ h /\ 0 <= n /\
  memory h + HEAPSZ h < 2 ^ 32 /\ hdr (kram h) p (Blk n true) 0.
Proof.
  intros [(pre & [H1 H2 H3 H4 _ _] & _ & _ & ->) _ _]. apply layout_last in H1 as (? & E & ? & ?).
  rewrite E. unfold behind. simpl. split_and!; try done. rewrite E in H4. exact H4.
Qed.

Lemma find_slot_last m s pre b : forall fuel a e, 0 < a -> layout m a (pre ++ [b]) e ->
  Forall (fun b => bfree b = false) pre -> (length pre < fuel)%nat ->
  find_slot fuel m s a = Some (foldl behind a pre).
Proof.
  induction pre as [|c pre IH]; intros fuel a e Ha Hl Hf Hlen; (destruct fuel as [|fuel]; [simpl in *; lia|]); cbn [find_slot].
  - destruct Hl as (_ & (_ & _ & Hn) & _). cbn [link] in Hn. rewrite Hn. simpl (negb _). by rewrite andb_false_r.
  - destruct Hl as (Hs & (_ & Hfr & Hn) & Hl). apply Forall_cons in Hf as [Hc Hf]. rewrite Hc in Hfr.
    assert (link (behind a c) (pre ++ [b]) = behind a c) as El by (by destruct pre). rewrite El in Hn.
    assert (0 < behind a c) as Hpos by (unfold behind, sizeof_block; lia).
    rewrite Hfr, Hn, (proj2 (Z.eqb_neq (behind a c) 0)) by lia. simpl (negb _). rewrite orb_true_r, andb_true_r.
    simpl. eapply IH; [done|done|done|simpl in Hlen; lia].
Qed.

Lemma amalloc_last s pre n : forall a, Forall (fun b => bfree b = false) pre -> s + sizeof_block < n ->
  amalloc s a (pre ++ [Blk n true]) =
    (foldl behind a pre + sizeof_block, pre ++ [Blk s false; Blk (n - s - sizeof_block) true]).
Proof.
  induction pre as [|c pre IH]; intros a Hf Hn.
  - cbn [app amalloc]. unfold place. cbn [bsize]. unfold sizeof_block in *.
    rewrite (proj2 (Z.eqb_neq n s)), (proj2 (Z.ltb_lt _ _)) by lia. done.
  - apply Forall_cons in Hf as [Hc Hf]. cbn [app]. specialize (IH (behind a c) Hf Hn).
    destruct (pre ++ [Blk n true]) as [|d l]; [by destruct pre|]. by rewrite amalloc_cons, Hc, orb_true_r, IH.
Qed.

(** A block of [s] bytes from the rest. *)
Lemma bump_malloc fuel h live p n s : bump h live p n -> 0 < s -> s + sizeof_block < n -> (length live < fuel)%nat ->
  exists h', malloc fuel h s = Some (p + sizeof_block, h') /\
    bump h' (live ++ [(p + sizeof_block, s)]) (p + sizeof_block + s) (n - s - sizeof_block) /\
    memory h' = memory h /\ HEAPSZ h' = HEAPSZ h /\
    forall x, in_ram x 1 -> x < p \/ p + sizeof_block <= x < p + sizeof_block + s \/ p + sizeof_block + s + sizeof_block <= x ->
      kram h' x = kram h x.
Proof.
  intros Hb Hs Hn Hc. pose proof (bump_range _ _ _ _ Hb) as (Hm & He & H0 & Hend & Hh).
  destruct Hb as [(pre & Hok & -> & Hpre & ->) Hfirst Hzero].
  destruct (malloc_step fuel h _ s Hok) as (r & h' & l' & E & Hok' & Hr & Em & Eh & _).
  { unfold sizeof_block in *. lia. }
  { rewrite length_app. simpl. rewrite length_allocs in Hc by done. lia. }
  rewrite length_allocs in Hc by done. set (p := foldl behind (memory h) pre) in *.
  assert (malloc fuel h s = Some (p + sizeof_block, h <| kram := split (kram h) p s |>)) as E2.
  { unfold malloc. rewrite (proj2 (Z.eqb_neq _ _) Hfirst).
    rewrite (ho_first _ _ Hok), (find_slot_last (kram h) s pre (Blk n true) fuel (memory h) (memory h + HEAPSZ h));
      [|unfold sizeof_block in *; lia|apply Hok|done|lia].
    cbn [mbind option_bind]. fold p. unfold use_slot. destruct Hh as (-> & _). cbn [bsize]. unfold sizeof_block in *.
    rewrite (proj2 (Z.eqb_neq n s)) by lia. rewrite (wrap_small 32 (s + 12)) by (unfold in_width; lia).
    rewrite (proj2 (Z.ltb_lt _ _)) by lia. cbn [fst snd]. by rewrite (wrap_small 32) by (unfold in_width; lia). }
  rewrite E2 in E. injection E as <- <-.
  assert (l' = pre ++ [Blk s false; Blk (n - s - sizeof_block) true]) as ->.
  { destruct Hr as [[Hr _]|[_ Hr]]; [unfold sizeof_block in *; lia|]. rewrite amalloc_last in Hr by done. by injection Hr. }
  assert (forall x, in_ram x 1 -> x < p \/ p + sizeof_block <= x < p + sizeof_block + s \/ p + sizeof_block + s + sizeof_block <= x ->
    split (kram h) p s x = kram h x) as Hout.
  { intros x Hx Ho. unfold split, set_size, set_free, set_next, sizeof_block in *.
    rewrite (wrap_small 32 (p + s + 12)) by (unfold in_width; lia).
    rewrite !wr32_outside by (unfold in_ram in *; lia). done. }
  exists (h <| kram := split (kram h) p s |>). split; [done|]. split; [|done]. constructor.
  - exists (pre ++ [Blk s false]). split_and!.
    + by rewrite <-app_assoc.
    + simpl. rewrite allocs_app. done.
    + apply Forall_app. split; [done|]. by apply Forall_singleton.
    + rewrite foldl_app. simpl. done.
  - pose proof (ho_layout _ _ Hok) as Hl. pose proof (ho_layout _ _ Hok') as Hl'. pose proof (ho_first _ _ Hok') as Hf'.
    rewrite Hf'. rewrite (ho_first _ _ Hok) in Hfirst. destruct pre as [|d pre].
    + destruct Hl' as (_ & (-> & _) & _). simpl. lia.
    + destruct Hl as (_ & (E & _) & _). destruct Hl' as (_ & (-> & _) & _). by rewrite <-E.
  - intros x Hx. simpl. unfold set_field. rewrite Hout; [|unfold in_ram, sizeof_block in *; lia|unfold sizeof_block in *; lia].
    apply Hzero. unfold sizeof_block in *. lia.
Qed.

Lemma allocs_below m q s pre b : forall a e, layout m a (pre ++ [b]) e -> Forall (fun b => bfree b = false) pre ->
  (q, s) ∈ allocs a pre -> q + s <= foldl behind a pre.
Proof.
  induction pre as [|c pre IH]; intros a e Hl Hpre Hin; [by apply not_elem_of_nil in Hin|].
  apply Forall_cons in Hpre as [Hc Hpre]. destruct Hl as (_ & _ & Hl). cbn [allocs] in Hin. rewrite Hc in Hin.
  apply elem_of_app in Hin as [Hin|Hin]; [|by eapply IH].
  apply list_elem_of_singleton in Hin as [= -> ->]. apply layout_last in Hl as (Hle & _). simpl. unfold behind in *. lia.
Qed.

(** Stores into allocated blocks. *)
Lemma bump_store h live p n q s m : bump h live p n -> (q, s) ∈ live ->
  (forall x, in_ram x 1 -> x < q \/ q + s <= x -> m x = kram h x) -> bump (h <| kram := m |>) live p n.
Proof.
  intros Hb Hin Hm. pose proof (bump_range _ _ _ _ Hb) as (Hbase & He & H0 & Hend & Hh). destruct Hb as [(pre & Hok & -> & Hpre & Ep) Hfirst Hzero].
  pose proof (ho_layout _ _ Hok) as Hl.
  assert ((q, s) ∈ allocs (memory h) (pre ++ [Blk n true])) as Hin' by (rewrite allocs_app; apply elem_of_app; by left).
  assert (q + s <= p) as Hqs by (rewrite Ep; by eapply allocs_below).
  destruct (allocs_in _ _ _ _ _ _ Hl Hin') as (Hq1 & Hq2 & Hq3). unfold sizeof_block in *.
  assert (heap_ok (h <| kram := m |>) (pre ++ [Blk n true])) as Hok'.
  { apply (layout_set_ram h m _ Hok); [|by destruct pre|].
    + eapply layout_store; [lia|exact Hend|exact Hl|exact Hin'|]. intros x Hx Ho. apply Hm; [unfold in_ram; lia|done].
    + intros x Hx. apply Hm; [unfold in_ram; lia|lia]. }
  constructor; simpl; unfold set_field.
  - by exists pre.
  - pose proof (ho_layout _ _ Hok') as Hl'. rewrite (ho_first _ _ Hok) in *. simpl in Hl'. unfold set_field in Hl'.
    destruct pre as [|d pre]; destruct Hl as (_ & (E & _) & _); destruct Hl' as (_ & (E' & _) & _); congruence.
  - intros x Hx. unfold sizeof_block in *. rewrite Hm; [|unfold in_ram; lia|lia]. apply Hzero. lia.
Qed.

(** A new heap in zero memory. *)
Lemma malloc_init_bump m base size :
  sizeof_block <= base -> sizeof_block < size -> base + size < 2 ^ 32 -> b_next m 0 = 0 ->
  (forall x, base <= x < base + size -> m x = 0) ->
  bump (malloc_init m base size) [] base (size - sizeof_block).
Proof.
  intros Hb Hs He Hlow Hz. destruct (malloc_init_ok m base size (-1) Hb) as [Hok _ _ _ _ _ _]; [lia|done|done|lia|].
  constructor.
  - by exists [].
  - destruct (ho_layout _ _ Hok) as (_ & (E & _) & _). simpl in E |- *. lia.
  - intros x Hx. unfold sizeof_block in *. simpl. unfold set_size, set_free, set_next.
    rewrite !wr32_outside by (unfold in_ram; lia). apply Hz. lia.
Qed.

(** The search passes the allocated blocks in front, also when memory behind them has changed. *)
Lemma find_slot_prefix m m' s pre rest : forall fuel a e, 0 < a -> e < 2 ^ 32 -> layout m a (pre ++ rest) e -> rest <> [] ->
  Forall (fun b => bfree b = false) pre -> (forall x, 0 <= x < foldl behind a pre -> m' x = m x) ->
  find_slot (length pre + fuel) m' s a = find_slot fuel m' s (foldl behind a pre).
Proof.
  induction pre as [|c pre IH]; intros fuel a e Ha He Hl Hne Hf Hm; [done|].
  destruct Hl as (Hs & Hh & Hl). apply Forall_cons in Hf as [Hc Hf]. cbn [length Nat.add find_slot foldl] in *.
  assert (link (behind a c) (pre ++ rest) = behind a c) as El by (destruct pre; [by destruct rest|done]). rewrite El in Hh.
  assert (behind a c <= foldl behind (behind a c) pre) as Hle.
  { clear -Hl. revert Hl. generalize (behind a c). induction pre as [|d pre IH]; intros x Hl; [done|].
    destruct Hl as (H1 & _ & Hl). apply IH in Hl. simpl. unfold behind, sizeof_block in *. lia. }
  pose proof (layout_le _ _ _ _ Hl) as Hle2. unfold behind, sizeof_block in Hle, Hle2.
  apply (hdr_same_on m m') in Hh as (_ & Hfr & Hn); [|unfold in_ram; lia|intros x Hx; apply Hm; unfold behind, sizeof_block in *; lia].
  rewrite Hc in Hfr. assert (0 < behind a c) as Hpos by (unfold behind, sizeof_block; lia).
  rewrite Hfr, Hn, (proj2 (Z.eqb_neq (behind a c) 0)) by lia. simpl (negb _). rewrite orb_true_r, andb_true_r.
  cbv iota. by eapply IH.
Qed.

(** The end of the last of some allocated blocks. *)
Lemma allocs_end pre p s L : forall a, Forall (fun b => bfree b = false) pre -> allocs a pre = L ++ [(p, s)] ->
  foldl behind a pre = p + s.
Proof.
  intros a Hf E. destruct pre as [|b pre _] using rev_ind; [by destruct L|].
  apply Forall_app in Hf as [_ Hb]. rewrite Forall_singleton in Hb. rewrite allocs_app in E. simpl in E. rewrite Hb in E. simpl in E.
  apply app_inj_tail in E as [_ [= <- <-]]. rewrite foldl_behind_app. unfold behind. lia.
Qed.

(** A split of the live blocks is a split of the heap. *)
Lemma allocs_take pre L1 L2 : forall a, Forall (fun b => bfree b = false) pre -> allocs a pre = L1 ++ L2 ->
  allocs a (take (length L1) pre) = L1.
Proof.
  revert L1. induction pre as [|b pre IH]; intros L1 a Hf E.
  - simpl in E. symmetry in E. apply app_eq_nil in E as [-> _]. done.
  - apply Forall_cons in Hf as [Hb Hf]. simpl in E. rewrite Hb in E. destruct L1 as [|x L1]; [done|].
    simpl in E. injection E as <- E. simpl. rewrite Hb. simpl. f_equal. by apply IH.
Qed.
