(* ===== verification/KDriverExec.v ===== *)
(** * KDriverExec: the memory of a queue that the guest's driver sets up *)

From S2P Require Import Prelude Effects KMem KMalloc KernelProps KBump Libc P9Wire KP9 KP9Enc Virtio KSys KDriver.

Implicit Types (m : ram) (w : kworld) (i j : nat).

Definition zero_on m (a e : Z) : Prop := forall x, a <= x < e -> m x = 0.

Lemma wr_bytes_out m a bs x : in_ram a (length bs) -> in_ram x 1 -> x < a \/ a + length bs <= x -> wr_bytes m a bs x = m x.
Proof. intros Ha Hx Ho. rewrite wr_bytes_in by done. by rewrite decide_False by lia. Qed.

Lemma rd_zero m a (n : nat) : in_ram a n -> zero_on m a (a + n) -> rd_bytes m a n = replicate n 0.
Proof.
  intros (Ha & _ & Hn) Hz. apply list_eq. intros i. destruct (decide (i < n)%nat).
  - rewrite rd_bytes_lookup by done. rewrite lookup_replicate_2 by done. unfold rd8.
    rewrite (wrap_small 32) by (unfold in_width; lia). by rewrite Hz by lia.
  - rewrite lookup_ge_None_2 by (rewrite length_rd_bytes; lia). by rewrite lookup_ge_None_2 by (rewrite length_replicate; lia).
Qed.

Lemma rd_le m a (n : nat) v : in_ram a n -> rd_bytes (wr_bytes m a (le_bytes n v)) a n = le_bytes n v.
Proof.
  intros Ha. pose proof (rd_bytes_same m a (le_bytes n v)) as H. rewrite length_le_bytes in H. apply H; [done|apply le_bytes_is_bytes].
Qed.

Lemma k_ram_put f k : k_ram (put_ram f k) = f (k_ram k).
Proof. done. Qed.

Lemma k_ram_heap h k : k_ram (k <| k_heap := h |>) = kram h.
Proof. done. Qed.
Lemma st_upd f w : w_st (w <| w_st ::= f |>) = f (w_st w).
Proof. done. Qed.
Ltac ram_go := rewrite ?st_upd, ?k_ram_put, ?k_ram_heap.

(** ** Steps *)

Lemma wp_ld32 a v (Q : Z -> kworld -> Prop) w : rd32 (k_ram (w_st w)) a = v -> Q v w -> wp (ld32 a) Q w.
Proof. by intros <-. Qed.
Lemma wp_ld16 a v (Q : Z -> kworld -> Prop) w : rd16 (k_ram (w_st w)) a = v -> Q v w -> wp (ld16 a) Q w.
Proof. by intros <-. Qed.

(** Stores of a device. *)
Lemma wp_dma l (Q : unit -> kworld -> Prop) w :
  Q tt (w <| w_st ::= put_ram (fun m => foldl (fun m x => wr_bytes m x.1 x.2) m l) |>) ->
  wp (for_each l (fun x : Z * bytes => st (fun m => wr_bytes m x.1 x.2))) Q w.
Proof.
  revert w. induction l as [|x l IH]; intros w HQ; simpl.
  - apply wp_ret. by destruct w as [[[]] ? ?].
  - apply wp_bind, wp_modify, IH. exact HQ.
Qed.

Section Steps.
Context (env : kenv) (fuel : nat).

Lemma wp_kmalloc s live p n (Q : Z -> kworld -> Prop) w :
  bump (k_heap (w_st w)) live p n -> 0 < s -> s + sizeof_block < n -> (length live < fuel)%nat ->
  (forall h', bump h' (live ++ [(p + sizeof_block, s)]) (p + sizeof_block + s) (n - s - sizeof_block) ->
    (forall x, in_ram x 1 -> x < p \/ p + sizeof_block <= x < p + sizeof_block + s \/ p + sizeof_block + s + sizeof_block <= x ->
      kram h' x = k_ram (w_st w) x) ->
    Q (p + sizeof_block) (w <| w_st ::= fun k => k <| k_heap := h' |> |>)) ->
  wp (kmalloc fuel s) Q w.
Proof.
  intros Hb Hs Hn Hf HQ. destruct (bump_malloc fuel _ _ _ _ s Hb Hs Hn Hf) as (h' & E & Hb' & _ & _ & Hx).
  unfold kmalloc. wp_go. rewrite E. unfold get_or. wp_go. by apply HQ.
Qed.

(** A register store to which the device does not answer with stores of its own. *)
Lemma wp_reg_quiet device off v (Q : unit -> kworld -> Prop) w :
  (forall trace, env trace (Reg (device + 4 * (off / 4)) (u32 v) : call k_iface) = []) ->
  Q tt (w <| w_trace ::= fun t => t ++ [Reg (device + 4 * (off / 4)) (u32 v) : call k_iface] |>) ->
  wp (reg env device off v) Q w.
Proof.
  intros He HQ. unfold reg. k_go. rewrite He. exact HQ.
Qed.
End Steps.

(** ** The queue *)

Section Queue.
(** The free block at [p0] up to [e0]; [nb] buffers of [bs] bytes. *)
Context (p0 e0 nb bs : Z).

Definition q_vq : Z := p0 + 12.
Definition q_desc : Z := q_vq + 16 + 12.
Definition q_avail : Z := q_desc + 16 * nb + 12.
Definition q_used : Z := q_avail + (4 + 2 * nb) + 12.
(** The block of the buffer [i], and the buffer. *)
Definition q_hdr (i : Z) : Z := q_used + (4 + 8 * nb) + i * (bs + 12).
Definition q_buf (i : Z) : Z := q_hdr i + 12.

Record queue_fits : Prop := {
  qf_num : 0 < nb < MAX_VQ_SIZE;
  qf_size : 0 < bs;
  qf_base : sizeof_block <= p0;
  qf_room : q_hdr nb + 12 < e0;
  qf_top : e0 <= 2 ^ 31;
}.

Definition desc_bytes (i : Z) : bytes := le_bytes 8 (q_buf i) ++ le_bytes 4 bs ++ replicate 4 0.

(** [i] buffers are in the queue. *)
Record filled (m0 m : ram) (i : nat) : Prop := {
  fi_desc : forall j : nat, (j < i)%nat -> rd_bytes m (q_desc + 16 * j) 16 = desc_bytes j;
  fi_rest : zero_on m (q_desc + 16 * i) (q_desc + 16 * nb);
  fi_flags : rd_bytes m q_avail 2 = replicate 2 0;
  fi_idx : rd_bytes m (q_avail + 2) 2 = le_bytes 2 i;
  fi_ring : forall j : nat, (j < i)%nat -> rd_bytes m (q_avail + 4 + 2 * j) 2 = le_bytes 2 j;
  fi_used : zero_on m q_used (q_used + (4 + 8 * nb));
  fi_bufs : forall j : nat, (j < i)%nat -> zero_on m (q_buf j) (q_buf j + bs);
  fi_frame : forall x, in_ram x 1 -> x < p0 \/ e0 <= x -> m x = m0 x;
}.

(** The heap with these blocks. *)
Definition q_live (live0 : list (Z * Z)) (i : nat) : list (Z * Z) :=
  live0 ++ [(q_vq, 16); (q_desc, 16 * nb); (q_avail, 4 + 2 * nb); (q_used, 4 + 8 * nb)] ++
    ((fun j : nat => (q_buf j, bs)) <$> seq 0 i).

Definition q_heap (k : kernel) (live0 : list (Z * Z)) (i : nat) : Prop :=
  bump (k_heap k) (q_live live0 i) (q_hdr i) (e0 - 12 - q_hdr i).

Context (Hq : queue_fits).

Lemma q_hdr_le (i : nat) : i <= nb -> q_hdr i <= q_hdr nb.
Proof. destruct Hq. unfold q_hdr. nia. Qed.

Lemma q_hdr_S (i : nat) : q_hdr (S i) = q_hdr i + 12 + bs.
Proof. unfold q_hdr. lia. Qed.

(** The stores for the buffer [i]. *)
Definition fill (m : ram) (i : nat) : ram :=
  let m := wr64 m (desc_addr q_desc i) (i32 (q_buf i)) in
  let m := wr32 m (desc_len q_desc i) bs in
  let m := wr16 m (avail_ring q_avail i) i in
  wr16 m (avail_idx q_avail) (rd16 m (avail_idx q_avail) + 1).

(** Where they go. *)
Definition filling (i : nat) (x : Z) : Prop :=
  q_desc + 16 * i <= x < q_desc + 16 * i + 12 \/ q_avail + 2 <= x < q_avail + 4 \/
  q_avail + 4 + 2 * i <= x < q_avail + 4 + 2 * i + 2.

Ltac q_unfold := destruct Hq as [Hqn Hqs Hqb Hqr Hqt]; unfold in_ram, filling, desc_addr, desc_len, avail_idx, avail_ring, sizeof_virtq_desc,
  q_buf, q_hdr, q_used, q_avail, q_desc, q_vq, sizeof_block, MAX_VQ_SIZE in *.

Lemma fill_out m i x : i < nb -> in_ram x 1 -> ~ filling i x -> fill m i x = m x.
Proof.
  intros Hi Hx Ho. unfold fill, wr64, wr32, wr16. q_unfold.
  rewrite !wr_bytes_out by (rewrite ?length_le_bytes; unfold in_ram; nia). done.
Qed.

Lemma in_ram_q a n : p0 <= a -> 0 <= n -> a + n <= e0 -> in_ram a n.
Proof. intros. q_unfold. lia. Qed.

(** Bytes that the stores for [i] do not touch. *)
Lemma fill_rd m i a (n : nat) : i < nb -> in_ram a n -> (forall x, a <= x < a + n -> ~ filling i x) ->
  rd_bytes (fill m i) a n = rd_bytes m a n.
Proof.
  intros Hi Ha Ho. apply rd_bytes_ext; [done|]. intros x Hx. apply fill_out; [done|unfold in_ram in *; lia|by apply Ho].
Qed.

Lemma fill_desc m i : i < nb -> rd_bytes m (q_desc + 16 * i + 12) 4 = replicate 4 0 ->
  rd_bytes (fill m i) (q_desc + 16 * i) 16 = desc_bytes i.
Proof.
  intros Hi Hz. unfold desc_bytes. change 16%nat with (8 + (4 + 4))%nat. rewrite (rd_bytes_app _ _ 8), (rd_bytes_app _ _ 4).
  f_equal; [|f_equal].
  - unfold fill, wr64, wr32, wr16. q_unfold. rewrite !rd_bytes_other by (rewrite ?length_le_bytes; unfold in_ram; nia).
    rewrite rd_le by (unfold in_ram; nia). f_equal. apply swrap_small; nia.
  - change (Z.of_nat 8) with 8. unfold fill, wr64, wr32, wr16. q_unfold.
    rewrite 2!rd_bytes_other by (rewrite ?length_le_bytes; unfold in_ram; nia). apply rd_le. unfold in_ram. nia.
  - rewrite fill_rd; [|done| |].
    + rewrite <-Hz. f_equal. lia.
    + q_unfold. nia.
    + intros x Hx. q_unfold. nia.
Qed.

Lemma fill_idx m i : i < nb -> rd_bytes m (q_avail + 2) 2 = le_bytes 2 i ->
  rd_bytes (fill m i) (q_avail + 2) 2 = le_bytes 2 (S i).
Proof.
  intros Hi Hm. unfold fill, wr64, wr32, wr16. unfold rd16. q_unfold. rewrite rd_le by (unfold in_ram; nia).
  rewrite !rd_bytes_other by (rewrite ?length_le_bytes; unfold in_ram; nia).
  rewrite Hm, le_val_bytes, wrap_small by (unfold in_width; lia). f_equal. lia.
Qed.

Lemma fill_ring m i : i < nb -> rd_bytes (fill m i) (q_avail + 4 + 2 * i) 2 = le_bytes 2 i.
Proof.
  intros Hi. unfold fill, wr64, wr32, wr16. q_unfold. rewrite rd_bytes_other by (rewrite ?length_le_bytes; unfold in_ram; nia).
  apply rd_le. unfold in_ram. nia.
Qed.

(** The blocks that the next [malloc] writes: two headers. *)
Definition headers (i : nat) (x : Z) : Prop := q_hdr i <= x < q_hdr i + 12 \/ q_hdr (S i) <= x < q_hdr (S i) + 12.

Lemma filled_step m0 m m1 i : i < nb -> filled m0 m i ->
  (forall x, in_ram x 1 -> ~ headers i x -> m1 x = m x) -> zero_on m (q_buf i) (q_buf i + bs) ->
  filled m0 (fill m1 i) (S i).
Proof.
  intros Hi [F1 F2 F3 F4 F5 F6 F7 F8] Hm1 Hz.
  assert (forall x, in_ram x 1 -> ~ headers i x -> ~ filling i x -> fill m1 i x = m x) as Hout.
  { intros x Hx Hh Ho. rewrite fill_out by done. by apply Hm1. }
  assert (forall a (n : nat), in_ram a n -> (forall x, a <= x < a + n -> ~ headers i x) -> rd_bytes m1 a n = rd_bytes m a n) as Hrd1.
  { intros a n Ha Ho. apply rd_bytes_ext; [done|]. intros x Hx. apply Hm1; [unfold in_ram in *; lia|by apply Ho]. }
  assert (forall a (n : nat), in_ram a n -> (forall x, a <= x < a + n -> ~ headers i x /\ ~ filling i x) ->
    rd_bytes (fill m1 i) a n = rd_bytes m a n) as Hrd.
  { intros a n Ha Ho. rewrite fill_rd by (done || (intros x Hx; by apply Ho)). apply Hrd1; [done|]. intros x Hx. by apply Ho. }
  assert (forall a e, p0 <= a -> e <= e0 -> (forall x, a <= x < e -> ~ headers i x /\ ~ filling i x) -> zero_on m a e ->
    zero_on (fill m1 i) a e) as Hzero.
  { intros a e Ha He Ho Hza x Hx. rewrite Hout; [by apply Hza|q_unfold; lia|by apply Ho..]. }
  pose proof (q_hdr_le (S i) ltac:(lia)) as Hle. unfold headers in *. constructor.
  - intros j Hj. destruct (decide (j = i)) as [->|Hne].
    + apply fill_desc; [done|]. rewrite Hrd1; [|q_unfold; nia|intros x Hx; q_unfold; nia].
      apply rd_zero; [q_unfold; nia|]. intros x Hx. apply F2. q_unfold. nia.
    + rewrite Hrd; [apply F1; lia|q_unfold; nia|]. intros x Hx. q_unfold. nia.
  - apply Hzero; [q_unfold; nia|q_unfold; nia|intros x Hx; q_unfold; nia|]. intros x Hx. apply F2. q_unfold. nia.
  - rewrite Hrd; [done|q_unfold; nia|]. intros x Hx. q_unfold. nia.
  - apply fill_idx; [done|]. rewrite Hrd1; [done|q_unfold; nia|]. intros x Hx. q_unfold. nia.
  - intros j Hj. destruct (decide (j = i)) as [->|Hne]; [by apply fill_ring|].
    rewrite Hrd; [apply F5; lia|q_unfold; nia|]. intros x Hx. q_unfold. nia.
  - apply Hzero; [q_unfold; nia|q_unfold; nia|intros x Hx; q_unfold; nia|done].
  - intros j Hj. assert (q_used + (4 + 8 * nb) <= q_hdr j /\ (j < i -> q_hdr j + 12 + bs <= q_hdr i)) as [Hj1 Hj2]
      by (unfold q_hdr; destruct Hq; nia).
    pose proof (q_hdr_S i) as HS. unfold q_buf in *.
    assert (p0 <= q_hdr j + 12 /\ forall x, filling i x -> x < q_used) as [Hp Hfl].
    { clear -Hq Hj1 Hi. split; [q_unfold; lia|]. intros x Hx. q_unfold. lia. }
    assert (q_hdr j <= q_hdr i) by (destruct (decide (j = i)) as [->|]; [lia|]; destruct Hq; lia).
    assert (q_hdr nb + 12 < e0) as Hroom by apply Hq. assert (0 < bs) by apply Hq.
    apply Hzero; [lia|lia| |].
    + intros x Hx. split; [|intros Hx'%Hfl; lia]. destruct (decide (j = i)) as [->|]; lia.
    + destruct (decide (j = i)) as [->|Hne]; [done|]. apply F7. lia.
  - intros x Hx Ho. rewrite Hout; [by apply F8|done|q_unfold; nia|q_unfold; nia].
Qed.

Lemma q_live_S live0 i : q_live live0 (S i) = q_live live0 i ++ [(q_buf i, bs)].
Proof. unfold q_live. rewrite seq_S, fmap_app, <-!app_assoc. done. Qed.

Lemma q_live_desc live0 i : (q_desc, 16 * nb) ∈ q_live live0 i.
Proof. unfold q_live. set_solver. Qed.
Lemma q_live_used live0 i : (q_used, 4 + 8 * nb) ∈ q_live live0 i.
Proof. unfold q_live. set_solver. Qed.
Lemma q_live_avail live0 i : (q_avail, 4 + 2 * nb) ∈ q_live live0 i.
Proof. unfold q_live. set_solver. Qed.

Lemma bump_fill h live p n i : bump h live p n -> (q_desc, 16 * nb) ∈ live -> (q_avail, 4 + 2 * nb) ∈ live -> i < nb ->
  bump (h <| kram ::= fun m => fill m i |>) live p n.
Proof.
  intros Hb Hd Ha Hi. set (m1 := wr32 (wr64 (kram h) (desc_addr q_desc i) (i32 (q_buf i))) (desc_len q_desc i) bs).
  assert (bump (h <| kram := m1 |>) live p n) as Hb1.
  { eapply bump_store; [exact Hb|exact Hd|]. intros x Hx Ho. unfold m1, wr32, wr64. q_unfold.
    rewrite !wr_bytes_out by (rewrite ?length_le_bytes; unfold in_ram; nia). done. }
  assert (bump (h <| kram := m1 |> <| kram := fill (kram h) i |>) live p n) as Hb2.
  { eapply bump_store; [exact Hb1|exact Ha|]. intros x Hx Ho. simpl. unfold set_field. unfold fill. fold m1. unfold wr16. q_unfold.
    rewrite !wr_bytes_out by (rewrite ?length_le_bytes; unfold in_ram; nia). done. }
  exact Hb2.
Qed.

Section Setup.
Context (env : kenv) (fuel : nat) (live0 : list (Z * Z)) (m0 : ram).
Context (Hfuel : length live0 + 4 + nb < fuel).

(** The state after [i] rounds. *)
Definition setup_inv i w : Prop := q_heap (w_st w) live0 i /\ filled m0 (k_ram (w_st w)) i.

Lemma length_q_live i : length (q_live live0 i) = (length live0 + 4 + i)%nat.
Proof. unfold q_live. rewrite !length_app, length_fmap, length_seq. simpl. lia. Qed.

Lemma setup_buf_ok i w : i < nb -> setup_inv i w ->
  wp (setup_buf fuel q_desc q_avail bs i) (fun r w' => r = None /\ setup_inv (S i) w' /\ w_trace w' = w_trace w) w.
Proof.
  intros Hi [Hh Hf]. unfold q_heap in Hh. unfold setup_buf. apply wp_bind.
  pose proof (q_hdr_le (S i) ltac:(lia)) as Hle. pose proof (q_hdr_S i) as HS. assert (q_hdr nb + 12 < e0) by apply Hq.
  eapply wp_kmalloc; [exact Hh|apply Hq|unfold sizeof_block; lia|rewrite length_q_live; lia|].
  intros h' Hb Hx. change (q_hdr i + sizeof_block) with (q_buf i) in *.
  assert (0 < q_buf i < 2 ^ 31) as Hbuf by (unfold q_buf; q_unfold; nia).
  unfold st64, st, ld. k_go. ram_go.
  assert ((rd64 (wr64 (kram h') (desc_addr q_desc i) (i32 (q_buf i))) (desc_addr q_desc i) =? 0) = false) as ->.
  { apply Z.eqb_neq. unfold rd64, wr64. rewrite rd_le by (q_unfold; nia). rewrite le_val_bytes, (swrap_small 32) by lia.
    rewrite (wrap_small (8 * 8%nat)) by (unfold in_width; lia). lia. }
  unfold st32, st16, idx_inc, st, ld16, ld. k_go. unfold st16, st. k_go. ram_go. split_and!; [done|split|done].
  - unfold q_heap. rewrite q_live_S, HS.
    replace (e0 - 12 - (q_hdr i + 12 + bs)) with (e0 - 12 - q_hdr i - bs - sizeof_block) by (unfold sizeof_block; lia).
    replace (q_hdr i + 12 + bs) with (q_buf i + bs) by (unfold q_buf; lia).
    apply (bump_fill h' _ _ _ i Hb); [apply elem_of_app; left; apply q_live_desc|apply elem_of_app; left; apply q_live_avail|done].
  - apply (filled_step m0 (k_ram (w_st w)) (kram h') i Hi Hf).
    + intros x Hxr Ho. apply Hx; [done|]. unfold headers, q_buf, sizeof_block in *. lia.
    + intros x Hx'. apply (bu_zero _ _ _ _ Hh). unfold q_buf, sizeof_block in *. lia.
Qed.

Lemma filled_ext m m' i : i <= nb -> (forall x, in_ram x 1 -> x < q_vq \/ q_vq + 16 <= x -> m' x = m x) ->
  filled m0 m i -> filled m0 m' i.
Proof.
  intros Hi Hm [F1 F2 F3 F4 F5 F6 F7 F8].
  assert (forall a (n : nat), q_desc <= a -> a + n <= e0 -> rd_bytes m' a n = rd_bytes m a n) as Hrd.
  { intros a n Ha Hn. apply rd_bytes_ext; [q_unfold; lia|]. intros x Hx. apply Hm; q_unfold; lia. }
  assert (forall a e, q_desc <= a -> e <= e0 -> zero_on m a e -> zero_on m' a e) as Hz.
  { intros a e Ha He H x Hx. rewrite Hm by (q_unfold; lia). by apply H. }
  constructor.
  - intros j Hj. rewrite Hrd by (q_unfold; nia). by apply F1.
  - apply Hz; [q_unfold; nia..|done].
  - rewrite Hrd by (q_unfold; nia). done.
  - rewrite Hrd by (q_unfold; nia). done.
  - intros j Hj. rewrite Hrd by (q_unfold; nia). by apply F5.
  - apply Hz; [q_unfold; nia..|done].
  - intros j Hj. pose proof (q_hdr_le (S j) ltac:(lia)). pose proof (q_hdr_S j). apply Hz; [|destruct Hq; unfold q_buf; lia|by apply F7].
    q_unfold. nia.
  - intros x Hx Ho. rewrite Hm by (q_unfold; lia). by apply F8.
Qed.

(** The four structures, before the first buffer. *)
Lemma setup_blocks_ok w (K : Z -> Z -> Z -> Z -> kprog Z) (Q : Z -> kworld -> Prop) :
  bump (k_heap (w_st w)) live0 p0 (e0 - 12 - p0) -> (forall x, in_ram x 1 -> k_ram (w_st w) x = m0 x) ->
  (forall w', setup_inv 0 w' -> w_trace w' = w_trace w -> wp (K q_vq q_desc q_avail q_used) Q w') ->
  wp (vq ← kmalloc fuel sizeof_virtq;
      desc_table ← kmalloc fuel (u32 (sizeof_virtq_desc * nb));
      avail ← kmalloc fuel (u32 (sizeof_virtq_avail + 2 * nb));
      used ← kmalloc fuel (u32 (sizeof_virtq_used + sizeof_virtq_used_elem * nb));
      K vq desc_table avail used) Q w.
Proof.
  intros Hb Hm0 HK. assert (q_hdr 0 + 12 < e0) as Hroom by (q_unfold; nia).
  rewrite !(wrap_small 32) by (unfold in_width, sizeof_virtq_desc, sizeof_virtq_avail, sizeof_virtq_used, sizeof_virtq_used_elem; q_unfold; lia).
  unfold sizeof_virtq, sizeof_virtq_desc, sizeof_virtq_avail, sizeof_virtq_used, sizeof_virtq_used_elem.
  pose proof (qf_num Hq) as Hnb. unfold sizeof_block.
  apply wp_bind. eapply wp_kmalloc; [exact Hb|lia|q_unfold; lia|lia|]. intros h1 Hb1 Hx1. ram_go.
  apply wp_bind. eapply wp_kmalloc; [exact Hb1|lia|q_unfold; lia|rewrite length_app; simpl; lia|]. intros h2 Hb2 Hx2. ram_go.
  apply wp_bind. eapply wp_kmalloc; [exact Hb2|lia|q_unfold; lia|rewrite !length_app; simpl; lia|]. intros h3 Hb3 Hx3. ram_go.
  apply wp_bind. eapply wp_kmalloc; [exact Hb3|lia|q_unfold; lia|rewrite !length_app; simpl; lia|]. intros h4 Hb4 Hx4. ram_go.
  assert (forall x, in_ram x 1 -> ~ (p0 <= x < q_vq \/ q_vq + 16 <= x < q_desc \/ q_desc + 16 * nb <= x < q_avail \/
    q_avail + (4 + 2 * nb) <= x < q_used \/ q_hdr 0 <= x < q_hdr 0 + 12) -> kram h4 x = k_ram (w_st w) x) as Hx.
  { intros x Hx Ho. clear Hb Hb1 Hb2 Hb3 Hb4. q_unfold.
    rewrite Hx4 by (done || lia). change (kram h3 x = k_ram (w_st w) x). rewrite Hx3 by (done || lia).
    change (kram h2 x = k_ram (w_st w) x). rewrite Hx2 by (done || lia). change (kram h1 x = k_ram (w_st w) x). apply Hx1; [done|lia]. }
  clear Hx1 Hx2 Hx3 Hx4 Hb1 Hb2 Hb3. apply HK; [split|done].
  - unfold q_heap, q_live. rewrite app_nil_r. unfold q_buf. rewrite <-!app_assoc in Hb4.
    replace (q_hdr 0%nat) with (q_used + (4 + 8 * nb)) by (unfold q_hdr; lia).
    replace (e0 - 12 - (q_used + (4 + 8 * nb))) with (e0 - 12 - p0 - 16 - 12 - 16 * nb - 12 - (4 + 2 * nb) - 12 - (4 + 8 * nb) - 12)
      by (q_unfold; lia). exact Hb4.
  - assert (forall a e, q_vq <= a -> e <= e0 ->
      (forall x, a <= x < e -> ~ (p0 <= x < q_vq \/ q_vq + 16 <= x < q_desc \/ q_desc + 16 * nb <= x < q_avail \/
        q_avail + (4 + 2 * nb) <= x < q_used \/ q_hdr 0 <= x < q_hdr 0 + 12)) -> zero_on (kram h4) a e) as Hz.
    { intros a e Ha He Ho x Hxr. rewrite Hx; [|q_unfold; lia|by apply Ho].
      apply (bu_zero _ _ _ _ Hb). q_unfold. lia. }
    clear HK Hb Hb4. constructor; try (intros j Hj; lia).
    + apply Hz; [q_unfold; lia..|]. intros x Hxr. q_unfold. lia.
    + apply rd_zero; [q_unfold; lia|]. apply Hz; [q_unfold; lia..|]. intros x Hxr. q_unfold. lia.
    + change (le_bytes 2 0%nat) with (replicate 2 0). apply rd_zero; [q_unfold; lia|]. apply Hz; [q_unfold; lia..|]. intros x Hxr. q_unfold. lia.
    + apply Hz; [q_unfold; lia..|]. intros x Hxr. q_unfold. lia.
    + intros x Hxr Ho. rewrite <-Hm0 by done. apply Hx; [done|]. q_unfold. lia.
Qed.

(** The whole queue in memory. *)
Record queue_in m : Prop := {
  qi_filled : filled m0 m (Z.to_nat nb);
  qi_num : rd32 m (vq_num_at q_vq) = nb;
  qi_desc : rd32 m (vq_desc_at q_vq) = q_desc;
  qi_avail : rd32 m (vq_avail_at q_vq) = q_avail;
  qi_used : rd32 m (vq_used_at q_vq) = q_used;
}.

Definition reg_call (device off v : Z) : call k_iface := Reg (device + 4 * (off / 4)) (u32 v).
Definition quiet (device off : Z) : Prop := forall trace v, env trace (Reg (device + 4 * (off / 4)) v : call k_iface) = [].

Definition set_words m : ram :=
  wr32 (wr32 (wr32 (wr32 m (vq_num_at q_vq) nb) (vq_desc_at q_vq) q_desc) (vq_avail_at q_vq) q_avail) (vq_used_at q_vq) q_used.

Lemma set_words_out m x : in_ram x 1 -> x < q_vq \/ q_vq + 16 <= x -> set_words m x = m x.
Proof.
  intros Hx Ho. unfold set_words, vq_num_at, vq_desc_at, vq_avail_at, vq_used_at. q_unfold.
  rewrite !wr32_outside by (unfold in_ram; lia). done.
Qed.

Lemma queue_in_words m : filled m0 m (Z.to_nat nb) -> queue_in (set_words m).
Proof.
  intros Hf. pose proof (qf_num Hq) as Hnb.
  constructor; [apply (filled_ext m); [lia|intros x Hx Ho; by apply set_words_out|done]|..].
  all: unfold set_words, vq_num_at, vq_desc_at, vq_avail_at, vq_used_at; q_unfold.
  all: repeat first [rewrite rd32_wr32_same by (unfold in_ram; lia)|rewrite rd32_wr32_other by (unfold in_ram; lia)].
  all: apply wrap_small; unfold in_width; lia.
Qed.

Lemma q_live_vq i : (q_vq, 16) ∈ q_live live0 i.
Proof. unfold q_live. set_solver. Qed.

Lemma setup_virtq_ok device qnum w :
  bump (k_heap (w_st w)) live0 p0 (e0 - 12 - p0) -> (forall x, in_ram x 1 -> k_ram (w_st w) x = m0 x) ->
  quiet device REG_QUEUE_SELECT -> quiet device REG_QUEUE_NUM ->
  wp (setup_virtq env fuel device nb bs qnum) (fun vq w' => vq = q_vq /\ q_heap (w_st w') live0 (Z.to_nat nb) /\
    queue_in (k_ram (w_st w')) /\
    w_trace w' = w_trace w ++ [reg_call device REG_QUEUE_SELECT qnum; reg_call device REG_QUEUE_NUM nb]) w.
Proof.
  intros Hb Hm Hs Hn. pose proof (qf_num Hq) as Hnb. unfold setup_virtq. apply setup_blocks_ok; [done..|]. intros w0 H0 Ht0.
  apply wp_bind. apply (wp_for_until_none _ _ (fun pre w' => setup_inv (length pre) w' /\ w_trace w' = w_trace w)); [done|..].
  - intros pre i post w' Hseq [Hinv Ht].
    assert (i = length pre /\ i < nb) as [Ei Hi].
    { pose proof (f_equal (fun l => l !! length pre) Hseq) as E. simpl in E. rewrite list_lookup_middle in E by done.
      apply lookup_seq in E as [E1 E2]. lia. }
    rewrite <-Ei in Hinv. eapply wp_mono; [by apply setup_buf_ok|]. simpl. intros r w'' (-> & Hinv' & Ht'). split; [done|].
    rewrite length_app. simpl. replace (length pre + 1)%nat with (S i) by lia. split; [done|]. congruence.
  - intros w' [[Hh Hf] Ht]. rewrite length_seq in *. unfold st32, st. k_go. apply wp_reg_quiet; [intros; apply Hs|]. k_go.
    apply wp_reg_quiet; [intros; apply Hn|]. k_go. split_and!; [done| | |].
    + eapply (bump_store _ _ _ _ q_vq 16 (set_words (k_ram (w_st w'))) Hh); [apply q_live_vq|]. intros x Hx Ho. by apply set_words_out.
    + exact (queue_in_words _ Hf).
    + simpl. unfold set_field. rewrite Ht, <-app_assoc. done.
Qed.

(** The stores that hand the queue over, before the last one. *)
Lemma commit_ok device vq_idx m w : queue_in m -> (forall x, in_ram x 1 -> k_ram (w_st w) x = m x) ->
  quiet device REG_QUEUE_SELECT -> quiet device REG_QUEUE_DESC_LOW -> quiet device REG_QUEUE_DRIVER_LOW -> quiet device REG_QUEUE_DEVICE_LOW ->
  wp (commit_and_ready_vq env device vq_idx q_vq) (fun _ w' =>
    let trace := w_trace w ++ [reg_call device REG_QUEUE_SELECT vq_idx; reg_call device REG_QUEUE_DESC_LOW q_desc;
      reg_call device REG_QUEUE_DRIVER_LOW q_avail; reg_call device REG_QUEUE_DEVICE_LOW q_used] in
    w_trace w' = trace ++ [reg_call device REG_QUEUE_READY 1] /\
    k_ram (w_st w') = foldl (fun m x => wr_bytes m x.1 x.2) (k_ram (w_st w)) (env trace (reg_call device REG_QUEUE_READY 1))) w.
Proof.
  intros [_ _ Ed Ea Eu] Hm Q1 Q2 Q3 Q4.
  assert (forall a, q_vq <= a -> a + 4 <= q_vq + 16 -> rd32 (k_ram (w_st w)) a = rd32 m a) as Hrd.
  { intros a H1 H2. unfold rd32. f_equal. apply rd_bytes_ext; [q_unfold; lia|]. intros x Hx. apply Hm. q_unfold. lia. }
  unfold commit_and_ready_vq. apply wp_bind, wp_reg_quiet; [intros; apply Q1|].
  apply wp_bind. eapply wp_ld32; [etransitivity; [apply Hrd; unfold vq_desc_at; lia|exact Ed]|]. apply wp_bind, wp_reg_quiet; [intros; apply Q2|].
  apply wp_bind. eapply wp_ld32; [etransitivity; [apply Hrd; unfold vq_avail_at; lia|exact Ea]|]. apply wp_bind, wp_reg_quiet; [intros; apply Q3|].
  apply wp_bind. eapply wp_ld32; [etransitivity; [apply Hrd; unfold vq_used_at; lia|exact Eu]|]. apply wp_bind, wp_reg_quiet; [intros; apply Q4|].
  unfold reg. k_go. apply wp_dma. simpl. unfold set_field. rewrite <-!app_assoc. done.
Qed.
End Setup.
End Queue.
