(* ===== verification/KDriverDev.v ===== *)
(** * KDriverDev: a virtio device behind the register stores of the guest's driver *)

From S2P Require Import Prelude Effects KMem Libc Wire Device Virtio VirtioExec VirtioSafe KSys.

(** The monitor hands each store of the guest to the device that owns the address. *)
Definition serve {T} `{!VirtioDevice T} (l : list kcall) : dev_prog T unit :=
  for_each l (fun c =>
    match c with
    | Reg a v => _ ← handle_MMIO (MmioRequest a v 4 1); mret tt
    | _ => mret tt
    end).

(** [d] differs from [d0] in the registers and in the queue [q], which is
    selected and is [v]. *)
Record stage (d0 : vdev) (q : Z) (d : vdev) (v : VirtQueue) : Prop := {
  sg_ok : vdev_ok d;
  sg_mem : m_mem d = m_mem d0;
  sg_num : m_num_queues d = m_num_queues d0;
  sg_start : m_mmio_start d = m_mmio_start d0;
  sg_sel : m_queue_sel d = q;
  sg_q : 0 <= q < m_num_queues d0;
  sg_vq : vq_at d q = v;
}.

Lemma stage_select d0 q d v : vdev_ok d -> m_mem d = m_mem d0 -> m_num_queues d = m_num_queues d0 ->
  m_mmio_start d = m_mmio_start d0 -> 0 <= q < m_num_queues d0 -> vq_at d q = v -> stage d0 q (d <| m_queue_sel := q |>) v.
Proof. intros Hd E1 E2 E3 Hq Ev. constructor; try done. destruct Hd. constructor; try done. simpl. unfold set_field. lia. Qed.

Lemma stage_upd d0 q d v f : stage d0 q d v -> vq_ok (m_mem d0) (f v) -> stage d0 q (upd_vq q f d) (f v).
Proof.
  intros [H1 H2 H3 H4 H5 H6 H7] Hf. constructor; try done.
  - apply vdev_ok_upd; [done|by rewrite H3|by rewrite H2, H7].
  - rewrite vq_at_upd by (done || lia). rewrite decide_True by done. by rewrite H7.
Qed.

Lemma stage_vq_ok d0 q d v : stage d0 q d v -> vq_ok (m_mem d0) v.
Proof. intros [H1 H2 H3 H4 H5 H6 <-]. destruct (get_vq_lookup d q H1 ltac:(lia)) as [_ H]. by rewrite H2 in H. Qed.

Lemma gaddr_low low : in_width 32 low -> gaddr 0 low = low.
Proof. intros _. unfold gaddr. by rewrite Z.shiftl_0_l. Qed.

Lemma oob_false m a n : mm_ok m -> in_memory m a n -> 0 <= n < 2 ^ 32 -> oob m a n = false.
Proof. intros Hm Hi Hn. apply (oob_in_memory _ _ _ Hm); [by eapply in_memory_width|unfold in_width; lia|done]. Qed.

Definition made_ready (v : VirtQueue) : VirtQueue :=
  v <| desc_table_gaddr := queue_desc_low v |> <| avail_gaddr := queue_driver_low v |>
    <| used_gaddr := queue_device_low v |> <| ready := true |>.

(** [ready_queue] on a queue below 4 GiB that lies in the guest's memory. *)
Lemma ready_queue_exec d0 q d v tr held : stage d0 q d v -> num_bufs v <> 0 ->
  queue_desc_high v = 0 -> queue_driver_high v = 0 -> queue_device_high v = 0 ->
  in_memory (m_mem d0) (queue_desc_low v) (sizeof_VirtqDesc * num_bufs v) ->
  in_memory (m_mem d0) (queue_driver_low v) (sizeof_VirtqAvail + num_bufs v * 2) ->
  in_memory (m_mem d0) (queue_device_low v) (sizeof_VirtqUsed + num_bufs v * sizeof_VirtqUsedElem) ->
  wp ready_queue (fun r w' => r = 0 /\ w' = World (upd_vq q made_ready d) tr held) (World d tr held) /\
  stage d0 q (upd_vq q made_ready d) (made_ready v).
Proof.
  intros Hs Hn E1 E2 E3 I1 I2 I3. pose proof (stage_vq_ok _ _ _ _ Hs) as Hv. split.
  - pose proof Hs as [H1 H2 H3 H4 H5 H6 H7]. pose proof (vd_mem _ H1) as Hm. unfold ready_queue. wp_go. cbn [w_st]. rewrite H5.
    apply wp_get_vq; [done|cbn [w_st]; lia|]. cbn [w_st]. rewrite H7, (proj2 (Z.eqb_neq _ _) Hn), E1, E2, E3.
    destruct Hv as [Hvn _ Hvr _]. rewrite !Forall_cons in Hvr. destruct Hvr as (W1 & _ & W2 & _ & W3 & _). unfold MAX_VQ_SIZE in Hvn.
    rewrite !gaddr_low by done. unfold in_width in *. rewrite <-H2 in I1, I2, I3.
    rewrite (oob_false _ _ _ Hm I1) by (unfold sizeof_VirtqDesc; lia).
    rewrite (oob_false _ _ _ Hm I2) by (unfold sizeof_VirtqAvail; lia).
    rewrite (oob_false _ _ _ Hm I3) by (unfold sizeof_VirtqUsed, sizeof_VirtqUsedElem; lia).
    apply wp_bind, wp_set_vq; [done|cbn [w_st]; lia|]. wp_go. split; [done|]. unfold set_field. simpl. f_equal. unfold upd_vq.
    unfold set_field. simpl. unfold set_field. f_equal. apply list_alter_ext; [|done]. intros x Hx.
    destruct (get_vq_lookup d q H1 ltac:(lia)) as [Hl _]. unfold znth in Hl. rewrite (proj2 (Z.ltb_ge _ _)) in Hl by lia.
    rewrite Hl in Hx. injection Hx as <-. rewrite H7. by destruct v.
  - apply stage_upd; [done|]. destruct Hv. by constructor.
Qed.

Section Device.
Context {T : Type} `{!VirtioDevice T} (law : forall d (t : T), base (set_base d t) = d).
Implicit Types (t : T) (d : vdev) (tr : list (call dev_iface)) (held : list (mutex dev_iface)).

Lemma low_register d off : 0 <= off < CONFIG_SPACE_START -> in_config_space d off 4 = false.
Proof. intros Ho. unfold in_config_space. by rewrite (proj2 (Z.leb_gt _ _)) by lia. Qed.

(** One store to a register below the configuration space. *)
Lemma wp_handle_write off v (Q : Z -> dev_world T -> Prop) t tr held :
  0 <= off < CONFIG_SPACE_START -> (virtio_lock : mutex dev_iface) ∉ held ->
  wp (mmio_write off 4 v) (fun _ w' => wp (dunlock virtio_lock) (fun _ w'' => Q 0 w'') w')
    (World t tr ((virtio_lock : mutex dev_iface) :: held)) ->
  wp (handle_MMIO (MmioRequest (m_mmio_start (base t) + off) v 4 1)) Q (World t tr held).
Proof.
  intros Ho Hl H. unfold handle_MMIO. wp_go. cbn [mr_phys_addr mr_data mr_len mr_is_write w_st].
  assert (u64 (m_mmio_start (base t) + off - m_mmio_start (base t)) = off) as ->.
  { replace (m_mmio_start (base t) + off - m_mmio_start (base t)) with off by lia. apply wrap_small.
    unfold in_width, CONFIG_SPACE_START in *. lia. }
  apply wp_dlock; [done|]. apply wp_bind, wp_bind. eapply wp_mono; [exact H|].
  intros r w' H'. wp_go. eapply wp_mono; [exact H'|]. intros [] w'' H''. by wp_go.
Qed.

Lemma wp_serve off v l (Q : unit -> dev_world T -> Prop) t tr held :
  0 <= off < CONFIG_SPACE_START -> (virtio_lock : mutex dev_iface) ∉ held ->
  wp (mmio_write off 4 v) (fun _ w' => wp (dunlock virtio_lock) (fun _ w'' => wp (serve l) Q w'') w')
    (World t tr ((virtio_lock : mutex dev_iface) :: held)) ->
  wp (serve (Reg (m_mmio_start (base t) + off) v :: l)) Q (World t tr held).
Proof.
  intros Ho Hl H. unfold serve. cbn [for_each]. apply wp_bind, wp_bind, wp_handle_write; [done..|exact H].
Qed.

Lemma wp_unlock_top (Q : unit -> dev_world T -> Prop) t tr held : (virtio_lock : mutex dev_iface) ∉ held ->
  Q tt (World t tr held) -> wp (dunlock virtio_lock) Q (World t tr ((virtio_lock : mutex dev_iface) :: held)).
Proof. intros Hl HQ. eapply wp_dunlock; [reflexivity|exact Hl|exact HQ]. Qed.

(** A store to a register of the selected queue. *)
Lemma serve_vq_reg off v f l (Q : unit -> dev_world T -> Prop) t tr held :
  0 <= off < CONFIG_SPACE_START -> (virtio_lock : mutex dev_iface) ∉ held -> vdev_ok (base t) ->
  (forall w : dev_world T, in_config_space (base (w_st w)) off 4 = false -> mmio_write off 4 v w = (write_vq f;; mret 0) w) ->
  wp (serve l) Q (World (set_base (upd_vq (m_queue_sel (base t)) f (base t)) t) tr held) ->
  wp (serve (Reg (m_mmio_start (base t) + off) v :: l)) Q (World t tr held).
Proof.
  intros Ho Hl Hd Hf H. apply wp_serve; [done..|]. unfold wp at 1. rewrite Hf by (by apply low_register).
  change (wp (write_vq f;; mret 0) (fun _ w' => wp (dunlock virtio_lock) (fun _ w'' => wp (serve l) Q w'') w')
    (World t tr ((virtio_lock : mutex dev_iface) :: held))).
  apply wp_bind. unfold write_vq, in_base. apply wp_zoom. wp_go. apply wp_set_vq; [done|by apply Hd|]. wp_go.
  by apply wp_unlock_top.
Qed.

Lemma serve_select v l (Q : unit -> dev_world T -> Prop) t tr held :
  (virtio_lock : mutex dev_iface) ∉ held -> v < m_num_queues (base t) ->
  wp (serve l) Q (World (set_base ((base t) <| m_queue_sel := v |>) t) tr held) ->
  wp (serve (Reg (m_mmio_start (base t) + REG_QUEUE_SELECT) v :: l)) Q (World t tr held).
Proof.
  intros Hl Hv H. apply wp_serve; [done..|]. unfold mmio_write. wp_go.
  cbn [w_st]. rewrite (proj2 (Z.ltb_lt _ _) Hv). unfold write_reg, in_base. apply wp_zoom. wp_go.
  by apply wp_unlock_top.
Qed.

(** The store that makes the queue ready hands it to the device. *)
Lemma serve_ready (Q : unit -> dev_world T -> Prop) t tr held d' :
  (virtio_lock : mutex dev_iface) ∉ held ->
  wp ready_queue (fun r w' => r = 0 /\ w' = World d' tr ((virtio_lock : mutex dev_iface) :: held)) (World (base t) tr ((virtio_lock : mutex dev_iface) :: held)) ->
  wp (got_data (u16 (m_queue_sel (base t)))) (fun _ w' => wp (dunlock virtio_lock) Q w')
    (World (set_base d' t) tr ((virtio_lock : mutex dev_iface) :: held)) ->
  wp (serve [Reg (m_mmio_start (base t) + REG_QUEUE_READY) 1 : kcall]) Q (World t tr held).
Proof.
  intros Hl Hr H. apply wp_serve; [done..|]. unfold mmio_write. wp_go.
  unfold in_base. apply wp_zoom. eapply wp_mono; [exact Hr|]. simpl. intros r w' [-> ->]. wp_go.
  eapply wp_mono; [exact H|]. intros ? w' H'. wp_go. eapply wp_mono; [exact H'|]. intros [] w'' HQ. exact HQ.
Qed.

Lemma write_num v (w : dev_world T) : v < MAX_VQ_SIZE ->
  mmio_write REG_QUEUE_NUM 4 v w = (write_vq (fun vq => if ready vq then vq else vq <| num_bufs := v |>);; mret 0) w.
Proof.
  intros Hv. transitivity (((if v <? MAX_VQ_SIZE then write_vq (fun vq => if ready vq then vq else vq <| num_bufs := v |>)
    else mret tt);; mret 0) w); [done|]. by rewrite (proj2 (Z.ltb_lt _ _) Hv).
Qed.

(** The stores of [setup_virtq] and [commit_and_ready_vq], as the device sees them. *)
Definition queue_stores (start q nb desc avail used : Z) : list kcall :=
  [Reg (start + REG_QUEUE_SELECT) q; Reg (start + REG_QUEUE_NUM) nb; Reg (start + REG_QUEUE_SELECT) q;
   Reg (start + REG_QUEUE_DESC_LOW) desc; Reg (start + REG_QUEUE_DRIVER_LOW) avail;
   Reg (start + REG_QUEUE_DEVICE_LOW) used; Reg (start + REG_QUEUE_READY) 1].

(** The queue that they make of a new one. *)
Definition driven (nb desc avail used : Z) : VirtQueue :=
  made_ready (calloc_vq <| num_bufs := nb |> <| queue_desc_low := desc |> <| queue_driver_low := avail |> <| queue_device_low := used |>).

Lemma serve_queue q nb desc avail used t tr held :
  let d0 := base t in
  vdev_ok d0 -> (virtio_lock : mutex dev_iface) ∉ held -> 0 <= q < m_num_queues d0 -> vq_at d0 q = calloc_vq ->
  0 < nb < MAX_VQ_SIZE -> in_width 32 desc -> in_width 32 avail -> in_width 32 used ->
  in_memory (m_mem d0) desc (sizeof_VirtqDesc * nb) -> in_memory (m_mem d0) avail (sizeof_VirtqAvail + nb * 2) ->
  in_memory (m_mem d0) used (sizeof_VirtqUsed + nb * sizeof_VirtqUsedElem) ->
  exists t', stage d0 q (base t') (driven nb desc avail used) /\
    forall Q : unit -> dev_world T -> Prop,
    wp (got_data (u16 q)) (fun _ w' => wp (dunlock virtio_lock) Q w') (World t' tr ((virtio_lock : mutex dev_iface) :: held)) ->
    wp (serve (queue_stores (m_mmio_start d0) q nb desc avail used)) Q (World t tr held).
Proof.
  intros d0 Hd Hl Hq Hv Hnb Wd Wa Wu Id Ia Iu. destruct (get_vq_lookup d0 q Hd Hq) as [_ Hok]. rewrite Hv in Hok.
  set (t1 := set_base (d0 <| m_queue_sel := q |>) t).
  assert (stage d0 q (base t1) calloc_vq) as S1 by (unfold t1; rewrite law; by apply stage_select).
  set (v2 := calloc_vq <| num_bufs := nb |>).
  set (t2 := set_base (upd_vq q (fun vq => if ready vq then vq else vq <| num_bufs := nb |>) (base t1)) t1).
  assert (stage d0 q (base t2) v2) as S2.
  { unfold t2; rewrite law. eapply (stage_upd _ _ _ calloc_vq); [done|]. apply set_num_ok; [lia|done]. }
  set (t3 := set_base ((base t2) <| m_queue_sel := q |>) t2).
  assert (stage d0 q (base t3) v2) as S3 by (unfold t3; rewrite law; apply stage_select; apply S2).
  set (f4 := fun vq : VirtQueue => vq <| queue_desc_low := u32 desc |>).
  set (f5 := fun vq : VirtQueue => vq <| queue_driver_low := u32 avail |>).
  set (f6 := fun vq : VirtQueue => vq <| queue_device_low := u32 used |>).
  set (t4 := set_base (upd_vq q f4 (base t3)) t3). set (t5 := set_base (upd_vq q f5 (base t4)) t4).
  set (t6 := set_base (upd_vq q f6 (base t5)) t5).
  assert (forall v : VirtQueue, ready v = false -> 0 <= num_bufs v < MAX_VQ_SIZE -> in_width 16 (avail_tail_idx v) ->
    Forall (in_width 32) [queue_desc_low v; queue_desc_high v; queue_driver_low v; queue_driver_high v; queue_device_low v; queue_device_high v] ->
    vq_ok (m_mem d0) v) as Hvq by (intros v Hr ? ? ?; constructor; try done; by rewrite Hr).
  assert (stage d0 q (base t4) (f4 v2)) as S4.
  { unfold t4. rewrite law. apply stage_upd; [done|]. apply Hvq; [done|simpl; lia|done|]. simpl. repeat constructor; try done; apply wrap_range; lia. }
  assert (stage d0 q (base t5) (f5 (f4 v2))) as S5.
  { unfold t5. rewrite law. apply stage_upd; [done|]. apply Hvq; [done|simpl; lia|done|]. simpl. repeat constructor; try done; apply wrap_range; lia. }
  assert (stage d0 q (base t6) (f6 (f5 (f4 v2)))) as S6.
  { unfold t6. rewrite law. apply stage_upd; [done|]. apply Hvq; [done|simpl; lia|done|]. simpl. repeat constructor; try done; apply wrap_range; lia. }
  destruct (ready_queue_exec d0 q (base t6) (f6 (f5 (f4 v2))) tr ((virtio_lock : mutex dev_iface) :: held) S6) as [Hr S7].
  1-7: simpl; unfold set_field; rewrite ?(wrap_small 32) by done; (done || lia).
  exists (set_base (upd_vq q made_ready (base t6)) t6). split.
  { rewrite law. unfold driven. replace (made_ready _) with (made_ready (f6 (f5 (f4 v2)))); [done|].
    unfold f6, f5, f4. by rewrite !(wrap_small 32) by done. }
  intros Q H. unfold queue_stores.
  apply serve_select; [done|apply Hq|]. change (set_base _ t) with t1. rewrite <-(sg_start _ _ _ _ S1).
  eapply serve_vq_reg; [done|done|apply S1|intros w _; apply write_num, Hnb|]. rewrite (sg_sel _ _ _ _ S1). fold t2.
  rewrite (sg_start _ _ _ _ S1), <-(sg_start _ _ _ _ S2). apply serve_select; [done|rewrite (sg_num _ _ _ _ S2); apply Hq|]. fold t3.
  rewrite (sg_start _ _ _ _ S2), <-(sg_start _ _ _ _ S3).
  apply (serve_vq_reg _ _ f4); [done|done|apply S3|done|]. rewrite (sg_sel _ _ _ _ S3). fold t4.
  rewrite (sg_start _ _ _ _ S3), <-(sg_start _ _ _ _ S4).
  apply (serve_vq_reg _ _ f5); [done|done|apply S4|done|]. rewrite (sg_sel _ _ _ _ S4). fold t5.
  rewrite (sg_start _ _ _ _ S4), <-(sg_start _ _ _ _ S5).
  apply (serve_vq_reg _ _ f6); [done|done|apply S5|done|]. rewrite (sg_sel _ _ _ _ S5). fold t6.
  rewrite (sg_start _ _ _ _ S5), <-(sg_start _ _ _ _ S6).
  eapply serve_ready; [done|exact Hr|]. by rewrite (sg_sel _ _ _ _ S6).
Qed.
End Device.
