(* ===== verification/KDriverProps.v ===== *)
(** * KDriverProps: the guest's driver and the devices *)

From S2P Require Import Prelude Effects KMem KMalloc KernelProps KBump Libc Wire Device Virtio VirtioExec VirtioSafe.
From S2P Require Import P9Wire P9Props KP9 KP9Enc KShare KSys KDriver KDriverExec KDriverDev.

(** The loop over the buffers of a queue, as devices write it. *)
Definition drain (env : dev_env) (fuel : nat) (q : Z) : vprog (list VirtBuf) :=
  loop fuel (fun acc =>
    r ← get_buf env q;
    match r with
    | Some b => mret (inl (acc ++ [b]))
    | None => mret (inr acc)
    end) [].

Definition buf_key (b : VirtBuf) : Z * Z * Z := (vb_id b, vb_guest_addr b, vb_len b).

Section Offers.
Context (p0 e0 nb bs : Z) (Hq : queue_fits p0 e0 nb bs) (m0 m : ram) (Hm : queue_in p0 e0 nb bs m0 m).
Context (g : memory_manager) (Hg : shares g m) (Hlo : m_guest_start_paddr g <= p0) (Hhi : e0 <= m_guest_end_paddr g).
Context (q : Z).

Let V := driven nb (q_desc p0) (q_avail p0 nb) (q_used p0 nb).

(** The device has taken [i] buffers. *)
Record at_tail (d : vdev) (i : nat) : Prop := {
  at_ok : vdev_ok d;
  at_mem : m_mem d = g;
  at_q : 0 <= q < m_num_queues d;
  at_vq : vq_at d q = V <| avail_tail_idx := i |>;
}.

Ltac q_unfold := destruct Hq as [Hqn Hqs Hqb Hqr Hqt]; unfold in_memory, q_buf, q_hdr, q_used, q_avail, q_desc, q_vq, sizeof_block, MAX_VQ_SIZE in *.

Lemma in_guest a n : p0 <= a -> 0 < n -> a + n <= e0 -> in_memory g a n.
Proof. intros. unfold in_memory. lia. Qed.

Lemma at_tail_fields d i : at_tail d i -> m_mem d = g /\ num_bufs (vq_at d q) = nb /\ ready (vq_at d q) = true /\
  avail_tail_idx (vq_at d q) = i /\ desc_table_gaddr (vq_at d q) = q_desc p0 /\ avail_gaddr (vq_at d q) = q_avail p0 nb /\
  used_gaddr (vq_at d q) = q_used p0 nb.
Proof. intros [_ Em _ Ev]. split; [done|]. by rewrite Ev. Qed.

Lemma at_tail_head d i : at_tail d i -> guest16 (m_mem d) (avail_gaddr (vq_at d q) + offsetof_head_idx) = nb.
Proof.
  intros Ha. destruct (at_tail_fields d i Ha) as (-> & _ & _ & _ & _ & -> & _). pose proof (qi_filled _ _ _ _ _ _ Hm) as Hf.
  pose proof (fi_idx _ _ _ _ _ _ _ Hf) as E. rewrite Z2Nat.id in E by (destruct Hq; lia).
  apply (shares16 g m); [done|apply in_guest; q_unfold; unfold offsetof_head_idx; nia| |done].
  unfold in_width. destruct Hq; unfold MAX_VQ_SIZE in *; lia.
Qed.

Lemma at_tail_id d i : at_tail d i -> i < nb -> next_id d q = i.
Proof.
  intros Ha Hi. destruct (at_tail_fields d i Ha) as (Em & En & _ & Et & _ & Ea & _). unfold next_id. rewrite Em, Ea, En, Et.
  rewrite Z.mod_small by lia.
  apply (shares16 g m); [done|apply in_guest; q_unfold; unfold offsetof_ring; nia| |].
  - unfold in_width. destruct Hq; unfold MAX_VQ_SIZE in *; lia.
  - pose proof (qi_filled _ _ _ _ _ _ Hm) as Hf. apply (fi_ring _ _ _ _ _ _ _ Hf i). lia.
Qed.

Lemma load_desc_bytes (i : nat) : i < nb -> load_desc (desc_bytes p0 nb bs i) = Desc (q_buf p0 nb bs i) bs 0 0.
Proof.
  intros Hi. assert (forall x y : bytes, length x = 8%nat -> length y = 4%nat ->
    load_desc (x ++ y ++ replicate 4 0) = Desc (le_val x) (le_val y) 0 0) as H.
  { intros x y Hx Hy. do 8 (destruct x as [|? x]; [done|]). destruct x; [|done]. do 4 (destruct y as [|? y]; [done|]). by destruct y. }
  unfold desc_bytes. rewrite H by apply length_le_bytes. rewrite !le_val_bytes.
  rewrite (wrap_small (8 * 8%nat)), (wrap_small (8 * 4%nat)); [done|..]; unfold in_width; q_unfold; nia.
Qed.

Lemma at_tail_desc d i : at_tail d i -> i < nb -> next_desc d q = Desc (q_buf p0 nb bs i) bs 0 0.
Proof.
  intros Ha Hi. unfold next_desc. rewrite (at_tail_id d i Ha Hi). destruct (at_tail_fields d i Ha) as (-> & _ & _ & _ & -> & _).
  rewrite <-(load_desc_bytes i Hi). f_equal. change sizeof_VirtqDesc with (Z.of_nat 16).
  apply (shares_bytes g m); [done|apply in_guest; q_unfold; nia|].
  pose proof (qi_filled _ _ _ _ _ _ Hm) as Hf. apply (fi_desc _ _ _ _ _ _ _ Hf i). lia.
Qed.

Lemma at_tail_offered d i : at_tail d i -> i <= nb -> offered d q <-> i < nb.
Proof.
  intros Ha Hi. destruct (at_tail_fields d i Ha) as (Em & En & Er & Et & Ed & Ea & _). unfold offered. cbv zeta.
  rewrite (at_tail_head d i Ha), Et. split; [intros (_ & _ & H & _); lia|]. intros Hlt.
  rewrite (at_tail_id d i Ha Hlt), (at_tail_desc d i Ha Hlt), Em, En, Er, Ed. cbn [d_addr d_len].
  destruct Ha as [_ _ [_ Hn] _]. split_and!; try done; [lia|apply in_guest; q_unfold; unfold sizeof_VirtqDesc; nia|].
  apply in_guest; q_unfold; nia.
Qed.

Lemma at_tail_consumed d i : at_tail d i -> i < nb -> at_tail (consumed q d) (S i).
Proof.
  intros Ha Hi. destruct Ha as [H1 H2 H3 H4]. constructor; [by apply vdev_ok_consumed|done|done|].
  unfold consumed. rewrite vq_at_upd by (done || lia). rewrite decide_True by done. rewrite H4. unfold set_field. simpl.
  f_equal. rewrite wrap_small; [lia|]. unfold in_width. destruct Hq; unfold MAX_VQ_SIZE in *; lia.
Qed.

(** The device takes the buffers in their order. *)
Lemma drain_ok env (fuel : nat) (d : vdev) tr held : at_tail d 0 -> nb < fuel ->
  wp (drain env fuel q) (fun l w' => buf_key <$> l = (fun i : nat => (Z.of_nat i, q_buf p0 nb bs i, bs)) <$> seq 0 (Z.to_nat nb) /\
    at_tail (w_st w') (Z.to_nat nb) /\ w_held w' = held) (World d tr held).
Proof.
  intros H0 Hf. unfold drain. pose proof (qf_num _ _ _ _ Hq) as Hnb.
  assert (forall k acc w, (k + length acc)%nat = Z.to_nat nb -> (k < fuel)%nat -> at_tail (w_st w) (length acc) -> w_held w = held ->
    buf_key <$> acc = (fun i : nat => (Z.of_nat i, q_buf p0 nb bs i, bs)) <$> seq 0 (length acc) -> forall f, (k < f)%nat ->
    wp (loop f (fun acc => r ← get_buf env q; match r with Some b => mret (inl (acc ++ [b])) | None => mret (inr acc) end) acc)
      (fun l w' => buf_key <$> l = (fun i : nat => (Z.of_nat i, q_buf p0 nb bs i, bs)) <$> seq 0 (Z.to_nat nb) /\
        at_tail (w_st w') (Z.to_nat nb) /\ w_held w' = held) w) as Hgo.
  { induction k as [|k IH]; intros acc w Hk Hkf Ha Hh Hacc f Hff; (destruct f as [|f]; [lia|]); apply wp_loop_inr, wp_bind.
    all: pose proof (at_tail_offered _ _ Ha ltac:(lia)) as Hof.
    all: apply get_buf_exec; [apply Ha|apply Ha| |].
    all: intros Ho.
    - wp_go. replace (Z.to_nat nb) with (length acc) by lia. done.
    - apply Hof in Ho. lia.
    - exfalso. apply Ho, Hof. lia.
    - intros junk desc. wp_go. apply Hof in Ho. unfold desc. rewrite (at_tail_desc _ _ Ha Ho), (at_tail_id _ _ Ha Ho). cbn [d_addr d_len d_flags].
      apply IH; [rewrite length_app; simpl; lia|lia| |done| |lia].
      + rewrite length_app. simpl. replace (length acc + 1)%nat with (S (length acc)) by lia. by apply at_tail_consumed.
      + rewrite length_app. simpl length. rewrite seq_app, !fmap_app, Hacc. done. }
  apply (Hgo (Z.to_nat nb) []); [simpl; lia|lia|done|done|done|lia].
Qed.
End Offers.

(** The stores that set up the queue [q] and hand it over. *)
Definition queue_calls (device q p0 nb : Z) : list kcall :=
  queue_stores device q nb (q_desc p0) (q_avail p0 nb) (q_used p0 nb).

(** C9: The driver of the guest kernel and the devices agree on the queue: with
    enough room behind the allocated blocks of the heap, [setup_virtq] and
    [commit_and_ready_vq] run to their end and keep the heap well formed; every
    virtio device that sees the guest's memory at the last store accepts the
    queue, and the buffers that it then takes are all the buffers of the driver,
    each once, in their order and with their sizes; handling all the stores of
    the driver is handling the new buffers. *)
Theorem guest_queue_accepted (env : kenv) (fuel : nat) live0 p0 e0 nb bs device q (w : kworld) :
  queue_fits p0 e0 nb bs -> length live0 + 4 + nb < fuel ->
  bump (k_heap (w_st w)) live0 p0 (e0 - 12 - p0) -> in_width 32 q ->
  Forall (quiet env device) [REG_QUEUE_SELECT; REG_QUEUE_NUM; REG_QUEUE_DESC_LOW; REG_QUEUE_DRIVER_LOW; REG_QUEUE_DEVICE_LOW] ->
  wp (vq ← setup_virtq env fuel device nb bs q; commit_and_ready_vq env device q vq;; mret vq) (fun vq w' =>
    exists m, vq = q_vq p0 /\
    w_trace w' = w_trace w ++ (queue_calls device q p0 nb : list (call k_iface)) /\
    (exists h, kram h = m /\ bump h (q_live p0 nb bs live0 (Z.to_nat nb)) (q_hdr p0 nb bs nb) (e0 - 12 - q_hdr p0 nb bs nb)) /\
    (exists dma, k_ram (w_st w') = foldl (fun m x => wr_bytes m x.1 x.2) m dma) /\
    (forall x, in_ram x 1 -> x < p0 \/ e0 <= x -> m x = k_ram (w_st w) x) /\
    forall T (VD : VirtioDevice T) (t : T) tr held denv, (forall d (t : T), base (set_base d t) = d) ->
      vdev_ok (base t) -> m_mmio_start (base t) = device -> 0 <= q < m_num_queues (base t) -> vq_at (base t) q = calloc_vq ->
      (virtio_lock : mutex dev_iface) ∉ held -> shares (m_mem (base t)) m ->
      m_guest_start_paddr (m_mem (base t)) <= p0 -> e0 <= m_guest_end_paddr (m_mem (base t)) ->
      exists t',
        wp (drain denv (S (Z.to_nat nb)) q) (fun l _ =>
          buf_key <$> l = (fun i : nat => (Z.of_nat i, q_buf p0 nb bs i, bs)) <$> seq 0 (Z.to_nat nb)) (World (base t') tr held) /\
        forall Q : unit -> dev_world T -> Prop,
          wp (got_data (u16 q)) (fun _ w => wp (dunlock virtio_lock) Q w) (World t' tr ((virtio_lock : mutex dev_iface) :: held)) ->
          wp (serve (queue_calls device q p0 nb)) Q (World t tr held)) w.
Proof.
  intros Hq Hf Hb Hw Hquiet. rewrite !Forall_cons in Hquiet. destruct Hquiet as (Q1 & Q2 & Q3 & Q4 & Q5 & _).
  pose proof (qf_num _ _ _ _ Hq) as Hnb.
  assert (p0 <= q_desc p0 /\ q_desc p0 + 16 * nb <= q_avail p0 nb /\ q_avail p0 nb + (4 + nb * 2) <= q_used p0 nb /\
    q_used p0 nb + (4 + nb * 8) <= e0 /\ 0 <= p0 /\ e0 <= 2 ^ 31) as (A1 & A2 & A3 & A4 & A5 & A6).
  { destruct Hq. unfold q_hdr, q_used, q_avail, q_desc, q_vq, MAX_VQ_SIZE, sizeof_block in *. split_and!; nia. }
  apply wp_bind.
  eapply wp_mono; [by apply (setup_virtq_ok p0 e0 nb bs Hq env fuel live0 (k_ram (w_st w)) Hf)|].
  simpl. intros vq w1 (-> & Hh & Hqi & Ht). apply wp_bind.
  eapply wp_mono; [by eapply (commit_ok p0 e0 nb bs Hq)|].
  simpl. intros [] w2 [Ht2 Hr2]. wp_go. exists (k_ram (w_st w1)). split_and!; [done| | |by eexists| |].
  - rewrite Ht2, Ht, <-!app_assoc. unfold queue_calls, queue_stores, reg_call. simpl app.
    unfold MAX_VQ_SIZE in Hnb. rewrite !(wrap_small 32) by (unfold in_width in *; lia). done.
  - exists (k_heap (w_st w1)). split; [done|]. unfold q_heap in Hh. by rewrite Z2Nat.id in Hh by lia.
  - intros x Hx Ho. by apply (fi_frame _ _ _ _ _ _ _ (qi_filled _ _ _ _ _ _ Hqi)).
  - intros T VD t tr held denv Hlaw Hd Hst Hqq Hv Hl Hsh Hlo Hhi.
    destruct (serve_queue Hlaw q nb (q_desc p0) (q_avail p0 nb) (q_used p0 nb) t tr held) as (t' & Hs & HQ); try done.
    1-3: unfold in_width; lia.
    1-3: unfold in_memory, sizeof_VirtqDesc, sizeof_VirtqAvail, sizeof_VirtqUsed, sizeof_VirtqUsedElem; lia.
    exists t'. split.
    + eapply wp_mono; [eapply (drain_ok p0 e0 nb bs Hq _ _ Hqi); [exact Hsh|done|done| |lia]|by intros l w' [H _]].
      destruct Hs as [S1 S2 S3 S4 S5 S6 S7]. constructor; [done|done|lia|]. by rewrite S7.
    + intros Q H. unfold queue_calls. rewrite <-Hst. by apply HQ.
Qed.

(** A kernel with an empty heap of 1 KiB at 0x1000, and devices that answer no store. *)
Definition sample_kernel : kernel :=
  Kernel (malloc_init (fun _ => 0) 0x1000 0x400) P9_INITIAL_FID P9_INITIAL_TAG 0 0 0 0 0 0 0 [] (Idtr 0 0).
Definition silent_env : kenv := fun _ c =>
  match c return kreply c with
  | Inb _ | Ld8 _ | Rdmsr _ | Apic_id => 0
  | Reg _ _ => []
  | Wait => []
  | Outb _ _ | Outd _ _ | St32 _ _ | St8 _ _ | Lidt _ _ | Sti => tt
  end.

(** The simplest device: it leaves its buffers alone. *)
Definition plain_device : VirtioDevice vdev :=
  {| base := fun d => d; set_base := fun d _ => d; got_data := fun _ => mret 0; config_space_write := fun _ _ _ => mret 0 |}.
Definition plain_vdev (m : ram) : vdev :=
  (new_MMIOVirtioDev 9 0 [] 0x9b000000 2) <| m_mem := new_memory_manager 0x1000 0x400 (rd_bytes m 0x1000 0x400) |>.

Lemma plain_vdev_ok m : vdev_ok (plain_vdev m).
Proof.
  assert (length (rd_bytes m 0x1000 0x400) = 0x400%nat) as El by apply length_rd_bytes.
  pose proof (is_bytes_rd m 0x1000 0x400) as Hb. unfold plain_vdev. revert El Hb. generalize (rd_bytes m 0x1000 0x400). intros b El Hb.
  constructor; try done.
  - constructor; try done. change (Z.of_nat (length b) = 0x400). by rewrite El.
  - apply (Forall_replicate _ 2). constructor; simpl; try done; unfold in_width; try lia. repeat constructor; simpl; lia.
Qed.

Lemma sample_kernel_bump : bump (k_heap sample_kernel) [] 0x1000 (0x1400 - 12 - 0x1000).
Proof. apply (malloc_init_bump (fun _ => 0) 0x1000 0x400); done. Qed.

Lemma guest_queue_accepted_witness :
  wp (vq ← setup_virtq silent_env 10 0x9b000000 2 16 0; commit_and_ready_vq silent_env 0x9b000000 0 vq;; mret vq)
    (fun vq w' => vq = 0x100c /\ exists d : vdev,
      wp (drain share_env 3 0) (fun l _ => buf_key <$> l = [(0, 0x1088, 16); (1, 0x10a4, 16)]) (World d [] []))
    (World sample_kernel [] []).
Proof.
  eapply wp_mono; [apply (guest_queue_accepted silent_env 10 [] 0x1000 0x1400 2 16 0x9b000000 0 (World sample_kernel [] []))|].
  - constructor; by vm_compute.
  - simpl. lia.
  - apply sample_kernel_bump.
  - done.
  - repeat constructor.
  - intros vq w' (m & -> & _ & _ & _ & _ & H). split; [done|].
    destruct (H vdev plain_device (plain_vdev m) [] [] share_env) as (d & Hd & _); try done.
    + apply plain_vdev_ok.
    + apply not_elem_of_nil.
    + exact (shares_snapshot (new_memory_manager 0x1000 0x400 []) m eq_refl).
    + exists d. exact Hd.
Defined.

(** The stores of a list, in the guest's memory and in the device's mapping. *)
Definition guest_stores (g : memory_manager) (l : list (Z * bytes)) : memory_manager :=
  foldl (fun g x => guest_store g x.1 x.2) g l.
Definition ram_stores (m : ram) (l : list (Z * bytes)) : ram := foldl (fun m x => wr_bytes m x.1 x.2) m l.

(** The stores with which a device returns the buffer [b]. *)
Definition return_stores (p0 nb bs : Z) (b : VirtBuf) : list (Z * bytes) :=
  [(q_hdr p0 nb bs 0, used_elem b); (q_used p0 nb + 2, le_bytes 2 1)].

(** What [put_buf] stores into a queue of the driver: the first entry of the used
    ring goes over the header of the first buffer's block. *)
Lemma put_buf_stores p0 e0 nb bs m0 m q d i b tr held :
  queue_fits p0 e0 nb bs -> queue_in p0 e0 nb bs m0 m -> shares (m_mem d) m ->
  m_guest_start_paddr (m_mem d) <= p0 -> e0 <= m_guest_end_paddr (m_mem d) ->
  at_tail p0 nb (m_mem d) q d i -> 0 < i <= nb ->
  wp (put_buf q b) (fun r w' => r = 0 /\ m_mem (w_st w') = guest_stores (m_mem d) (return_stores p0 nb bs b)) (World d tr held).
Proof.
  intros Hq Hm Hs Hlo Hhi Ha Hi. destruct (at_tail_fields _ _ _ _ _ _ Ha) as (_ & En & Er & Et & _ & _ & Eu).
  pose proof (qi_filled _ _ _ _ _ _ Hm) as Hf. pose proof (qf_num _ _ _ _ Hq) as Hnb. unfold MAX_VQ_SIZE in Hnb.
  assert (p0 <= q_used p0 nb /\ q_hdr p0 nb bs 0 = q_used p0 nb + (4 + 8 * nb) /\ q_hdr p0 nb bs 0 + 12 <= e0 /\ 0 <= p0 /\ e0 <= 2 ^ 31)
    as (A1 & A2 & A3 & A4 & A5).
  { destruct Hq. unfold q_hdr, q_used, q_avail, q_desc, q_vq, sizeof_block in *. split_and!; nia. }
  assert (used_slot (vq_at d q) = q_hdr p0 nb bs 0) as Eslot.
  { unfold used_slot. rewrite Eu, En. unfold offsetof_ring, sizeof_VirtqUsedElem. lia. }
  assert (used_head d q = 0) as Ehead.
  { unfold used_head. rewrite Eu. apply (shares16 _ m); [done|unfold in_memory, offsetof_head_idx; lia|done|].
    change (le_bytes 2 0) with (replicate 2 0). apply rd_zero; [unfold in_ram, offsetof_head_idx; lia|].
    intros x Hx. apply (fi_used _ _ _ _ _ _ _ Hf). unfold offsetof_head_idx in Hx. lia. }
  apply put_buf_exec; [apply Ha|apply Ha| |].
  - intros Hno. exfalso. apply Hno. cbn [w_st]. split_and!; [apply Ha|done|rewrite Ehead, Et; lia|]. rewrite Eslot. unfold in_memory. lia.
  - intros _. split; [done|]. change (m_mem (returned q b d) = guest_stores (m_mem d) (return_stores p0 nb bs b)).
    unfold returned. cbv zeta. rewrite Eslot, Ehead, Eu. done.
Qed.

(** The next allocation of [vb_id b] bytes after that. *)
Lemma malloc_after_return p0 e0 nb bs live0 h b fuel :
  queue_fits p0 e0 nb bs ->
  bump h (q_live p0 nb bs live0 (Z.to_nat nb)) (q_hdr p0 nb bs nb) (e0 - 12 - q_hdr p0 nb bs nb) ->
  0 <= vb_id b < 2 ^ 32 -> 0 <= vb_nbytes_written b < 2 ^ 32 -> (length live0 + 4 < fuel)%nat ->
  let m' := ram_stores (kram h) (return_stores p0 nb bs b) in
  b_size m' (q_hdr p0 nb bs 0) = vb_id b /\ b_free m' (q_hdr p0 nb bs 0) = vb_nbytes_written b /\
  (0 < vb_nbytes_written b -> exists h', malloc fuel (h <| kram ::= fun m => ram_stores m (return_stores p0 nb bs b) |>) (vb_id b) = Some (q_buf p0 nb bs 0, h')).
Proof.
  intros Hq Hb Hid Hn Hf m'. pose proof (qf_num _ _ _ _ Hq) as Hnb.
  assert (p0 <= q_used p0 nb /\ q_hdr p0 nb bs 0 = q_used p0 nb + (4 + 8 * nb) /\ q_hdr p0 nb bs 0 + 12 <= e0 /\ 12 <= p0 /\ e0 <= 2 ^ 31)
    as (A1 & A2 & A3 & A4 & A5).
  { destruct Hq. unfold q_hdr, q_used, q_avail, q_desc, q_vq, MAX_VQ_SIZE, sizeof_block in *. split_and!; nia. }
  set (a0 := q_hdr p0 nb bs 0) in *. set (m1 := wr_bytes (kram h) (q_used p0 nb + 2) (le_bytes 2 1)).
  assert (length (used_elem b) = 8%nat) as El by done.
  assert (b_size m' a0 = vb_id b /\ b_free m' a0 = vb_nbytes_written b) as [Es Efr].
  { pose proof (rd_bytes_same (kram h) a0 (used_elem b)) as Hr. rewrite El in Hr. specialize (Hr ltac:(unfold in_ram; lia) (used_elem_bytes b)).
    assert (rd_bytes m' a0 8 = used_elem b) as Hr'.
    { rewrite <-Hr. apply rd_bytes_ext; [unfold in_ram; lia|]. intros x Hx. change (m' x) with (wr_bytes (wr_bytes (kram h) a0 (used_elem b)) (q_used p0 nb + 2) (le_bytes 2 1) x). apply wr_bytes_out; rewrite ?length_le_bytes; unfold in_ram; lia. }
    change 8%nat with (4 + 4)%nat in Hr'. rewrite rd_bytes_app in Hr'. apply app_inj_1 in Hr' as [R1 R2]; [|by rewrite length_rd_bytes, length_le_bytes].
    unfold b_size, b_free, rd32. change (a0 + 4%nat) with (a0 + 4) in R2. rewrite R1, R2, !le_val_bytes.
    split; apply wrap_small; unfold in_width; lia. }
  split_and!; [done|done|]. intros Hpos.
  assert (forall x, 0 <= x < a0 -> m' x = m1 x) as Hlow.
  { intros x Hx. unfold m', m1. cbn [ram_stores return_stores foldl fst snd]. fold a0. rewrite !(wr_bytes_in _ (q_used p0 nb + 2))
      by (rewrite ?length_le_bytes; unfold in_ram; lia). case_decide; [done|]. apply wr_bytes_out; rewrite ?El; unfold in_ram; lia. }
  assert (bump (h <| kram := m1 |>) (q_live p0 nb bs live0 (Z.to_nat nb)) (q_hdr p0 nb bs nb) (e0 - 12 - q_hdr p0 nb bs nb)) as Hb1.
  { eapply bump_store; [exact Hb|apply (q_live_used p0 e0 nb bs Hq)|]. intros x Hx Ho. apply wr_bytes_out; rewrite ?length_le_bytes; unfold in_ram in *; lia. }
  pose proof (bump_range _ _ _ _ Hb1) as (Hm & He & H0 & Hend & _). destruct Hb1 as [(pre & Hok & Hlive & Hpre & Hp) Hfirst _].
  set (L1 := live0 ++ [(q_vq p0, 16); (q_desc p0, 16 * nb); (q_avail p0 nb, 4 + 2 * nb); (q_used p0 nb, 4 + 8 * nb)]).
  assert (allocs (memory h) pre = L1 ++ ((fun j : nat => (q_buf p0 nb bs j, bs)) <$> seq 0 (Z.to_nat nb))) as Epre
    by (transitivity (q_live p0 nb bs live0 (Z.to_nat nb)); [done|unfold q_live, L1; by rewrite <-!app_assoc]).
  pose proof (allocs_take _ _ _ _ Hpre Epre) as E1. set (pre1 := take (length L1) pre) in *.
  assert (Forall (fun b => bfree b = false) pre1) as Hpre1 by (by apply Forall_take).
  assert (foldl behind (memory h) pre1 = a0) as Ea0.
  { rewrite A2. apply (allocs_end pre1 _ _ (live0 ++ [(q_vq p0, 16); (q_desc p0, 16 * nb); (q_avail p0 nb, 4 + 2 * nb)])); [done|].
    rewrite E1. unfold L1. by rewrite <-app_assoc. }
  assert (length pre1 = (length live0 + 4)%nat) as Elen by (rewrite <-(length_allocs pre1 Hpre1 (memory h)), E1; unfold L1; by rewrite length_app).
  pose proof (ho_layout _ _ Hok) as Hl. pose proof (ho_first _ _ Hok) as Hff. simpl in Hl, Hff, Hm, Hend, Hfirst. unfold set_field in Hl, Hff, Hfirst.
  unfold malloc. change (kram (h <| kram ::= _ |>)) with m'. change (freeList (h <| kram ::= _ |>)) with (freeList h). rewrite Hff in *.
  assert (12 <= memory h) by (unfold sizeof_block in *; lia).
  assert (memory h + 12 <= q_used p0 nb) as Hfirst'.
  { eapply (allocs_in _ _ _ _ (q_used p0 nb) (4 + 8 * nb)) in Hl as [Hl _]; [exact Hl|]. rewrite allocs_app. apply elem_of_app. left.
    rewrite Epre. apply elem_of_app. left. apply elem_of_app. right. do 3 apply list_elem_of_further. apply list_elem_of_here. }
  assert (b_size m' (memory h) = b_size m1 (memory h)) as ->.
  { apply rd32_same_on; [unfold in_ram; lia|]. intros x Hx. apply Hlow. lia. }
  rewrite (proj2 (Z.eqb_neq _ _) Hfirst).
  replace fuel with (length pre1 + S (fuel - length pre1 - 1))%nat by lia.
  rewrite (find_slot_prefix m1 m' (vb_id b) pre1 (drop (length L1) pre ++ [Blk (e0 - 12 - q_hdr p0 nb bs nb) true]) _ _ (memory h + HEAPSZ h)).
  - rewrite Ea0. cbn [Nat.add find_slot]. rewrite Es, Efr, Z.ltb_irrefl, (proj2 (Z.eqb_neq _ 0)) by lia. cbn [orb andb].
    cbn [mbind option_bind]. unfold use_slot. rewrite Es, Z.eqb_refl. cbn [fst snd]. eexists. do 2 f_equal.
    rewrite wrap_small by (unfold in_width, sizeof_block; lia). done.
  - lia.
  - done.
  - rewrite app_assoc. unfold pre1. by rewrite take_drop.
  - by destruct (drop _ pre).
  - done.
  - rewrite Ea0. exact Hlow.
Qed.

(** C38: Returning any buffer of a queue corrupts the heap of the guest: the
    device writes the used element behind the ring, over the header of the block
    of the queue's first buffer, so that the identifier of the returned buffer
    becomes the size of that block and the number of bytes written its free
    flag. When the device wrote anything, the block thereby counts as free, and
    the next allocation of as many bytes as the identifier says (0 for the
    first buffer) gets the first buffer of the queue, which still belongs to
    the queue. *)
Theorem returned_buffer_corrupts_heap p0 e0 nb bs live0 m0 h q d i b tr held fuel :
  queue_fits p0 e0 nb bs -> queue_in p0 e0 nb bs m0 (kram h) ->
  bump h (q_live p0 nb bs live0 (Z.to_nat nb)) (q_hdr p0 nb bs nb) (e0 - 12 - q_hdr p0 nb bs nb) ->
  shares (m_mem d) (kram h) -> m_guest_start_paddr (m_mem d) <= p0 -> e0 <= m_guest_end_paddr (m_mem d) ->
  at_tail p0 nb (m_mem d) q d i -> 0 < i <= nb ->
  0 <= vb_id b < 2 ^ 32 -> 0 <= vb_nbytes_written b < 2 ^ 32 -> (length live0 + 4 < fuel)%nat ->
  (q_buf p0 nb bs 0, bs) ∈ q_live p0 nb bs live0 (Z.to_nat nb) /\
  wp (put_buf q b) (fun r w' => r = 0 /\ exists l, m_mem (w_st w') = guest_stores (m_mem d) l /\
    let m' := ram_stores (kram h) l in
    b_size m' (q_hdr p0 nb bs 0) = vb_id b /\ b_free m' (q_hdr p0 nb bs 0) = vb_nbytes_written b /\
    (0 < vb_nbytes_written b ->
     exists h', malloc fuel (h <| kram := m' |>) (vb_id b) = Some (q_buf p0 nb bs 0, h'))) (World d tr held).
Proof.
  intros Hq Hm Hb Hs Hlo Hhi Ha Hi Hid Hn Hf. split.
  { pose proof (qf_num _ _ _ _ Hq). unfold q_live. apply elem_of_app; right; apply elem_of_app; right. apply list_elem_of_fmap. exists 0%nat.
    split; [done|]. apply elem_of_seq. lia. }
  eapply wp_mono; [by eapply (put_buf_stores p0 e0 nb bs m0 (kram h) q d i)|]. simpl. intros r w' [-> E]. split; [done|].
  exists (return_stores p0 nb bs b). split; [done|]. by eapply malloc_after_return.
Qed.

(** The device of the sample after it has taken both buffers of the first queue. *)
Definition taken_vdev (m : ram) : vdev :=
  (plain_vdev m) <| m_vqs := [(driven 2 0x1028 0x1054 0x1068) <| avail_tail_idx := 2 |>; calloc_vq] |>.

Lemma taken_vdev_ok m : vdev_ok (taken_vdev m).
Proof.
  destruct (plain_vdev_ok m) as [H1 H2 H3 H4 H5 H6 H7]. unfold taken_vdev. revert H1 H2 H3 H4 H5 H6 H7.
  assert (m_guest_start_paddr (m_mem (plain_vdev m)) = 0x1000 /\ m_guest_end_paddr (m_mem (plain_vdev m)) = 0x1400 /\
    m_num_queues (plain_vdev m) = 2) as (E1 & E2 & E3) by done.
  revert E1 E2 E3. generalize (plain_vdev m). intros d E1 E2 E3 H1 H2 H3 H4 H5 H6 H7. constructor; try done.
  repeat constructor; try done; simpl; unfold in_width, in_memory, sizeof_VirtqDesc, sizeof_VirtqAvail, sizeof_VirtqUsed, sizeof_VirtqUsedElem;
    rewrite ?E1, ?E2; try lia.
Qed.

Lemma returned_buffer_corrupts_heap_witness :
  wp (setup_virtq silent_env 10 0x9b000000 2 16 0) (fun _ w =>
    let h := k_heap (w_st w) in
    wp (put_buf 0 (Vbuf 0x1088 16 0 0 16 0x1088)) (fun r w' => exists l, m_mem (w_st w') = guest_stores (m_mem (taken_vdev (kram h))) l /\
      b_free (ram_stores (kram h) l) 0x107c = 16 /\
      exists h', malloc 10 (h <| kram := ram_stores (kram h) l |>) 0 = Some (0x1088, h'))
      (World (taken_vdev (kram h)) [] [])) (World sample_kernel [] []).
Proof.
  eapply wp_mono; [apply (setup_virtq_ok 0x1000 0x1400 2 16 ltac:(constructor; by vm_compute) silent_env 10 [] (k_ram sample_kernel));
    [simpl; lia|apply sample_kernel_bump|done|done|done]|].
  intros vq w (_ & Hh & Hm & _). cbv zeta.
  eapply wp_mono; [apply (returned_buffer_corrupts_heap 0x1000 0x1400 2 16 [] (k_ram sample_kernel) (k_heap (w_st w)) 0
    (taken_vdev (kram (k_heap (w_st w)))) 2 (Vbuf 0x1088 16 0 0 16 0x1088) [] [] 10)|].
  - constructor; by vm_compute.
  - exact Hm.
  - exact Hh.
  - exact (shares_snapshot (new_memory_manager 0x1000 0x400 []) _ eq_refl).
  - done.
  - done.
  - constructor; [apply taken_vdev_ok|done|done|done].
  - done.
  - done.
  - done.
  - simpl. lia.
  - intros r w' [_ (l & H1 & _ & H2 & H3)]. exists l. split; [exact H1|]. split; [exact H2|]. apply H3. done.
Defined.

(** ** More buffers *)

(** The structures of a queue in memory, apart from each other. *)
Record queue_shape (m : ram) (vq desc avail nb : Z) : Prop := {
  qs_num : rd32 m (vq_num_at vq) = nb;
  qs_desc : rd32 m (vq_desc_at vq) = desc;
  qs_avail : rd32 m (vq_avail_at vq) = avail;
  qs_pos : 0 < nb < MAX_VQ_SIZE;
  qs_ram : in_ram vq 16 /\ in_ram desc (16 * nb) /\ in_ram avail (4 + 2 * nb);
  qs_apart : apart vq 16 desc (16 * nb) /\ apart vq 16 avail (4 + 2 * nb) /\ apart desc (16 * nb) avail (4 + 2 * nb);
}.

Definition added (m : ram) (desc avail i buf len : Z) : ram :=
  let m := wr64 m (desc_addr desc i) (i32 buf) in
  let m := wr32 m (desc_len desc i) len in
  let m := wr16 m (avail_ring avail i) i in
  wr16 m (avail_idx avail) (rd16 m (avail_idx avail) + 1).

Section Added.
Context (m : ram) (vq desc avail nb : Z) (Hs : queue_shape m vq desc avail nb).
Context (buf len : Z) (Hbuf : 0 <= buf < 2 ^ 31) (Hlen : in_width 32 len).
Let i := rd16 m (avail_idx avail) mod nb.

Lemma rd16_range (a : Z) : in_width 16 (rd16 m a).
Proof. unfold rd16. pose proof (le_val_range (rd_bytes m a 2)) as H. by rewrite length_rd_bytes in H. Qed.

Lemma added_i : 0 <= i < nb.
Proof. apply Z.mod_pos_bound. destruct Hs; lia. Qed.

Ltac s_unfold := destruct Hs as [_ _ _ Hsp (R1 & R2 & R3) (P1 & P2 & P3)]; pose proof added_i as Hsi; unfold apart, in_ram, MAX_VQ_SIZE,
  desc_addr, desc_len, avail_ring, avail_idx, sizeof_virtq_desc, vq_num_at, vq_desc_at, vq_avail_at in *.

(** The structure of the queue behind stores into its tables. *)
Lemma vq_word_st (m' : ram) a bs o : in_ram a (length bs) -> apart vq 16 a (length bs) -> 0 <= o -> o + 4 <= 16 ->
  rd32 (wr_bytes m' a bs) (vq + o) = rd32 m' (vq + o).
Proof.
  intros Ha Hap Ho1 Ho2. unfold rd32. f_equal. destruct Hs as [_ _ _ _ (R1 & _ & _) _]. apply rd_bytes_other; [done|..];
    unfold apart, in_ram in *; lia.
Qed.

Lemma wp_add_buf (env : kenv) device q (Q : Z -> kworld -> Prop) (w : kworld) : k_ram (w_st w) = m ->
  (forall w', k_ram (w_st w') = foldl (fun m x => wr_bytes m x.1 x.2) (added m desc avail i buf len)
      (env (w_trace w) (Reg (device + 4 * (REG_QUEUE_NOTIFY / 4)) (u32 q) : call k_iface)) ->
    w_trace w' = w_trace w ++ [Reg (device + 4 * (REG_QUEUE_NOTIFY / 4)) (u32 q) : call k_iface] -> Q 0 w') ->
  wp (add_buf env device q vq buf len) Q w.
Proof.
  intros Hm HQ. pose proof Hs as [En Ed Ea Hp _ _]. unfold add_buf. apply wp_bind. eapply wp_ld32; [rewrite Hm; exact Ea|].
  apply wp_bind. eapply wp_ld16; [by rewrite Hm|]. apply wp_bind. eapply wp_ld32; [rewrite Hm; exact En|].
  rewrite (proj2 (Z.eqb_neq nb 0)) by lia. fold i.
  apply wp_bind. eapply wp_ld32; [rewrite Hm; exact Ed|]. unfold st64, st32, st16, st, wr64, wr32, wr16. k_go.
  eapply wp_ld32; [ram_go; rewrite Hm; etransitivity; [apply vq_word_st; rewrite ?length_le_bytes; s_unfold; nia|exact Ed]|]. k_go.
  eapply wp_ld32; [ram_go; rewrite Hm; etransitivity; [change (vq_avail_at vq) with (vq + 8); do 2 (rewrite vq_word_st by (rewrite ?length_le_bytes; s_unfold; nia)); reflexivity|exact Ea]|]. k_go.
  eapply wp_ld32; [ram_go; rewrite Hm; etransitivity; [change (vq_avail_at vq) with (vq + 8); do 3 (rewrite vq_word_st by (rewrite ?length_le_bytes; s_unfold; nia)); reflexivity|exact Ea]|].
  unfold idx_inc, ld16, st16, ld, st, reg. k_go. apply wp_dma. k_go. apply HQ; [|done].
  ram_go. simpl. unfold set_field. rewrite <-Hm. done.
Qed.

(** What the device finds there. *)
Lemma added_ring g : shares g (added m desc avail i buf len) ->
  in_memory g desc (16 * nb) -> in_memory g avail (4 + 2 * nb) ->
  guest16 g (avail + 2) = u16 (rd16 m (avail_idx avail) + 1) /\ guest16 g (avail + 4 + 2 * i) = i /\
  d_addr (load_desc (guest_bytes g (desc + 16 * i) 16)) = buf /\ d_len (load_desc (guest_bytes g (desc + 16 * i) 16)) = len.
Proof.
  intros Hg Id Ia. split; [|split].
  - apply (shares16 g (added m desc avail i buf len)); [done|s_unfold; unfold in_memory in *; nia|apply wrap_range; lia|].
    unfold added. unfold wr16 at 1. change (avail + 2) with (avail_idx avail). rewrite rd_le by (s_unfold; nia).
    change (u16 ?x) with (wrap (8 * 2%nat) x). rewrite le_bytes_wrap. f_equal. f_equal. unfold rd16, wr16, wr32, wr64. f_equal.
    rewrite !rd_bytes_other; [done|..]; rewrite ?length_le_bytes; s_unfold; nia.
  - apply (shares16 g (added m desc avail i buf len)); [done|s_unfold; unfold in_memory in *; nia|s_unfold; unfold in_width; lia|].
    unfold added, wr16. rewrite rd_bytes_other by (rewrite ?length_le_bytes; s_unfold; nia). apply rd_le. s_unfold; nia.
  - assert (exists r, guest_bytes g (desc + 16 * i) 16%nat = le_bytes 8 buf ++ le_bytes 4 len ++ r) as (r & E).
    { rewrite Hg by (s_unfold; unfold in_memory in *; nia). change 16%nat with (8 + (4 + 4))%nat.
      rewrite (rd_bytes_app _ _ 8), (rd_bytes_app _ _ 4). change (Z.of_nat 8) with 8. change (Z.of_nat 4) with 4. eexists. f_equal; [|f_equal].
      - unfold added, wr64, wr32, wr16. s_unfold. rewrite !rd_bytes_other by (rewrite ?length_le_bytes; unfold in_ram; nia).
        rewrite rd_le by (unfold in_ram; nia). f_equal. apply swrap_small; lia.
      - unfold added, wr64, wr32, wr16. s_unfold. rewrite 2!rd_bytes_other by (rewrite ?length_le_bytes; unfold in_ram; nia).
        apply rd_le. unfold in_ram. nia. }
    change (Z.of_nat 16) with 16 in E. rewrite E. unfold load_desc, field, load. cbn [d_addr d_len].
    rewrite (drop_0 (_ ++ _)), take_app_length' by (by rewrite length_le_bytes). rewrite drop_app_length' by (by rewrite length_le_bytes).
    rewrite take_app_length' by (by rewrite length_le_bytes). rewrite !le_val_bytes, !wrap_small; unfold in_width in *; lia.
Qed.
End Added.

(** The device that has taken every buffer of the queue before. *)
Record caught_up (m : ram) (desc avail nb q : Z) (d : vdev) : Prop := {
  cu_ok : vdev_ok d;
  cu_q : 0 <= q < m_num_queues d;
  cu_ready : ready (vq_at d q) = true;
  cu_num : num_bufs (vq_at d q) = nb;
  cu_desc : desc_table_gaddr (vq_at d q) = desc;
  cu_avail : avail_gaddr (vq_at d q) = avail;
  cu_tail : avail_tail_idx (vq_at d q) = rd16 m (avail_idx avail);
  cu_in : in_memory (m_mem d) desc (16 * nb) /\ in_memory (m_mem d) avail (4 + 2 * nb);
}.

(** C33: A buffer that the driver adds is the buffer that the device takes next:
    [add_buf] runs to its end, with one store to a register of the device, the
    notification. A device that has taken every earlier buffer, and sees the
    guest's memory when it is notified, takes from the queue the buffer with its
    address and its length, and after it finds the queue empty again. *)
Theorem guest_buffer_offered (env : kenv) device q vq desc avail nb buf len (w : kworld) :
  queue_shape (k_ram (w_st w)) vq desc avail nb -> 0 <= buf < 2 ^ 31 -> in_width 32 len ->
  wp (add_buf env device q vq buf len) (fun r w' => exists m, r = 0 /\
    w_trace w' = w_trace w ++ [Reg (device + 4 * (REG_QUEUE_NOTIFY / 4)) (u32 q) : call k_iface] /\
    k_ram (w_st w') = foldl (fun m x => wr_bytes m x.1 x.2) m
      (env (w_trace w) (Reg (device + 4 * (REG_QUEUE_NOTIFY / 4)) (u32 q) : call k_iface)) /\
    forall denv n d tr held, caught_up (k_ram (w_st w)) desc avail nb n d ->
      shares (m_mem d) m -> in_memory (m_mem d) buf len ->
      wp (get_buf denv n) (fun o wd => exists b, o = Some b /\
        buf_key b = (rd16 (k_ram (w_st w)) (avail_idx avail) mod nb, buf, len) /\
        wp (get_buf denv n) (fun o' wd' => o' = None /\ w_st wd' = w_st wd) wd) (World d tr held)) w.
Proof.
  intros Hs Hbuf Hlen. eapply (wp_add_buf (k_ram (w_st w))); [done|done|]. intros w' Hr Ht.
  eexists. split; [done|]. split; [done|]. split; [exact Hr|]. intros denv n d tr held [C1 C2 C3 C4 C5 C6 C7 [C8 C9]] Hsh Hin.
  destruct (added_ring _ _ _ _ _ Hs _ _ Hbuf Hlen _ Hsh C8 C9) as (A1 & A2 & A3 & A4).
  pose proof (rd16_range (k_ram (w_st w)) (avail_idx avail)) as Hrange. set (t := rd16 (k_ram (w_st w)) (avail_idx avail)) in *.
  pose proof (qs_pos _ _ _ _ _ Hs) as Hnb. pose proof (Z.mod_pos_bound t nb ltac:(lia)) as Hmod.
  assert (next_id d n = t mod nb) as En by (unfold next_id; by rewrite C6, C7, C4).
  assert (u16 (t + 1) <> t) as Hne.
  { unfold in_width in Hrange. intros E. destruct (decide (t = 2 ^ 16 - 1)) as [->|]; [by vm_compute in E|].
    rewrite wrap_small in E by (unfold in_width; lia). lia. }
  assert (next_desc d n = load_desc (guest_bytes (m_mem d) (desc + 16 * (t mod nb)) 16)) as Ed
    by (unfold next_desc; by rewrite En, C5).
  assert (offered d n) as Hof.
  { unfold offered. cbv zeta. rewrite Ed, En, A3, A4, C3, C4, C5, C6, C7. unfold offsetof_head_idx, sizeof_VirtqDesc.
    rewrite A1. split_and!; try done; [lia|lia|]. unfold in_memory in *. lia. }
  apply get_buf_exec; [done|lia|done|]. intros _ junk dsc. cbn [w_st] in dsc. subst dsc. eexists. split; [done|]. split.
  - unfold buf_key. cbn [vb_id vb_guest_addr vb_len w_st]. by rewrite Ed, En, A3, A4.
  - apply get_buf_exec; [by apply vdev_ok_consumed|lia|done|]. intros (_ & _ & H & _). exfalso. apply H. cbn [w_st w_trace].
    simpl. unfold set_field. simpl. unfold consumed. rewrite vq_at_upd by (done || lia). rewrite decide_True by done. simpl. unfold set_field. simpl.
    rewrite C6, C7. exact A1.
Qed.

(** A queue of two buffers at 0x1000, empty, and a device that has it. *)
Definition empty_queue : kernel :=
  let m : ram := wr32 (wr32 (wr32 (fun _ => 0) 0x1000 2) 0x1004 0x1020) 0x1008 0x1040 in
  put_ram (fun _ => m) sample_kernel.
Definition empty_vdev (m : ram) : vdev :=
  (plain_vdev m) <| m_vqs := [driven 2 0x1020 0x1040 0x1060; calloc_vq] |>.

Lemma empty_vdev_ok m : vdev_ok (empty_vdev m).
Proof.
  destruct (plain_vdev_ok m) as [H1 H2 H3 H4 H5 H6 H7]. unfold empty_vdev. revert H1 H2 H3 H4 H5 H6 H7.
  assert (m_guest_start_paddr (m_mem (plain_vdev m)) = 0x1000 /\ m_guest_end_paddr (m_mem (plain_vdev m)) = 0x1400 /\
    m_num_queues (plain_vdev m) = 2) as (E1 & E2 & E3) by done.
  revert E1 E2 E3. generalize (plain_vdev m). intros d E1 E2 E3 H1 H2 H3 H4 H5 H6 H7. constructor; try done.
  repeat constructor; try done; simpl; unfold in_width, in_memory, sizeof_VirtqDesc, sizeof_VirtqAvail, sizeof_VirtqUsed, sizeof_VirtqUsedElem;
    rewrite ?E1, ?E2; try lia.
Qed.

Lemma guest_buffer_offered_witness :
  wp (add_buf silent_env 0x9b000000 1 0x1000 0x1080 32) (fun r w' => r = 0 /\ exists d : vdev,
    wp (get_buf share_env 0) (fun o _ => buf_key <$> o = Some (0, 0x1080, 32)) (World d [] [])) (World empty_queue [] []).
Proof.
  eapply wp_mono; [apply (guest_buffer_offered silent_env 0x9b000000 1 0x1000 0x1020 0x1040 2 0x1080 32 (World empty_queue [] []))|].
  - constructor; try (by vm_compute); unfold in_ram, apart, MAX_VQ_SIZE; lia.
  - lia.
  - unfold in_width. lia.
  - intros r w' (m & -> & _ & _ & H). split; [done|]. exists (empty_vdev m).
    eapply wp_mono; [eapply (H share_env 0)|].
    + constructor; try done. apply empty_vdev_ok.
    + exact (shares_snapshot (new_memory_manager 0x1000 0x400 []) m eq_refl).
    + by split; vm_compute.
    + intros o wd (b & -> & E & _). simpl. by rewrite E.
Defined.
