(* ===== verification/KShellProps.v ===== *)
(** * KShellProps: the command loop of the guest kernel *)

From S2P Require Import Prelude Effects KMem KMalloc Libc P9Wire KP9 KP9Enc KSys KDriver KDriverExec KDriverProps KShell.

Implicit Types (m : ram) (w : kworld) (cs : bytes).

(** ** The string functions *)

Lemma cstr_cons m s c str : cstr_at m s (c :: str) -> rd8 m s = c /\ c <> 0 /\ cstr_at m (s + 1) str.
Proof.
  intros [Hr Hb Hc]. simpl length in *.
  apply not_elem_of_cons in Hc as [Hc0 Hc]. change (S (length str) + 1)%nat with (1 + (length str + 1))%nat in Hb.
  rewrite rd_bytes_app in Hb. injection Hb as E1 E2. rewrite Z.add_0_r in E1. split; [done|]. split; [done|].
  constructor; [unfold in_ram in *; lia|exact E2|done].
Qed.
Lemma cstr_nil m s : cstr_at m s [] -> rd8 m s = 0.
Proof. intros [_ Hb _]. injection Hb as E. by rewrite Z.add_0_r in E. Qed.

Lemma rd8_range m a : in_width 8 (rd8 m a).
Proof. apply wrap_range. lia. Qed.

Lemma i8_inj a b : in_width 8 a -> in_width 8 b -> (i8 (i8 a - i8 b) =? 0) = (a =? b).
Proof.
  unfold in_width, swrap, wrap. change (2 ^ 8) with 256. change (2 ^ (8 - 1)) with 128. intros Ha Hb.
  destruct (Z.eqb_spec a b) as [->|Hne]; [by rewrite Z.sub_diag|]. apply Z.eqb_neq.
  pose proof (Z.div_mod (a + 128) 256 ltac:(lia)). pose proof (Z.div_mod (b + 128) 256 ltac:(lia)).
  set (x := (a + 128) mod 256) in *. set (y := (b + 128) mod 256) in *.
  assert (0 <= x < 256 /\ 0 <= y < 256) as [Hx Hy] by (split; apply Z.mod_pos_bound; lia).
  pose proof (Z.div_mod (x - 128 - (y - 128) + 128) 256 ltac:(lia)).
  pose proof (Z.mod_pos_bound (x - 128 - (y - 128) + 128) 256 ltac:(lia)). nia.
Qed.

Lemma strcmp_ok m : forall a b s1 s2 fuel, cstr_at m s1 a -> cstr_at m s2 b -> (length b < fuel)%nat ->
  exists r, strcmp fuel m s1 s2 = Some r /\ (r = 0 <-> a = b).
Proof.
  induction a as [|x a IH]; intros [|y b] s1 s2 fuel H1 H2 Hf; (destruct fuel as [|fuel]; [simpl in Hf; lia|]); simpl; unfold rd_char.
  - rewrite (cstr_nil _ _ H1), (cstr_nil _ _ H2). by exists 0.
  - apply cstr_cons in H2 as (E2 & N2 & _). rewrite (cstr_nil _ _ H1). simpl. eexists. split; [done|]. rewrite E2.
    pose proof (rd8_range m s2) as Hr. rewrite E2 in Hr. pose proof (i8_zero y Hr) as Hz. rewrite (proj2 (Z.eqb_neq y 0) N2) in Hz.
    apply Z.eqb_neq in Hz. split; [change (i8 0) with 0; lia|done].
  - apply cstr_cons in H1 as (E1 & N1 & _). rewrite (cstr_nil _ _ H2). simpl. rewrite andb_false_r. eexists. split; [done|]. rewrite E1.
    pose proof (rd8_range m s1) as Hr. rewrite E1 in Hr. pose proof (i8_zero x Hr) as Hz. rewrite (proj2 (Z.eqb_neq x 0) N1) in Hz.
    apply Z.eqb_neq in Hz. split; [change (i8 0) with 0; lia|done].
  - pose proof (rd8_range m s1) as Hr1. pose proof (rd8_range m s2) as Hr2.
    apply cstr_cons in H1 as (E1 & N1 & H1), H2 as (E2 & N2 & H2). rewrite E1, E2 in *. rewrite !i8_zero by done.
    rewrite (proj2 (Z.eqb_neq x 0) N1), (proj2 (Z.eqb_neq y 0) N2), i8_inj by done. simpl.
    destruct (Z.eqb_spec x y) as [->|Hne]; simpl.
    + destruct (IH b (s1 + 1) (s2 + 1) fuel H1 H2 ltac:(simpl in Hf; lia)) as (r & -> & Hr). exists r. split; [done|]. rewrite Hr.
      split; [by intros ->|by intros [=]].
    + eexists. split; [done|]. pose proof (i8_inj x y Hr1 Hr2) as Hi. rewrite (proj2 (Z.eqb_neq x y) Hne) in Hi. apply Z.eqb_neq in Hi.
      split; [done|by intros [=]].
Qed.

(** The length given to [strncmp] is the length of its second argument. *)
Lemma strncmp_ok m : forall b a s1 s2 fuel, cstr_at m s1 a -> cstr_at m s2 b -> (length b < fuel)%nat -> length b < 2 ^ 31 ->
  exists r, kstrncmp fuel m s1 s2 (length b) = Some r /\ (r = 0 <-> b `prefix_of` a).
Proof.
  induction b as [|y b IH]; intros [|x a] s1 s2 fuel H1 H2 Hf Hl; (destruct fuel as [|fuel]; [simpl in Hf; lia|]); cbn [kstrncmp]; unfold rd_char.
  - rewrite (cstr_nil _ _ H1). simpl. exists (i32 0). split; [done|]. split; [|done]. intros _. apply prefix_nil.
  - rewrite (cstr_nil _ _ H2), andb_false_r. exists (i32 0). split; [done|]. split; [|done]. intros _. apply prefix_nil.
  - rewrite (cstr_nil _ _ H1). simpl. eexists. split; [done|]. simpl in Hl.
    rewrite swrap_small by lia. split; [lia|]. intros H. by apply prefix_nil_not in H.
  - pose proof (rd8_range m s1) as Hr1. pose proof (rd8_range m s2) as Hr2.
    apply cstr_cons in H1 as (E1 & N1 & H1), H2 as (E2 & N2 & H2). rewrite E1, E2 in *. rewrite !i8_zero by done.
    rewrite (proj2 (Z.eqb_neq x 0) N1), (proj2 (Z.eqb_neq y 0) N2), i8_inj by done. cbn [negb andb length].
    rewrite (proj2 (Z.eqb_neq (S (length b)) 0)) by lia. replace (S (length b) - 1) with (Z.of_nat (length b)) by lia.
    destruct (Z.eqb_spec x y) as [->|Hne]; cbn [negb].
    + destruct (IH a (s1 + 1) (s2 + 1) fuel H1 H2 ltac:(simpl in Hf; lia) ltac:(simpl in Hl; lia)) as (r & -> & Hr). exists r. split; [done|]. rewrite Hr.
      split; [apply prefix_cons|apply prefix_cons_inv_2].
    + eexists. split; [done|]. pose proof (i8_inj x y Hr1 Hr2) as Hi. rewrite (proj2 (Z.eqb_neq x y) Hne) in Hi. apply Z.eqb_neq in Hi.
      split; [done|]. intros H. apply prefix_cons_inv_1 in H. congruence.
Qed.

(** ** The console *)

Definition console := 0x3F8.
Definition outs (cs : bytes) : list (call k_iface) := (fun c => Outb c console) <$> cs.
(** Characters that were typed and echoed. *)
Definition typed (cs : bytes) : list (call k_iface) := cs ≫= (fun c => [Inb console; Outb c console]).

Lemma run_bind {A B} (p : kprog A) (k : A -> kprog B) w a w' : p w = Ret a w' -> (p ≫= k) w = k a w'.
Proof. unfold mbind, prog_bind. by intros ->. Qed.

Lemma run_wp {A} (p : kprog A) w a w' : wp p (fun r u => r = a /\ u = w') w -> p w = Ret a w'.
Proof. unfold wp. destruct (p w) as [r u|]; [by intros [-> ->]|done]. Qed.

Lemma u8_i8 c : in_width 8 c -> u8 (i8 c) = c.
Proof.
  intros Hc. unfold in_width, swrap, wrap in *. change (2 ^ 8) with 256 in *. change (2 ^ (8 - 1)) with 128.
  rewrite Zminus_mod_idemp_l. rewrite Z.add_simpl_r. by apply Z.mod_small.
Qed.

Lemma i8_land c : in_width 8 c -> i8 (Z.land (i8 c) 0xff) = i8 c.
Proof.
  intros Hc. change 0xff with (Z.ones 8). rewrite Z.land_ones by lia. change (i8 c mod 2 ^ 8) with (u8 (i8 c)). by rewrite u8_i8.
Qed.

Lemma i8_eqb c v : in_width 8 c -> 0 <= v < 128 -> (i8 c =? v) = (c =? v).
Proof.
  intros Hc Hv. destruct (Z.eqb_spec c v) as [->|Hne]; [rewrite swrap_small by lia; apply Z.eqb_refl|].
  apply Z.eqb_neq. intros E. apply Hne. rewrite <-(u8_i8 c Hc), E. apply wrap_small. unfold in_width. lia.
Qed.

(** A line: characters other than the end of a line and the end of a string. *)
Definition typable (c : Z) : Prop := in_width 8 c /\ c <> 0 /\ c <> 10 /\ c <> 13.
(** The console answers with the characters of the line, then with the end of the line. *)
Definition types (env : kenv) (t : list (call k_iface)) (cs : bytes) (cr : Z) : Prop :=
  (forall i c, cs !! i = Some c -> env (t ++ typed (take i cs)) (Inb console : call k_iface) = c) /\
  (length cs < 128 -> (cr = 13 \/ cr = 10) /\ env (t ++ typed cs) (Inb console : call k_iface) = cr).

Lemma typed_app a b : typed (a ++ b) = typed a ++ typed b.
Proof. apply bind_app. Qed.

Section Line.
Context (env : kenv) (fuel : nat) (k0 : kernel) (t0 : list (call k_iface)) (held : list (mutex k_iface)).

(** The world after the calls [t], with the memory [m]. *)
Definition after (t : list (call k_iface)) (m : ram) : kworld := World (put_ram (fun _ => m) k0) (t0 ++ t) held.

Lemma run_ksys c t m (r := env (t0 ++ t) (c : call k_iface)) : ksys env c (after t m) = Ret r (after (t ++ [c : call k_iface]) m).
Proof. unfold after. rewrite app_assoc. done. Qed.

Lemma run_kprintc c t m : in_width 8 c -> kprintc env (i8 c) (after t m) = Ret tt (after (t ++ outs [c]) m).
Proof. intros Hc. unfold kprintc, outb. rewrite u8_i8 by done. change (u16 0x3F8) with console. rewrite run_ksys. by destruct (env _ _). Qed.

Lemma run_ld {A} (f : ram -> A) t m : ld f (after t m) = Ret (f m) (after t m).
Proof. done. Qed.
Lemma run_st f t m : st f (after t m) = Ret tt (after t (f m)).
Proof. done. Qed.

Lemma run_kprints m str : forall s t f, cstr_at m s str -> (length str < f)%nat ->
  kprints env f s (after t m) = Ret tt (after (t ++ outs str) m).
Proof.
  induction str as [|c str IH]; intros s t f Hs Hf; (destruct f as [|f]; [simpl in Hf; lia|]); unfold kprints; cbn [loop].
  - erewrite run_bind; [|erewrite run_bind by apply run_ld; unfold rd_char; rewrite (cstr_nil _ _ Hs); reflexivity].
    by rewrite app_nil_r.
  - pose proof (rd8_range m s) as Hr. apply cstr_cons in Hs as (E & N & Hs). rewrite E in Hr.
    erewrite run_bind.
    2:{ erewrite run_bind by apply run_ld. unfold rd_char. rewrite E, i8_zero by done.
        rewrite (proj2 (Z.eqb_neq c 0) N). cbn [negb]. erewrite run_bind by (by apply run_kprintc). reflexivity. }
    specialize (IH (s + 1) (t ++ outs [c]) f Hs ltac:(simpl in Hf; lia)). unfold kprints in IH. cbv beta iota. etransitivity; [exact IH|]. by rewrite <-app_assoc.
Qed.

(** ** Reading a line *)

Context (cmd : Z) (Hcmd : in_ram cmd 128).

Lemma run_getc c t m : in_width 8 c -> env (t0 ++ t) (Inb console : call k_iface) = c ->
  getc env (after t m) = Ret (i8 c) (after (t ++ [Inb console : call k_iface]) m).
Proof.
  intros Hc He. unfold getc, inb. erewrite run_bind.
  2:{ erewrite run_bind by exact (run_ksys (Inb console) t m). rewrite He. reflexivity. }
  rewrite (wrap_small 8) by done. rewrite i8_land by done. done.
Qed.

(** The buffer after a part of the line. *)
Record line_in (m0 m : ram) (cs : bytes) : Prop := {
  li_bytes : rd_bytes m cmd 128 = cs ++ replicate (128 - length cs) 0;
  li_frame : forall x, in_ram x 1 -> apart cmd 128 x 1 -> m x = m0 x;
}.

Lemma line_in_step m0 m cs c : line_in m0 m cs -> in_width 8 c -> (length cs < 128)%nat ->
  line_in m0 (wr8 m (cmd + length cs) (i8 c)) (cs ++ [c]).
Proof.
  intros [Hb Hf] Hc Hl. constructor.
  - assert (Z.of_nat (length (cs ++ [c])) <= 128) by (rewrite length_app; simpl; lia).
    replace (128%nat) with (length cs + (1 + (128 - length cs - 1)))%nat in Hb |- * by lia.
    rewrite !rd_bytes_app in *. apply app_inj_1 in Hb as [Hb1 Hb2]; [|apply length_rd_bytes].
    replace (length cs + (1 + (128 - length cs - 1)) - length cs)%nat with (1 + (128 - length cs - 1))%nat in Hb2 by lia.
    rewrite (replicate_add 1) in Hb2. apply app_inj_1 in Hb2 as [_ Hb2]; [|apply length_rd_bytes].
    rewrite <-app_assoc. unfold wr8. f_equal; [|f_equal].
    + rewrite rd_bytes_other by (simpl; unfold in_ram in *; lia). done.
    + unfold rd_bytes. simpl. rewrite Z.add_0_r, (wrap_small 32) by (unfold in_width, in_ram in *; lia). f_equal.
      rewrite wr_bytes_in by (unfold in_ram in *; simpl; lia). rewrite decide_True by (simpl; lia). rewrite Z.sub_diag. simpl.
      rewrite wrap_wrap by lia. by apply u8_i8.
    + rewrite rd_bytes_other by (simpl; unfold in_ram in *; lia). rewrite Hb2. f_equal. rewrite length_app. simpl. lia.
  - intros x Hx Ha. unfold wr8. rewrite wr_bytes_out; [by apply Hf|unfold in_ram in *; simpl; lia|done|]. unfold apart in Ha. simpl. lia.
Qed.

(** The end of a line, echoed. *)
Definition line_end (cs : bytes) : list (call k_iface) :=
  if (length cs <? 128)%nat then [Inb console; Outb 13 console; Outb 10 console] else [].

Lemma typable_not_end c : typable c -> (i8 c =? 13) || (i8 c =? 10) = false.
Proof.
  intros (Hc & _ & H1 & H2). rewrite !i8_eqb by (done || lia). by rewrite (proj2 (Z.eqb_neq c 13) H2), (proj2 (Z.eqb_neq c 10) H1).
Qed.

Lemma run_read_line p m0 m cs cr : types env (t0 ++ p) cs cr -> Forall typable cs -> (length cs <= 128)%nat -> line_in m0 m [] ->
  (128 < fuel)%nat -> exists m', line_in m0 m' cs /\
  read_line env fuel cmd (after p m) = Ret (Z.of_nat (length cs)) (after (p ++ typed cs ++ line_end cs) m').
Proof.
  intros [Hty Hcr] Hok Hl Hm Hfuel. unfold read_line.
  assert (forall rest pre f m, cs = pre ++ rest -> (length rest < f)%nat -> line_in m0 m pre -> exists m', line_in m0 m' cs /\
    loop f (fun i => if i <? 128 then c ← getc env;
        if (c =? 13) || (c =? 10) then kprintc env 13;; kprintc env 10;; mret (inr i)
        else kprintc env c;; st8 (cmd + i) c;; mret (inl (i + 1)) else mret (inr i)) (Z.of_nat (length pre)) (after (p ++ typed pre) m)
    = Ret (Z.of_nat (length cs)) (after (p ++ typed cs ++ line_end cs) m')) as Hgo.
  { induction rest as [|c rest IH]; intros pre f m1 Hcs Hf Hm1; (destruct f as [|f]; [simpl in Hf; lia|]); cbn [loop].
    - rewrite app_nil_r in Hcs. subst pre. exists m1. split; [done|]. unfold line_end. destruct (Nat.ltb_spec (length cs) 128).
      + rewrite (proj2 (Z.ltb_lt _ _)) by lia. destruct (Hcr ltac:(lia)) as [Hend He].
        assert (in_width 8 cr) by (unfold in_width; lia).
        erewrite run_bind.
        2:{ erewrite run_bind by (apply (run_getc cr); [done|by rewrite <-app_assoc in He]).
            replace ((i8 cr =? 13) || (i8 cr =? 10)) with true
              by (rewrite !i8_eqb by (done || lia); by destruct Hend as [-> | ->]).
            erewrite run_bind by (apply (run_kprintc 13); unfold in_width; lia).
            erewrite run_bind by (apply (run_kprintc 10); unfold in_width; lia). reflexivity. }
        cbv beta iota. by rewrite <-!app_assoc.
      + rewrite (proj2 (Z.ltb_ge _ _)) by lia. by rewrite app_nil_r.
    - assert (length pre < 128)%nat as Hp by (rewrite Hcs, length_app in Hl; simpl in Hl; lia).
      assert (typable c) as Hc by (rewrite Hcs, Forall_app, Forall_cons in Hok; tauto).
      assert (env ((t0 ++ p) ++ typed pre) (Inb console : call k_iface) = c) as He.
      { rewrite <-(Hty (length pre) c) by (rewrite Hcs; by apply list_lookup_middle). by rewrite Hcs, take_app_length. }
      rewrite (proj2 (Z.ltb_lt _ _)) by lia. destruct (IH (pre ++ [c]) f (wr8 m1 (cmd + length pre) (i8 c))) as (m' & Hm' & E).
      { by rewrite <-app_assoc. } { simpl in Hf. lia. } { apply line_in_step; [done|apply Hc|done]. }
      exists m'. split; [done|]. erewrite run_bind.
      2:{ erewrite run_bind by (apply (run_getc c); [apply Hc|by rewrite <-app_assoc in He]).
          rewrite (typable_not_end c Hc). erewrite run_bind by (apply run_kprintc, Hc).
          erewrite run_bind by apply run_st. reflexivity. }
      cbv beta iota. rewrite <-E, length_app, typed_app. simpl. rewrite <-!app_assoc. f_equal. lia. }
  destruct (Hgo cs [] fuel m eq_refl ltac:(lia) Hm) as (m' & Hm' & E). exists m'. split; [done|]. by rewrite app_nil_r in E.
Qed.

Lemma line_in_memset m : line_in m (memset m cmd 0 128) [].
Proof.
  assert (forall n : nat, (n <= 128)%nat -> forall x, in_ram x 1 ->
    memset m cmd 0 n x = if decide (cmd <= x < cmd + n) then 0 else m x) as H.
  { unfold memset. induction n as [|n IH]; intros Hn x Hx; [simpl; by rewrite decide_False by lia|].
    rewrite seq_S, foldl_app. cbn [foldl]. unfold wr8. rewrite wr_bytes_in by (unfold in_ram in *; simpl; lia).
    rewrite IH by (done || lia). cbn [length].
    repeat case_decide; try lia; try done. replace (Z.to_nat (x - (cmd + (0 + n)%nat))) with 0%nat by lia. done. }
  constructor.
  - change ([] ++ replicate (128 - length []) 0) with (replicate 128 0). apply rd_zero; [done|]. intros x Hx.
    rewrite H by (unfold in_ram in *; lia). by rewrite decide_True by lia.
  - intros x Hx Ha. rewrite H by (done || lia). unfold apart in Ha. by rewrite decide_False by lia.
Qed.

Lemma line_in_cstr m0 m cs : line_in m0 m cs -> Forall typable cs -> (length cs < 128)%nat -> cstr_at m cmd cs.
Proof.
  intros [Hb _] Hok Hl. constructor; [unfold in_ram in *; lia| |].
  - replace 128%nat with ((length cs + 1) + (127 - length cs))%nat in Hb by lia. rewrite rd_bytes_app in Hb.
    replace (length cs + 1 + (127 - length cs) - length cs)%nat with (1 + (127 - length cs))%nat in Hb by lia.
    rewrite replicate_add, app_assoc in Hb. apply app_inj_1 in Hb as [Hb _]; [done|]. rewrite length_rd_bytes, length_app. done.
  - intros H. rewrite Forall_forall in Hok. by apply Hok in H as (_ & H & _).
Qed.
End Line.

(** ** The command of a line *)

(** What a test says about a line. *)
Definition accepts (t : test) (cs : bytes) : Prop :=
  match t with
  | Is s => cs = string_bytes s
  | Starts s _ => string_bytes s `prefix_of` cs
  end.
#[export] Instance accepts_dec t cs : Decision (accepts t cs).
Proof. destruct t; simpl; apply _. Defined.

(** The first command that accepts the line. *)
Fixpoint chosen {A} (l : list (test * A)) (cs : bytes) : option A :=
  match l with
  | [] => None
  | (t, a) :: l => if decide (accepts t cs) then Some a else chosen l cs
  end.

Definition word_of (t : test) : string := match t with Is s | Starts s _ => s end.
(** The lengths that are given to [strncmp]. *)
Definition counted (t : test) : Prop := match t with Is _ => True | Starts s n => n = length (string_bytes s) /\ n < 128 end.
#[export] Instance counted_dec t : Decision (counted t).
Proof. destruct t; simpl; apply _. Defined.

(** A literal of the kernel, outside of the line buffer. *)
Record literal_at (fuel : nat) (lit : string -> Z) (m : ram) (cmd : Z) (s : string) : Prop := {
  lt_str : cstr_at m (lit s) (string_bytes s);
  lt_apart : apart cmd 128 (lit s) (length (string_bytes s) + 1);
  lt_fuel : (length (string_bytes s) < fuel)%nat;
}.

Section Dispatch.
Context (env : kenv) (fuel : nat) (lit : string -> Z) (cmd : Z) (Hcmd : in_ram cmd 128).
Context (k0 : kernel) (t0 : list (call k_iface)) (held : list (mutex k_iface)).
#[local] Abbreviation W := (after k0 t0 held).

Lemma run_kprintl m s t : literal_at fuel lit m cmd s -> kprintl env fuel lit s (W t m) = Ret tt (W (t ++ outs (string_bytes s)) m).
Proof. intros [Hs _ Hf]. by apply run_kprints. Qed.

Lemma literal_line m0 m cs s : literal_at fuel lit m0 cmd s -> line_in cmd m0 m cs -> literal_at fuel lit m cmd s.
Proof.
  intros [[Hr Hb Hc] Ha Hf] [_ Hfr]. constructor; [|done..]. constructor; [done| |done]. rewrite <-Hb.
  apply rd_bytes_ext; [done|]. intros x Hx. apply Hfr; unfold in_ram, apart in *; lia.
Qed.

Lemma run_passes m cs tst t : cstr_at m cmd cs -> literal_at fuel lit m cmd (word_of tst) -> counted tst -> (128 < fuel)%nat ->
  passes fuel lit cmd tst (W t m) = Ret (bool_decide (accepts tst cs)) (W t m).
Proof.
  intros Hc [Hs _ Hf] Hn Hfuel. unfold passes. destruct tst as [s|s n]; simpl in *.
  - destruct (strcmp_ok m cs _ cmd (lit s) fuel Hc Hs Hf) as (r & E & Hr).
    erewrite run_bind; [|unfold kstrcmp; erewrite run_bind by apply run_ld; rewrite E; reflexivity].
    change (Ret (r =? 0) (W t m) = Ret (bool_decide (cs = string_bytes s)) (W t m)). f_equal.
    destruct (Z.eqb_spec r 0); symmetry; [apply bool_decide_eq_true|apply bool_decide_eq_false]; tauto.
  - destruct Hn as [-> Hn]. destruct (strncmp_ok m _ cs cmd (lit s) fuel Hc Hs Hf ltac:(lia)) as (r & E & Hr).
    erewrite run_bind; [|unfold k_strncmp; erewrite run_bind by apply run_ld; rewrite E; reflexivity].
    change (Ret (r =? 0) (W t m) = Ret (bool_decide (string_bytes s `prefix_of` cs)) (W t m)). f_equal.
    destruct (Z.eqb_spec r 0); symmetry; [apply bool_decide_eq_true|apply bool_decide_eq_false]; tauto.
Qed.

Definition not_found : string := ln ": not found".
Definition too_long : string := ln "invalid command size".
Definition prompt : string := "$ ".

Lemma run_dispatch m cs t s (Hc : cstr_at m cmd cs) (Hlen : (length cs < 128)%nat) (Hf : (128 < fuel)%nat)
    (Hnf : literal_at fuel lit m cmd not_found) l :
  Forall (fun x => literal_at fuel lit m cmd (word_of x.1) /\ counted x.1) l ->
  dispatch env fuel lit cmd l s (W t m) =
    match chosen l cs with
    | Some run => run s (W t m)
    | None => Ret s (W (t ++ outs cs ++ outs (string_bytes not_found)) m)
    end.
Proof.
  induction l as [|[tst run] l IH]; intros Hl; cbn [dispatch chosen].
  - erewrite run_bind by (eapply run_kprints; [exact Hc|lia]). erewrite run_bind by (by apply run_kprintl). by rewrite <-app_assoc.
  - apply Forall_cons in Hl as [[H1 H2] Hl]. erewrite run_bind by (by apply run_passes). destruct (decide (accepts tst cs)) as [Ha|Ha].
    + by rewrite bool_decide_eq_true_2.
    + rewrite bool_decide_eq_false_2 by done. by apply IH.
Qed.
End Dispatch.

(** The literals that the command loop itself uses. *)
Definition loop_words (tests : list test) : list string := prompt :: not_found :: too_long :: (word_of <$> tests).

Section Rounds.
Context (env : kenv) (fuel : nat) (lit : string -> Z) (flag stack : Z).

Definition tests (cmd : Z) : list test := fst <$> commands env fuel lit flag stack cmd.

Lemma tests_counted cmd : Forall counted (tests cmd).
Proof. repeat (constructor; [first [exact I|split; [reflexivity|lia]]|]). constructor. Qed.

(** C19: A round of the command loop: the shell prompts, echoes every character
    of the line, and keeps it in its buffer and writes no other memory.  A line
    of 128 characters or more is refused, an empty line does nothing, and any
    other line runs the first command of the chain whose test it passes - it is
    the command's word, or it starts with it - on the state that the line was
    read in; without such a command the line and "not found" are printed. *)
Theorem shell_runs_command cmd s w cs cr :
  in_ram cmd 128 -> (128 < fuel)%nat -> Forall (literal_at fuel lit (k_ram (w_st w)) cmd) (loop_words (tests cmd)) ->
  Forall typable cs -> (length cs <= 128)%nat -> types env (w_trace w ++ outs (string_bytes prompt)) cs cr ->
  exists m, (forall x, in_ram x 1 -> apart cmd 128 x 1 -> m x = k_ram (w_st w) x) /\
    rd_bytes m cmd 128 = cs ++ replicate (128 - length cs) 0 /\
    let t := outs (string_bytes prompt) ++ typed cs ++ line_end cs in
    let done_with t' := Ret s (after (w_st w) (w_trace w) (w_held w) (t ++ t') m) in
    shell_round env fuel lit flag stack cmd s w =
      if decide (length cs = 128)%nat then done_with (outs (string_bytes too_long)) else
      if decide (cs = []) then done_with [] else
      match chosen (commands env fuel lit flag stack cmd) cs with
      | Some run => run s (after (w_st w) (w_trace w) (w_held w) t m)
      | None => done_with (outs cs ++ outs (string_bytes not_found))
      end.
Proof.
  intros Hcmd Hfuel Hlit Hok Hlen Hty. set (W := after (w_st w) (w_trace w) (w_held w)). set (m0 := k_ram (w_st w)) in *.
  assert (w = W [] m0) as Ew. { unfold W, after, m0. rewrite app_nil_r. by destruct w as [[[]]]. }
  pose proof (line_in_memset cmd Hcmd m0) as Hm1.
  apply Forall_cons in Hlit as [Hp Hlit]. apply Forall_cons in Hlit as [Hn Hlit]. apply Forall_cons in Hlit as [Ht Hlit].
  destruct (run_read_line env fuel (w_st w) (w_trace w) (w_held w) cmd Hcmd ([] ++ outs (string_bytes prompt)) m0 (memset m0 cmd 0 128) cs cr)
    as (m & Hm & E); [done..|]. exists m. split; [apply Hm|]. split; [apply Hm|]. cbv zeta. fold W in E. fold W.
  assert (forall m' l s, line_in cmd m0 m' l -> literal_at fuel lit m0 cmd s -> literal_at fuel lit m' cmd s) as HL
    by (intros; by eapply literal_line).
  rewrite Ew at 1. unfold shell_round. erewrite run_bind by apply run_st.
  erewrite run_bind by (eapply run_kprintl, HL; [exact Hm1|exact Hp]). erewrite run_bind by exact E.
  rewrite app_nil_l. destruct (decide (length cs = 128%nat)) as [E1|E1].
  { rewrite E1. change (128%nat =? 128) with true. cbv iota. erewrite run_bind; [reflexivity|].
    eapply run_kprintl, HL; [exact Hm|exact Ht]. }
  rewrite (proj2 (Z.eqb_neq (length cs) 128)) by lia. destruct (decide (cs = [])) as [->|E2].
  { rewrite app_nil_r. done. }
  rewrite (proj2 (Z.eqb_neq (length cs) 0)) by (destruct cs; simpl; [done|lia]).
  pose proof (line_in_cstr cmd Hcmd _ _ _ Hm Hok ltac:(lia)) as Hstr.
  rewrite (run_dispatch env fuel lit cmd (w_st w) (w_trace w) (w_held w) m cs); [done|done|lia|done|by eapply HL|].
  pose proof (tests_counted cmd) as Hc. unfold tests in *. rewrite Forall_fmap in Hc. rewrite <-list_fmap_compose, Forall_fmap in Hlit.
  rewrite Forall_forall in *. intros x Hx. split; [|by apply Hc]. eapply HL; [exact Hm|by apply Hlit].
Qed.
End Rounds.

(** A kernel whose literals lie at 0x3000, one behind the other, with the line
    buffer at 0x2000, and a console on which [cs] is typed. *)
Fixpoint offset_of (l : list string) (s : string) : Z :=
  match l with
  | [] => 0
  | x :: l => if decide (x = s) then 0 else length (string_bytes x) + 1 + offset_of l s
  end.
Definition words : list string := loop_words (tests silent_env 0 (fun _ => 0) 0 0 0).
Definition word_lit (s : string) : Z := 0x3000 + offset_of words s.
Definition word_bytes : bytes := words ≫= (fun s => string_bytes s ++ [0]).
Definition shell_kernel : kernel :=
  Kernel (KHeap (wr_bytes (fun _ => 0) 0x3000 word_bytes) 0 0 0) 1 0x100 0 0 0 0 0 0 0 [] (Idtr 0 0).
Definition reads (tr : list kcall) : nat := list_sum ((fun c => match c with Inb _ => 1 | _ => 0 end)%nat <$> tr).
Definition typing_env (cs : bytes) : kenv := fun tr c =>
  match c return kreply c with
  | Inb _ => default 0 ((cs ++ [13]) !! reads tr)
  | Ld8 _ | Rdmsr _ | Apic_id => 0
  | Reg _ _ => []
  | Wait => []
  | Outb _ _ | Outd _ _ | St32 _ _ | St8 _ _ | Lidt _ _ | Sti => tt
  end.

Definition literal_ok (fuel : nat) (lit : string -> Z) (m : ram) (cmd : Z) (s : string) : bool :=
  let str := string_bytes s in
  (0 <=? lit s) && (lit s + (length str + 1)%nat <=? 2 ^ 32) && bool_decide (rd_bytes m (lit s) (length str + 1) = str ++ [0]) &&
  bool_decide (0 ∉ str) && (cmd + 128 <=? lit s) && (length str <? fuel)%nat.

Lemma literal_ok_at fuel lit m cmd s : literal_ok fuel lit m cmd s = true -> literal_at fuel lit m cmd s.
Proof.
  unfold literal_ok. rewrite !andb_true_iff, !bool_decide_eq_true, Nat.ltb_lt, !Z.leb_le. intros (((((H1 & H2) & H3) & H4) & H5) & H6).
  constructor; [constructor; [unfold in_ram; lia|done|done]|unfold apart; lia|done].
Qed.

Lemma shell_runs_command_witness :
  exists w' : kworld, w_trace w' = outs (string_bytes "$ ") ++ typed (string_bytes "write") ++
      [Inb console; Outb 13 console; Outb 10 console; Outb 0x41 0x92; Outb 0x42 0x95] /\
    shell_round (typing_env (string_bytes "write")) 200 word_lit 0 0 0x2000 (Shell 0 0 0 0 0 0 0 0 0 0 0 0) (World shell_kernel [] []) =
      Ret (Shell 0 0 0 0 0 0 0 0 0 0 0 0) w'.
Proof.
  edestruct (shell_runs_command (typing_env (string_bytes "write")) 200 word_lit 0 0 0x2000 (Shell 0 0 0 0 0 0 0 0 0 0 0 0)
    (World shell_kernel [] []) (string_bytes "write") 13) as (m & _ & _ & E).
  - unfold in_ram. lia.
  - lia.
  - change (loop_words (tests _ _ _ _ _ _)) with words.
    assert (forallb (literal_ok 200 word_lit (k_ram shell_kernel) 0x2000) words = true) as H by (by vm_compute).
    apply Forall_forall. intros s Hs. apply literal_ok_at. rewrite forallb_forall in H. apply H. by apply list_elem_of_In.
  - repeat constructor; unfold in_width; vm_compute; done.
  - simpl. lia.
  - split.
    + intros i c Hi. do 5 (destruct i as [|i]; [injection Hi as <-; by vm_compute|]). done.
    + intros _. split; [by left|by vm_compute].
  - eexists. split; [|rewrite E; reflexivity]. by vm_compute.
Defined.
