(* ===== verification/KIrqProps.v ===== *)
(** * KIrqProps: the guest kernel's interrupts and the monitor's controllers *)

From S2P Require Import Prelude Effects Libc Wire Machine Apic Samples ApicProps KMem KMalloc KSys KDriverProps.

(** The stores of the guest to its interrupt controllers, and how the monitor
    handles them for the CPU [i]. *)
Definition apic_stores (l : list kcall) : list (Z * Z) :=
  omap (fun c => match c with St32 a v => Some (a, v) | _ => None end) l.
Definition serve_apic (env : vmm_env) (i : nat) (l : list kcall) : vmm_prog unit :=
  for_each (apic_stores l) (fun x => apicMmio env i x.1 (le_bytes 4 x.2) 4 1;; mret tt).

(** The redirection table that [program_ioapic] writes. *)
Definition ioapic_calls : list kcall := (fun i : nat => St32 (0xFEC00008 + 4 * i) i) <$> seq 0 10.

Lemma program_ioapic_calls (env : kenv) (w : kworld) :
  wp (program_ioapic env) (fun _ w' => w_st w' = w_st w /\ w_trace w' = w_trace w ++ (ioapic_calls : list (call k_iface))) w.
Proof.
  unfold program_ioapic. simpl for_each. k_go. split; [done|]. simpl. unfold set_field. simpl. unfold set_field. simpl.
  rewrite <-!(assoc_L (++)). done.
Qed.

Lemma intr_handler_calls (env : kenv) irq (w : kworld) : 0 <= irq < 32 ->
  wp (intr_handler env irq) (fun _ w' => exists l : list kcall, w_trace w' = w_trace w ++ (l : list (call k_iface)) /\
    apic_stores l = [(0xfee00008, irq)] /\ k_ram (w_st w') = k_ram (w_st w)) w.
Proof.
  intros Hi. unfold intr_handler. k_go.
  destruct (irq =? OGX_READY_IRQ); [|destruct (irq =? P9_RESPONSE_IRQ)]; k_go; eexists; (split; [simpl; unfold set_field; simpl;
    unfold set_field; simpl; rewrite <-!(assoc_L (++)); reflexivity|]); (split; [|done]); simpl; rewrite (wrap_small 32); done || unfold in_width; lia.
Qed.

Section Monitor.
Context (env : vmm_env) (v : vcpu_t) (Hbase : Z.land (apicbase (regs v)) MSR_IA32_APICBASE_BASE = 0xfee00000).

(** The state after a part of the stores. *)
Record programmed (n : nat) (w : vmm_world) : Prop := {
  pr_wf : wf_vmm (w_st w);
  pr_held : w_held w = [];
  pr_cpu : vcpu_at (w_st w) 0 = Some v;
  pr_table : forall j : nat, (j < n)%nat -> irq_redir_table (ioapic (g_hv (w_st w))) !! j = Some (Z.of_nat j);
}.

Lemma lapic_out a : 0xFEC00000 <= a < 0xFEC01000 -> lapicAccess v a = false.
Proof. intros Ha. unfold lapicAccess. rewrite Hbase. apply andb_false_intro1, Z.leb_gt. lia. Qed.

Lemma serve_entry (n : nat) w : (n < 10)%nat -> programmed n w ->
  wp (apicMmio env 0 (0xFEC00008 + 4 * n) (le_bytes 4 n) 4 1;; mret tt) (fun _ => programmed (S n)) w.
Proof.
  intros Hn [Hwf Hh Hv Ht]. assert (redtblAccess (0xFEC00008 + 4 * n) = true /\ ioApicAccess (0xFEC00008 + 4 * n) = true) as [Hr Ha].
  { unfold redtblAccess, ioApicAccess, PADDR_IOAPIC, IOAPIC_OFF_REDTBL, NR_MAX_IOAPIC_IRQS. rewrite !andb_true_iff, !Z.leb_le. lia. }
  assert (slot (0xFEC00008 + 4 * n) = n) as Hs.
  { unfold slot, PADDR_IOAPIC, IOAPIC_OFF_REDTBL. replace (_ - _ - _) with (n * 4) by lia. rewrite Z.div_mul; lia. }
  assert (load32 (le_bytes 4 n) = n) as Hl.
  { rewrite load32_le_val, le_val_bytes, wrap_wrap by lia. apply wrap_small. unfold in_width. lia. }
  apply wp_bind. eapply wp_mono; [apply (apicMmio_ioapic env 0 v); [done|done|done|apply lapic_out; lia|done|rewrite length_le_bytes; lia]|].
  intros _ w1 (Hh1 & Hst & _). apply wp_ret. rewrite Hr, Hs, Hl in Hst. simpl in Hst. constructor.
  - rewrite Hst. apply wf_set_entry; [unfold in_width; lia|done].
  - done.
  - by rewrite Hst, vcpu_at_map_ioapic.
  - intros j Hj. rewrite Hst. simpl. unfold set_field. destruct (decide (j = n)) as [->|Hne].
    + apply list_lookup_insert_eq. rewrite (wf_table _ Hwf). unfold NR_MAX_IOAPIC_IRQS. lia.
    + rewrite list_lookup_insert_ne by done. apply Ht. lia.
Qed.

Lemma serve_table w : programmed 0 w -> wp (serve_apic env 0 ioapic_calls) (fun _ => programmed 10) w.
Proof.
  intros H0. unfold serve_apic. change (apic_stores ioapic_calls) with ((fun i : nat => (0xFEC00008 + 4 * i, Z.of_nat i)) <$> seq 0 10).
  apply (wp_for_each _ _ (fun pre => programmed (length pre))); [done| |by intros w'].
  intros pre x post w' Hl Hp. assert (length pre < 10)%nat as Hlen
    by (apply (f_equal length) in Hl; rewrite length_fmap, length_seq, length_app in Hl; simpl in Hl; lia).
  assert (x = (0xFEC00008 + 4 * length pre, Z.of_nat (length pre))) as ->.
  { assert (((fun i : nat => (0xFEC00008 + 4 * i, Z.of_nat i)) <$> seq 0 10) !! length pre = Some x) as E
      by (rewrite Hl; by apply list_lookup_middle).
    rewrite list_lookup_fmap, lookup_seq_lt in E by done. by injection E as <-. }
  rewrite length_app. simpl length. rewrite Nat.add_1_r. by apply serve_entry.
Qed.

(** Delivery does not change the registers of the CPUs. *)
Lemma wake_regs i u w j : regs <$> vcpu_at (w_st (wake i u w)) j = regs <$> vcpu_at (w_st w) j.
Proof. unfold wake. destruct (_ =? _); [|done]. simpl. rewrite vcpu_at_map. case_decide; [|done]. by destruct (vcpu_at _ _). Qed.

Lemma delivery_regs w k r w' j : delivery env w k r w' -> regs <$> vcpu_at (w_st w') j = regs <$> vcpu_at (w_st w) j.
Proof.
  intros Hd. destruct Hd as [| |e u w' _ _ _ _ ->|e u c w0 w' _ _ _ _ -> _ _ ->|e u c w0 w' _ _ _ _ -> _ _ ->]; [done|done|apply wake_regs..|].
  simpl. rewrite vcpu_at_map, <-(wake_regs (Z.to_nat (entry_dest_cpu e)) u w j). case_decide; [|done]. by destruct (vcpu_at _ _).
Qed.

(** The interrupt is routed to the boot CPU, which keeps the address of its controller. *)
Definition cycled (irq : Z) (b : bool) (w : vmm_world) : Prop :=
  routed irq irq 0 b w /\ regs <$> vcpu_at (w_st w) 0 = Some (regs v).

Context (Haccept : forall tr fd vec, 0 <= env tr (KVM_INTERRUPT fd vec)).
Context (irq : Z) (Hirq : 0 <= irq < 10).

Lemma entry_irq : entry_vector irq = irq /\ entry_dest_cpu irq = 0.
Proof.
  assert (irq ∈ [0;1;2;3;4;5;6;7;8;9]) as Hin by (rewrite !elem_of_cons; lia). revert Hin. clear. rewrite !elem_of_cons, elem_of_nil.
  intros H. destruct_or!; try done; subst; by vm_compute.
Qed.

Lemma land_irq : Z.land irq 0x1f = irq.
Proof. change 0x1f with (Z.ones 5). rewrite Z.land_ones by lia. apply Z.mod_small. lia. Qed.

Lemma cycled_send b w : cycled irq b w -> wp (ioApicSendInterrupt env irq) (fun r w' => r = (if b then -1 else 0) /\ cycled irq true w') w.
Proof.
  intros [Hr Hg]. destruct entry_irq as [_ Ed]. pose proof Hr as (Hwf & Hh & _).
  eapply wp_mono; [apply wp_and; [apply (routed_send env irq irq 0 Haccept ltac:(by rewrite Ed) ltac:(lia) irq b w land_irq Hr)|
    by apply ioApicSendInterrupt_spec]|].
  intros r w' [[-> Hr'] Hd]. split; [done|]. split; [done|]. by rewrite (delivery_regs _ _ _ _ _ Hd).
Qed.

(** The end of an interrupt. *)
Lemma cycled_eoi b w : cycled irq b w ->
  wp (apicMmio env 0 0xfee00008 (le_bytes 4 irq) 4 1;; mret tt) (fun _ w' => routed irq irq 0 false w') w.
Proof.
  intros [Hr Hg]. pose proof Hr as (_ & _ & _ & v' & Hv & _ & _). rewrite Hv in Hg. injection Hg as Eb.
  assert (lapicAccess v' 0xfee00008 = true) as Ha by (unfold lapicAccess; rewrite Eb, Hbase; done).
  unfold apicMmio. simpl. apply wp_bind, wp_bind. eapply wp_get_vcpu; [done|]. rewrite Ha. apply wp_bind. unfold lapicMmio. simpl.
  assert (Z.land (load32 (le_bytes 4 irq)) 0x1f = irq) as Hl.
  { rewrite load32_le_val, le_val_bytes, wrap_wrap, wrap_small by (unfold in_width; lia). apply land_irq. }
  eapply wp_mono; [apply (routed_eoi env irq irq 0 ltac:(lia) b); [done|exact Hl|done]|]. intros r w' Hw. by do 2 apply wp_ret.
Qed.
End Monitor.

(** C18: The guest's interrupt set-up and its handlers fit the monitor's
    controllers: [program_ioapic] and [intr_handler] end, and when the monitor
    handles the stores of the first, each of the interrupts 0 to 9 is routed to
    the boot CPU with its own number as the vector; such an interrupt is then
    delivered, is refused while the guest has not handled it, and is delivered
    again after the stores of its handler. *)
Theorem guest_interrupt_cycle (kenv0 : kenv) (env : vmm_env) v irq (kw : kworld) (w : vmm_world) :
  (forall tr fd vec, 0 <= env tr (KVM_INTERRUPT fd vec)) ->
  wf_vmm (w_st w) -> w_held w = [] -> vcpu_at (w_st w) 0 = Some v -> state v <> STATE_NOT_STARTED -> isr v = 0 ->
  Z.land (apicbase (regs v)) MSR_IA32_APICBASE_BASE = 0xfee00000 -> 0 <= irq < 10 ->
  wp (program_ioapic kenv0) (fun _ kw1 => exists l1 : list kcall,
    w_trace kw1 = w_trace kw ++ (l1 : list (call k_iface)) /\
    wp (intr_handler kenv0 irq) (fun _ kw2 => exists l2 : list kcall,
      w_trace kw2 = w_trace kw1 ++ (l2 : list (call k_iface)) /\
      wp (serve_apic env 0 l1;;
          e ← gets (fun s => znth (irq_redir_table (ioapic (g_hv s))) irq);
          r1 ← ioApicSendInterrupt env irq;
          r2 ← ioApicSendInterrupt env irq;
          serve_apic env 0 l2;;
          r3 ← ioApicSendInterrupt env irq;
          mret (e, r1, r2, r3))
        (fun r _ => exists e, r = (Some e, 0, -1, 0) /\ entry_vector e = irq /\ entry_dest_cpu e = 0) w) kw1) kw.
Proof.
  intros Hacc Hwf Hh Hv Hst Hisr Hbase Hirq.
  eapply wp_mono; [apply program_ioapic_calls|]. intros _ kw1 [_ E1]. exists ioapic_calls. split; [done|].
  eapply wp_mono; [apply intr_handler_calls; lia|]. intros _ kw2 (l2 & E2 & Hl2 & _). exists l2. split; [done|].
  apply wp_bind. eapply wp_mono; [apply (serve_table env v Hbase w); constructor; [done|done|done|lia]|].
  intros _ w1 [Hwf1 Hh1 Hv1 Ht]. apply wp_bind, wp_gets.
  assert (znth (irq_redir_table (ioapic (g_hv (w_st w1)))) irq = Some irq) as He.
  { rewrite <-(Z2Nat.id irq) at 1 by lia. rewrite znth_nat, Ht by lia. f_equal. lia. }
  rewrite He. destruct (entry_irq irq Hirq) as [Ev Ed].
  assert (cycled v irq false w1) as Hc.
  { split; [|by rewrite Hv1]. do 3 (split; [done|]). exists v. do 2 (split; [done|]). rewrite Hisr. apply Z.testbit_0_l. }
  apply wp_bind. eapply wp_mono; [by apply (cycled_send env v Hacc irq Hirq false)|]. intros r1 w2 [-> H2].
  apply wp_bind. eapply wp_mono; [by apply (cycled_send env v Hacc irq Hirq true)|]. intros r2 w3 [-> H3].
  apply wp_bind. unfold serve_apic. rewrite Hl2. cbn [for_each fst snd]. apply wp_bind.
  eapply wp_mono; [by apply (cycled_eoi env v Hbase irq Hirq true)|]. intros u w4 H4. apply wp_ret.
  apply wp_bind. eapply wp_mono; [apply (routed_send env irq irq 0 Hacc ltac:(by rewrite Ed) ltac:(lia) irq false w4 (land_irq irq Hirq) H4)|].
  intros r3 w5 [-> _]. apply wp_ret. by exists irq.
Qed.

Lemma guest_interrupt_cycle_witness :
  wp (program_ioapic silent_env) (fun _ kw1 => exists l1 : list kcall, w_trace kw1 = l1 /\
    wp (intr_handler silent_env 9) (fun _ kw2 => exists l2 : list kcall, w_trace kw2 = w_trace kw1 ++ (l2 : list (call k_iface)) /\
      wp (serve_apic quiet_env 0 l1;;
          e ← gets (fun s => znth (irq_redir_table (ioapic (g_hv s))) 9);
          r1 ← ioApicSendInterrupt quiet_env 9;
          r2 ← ioApicSendInterrupt quiet_env 9;
          serve_apic quiet_env 0 l2;;
          r3 ← ioApicSendInterrupt quiet_env 9;
          mret (e, r1, r2, r3))
        (fun r _ => exists e, r = (Some e, 0, -1, 0) /\ entry_vector e = 9 /\ entry_dest_cpu e = 0) (sample_world 1 0)) kw1)
    (World sample_kernel [] []).
Proof.
  apply (guest_interrupt_cycle silent_env quiet_env (sample_vcpu 0 1) 9 (World sample_kernel [] []) (sample_world 1 0)); try done; try lia.
  apply sample_wf; lia.
Defined.
