(* ===== verification/OgxEvent.v ===== *)
(** * OgxEvent: the messages of the enclave device
    (devices/ogx/Event.cpp, Event.h, ogx.h)

    Events are objects of the JSON library in CBOR, in a box of libsodium.  The
    two libraries are parameters: a class with the functions that the code
    calls, and a class with what their documentation says of them.  [None] is an
    exception. *)

From S2P Require Import Prelude Libc.

Definition NUM_ENCLAVES := 8.
Definition ENCLAVE_REGION_SIZE := 65536.

Definition crypto_box_PUBLICKEYBYTES := 32.
Definition crypto_box_SECRETKEYBYTES := 32.
Definition crypto_box_NONCEBYTES := 24.
Definition crypto_box_MACBYTES := 16.

(** The values that the code puts in an object. *)
Inductive jval :=
  | VStr (s : bytes)
  | VNum (n : Z)
  | VVec (b : bytes).

(** [object[key].get<T>()] on what [from_cbor] returns. *)
Class Json (J : Type) := {
  from_cbor : bytes -> option J;
  to_cbor : list (string * jval) -> bytes;
  get_string : J -> string -> option bytes;
  get_uint32 : J -> string -> option Z;
  get_vector : J -> string -> option bytes;
}.

(** Values with 32-bit numbers and lengths, and what they take at most: a number
    takes 9 bytes with its type, an element of an array 2. *)
Definition jval_ok (v : jval) : Prop :=
  match v with
  | VStr s => is_bytes s /\ length s < 2 ^ 32
  | VNum n => in_width 32 n
  | VVec b => is_bytes b /\ length b < 2 ^ 32
  end.
Definition entry_ok (kv : string * jval) : Prop := length (string_bytes kv.1) < 256 /\ jval_ok kv.2.
Definition entry_size (kv : string * jval) : Z :=
  9 + length (string_bytes kv.1) +
  match kv.2 with
  | VStr s => 9 + length s
  | VNum n => 9
  | VVec b => 9 + 2 * length b
  end.

Definition holds {J} `{!Json J} (o : J) (kv : string * jval) : Prop :=
  match kv.2 with
  | VStr s => get_string o kv.1 = Some s
  | VNum n => get_uint32 o kv.1 = Some n
  | VVec b => get_vector o kv.1 = Some b
  end.

Class JsonLaws (J : Type) `{!Json J} := {
  cbor_roundtrip : forall l, NoDup l.*1 -> Forall entry_ok l -> exists o, from_cbor (to_cbor l) = Some o /\ Forall (holds o) l;
  cbor_bytes : forall l, Forall entry_ok l -> is_bytes (to_cbor l);
  cbor_length : forall l, length (to_cbor l) <= 9 + foldr (fun kv n => entry_size kv + n) 0 l;
  vector_bytes : forall o k b, get_vector o k = Some b -> is_bytes b;
  uint32_width : forall o k n, get_uint32 o k = Some n -> in_width 32 n;
}.

Class Sodium := {
  crypto_box_easy : bytes -> bytes -> bytes -> bytes -> option bytes;
  crypto_box_open_easy : bytes -> bytes -> bytes -> bytes -> option bytes;
  public_of : bytes -> bytes;   (* the public key of a secret key *)
}.

(** The box that one key pair made for another is opened by the other. *)
Class SodiumLaws `{!Sodium} := {
  public_length : forall sk, length sk = Z.to_nat crypto_box_SECRETKEYBYTES -> length (public_of sk) = Z.to_nat crypto_box_PUBLICKEYBYTES;
  public_bytes : forall sk, is_bytes sk -> is_bytes (public_of sk);
  box_length : forall m n pk sk c, crypto_box_easy m n pk sk = Some c -> is_bytes m ->
    is_bytes c /\ length c = (Z.to_nat crypto_box_MACBYTES + length m)%nat;
  box_opens : forall m n sk1 sk2,
    length sk1 = Z.to_nat crypto_box_SECRETKEYBYTES -> length sk2 = Z.to_nat crypto_box_SECRETKEYBYTES ->
    length n = Z.to_nat crypto_box_NONCEBYTES -> is_bytes m ->
    exists c, crypto_box_easy m n (public_of sk2) sk1 = Some c /\ crypto_box_open_easy c n (public_of sk1) sk2 = Some m;
}.

(** [LoadEvent] and [ResponseEvent] *)
Inductive event :=
  | LoadEvent (id : Z) (code data : bytes)
  | ResponseEvent (id : Z) (response : bytes).

(** The constructor of [LoadEvent]. *)
Definition make_LoadEvent (id : Z) (code data : bytes) : option event :=
  if NUM_ENCLAVES <=? id then None else
  if ENCLAVE_REGION_SIZE <? length code then None else
  if ENCLAVE_REGION_SIZE <? length data then None else
  Some (LoadEvent id code data).

Section Events.
Context {J : Type} `{!Json J} `{!Sodium}.

Definition Serialize (e : event) : bytes :=
  match e with
  | LoadEvent id code data =>
      to_cbor [("t", VStr (string_bytes "load")); ("i", VNum id); ("c", VVec code); ("d", VVec data)]
  | ResponseEvent id response =>
      to_cbor [("t", VStr (string_bytes "response")); ("i", VNum id); ("r", VVec response)]
  end.

Definition Deserialize (data : bytes) : option event :=
  object ← from_cbor data;
  t ← get_string object "t";
  if decide (t = string_bytes "load") then
    i ← get_uint32 object "i";
    c ← get_vector object "c";
    d ← get_vector object "d";
    make_LoadEvent i c d
  else if decide (t = string_bytes "response") then
    i ← get_uint32 object "i";
    r ← get_vector object "r";
    Some (ResponseEvent i r)
  else None.

(** [nonce] is what [randombytes_buf] puts in the vector. *)
Definition Encrypt (nonce sender_pub_key sender_sec_key receiver_pub_key message : bytes) : option bytes :=
  if negb (length sender_sec_key =? crypto_box_SECRETKEYBYTES) then None else
  if negb (length receiver_pub_key =? crypto_box_PUBLICKEYBYTES) then None else
  ciphertext ← crypto_box_easy message nonce receiver_pub_key sender_sec_key;
  Some (to_cbor [("s", VVec sender_pub_key); ("m", VVec ciphertext); ("n", VVec nonce)]).

Definition Decrypt (receiver_sec_key data : bytes) : option (bytes * event) :=
  if negb (length receiver_sec_key =? crypto_box_SECRETKEYBYTES) then None else
  object ← from_cbor data;
  sender_pub_key ← get_vector object "s";
  ciphertext ← get_vector object "m";
  nonce ← get_vector object "n";
  if negb (length sender_pub_key =? crypto_box_PUBLICKEYBYTES) then None else
  if length ciphertext <? crypto_box_MACBYTES then None else
  if negb (length nonce =? crypto_box_NONCEBYTES) then None else
  plaintext ← crypto_box_open_easy ciphertext nonce sender_pub_key receiver_sec_key;
  e ← Deserialize plaintext;
  Some (sender_pub_key, e).

(** Events that the constructors accept. *)
Definition event_ok (e : event) : Prop :=
  match e with
  | LoadEvent id code data => 0 <= id < NUM_ENCLAVES /\ is_bytes code /\ is_bytes data /\
      length code <= ENCLAVE_REGION_SIZE /\ length data <= ENCLAVE_REGION_SIZE
  | ResponseEvent id response => in_width 32 id /\ is_bytes response /\ length response < 128
  end.

Context `{!JsonLaws J} `{!SodiumLaws}.

Ltac keys_differ := apply (bool_decide_unpack _); vm_compute.
Ltac vals_ok := rewrite !Forall_cons, Forall_nil; split_and!; try done; unfold entry_ok, jval_ok; cbn [fst snd].
Ltac sizes := cbn [foldr fst snd]; unfold entry_size; cbn [fst snd];
  repeat match goal with |- context [Z.of_nat (length (string_bytes ?s))] =>
    let n := eval vm_compute in (Z.of_nat (length (string_bytes s))) in change (Z.of_nat (length (string_bytes s))) with n end.

Lemma string_bytes_is_bytes s : is_bytes (string_bytes s).
Proof. apply Forall_fmap, Forall_true. intros c. unfold compose. destruct c as [[] [] [] [] [] [] [] []]; by vm_compute. Qed.

(** The events as objects. *)
Definition fields (e : event) : list (string * jval) :=
  match e with
  | LoadEvent id code data => [("t", VStr (string_bytes "load")); ("i", VNum id); ("c", VVec code); ("d", VVec data)]
  | ResponseEvent id response => [("t", VStr (string_bytes "response")); ("i", VNum id); ("r", VVec response)]
  end.

Lemma fields_ok e : event_ok e -> Forall entry_ok (fields e).
Proof.
  unfold NUM_ENCLAVES, ENCLAVE_REGION_SIZE in *. destruct e; cbn [fields event_ok]; intros He; unfold NUM_ENCLAVES, ENCLAVE_REGION_SIZE in He;
    vals_ok; destruct_and?; split; try done; try (split; [done || apply string_bytes_is_bytes|try done; lia]); unfold in_width; lia.
Qed.

Lemma Serialize_fields e : Serialize e = to_cbor (fields e).
Proof. by destruct e. Qed.

Lemma Serialize_bytes e : event_ok e -> is_bytes (Serialize e).
Proof. intros He. rewrite Serialize_fields. by apply cbor_bytes, fields_ok. Qed.

(** A box with an event is far smaller than the 4 GiB of a length. *)
Lemma Serialize_length e : event_ok e -> length (Serialize e) <= 2 ^ 19.
Proof.
  intros He. rewrite Serialize_fields. etransitivity; [apply cbor_length|]. destruct e; cbn [fields event_ok] in *; unfold ENCLAVE_REGION_SIZE in *;
    sizes; destruct_and?; lia.
Qed.

Lemma response_length id r : length r < 128 -> length (Serialize (ResponseEvent id r)) <= 400.
Proof. intros Hr. rewrite Serialize_fields. etransitivity; [apply cbor_length|]. cbn [fields]. sizes. lia. Qed.

Lemma Deserialize_Serialize e : event_ok e -> Deserialize (Serialize e) = Some e.
Proof.
  intros He. unfold Deserialize. rewrite Serialize_fields.
  assert (NoDup (fields e).*1) as Hn by (destruct e; by keys_differ).
  destruct (cbor_roundtrip (fields e) Hn (fields_ok e He)) as (o & -> & Ho).
  destruct e as [id code data|id response]; cbn [fields event_ok] in *; rewrite !Forall_cons in Ho; unfold holds in Ho; cbn [fst snd] in Ho.
  - destruct Ho as (H1 & H2 & H3 & H4 & _), He as (Hi & _ & _ & Lc & Ld). cbn [mbind option_bind]. rewrite H1. simpl. rewrite H2, H3, H4.
    simpl. unfold make_LoadEvent. rewrite (proj2 (Z.leb_gt _ _)) by lia. by rewrite !(proj2 (Z.ltb_ge _ _)) by lia.
  - destruct Ho as (H1 & H2 & H3 & _). cbn [mbind option_bind]. rewrite H1. simpl. by rewrite H2, H3.
Qed.

(** The object that [Encrypt] makes. *)
Definition box_fields (s m n : bytes) : list (string * jval) := [("s", VVec s); ("m", VVec m); ("n", VVec n)].

Lemma Encrypt_bytes nonce pk sk rk e c : event_ok e -> length pk = Z.to_nat crypto_box_PUBLICKEYBYTES -> is_bytes pk ->
  length nonce = Z.to_nat crypto_box_NONCEBYTES -> is_bytes nonce -> Encrypt nonce pk sk rk (Serialize e) = Some c ->
  is_bytes c /\ length c <= 2 ^ 21 /\ (length (Serialize e) <= 400 -> length c <= 2000).
Proof.
  intros He Lp Bp Ln Bn. unfold Encrypt. do 2 (destruct (negb _); [done|]). destruct (crypto_box_easy _ _ _ _) as [m|] eqn:Em; [|done].
  intros [= <-]. destruct (box_length _ _ _ _ _ Em (Serialize_bytes e He)) as [Bm Lm]. pose proof (Serialize_length e He) as Ls.
  pose proof (cbor_length (box_fields pk m nonce)) as Hl. revert Hl. fold (box_fields pk m nonce). unfold box_fields at 2. sizes. intros Hl.
  unfold crypto_box_MACBYTES, crypto_box_PUBLICKEYBYTES, crypto_box_NONCEBYTES in *. split; [|lia]. apply cbor_bytes. unfold box_fields. vals_ok; split_and?; done || lia.
Qed.

(** What one side encrypts for the other, the other decrypts. *)
Lemma Decrypt_Encrypt nonce sk1 sk2 e :
  length sk1 = Z.to_nat crypto_box_SECRETKEYBYTES -> length sk2 = Z.to_nat crypto_box_SECRETKEYBYTES -> is_bytes sk1 ->
  length nonce = Z.to_nat crypto_box_NONCEBYTES -> is_bytes nonce -> event_ok e ->
  exists c, Encrypt nonce (public_of sk1) sk1 (public_of sk2) (Serialize e) = Some c /\ Decrypt sk2 c = Some (public_of sk1, e).
Proof.
  intros L1 L2 B1 Ln Bn He. destruct (box_opens (Serialize e) nonce sk1 sk2 L1 L2 Ln (Serialize_bytes e He)) as (c & Ec & Eo).
  destruct (box_length _ _ _ _ _ Ec (Serialize_bytes e He)) as [Bc Lc]. pose proof (Serialize_length e He) as Ls.
  pose proof (public_length sk1 L1) as P1. pose proof (public_length sk2 L2) as P2.
  unfold Encrypt, Decrypt. rewrite L1, L2, P2, Ec. cbn [negb mbind option_bind]. change (Z.to_nat crypto_box_SECRETKEYBYTES =? crypto_box_SECRETKEYBYTES) with true.
  change (Z.to_nat crypto_box_PUBLICKEYBYTES =? crypto_box_PUBLICKEYBYTES) with true. cbn [negb]. eexists. split; [done|].
  fold (box_fields (public_of sk1) c nonce).
  destruct (cbor_roundtrip (box_fields (public_of sk1) c nonce)) as (o & -> & Ho).
  { by keys_differ. }
  { unfold box_fields, crypto_box_MACBYTES, crypto_box_PUBLICKEYBYTES, crypto_box_NONCEBYTES in *. vals_ok; split_and?; try done; try lia. by apply public_bytes. }
  unfold box_fields in Ho. rewrite !Forall_cons in Ho. destruct Ho as (H1 & H2 & H3 & _). unfold holds in *. cbn [fst snd] in *. cbn [mbind option_bind].
  rewrite H1, H2, H3. cbn [mbind option_bind]. rewrite P1, Ln.
  change (Z.to_nat crypto_box_PUBLICKEYBYTES =? crypto_box_PUBLICKEYBYTES) with true.
  change (Z.to_nat crypto_box_NONCEBYTES =? crypto_box_NONCEBYTES) with true. cbn [negb].
  rewrite (proj2 (Z.ltb_ge _ _)) by (rewrite Lc; unfold crypto_box_MACBYTES; lia). rewrite Eo. cbn [mbind option_bind].
  by rewrite Deserialize_Serialize.
Qed.

(** What comes out of a box. *)
Lemma Decrypt_load sk data sender id code dat : Decrypt sk data = Some (sender, LoadEvent id code dat) ->
  length sender = Z.to_nat crypto_box_PUBLICKEYBYTES /\ is_bytes sender /\ event_ok (LoadEvent id code dat).
Proof.
  unfold Decrypt. destruct (negb _); [done|]. destruct (from_cbor data) as [o|]; [|done]. cbn [mbind option_bind].
  destruct (get_vector o "s") as [s|] eqn:Es; [|done]. destruct (get_vector o "m") as [m|]; [|done]. destruct (get_vector o "n") as [n|]; [|done].
  cbn [mbind option_bind]. destruct (Z.eqb_spec (length s) crypto_box_PUBLICKEYBYTES) as [El|]; [|done]. cbn [negb]. destruct (_ <? _); [done|]. destruct (negb _); [done|].
  destruct (crypto_box_open_easy _ _ _ _) as [p|]; [|done]. cbn [mbind option_bind]. destruct (Deserialize p) as [e|] eqn:Ed; [|done].
  cbn [mbind option_bind]. intros [= -> ->]. split; [lia|]. split; [by eapply vector_bytes|]. revert Ed. unfold Deserialize.
  destruct (from_cbor p) as [q|]; [|done]. cbn [mbind option_bind]. destruct (get_string q "t") as [t|]; [|done]. cbn [mbind option_bind].
  case_decide; [|case_decide; [|done]; destruct (get_uint32 q "i"); [|done]; by destruct (get_vector q "r")].
  destruct (get_uint32 q "i") as [i|] eqn:Ei; [|done]. destruct (get_vector q "c") as [c|] eqn:Ec; [|done]. destruct (get_vector q "d") as [dd|] eqn:Edd; [|done].
  cbn [mbind option_bind]. unfold make_LoadEvent. destruct (Z.leb_spec NUM_ENCLAVES i); [done|]. destruct (Z.ltb_spec ENCLAVE_REGION_SIZE (length c)); [done|].
  destruct (Z.ltb_spec ENCLAVE_REGION_SIZE (length dd)); [done|]. intros [= -> -> ->]. pose proof (uint32_width _ _ _ Ei) as Hw. unfold in_width in Hw.
  split; [lia|]. split; [by eapply vector_bytes|]. split; [by eapply vector_bytes|]. lia.
Qed.
End Events.
