(* ===== verification/Ogx.v ===== *)
(** * Ogx: the enclave device
    (devices/ogx/ogx.cpp, Enclave.cpp, ThreadPool.cpp)

    The guest sends encrypted requests that load a payload of native code into an
    enclave: memory of its own behind a protection key.  The worker threads of
    the virtio device put the payloads in the queue of a thread pool, its workers
    run them, and the thread of [GuestDevice::Execute] writes the encrypted
    responses into buffers of the guest.  What a payload does is the answer of
    the environment ([DPayload]): the memory behind its own key and a result. *)

From S2P Require Import Prelude Effects Libc Wire Device Virtio OgxEvent.

(** ** Exceptions and scoped locks *)

Definition try_catch {S A} (m h : dev_prog S A) : dev_prog S A := fun w =>
  match m w with
  | Fault Thrown w' => h w'
  | r => r
  end.

(** [std::lock_guard]: an exception releases the mutex, too. *)
Definition releasing {S A} (mu : dev_mutex) (m : dev_prog S A) : dev_prog S A := fun w =>
  match m w with
  | Ret a w' => (_ ← dunlock mu; mret a : dev_prog S A) w'
  | Fault Thrown w' => (_ ← dunlock mu; fail Thrown : dev_prog S A) w'
  | r => r
  end.
Definition lock_guard {S A} (mu : dev_mutex) (m : dev_prog S A) : dev_prog S A := dlock mu;; releasing mu m.

Definition VIRTIO_OGX_DEV := 25.
Definition MMIO_START := 0xefff0000.
Definition VQ_READ := 0.
Definition VQ_WRITE := 1.
Definition NUM_VQS := 2.
Definition READY_IRQ := 2.
Definition OGX_PUB_KEY_PATH : string := "devices-bin/ogx.pub".
Definition OGX_SEC_KEY_PATH : string := "devices-bin/ogx.sec".
Definition OGX_ENCLAVE_FLAG_PATH : string := "devices-bin/ogx_enclave_flag.bin".
Definition OGX_FLAG_PATH : string := "/flag".
Definition SIGILL := 4.
Definition SIGSEGV := 11.
Definition SEGV_PKUERR := 4.
Definition PROT_READ := 1.
Definition PROT_WRITE := 2.
Definition PROT_EXEC := 4.

(** Exactly [n] bytes. *)
Definition fit (n : Z) (l : bytes) : bytes := take (Z.to_nat n) ((u8 <$> l) ++ replicate (Z.to_nat n) 0).
Definition blank_region : bytes := replicate (Z.to_nat ENCLAVE_REGION_SIZE) 0.

(** ** Enclave.cpp *)

Record Enclave := Encl {
  e_id : Z;
  label_ : Z;
  code_ : bytes;
  data_ : bytes;
  stack_ : bytes;
  flag_ : option bytes;
  read_only : bool;   (* [code_] could not be made writable again *)
}.
#[export] Instance Enclave_eta : Settable Enclave := fun e =>
  Encl (e_id e) (label_ e) (code_ e) (data_ e) (stack_ e) (flag_ e) (read_only e).

(** [exit_] points there in [data_]. *)
Definition exit_offset := 0x1024.
Definition set_exit (v : Z) (e : Enclave) : Enclave := e <| data_ ::= fun d => blit d (Z.to_nat exit_offset) [v] |>.

(** A task of the thread pool: the payload of an enclave. *)
Record job := Job { j_task : positive; j_enclave : Z; j_code : bytes; j_data : bytes }.
(** A future that is not valid any more has no task. *)
Record future := Fut { f_id : Z; f_sender : bytes; f_task : option positive }.
#[export] Instance future_eta : Settable future := fun f => Fut (f_id f) (f_sender f) (f_task f).

Record GuestDevice := Gd {
  gd_base : vdev;
  pub_key_ : bytes;
  sec_key_ : bytes;
  enclaves_ : list Enclave;
  pool_ : nat;                               (* threads *)
  queue_ : list job;
  running : list job;                        (* taken by a worker *)
  entered : list job;                        (* in an enclave, whose mutex the worker holds *)
  next_task : positive;
  results : gmap positive (option bytes);    (* of finished tasks; [None] is an exception *)
  enclave_futures_ : list future;
  response_buffers_ : list VirtBuf;
  fault_addr : Z;
  fault_key : Z;
  unprivileged : bool;
}.
#[export] Instance GuestDevice_eta : Settable GuestDevice := fun d =>
  Gd (gd_base d) (pub_key_ d) (sec_key_ d) (enclaves_ d) (pool_ d) (queue_ d) (running d) (entered d) (next_task d) (results d)
    (enclave_futures_ d) (response_buffers_ d) (fault_addr d) (fault_key d) (unprivileged d).

Abbreviation ogx_prog := (dev_prog GuestDevice).
Abbreviation ogx_world := (dev_world GuestDevice).

Definition ogx_put_base (b : vdev) (d : GuestDevice) : GuestDevice := d <| gd_base := b |>.
Definition ogx_vdev {A} (m : vprog A) : ogx_prog A := zoom gd_base ogx_put_base m.

Definition get_enclave (i : nat) : ogx_prog Enclave :=
  d ← gets (fun d => d); get_or OutOfBounds (enclaves_ d !! i).
Definition set_enclave (i : nat) (f : Enclave -> Enclave) : ogx_prog unit :=
  modify (fun d => d <| enclaves_ ::= alter f i |>).

(** [memmem], as a test. *)
Fixpoint memmem (haystack needle : bytes) : bool :=
  bool_decide (needle `prefix_of` haystack) ||
  match haystack with
  | [] => false
  | _ :: haystack => memmem haystack needle
  end.

(** WRPKRU, SYSCALL, SYSENTER and INT 0x80 *)
Definition illegal_instructions : list bytes := [[0x0f; 0x01; 0xef]; [0x0f; 0x05]; [0x0f; 0x34]; [0xcd; 0x80]].

(** ** The handler of signals (ogx.cpp) *)

Definition signal_handler (info : siginfo_t) (d : GuestDevice) : GuestDevice :=
  let d := d <| fault_addr := si_addr info |> in
  if si_code info =? SEGV_PKUERR then d <| fault_key := si_pkey info |> else d.

Section Env.
Context {J : Type} `{!Json J} `{!Sodium} (env : dev_env) (fuel : nat).

(** The handler is installed for SIGSEGV only; other signals end the process.  So
    does a SIGSEGV whose handler has no stack to run on: the alternate stack is the
    one of the main thread, and the threads of the pool get the handler's frame on
    the stack of the payload.  The handler lets the payload go on at the address in
    its r13; what it does there is part of the same [payload_exit]. *)
Definition raised (info : siginfo_t) : ogx_prog unit :=
  if (si_signo info =? SIGSEGV) && si_frame info then modify (signal_handler info) else fail (Exited (128 + si_signo info)).

Definition map_region {S} : dev_prog S unit :=
  r ← dos env (DMmap ENCLAVE_REGION_SIZE (-1));
  if r <? 0 then fail Thrown else mret tt.
Definition label_region {S} (region : string) (prot label : Z) : dev_prog S unit :=
  r ← dos env (DPkey_mprotect region prot label);
  if negb (r =? 0) then fail Thrown else mret tt.

Definition new_Enclave {S} (id : Z) (flag_path : string) : dev_prog S Enclave :=
  c_assert (id <? NUM_ENCLAVES);;
  c_assert (Z.land ENCLAVE_REGION_SIZE 0xfff =? 0);;
  map_region;;   (* code_ *)
  map_region;;   (* data_ *)
  flag ← (if id =? 0 then
            fd ← dos env (DOpenFile (string_bytes flag_path) 0 0);
            if fd <? 0 then fail Thrown else
            m ← dos env (DMapFile fd);
            m ← get_or Thrown m;
            _ ← dos env (DClose fd);
            mret (Some (fit 4096 m))
          else mret None);
  map_region;;   (* stack_ *)
  map_region;;   (* trampoline_ *)
  label ← dos env DPkey_alloc;
  if label <? 0 then fail Thrown else
  label_region "code" (Z.lor PROT_READ PROT_WRITE) label;;
  label_region "data" (Z.lor PROT_READ PROT_WRITE) label;;
  label_region "stack" (Z.lor PROT_READ PROT_WRITE) label;;
  label_region "trampoline" (Z.lor PROT_READ PROT_EXEC) label;;
  mret (Encl id label blank_region blank_region blank_region flag false).

(** The code is made executable before, and writable after a payload. *)
Definition protect (i : nat) : ogx_prog unit :=
  r ← dos env (DMprotect i (Z.lor PROT_READ PROT_EXEC));
  if negb (r =? 0) then fail Thrown else mret tt.
Definition unprotect (i : nat) : ogx_prog unit :=
  r ← dos env (DMprotect i (Z.lor PROT_READ PROT_WRITE));
  if negb (r =? 0) then set_enclave i (fun e => e <| read_only := true |>);; fail Thrown else mret tt.

(** The trampoline: it refuses code that does not start with the mark "BBYOOOGX",
    and a return address that is not followed by the mark "OOOGXBBY", with an
    invalid instruction; nothing handles its signal.  A return that passes without
    being the one to the caller goes anywhere. *)
Definition ENTRY_EDGE := 0x58474f4f4f594242.
Definition RETURN_EDGE := 0x59424258474f4f4f.
Definition trampoline_enter (e : Enclave) : ogx_prog unit :=
  if le_val (take 8 (code_ e)) =? ENTRY_EDGE then mret tt else fail (Exited (128 + SIGILL)).
Definition trampoline_leave (x : payload_exit) : ogx_prog Z :=
  if negb (pe_edge x =? RETURN_EDGE) then fail (Exited (128 + SIGILL)) else
  if pe_home x then mret (pe_result x) else fail Escaped.

(** The call of the trampoline: the payload runs. *)
Definition invoke (i : nat) : ogx_prog Z :=
  e ← get_enclave i;
  trampoline_enter e;;
  x ← dos env (DPayload (label_ e) (code_ e) (data_ e) (stack_ e));
  set_enclave i (fun e => e <| data_ := fit ENCLAVE_REGION_SIZE (pe_data x) |> <| stack_ := fit ENCLAVE_REGION_SIZE (pe_stack x) |>);;
  for_each (pe_signals x) raised;;
  rax ← trampoline_leave x;
  mret (i32 rax).

(** A store to the region that is still executable faults in the device itself. *)
Definition load_code (i : nat) (code : bytes) : ogx_prog unit :=
  if ENCLAVE_REGION_SIZE <? length code then fail Thrown else
  e ← get_enclave i;
  if read_only e then fail Undefined else
  set_enclave i (fun e => e <| code_ := blit blank_region 0 code |>).

(** The flag of enclave 0 is put into its data, then the payload's data over it. *)
Definition put_data (x : bytes) (e : Enclave) : Enclave := e <| data_ ::= fun r => blit r 0 x |>.
Definition load_data (i : nat) (data : bytes) : ogx_prog unit :=
  if ENCLAVE_REGION_SIZE <? length data then fail Thrown else
  set_enclave i (fun e => put_data data (match flag_ e with Some f => put_data f e | None => e end)).

(** The search for forbidden instructions, from the second payload on. *)
Definition check_code (i : nat) : ogx_prog unit :=
  u ← gets unprivileged;
  (if (u : bool) then
     for_each illegal_instructions (fun needle =>
       e ← get_enclave i;
       if memmem (code_ e) needle then
         set_enclave i (fun e => e <| code_ := blank_region |>);;
         fail Thrown
       else mret tt)
   else mret tt).

(** [Execute] up to and after the check of the payload. *)
Definition Execute_load (i : nat) (code data : bytes) : ogx_prog unit :=
  load_code i code;;
  load_data i data;;
  check_code i.
Definition Execute_run (i : nat) : ogx_prog bytes :=
  modify (fun d => d <| unprivileged := true |>);;
  protect i;;
  set_enclave i (set_exit 0);;
  try_catch (
    exec_result ← invoke i;
    unprotect i;;
    e ← get_enclave i;
    result ← (if (0 <? exec_result) && (exec_result <? 128) then mret (take (Z.to_nat exec_result) (data_ e))
              else if exec_result <? 0 then fail Thrown
              else mret []);
    set_enclave i (fun e => e <| code_ := blank_region |> <| data_ := blank_region |> <| stack_ := blank_region |>);;
    mret result)
  (mret []).
Definition Enclave_Execute (i : nat) (code data : bytes) : ogx_prog bytes :=
  lock_guard (enclave_mutex i) (
    Execute_load i code data;;
    Execute_run i).

Definition Enclave_Stop (i : nat) : ogx_prog unit := set_enclave i (set_exit 1).

(** ** ThreadPool.cpp *)

Definition Init {S} (concurrency : nat) : dev_prog S unit :=
  for_each (seq 0 concurrency) (fun i => _ ← dos env (DThread_create (PoolWorker i)); mret tt).

Definition Schedule (enclave : Z) (code data : bytes) : ogx_prog positive :=
  d ← gets (fun d => d);
  c_assert (negb (pool_ d =? 0)%nat);;
  let task := next_task d in
  modify (fun d => d <| next_task := Pos.succ task |>);;
  lock_guard queue_mutex (modify (fun d => d <| queue_ ::= fun q => q ++ [Job task enclave code data] |>));;
  _ ← dos env DCond_signal;
  mret task.

(** [Worker]: a thread takes the next task and runs it.  Other threads take their
    turns between the two, and inside of [Execute] between the check of the
    payload and its run, for the flag [unprivileged] is not protected by a mutex.
    The mutex of an enclave is locked as long as a worker is in it.  An exception
    of the task ends up in its future. *)
Definition Worker_take : ogx_prog unit :=
  d ← gets (fun d => d);
  match queue_ d with
  | [] => fail Waits
  | j :: q => lock_guard queue_mutex (modify (fun d => d <| queue_ := q |> <| running ::= fun r => r ++ [j] |>))
  end.

Definition finish (t : positive) (r : option bytes) (d : GuestDevice) : GuestDevice :=
  d <| running ::= filter (fun x => j_task x <> t) |> <| entered ::= filter (fun x => j_task x <> t) |>
    <| results ::= <[t := r]> |>.
Definition enter_enclave (j : job) (d : GuestDevice) : GuestDevice :=
  d <| running ::= filter (fun x => j_task x <> j_task j) |> <| entered ::= fun l => l ++ [j] |>.

Definition Worker_enter (n : nat) : ogx_prog unit :=
  d ← gets (fun d => d);
  match running d !! n with
  | None => fail Waits
  | Some j =>
      let i := Z.to_nat (j_enclave j) in
      if existsb (fun x => (Z.to_nat (j_enclave x) =? i)%nat) (entered d) then fail Waits else
      ok ← try_catch (lock_guard (enclave_mutex i) (Execute_load i (j_code j) (j_data j));; mret true) (mret false);
      modify (if (ok : bool) then enter_enclave j else finish (j_task j) None)
  end.
Definition Worker_run (n : nat) : ogx_prog unit :=
  d ← gets (fun d => d);
  match entered d !! n with
  | None => fail Waits
  | Some j =>
      let i := Z.to_nat (j_enclave j) in
      r ← try_catch (v ← lock_guard (enclave_mutex i) (Execute_run i); mret (Some v)) (mret None);
      modify (finish (j_task j) r)
  end.

(** ** ogx.cpp *)

Definition OnLoadEvent (sender : bytes) (id : Z) (code data : bytes) : ogx_prog unit :=
  lock_guard device_mutex (
    d ← gets (fun d => d);
    if length (enclaves_ d) <=? id then fail Thrown else
    task ← Schedule id code data;
    modify (fun d => d <| enclave_futures_ ::= fun l => l ++ [Fut id sender (Some task)] |>)).

(** [message_size] is not initialised, and the errors of [readU] are not looked at. *)
Definition ReadDriverMessage (buffer : VirtBuf) : ogx_prog (Z * VirtBuf) :=
  raw ← dos env (DNew 2);
  r ← ogx_vdev (readU buffer 2);
  let message_size := match r.1 with Some b => le_val b | None => u16 (le_val raw) end in
  let buffer := r.2 in
  r ← ogx_vdev (readU buffer message_size);
  let message := match r.1 with Some b => b | None => replicate (Z.to_nat message_size) 0 end in
  let buffer := r.2 in
  ret ← try_catch (
    d ← gets (fun d => d);
    x ← get_or Thrown (Decrypt (sec_key_ d) message);
    match x.2 with
    | LoadEvent id code data => OnLoadEvent x.1 id code data;; mret 0
    | ResponseEvent _ _ => mret 0
    end) (mret 1);
  mret (ret, buffer).

Definition ogx_got_data (vq_idx : Z) : ogx_prog Z :=
  if vq_idx =? VQ_READ then
    lock_guard device_mutex (
      loop fuel (fun _ : unit =>
        buffer ← ogx_vdev (get_buf env vq_idx);
        match buffer with
        | None => mret (inr 0)
        | Some b => modify (fun d => d <| response_buffers_ ::= fun l => l ++ [b] |>);; mret (inl tt)
        end) tt)
  else if vq_idx =? VQ_WRITE then
    loop fuel (fun ret =>
      buffer ← ogx_vdev (get_buf env vq_idx);
      match buffer with
      | None => mret (inr ret)
      | Some b =>
          x ← ReadDriverMessage b;
          ret ← ogx_vdev (put_buf vq_idx x.2);
          if ret =? 0 then mret (inr ret) else mret (inl ret)
      end) 0
  else mret 0.

(** The configuration space is empty, so [config_space_read] is never asked for a byte. *)
#[export] Instance GuestDevice_virtio : VirtioDevice GuestDevice := {
  base := gd_base;
  set_base := ogx_put_base;
  got_data := ogx_got_data;
  config_space_write _ _ _ := mret (-1);
}.

(** The first enclave that is blamed for a fault. *)
Definition blamed (d : GuestDevice) : option nat :=
  fst <$> list_find (fun e =>
    (if negb (fault_key d =? 0) then u32 (label_ e) =? fault_key d else u64 (label_ e) =? fault_addr d) = true) (enclaves_ d).

Definition check_fault : ogx_prog unit :=
  d ← gets (fun d => d);
  if fault_addr d =? 0 then mret tt else
  lock_guard device_mutex (
    d ← gets (fun d => d);
    match blamed d with
    | Some i => Enclave_Stop i
    | None => mret tt
    end;;
    modify (fun d => d <| fault_addr := 0 |> <| fault_key := 0 |>)).

(** The body of the loop over the futures; [Some] is [break]. *)
Definition respond (i : nat) : ogx_prog (option unit) :=
  d ← gets (fun d => d);
  match response_buffers_ d with
  | [] => mret (Some tt)
  | buffer :: buffers =>
  f ← get_or OutOfBounds (enclave_futures_ d !! i);
  match t ← f_task f; results d !! t with
  | None => mret None   (* not valid, or not ready *)
  | Some r =>
  modify (fun d => d <| enclave_futures_ ::= alter (fun f => f <| f_task := None |>) i |>);;   (* get() *)
  response ← get_or Thrown r;
  let event_data := Serialize (ResponseEvent (u32 (f_id f)) response) in
  nonce ← dos env (DRandombytes crypto_box_NONCEBYTES);
  ciphertext ← get_or Thrown (Encrypt (fit crypto_box_NONCEBYTES nonce) (pub_key_ d) (sec_key_ d) (f_sender f) event_data);
  modify (fun d => d <| response_buffers_ := buffers |>);;
  _ ← ogx_vdev (vb_write buffer 0 (le_bytes 2 (length ciphertext)));
  _ ← ogx_vdev (vb_write buffer 2 ciphertext);
  _ ← ogx_vdev (put_buf VQ_READ buffer);
  _ ← ogx_vdev (send_irq env READY_IRQ);
  mret None
  end
  end.

(** An iteration of the loop of [GuestDevice::Execute]. *)
Definition Execute_step : ogx_prog unit :=
  check_fault;;
  try_catch (
    lock_guard device_mutex (
      d ← gets (fun d => d);
      for_until (seq 0 (length (enclave_futures_ d))) respond;;
      modify (fun d => d <| enclave_futures_ ::= filter (fun f => is_Some (f_task f)) |>)))
    (mret tt).

(** The constructor.  [raw_vendor] and [memory] are as for the base class. *)
Definition new_GuestDevice {S} (raw_vendor : Z) (memory pub_key sec_key : bytes) (flag_path : string) : dev_prog S GuestDevice :=
  let b := new_MMIOVirtioDev 0 raw_vendor memory MMIO_START NUM_VQS in
  c_assert (length pub_key =? crypto_box_PUBLICKEYBYTES);;
  c_assert (length sec_key =? crypto_box_SECRETKEYBYTES);;
  let b := b <| m_device_id := VIRTIO_OGX_DEV |> <| m_device_features := 0 |> <| m_config_space_size := 0 |> in
  es ← mapM (fun i : nat => new_Enclave i flag_path) (seq 0 (Z.to_nat NUM_ENCLAVES));
  Init 4;;
  mret (Gd b pub_key sec_key es 4 [] [] [] 1 ∅ [] [] 0 0 false).

Definition ReadFile {S} (path : string) : dev_prog S bytes :=
  r ← dos env (DReadFile path); mret (u8 <$> r).

(** [main] up to the start of its threads; [None] is the return of 1. *)
Definition ogx_main (raw_vendor : Z) (memory : bytes) : dev_prog unit (option GuestDevice) :=
  r ← dos env DSigaltstack;
  if negb (r =? 0) then fail Thrown else
  try_catch (
    ogx_pub ← ReadFile OGX_PUB_KEY_PATH;
    ogx_sec ← ReadFile OGX_SEC_KEY_PATH;
    flag_enclave ← ReadFile OGX_ENCLAVE_FLAG_PATH;
    device ← new_GuestDevice raw_vendor memory ogx_pub ogx_sec OGX_FLAG_PATH;
    match make_LoadEvent 0 flag_enclave [] with
    | Some (LoadEvent id code data) =>
        w ← with_locals device (OnLoadEvent ogx_pub id code data;; gets (fun d => d));
        _ ← dos env (DThread_create EnclaveThread);
        mret (Some w)
    | _ => fail Thrown
    end) (mret None).
End Env.
