(* ===== verification/OgxSafe.v ===== *)
(** * OgxSafe: the threads of the enclave device keep its invariant

    A logic for programs that throw and catch exceptions, the invariant of the
    device, and that every operation of every thread keeps it, releases its
    mutexes and runs no forbidden payload once the device is unprivileged. *)

From S2P Require Import Prelude Effects Libc Wire Device Virtio VirtioExec VirtioSafe OgxEvent Ogx.

(** ** Programs with exceptions

    [wpo ok m Q E w]: [m] ends in [Q], throws an exception in [E], or stops in one
    of the ways that [ok] accepts.  [wpx] is the one for threads that may wait,
    leave the process or go on for ever, [wpe] the one for code that does not. *)

Definition wpo {S A} (ok : fault -> bool) (m : dev_prog S A) (Q : A -> dev_world S -> Prop) (E : dev_world S -> Prop) (w : dev_world S) : Prop :=
  match m w with
  | Ret a w' => Q a w'
  | Fault Thrown w' => E w'
  | Fault f _ => ok f = true
  end.
Abbreviation wpx := (wpo Effects.stops).
Abbreviation wpe := (wpo (fun _ => false)).

Section Wpx.
Context {S : Type} {ok : fault -> bool}.
Implicit Types (w : dev_world S).

Lemma wpx_wp {A} (m : dev_prog S A) Q E w : wp m Q w -> wpo ok m Q E w.
Proof. unfold wp, wpo. by destruct (m w). Qed.

Lemma wpx_throw {A} (Q : A -> dev_world S -> Prop) (E : dev_world S -> Prop) w : E w -> wpo ok (fail Thrown) Q E w.
Proof. done. Qed.

Lemma wpx_bind {A B} (m : dev_prog S A) (k : A -> dev_prog S B) Q E w :
  wpo ok m (fun a w' => wpo ok (k a) Q E w') E w -> wpo ok (m ≫= k) Q E w.
Proof. unfold wpo, mbind, prog_bind. by destruct (m w) as [|[] ?]. Qed.

Lemma wpx_mono {A} (m : dev_prog S A) (Q Q' : A -> dev_world S -> Prop) (E E' : dev_world S -> Prop) w :
  wpo ok m Q E w -> (forall a w', Q a w' -> Q' a w') -> (forall w', E w' -> E' w') -> wpo ok m Q' E' w.
Proof. unfold wpo. destruct (m w) as [|[] ?]; auto. Qed.

(** What is caught is not an exception any more. *)
Lemma wpx_try {A} (m h : dev_prog S A) Q E w :
  wpo ok m Q (fun w' => wpo ok h Q E w') w -> wpo ok (try_catch m h) Q E w.
Proof. unfold wpo, try_catch. by destruct (m w) as [|[] ?]. Qed.

(** A mutex is released on both ways out. *)
Lemma wpx_lock_guard {A} (mu : dev_mutex) (m : dev_prog S A) Q (E : dev_world S -> Prop) w :
  mu ∉ (w_held w : list dev_mutex) ->
  wpo ok m (fun a w' => w_held w' = mu :: w_held w /\ Q a (w' <| w_held := w_held w |>))
    (fun w' => w_held w' = mu :: w_held w /\ E (w' <| w_held := w_held w |>)) (w <| w_held ::= cons (mu : mutex dev_iface) |>) ->
  wpo ok (lock_guard mu m) Q E w.
Proof.
  intros Hmu Hm. unfold lock_guard. apply wpx_bind, wpx_wp, wp_dlock; [done|]. unfold wpo, releasing in *.
  set (w1 := w <| w_held ::= _ |>) in *.
  assert (forall B (k : dev_prog S B) w', w_held w' = mu :: w_held w ->
    (_ ← dunlock mu; k : dev_prog S B) w' = k (w' <| w_held := w_held w |>)) as Hu.
  { intros B k w' E'. unfold mbind, prog_bind, dunlock, unlock. rewrite decide_True by (rewrite E'; left).
    f_equal. destruct w'. simpl in *. unfold set_field. simpl. f_equal. rewrite E', filter_cons_False by tauto.
    by apply (filter_ne_id (I := dev_iface)). }
  destruct (m w1) as [a w'|[] w']; try done; destruct Hm as [Hh HQ]; by rewrite Hu.
Qed.

Lemma wpx_for_each {A} (l : list A) (body : A -> dev_prog S unit) (J E : dev_world S -> Prop) w :
  (forall x w', x ∈ l -> J w' -> wpo ok (body x) (fun _ => J) E w') -> J w -> wpo ok (for_each l body) (fun _ => J) E w.
Proof.
  revert w. induction l as [|x l IH]; intros w Hb HJ; [by apply wpx_wp, wp_ret|].
  cbn [for_each]. apply wpx_bind. eapply wpx_mono; [apply Hb; [left|done]| |done].
  intros [] w' HJ'. apply IH; [|done]. intros y w2 Hy. apply Hb. by right.
Qed.

Lemma wpx_for_until {A B} (l : list A) (body : A -> dev_prog S (option B)) (J E : dev_world S -> Prop) w :
  (forall x w', x ∈ l -> J w' -> wpo ok (body x) (fun _ => J) E w') -> J w -> wpo ok (for_until l body) (fun _ => J) E w.
Proof.
  revert w. induction l as [|x l IH]; intros w Hb HJ; [by apply wpx_wp, wp_ret|].
  cbn [for_until]. apply wpx_bind. eapply wpx_mono; [apply Hb; [left|done]| |done].
  intros [b|] w' HJ'; [by apply wpx_wp, wp_ret|]. apply IH; [|done]. intros y w2 Hy. apply Hb. by right.
Qed.

End Wpx.

Section Runs.
Context {S : Type}.
Implicit Types (w : dev_world S).

Lemma wpo_upto {A} ok (m : dev_prog S A) Q w : wpo ok m Q (fun _ => False) w -> upto ok m Q w.
Proof. unfold wpo, upto. by destruct (m w) as [|[] ?]. Qed.
Lemma wpx_safe {A} (m : dev_prog S A) Q w : wpx m Q (fun _ => False) w -> safe m Q w.
Proof. unfold wpo, safe, upto. by destruct (m w) as [|[] ?]. Qed.

Lemma wpx_loop {A B} (J : A -> dev_world S -> Prop) (Q : B -> dev_world S -> Prop) E fuel (body : A -> dev_prog S (A + B)) a w :
  (forall a w, J a w -> wpx (body a) (fun r w' => match r with inl a' => J a' w' | inr b => Q b w' end) E w) ->
  J a w -> wpx (loop fuel body a) Q E w.
Proof.
  intros Hb. revert a w. induction fuel as [|fuel IH]; intros a w HJ; [done|].
  cbn [loop]. apply wpx_bind. eapply wpx_mono; [by apply Hb| |done]. intros [a'|b] w' HJ'; [by apply IH|by apply wpx_wp, wp_ret].
Qed.

Lemma wpe_wp {A} (m : dev_prog S A) Q w : wpe m Q (fun _ => False) w -> wp m Q w.
Proof. unfold wpo, wp. by destruct (m w) as [|[] ?]. Qed.
End Runs.

Implicit Types (d : GuestDevice) (w : ogx_world) (e : Enclave) (j : job) (f : future) (b : VirtBuf).

(** ** The invariant *)

Definition region_ok (r : bytes) : Prop := Z.of_nat (length r) = ENCLAVE_REGION_SIZE /\ is_bytes r.
Record enclave_ok e : Prop := {
  en_code : region_ok (code_ e);
  en_data : region_ok (data_ e);
  en_stack : region_ok (stack_ e);
  en_flag : forall fl, flag_ e = Some fl -> length fl = 4096%nat /\ is_bytes fl;
  en_writable : read_only e = false;
}.
Definition job_ok j : Prop := event_ok (LoadEvent (j_enclave j) (j_code j) (j_data j)).
Definition key_ok (k : bytes) : Prop := Z.of_nat (length k) = crypto_box_PUBLICKEYBYTES /\ is_bytes k.

(** The tasks that are not done. *)
Definition pending d : list job := queue_ d ++ running d ++ entered d.

(** The future of a task that is not lost: it waits, runs or has a result. *)
Definition task_known d f : Prop := forall t, f_task f = Some t ->
  t ∈ j_task <$> pending d \/ is_Some (results d !! t).

Record ogx_ok d : Prop := {
  og_base : vdev_ok (gd_base d);
  og_start : m_mmio_start (gd_base d) = MMIO_START;
  og_pub : key_ok (pub_key_ d);
  og_sec : Z.of_nat (length (sec_key_ d)) = crypto_box_SECRETKEYBYTES;
  og_encl : Z.of_nat (length (enclaves_ d)) = NUM_ENCLAVES;
  og_encls : Forall enclave_ok (enclaves_ d);
  og_pool : pool_ d <> 0%nat;
  og_jobs : Forall job_ok (pending d);
  og_results : map_Forall (fun _ r => forall v, r = Some v -> is_bytes v /\ length v < 128) (results d);
  og_senders : Forall (fun f => key_ok (f_sender f)) (enclave_futures_ d);
  og_tasks : Forall (task_known d) (enclave_futures_ d);
}.

(** A payload without the forbidden instructions. *)
Definition clean_code (code : bytes) : Prop := Forall (fun needle => memmem code needle = false) illegal_instructions.
Definition clean_call (c : dev_call) : Prop :=
  match c with DPayload _ code _ _ => clean_code code | _ => True end.

(** The device is unprivileged, and the payloads that passed the check before
    have no forbidden instruction either. *)
Definition quiet d : Prop := unprivileged d = true /\
  Forall (fun j => forall e, enclaves_ d !! Z.to_nat (j_enclave j) = Some e -> clean_code (code_ e)) (entered d).

(** Between two worlds of a run: once the device is quiet, it stays so, and only
    clean payloads are run. *)
Definition filtered w w' : Prop := quiet (w_st w) ->
  quiet (w_st w') /\ exists tr, (w_trace w' : list dev_call) = (w_trace w : list dev_call) ++ tr /\ Forall clean_call tr.

Definition kept w w' : Prop := ogx_ok (w_st w') /\ w_held w' = w_held w /\ filtered w w'.

Lemma filtered_refl w : filtered w w.
Proof. intros Hu. split; [done|]. exists []. by rewrite app_nil_r. Qed.

Lemma filtered_trans w1 w2 w3 : filtered w1 w2 -> filtered w2 w3 -> filtered w1 w3.
Proof.
  intros H1 H2 Hu. destruct (H1 Hu) as (Hu2 & t1 & E1 & F1). destruct (H2 Hu2) as (Hu3 & t2 & E2 & F2). split; [done|].
  exists (t1 ++ t2). split; [by rewrite E2, E1, app_assoc|by apply Forall_app].
Qed.

Lemma kept_refl w : ogx_ok (w_st w) -> kept w w.
Proof. intros Hd. split_and!; [done|done|apply filtered_refl]. Qed.

Lemma kept_trans w1 w2 w3 : kept w1 w2 -> kept w2 w3 -> kept w1 w3.
Proof. intros (? & Hh & ?) (? & Hh' & ?). split_and!; [done|by rewrite Hh'|by eapply filtered_trans]. Qed.

Lemma kept_ok w w' : kept w w' -> ogx_ok (w_st w').
Proof. by intros []. Qed.

(** ** Steps *)

Lemma kept_then {ok A B} w0 w (m : ogx_prog A) (k : A -> ogx_prog B) (P : A -> Prop) Q E :
  kept w0 w -> wpo ok m (fun a w' => kept w w' /\ P a) E w ->
  (forall a w', kept w0 w' -> P a -> wpo ok (k a) Q E w') -> wpo ok (m ≫= k) Q E w.
Proof.
  intros Hk Hm Hc. apply wpx_bind. eapply wpx_mono; [exact Hm| |done].
  intros a w' [Hw HP]. apply Hc; [by eapply kept_trans|done].
Qed.

Lemma kept_ret {ok A} (a : A) w0 w : kept w0 w -> wpo ok (mret a) (fun _ => kept w0) (kept w0) w.
Proof. intros Hk. by apply wpx_wp, wp_ret. Qed.
Lemma kept_throw {A} (Q : A -> ogx_world -> Prop) w0 w : kept w0 w -> wpx (fail Thrown) Q (kept w0) w.
Proof. done. Qed.

Lemma kept_modify (g : GuestDevice -> GuestDevice) w0 w : kept w0 w ->
  (quiet (w_st w) -> quiet (g (w_st w))) -> ogx_ok (g (w_st w)) ->
  kept w0 (w <| w_st ::= g |>).
Proof.
  intros Hk Hu Hg. eapply kept_trans; [exact Hk|]. split_and!; [done|done|]. intros Hp. split; [by apply Hu|].
  exists []. by rewrite app_nil_r.
Qed.

Lemma kept_call c w0 w : kept w0 w -> (quiet (w_st w0) -> clean_call c) ->
  kept w0 (w <| w_trace := w_trace w ++ [c : call dev_iface] |>).
Proof.
  intros (Hd & Hh & Hf) Hc. split_and!; [done|done|]. intros Hp. destruct (Hf Hp) as (Hu & tr & E & F). split; [done|].
  exists (tr ++ [c]). simpl. split; [by rewrite E, app_assoc|]. apply Forall_app. split; [done|]. constructor; [by apply Hc|done].
Qed.

Lemma kept_lock {ok A} (mu : dev_mutex) (m : ogx_prog A) (P : A -> Prop) w0 w : kept w0 w -> mu ∉ (w_held w : list dev_mutex) ->
  (forall w1, ogx_ok (w_st w1) -> w_held w1 = mu :: w_held w -> w_st w1 = w_st w ->
     wpo ok m (fun a w' => kept w1 w' /\ P a) (kept w1) w1) ->
  wpo ok (lock_guard mu m) (fun a w' => kept w0 w' /\ P a) (kept w0) w.
Proof.
  intros Hk Hmu Hm. apply wpx_lock_guard; [done|]. set (w1 := w <| w_held ::= _ |>).
  assert (forall w', kept w1 w' -> w_held w' = mu :: w_held w /\ kept w0 (w' <| w_held := w_held w |>)) as H.
  { intros w' (Hd & Hh & Hf). split; [exact Hh|]. eapply kept_trans; [exact Hk|]. split_and!; [done|done|exact Hf]. }
  eapply wpx_mono; [apply (Hm w1); [apply Hk|done|done]| |by apply H]. intros a w' [Hk' HP]. by destruct (H _ Hk').
Qed.

(** ** The base class *)

Lemma ogx_ok_base v d : ogx_ok d -> vdev_ok v -> fixed_part v = fixed_part (gd_base d) -> ogx_ok (ogx_put_base v d).
Proof. intros [] Hv E. injection E as E _ _. constructor; try done. by rewrite <- og_start0. Qed.

(** A program of the base class that makes harmless calls. *)
Lemma kept_vdev {A} (m : vprog A) (P : A -> Prop) E w0 w : kept w0 w ->
  wp m (fun a (w' : vworld) => (vdev_ok (w_st w') /\ fixed_part (w_st w') = fixed_part (gd_base (w_st w)) /\ w_held w' = w_held w /\
    exists tr, (w_trace w' : list dev_call) = (w_trace w : list dev_call) ++ tr /\ Forall clean_call tr) /\ P a) (zoom_world gd_base w) ->
  wpx (ogx_vdev m) (fun a w' => kept w0 w' /\ P a) E w.
Proof.
  intros Hk Hm. apply wpx_wp, wp_zoom. eapply wp_mono; [exact Hm|]. intros a w' ((Hv & Hs & Hh & Ht) & HP). split; [|done].
  eapply kept_trans; [exact Hk|]. split_and!; [apply ogx_ok_base; [apply Hk|done..]|done|]. intros Hp. by split.
Qed.

Lemma no_calls (t : list dev_call) : exists tr, t = t ++ tr /\ Forall clean_call tr.
Proof. exists []. by rewrite app_nil_r. Qed.
Lemma one_call (t : list dev_call) c : clean_call c -> exists tr, t ++ [c] = t ++ tr /\ Forall clean_call tr.
Proof. intros Hc. exists [c]. split; [done|]. by constructor. Qed.

Lemma kept_get_buf env i E w0 w : kept w0 w -> 0 <= i ->
  wpx (ogx_vdev (get_buf env i)) (fun r w' => kept w0 w' /\ forall b, r = Some b -> in_width 64 (vb_guest_addr b) /\ in_width 64 (vb_head b)) E w.
Proof.
  intros Hk Hi. apply kept_vdev; [done|]. pose proof (og_base _ (kept_ok _ _ Hk)) as Hv. apply get_buf_exec; [done|done| |].
  - intros _. split; [|done]. split_and!; [done..|]. apply no_calls.
  - intros Ho junk. split.
    + split_and!; [apply vdev_ok_consumed; [done|split; [done|apply Ho]]|done|done|]. by apply one_call.
    + intros b [= <-]. simpl. by split; apply (field_width _ 0 8).
Qed.

Lemma kept_put_buf i b E w0 w : kept w0 w -> 0 <= i ->
  wpx (ogx_vdev (put_buf i b)) (fun r w' => kept w0 w' /\ True) E w.
Proof.
  intros Hk Hi. apply kept_vdev; [done|]. pose proof (og_base _ (kept_ok _ _ Hk)) as Hv. apply put_buf_exec; [done|done| |]; intros Hr; split; try done.
  - split_and!; [done..|]. apply no_calls.
  - split_and!; [by apply vdev_ok_returned|done|done|]. apply no_calls.
Qed.

Lemma kept_mm_write a data E w0 w : kept w0 w -> in_width 64 a -> in_width 64 (length data) -> is_bytes data ->
  wpx (ogx_vdev (mm_write a data)) (fun r w' => kept w0 w' /\ True) E w.
Proof.
  intros Hk Ha Hl Hb. apply kept_vdev; [done|]. pose proof (og_base _ (kept_ok _ _ Hk)) as Hv.
  apply wp_mm_write; [apply Hv|done|done| |]; intros Hr; split; try done.
  - split_and!; [by apply vdev_ok_store|done|done|]. apply no_calls.
  - split_and!; [done..|]. apply no_calls.
Qed.

Lemma kept_readU b size E w0 w : kept w0 w -> in_width 64 (vb_head b) -> in_width 64 size ->
  wpx (ogx_vdev (readU b size)) (fun r w' => kept w0 w' /\ in_width 64 (vb_head r.2) /\ forall x, r.1 = Some x -> is_bytes x /\ length x <= size) E w.
Proof.
  intros Hk Ha Hl. apply kept_vdev; [done|]. pose proof (og_base _ (kept_ok _ _ Hk)) as Hv. unfold readU.
  apply wp_bind, wp_mm_read; [apply Hv|done|done| |]; intros Hr; apply wp_ret; (split; [split_and!; [done..|apply no_calls]|]); simpl.
  - split; [apply wrap_range; lia|]. intros x [= <-]. split; [apply Forall_take, Forall_drop, (vd_mem _ Hv)|].
    unfold guest_bytes, load. rewrite length_take. unfold in_width in Hl. lia.
  - done.
Qed.

(** ** Enclaves *)

Lemma blank_region_ok : region_ok blank_region.
Proof.
  split; [unfold blank_region; rewrite length_replicate; unfold ENCLAVE_REGION_SIZE; lia|].
  apply Forall_replicate. unfold in_width. lia.
Qed.

Lemma region_blit r off x : region_ok r -> is_bytes x -> Z.of_nat (off + length x) <= ENCLAVE_REGION_SIZE -> region_ok (blit r off x).
Proof. intros [Hl Hb] Hx Ho. split; [rewrite length_blit; lia|apply is_bytes_blit; [lia|done..]]. Qed.

Lemma fit_length n l : 0 <= n -> Z.of_nat (length (fit n l)) = n.
Proof. intros Hn. unfold fit. rewrite length_take, length_app, length_replicate. lia. Qed.
Lemma fit_bytes n l : is_bytes (fit n l).
Proof.
  apply Forall_take, Forall_app. split; [|apply Forall_replicate; unfold in_width; lia].
  apply Forall_fmap, Forall_true. intros x. unfold compose. apply wrap_range. lia.
Qed.
Lemma fit_region l : region_ok (fit ENCLAVE_REGION_SIZE l).
Proof. split; [by apply fit_length|apply fit_bytes]. Qed.

#[local] Hint Resolve blank_region_ok fit_region en_code en_data en_stack en_flag en_writable : enclave.

Lemma set_exit_ok v e : in_width 8 v -> enclave_ok e -> enclave_ok (set_exit v e).
Proof.
  intros Hv He. constructor; simpl; eauto with enclave. unfold set_field. apply region_blit; [apply He|by constructor|]. simpl.
  unfold exit_offset, ENCLAVE_REGION_SIZE. lia.
Qed.

Lemma ogx_ok_alter g i d : ogx_ok d -> (forall e, enclave_ok e -> enclave_ok (g e)) -> ogx_ok (d <| enclaves_ ::= alter g i |>).
Proof.
  intros [] Hg. constructor; try done; simpl; unfold set_field.
  - by rewrite length_alter.
  - apply Forall_alter; [done|]. intros e _. apply Hg.
Qed.

(** No worker is in the enclave [i]. *)
Definition apart (i : nat) d : Prop := Forall (fun j => Z.to_nat (j_enclave j) <> i) (entered d).

Lemma quiet_alter g i d : (forall e, clean_code (code_ e) -> clean_code (code_ (g e))) \/ apart i d ->
  quiet d -> quiet (d <| enclaves_ ::= alter g i |>).
Proof.
  intros Hg [Hu Hq]. split; [done|]. simpl. unfold set_field. apply Forall_forall. intros j Hj e'. rewrite Forall_forall in Hq.
  destruct (decide (Z.to_nat (j_enclave j) = i)) as [<-|Hn]; [|rewrite list_lookup_alter_ne by done; by apply Hq].
  rewrite list_lookup_alter_eq. destruct (enclaves_ d !! _) as [e|] eqn:Ee; [|done]. intros [= <-].
  destruct Hg as [Hg|Ha]; [apply Hg; by eapply Hq|]. by eapply Forall_forall in Ha.
Qed.

Lemma kept_set_enclave {ok} i g w0 w : kept w0 w -> (forall e, enclave_ok e -> enclave_ok (g e)) ->
  (forall e, clean_code (code_ e) -> clean_code (code_ (g e))) \/ apart i (w_st w) ->
  wpo ok (set_enclave i g) (fun _ w' => kept w0 w' /\ enclaves_ (w_st w') = alter g i (enclaves_ (w_st w)) /\
    unprivileged (w_st w') = unprivileged (w_st w) /\ entered (w_st w') = entered (w_st w)) (kept w0) w.
Proof.
  intros Hk Hg Hc. apply wpx_wp, wp_modify. split; [|done]. apply kept_modify; [done|by apply quiet_alter|]. apply ogx_ok_alter; [apply Hk|done].
Qed.

Lemma clean_blank : clean_code blank_region.
Proof. unfold clean_code. apply (bool_decide_unpack _). vm_compute. exact I. Qed.

Lemma enclave_lookup i d : ogx_ok d -> Z.of_nat i < NUM_ENCLAVES -> exists e, enclaves_ d !! i = Some e /\ enclave_ok e.
Proof.
  intros Hd Hi. destruct (lookup_lt_is_Some_2 (enclaves_ d) i) as [e He]; [pose proof (og_encl _ Hd); lia|].
  exists e. split; [done|]. apply (proj1 (Forall_lookup _ _) (og_encls _ Hd) _ _ He).
Qed.

Lemma wp_get_enclave i (Q : Enclave -> ogx_world -> Prop) w : ogx_ok (w_st w) -> Z.of_nat i < NUM_ENCLAVES ->
  (forall e, enclaves_ (w_st w) !! i = Some e -> enclave_ok e -> Q e w) -> wp (get_enclave i) Q w.
Proof.
  intros Hd Hi HQ. destruct (enclave_lookup i _ Hd Hi) as (e & Ee & He). unfold get_enclave. wp_go. eapply wp_get_or; [exact Ee|].
  by apply HQ.
Qed.

(** ** The queues of the pool *)

(** A change of the pool keeps the invariant when it invents no task and loses none. *)
Lemma ogx_ok_pool d d' : ogx_ok d -> Forall job_ok (pending d') ->
  map_Forall (fun _ r => forall v, r = Some v -> is_bytes v /\ length v < 128) (results d') ->
  (forall t, t ∈ j_task <$> pending d \/ is_Some (results d !! t) -> t ∈ j_task <$> pending d' \/ is_Some (results d' !! t)) ->
  (gd_base d', pub_key_ d', sec_key_ d', enclaves_ d', pool_ d', enclave_futures_ d') =
  (gd_base d, pub_key_ d, sec_key_ d, enclaves_ d, pool_ d, enclave_futures_ d) -> ogx_ok d'.
Proof.
  intros [] Hj Hr Ht [= E1 E2 E3 E4 E5 E6]. constructor; rewrite ?E1, ?E2, ?E3, ?E4, ?E5, ?E6; try done.
  eapply Forall_impl; [exact og_tasks0|]. intros f Hf t Et. apply Ht, (Hf t Et).
Qed.

Lemma ogx_ok_enqueue d x : ogx_ok d -> job_ok x -> ogx_ok (d <| queue_ ::= fun q => q ++ [x] |>).
Proof.
  intros Hd Hx. apply (ogx_ok_pool d); [done| |apply Hd| |done]; unfold pending; simpl; unfold set_field; rewrite <-app_assoc.
  - pose proof (og_jobs _ Hd) as Hj. apply Forall_app in Hj as [? ?]. apply Forall_app. split; [done|]. by constructor.
  - intros t [Hin|]; [left|by right]. revert Hin. rewrite !fmap_app, !elem_of_app. tauto.
Qed.

Lemma ogx_ok_take d x q : ogx_ok d -> queue_ d = x :: q -> ogx_ok (d <| queue_ := q |> <| running ::= fun r => r ++ [x] |>).
Proof.
  intros Hd Eq. pose proof (og_jobs _ Hd) as Hj. apply (ogx_ok_pool d); [done| |apply Hd| |done]; unfold pending in *; simpl; unfold set_field; rewrite Eq in *; simpl in *.
  - inversion_clear Hj as [|? ? Hx Hr]. rewrite !Forall_app in *. destruct Hr as (? & ? & ?). split_and!; [done..|by constructor|done].
  - intros t [Hin|]; [left|by right]. revert Hin. rewrite !fmap_app, elem_of_cons, !elem_of_app. simpl. rewrite list_elem_of_singleton. tauto.
Qed.

(** Tasks other than [t] stay where they are. *)
Lemma others_stay (l : list job) t u : u <> t -> u ∈ j_task <$> l -> u ∈ j_task <$> filter (fun x => j_task x <> t) l.
Proof.
  intros Hn Hu. apply list_elem_of_fmap in Hu as (x & -> & Hx). apply list_elem_of_fmap. exists x. split; [done|]. by apply list_elem_of_filter.
Qed.
Lemma filter_jobs_ok (l : list job) t : Forall job_ok l -> Forall job_ok (filter (fun x => j_task x <> t) l).
Proof. rewrite !Forall_forall. intros Hl x [_ Hx]%list_elem_of_filter. by apply Hl. Qed.

Lemma ogx_ok_finish d t r : ogx_ok d -> (forall v, r = Some v -> is_bytes v /\ length v < 128) -> ogx_ok (finish t r d).
Proof.
  intros Hd Hr. pose proof (og_jobs _ Hd) as Hj. apply (ogx_ok_pool d); [done| | | |done]; unfold pending, finish in *; simpl; unfold set_field; simpl.
  - rewrite !Forall_app in *. destruct Hj as (? & ? & ?). split_and!; [done|by apply filter_jobs_ok..].
  - apply map_Forall_insert_2; [done|apply Hd].
  - intros u Hu. destruct (decide (u = t)) as [->|Hn]; [right; rewrite lookup_insert_eq; by eexists|].
    destruct Hu as [Hin|Hs]; [left|right; by rewrite lookup_insert_ne]. revert Hin. rewrite !fmap_app, !elem_of_app.
    intros [Hin|[Hin|Hin]]; [by left|right; left|right; right]; by apply others_stay.
Qed.

Lemma ogx_ok_enter d x : ogx_ok d -> job_ok x -> ogx_ok (enter_enclave x d).
Proof.
  intros Hd Hx. pose proof (og_jobs _ Hd) as Hj. apply (ogx_ok_pool d); [done| |apply Hd| |done]; unfold pending, enter_enclave in *; simpl; unfold set_field; simpl.
  - rewrite !Forall_app in *. destruct Hj as (? & ? & ?). split_and!; [done|by apply filter_jobs_ok|done|by constructor].
  - intros u [Hin|]; [left|by right]. revert Hin. rewrite !fmap_app, !elem_of_app. simpl. rewrite list_elem_of_singleton.
    destruct (decide (u = j_task x)) as [->|Hn]; [tauto|]. intros [Hin|[Hin|Hin]]; [tauto| |tauto]. right. left. by apply others_stay.
Qed.

Lemma quiet_finish d t r : quiet d -> quiet (finish t r d).
Proof.
  intros [Hu Hq]. split; [done|]. unfold finish. simpl. unfold set_field. rewrite Forall_forall in *. intros x [_ Hx]%list_elem_of_filter. by apply Hq.
Qed.
Lemma quiet_enter d x : (unprivileged d = true -> forall e, enclaves_ d !! Z.to_nat (j_enclave x) = Some e -> clean_code (code_ e)) -> quiet d -> quiet (enter_enclave x d).
Proof. intros Hx [Hu Hq]. split; [done|]. unfold enter_enclave. simpl. unfold set_field. apply Forall_app. split; [done|]. apply Forall_singleton. by apply Hx. Qed.

Definition writable_again (env : dev_env) : Prop := forall tr i, env tr (DMprotect i (Z.lor PROT_READ PROT_WRITE)) = 0.

(** A payload that passes the return check of the trampoline is back in [Execute],
    with the machine as [Execute] left it. *)
Definition payloads_return (env : dev_env) : Prop := forall tr label code data stack,
  let x := env tr (DPayload label code data stack) in pe_edge x = RETURN_EDGE -> pe_home x = true.

(** The ways to stop of a thread when payloads need not return like that. *)
Definition payload_stops (f : fault) : bool := match f with Escaped => true | _ => Effects.stops f end.
Lemma payload_stops_all (f : fault) : Effects.stops f = true -> payload_stops f = true.
Proof. by destruct f. Qed.

Section Threads.
Context {J : Type} `{!Json J} `{!Sodium} (env : dev_env) (fuel : nat).
(** The system can make the code of an enclave writable again. *)
Context (Hrw : writable_again env).

Lemma kept_load_code i code w0 w : kept w0 w -> Z.of_nat i < NUM_ENCLAVES -> is_bytes code -> apart i (w_st w) ->
  wpx (load_code i code) (fun _ w' => kept w0 w' /\ entered (w_st w') = entered (w_st w)) (kept w0) w.
Proof.
  intros Hk Hi Hc Ha. unfold load_code. destruct (Z.ltb_spec ENCLAVE_REGION_SIZE (length code)); [done|].
  apply wpx_bind, wpx_wp, wp_get_enclave; [apply Hk|done|]. intros e _ He. rewrite (en_writable _ He).
  eapply wpx_mono; [apply kept_set_enclave; [done| |by right]|by intros _ w' (? & _ & _ & ?)|done].
  intros e' He'. constructor; simpl; eauto with enclave. apply region_blit; [apply blank_region_ok|done|lia].
Qed.

Lemma put_data_ok x e : is_bytes x -> length x <= ENCLAVE_REGION_SIZE -> enclave_ok e -> enclave_ok (put_data x e).
Proof. intros Hb Hl He. constructor; simpl; unfold set_field; eauto with enclave. apply region_blit; [apply He|done|lia]. Qed.

Lemma put_flag_ok e : enclave_ok e -> enclave_ok (match flag_ e with Some fl => put_data fl e | None => e end).
Proof.
  intros He. destruct (flag_ e) as [fl|] eqn:Ef; [|done]. destruct (en_flag _ He _ Ef) as [Lf Bf]. apply put_data_ok; [done| |done].
  rewrite Lf. unfold ENCLAVE_REGION_SIZE. lia.
Qed.

Lemma kept_load_data i data w0 w : kept w0 w -> is_bytes data ->
  wpx (load_data i data) (fun _ w' => kept w0 w' /\ entered (w_st w') = entered (w_st w)) (kept w0) w.
Proof.
  intros Hk Hb. unfold load_data. destruct (Z.ltb_spec ENCLAVE_REGION_SIZE (length data)); [done|].
  eapply wpx_mono; [apply kept_set_enclave; [done| |left]|by intros _ w' (? & _ & _ & ?)|done].
  - intros e He. by apply put_data_ok; [| |apply put_flag_ok].
  - intros e. unfold put_data. simpl. by destruct (flag_ e).
Qed.

Lemma search_code i e l w0 w : kept w0 w -> enclaves_ (w_st w) !! i = Some e ->
  wpx (for_each l (fun needle =>
       e ← get_enclave i;
       if memmem (code_ e) needle then set_enclave i (fun e => e <| code_ := blank_region |>);; fail Thrown else mret tt))
    (fun _ w' => w' = w /\ Forall (fun needle => memmem (code_ e) needle = false) l) (kept w0) w.
Proof.
  intros Hk Ee. induction l as [|x l IH]; [by apply wpx_wp, wp_ret|]. cbn [for_each].
  apply wpx_bind, wpx_bind, wpx_wp. unfold get_enclave. wp_go. eapply wp_get_or; [exact Ee|]. destruct (memmem (code_ e) x) eqn:Em.
  - apply wpx_bind. eapply wpx_mono; [apply kept_set_enclave; [done|intros e' He'; constructor; simpl; eauto with enclave|]|by intros _ w' []|done].
    left. intros e' _. apply clean_blank.
  - apply wpx_wp, wp_ret. eapply wpx_mono; [exact IH| |done]. intros _ w' [-> Hl]. split; [done|]. by constructor.
Qed.

(** What a payload that passed the check is like. *)
Definition passed (i : nat) w : Prop :=
  unprivileged (w_st w) = true -> forall e, enclaves_ (w_st w) !! i = Some e -> clean_code (code_ e).

Lemma kept_check_code i w0 w : kept w0 w -> Z.of_nat i < NUM_ENCLAVES ->
  wpx (check_code i) (fun _ w' => w' = w /\ passed i w) (kept w0) w.
Proof.
  intros Hk Hi. destruct (enclave_lookup i _ (kept_ok _ _ Hk) Hi) as (e & Ee & He). unfold check_code.
  apply wpx_bind, wpx_wp, wp_gets. unfold passed. destruct (unprivileged (w_st w)).
  - eapply wpx_mono; [by apply search_code| |done]. intros _ w' [-> Hc]. split; [done|]. intros _ e' Ee'. rewrite Ee in Ee'. by injection Ee' as <-.
  - by apply wpx_wp, wp_ret.
Qed.

Lemma kept_load i code data w0 w : kept w0 w -> Z.of_nat i < NUM_ENCLAVES -> is_bytes code -> is_bytes data -> apart i (w_st w) ->
  wpx (Execute_load i code data) (fun _ w' => kept w0 w' /\ passed i w') (kept w0) w.
Proof.
  intros Hk Hi Hc Hd Ha. unfold Execute_load. apply wpx_bind. eapply wpx_mono; [by apply kept_load_code| |done]. intros [] w1 [Hk1 E1].
  apply wpx_bind. eapply wpx_mono; [by apply kept_load_data| |done]. intros [] w2 [Hk2 E2].
  eapply wpx_mono; [by apply kept_check_code| |done]. by intros [] w3 [-> Hp].
Qed.

(** What the payload's code will be, is clean. *)
Definition armed w0 (i : nat) w : Prop := kept w0 w /\
  (quiet (w_st w0) -> forall e, enclaves_ (w_st w) !! i = Some e -> clean_code (code_ e)).

Lemma armed_entered w0 w j : kept w0 w -> j ∈ entered (w_st w) -> armed w0 (Z.to_nat (j_enclave j)) w.
Proof.
  intros Hk Hj. split; [done|]. intros Hq. destruct Hk as (_ & _ & Hf). destruct (Hf Hq) as [[_ Hc] _]. rewrite Forall_forall in Hc. by apply Hc.
Qed.

Lemma armed_same w0 i w w' : armed w0 i w -> kept w0 w' -> code_ <$> enclaves_ (w_st w') !! i = code_ <$> enclaves_ (w_st w) !! i -> armed w0 i w'.
Proof.
  intros [_ Ha] Hk E. split; [done|]. intros Hu e' Ee'. rewrite Ee' in E. destruct (enclaves_ (w_st w) !! i) as [e|] eqn:Ee; [|done].
  simpl in E. injection E as ->. by apply Ha.
Qed.

Lemma kept_protect {ok A} i (k : ogx_prog A) Q w0 w : kept w0 w ->
  (forall w', kept w0 w' -> w_st w' = w_st w -> wpo ok k Q (kept w0) w') -> wpo ok (protect env i;; k) Q (kept w0) w.
Proof.
  intros Hk Hn. unfold protect. apply wpx_bind, wpx_bind, wpx_wp. dev_step. set (w1 := w <| w_trace := _ |>).
  assert (kept w0 w1) as Hk1 by (by apply kept_call). destruct (negb _); [done|]. by apply wpx_wp, wp_ret, Hn.
Qed.

Lemma kept_unprotect {ok A} i (k : ogx_prog A) Q w0 w : kept w0 w ->
  (forall w', kept w0 w' -> wpo ok k Q (kept w0) w') -> wpo ok (unprotect env i;; k) Q (kept w0) w.
Proof.
  intros Hk Hn. unfold unprotect. apply wpx_bind, wpx_bind, wpx_wp. dev_step. rewrite Hrw. apply wpx_wp, wp_ret, Hn. by apply kept_call.
Qed.

(** ** The run of a payload

    A thread stops in the ways that [ok] accepts; when payloads need not come home,
    [Escaped] is one of them. *)
Section Payloads.
Context (ok : fault -> bool) (ok_stops : forall f : fault, Effects.stops f = true -> ok f = true).
Context (ok_home : ok Escaped = true \/ payloads_return env).

Lemma kept_stop {A} (f : fault) (Q : A -> ogx_world -> Prop) E w : Effects.stops f = true -> wpo ok (fail f) Q E w.
Proof. intros Hf. pose proof (ok_stops f Hf) as Hok. unfold wpo, fail. by destruct f. Qed.

Lemma kept_raised info w0 w : kept w0 w -> wpo ok (raised info) (fun _ => kept w0) (kept w0) w.
Proof.
  intros Hk. unfold raised. destruct (_ && _); [|by apply kept_stop]. apply wpx_wp, wp_modify, kept_modify; [done| |].
  - unfold signal_handler. by destruct (_ =? _).
  - unfold signal_handler. destruct (kept_ok _ _ Hk). by destruct (_ =? _).
Qed.

Lemma kept_leave tr label code data stack w0 w : kept w0 w ->
  wpo ok (trampoline_leave (env tr (DPayload label code data stack))) (fun _ => kept w0) (kept w0) w.
Proof.
  intros Hk. unfold trampoline_leave. destruct (Z.eqb_spec (pe_edge (env tr (DPayload label code data stack))) RETURN_EDGE) as [Ee|]; [|by apply kept_stop].
  cbn [negb]. destruct (pe_home _) eqn:Eh; [by apply kept_ret|]. destruct ok_home as [Ho|Hr]; [exact Ho|].
  pose proof (Hr tr label code data stack Ee) as Hh. congruence.
Qed.

Lemma kept_invoke i w0 w : armed w0 i w -> Z.of_nat i < NUM_ENCLAVES -> wpo ok (invoke env i) (fun _ => kept w0) (kept w0) w.
Proof.
  intros [Hk Ha] Hi. unfold invoke. apply wpx_bind, wpx_wp, wp_get_enclave; [apply Hk|done|]. intros e Ee He.
  apply wpx_bind. unfold trampoline_enter. destruct (_ =? ENTRY_EDGE); [|by apply kept_stop]. apply wpx_wp, wp_ret.
  apply wpx_bind, wpx_wp. dev_step. set (x := env _ _). set (w1 := w <| w_trace := _ |>).
  assert (kept w0 w1) as Hk1 by (apply kept_call; [done|intros Hu; by apply Ha]).
  apply wpx_bind. eapply wpx_mono; [apply kept_set_enclave; [exact Hk1|intros e' He'; constructor; simpl; eauto with enclave|by left]| |done].
  intros [] w2 [Hk2 _]. apply wpx_bind. eapply wpx_mono; [apply (wpx_for_each _ _ (kept w0)); [intros s w' _; apply kept_raised|done]| |done].
  intros [] w3 Hk3. apply wpx_bind. eapply wpx_mono; [by apply (kept_leave _ _ _ _ _ w0)| |done]. intros r w4 Hk4. by apply kept_ret.
Qed.

Definition result_ok (v : bytes) : Prop := is_bytes v /\ length v < 128.

Lemma kept_run i w0 w : armed w0 i w -> Z.of_nat i < NUM_ENCLAVES ->
  wpo ok (Execute_run env i) (fun v w' => kept w0 w' /\ result_ok v) (kept w0) w.
Proof.
  intros Ha Hi. pose proof (proj1 Ha) as Hk. unfold Execute_run. apply wpx_bind, wpx_wp, wp_modify. set (w3 := w <| w_st ::= _ |>).
  assert (kept w0 w3) as Hk3 by (apply kept_modify; [done|by intros []|]; by destruct (kept_ok _ _ Hk)).
  apply kept_protect; [done|]. intros w4 Hk4 E4. apply wpx_bind.
  eapply wpx_mono; [apply kept_set_enclave; [done|intros e; by apply set_exit_ok|by left]| |done]. intros [] w5 (Hk5 & E5 & _).
  assert (armed w0 i w5) as Ha5.
  { apply (armed_same w0 i w); [done|done|]. rewrite E5, E4, list_lookup_alter_eq. simpl. by destruct (_ !! i). }
  assert (result_ok []) as Hnil by (split; [constructor|simpl; lia]).
  apply wpx_try. apply (wpx_mono _ (fun v w' => kept w0 w' /\ result_ok v) _ (kept w0)); [|done|intros w' Hk'; by apply wpx_wp, wp_ret].
  apply wpx_bind. eapply wpx_mono; [by apply kept_invoke| |done]. intros x w6 Hk6.
  apply kept_unprotect; [done|]. intros w7 Hk7. apply wpx_bind, wpx_wp, wp_get_enclave; [apply Hk7|done|]. intros e _ He.
  apply (kept_then w0 _ _ _ result_ok); [done| |].
  - destruct (Z.ltb_spec 0 x), (Z.ltb_spec x 128); cbn [andb]; repeat case_match; try done;
      try (apply wpx_wp, wp_ret; split; [by apply kept_refl, Hk7|]); try done.
    split; [apply Forall_take, He|]. rewrite length_take. lia.
  - intros v w8 Hk8 Hv. apply wpx_bind.
    eapply wpx_mono; [apply kept_set_enclave; [done|intros e' He'; constructor; simpl; eauto with enclave|]| |done].
    + left. intros e' _. apply clean_blank.
    + intros [] w9 [Hk9 _]. by apply wpx_wp, wp_ret.
Qed.
End Payloads.

(** ** The thread pool *)

Lemma kept_Schedule id code data w0 w : kept w0 w -> event_ok (LoadEvent id code data) ->
  queue_mutex ∉ (w_held w : list dev_mutex) ->
  wpx (Schedule env id code data) (fun t w' => kept w0 w' /\ t ∈ j_task <$> queue_ (w_st w')) (kept w0) w.
Proof.
  intros Hk He Hmu. unfold Schedule. apply wpx_bind, wpx_wp, wp_gets. pose proof (og_pool _ (kept_ok _ _ Hk)) as Hp.
  apply wpx_bind, wpx_wp, wp_assert; [by apply negb_true_iff, Nat.eqb_neq|]. set (t := next_task (w_st w)).
  apply wpx_bind, wpx_wp, wp_modify. set (w1 := w <| w_st ::= _ |>).
  assert (kept w0 w1) as Hk1 by (apply kept_modify; [done|done|]; by destruct (kept_ok _ _ Hk)).
  apply wpx_bind, wpx_lock_guard; [done|]. apply wpx_wp, wp_modify. split; [done|]. set (w2 := _ <| w_held := _ |>).
  assert (kept w0 w2) as Hk2.
  { eapply kept_trans; [exact Hk1|]. split_and!; [|done|intros Hu; split; [done|apply no_calls]].
    by apply ogx_ok_enqueue; [apply Hk1|]. }
  apply wpx_bind, wpx_wp. dev_step. apply wp_ret. split; [by apply kept_call|].
  simpl. unfold set_field. rewrite fmap_app. apply elem_of_app. right. by left.
Qed.

Lemma kept_Worker_take w0 w : kept w0 w -> queue_mutex ∉ (w_held w : list dev_mutex) ->
  wpx Worker_take (fun _ => kept w0) (fun _ => False) w.
Proof.
  intros Hk Hmu. unfold Worker_take. apply wpx_bind, wpx_wp, wp_gets. destruct (queue_ (w_st w)) as [|x q] eqn:Eq; [done|].
  apply wpx_lock_guard; [done|]. apply wpx_wp, wp_modify. split; [done|]. eapply kept_trans; [exact Hk|].
  split_and!; [by apply ogx_ok_take; [apply Hk|]|done|]. intros Hu. split; [done|apply no_calls].
Qed.

(** A task of a worker names an enclave. *)
Lemma job_enclave d x : ogx_ok d -> x ∈ pending d -> Z.of_nat (Z.to_nat (j_enclave x)) < NUM_ENCLAVES /\ is_bytes (j_code x) /\ is_bytes (j_data x) /\ job_ok x.
Proof.
  intros Hd Hx. pose proof (og_jobs _ Hd) as Hj. apply (proj1 (Forall_forall _ _) Hj) in Hx. pose proof Hx as (Hi & Hc & Hdat & _).
  split_and!; [lia|done|done|done].
Qed.

Lemma kept_Worker_enter n w0 w : kept w0 w -> w_held w = [] -> wpx (Worker_enter n) (fun _ => kept w0) (fun _ => False) w.
Proof.
  intros Hk Hh. unfold Worker_enter. apply wpx_bind, wpx_wp, wp_gets. destruct (running (w_st w) !! n) as [x|] eqn:Ex; [|done].
  destruct (job_enclave (w_st w) x (kept_ok _ _ Hk)) as (Hi & Hc & Hd & Hx).
  { unfold pending. rewrite !elem_of_app. right. left. by eapply list_elem_of_lookup_2. }
  cbv zeta. set (i := Z.to_nat (j_enclave x)) in *. destruct (existsb _ _) eqn:Eb; [done|].
  assert (apart i (w_st w)) as Ha.
  { apply Forall_forall. intros y Hy Ei. apply not_true_iff_false in Eb. apply Eb, existsb_exists. exists y. split; [by apply list_elem_of_In|]. by apply Nat.eqb_eq. }
  apply wpx_bind, (wpx_mono _ (fun r w' => kept w0 w' /\ (r = true -> passed i w')) _ (fun _ => False)); [| |done].
  - apply wpx_try, wpx_bind, wpx_lock_guard; [rewrite Hh; apply not_elem_of_nil|]. set (w1 := w <| w_held ::= _ |>).
    assert (forall w', kept w1 w' -> w_held w' = (enclave_mutex i : mutex dev_iface) :: w_held w /\ kept w0 (w' <| w_held := w_held w |>)) as Hout.
    { intros w' (Hd' & Hh' & Hf'). split; [exact Hh'|]. eapply kept_trans; [exact Hk|]. split_and!; [done|done|exact Hf']. }
    eapply wpx_mono; [apply (kept_load i _ _ w1); [apply kept_refl, Hk|done..]| |].
    + intros [] w' [Hk' Hp]. destruct (Hout w' Hk'). split; [done|]. by apply wpx_wp, wp_ret.
    + intros w' Hk'. destruct (Hout w' Hk'). split; [done|]. by apply wpx_wp, wp_ret.
  - intros r w' [Hk' Hp]. apply wpx_wp, wp_modify, kept_modify; [done| |]; destruct r.
    + apply quiet_enter. by apply Hp.
    + apply quiet_finish.
    + apply ogx_ok_enter; [apply Hk'|done].
    + by apply ogx_ok_finish; [apply Hk'|].
Qed.

Lemma kept_Worker_run ok n w0 w : (forall f : fault, Effects.stops f = true -> ok f = true) -> ok Escaped = true \/ payloads_return env ->
  kept w0 w -> w_held w = [] -> wpo ok (Worker_run env n) (fun _ => kept w0) (fun _ => False) w.
Proof.
  intros Hs Hp Hk Hh. unfold Worker_run. apply wpx_bind, wpx_wp, wp_gets. destruct (entered (w_st w) !! n) as [x|] eqn:Ex; [|by apply kept_stop].
  apply list_elem_of_lookup_2 in Ex. destruct (job_enclave (w_st w) x (kept_ok _ _ Hk)) as (Hi & _).
  { unfold pending. rewrite !elem_of_app. by right; right. }
  cbv zeta. apply wpx_bind, (wpx_mono _ (fun r w' => kept w0 w' /\ forall v, r = Some v -> result_ok v) _ (fun _ => False)); [| |done].
  - apply wpx_try, wpx_bind. eapply wpx_mono; [apply (kept_lock _ _ result_ok w0); [done|rewrite Hh; apply not_elem_of_nil|]| |].
    + intros w1 Hd1 _ Es. apply kept_run; [done|done| |done]. apply armed_entered; [by apply kept_refl|]. by rewrite Es.
    + intros v w' [Hk' Hv]. apply wpx_wp, wp_ret. split; [done|]. by intros v' [= <-].
    + intros w' Hk'. by apply wpx_wp, wp_ret.
  - intros r w' [Hk' Hr]. apply wpx_wp, wp_modify, kept_modify; [done|apply quiet_finish|]. by apply ogx_ok_finish; [apply Hk'|].
Qed.
End Threads.
