(* ===== verification/OgxServe.v ===== *)
(** * OgxServe: the operations of ogx.cpp keep the invariant of the device

    The messages of the driver, the loop of [Execute], the device class behind
    its registers ([VirtioLaws]) and the transition system of all its threads. *)

From S2P Require Import Prelude Effects Libc Wire Device Virtio VirtioExec VirtioSafe OgxEvent Ogx OgxSafe.

Implicit Types (d : GuestDevice) (w : ogx_world) (e : Enclave) (j : job) (f : future) (b : VirtBuf).

Lemma ogx_ok_future d f : ogx_ok d -> key_ok (f_sender f) -> task_known d f -> ogx_ok (d <| enclave_futures_ ::= fun l => l ++ [f] |>).
Proof.
  intros [] Hs Ht. constructor; try done; simpl; unfold set_field; apply Forall_app; (split; [|by constructor]); done.
Qed.

Lemma ogx_ok_buffers d l : ogx_ok d -> ogx_ok (d <| response_buffers_ := l |>).
Proof. by intros []. Qed.

Lemma ogx_ok_got d i : ogx_ok d -> ogx_ok (d <| enclave_futures_ ::= alter (fun f => f <| f_task := None |>) i |>).
Proof. intros []. constructor; try done; simpl; unfold set_field; apply Forall_alter; done. Qed.

Lemma ogx_ok_prune d : ogx_ok d -> ogx_ok (d <| enclave_futures_ ::= filter (fun f => is_Some (f_task f)) |>).
Proof.
  intros Hd. pose proof (og_senders _ Hd) as Hs. pose proof (og_tasks _ Hd) as Ht. rewrite Forall_forall in Hs, Ht.
  destruct Hd. constructor; try done; simpl; unfold set_field; apply Forall_forall; intros f [_ Hf]%list_elem_of_filter; auto.
  by apply Ht.
Qed.

Section Serve.
Context {J : Type} `{!Json J} `{!Sodium} `{!JsonLaws J} `{!SodiumLaws} (env : dev_env) (fuel : nat).
Context (Hrw : writable_again env).

Lemma kept_OnLoadEvent sender id code data w0 w : kept w0 w -> key_ok sender -> event_ok (LoadEvent id code data) ->
  device_mutex ∉ (w_held w : list dev_mutex) -> queue_mutex ∉ (w_held w : list dev_mutex) ->
  wpx (OnLoadEvent env sender id code data) (fun _ => kept w0) (kept w0) w.
Proof.
  intros Hk Hs He Hm1 Hm2. unfold OnLoadEvent. eapply (wpx_mono _ (fun _ w' => kept w0 w' /\ True)); [|by intros ? ? []|done].
  apply kept_lock; [done..|]. intros w1 Hd Hh Es. pose proof (kept_refl _ Hd) as Hk1. apply wpx_bind, wpx_wp, wp_gets.
  destruct (_ <=? _); [done|]. apply wpx_bind.
  eapply wpx_mono; [apply (kept_Schedule env _ _ _ w1); [done|done|rewrite Hh; set_solver]| |done].
  intros t w2 [Hk2 Ht]. apply wpx_wp, wp_modify. split; [|done]. apply kept_modify; [done|done|].
  apply ogx_ok_future; [apply Hk2|done|]. intros t' [= <-]. left. unfold pending. rewrite fmap_app. apply elem_of_app. by left.
Qed.

(** A mutex that was free in the beginning. *)
Definition free (mu : dev_mutex) w : Prop := mu ∉ (w_held w : list dev_mutex).
Lemma free_kept mu w0 w : kept w0 w -> free mu w0 -> free mu w.
Proof. unfold free. intros (_ & -> & _). done. Qed.
#[local] Hint Resolve free_kept : enclave.

Lemma kept_ReadDriverMessage b w0 w : kept w0 w -> in_width 64 (vb_head b) -> free device_mutex w0 -> free queue_mutex w0 ->
  wpx (ReadDriverMessage env b) (fun _ => kept w0) (fun _ => False) w.
Proof.
  intros Hk Hb Hm1 Hm2. unfold ReadDriverMessage. apply wpx_bind, wpx_wp. dev_step. set (raw := env _ _). set (w1 := w <| w_trace := _ |>).
  assert (kept w0 w1) as Hk1 by (by apply kept_call).
  apply (kept_then w0 _ _ _ (fun r => in_width 64 (vb_head r.2) /\ forall x, r.1 = Some x -> is_bytes x /\ length x <= 2)); [done|by apply kept_readU; [apply kept_refl, Hk1| |]|].
  intros [r1 b1] w2 Hk2 [Hb1 Hr1]. cbn [fst snd] in *. set (n := match r1 with Some _ => _ | None => _ end).
  assert (in_width 64 n) as Hn.
  { unfold n. destruct r1 as [x|].
    - destruct (Hr1 x eq_refl) as [_ Hl]. pose proof (le_val_range x) as Hv. unfold in_width in *.
      assert (2 ^ (8 * length x) <= 2 ^ 16) by (apply Z.pow_le_mono_r; lia). lia.
    - eapply in_width_mono; [|apply wrap_range; lia]. lia. }
  apply (kept_then w0 _ _ _ (fun r => in_width 64 (vb_head r.2) /\ forall x, r.1 = Some x -> is_bytes x /\ length x <= n)); [done|by apply kept_readU; [apply kept_refl, Hk2| |]|].
  intros [r2 b2] w3 Hk3 [Hb2 Hr2]. cbn [fst snd] in *. set (msg := match r2 with Some _ => _ | None => _ end).
  apply wpx_bind, (wpx_mono _ (fun _ => kept w0) _ (fun _ => False)); [|intros ret w4 Hk4; by apply wpx_wp, wp_ret|done].
  apply wpx_try, (wpx_mono _ (fun _ => kept w0) _ (kept w0)); [|done|intros w' Hk'; by apply wpx_wp, wp_ret].
  apply wpx_bind, wpx_wp, wp_gets, wpx_bind. destruct (Decrypt _ msg) as [[sender [id code data|id response]]|] eqn:Ed; [|by apply wpx_wp, wp_ret, kept_ret|done].
  apply wpx_wp, wp_ret. cbn [fst snd]. destruct (Decrypt_load _ _ _ _ _ _ Ed) as (Hl & Hs & He).
  apply wpx_bind. eapply wpx_mono; [apply (kept_OnLoadEvent _ _ _ _ w0); [done|split; [unfold crypto_box_PUBLICKEYBYTES in *; lia|done]|done|eapply free_kept; [exact Hk3|done]..]| |done].
  intros [] w4 Hk4. by apply kept_ret.
Qed.

Lemma kept_got_data i w0 w : kept w0 w -> 0 <= i -> free device_mutex w0 -> free queue_mutex w0 ->
  wpx (ogx_got_data env fuel i) (fun _ => kept w0) (fun _ => False) w.
Proof.
  intros Hk Hi Hm1 Hm2. unfold ogx_got_data. destruct (_ =? VQ_READ); [|destruct (_ =? VQ_WRITE)]; [| |by apply wpx_wp, wp_ret].
  - apply wpx_lock_guard; [by eapply free_kept|]. set (w1 := w <| w_held ::= _ |>).
    apply (wpx_loop (fun _ w' => kept w1 w')); [|apply kept_refl, Hk]. intros [] w2 Hk2. apply wpx_bind.
    eapply wpx_mono; [apply (kept_get_buf _ _ (fun _ => False)); [exact Hk2|done]| |done].
    intros [b|] w3 [Hk3 _]; [|apply wpx_wp, wp_ret]; [apply wpx_bind, wpx_wp, wp_modify, wp_ret, kept_modify; [done|done|apply ogx_ok_buffers, Hk3]|].
    destruct Hk3 as (Hd3 & Hh3 & Hf3). split; [done|]. eapply kept_trans; [exact Hk|]. split_and!; [done|done|exact Hf3].
  - apply (wpx_loop (fun _ w' => kept w0 w')); [|done]. intros ret w2 Hk2. apply wpx_bind.
    eapply wpx_mono; [apply (kept_get_buf _ _ (fun _ => False)); [exact Hk2|done]| |done]. intros [b|] w3 [Hk3 Hb]; [|by apply wpx_wp, wp_ret].
    apply wpx_bind. eapply wpx_mono; [apply (kept_ReadDriverMessage _ w0); [done|by apply Hb|done..]| |done]. intros x w4 Hk4.
    apply wpx_bind. eapply wpx_mono; [apply (kept_put_buf _ _ (fun _ => False)); [exact Hk4|done]| |done]. intros r w5 [Hk5 _]. destruct (r =? 0); by apply wpx_wp, wp_ret.
Qed.

(** ** The loop of Execute *)

Lemma kept_check_fault w0 w : kept w0 w -> free device_mutex w0 -> wpx check_fault (fun _ => kept w0) (fun _ => False) w.
Proof.
  intros Hk Hm. unfold check_fault. apply wpx_bind, wpx_wp, wp_gets. destruct (_ =? 0); [by apply wpx_wp, wp_ret|].
  apply wpx_lock_guard; [by eapply free_kept|]. set (w1 := w <| w_held ::= _ |>). apply wpx_bind, wpx_wp, wp_gets.
  assert (kept w w) as Hkw by apply kept_refl, Hk.
  apply wpx_bind, (wpx_mono _ (fun _ => kept w1) _ (fun _ => False)); [| |done].
  - destruct (blamed _); [|apply wpx_wp, wp_ret, kept_refl, Hk]. apply wpx_wp, wp_modify, kept_modify; [apply kept_refl, Hk|by apply quiet_alter; left|].
    apply ogx_ok_alter; [apply Hk|]. intros e. by apply set_exit_ok.
  - intros [] w2 Hk2. apply wpx_wp, wp_modify. destruct Hk2 as (Hd2 & Hh2 & Hf2). split; [done|]. eapply kept_trans; [exact Hk|].
    split_and!; [by destruct Hd2|done|exact Hf2].
Qed.

(** The base class does not see the futures. *)
Lemma vdev_frame {A} (m : vprog A) Q E w : wpx (ogx_vdev m) Q E w ->
  wpx (ogx_vdev m) (fun a w' => Q a w' /\ enclave_futures_ (w_st w') = enclave_futures_ (w_st w)) E w.
Proof. unfold wpx, ogx_vdev, zoom. by destruct (m (zoom_world gd_base w)) as [|[] ?]. Qed.

Lemma kept_vb_write b off data E w0 w : kept w0 w -> in_width 64 (length data) -> is_bytes data ->
  wpx (ogx_vdev (vb_write b off data)) (fun _ w' => (kept w0 w' /\ True) /\ enclave_futures_ (w_st w') = enclave_futures_ (w_st w)) E w.
Proof. intros Hk Hl Hb. apply vdev_frame, kept_mm_write; [done|apply wrap_range; lia|done|done]. Qed.

Lemma kept_send_irq irq E w0 w : kept w0 w ->
  wpx (ogx_vdev (send_irq env irq)) (fun _ w' => (kept w0 w' /\ True) /\ enclave_futures_ (w_st w') = enclave_futures_ (w_st w)) E w.
Proof.
  intros Hk. apply vdev_frame, kept_vdev; [done|]. unfold send_irq. apply wp_bind. dev_step. wp_go. split; [|done].
  split_and!; [apply (og_base _ (kept_ok _ _ Hk))|done|done|by apply one_call].
Qed.

(** The response to a finished task, in its box. *)
Lemma response_box d f nonce r c : ogx_ok d -> result_ok r ->
  Encrypt (fit crypto_box_NONCEBYTES nonce) (pub_key_ d) (sec_key_ d) (f_sender f) (Serialize (ResponseEvent (u32 (f_id f)) r)) = Some c ->
  is_bytes c /\ length c <= 2000.
Proof.
  intros Hd [Hb Hl] Ec. destruct (og_pub _ Hd) as [Lp Bp]. apply Encrypt_bytes in Ec as (Bc & _ & Lc); [| |unfold crypto_box_PUBLICKEYBYTES in *; lia|done| |apply fit_bytes].
  - split; [done|]. apply Lc, response_length. done.
  - split_and!; [apply wrap_range; lia|done|done].
  - pose proof (fit_length crypto_box_NONCEBYTES nonce ltac:(done)). lia.
Qed.

(** The list of futures keeps its length while it is walked. *)
Definition walking w0 (n : nat) w : Prop := kept w0 w /\ length (enclave_futures_ (w_st w)) = n.

Lemma kept_respond i n w0 w : walking w0 n w -> (i < n)%nat ->
  wpx (respond env i) (fun _ => walking w0 n) (kept w0) w.
Proof.
  intros [Hk Hn] Hi. unfold respond. apply wpx_bind, wpx_wp, wp_gets. destruct (response_buffers_ (w_st w)) as [|b bs]; [by apply wpx_wp, wp_ret|].
  destruct (lookup_lt_is_Some_2 (enclave_futures_ (w_st w)) i) as [f Ef]; [lia|].
  apply wpx_bind, wpx_wp. eapply wp_get_or; [exact Ef|]. destruct (f_task f ≫= _) as [r|] eqn:Er; [|by apply wpx_wp, wp_ret].
  assert (forall v, r = Some v -> result_ok v) as Hr.
  { destruct (f_task f) as [t|]; [|done]. apply (og_results _ (kept_ok _ _ Hk) _ _ Er). }
  apply wpx_bind, wpx_wp, wp_modify. set (w1 := w <| w_st ::= _ |>).
  assert (kept w0 w1) as Hk1 by (apply kept_modify; [done|done|apply ogx_ok_got, Hk]).
  assert (length (enclave_futures_ (w_st w1)) = n) as Hn1 by (simpl; unfold set_field; by rewrite length_alter).
  apply wpx_bind. destruct r as [response|]; [|done]. apply wpx_wp, wp_ret.
  apply wpx_bind, wpx_wp. dev_step. set (nonce := env _ _). set (w2 := w1 <| w_trace := _ |>).
  assert (kept w0 w2) as Hk2 by (by apply kept_call). apply wpx_bind.
  destruct (Encrypt _ _ _ _ _) as [c|] eqn:Ec; [|done]. apply wpx_wp, wp_ret.
  apply (response_box (w_st w) f) in Ec as [Bc Lc]; [|apply Hk|by apply Hr].
  apply wpx_bind, wpx_wp, wp_modify. set (w3 := w2 <| w_st ::= _ |>).
  assert (kept w0 w3) as Hk3 by (apply kept_modify; [done|done|apply ogx_ok_buffers, Hk2]).
  assert (length (enclave_futures_ (w_st w3)) = n) as Hn3 by done. clearbody w3.
  apply wpx_bind. eapply wpx_mono; [apply (kept_vb_write _ _ _ (kept w0)); [exact Hk3|by rewrite length_le_bytes|apply le_bytes_is_bytes]| |done].
  intros _ w4 [[Hk4 _] E4]. apply wpx_bind.
  eapply wpx_mono; [apply (kept_vb_write _ _ _ (kept w0)); [exact Hk4|unfold in_width; lia|done]| |done]. intros _ w5 [[Hk5 _] E5].
  apply wpx_bind. eapply wpx_mono; [apply vdev_frame, (kept_put_buf _ _ (kept w0)); [exact Hk5|done]| |done]. intros _ w6 [[Hk6 _] E6].
  apply wpx_bind. eapply wpx_mono; [apply (kept_send_irq _ (kept w0)); exact Hk6| |done]. intros _ w7 [[Hk7 _] E7].
  apply wpx_wp, wp_ret. split; [done|]. by rewrite E7, E6, E5, E4.
Qed.

Lemma kept_Execute_step w0 w : kept w0 w -> free device_mutex w0 -> wpx (Execute_step env) (fun _ => kept w0) (fun _ => False) w.
Proof.
  intros Hk Hm. unfold Execute_step. apply wpx_bind. eapply wpx_mono; [apply (kept_check_fault w0); done| |done]. intros [] w1 Hk1.
  apply wpx_try, (wpx_mono _ (fun _ w' => kept w0 w' /\ True) _ (kept w0)); [|by intros ? ? []|intros w' Hk'; by apply wpx_wp, wp_ret].
  apply kept_lock; [done|by eapply free_kept|]. intros w2 Hd2 _ _. apply wpx_bind, wpx_wp, wp_gets, wpx_bind.
  eapply wpx_mono; [apply (wpx_for_until _ _ (walking w2 (length (enclave_futures_ (w_st w2)))) (kept w2))| |done].
  - intros i w' Hi%elem_of_seq Hw. apply kept_respond; [done|lia].
  - split; [by apply kept_refl|done].
  - intros r w3 [Hk3 _]. apply wpx_wp, wp_modify. split; [|done]. apply kept_modify; [done|done|apply ogx_ok_prune, Hk3].
Qed.

(** ** The device class *)

(** What a run from [w0] keeps, as an invariant of calls and device. *)
Definition run_ok w0 (tr : list dev_call) d : Prop := ogx_ok d /\
  (quiet (w_st w0) ->
   quiet d /\ exists l, tr = (w_trace w0 : list dev_call) ++ l /\ Forall clean_call l).

Lemma run_ok_call w0 tr d c : clean_call c -> run_ok w0 tr d -> run_ok w0 (tr ++ [c]) d.
Proof.
  intros Hc [Hd Hr]. split; [done|]. intros Hu. destruct (Hr Hu) as (Hp & l & -> & Hl). split; [done|].
  exists (l ++ [c]). split; [by rewrite app_assoc|]. apply Forall_app. split; [done|by constructor].
Qed.

Lemma run_ok_kept w0 w w' : run_ok w0 (w_trace w) (w_st w) -> kept w w' -> run_ok w0 (w_trace w') (w_st w').
Proof.
  intros [_ Hr] (Hd & _ & Hf). split; [done|]. intros Hu. destruct (Hr Hu) as (Hp & l & E & Hl).
  destruct (Hf Hp) as (Hp' & l' & E' & Hl'). split; [done|]. exists (l ++ l'). split; [by rewrite E', E, app_assoc|]. by apply Forall_app.
Qed.

Lemma GuestDevice_laws w0 :
  VirtioLaws Effects.stops GuestDevice (VirtioDevice0 := GuestDevice_virtio env fuel) MMIO_START (run_ok w0).
Proof.
  constructor.
  - done.
  - done.
  - intros tr d [[] _]. done.
  - intros tr v d [Hd Hr] Hv E. split; [by apply ogx_ok_base|done].
  - intros tr d fd n. by apply run_ok_call.
  - intros tr d fd bs. by apply run_ok_call.
  - intros i w Hi Hd Hh. apply (upto_mono _ _ (fun _ => kept w)).
    + apply wpx_safe, kept_got_data; [apply kept_refl, Hd|apply Hi|unfold free; rewrite Hh; set_solver..].
    + intros r w' Hk. split; [by eapply run_ok_kept|apply Hk].
  - intros offset data size w Hd _ _ _. by apply wp_safe, wp_ret.
Qed.

(** ** The transition system *)

Definition ogx_handle : mmio_request -> ogx_prog Z :=
  handle_MMIO (T := GuestDevice) (VirtioDevice0 := GuestDevice_virtio env fuel).

(** The threads of the device: the virtio worker with a request from the bus, a
    worker of the pool, and the one of [Execute].  Each of them holds no mutex
    between two steps. *)
Inductive thread_op :=
  | OpMmio (r : mmio_request)
  | OpTake
  | OpEnter (n : nat)
  | OpRun (n : nat)
  | OpExecute.
Definition run_op (o : thread_op) : ogx_prog unit :=
  match o with
  | OpMmio r => _ ← ogx_handle r; mret tt
  | OpTake => Worker_take
  | OpEnter n => Worker_enter n
  | OpRun n => Worker_run env n
  | OpExecute => Execute_step env
  end.
Definition op_ok (o : thread_op) : Prop :=
  match o with OpMmio r => mmio_in_range MMIO_START r | _ => True end.

Inductive ogx_step : ogx_world -> ogx_world -> Prop :=
  | step_op o w w' : op_ok o -> run_op o w = Ret tt w' -> ogx_step w w'
  | step_guest m' w :
      length m' = length (m_memory (m_mem (gd_base (w_st w)))) -> is_bytes m' ->
      ogx_step w (w <| w_st ::= fun d => ogx_put_base (set_memory m' (gd_base d)) d |>).

Lemma run_op_kept ok o w : (forall f : fault, Effects.stops f = true -> ok f = true) -> ok Escaped = true \/ payloads_return env ->
  ogx_ok (w_st w) -> w_held w = [] -> op_ok o -> upto ok (run_op o) (fun _ => kept w) w.
Proof.
  intros Hs Hp Hd Hh Ho. destruct o as [r| |n|n|]; cbn [run_op].
  4: { apply wpo_upto, kept_Worker_run; [done|done|done|by apply kept_refl|done]. }
  all: apply (safe_upto ok _ _ _ Hs).
  all: pose proof (kept_refl _ Hd) as Hk.
  - pose proof (handle_MMIO_ok Effects.stops GuestDevice MMIO_START (run_ok w) (VirtioLaws0 := GuestDevice_laws w) r w) as Hr.
    apply safe_bind. eapply safe_mono; [apply Hr; [|done|done]|].
    + split; [done|]. intros Hu. split; [done|apply no_calls].
    + intros x w' [[Hd' Hf] Hh']. by apply wp_safe, wp_ret.
  - apply wpx_safe, kept_Worker_take; [done|rewrite Hh; apply not_elem_of_nil].
  - by apply wpx_safe, kept_Worker_enter.
  - apply wpx_safe, kept_Execute_step; [done|]. unfold free. rewrite Hh. apply not_elem_of_nil.
Qed.

Lemma ogx_step_kept w w' : ogx_ok (w_st w) -> w_held w = [] -> ogx_step w w' -> kept w w'.
Proof.
  intros Hd Hh Hs. revert Hd Hh. destruct Hs as [o w1 w2 Ho E|m' w1 Hl Hb]; intros Hd Hh.
  - pose proof (run_op_kept payload_stops o w1 payload_stops_all (or_introl eq_refl) Hd Hh Ho) as H1. unfold upto in H1. by rewrite E in H1.
  - apply kept_modify; [by apply kept_refl|done|]. apply ogx_ok_base; [done|apply vdev_ok_memory; [apply Hd|done..]|done].
Qed.

(** From a device between two steps to another one. *)
Lemma ogx_reachable_kept w w' : ogx_ok (w_st w) -> w_held w = [] -> rtc ogx_step w w' -> kept w w'.
Proof.
  intros Hd Hh Hr. induction Hr as [w|w w1 w2 Hs _ IH]; [by apply kept_refl|].
  pose proof (ogx_step_kept _ _ Hd Hh Hs) as Hk. eapply kept_trans; [exact Hk|]. destruct Hk as (Hd1 & Hh1 & _).
  apply IH; [done|]. by rewrite Hh1.
Qed.

(** ** Start *)

Lemma wpx_zoom {S T A} (get : T -> S) (put : S -> T -> T) (m : dev_prog S A) Q E (w : dev_world T) :
  wpx m (fun a (u : dev_world S) => Q a (unzoom put w u)) (fun u : dev_world S => E (unzoom put w u)) (zoom_world get w) -> wpx (zoom get put m) Q E w.
Proof. unfold wpx, zoom. by destruct (m (zoom_world get w)) as [|[] ?]. Qed.

Section Start.
Context {S : Type}.
Implicit Types (v : dev_world S).

(** [starts m P]: [m] returns a value in [P] or throws; it holds no mutex. *)
Definition starts {A} (m : dev_prog S A) (P : A -> Prop) : Prop := forall v,
  wpx m (fun a v' => P a /\ w_held v' = w_held v) (fun _ => True) v.

Lemma starts_bind {A B} (m : dev_prog S A) (k : A -> dev_prog S B) P Q :
  starts m P -> (forall a, P a -> starts (k a) Q) -> starts (m ≫= k) Q.
Proof.
  intros Hm Hk v. apply wpx_bind. eapply wpx_mono; [apply Hm|intros a v' [Ha <-]; by apply Hk|done].
Qed.
Lemma starts_ret {A} (a : A) (P : A -> Prop) : P a -> starts (mret a) P.
Proof. intros Ha v. by apply wpx_wp, wp_ret. Qed.
Lemma starts_dos c : starts (dos env c) (fun _ => True).
Proof. by intros v. Qed.
Lemma starts_throw {A} (P : A -> Prop) : starts (fail Thrown) P.
Proof. by intros v. Qed.
Lemma starts_assert c : c = true -> starts (c_assert c) (fun _ => True).
Proof. by intros -> v. Qed.
Lemma starts_mapM {A B} (f : A -> dev_prog S B) l P : (forall x, x ∈ l -> starts (f x) P) ->
  starts (mapM f l) (fun ys => length ys = length l /\ Forall P ys).
Proof.
  induction l as [|x l IH]; intros Hf; cbn [mapM]; [by apply starts_ret|].
  eapply starts_bind; [apply Hf; left|]. intros y Hy. eapply starts_bind; [apply IH; intros z Hz; apply Hf; by right|].
  intros ys [Hl Hys]. apply starts_ret. split; [by simpl; f_equal|by constructor].
Qed.

Ltac starts_go := repeat first
  [ apply starts_throw | (by apply starts_ret)
  | lazymatch goal with |- starts (mbind _ (dos env ?c)) _ => apply (starts_bind _ _ _ _ (starts_dos c)); intros ? _ end
  | lazymatch goal with |- starts (if ?b then _ else _) _ => destruct b end ].

Lemma map_region_starts : starts (map_region env) (fun _ => True).
Proof. unfold map_region. starts_go. Qed.
Lemma label_region_starts region prot label : starts (label_region env region prot label) (fun _ => True).
Proof. unfold label_region. starts_go. Qed.

Lemma new_Enclave_starts id path : id < NUM_ENCLAVES -> starts (new_Enclave env id path) enclave_ok.
Proof.
  intros Hi. unfold new_Enclave. eapply starts_bind; [apply starts_assert; by apply Z.ltb_lt|]. intros _ _.
  eapply starts_bind; [by apply starts_assert|]. intros _ _.
  do 2 (eapply starts_bind; [apply map_region_starts|]; intros _ _).
  apply (starts_bind _ _ (fun flag => forall fl, flag = Some fl -> length fl = 4096%nat /\ is_bytes fl)).
  { destruct (id =? 0); [|by apply starts_ret]. starts_go. eapply (starts_bind _ _ (fun _ => True)); [by destruct (a0 : option bytes)|].
    intros m _. starts_go. apply starts_ret. intros fl [= <-]. split; [|apply fit_bytes]. pose proof (fit_length 4096 m ltac:(lia)). lia. }
  intros flag Hf. do 2 (eapply starts_bind; [apply map_region_starts|]; intros _ _). starts_go.
  do 4 (eapply starts_bind; [apply label_region_starts|]; intros _ _). apply starts_ret.
  constructor; simpl; auto using blank_region_ok.
Qed.

Lemma Init_starts n : starts (Init env n) (fun _ => True).
Proof.
  unfold Init. induction (seq 0 n) as [|i l IH]; cbn [for_each]; [by apply starts_ret|].
  apply (starts_bind _ _ (fun _ => True)); [starts_go|by intros _ _].
Qed.

Lemma ogx_vdev_new raw_vendor memory : is_bytes memory -> Z.of_nat (length memory) = HOST_SYS_MEM_SIZE ->
  vdev_ok ((new_MMIOVirtioDev 0 raw_vendor memory MMIO_START NUM_VQS)
    <| m_device_id := VIRTIO_OGX_DEV |> <| m_device_features := 0 |> <| m_config_space_size := 0 |>).
Proof.
  intros Hb Hl. constructor; try done. apply (Forall_replicate _ 2). constructor; simpl; try done; unfold in_width; try lia.
  repeat constructor; simpl; lia.
Qed.

Lemma new_GuestDevice_starts raw_vendor memory pub_key sec_key path :
  is_bytes memory -> Z.of_nat (length memory) = HOST_SYS_MEM_SIZE -> key_ok pub_key -> Z.of_nat (length sec_key) = crypto_box_SECRETKEYBYTES ->
  starts (new_GuestDevice env raw_vendor memory pub_key sec_key path) ogx_ok.
Proof.
  intros Hb Hl [Hp Hpb] Hs. unfold new_GuestDevice. cbv zeta.
  eapply starts_bind; [by apply starts_assert, Z.eqb_eq|]. intros _ _.
  eapply starts_bind; [by apply starts_assert, Z.eqb_eq|]. intros _ _.
  eapply starts_bind; [apply (starts_mapM _ _ enclave_ok)|].
  { intros i Hi%elem_of_seq. apply new_Enclave_starts. unfold NUM_ENCLAVES in *. lia. }
  intros es [Hle Hes]. eapply starts_bind; [apply Init_starts|]. intros _ _. apply starts_ret.
  constructor; simpl; try done; [by apply ogx_vdev_new|by rewrite Hle].
Qed.
End Start.

Lemma starts_ReadFile {S} path P : (forall tr, P (u8 <$> env tr (DReadFile path))) -> starts (S := S) (ReadFile env path) P.
Proof. intros Hf v. unfold ReadFile. apply wpx_bind, wpx_wp. dev_step. apply wp_ret. by split; [apply Hf|]. Qed.

(** The first payload is scheduled. *)
Lemma first_load_ok code sender d (v : dev_world unit) : ogx_ok d -> key_ok sender -> is_bytes code -> length code <= ENCLAVE_REGION_SIZE -> w_held v = [] ->
  wpx (with_locals (S := unit) d (OnLoadEvent env sender 0 code [];; gets (fun d => d))) (fun d' v' => ogx_ok d' /\ w_held v' = w_held v) (fun _ => True) v.
Proof.
  intros Hd Hs Hb Hc Hh. apply wpx_zoom, wpx_bind. set (w := zoom_world _ _).
  eapply wpx_mono; [apply (kept_OnLoadEvent _ _ _ _ w w); [by apply kept_refl|done| | |]| |done].
  - split_and!; [done|done|done|constructor|done|done].
  - simpl. rewrite Hh. apply not_elem_of_nil.
  - simpl. rewrite Hh. apply not_elem_of_nil.
  - intros [] w' (Hd' & Hh' & _). by apply wpx_wp, wp_gets.
Qed.

(** Every start ends with [None], with an exception or with a well-formed device. *)
Lemma ogx_main_starts raw_vendor memory (v : dev_world unit) :
  is_bytes memory -> Z.of_nat (length memory) = HOST_SYS_MEM_SIZE ->
  (forall tr, Z.of_nat (length (env tr (DReadFile OGX_PUB_KEY_PATH))) = crypto_box_PUBLICKEYBYTES) ->
  (forall tr, Z.of_nat (length (env tr (DReadFile OGX_SEC_KEY_PATH))) = crypto_box_SECRETKEYBYTES) -> w_held v = [] ->
  wpx (ogx_main env raw_vendor memory) (fun r _ => forall d, r = Some d -> ogx_ok d) (fun _ => True) v.
Proof.
  intros Hb Hl Hp Hs Hh. unfold ogx_main. apply wpx_bind, wpx_wp. dev_step. destruct (negb _); [done|].
  set (v1 := v <| w_trace := _ |>). assert (w_held v1 = []) as Hh1 by done. clearbody v1.
  apply wpx_try, (wpx_mono _ (fun r _ => forall d, r = Some d -> ogx_ok d) _ (fun _ => True)); [|done|intros v' _; by apply wpx_wp, wp_ret].
  assert (forall x : bytes, is_bytes (u8 <$> x)) as Hu8.
  { intros x. apply Forall_fmap, Forall_true. intros z. unfold compose. apply wrap_range. lia. }
  apply wpx_bind. eapply wpx_mono; [apply (starts_ReadFile _ key_ok); intros tr; split; [rewrite length_fmap; apply Hp|apply Hu8]| |done].
  intros pub v2 [Hpub E2]. apply wpx_bind.
  eapply wpx_mono; [apply (starts_ReadFile _ (fun k => Z.of_nat (length k) = crypto_box_SECRETKEYBYTES)); intros tr; rewrite length_fmap; apply Hs| |done].
  intros sec v3 [Hsec E3]. apply wpx_bind. eapply wpx_mono; [apply (starts_ReadFile _ is_bytes); intros tr; apply Hu8| |done].
  intros code v4 [Hcode E4]. apply wpx_bind. eapply wpx_mono; [by apply new_GuestDevice_starts| |done].
  intros d v5 [Hd E5]. unfold make_LoadEvent. change (NUM_ENCLAVES <=? 0) with false. cbn iota.
  destruct (Z.ltb_spec ENCLAVE_REGION_SIZE (length code)) as [|Hc]; [done|].
  change (ENCLAVE_REGION_SIZE <? length (@nil Z)) with false. cbn iota.
  apply wpx_bind. eapply wpx_mono; [apply first_load_ok; [done..|congruence]| |done]. intros d' v6 [Hd' _].
  apply wpx_bind, wpx_wp. dev_step. apply wp_ret. by intros d2 [= <-].
Qed.
End Serve.
