(* ===== verification/OgxSample.v ===== *)
(** * OgxSample: libraries for which the laws of the enclave's messages hold

    A codec of objects (each entry is its key and its value with their lengths)
    and a box that authenticates nothing.  They show that [JsonLaws] and
    [SodiumLaws] can be fulfilled; the theorems hold for all libraries. *)

From S2P Require Import Prelude Libc OgxEvent.

(** ** Objects *)

Definition sized (b : bytes) : bytes := le_bytes 4 (length b) ++ b.
Definition value_bytes (v : jval) : bytes :=
  match v with
  | VStr s => 0 :: sized s
  | VNum n => 1 :: le_bytes 4 n
  | VVec b => 2 :: sized b
  end.
Definition entry_bytes (kv : string * jval) : bytes :=
  Z.of_nat (length (string_bytes kv.1)) :: string_bytes kv.1 ++ value_bytes kv.2.

(** An entry at the start of the bytes, and the rest. *)
Definition parse_entry (b : bytes) : option (bytes * jval * bytes) :=
  match b with
  | [] => None
  | n :: b =>
      let k := take (Z.to_nat n) b in
      match drop (Z.to_nat n) b with
      | [] => None
      | tag :: b =>
          let x := le_val (take 4 b) in
          let b := drop 4 b in
          if tag =? 1 then Some (k, VNum x, b)
          else if tag =? 0 then Some (k, VStr (take (Z.to_nat x) b), drop (Z.to_nat x) b)
          else Some (k, VVec (take (Z.to_nat x) b), drop (Z.to_nat x) b)
      end
  end.
Fixpoint parse_entries (fuel : nat) (b : bytes) : option (list (bytes * jval)) :=
  match b, fuel with
  | [], _ => Some []
  | _, O => None
  | _, Datatypes.S fuel =>
      e ← parse_entry b;
      l ← parse_entries fuel e.2;
      Some (e.1 :: l)
  end.

Definition object := list (bytes * jval).
Definition field_of (o : object) (k : string) : option jval :=
  snd <$> (snd <$> list_find (fun kv : bytes * jval => kv.1 = string_bytes k) o).

Definition sample_json : Json object := {|
  from_cbor b := parse_entries (length b) b;
  to_cbor l := concat (entry_bytes <$> l);
  get_string o k := match field_of o k with Some (VStr s) => Some s | _ => None end;
  get_uint32 o k := match field_of o k with Some (VNum n) => Some (u32 n) | _ => None end;
  get_vector o k := match field_of o k with Some (VVec b) => Some (u8 <$> b) | _ => None end;
|}.

Definition wire_entry (kv : string * jval) : bytes * jval := (string_bytes kv.1, kv.2).

Lemma le_val_sized (n : nat) rest : Z.of_nat n < 2 ^ 32 -> le_val (take 4 (le_bytes 4 n ++ rest)) = n.
Proof.
  intros Hn. rewrite take_app_length' by (by rewrite length_le_bytes). rewrite le_val_bytes_id; [done|]. unfold in_width. lia.
Qed.

Lemma parse_entry_bytes kv rest : entry_ok kv -> parse_entry (entry_bytes kv ++ rest) = Some (wire_entry kv, rest).
Proof.
  destruct kv as [k v]. intros [Hk Hv]. cbn [fst snd] in *. unfold entry_bytes, parse_entry. cbn [fst snd app].
  rewrite Nat2Z.id, <-!app_assoc, take_app_length, drop_app_length. destruct v as [s|n|b]; cbn [value_bytes app jval_ok] in *.
  - unfold sized. rewrite <-app_assoc, le_val_sized by tauto. rewrite drop_app_length' by (by rewrite length_le_bytes).
    change (0 =? 1) with false. change (0 =? 0) with true. cbn iota. by rewrite Nat2Z.id, take_app_length, drop_app_length.
  - rewrite take_app_length', drop_app_length', le_val_bytes_id by (done || by rewrite length_le_bytes). done.
  - unfold sized. rewrite <-app_assoc, le_val_sized by tauto. rewrite drop_app_length' by (by rewrite length_le_bytes).
    change (2 =? 1) with false. change (2 =? 0) with false. cbn iota. by rewrite Nat2Z.id, take_app_length, drop_app_length.
Qed.

Lemma parse_entries_bytes l : Forall entry_ok l -> forall fuel, (length l <= fuel)%nat ->
  parse_entries fuel (concat (entry_bytes <$> l)) = Some (wire_entry <$> l).
Proof.
  induction 1 as [|kv l Hkv Hl IH]; intros fuel Hf; [by destruct fuel|]. simpl in Hf. destruct fuel as [|fuel]; [lia|].
  cbn [fmap list_fmap concat]. pose proof (parse_entry_bytes kv (concat (entry_bytes <$> l)) Hkv) as E. cbn [parse_entries].
  destruct (entry_bytes kv ++ _) as [|x xs] eqn:Ex; [done|]. rewrite E. cbn [mbind option_bind fst snd]. by rewrite IH by lia.
Qed.

Lemma entries_length l : (length l <= length (concat (entry_bytes <$> l)))%nat.
Proof.
  induction l as [|kv l IH]; [done|]. cbn [fmap list_fmap concat]. rewrite length_app. unfold entry_bytes at 1. cbn [length].
  lia.
Qed.

Lemma byte_of_inj a b : byte_of a = byte_of b -> a = b.
Proof.
  unfold byte_of. intros E. apply (f_equal Ascii.ascii_of_nat) in E || idtac.
  assert (Ascii.nat_of_ascii a = Ascii.nat_of_ascii b) as E2 by lia.
  by rewrite <-(Ascii.ascii_nat_embedding a), <-(Ascii.ascii_nat_embedding b), E2.
Qed.
Lemma string_bytes_inj s t : string_bytes s = string_bytes t -> s = t.
Proof.
  intros E. unfold string_bytes in E. assert (Inj (=) (=) byte_of) by (intros a b; apply byte_of_inj).
  apply (inj (fmap byte_of)) in E.
  by rewrite <-(String.string_of_list_ascii_of_string s), <-(String.string_of_list_ascii_of_string t), E.
Qed.

(** A key of the list is found. *)
Lemma field_of_entry l k v : NoDup l.*1 -> (k, v) ∈ l -> field_of (wire_entry <$> l) k = Some v.
Proof.
  intros Hn Hin. induction l as [|[k' v'] l IH]; [by apply not_elem_of_nil in Hin|].
  unfold field_of in *. cbn [fmap list_fmap] in *. apply NoDup_cons in Hn as [Hk Hn]. cbn [list_find].
  unfold wire_entry at 1. cbn [fst snd]. destruct (decide (string_bytes k' = string_bytes k)) as [E|E].
  - apply string_bytes_inj in E. subst k'. apply elem_of_cons in Hin as [[= ->]|Hin]; [done|].
    destruct Hk. by apply (list_elem_of_fmap_2 fst) in Hin.
  - apply elem_of_cons in Hin as [[= -> ->]|Hin]; [done|]. specialize (IH Hn Hin). rewrite <-IH.
    by destruct (list_find _ (wire_entry <$> l)) as [[]|].
Qed.

Lemma u8_bytes_id b : is_bytes b -> u8 <$> b = b.
Proof. induction 1 as [|x l Hx _ IH]; [done|]. cbn [fmap list_fmap]. by rewrite IH, wrap_small. Qed.

Lemma sample_json_laws : @JsonLaws object sample_json.
Proof.
  constructor.
  - intros l Hn Hl. exists (wire_entry <$> l). split.
    + cbn [from_cbor to_cbor sample_json]. apply parse_entries_bytes; [done|apply entries_length].
    + apply Forall_forall. intros [k v] Hin. unfold holds. cbn [fst snd]. rewrite Forall_forall in Hl. destruct (Hl _ Hin) as [_ Hv]. cbn [snd] in Hv.
      destruct v as [s|n|b]; cbn [get_string get_uint32 get_vector sample_json jval_ok] in *; rewrite (field_of_entry l k _ Hn Hin); [done| |].
      * by rewrite wrap_small.
      * rewrite u8_bytes_id; [done|apply Hv].
  - intros l Hl. cbn [to_cbor sample_json]. induction Hl as [|[k v] l [Hk Hv] _ IH]; [constructor|]. cbn [fmap list_fmap concat fst snd] in *.
    apply Forall_app. split; [|done]. unfold entry_bytes. cbn [fst snd]. constructor; [unfold in_width; lia|]. apply Forall_app. split; [apply string_bytes_is_bytes|].
    destruct v as [s|n|b]; cbn [value_bytes jval_ok] in *; (constructor; [unfold in_width; lia|]); try apply le_bytes_is_bytes;
      apply Forall_app; (split; [apply le_bytes_is_bytes|tauto]).
  - intros l. cbn [to_cbor sample_json]. induction l as [|[k v] l IH]; [simpl; lia|]. cbn [fmap list_fmap concat foldr]. rewrite length_app.
    assert (Z.of_nat (length (entry_bytes (k, v))) <= entry_size (k, v)); [|lia].
    unfold entry_bytes, entry_size. cbn [fst snd length]. rewrite length_app. destruct v as [s|n|b]; cbn [value_bytes length]; unfold sized;
      rewrite ?length_app, ?length_le_bytes; lia.
  - intros o k b. cbn [get_vector sample_json]. destruct (field_of o k) as [[]|]; try done. intros [= <-].
    apply Forall_fmap, Forall_true. intros x. unfold compose. apply wrap_range. lia.
  - intros o k n. cbn [get_uint32 sample_json]. destruct (field_of o k) as [[]|]; try done. intros [= <-]. apply wrap_range. lia.
Qed.

(** ** Boxes *)

Definition sample_sodium : Sodium := {|
  crypto_box_easy m n pk sk := Some (replicate (Z.to_nat crypto_box_MACBYTES) 0 ++ m);
  crypto_box_open_easy c n pk sk := Some (drop (Z.to_nat crypto_box_MACBYTES) c);
  public_of sk := sk;
|}.

Lemma sample_sodium_laws : @SodiumLaws sample_sodium.
Proof.
  constructor; cbn [crypto_box_easy crypto_box_open_easy public_of sample_sodium]; try done.
  - intros m n pk sk c [= <-] Hm. split; [|done]. apply (Forall_app (in_width 8) (replicate 16 0) m).
    split; [|done]. apply (Forall_replicate _ 16). unfold in_width. lia.
  - intros m n sk1 sk2 _ _ _ _. eexists. split; [done|]. by rewrite drop_app_length' by (by rewrite length_replicate).
Qed.
