(* ===== verification/OgxExec.v ===== *)
(** * OgxExec: what an enclave, a request and a response do, exactly

    The run of a payload in one table of all its branches, the failures of the
    system and of the payload included; the message of a driver that becomes a
    task, and the result of a task that becomes a message to the driver. *)

From S2P Require Import Prelude Effects Libc Wire Device Virtio VirtioExec VirtioSafe OgxEvent Ogx OgxSafe OgxServe.

Implicit Types (d : GuestDevice) (w : ogx_world) (e : Enclave) (j : job) (f : future) (b : VirtBuf).

(** ** Enclaves *)

(** The enclave with the payload's code in it, with its data too, and at its start. *)
Definition coded (code : bytes) e : Enclave := e <| code_ := blit blank_region 0 code |>.
Definition loaded (code data : bytes) e : Enclave :=
  let e := coded code e in
  put_data data (match flag_ e with Some fl => put_data fl e | None => e end).
Definition started (code data : bytes) e : Enclave := set_exit 0 (loaded code data e).

(** The enclave as the payload leaves it, and after the clean-up. *)
Definition left_by (x : payload_exit) e : Enclave :=
  e <| data_ := fit ENCLAVE_REGION_SIZE (pe_data x) |> <| stack_ := fit ENCLAVE_REGION_SIZE (pe_stack x) |>.
Definition wiped e : Enclave := e <| code_ := blank_region |> <| data_ := blank_region |> <| stack_ := blank_region |>.

Definition payload_call e : dev_call := DPayload (label_ e) (code_ e) (data_ e) (stack_ e).
Definition result_of (x : payload_exit) : bytes :=
  let r := i32 (pe_result x) in
  if (0 <? r) && (r <? 128) then take (Z.to_nat r) (fit ENCLAVE_REGION_SIZE (pe_data x)) else [].
Definition after_payload (x : payload_exit) e : Enclave := if i32 (pe_result x) <? 0 then left_by x e else wiped (left_by x e).

#[export] Instance clean_code_dec code : Decision (clean_code code).
Proof. unfold clean_code. apply _. Defined.

(** The signals up to the first one that no handler takes, and that one. *)
Definition handled (s : siginfo_t) : bool := (si_signo s =? SIGSEGV) && si_frame s.
Fixpoint taken (l : list siginfo_t) : list siginfo_t * option siginfo_t :=
  match l with
  | [] => ([], None)
  | s :: l => if handled s then let r := taken l in (s :: r.1, r.2) else ([], Some s)
  end.

(** How a run of [Execute] ends: its result or its fault, the enclave and the flag
    [unprivileged] then, the signals that were handled and the calls that were made. *)
Record run_end := RunEnd {
  r_result : fault + bytes;
  r_enclave : Enclave;
  r_unprivileged : bool;
  r_signals : list siginfo_t;
  r_calls : list dev_call;
}.

Definition make_executable (i : nat) : dev_call := DMprotect i (Z.lor PROT_READ PROT_EXEC).
Definition make_writable (i : nat) : dev_call := DMprotect i (Z.lor PROT_READ PROT_WRITE).

(** From the moment that the payload [e] is in the enclave and was checked. *)
Definition payload_outcome (env : dev_env) (i : nat) e (tr : list dev_call) : run_end :=
  if negb (env tr (make_executable i) =? 0) then RunEnd (inl Thrown) e true [] [make_executable i] else
  let e := set_exit 0 e in
  if negb (le_val (take 8 (code_ e)) =? ENTRY_EDGE) then RunEnd (inl (Exited (128 + SIGILL))) e true [] [make_executable i] else
  let x := env (tr ++ [make_executable i]) (payload_call e) in
  let calls := [make_executable i; payload_call e] in
  match (taken (pe_signals x)).2 with
  | Some s => RunEnd (inl (Exited (128 + si_signo s))) (left_by x e) true (taken (pe_signals x)).1 calls
  | None =>
      if negb (pe_edge x =? RETURN_EDGE) then RunEnd (inl (Exited (128 + SIGILL))) (left_by x e) true (pe_signals x) calls
      else if negb (pe_home x) then RunEnd (inl Escaped) (left_by x e) true (pe_signals x) calls
      else if negb (env (tr ++ calls) (make_writable i) =? 0)
      then RunEnd (inr []) ((left_by x e) <| read_only := true |>) true (pe_signals x) (calls ++ [make_writable i])
      else RunEnd (inr (result_of x)) (after_payload x e) true (pe_signals x) (calls ++ [make_writable i])
  end.

(** The whole of it. *)
Definition enclave_outcome (env : dev_env) (i : nat) (code data : bytes) e (u : bool) (tr : list dev_call) : run_end :=
  if ENCLAVE_REGION_SIZE <? length code then RunEnd (inl Thrown) e u [] []
  else if read_only e then RunEnd (inl Undefined) e u [] []
  else if ENCLAVE_REGION_SIZE <? length data then RunEnd (inl Thrown) (coded code e) u [] []
  else if u && negb (bool_decide (clean_code (blit blank_region 0 code)))
  then RunEnd (inl Thrown) ((loaded code data e) <| code_ := blank_region |>) u [] []
  else payload_outcome env i (loaded code data e) tr.

(** The device [d] with the enclave [i], the flag and the signals of a run. *)
Definition device_at (i : nat) e (u : bool) (sigs : list siginfo_t) d : GuestDevice :=
  foldl (fun d s => signal_handler s d) (d <| enclaves_ ::= <[i := e]> |> <| unprivileged := u |>) sigs.

(** The mutex is released when the run returns or throws. *)
Definition releases (r : fault + bytes) : bool := match r with inl Thrown | inr _ => true | inl _ => false end.
Definition outcome_of (i : nat) (r : run_end) w : outcome dev_iface GuestDevice bytes :=
  let w' := World (device_at i (r_enclave r) (r_unprivileged r) (r_signals r) (w_st w)) (w_trace w ++ r_calls r)
              (if releases (r_result r) then w_held w else enclave_mutex i :: w_held w) in
  match r_result r with inl f => Fault f w' | inr v => Ret v w' end.

Lemma alter_as_insert {A} (g : A -> A) i (l : list A) x : l !! i = Some x -> alter g i l = <[i := g x]> l.
Proof.
  intros Hx. apply list_eq. intros k. destruct (decide (k = i)) as [->|Hk].
  - rewrite list_lookup_alter_eq, list_lookup_insert_eq by (by eapply lookup_lt_Some). by rewrite Hx.
  - by rewrite list_lookup_alter_ne, list_lookup_insert_ne by done.
Qed.

(** What the handler leaves alone. *)
Lemma signal_handler_enclaves s d g : signal_handler s (d <| enclaves_ ::= g |>) = (signal_handler s d) <| enclaves_ ::= g |>.
Proof. unfold signal_handler. by destruct (_ =? _). Qed.
Lemma device_at_enclaves i e u sigs d : enclaves_ (device_at i e u sigs d) = <[i := e]> (enclaves_ d).
Proof.
  unfold device_at. assert (forall d', enclaves_ (foldl (fun d s => signal_handler s d) d' sigs) = enclaves_ d') as ->; [|done].
  induction sigs as [|s sigs IH]; intros d'; [done|]. simpl. rewrite IH. unfold signal_handler. by destruct (_ =? _).
Qed.
Lemma device_at_set i e u sigs d g : (i < length (enclaves_ d))%nat ->
  (device_at i e u sigs d) <| enclaves_ ::= alter g i |> = device_at i (g e) u sigs d.
Proof.
  intros Hi. unfold device_at.
  assert (forall d', (foldl (fun d s => signal_handler s d) d' sigs) <| enclaves_ ::= alter g i |> =
    foldl (fun d s => signal_handler s d) (d' <| enclaves_ ::= alter g i |>) sigs) as ->.
  { induction sigs as [|s sigs IH]; intros d'; [done|]. simpl. by rewrite IH, <-signal_handler_enclaves. }
  f_equal. enough (alter g i (<[i := e]> (enclaves_ d)) = <[i := g e]> (enclaves_ d)) as E by (unfold set_field; simpl; unfold set_field; simpl; by rewrite E).
  rewrite (alter_as_insert g i _ e); [by rewrite list_insert_insert_eq|]. by apply list_lookup_insert_eq.
Qed.
Lemma device_at_id i e d : enclaves_ d !! i = Some e -> device_at i e (unprivileged d) [] d = d.
Proof. intros He. unfold device_at. simpl. unfold set_field. simpl. unfold set_field. simpl. rewrite list_insert_id by done. by destruct d. Qed.

Lemma ret_then {A B} (m : ogx_prog A) (k : A -> ogx_prog B) w a w' : m w = Ret a w' -> (m ≫= k) w = k a w'.
Proof. intros E. unfold mbind, prog_bind. by rewrite E. Qed.
Lemma fault_then {A B} (m : ogx_prog A) (k : A -> ogx_prog B) w x w' : m w = Fault x w' -> (m ≫= k) w = Fault x w'.
Proof. intros E. unfold mbind, prog_bind. by rewrite E. Qed.
Lemma try_ret {A B} (m : ogx_prog A) (k : A -> ogx_prog B) hd w a w' : m w = Ret a w' -> try_catch (m ≫= k) hd w = try_catch (k a) hd w'.
Proof. intros E. unfold try_catch. by rewrite (ret_then _ _ _ _ _ E). Qed.
Lemma try_stop {A B} (m : ogx_prog A) (k : A -> ogx_prog B) hd w x w' : m w = Fault x w' -> x <> Thrown -> try_catch (m ≫= k) hd w = Fault x w'.
Proof. intros E Hx. unfold try_catch. rewrite (fault_then _ _ _ _ _ E). by destruct x. Qed.
Lemma try_thrown {A B} (m : ogx_prog A) (k : A -> ogx_prog B) hd w w' : m w = Fault Thrown w' -> try_catch (m ≫= k) hd w = hd w'.
Proof. intros E. unfold try_catch. by rewrite (fault_then _ _ _ _ _ E). Qed.

(** ** The steps of a run

    [at_run i e u sigs d tr h] is the world inside of a run on the device [d]. *)
Section Exec.
Context (env : dev_env) (i : nat) (d : GuestDevice) (Hi : (i < length (enclaves_ d))%nat).
Implicit Types (u : bool) (sigs : list siginfo_t) (tr : list dev_call) (h : list dev_mutex).

Definition at_run e u sigs tr h : ogx_world := World (I := dev_iface) (device_at i e u sigs d) tr h.

Lemma run_set g e u sigs tr h : set_enclave i g (at_run e u sigs tr h) = Ret tt (at_run (g e) u sigs tr h).
Proof. unfold set_enclave, modify, at_run. f_equal. unfold set_field at 1. simpl. f_equal. by apply device_at_set. Qed.

Lemma run_get e u sigs tr h : get_enclave i (at_run e u sigs tr h) = Ret e (at_run e u sigs tr h).
Proof.
  unfold get_enclave. erewrite ret_then by reflexivity. unfold at_run at 1. simpl. rewrite device_at_enclaves.
  by rewrite list_lookup_insert_eq.
Qed.

Lemma run_call c e u sigs tr h : dos env c (at_run e u sigs tr h) = Ret (env tr c) (at_run e u sigs (tr ++ [c]) h).
Proof. done. Qed.

(** The search for forbidden instructions. *)
Lemma run_search l e u sigs tr h :
  for_each l (fun needle =>
    e ← get_enclave i;
    if memmem (code_ e) needle then set_enclave i (fun e => e <| code_ := blank_region |>);; fail Thrown else mret tt) (at_run e u sigs tr h) =
  if bool_decide (Forall (fun needle => memmem (code_ e) needle = false) l) then Ret tt (at_run e u sigs tr h)
  else Fault Thrown (at_run (e <| code_ := blank_region |>) u sigs tr h).
Proof.
  induction l as [|x l IH]; [done|]. cbn [for_each]. destruct (memmem (code_ e) x) eqn:Em.
  - rewrite bool_decide_eq_false_2 by (inversion 1; congruence). apply fault_then. rewrite (ret_then _ _ _ _ _ (run_get _ _ _ _ _)), Em.
    by rewrite (ret_then _ _ _ _ _ (run_set _ _ _ _ _ _)).
  - rewrite (ret_then _ _ _ tt (at_run e u sigs tr h)) by (by rewrite (ret_then _ _ _ _ _ (run_get _ _ _ _ _)), Em).
    rewrite IH. apply (f_equal (fun b : bool => if b then _ else _)). apply bool_decide_ext. rewrite Forall_cons. tauto.
Qed.

Lemma run_check e u sigs tr h : unprivileged (device_at i e u sigs d) = u -> check_code i (at_run e u sigs tr h) =
  if u && negb (bool_decide (clean_code (code_ e))) then Fault Thrown (at_run (e <| code_ := blank_region |>) u sigs tr h)
  else Ret tt (at_run e u sigs tr h).
Proof.
  intros Hu. unfold check_code. erewrite ret_then by reflexivity. unfold at_run at 1. cbn [w_st]. rewrite Hu.
  destruct u; [|done]. rewrite run_search. unfold clean_code. by destruct (bool_decide _).
Qed.

Lemma run_load_code code e u sigs tr h : load_code i code (at_run e u sigs tr h) =
  if ENCLAVE_REGION_SIZE <? length code then Fault Thrown (at_run e u sigs tr h)
  else if read_only e then Fault Undefined (at_run e u sigs tr h) else Ret tt (at_run (coded code e) u sigs tr h).
Proof.
  unfold load_code. destruct (_ <? _); [done|]. rewrite (ret_then _ _ _ _ _ (run_get _ _ _ _ _)). destruct (read_only e); [done|]. apply run_set.
Qed.
Lemma run_load_data code data e u sigs tr h : load_data i data (at_run (coded code e) u sigs tr h) =
  if ENCLAVE_REGION_SIZE <? length data then Fault Thrown (at_run (coded code e) u sigs tr h) else Ret tt (at_run (loaded code data e) u sigs tr h).
Proof. unfold load_data. destruct (_ <? _); [done|]. by rewrite run_set. Qed.

(** The code region is only changed by the load. *)
Lemma code_of_loaded code data e : code_ (loaded code data e) = blit blank_region 0 code.
Proof. unfold loaded, put_data. simpl. by destruct (flag_ e). Qed.

Lemma run_raised l e u sigs tr h : for_each l raised (at_run e u sigs tr h) =
  match (taken l).2 with
  | None => Ret tt (at_run e u (sigs ++ l) tr h)
  | Some s => Fault (Exited (128 + si_signo s)) (at_run e u (sigs ++ (taken l).1) tr h)
  end.
Proof.
  revert sigs. induction l as [|s l IH]; intros sigs; [simpl; by rewrite app_nil_r|]. cbn [for_each taken].
  destruct (handled s) eqn:Es; [|apply fault_then; unfold raised; unfold handled in Es; simpl; by rewrite Es, app_nil_r].
  rewrite (ret_then _ _ _ tt (at_run e u (sigs ++ [s]) tr h)).
  - rewrite IH. cbn [fst snd]. by rewrite <-!app_assoc.
  - unfold raised. unfold handled in Es. rewrite Es. unfold modify, at_run, device_at. f_equal. unfold set_field at 1. simpl. f_equal.
    by rewrite foldl_app.
Qed.

(** The payload, from its call to the end of the trampoline. *)
Lemma run_invoke e u tr h : let x := env tr (payload_call e) in
  invoke env i (at_run e u [] tr h) =
  if negb (le_val (take 8 (code_ e)) =? ENTRY_EDGE) then Fault (Exited (128 + SIGILL)) (at_run e u [] tr h) else
  match (taken (pe_signals x)).2 with
  | Some s => Fault (Exited (128 + si_signo s)) (at_run (left_by x e) u (taken (pe_signals x)).1 (tr ++ [payload_call e]) h)
  | None =>
      let w' := at_run (left_by x e) u (pe_signals x) (tr ++ [payload_call e]) h in
      if negb (pe_edge x =? RETURN_EDGE) then Fault (Exited (128 + SIGILL)) w'
      else if negb (pe_home x) then Fault Escaped w' else Ret (i32 (pe_result x)) w'
  end.
Proof.
  intros x. unfold invoke. rewrite (ret_then _ _ _ _ _ (run_get _ _ _ _ _)). unfold trampoline_enter at 1.
  destruct (_ =? ENTRY_EDGE); [|done]. rewrite (ret_then _ _ _ tt (at_run e u [] tr h)) by done.
  rewrite (ret_then (dos env (payload_call e)) _ _ x (at_run e u [] (tr ++ [payload_call e]) h)) by done.
  rewrite (ret_then _ _ _ tt (at_run (left_by x e) u [] (tr ++ [payload_call e]) h)) by apply run_set.
  destruct (taken (pe_signals x)).2 as [s|] eqn:Et.
  - apply fault_then. rewrite run_raised, Et. done.
  - rewrite (ret_then _ _ _ tt (at_run (left_by x e) u (pe_signals x) (tr ++ [payload_call e]) h)) by (by rewrite run_raised, Et).
    unfold trampoline_leave. cbv zeta. destruct (negb _); [done|]. by destruct (pe_home x).
Qed.

Lemma run_unprotect e u sigs tr h : unprotect env i (at_run e u sigs tr h) =
  if negb (env tr (make_writable i) =? 0) then Fault Thrown (at_run (e <| read_only := true |>) u sigs (tr ++ [make_writable i]) h)
  else Ret tt (at_run e u sigs (tr ++ [make_writable i]) h).
Proof.
  unfold unprotect. rewrite (ret_then (dos env (make_writable i)) _ _ _ _ (run_call _ _ _ _ _ _)). destruct (negb _); [|done].
  by rewrite (ret_then _ _ _ _ _ (run_set _ _ _ _ _ _)).
Qed.

(** The result is taken from the data, and the enclave is wiped; a negative
    result is an exception. *)
Lemma run_collect r e u sigs tr h :
  (e ← get_enclave i;
   result ← (if (0 <? r) && (r <? 128) then mret (take (Z.to_nat r) (data_ e)) else if r <? 0 then fail Thrown else mret []);
   set_enclave i (fun e => e <| code_ := blank_region |> <| data_ := blank_region |> <| stack_ := blank_region |>);;
   mret result : ogx_prog bytes) (at_run e u sigs tr h) =
  if r <? 0 then Fault Thrown (at_run e u sigs tr h)
  else Ret (if (0 <? r) && (r <? 128) then take (Z.to_nat r) (data_ e) else []) (at_run (wiped e) u sigs tr h).
Proof.
  rewrite (ret_then _ _ _ _ _ (run_get _ _ _ _ _)). destruct (Z.ltb_spec 0 r), (Z.ltb_spec r 128), (Z.ltb_spec r 0); try lia; cbn [andb];
    try done; (erewrite ret_then by reflexivity); by rewrite (ret_then _ _ _ _ _ (run_set _ _ _ _ _ _)).
Qed.

Definition inner_outcome (r : run_end) tr h : outcome dev_iface GuestDevice bytes :=
  let w' := at_run (r_enclave r) (r_unprivileged r) (r_signals r) (tr ++ r_calls r) h in
  match r_result r with inl f => Fault f w' | inr v => Ret v w' end.

Lemma run_payload e u tr h : Execute_run env i (at_run e u [] tr h) = inner_outcome (payload_outcome env i e tr) tr h.
Proof.
  unfold Execute_run. rewrite (ret_then _ _ _ tt (at_run e true [] tr h)) by done.
  unfold protect. unfold payload_outcome.
  destruct (negb (env tr (make_executable i) =? 0)) eqn:Ep.
  { apply fault_then. rewrite (ret_then (dos env (make_executable i)) _ _ _ _ (run_call _ _ _ _ _ _)). by rewrite Ep. }
  rewrite (ret_then _ _ _ tt (at_run e true [] (tr ++ [make_executable i]) h)).
  2: { rewrite (ret_then (dos env (make_executable i)) _ _ _ _ (run_call _ _ _ _ _ _)). by rewrite Ep. }
  rewrite (ret_then _ _ _ _ _ (run_set _ _ _ _ _ _)). cbv zeta. set (e1 := set_exit 0 e). set (x := env _ (payload_call e1)).
  pose proof (run_invoke e1 true (tr ++ [make_executable i]) h) as Hv. fold x in Hv. cbv zeta in Hv. rewrite <-app_assoc in Hv.
  destruct (negb (le_val _ =? _)); [by rewrite (try_stop _ _ _ _ _ _ Hv) by done|].
  destruct (taken (pe_signals x)).2 as [s|]; [by rewrite (try_stop _ _ _ _ _ _ Hv) by done|].
  destruct (negb (pe_edge x =? _)); [by rewrite (try_stop _ _ _ _ _ _ Hv) by done|].
  destruct (negb (pe_home x)); [by rewrite (try_stop _ _ _ _ _ _ Hv) by done|].
  rewrite (try_ret _ _ _ _ _ _ Hv). cbn [app] in *. pose proof (run_unprotect (left_by x e1) true (pe_signals x) (tr ++ [make_executable i; payload_call e1]) h) as Hu.
  rewrite <-app_assoc in Hu. cbn [app] in Hu. clear Ep. destruct (negb _); [by rewrite (try_thrown _ _ _ _ _ Hu)|]. rewrite (try_ret _ _ _ _ _ _ Hu).
  unfold try_catch. rewrite run_collect. unfold inner_outcome, after_payload, result_of. cbn [r_result r_enclave r_unprivileged r_signals r_calls].
  destruct (Z.ltb_spec (i32 (pe_result x)) 0); [|done]. rewrite (proj2 (Z.ltb_ge 0 _)) by lia. done.
Qed.

(** ** The whole run *)

Lemma run_inner code data e u tr h : unprivileged (device_at i e u [] d) = u ->
  (Execute_load i code data;; Execute_run env i : ogx_prog bytes) (at_run e u [] tr h) = inner_outcome (enclave_outcome env i code data e u tr) tr h.
Proof.
  intros Hu. unfold Execute_load, enclave_outcome.
  pose proof (run_load_code code e u [] tr h) as H1. destruct (_ <? length code).
  { unfold inner_outcome. simpl. rewrite app_nil_r. by do 2 apply fault_then. }
  destruct (read_only e); [unfold inner_outcome; simpl; rewrite app_nil_r; by do 2 apply fault_then|].
  pose proof (run_load_data code data e u [] tr h) as H2. destruct (_ <? length data).
  { unfold inner_outcome. simpl. rewrite app_nil_r. apply fault_then. rewrite (ret_then _ _ _ _ _ H1). by apply fault_then. }
  pose proof (run_check (loaded code data e) u [] tr h Hu) as H3. rewrite code_of_loaded in H3. destruct (u && _).
  { unfold inner_outcome. simpl. rewrite app_nil_r. apply fault_then. by rewrite (ret_then _ _ _ _ _ H1), (ret_then _ _ _ _ _ H2). }
  rewrite (ret_then _ _ _ tt (at_run (loaded code data e) u [] tr h)) by (by rewrite (ret_then _ _ _ _ _ H1), (ret_then _ _ _ _ _ H2)).
  apply run_payload.
Qed.

End Exec.

Lemma run_locked {A} (mu : dev_mutex) (m : ogx_prog A) w : mu ∉ (w_held w : list dev_mutex) ->
  lock_guard mu m w = match m (World (w_st w) (w_trace w) (mu :: w_held w)) with
                      | Ret a w' => (_ ← dunlock mu; mret a : ogx_prog A) w'
                      | Fault Thrown w' => (_ ← dunlock mu; fail Thrown : ogx_prog A) w'
                      | r => r
                      end.
Proof.
  intros Hmu. unfold lock_guard. rewrite (ret_then _ _ _ tt (World (I := dev_iface) (w_st w) (w_trace w) (mu :: w_held w))); [done|].
  unfold dlock, lock. by rewrite decide_False.
Qed.

Lemma run_unlocked {A} (mu : dev_mutex) (k : ogx_prog A) d tr h : mu ∉ (h : list dev_mutex) ->
  (_ ← dunlock mu; k : ogx_prog A) (World (I := dev_iface) d tr (mu :: h)) = k (World (I := dev_iface) d tr h).
Proof.
  intros Hmu. apply (ret_then _ (fun _ => k) _ tt). unfold dunlock, unlock. rewrite decide_True by left. f_equal. unfold set_field. simpl. f_equal.
  rewrite filter_cons_False by tauto. by apply (filter_ne_id (I := dev_iface)).
Qed.

Lemma Execute_exact env i code data e w : enclaves_ (w_st w) !! i = Some e -> enclave_mutex i ∉ (w_held w : list dev_mutex) ->
  Enclave_Execute env i code data w = outcome_of i (enclave_outcome env i code data e (unprivileged (w_st w)) (w_trace w)) w.
Proof.
  intros He Hmu. unfold Enclave_Execute. rewrite run_locked by done. rewrite <-(device_at_id i e (w_st w) He) at 1.
  change (World _ _ _) with (at_run i (w_st w) e (unprivileged (w_st w)) [] (w_trace w) (enclave_mutex i :: w_held w)).
  rewrite run_inner; [|by eapply lookup_lt_Some|by rewrite device_at_id].
  unfold inner_outcome, outcome_of, at_run. destruct (r_result _) as [[]|v]; try done; by apply run_unlocked.
Qed.

(** ** Messages *)

Section Messages.
Context {J : Type} `{!Json J} `{!Sodium} `{!JsonLaws J} `{!SodiumLaws} (env : dev_env).

(** The driver's message: its length, then the box. *)
Definition message_at d b (c : bytes) : Prop :=
  let m := m_mem (gd_base d) in
  in_memory m (vb_head b) (2 + length c) /\ 0 < length c < 2 ^ 16 /\
  guest_bytes m (vb_head b) 2 = le_bytes 2 (length c) /\ guest_bytes m (vb_head b + 2) (length c) = c.

Lemma in_memory_part m a n k l : in_memory m a n -> 0 <= k < n -> k + l <= n -> in_memory m (a + k) l.
Proof. unfold in_memory. lia. Qed.

Lemma wp_ogx_readU b size (Q : option bytes * VirtBuf -> ogx_world -> Prop) w :
  ogx_ok (w_st w) -> in_memory (m_mem (gd_base (w_st w))) (vb_head b) size -> in_width 64 size ->
  Q (Some (guest_bytes (m_mem (gd_base (w_st w))) (vb_head b) size), b <| vb_head ::= fun h => u64 (h + size) |>) w ->
  wp (ogx_vdev (readU b size)) Q w.
Proof.
  intros Hd Hin Hs HQ. pose proof (vd_mem _ (og_base _ Hd)) as Hm. apply wp_zoom. unfold readU.
  apply wp_bind, wp_mm_read; [done|by eapply in_memory_width|done| |done]. intros _. apply wp_ret.
  by destruct w as [[]].
Qed.

Lemma wp_lock_guard {A} (mu : dev_mutex) (m : ogx_prog A) (Q : A -> ogx_world -> Prop) w :
  mu ∉ (w_held w : list dev_mutex) ->
  wp m (fun a w' => w_held w' = mu :: w_held w /\ Q a (w' <| w_held := w_held w |>)) (w <| w_held ::= cons (mu : mutex dev_iface) |>) ->
  wp (lock_guard mu m) Q w.
Proof.
  intros Hmu Hm. apply wpe_wp, wpx_lock_guard; [done|]. by apply wpx_wp.
Qed.

(** The device with one more task, and its future. *)
Definition scheduled sender (id : Z) (code data : bytes) d : GuestDevice :=
  d <| next_task := Pos.succ (next_task d) |> <| queue_ := queue_ d ++ [Job (next_task d) id code data] |>
    <| enclave_futures_ := enclave_futures_ d ++ [Fut id sender (Some (next_task d))] |>.

Lemma OnLoadEvent_exact sender id code data (Q : unit -> ogx_world -> Prop) w :
  ogx_ok (w_st w) -> id < NUM_ENCLAVES -> free device_mutex w -> free queue_mutex w ->
  Q tt (w <| w_st ::= scheduled sender id code data |> <| w_trace := w_trace w ++ [DCond_signal : call dev_iface] |>) ->
  wp (OnLoadEvent env sender id code data) Q w.
Proof.
  intros Hd Hi Hm1 Hm2 HQ. unfold OnLoadEvent. apply wp_lock_guard; [done|]. wp_go. simpl.
  rewrite (proj2 (Z.leb_gt _ _)) by (pose proof (og_encl _ Hd) as He; simpl; unfold NUM_ENCLAVES in *; lia).
  unfold Schedule. apply wp_bind, wp_bind, wp_gets, wp_bind, wp_assert.
  { simpl. pose proof (og_pool _ Hd). by apply negb_true_iff, Nat.eqb_neq. }
  apply wp_bind, wp_modify, wp_bind, wp_lock_guard; [simpl; unfold free in *; set_solver|]. apply wp_modify. split; [done|].
  apply wp_bind. dev_step. apply wp_ret, wp_modify. split; [done|]. revert HQ. by destruct w as [[] ? ?].
Qed.

Lemma ReadDriverMessage_loads b sk nonce id code data c w : ogx_ok (w_st w) -> free device_mutex w -> free queue_mutex w ->
  length sk = Z.to_nat crypto_box_SECRETKEYBYTES -> is_bytes sk -> length nonce = Z.to_nat crypto_box_NONCEBYTES -> is_bytes nonce ->
  event_ok (LoadEvent id code data) ->
  Encrypt nonce (public_of sk) sk (public_of (sec_key_ (w_st w))) (Serialize (LoadEvent id code data)) = Some c -> message_at (w_st w) b c ->
  wp (ReadDriverMessage env b) (fun r w' => r.1 = 0 /\ w_st w' = scheduled (public_of sk) id code data (w_st w) /\ w_held w' = w_held w) w.
Proof.
  intros Hd Hm1 Hm2 Lk Bk Ln Bn He Ec (Hin & Hlc & H1 & H2). unfold ReadDriverMessage. apply wp_bind. dev_step.
  set (w1 := w <| w_trace := _ |>). pose proof (vd_mem _ (og_base _ Hd)) as Hmm.
  pose proof (in_memory_part _ _ _ 0 2 Hin ltac:(lia) ltac:(lia)) as Hin1. rewrite Z.add_0_r in Hin1.
  pose proof (in_memory_part _ _ _ 2 (length c) Hin ltac:(lia) ltac:(lia)) as Hin2.
  apply wp_bind, wp_ogx_readU; [done|done|done|]. cbn [fst snd]. change (w_st w1) with (w_st w). rewrite H1.
  rewrite le_val_bytes_id by (unfold in_width; lia).
  assert (u64 (vb_head b + 2) = vb_head b + 2) as Eh by (apply wrap_small; by eapply in_memory_width).
  apply wp_bind, wp_ogx_readU; [done|simpl; unfold set_field; by rewrite Eh|unfold in_width; lia|]. simpl. unfold set_field. rewrite Eh, H2.
  destruct (Decrypt_Encrypt nonce sk (sec_key_ (w_st w)) (LoadEvent id code data) Lk) as (c' & Ec' & Ed);
    [pose proof (og_sec _ Hd) as Ls; unfold crypto_box_SECRETKEYBYTES in *; lia|done..|]. rewrite Ec in Ec'. injection Ec' as <-.
  apply wp_bind, wpe_wp, wpx_try, wpx_wp. wp_go. eapply wp_get_or; [exact Ed|]. cbn [fst snd].
  apply wp_bind, OnLoadEvent_exact; [done|apply He|done|done|]. apply wp_ret, wp_ret. done.
Qed.

(** ** Responses *)

(** The memory with the length of the box and the box in the buffer. *)
Definition stored b (c : bytes) (v : vdev) : vdev :=
  v <| m_mem := guest_store (guest_store (m_mem v) (vb_guest_addr b) (le_bytes 2 (length c))) (vb_guest_addr b + 2) c |>.

Lemma wp_ogx_write b off data (Q : Z -> ogx_world -> Prop) w :
  ogx_ok (w_st w) -> in_memory (m_mem (gd_base (w_st w))) (vb_guest_addr b + off) (length data) -> in_width 64 (length data) ->
  Q 0 (w <| w_st ::= fun d => ogx_put_base ((gd_base d) <| m_mem := guest_store (m_mem (gd_base d)) (vb_guest_addr b + off) data |>) d |>) ->
  wp (ogx_vdev (vb_write b off data)) Q w.
Proof.
  intros Hd Hin Hs HQ. pose proof (vd_mem _ (og_base _ Hd)) as Hm. apply wp_zoom. unfold vb_write.
  assert (u64 (vb_guest_addr b + off) = vb_guest_addr b + off) as -> by (apply wrap_small; by eapply in_memory_width).
  apply wp_mm_write; [done|by eapply in_memory_width|done| |done]. intros _. exact HQ.
Qed.

(** The queue after the return of the buffer, if there is room. *)
Definition after_put (b : VirtBuf) (v v' : vdev) : Prop :=
  (returnable v VQ_READ /\ v' = returned VQ_READ b v) \/ (~ returnable v VQ_READ /\ v' = v).

Lemma send_exact b c w : ogx_ok (w_st w) -> in_memory (m_mem (gd_base (w_st w))) (vb_guest_addr b) 2002 -> is_bytes c -> length c <= 2000 ->
  wp (_ ← ogx_vdev (vb_write b 0 (le_bytes 2 (length c)));
      _ ← ogx_vdev (vb_write b 2 c);
      _ ← ogx_vdev (put_buf VQ_READ b);
      _ ← ogx_vdev (send_irq env READY_IRQ);
      mret (None : option unit)) (fun _ w' => exists v', after_put b (stored b c (gd_base (w_st w))) v' /\ w_st w' = ogx_put_base v' (w_st w) /\
    last (w_trace w' : list dev_call) = Some (DWrite CHILD_DEVICE_IOAPIC_FD [READY_IRQ])) w.
Proof.
  intros Hd Hin Bc Lc. pose proof (in_memory_part _ _ _ 0 2 Hin ltac:(lia) ltac:(lia)) as Hin1.
  pose proof (in_memory_part _ _ _ 2 (length c) Hin ltac:(lia) ltac:(lia)) as Hin2.
  assert (vdev_ok (stored b c (gd_base (w_st w)))) as Hv.
  { rewrite Z.add_0_r in Hin1. pose proof (vdev_ok_store (vb_guest_addr b) (le_bytes 2 (length c)) _ (og_base _ Hd) ltac:(by rewrite length_le_bytes) (le_bytes_is_bytes _ _)) as Hv1.
    exact (vdev_ok_store (vb_guest_addr b + 2) c _ Hv1 ltac:(exact Hin2) Bc). }
  apply wp_bind, wp_ogx_write; [done|by rewrite length_le_bytes|by rewrite length_le_bytes|].
  apply wp_bind, wp_ogx_write; [apply ogx_ok_base; [done| |done]|exact Hin2|unfold in_width; lia|].
  { apply vdev_ok_store; [apply Hd|by rewrite length_le_bytes|apply le_bytes_is_bytes]. }
  rewrite Z.add_0_r. set (w2 := _ <| w_st ::= _ |>).
  assert (w_st w2 = ogx_put_base (stored b c (gd_base (w_st w))) (w_st w)) as E2 by done. clearbody w2.
  assert (forall v' w', w_st w' = ogx_put_base v' (w_st w) -> after_put b (stored b c (gd_base (w_st w))) v' ->
    wp (_ ← ogx_vdev (send_irq env READY_IRQ); mret (None : option unit)) (fun _ w' => exists v', after_put b (stored b c (gd_base (w_st w))) v' /\
      w_st w' = ogx_put_base v' (w_st w) /\ last (w_trace w' : list dev_call) = Some (DWrite CHILD_DEVICE_IOAPIC_FD [READY_IRQ])) w') as Hirq.
  { intros v' w' E' Ha. apply wp_bind, wp_zoom. unfold send_irq. apply wp_bind. dev_step. wp_go. exists v'. split_and!; [done| |].
    - simpl. rewrite E'. done.
    - simpl. apply last_snoc. }
  apply wp_bind, wp_zoom, put_buf_exec; [simpl; by rewrite E2|done| |]; simpl; rewrite E2; intros Hr.
  - apply (Hirq (stored b c (gd_base (w_st w)))); [simpl; by rewrite E2|by right].
  - apply (Hirq (returned VQ_READ b (stored b c (gd_base (w_st w))))); [simpl; by rewrite E2|by left].
Qed.

Lemma respond_exact i f t r sk b bs w : ogx_ok (w_st w) ->
  enclave_futures_ (w_st w) !! i = Some f -> f_task f = Some t -> results (w_st w) !! t = Some (Some r) ->
  response_buffers_ (w_st w) = b :: bs -> in_memory (m_mem (gd_base (w_st w))) (vb_guest_addr b) 2002 ->
  length sk = Z.to_nat crypto_box_SECRETKEYBYTES -> f_sender f = public_of sk ->
  pub_key_ (w_st w) = public_of (sec_key_ (w_st w)) -> is_bytes (sec_key_ (w_st w)) ->
  wp (respond env i) (fun _ w' => exists c,
    Decrypt sk c = Some (pub_key_ (w_st w), ResponseEvent (u32 (f_id f)) r) /\ length c <= 2000 /\
    after_put b (stored b c (gd_base (w_st w))) (gd_base (w_st w')) /\ response_buffers_ (w_st w') = bs /\
    enclave_futures_ (w_st w') = alter (fun f => f <| f_task := None |>) i (enclave_futures_ (w_st w)) /\
    last (w_trace w' : list dev_call) = Some (DWrite CHILD_DEVICE_IOAPIC_FD [READY_IRQ])) w.
Proof.
  intros Hd Ef Et Er Eb Hin Lk Es Ep Bs. unfold respond. wp_go. rewrite Eb. apply wp_bind. eapply wp_get_or; [exact Ef|].
  rewrite Et. cbn [mbind option_bind]. rewrite Er. apply wp_bind, wp_modify, wp_bind, wp_ret, wp_bind. dev_step. set (nonce := env _ _).
  pose proof (og_results _ Hd _ _ Er r eq_refl) as Hr.
  destruct (Decrypt_Encrypt (fit crypto_box_NONCEBYTES nonce) (sec_key_ (w_st w)) sk (ResponseEvent (u32 (f_id f)) r)) as (c & Ec & Ed).
  { pose proof (og_sec _ Hd). unfold crypto_box_SECRETKEYBYTES in *. lia. }
  { done. }
  { done. }
  { pose proof (fit_length crypto_box_NONCEBYTES nonce ltac:(done)). lia. }
  { apply fit_bytes. }
  { split_and!; [apply wrap_range; lia|apply Hr|apply Hr]. }
  destruct (response_box (w_st w) f nonce r c Hd Hr) as [Bc Lc]; [by rewrite Ep, Es|].
  apply wp_bind. eapply wp_get_or; [by rewrite Ep, Es|]. apply wp_bind, wp_modify.
  set (w1 := _ <| w_st ::= _ |>). assert (ogx_ok (w_st w1)) as Hd1 by apply ogx_ok_buffers, ogx_ok_got, Hd.
  eapply wp_mono; [apply (send_exact b c w1); [done|done|done|done]|]. intros r' w' (v' & Ha & Es' & Hl). exists c.
  rewrite Es'. split_and!; try done. by rewrite Ep.
Qed.
End Messages.
