(* ===== verification/OgxProps.v ===== *)
(** * OgxProps: the enclave device is correct

    The properties of the enclave device, with an example for each. *)

From S2P Require Import Prelude Effects Libc Wire Device Virtio VirtioExec VirtioSafe OgxEvent Ogx OgxSafe OgxServe OgxSample OgxExec.

(** ** An example *)

#[local] Existing Instances sample_json sample_json_laws sample_sodium sample_sodium_laws.
#[local] Opaque blank_region.

Definition sample_key : bytes := replicate 32 7.

(** A payload of two instructions behind the mark of the trampoline. *)
Definition payload_of (code : bytes) : bytes := le_bytes 8 ENTRY_EDGE ++ code.
Definition sample_code : bytes := payload_of [0x90; 0xc3].

(** Payloads return the three bytes at the start of their data. *)
Definition ogx_env : dev_env := fun _ x =>
  match x return dev_reply x with
  | DRead _ _ => (0, [])
  | DNew n => replicate (Z.to_nat n) 0
  | DCalloc _ => true
  | DGetenv _ => None
  | DStat _ | DRealpath _ => None
  | DMapFile _ => Some (string_bytes "flag")
  | DRandombytes n => replicate (Z.to_nat n) 5
  | DReadFile path => if String.eqb path OGX_ENCLAVE_FLAG_PATH then sample_code else sample_key
  | DPayload _ _ data stack => PayloadExit 3 data stack [] RETURN_EDGE true
  | _ => 0
  end.

(** 4 KiB of guest memory at 0x1000. *)
Definition ogx_memory (m : bytes) : memory_manager := new_memory_manager 0x1000 4096 m.
Definition zeros : bytes := replicate 4096 0.
Definition ogx_base (m : bytes) : vdev := (new_MMIOVirtioDev VIRTIO_OGX_DEV 0 [] MMIO_START NUM_VQS) <| m_mem := ogx_memory m |> <| m_config_space_size := 0 |>.
Definition sample_enclave (i : nat) : Enclave := Encl i (i + 1) blank_region blank_region blank_region None false.
Definition ogx_sample (m : bytes) (jobs : list job) (res : gmap positive (option bytes)) (fs : list future) (bs : list VirtBuf) : GuestDevice :=
  Gd (ogx_base m) sample_key sample_key (sample_enclave <$> seq 0 8) 4 [] jobs [] 2 res fs bs 0 0 true.

Lemma sample_key_ok : key_ok sample_key.
Proof. split; [done|]. apply (Forall_replicate _ 32). unfold in_width. lia. Qed.

Lemma ogx_base_ok m : length m = 4096%nat -> is_bytes m -> vdev_ok (ogx_base m).
Proof.
  intros Hl Hb. constructor; try done.
  - constructor; try done. simpl. by rewrite Hl.
  - apply (Forall_replicate _ 2). constructor; simpl; try done; unfold in_width; try lia. repeat constructor; simpl; lia.
Qed.

Lemma ogx_sample_ok m jobs res fs bs : length m = 4096%nat -> is_bytes m -> Forall job_ok jobs ->
  map_Forall (fun _ r => forall v, r = Some v -> is_bytes v /\ length v < 128) res -> Forall (fun f => key_ok (f_sender f)) fs ->
  Forall (fun f => forall t, f_task f = Some t -> t ∈ j_task <$> jobs ++ [] \/ is_Some (res !! t)) fs ->
  ogx_ok (ogx_sample m jobs res fs bs).
Proof.
  intros Hl Hb Hj Hr Hs Ht. constructor; try done; [by apply ogx_base_ok|apply sample_key_ok| |].
  2: { unfold pending. simpl. by rewrite app_nil_r. }
  apply Forall_fmap, Forall_true. intros i. constructor; try apply blank_region_ok; done.
Qed.

Lemma zeros_ok : length zeros = 4096%nat /\ is_bytes zeros.
Proof. split; [done|]. apply (Forall_replicate _ 4096). unfold in_width. lia. Qed.

(** ** The threads *)

(** C6: With key files of the right size, and as long as the system makes the code
    of an enclave writable again after a run, the device does not start, or it starts
    well formed (registers and queues in range, enclaves with their regions, tasks
    of valid requests, no future whose task is lost).  Then every thread, in every
    state that any interleaving of the threads and the guest's processors reaches,
    executes its next step without a fault: no access outside of an object, no
    exception that leaves a thread, no failed assertion, no mutex taken twice or
    left locked.  A step may wait, or end the process when a payload raises a signal
    that no handler can take, or fails a check of the trampoline.  All this is
    for payloads that come back as they should: one that passes the return check
    of the trampoline is back at the caller, with the caller's stack and registers
    and no memory changed but its own.  The trampoline does not enforce that.
    Without it, the only other way a step can end is [Escaped], in the run of such
    a payload; nothing is claimed about the process after that. *)
Theorem ogx_serves_safely {J} `{!Json J} `{!Sodium} `{!JsonLaws J} `{!SodiumLaws} (env : dev_env) fuel raw_vendor memory (v : dev_world unit) :
  is_bytes memory -> Z.of_nat (length memory) = HOST_SYS_MEM_SIZE ->
  (forall tr, Z.of_nat (length (env tr (DReadFile OGX_PUB_KEY_PATH))) = crypto_box_PUBLICKEYBYTES) ->
  (forall tr, Z.of_nat (length (env tr (DReadFile OGX_SEC_KEY_PATH))) = crypto_box_SECRETKEYBYTES) -> writable_again env -> w_held v = [] ->
  wpx (ogx_main env raw_vendor memory) (fun r v' => forall d, r = Some d -> ogx_ok d /\
    forall w, rtc (ogx_step env fuel) (World d (w_trace v') []) w -> forall o, op_ok o ->
    let fine (_ : unit) (w' : ogx_world) := ogx_ok (w_st w') /\ w_held w' = [] in
    (payloads_return env -> safe (run_op env fuel o) fine w) /\
    upto payload_stops (run_op env fuel o) fine w) (fun _ => True) v.
Proof.
  intros Hb Hl Hp Hs Hrw Hh. eapply wpx_mono; [by apply ogx_main_starts| |done]. intros r v' Hr d Ed. specialize (Hr d Ed). split; [done|].
  intros w Hw o Ho fine. destruct (ogx_reachable_kept env fuel Hrw (World d (w_trace v') []) w Hr eq_refl Hw) as (Hd & Hh' & _). simpl in Hh'.
  assert (forall w', kept w w' -> fine tt w') as Hfine by (intros w' (Hd2 & Hh2 & _); split; [done|by rewrite Hh2]).
  split; [intros Hpr|]; eapply upto_mono.
  - apply run_op_kept; [done|done|by right|done..].
  - intros []. apply Hfine.
  - apply (run_op_kept env fuel Hrw payload_stops); [apply payload_stops_all|by left|done..].
  - intros []. apply Hfine.
Qed.

Lemma ogx_serves_safely_witness : wpx (ogx_main ogx_env 0 (replicate (Z.to_nat HOST_SYS_MEM_SIZE) 0)) (fun r v' => forall d, r = Some d -> ogx_ok d /\
    forall w, rtc (ogx_step ogx_env 10) (World d (w_trace v') []) w -> forall o, op_ok o ->
    safe (run_op ogx_env 10 o) (fun _ w' => ogx_ok (w_st w') /\ w_held w' = []) w) (fun _ => True) (World tt [] []).
Proof.
  eapply wpx_mono; [apply (ogx_serves_safely ogx_env 10)| |done].
  - apply Forall_replicate. unfold in_width. lia.
  - rewrite length_replicate. unfold HOST_SYS_MEM_SIZE. lia.
  - done.
  - done.
  - done.
  - done.
  - intros r v' Hr d Ed. destruct (Hr d Ed) as [Hd Hw]. split; [exact Hd|]. intros w Hrtc o Ho. apply (proj1 (Hw w Hrtc o Ho)). done.
Defined.

(** A payload that replaces the saved stack pointer by one of its own, at a place
    that is followed by the mark, passes the check of the trampoline and escapes. *)
Definition escaping_env : dev_env := fun tr x =>
  match x return dev_reply x with
  | DPayload _ _ data stack => PayloadExit 3 data stack [] RETURN_EDGE false
  | c => ogx_env tr c
  end.

(** C7: Once the device is unprivileged, and no worker has passed the check with
    another payload before that, the device stays so, and every payload that any
    thread runs from then on, whatever the guest sends and however the threads
    take turns, has none of the forbidden instructions (WRPKRU, SYSCALL, SYSENTER,
    INT 0x80) in its code. *)
Theorem ogx_payloads_filtered {J} `{!Json J} `{!Sodium} `{!JsonLaws J} `{!SodiumLaws} (env : dev_env) fuel (w w' : ogx_world) :
  writable_again env -> ogx_ok (w_st w) -> w_held w = [] -> quiet (w_st w) -> rtc (ogx_step env fuel) w w' ->
  quiet (w_st w') /\
  exists tr, (w_trace w' : list dev_call) = (w_trace w : list dev_call) ++ tr /\
    forall label code data stack, DPayload label code data stack ∈ tr -> clean_code code.
Proof.
  intros Hrw Hd Hh Hu Hr. destruct (ogx_reachable_kept env fuel Hrw _ _ Hd Hh Hr) as (_ & _ & Hf). destruct (Hf Hu) as (Hu' & tr & E & Hc).
  split; [done|]. exists tr. split; [done|]. intros label code data stack Hin. by apply (proj1 (Forall_forall _ _) Hc) in Hin.
Qed.

(** The world after a list of steps. *)
Definition run_ops (w : ogx_world) (os : list thread_op) : option ogx_world :=
  foldl (fun r o => w ← r; match run_op ogx_env 10 o w with Ret _ w' => Some w' | Fault _ _ => None end) (Some w) os.

Lemma run_ops_none os : foldl (fun r o => w ← r; match run_op ogx_env 10 o w with Ret _ w' => Some w' | Fault _ _ => None end) None os = None.
Proof. by induction os. Qed.

Lemma run_ops_steps os : Forall op_ok os -> forall w w', run_ops w os = Some w' -> rtc (ogx_step ogx_env 10) w w'.
Proof.
  unfold run_ops. induction 1 as [|o os Ho _ IH]; intros w w' E; [by injection E as <-|]. cbn [foldl mbind option_bind] in E.
  destruct (run_op ogx_env 10 o w) as [[] w1|] eqn:E1; [|by rewrite run_ops_none in E].
  eapply rtc_l; [by eapply step_op|by apply IH].
Qed.

(** A worker runs a payload of two instructions. *)
Definition sample_job : job := Job 1 1 sample_code [1; 2; 3].
Definition busy_world : ogx_world := World (ogx_sample zeros [sample_job] ∅ [] []) [] [].
Definition after_run : ogx_world := default busy_world (run_ops busy_world [OpEnter 0; OpRun 0]).

Lemma sample_job_ok : job_ok sample_job.
Proof. split_and!; [done|done|apply (bool_decide_unpack _); vm_compute; exact I|repeat constructor; unfold in_width; lia|done|done]. Qed.
Lemma sample_event_ok : event_ok (LoadEvent 1 [0x90; 0xc3] [1; 2; 3]).
Proof. split_and!; [done|done|repeat constructor; unfold in_width; lia|repeat constructor; unfold in_width; lia|done|done]. Qed.

Lemma busy_world_ok : ogx_ok (w_st busy_world).
Proof. apply ogx_sample_ok; [apply zeros_ok|apply zeros_ok|by constructor; [apply sample_job_ok|]|done|done|done]. Qed.

Lemma ogx_payloads_filtered_witness : quiet (w_st after_run) /\
  exists tr, (w_trace after_run : list dev_call) = tr /\ forall label code data stack, DPayload label code data stack ∈ tr -> clean_code code.
Proof.
  apply (ogx_payloads_filtered ogx_env 10 busy_world after_run); [done|apply busy_world_ok|done|split; [done|constructor]|].
  apply (run_ops_steps [OpEnter 0; OpRun 0]); [by repeat constructor|]. unfold after_run.
  destruct (run_ops busy_world [OpEnter 0; OpRun 0]) as [w|] eqn:E; [done|].
  assert (is_Some (run_ops busy_world [OpEnter 0; OpRun 0])) as [w Hw] by (apply (bool_decide_unpack _); vm_compute; exact I).
  by rewrite E in Hw.
Defined.

(** The condition on the other workers is needed: in a new device, two workers pass
    the check before one of them gives up the privileges; the second payload runs
    after that and is a SYSCALL. *)
Definition race_world : ogx_world :=
  World ((ogx_sample zeros [sample_job; Job 2 2 (payload_of [0x0f; 0x05]) []] ∅ [] []) <| unprivileged := false |>) [] [].

(** The call at [k] runs a payload that is not clean. *)
Definition dirty_at (tr : list dev_call) (k : nat) : bool :=
  match tr !! k with Some (DPayload _ code _ _) => negb (bool_decide (clean_code code)) | _ => false end.

Lemma dirty_at_true tr k : dirty_at tr k = true ->
  exists label code data stack, tr !! k = Some (DPayload label code data stack) /\ ~ clean_code code.
Proof.
  unfold dirty_at. destruct (tr !! k) as [[]|]; try done. intros Hb. apply negb_true_iff, bool_decide_eq_false in Hb. by eexists _, _, _, _.
Qed.

Definition race_check : bool :=
  match run_ops race_world [OpEnter 0; OpEnter 0; OpRun 0] with
  | None => false
  | Some w1 =>
      unprivileged (w_st w1) &&
      match run_ops w1 [OpRun 0] with Some w2 => dirty_at (w_trace w2) (S (length (w_trace w1))) | None => false end
  end.

Lemma unchecked_payload_race : exists w1 w2, rtc (ogx_step ogx_env 10) race_world w1 /\ unprivileged (w_st w1) = true /\
  rtc (ogx_step ogx_env 10) w1 w2 /\ exists label code data stack,
    (w_trace w2 : list dev_call) !! S (length (w_trace w1)) = Some (DPayload label code data stack) /\ ~ clean_code code.
Proof.
  assert (race_check = true) as H by (vm_compute; reflexivity). unfold race_check in H.
  destruct (run_ops race_world [OpEnter 0; OpEnter 0; OpRun 0]) as [w1|] eqn:E1; [|done]. apply andb_true_iff in H as [Hu H].
  destruct (run_ops w1 [OpRun 0]) as [w2|] eqn:E2; [|done]. exists w1, w2. split_and!; [|done| |by apply dirty_at_true].
  - apply (run_ops_steps [OpEnter 0; OpEnter 0; OpRun 0]); [by repeat constructor|done].
  - apply (run_ops_steps [OpRun 0]); [by repeat constructor|done].
Qed.

Lemma payload_escapes : exists w', run_op escaping_env 10 (OpRun 0) (default busy_world (run_ops busy_world [OpEnter 0])) = Fault Escaped w'.
Proof.
  assert (match run_op escaping_env 10 (OpRun 0) (default busy_world (run_ops busy_world [OpEnter 0])) with Fault Escaped _ => true | _ => false end = true) as H
    by (vm_compute; reflexivity).
  destruct (run_op escaping_env 10 (OpRun 0) _) as [|[] w']; try done. by exists w'.
Qed.

(** ** Enclaves *)



(** ** Messages *)

(** C25: A request that a driver encrypted for the device with its own key is
    scheduled exactly as it was sent: the device reads the length and the box
    from the guest's buffer, decrypts it, appends one task with the enclave, the
    code and the data of the request to the queue of the pool, and remembers the
    driver's key with the task for the response.  This holds for every codec and
    every box that fulfil the laws. *)
Theorem ogx_request_scheduled {J} `{!Json J} `{!Sodium} `{!JsonLaws J} `{!SodiumLaws} (env : dev_env) b sk nonce id code data c (w : ogx_world) :
  ogx_ok (w_st w) -> device_mutex ∉ (w_held w : list dev_mutex) -> queue_mutex ∉ (w_held w : list dev_mutex) ->
  length sk = Z.to_nat crypto_box_SECRETKEYBYTES -> is_bytes sk -> length nonce = Z.to_nat crypto_box_NONCEBYTES -> is_bytes nonce ->
  event_ok (LoadEvent id code data) ->
  Encrypt nonce (public_of sk) sk (public_of (sec_key_ (w_st w))) (Serialize (LoadEvent id code data)) = Some c -> message_at (w_st w) b c ->
  wp (ReadDriverMessage env b) (fun r w' => r.1 = 0 /\ w_held w' = w_held w /\
    queue_ (w_st w') = queue_ (w_st w) ++ [Job (next_task (w_st w)) id code data] /\
    enclave_futures_ (w_st w') = enclave_futures_ (w_st w) ++ [Fut id (public_of sk) (Some (next_task (w_st w)))]) w.
Proof.
  intros. eapply wp_mono; [by eapply ReadDriverMessage_loads|]. intros r w' (Hr & -> & Hh). done.
Qed.

Definition sample_nonce : bytes := replicate 24 5.
Definition sample_box : bytes :=
  default [] (Encrypt sample_nonce sample_key sample_key sample_key (Serialize (LoadEvent 1 [0x90; 0xc3] [1; 2; 3]))).
Definition message_memory : bytes := blit zeros 16 (le_bytes 2 (length sample_box) ++ sample_box).
Definition message_world : ogx_world := World (ogx_sample message_memory [] ∅ [] []) [] [].

Lemma message_memory_ok : length message_memory = 4096%nat /\ is_bytes message_memory.
Proof. split; [vm_compute; reflexivity|]. apply (bool_decide_unpack _). vm_compute. exact I. Qed.

Lemma ogx_request_scheduled_witness :
  wp (ReadDriverMessage ogx_env (Vbuf 0x1010 4080 0 0 0 0x1010)) (fun r w' => r.1 = 0 /\
    queue_ (w_st w') = [Job 2 1 [0x90; 0xc3] [1; 2; 3]] /\ enclave_futures_ (w_st w') = [Fut 1 sample_key (Some 2%positive)]) message_world.
Proof.
  eapply wp_mono; [apply (ogx_request_scheduled ogx_env _ sample_key sample_nonce 1 [0x90; 0xc3] [1; 2; 3] sample_box)|].
  - destruct message_memory_ok. by apply ogx_sample_ok.
  - apply not_elem_of_nil.
  - apply not_elem_of_nil.
  - done.
  - apply sample_key_ok.
  - done.
  - apply (Forall_replicate _ 24). unfold in_width. lia.
  - apply sample_event_ok.
  - vm_compute. reflexivity.
  - apply (bool_decide_unpack _). vm_compute. exact I.
  - intros r w' (Hr & _ & Hq & Hf). done.
Defined.

(** C26: When a task is done and the guest has offered a buffer for responses, the
    thread of [Execute] puts a message in the buffer that the sender of the
    request, and whoever has its secret key, decrypts to the enclave's number and
    the result of the task, with the public key of the device as its sender; it
    returns the buffer if the queue has room, raises the interrupt, and forgets
    the future.  The message is never longer than 2000 bytes. *)
Theorem ogx_response_decrypts {J} `{!Json J} `{!Sodium} `{!JsonLaws J} `{!SodiumLaws} (env : dev_env) i f t r sk b bs (w : ogx_world) :
  ogx_ok (w_st w) -> enclave_futures_ (w_st w) !! i = Some f -> f_task f = Some t -> results (w_st w) !! t = Some (Some r) ->
  response_buffers_ (w_st w) = b :: bs -> in_memory (m_mem (gd_base (w_st w))) (vb_guest_addr b) 2002 ->
  length sk = Z.to_nat crypto_box_SECRETKEYBYTES -> f_sender f = public_of sk ->
  pub_key_ (w_st w) = public_of (sec_key_ (w_st w)) -> is_bytes (sec_key_ (w_st w)) ->
  wp (respond env i) (fun _ w' => exists c,
    Decrypt sk c = Some (pub_key_ (w_st w), ResponseEvent (u32 (f_id f)) r) /\ length c <= 2000 /\
    after_put b (stored b c (gd_base (w_st w))) (gd_base (w_st w')) /\ response_buffers_ (w_st w') = bs /\
    enclave_futures_ (w_st w') = alter (fun f => f <| f_task := None |>) i (enclave_futures_ (w_st w)) /\
    last (w_trace w' : list dev_call) = Some (DWrite CHILD_DEVICE_IOAPIC_FD [READY_IRQ])) w.
Proof. intros. by eapply respond_exact. Qed.

Definition done_world : ogx_world :=
  World (ogx_sample zeros [] {[1%positive := Some [1; 2; 3]]} [Fut 1 sample_key (Some 1%positive)] [Vbuf 0x1010 2048 0 0 0 0x1010]) [] [].

Lemma done_world_ok : ogx_ok (w_st done_world).
Proof.
  apply ogx_sample_ok; [apply zeros_ok|apply zeros_ok|done| | |].
  - apply map_Forall_singleton. intros v [= <-]. split; [repeat constructor; unfold in_width; lia|done].
  - apply Forall_singleton, sample_key_ok.
  - apply Forall_singleton. intros t [= <-]. right. rewrite lookup_singleton_eq. by eexists.
Qed.

Lemma ogx_response_decrypts_witness : wp (respond ogx_env 0) (fun _ w' => exists c,
    Decrypt sample_key c = Some (sample_key, ResponseEvent 1 [1; 2; 3]) /\ length c <= 2000 /\ response_buffers_ (w_st w') = []) done_world.
Proof.
  eapply wp_mono; [apply (ogx_response_decrypts ogx_env 0 (Fut 1 sample_key (Some 1%positive)) 1%positive [1; 2; 3] sample_key (Vbuf 0x1010 2048 0 0 0 0x1010) [] done_world)|].
  - apply done_world_ok.
  - reflexivity.
  - reflexivity.
  - reflexivity.
  - reflexivity.
  - apply (bool_decide_unpack _). vm_compute. exact I.
  - reflexivity.
  - reflexivity.
  - reflexivity.
  - apply sample_key_ok.
  - intros x w' (c & Hc & Hl & _ & Hb & _). exists c. split_and!; [exact Hc|exact Hl|exact Hb].
Defined.
